(* ===== verification/_CoqProject ===== *)
-Q . S2P
Prelude.v
Sdk.v
SdkRef.v
Store.v
GoLib.v
Varint.v
Bank.v
GlobalFee.v
TokenFactory.v
FeeShare.v
HmOracle.v
HmVotes.v
HashMerchant.v
WasmAccess.v
WasmGas.v
WasmDispatch.v
WasmCircuits.v
WasmContracts.v
WasmPackets.v
WasmJson.v
WasmLifecycle.v
WasmSteps.v
WasmRefine.v
WasmIBC.v
WasmAuthz.v
WasmCodec.v
WasmVkCodec.v
WasmAnte.v
WasmDeposits.v
WasmEpochs.v
WasmMsgs.v
WasmServer.v
WasmApp.v
WasmGenesis.v
WasmQueryTypes.v
WasmQuery.v
WasmGrpc.v
VmHost.v
LibBackend.v
LibCalls.v
VmCalls.v
VmRef.v
SaFilter.v
SaAuth.v
SaKeeper.v
SaAnte.v
CwHooks.v
Drip.v
Cid.v
CidRef.v
