(* ===== verification/Prelude.v ===== *)
(** * Verification of terp-core

    terp-core is a Cosmos SDK chain written in Go.  This development models the
    parts of it that are specific to the chain and proves them correct.

    ** The program

    A transaction first runs through ante decorators: those of x/smart-account
    authenticate every message by an authenticator its sender has installed and
    deduct the fee.  x/globalfee has one that checks the fee against the minimum
    prices of the chain and the node, and x/feeshare one that shares the fee with
    the developers of the contracts executed; app/abci/ante.go does not install
    these two.  Messages are then handled by the
    modules: x/tokenfactory (denominations owned by accounts), x/feeshare
    (registrations), x/hashmerchant (roots of other chains, attested by
    validators in vote extensions and delivered to contracts), x/smart-account
    (authenticators), x/cw-hooks (contracts called back on staking and
    governance events), x/drip (payments into the fee collector), and x/wasm, a
    fork of the CosmWasm module extended by a registry of proof circuits paid
    for by deposits.  Contracts run in a virtual machine behind a boundary between
    Go and Rust (x/wasm/wasmvm), across which they call back for their store, for
    addresses and for queries.  At the end of a block x/hashmerchant prunes escrows and
    x/wasm prunes circuits and distributes the deposits.  After execution the
    post decorator of x/smart-account confirms every message.  A separate tool
    computes content identifiers of files (cmd/ipfs).

    ** Conventions

    [res] is the outcome of a Go call: a value, an error, named after the
    sentinel error of the source, or a panic.  [M S] is Go code over a state
    [S]; writes made before an error are kept, since rolling them back is the
    business of whoever opened the cached context.  Machine integers are [Z]
    with their wrap-around written out ([u64], [i64], [u32]); decimals are
    integers in units of 10^-18; byte slices are strings or lists of [Z]; KV
    stores are finite maps whose iteration is in key order ([Store]).  Code
    outside the repository (the SDK, cosmwasm-vm, encoding/json, cryptography) is a
    class of operations, with a second class that states its documented
    behaviour; the theorems hold for every implementation, and the witnesses
    run the code on reference implementations.

    ** Files

    Shared: [Prelude] (results, the state monad, integers, tactics), [Sdk] and
    [SdkRef] (coins, decimals, addresses, gas meters), [Store] (prefix
    iteration, key encodings), [GoLib] (sorting, map iteration, hexadecimal and
    decimal text), [Varint] (variable-length integers), [Bank] (the bank keeper).

    - [GlobalFee]: x/globalfee (ante/fee.go, ante/fee_utils.go, keeper,
      types/params.go).
    - [TokenFactory]: x/tokenfactory (keeper, types).
    - [FeeShare]: x/feeshare (ante/ante.go, keeper, types, genesis.go).
    - [HmOracle], [HmVotes], [HashMerchant]: x/hashmerchant; vote extensions
      and attestations (keeper/oracle.go, oracle_bundle.go), tally, proposals
      and callbacks (keeper/vote_ext.go, abci.go), messages, escrow, pruning and
      genesis.
    - [WasmAccess], [WasmGas], [WasmDispatch]: x/wasm access configurations and
      policies (types/params.go, types.go, keeper/authz_policy.go), the gas
      register (types/gas_register.go), and the dispatch of messages and
      submessages (keeper/msg_dispatcher.go, handler_plugin.go).
    - [WasmContracts], [WasmLifecycle], [WasmPackets], [WasmIBC]: contracts in
      the store with their histories and indexes; uploading, instantiating,
      executing, migrating, replies and admin operations (keeper/keeper.go);
      packets and the entry points of both versions of IBC (keeper/relay.go,
      ibc.go, ibc2.go and those of x/wasm itself).
    - [WasmMsgs], [WasmServer], [WasmApp]: messages with their validation and
      the encoders of the messages of contracts (types/tx.go,
      keeper/handler_plugin_encoders.go), the message server
      (keeper/msg_server.go) and the messenger, and all of it tied together:
      contracts whose messages run contracts.
    - [WasmSteps], [WasmRefine]: an abstract machine of codes and contracts, and
      the proof that every keeper call takes steps of it.
    - [WasmCircuits], [WasmDeposits], [WasmEpochs]: the circuit registry
      (keeper/keeper.go), deposits and garbage collection
      (keeper/circuit_deposit_gc.go, types/circuit_deposit.go), the pools and
      epochs (keeper/circuit_runway_pool.go, module.go).
    - [WasmGenesis]: validation, import and export (keeper/genesis.go,
      types/genesis.go).
    - [WasmQueryTypes], [WasmQuery], [WasmGrpc]: the requests of contracts, their
      answers in JSON and errors (wasmvm/types/queries.go, systemerror.go), the
      query plugins and nested queries (keeper/query_plugins.go), and the gRPC
      service (keeper/querier.go).
    - [WasmAuthz]: authorisations to store code and to execute or migrate
      contracts (types/authz.go, json_matching.go).
    - [WasmCodec], [WasmVkCodec], [WasmJson]: the hand-written protobuf codecs of
      the deposit query and of verification-key parameters
      (types/circuit_deposit.go, genesis_vk_param.go), and the computed size of
      messages in JSON (wasmvm/types/json_size.go).
    - [WasmAnte]: the ante decorators of x/wasm (keeper/ante.go).
    - [VmHost]: what a running contract calls (wasmvm/internal/api: memory.go,
      callbacks.go, iterator.go, iterator_read.go), with the state of the package
      as the record [Api] and a callback as a function on it and on the places for
      its results.
    - [LibBackend]: the Rust side of these calls (wasmvm/libwasmvm/src: memory.rs,
      error/go.rs, storage.rs, iterator.rs, api.rs, querier.rs) as trees of
      callbacks, and what they mean for the chain.
    - [LibCalls]: the functions libwasmvm exports to Go (calls.rs, cache.rs,
      error/rust.rs) in the module [C]; a contract that runs is a tree of requests.
    - [VmCalls]: their callers, wasmvm/internal/api/lib.go in the module [api] and
      the methods of wasmvm/lib_libwasmvm.go in the module [VM], and the address
      functions of keeper/api.go.  [VmRef] has a store, a cache and a machine to run
      these four on.
    - [SaFilter], [SaAuth]: x/smart-account authenticators: the comparison of
      JSON documents (authenticator/message_filter.go), all authenticators with
      every method of the interface, and the manager (authenticator/*.go).
    - [SaKeeper]: storage, messages, parameters and genesis (keeper/*.go,
      types/*.go, genesis.go).
    - [SaAnte]: building requests, the ante and post decorators, the circuit
      breaker and the signature events (authenticator/authentication_request.go,
      ante/*.go, post/post.go).
    - [CwHooks]: x/cw-hooks (keeper/*.go, types).
    - [Drip]: x/drip (keeper/*.go, types, genesis.go).
    - [Cid], [CidRef]: content identifiers and the identifier of a file
      (cmd/ipfs/cid.go, add.go), and reference codecs for them.

    Definitions bear the names of the Go functions; a loop or a block of a
    function that is modelled on its own has a lower-case name and is mapped to
    the lines of the loop.

    ** What is proved

    - Who may do what.  A transaction that passes the ante handler had every
      message accepted by an authenticator of its one signer, on a request that
      holds this message and is signed for the sequence number of the account, and
      nothing is written before the payer of the fee is authenticated ([SaAnte]); an
      authenticator decides exactly the boolean formula it spells ([SaAuth]);
      messages of x/tokenfactory, x/smart-account (where the contracts it calls do
      not call back), x/cw-hooks and x/drip act only for the accounts entitled to;
      however contracts are called, by messages, packets or hooks, and call each
      other, only its admin changes a contract ([WasmApp]); contracts speak only for
      themselves ([WasmDispatch]); an authorisation never spends more than it
      grants ([WasmAuthz]).
    - What messages do.  Balances, supply, registrations, escrow, deposits and
      numbering change exactly as specified ([TokenFactory], [FeeShare],
      [HashMerchant], [WasmDeposits], [WasmCircuits], [SaKeeper]); a response of
      a contract emits and dispatches what it says, in order ([WasmLifecycle]);
      listings and pages return exactly what is registered ([WasmSteps],
      [WasmGrpc], [WasmQuery]).
    - Refinement.  Every call of the x/wasm keeper, with all the calls it causes,
      is a sequence of steps of a small abstract machine ([WasmRefine],
      [WasmApp]), of which the invariants are proved.  Every request of a contract
      has exactly the effect of the operation of the chain it stands for, across
      both languages and the memory between them ([LibBackend]); every entry point
      runs the contract it is for and returns what that returns ([VmCalls]).
    - Resources.  A call of a contract that scans at most 32768 times closes every
      iterator handed out for it, however it ends and whatever its queries call;
      stepping through an iterator lists its entries
      ([VmHost]).  The gas reported for a call stays within its limit, and code is
      stored for its price or not at all ([VmCalls]).
    - Invariants over all reachable states: indexes agree with what they index,
      escrow stays covered, ids are not reused (those of authenticators unless a
      contract adds one while it is asked to accept another).
    - Failure is contained: failing submessages, callbacks and hooks leave no
      trace and are charged at most their limit; queries leave no trace at all.
    - Determinism: results that do not depend on the order of Go's map
      iteration or of its unstable sort ([HmVotes], [HmOracle]), and where they
      do.
    - Equivalences and round trips: the binary search over coins, the fee check
      against a short specification, genesis import and export of the modules,
      the codecs against reference encodings, sizes in JSON against the JSON,
      identifiers against their bytes, text and streams ([Cid]).
    - Termination: of nested authenticator configurations, of the decoders, of
      contracts calling contracts and of contracts querying contracts.

    ** Bounds

    Recursion that is not structural takes fuel.  [Find_fuel] halves a list and
    gets one more than its length.  [Initialize] and the callbacks on adding and
    removing authenticators get [enough config], one more than the length of the
    configuration, since a nested configuration is strictly shorter than the one
    it is part of; [lifecycle_terminates] shows that more makes no difference.
    The varint encoder gets 10 rounds, enough for 64 bits, the loop over a varint
    11, and the decoders one more than the number of bytes, each round consuming
    one.  Contracts calling contracts are unrolled to one level more than the
    maximal call depth allows, nested queries to one more than the query stack
    allows; [nested_calls_return] and [nested_queries_return] show that what lies
    beyond is never reached.  Reading a listing page by page takes as many pages
    as there are entries, and cutting a slice into chunks as many rounds as it has
    bytes.

    ** Not modelled

    The virtual machine itself: a contract is any function from its environment,
    message and state to a response, or for queries any tree of requests.  The
    cache and the interpreter of cosmwasm-vm are parameters, of [WasmLifecycle] as
    operations on codes and of [LibCalls] as operations on bytes.  Opening and
    releasing the cache, its metrics, the C calling convention, snapshots of the
    cache and the legacy governance route to the operations of x/wasm.  The queries
    of the other modules, command lines other than cmd/ipfs, simulations, legacy
    amino and parameter subspaces, telemetry and logging, which do not change the
    state of the chain.  Wiring of the
    application, upgrades and migrations between versions, except those of
    x/globalfee.  Generated protobuf code.  The gas the SDK charges for reading
    and writing the store is not modelled; gas that the repository's own code
    charges is. *)

From Stdlib Require Import ZArith Lia.
From stdpp Require Import base gmap strings list sorting.

#[global] Open Scope Z_scope.

(** ** Go results

    A Go call either returns a value with a nil error, returns a non-nil error
    (named after the sentinel error the source wraps), or panics. *)

Inductive res (A : Type) : Type :=
| Ok (a : A)
| Err (e : string)
| Panic (p : string).

Arguments Ok {A} a.
Arguments Err {A} e.
Arguments Panic {A} p.

#[global] Instance res_ret : MRet res := fun A a => Ok a.

#[global] Instance res_bind : MBind res := fun A B f m =>
  match m with Ok a => f a | Err e => Err e | Panic p => Panic p end.

#[global] Instance res_eq_dec {A} `{EqDecision A} : EqDecision (res A).
Proof. solve_decision. Defined.

(** [is_ok r] says that the call returned with a nil error. *)
Definition is_ok {A} (r : res A) : bool :=
  match r with Ok _ => true | _ => false end.

(** [ensure b e] is the Go idiom [if !b { return e }]. *)
Definition ensure (b : bool) (e : string) : res unit :=
  if b then Ok tt else Err e.

(** [refuse b e] is the Go idiom [if b { return e }]. *)
Definition refuse (b : bool) (e : string) : res unit :=
  if b then Err e else Ok tt.

(** [must b p] panics unless [b] holds. *)
Definition must (b : bool) (p : string) : res unit :=
  if b then Ok tt else Panic p.

(** ** Stateful Go code

    A handler runs over a state and keeps the writes made before an error or
    a panic: discarding them is the job of whoever opened the cached context,
    see [cached]. *)

Definition M (S A : Type) : Type := S -> res A * S.

#[global] Instance M_ret {S} : MRet (M S) := fun A a s => (Ok a, s).

#[global] Instance M_bind {S} : MBind (M S) := fun A B f m s =>
  match m s with
  | (Ok a, s') => f a s'
  | (Err e, s') => (Err e, s')
  | (Panic p, s') => (Panic p, s')
  end.

Definition get {S} : M S S := fun s => (Ok s, s).
Definition gets {S A} (f : S -> A) : M S A := fun s => (Ok (f s), s).
Definition modify {S} (f : S -> S) : M S unit := fun s => (Ok tt, f s).
Definition lift {S A} (r : res A) : M S A := fun s => (r, s).
Definition throw {S A} (e : string) : M S A := fun s => (Err e, s).
Definition panic {S A} (p : string) : M S A := fun s => (Panic p, s).
Definition ensureM {S} (b : bool) (e : string) : M S unit := lift (ensure b e).
Definition refuseM {S} (b : bool) (e : string) : M S unit := lift (refuse b e).

(** A Go [for range] loop whose body may return early with an error. *)
Fixpoint forM {S A} (l : list A) (f : A -> M S unit) : M S unit :=
  match l with
  | [] => mret tt
  | x :: l => f x;; forM l f
  end.

(** [cached m] is [CacheContext] followed by [write()] on success only: the
    writes of a call that failed or panicked are dropped. *)
Definition cached {S A} (m : M S A) : M S A := fun s =>
  match m s with
  | (Ok a, s') => (Ok a, s')
  | (r, _) => (r, s)
  end.

(** [zoom] runs a handler of a sub-state inside a larger state. *)
Definition zoom {S T A} (proj : S -> T) (upd : T -> S -> S) (m : M T A) : M S A :=
  fun s => let '(r, t) := m (proj s) in (r, upd t s).

(** [Preserves f m]: whatever it returns, [m] does not change what [f] sees. *)
Definition Preserves {S V A} (f : S -> V) (m : M S A) : Prop := forall s r s', m s = (r, s') -> f s' = f s.

Section PreservesRules.
Context {S V A B : Type} (f : S -> V).

Lemma Preserves_bind (m : M S A) (k : A -> M S B) :
  Preserves f m -> (forall x, Preserves f (k x)) -> Preserves f (m ≫= k).
Proof.
  intros Hm Hk s r s'. unfold mbind, M_bind. destruct (m s) as [[a|e|p] s1] eqn:E.
  - intros E'. rewrite (Hk _ _ _ _ E'). by eapply Hm.
  - intros [= _ <-]. by eapply Hm.
  - intros [= _ <-]. by eapply Hm.
Qed.

Lemma Preserves_ret (x : A) : Preserves f (mret x).
Proof. by intros s r s' [= _ <-]. Qed.

Lemma Preserves_lift (r : res A) : Preserves f (lift r).
Proof. by intros s r' s' [= _ <-]. Qed.

Lemma Preserves_gets (g : S -> A) : Preserves f (gets g).
Proof. by intros s r s' [= _ <-]. Qed.

Lemma Preserves_get : Preserves f get.
Proof. by intros s r s' [= _ <-]. Qed.

Lemma Preserves_throw e : Preserves f (throw e : M S A).
Proof. by intros s r s' [= _ <-]. Qed.

Lemma Preserves_panic e : Preserves f (panic e : M S A).
Proof. by intros s r s' [= _ <-]. Qed.

Lemma Preserves_ensure b e : Preserves f (ensureM b e).
Proof. by intros s r s' [= _ <-]. Qed.

Lemma Preserves_refuse b e : Preserves f (refuseM b e).
Proof. by intros s r s' [= _ <-]. Qed.

Lemma Preserves_modify g : (forall s, f (g s) = f s) -> Preserves f (modify g).
Proof. by intros Hg s r s' [= _ <-]. Qed.

Lemma Preserves_zoom {T U} (proj : S -> T) upd (v : T -> U) (m : M T A) :
  Preserves v m -> (forall s t, v t = v (proj s) -> f (upd t s) = f s) -> Preserves f (zoom proj upd m).
Proof.
  unfold zoom. intros Hm Hu s r s'. destruct (m (proj s)) as [x t] eqn:E. intros [= _ <-].
  apply Hu. by eapply Hm.
Qed.

(** A part that [f] does not look at. *)
Lemma Preserves_part {T} (proj : S -> T) upd (m : M T A) :
  (forall s t, f (upd t s) = f s) -> Preserves f (zoom proj upd m).
Proof. unfold zoom. intros Hu s r s'. destruct (m (proj s)) as [x t]. by intros [= _ <-]. Qed.

End PreservesRules.

Lemma Preserves_forM {S V A} (f : S -> V) (l : list A) (k : A -> M S unit) :
  (forall x, Preserves f (k x)) -> Preserves f (forM l k).
Proof. intros Hk. induction l; [apply Preserves_ret|by apply Preserves_bind]. Qed.

Create HintDb quiet.
#[export] Hint Resolve Preserves_ret Preserves_lift Preserves_gets Preserves_get Preserves_throw Preserves_panic
  Preserves_ensure Preserves_refuse Preserves_forM : quiet.
#[export] Hint Extern 3 (Preserves _ (modify _)) => apply Preserves_modify; reflexivity : quiet.
#[export] Hint Extern 3 (Preserves _ (zoom _ _ _)) => apply Preserves_part; reflexivity : quiet.

(** [preserves] goes through a body statement by statement. *)
Ltac preserves :=
  repeat (first [ solve [eauto with quiet] | apply Preserves_bind; [|intros ?]
                | match goal with |- Preserves _ (match ?x with _ => _ end) => destruct x end
                | match goal with |- Preserves _ (let '(_, _) := ?x in _) => destruct x end ]).

(** The call did not panic. *)
Definition returns {A} (r : res A) : Prop := match r with Panic _ => False | _ => True end.

(** A call that fails only by panicking. *)
Definition NoErr {S A} (m : M S A) : Prop := forall s e s', m s <> (Err e, s').

Lemma NoErr_bind {S A B} (m : M S A) (k : A -> M S B) : NoErr m -> (forall x, NoErr (k x)) -> NoErr (m ≫= k).
Proof.
  intros Hm Hk s e s'. unfold mbind, M_bind. destruct (m s) as [[a|e'|p] s1] eqn:E; [apply Hk| |done].
  by apply Hm in E.
Qed.

Lemma NoErr_lift {S A} (r : res A) : (forall e, r <> Err e) -> NoErr (lift r : M S A).
Proof. intros Hr s e s' [= E _]. by eapply Hr. Qed.

Lemma NoErr_zoom {S T A} (proj : S -> T) upd (m : M T A) : NoErr m -> NoErr (zoom proj upd m).
Proof. unfold zoom. intros Hm s e s'. destruct (m (proj s)) eqn:E. intros [= -> _]. by eapply Hm. Qed.

Lemma NoErr_Ok {S A} (m : M S A) s r s' : NoErr m -> m s = (r, s') -> returns r -> exists a, r = Ok a.
Proof. intros Hm E Hr. destruct r as [a|e|p]; [eauto| |done]. by apply Hm in E. Qed.

Lemma bind_Ok {S A B} (m : M S A) (f : A -> M S B) s b s' :
  (m ≫= f) s = (Ok b, s') <-> exists a s1, m s = (Ok a, s1) /\ f a s1 = (Ok b, s').
Proof.
  unfold mbind, M_bind. destruct (m s) as [[a|e|p] s1]; split.
  - intros; eauto.
  - intros (?&?&[= -> ->]&?); done.
  - done.
  - intros (?&?&?&?); done.
  - done.
  - intros (?&?&?&?); done.
Qed.

Lemma res_bind_Ok {A B} (m : res A) (f : A -> res B) b :
  m ≫= f = Ok b <-> exists a, m = Ok a /\ f a = Ok b.
Proof.
  destruct m; cbn; split; try naive_solver.
Qed.

Lemma ensure_Ok b e u : ensure b e = Ok u <-> b = true.
Proof. destruct b, u; cbn; naive_solver. Qed.

Lemma refuse_Ok b e u : refuse b e = Ok u <-> b = false.
Proof. destruct b, u; cbn; naive_solver. Qed.

Lemma must_Ok b p u : must b p = Ok u <-> b = true.
Proof. destruct b, u; cbn; naive_solver. Qed.

Lemma ensureM_Ok {S} b e u (s s' : S) : ensureM b e s = (Ok u, s') <-> b = true /\ s = s'.
Proof. unfold ensureM, lift. destruct b, u; cbn; naive_solver. Qed.

Lemma refuseM_Ok {S} b e u (s s' : S) : refuseM b e s = (Ok u, s') <-> b = false /\ s = s'.
Proof. unfold refuseM, lift. destruct b, u; cbn; naive_solver. Qed.

Lemma lift_Ok {S A} (r : res A) a (s s' : S) : lift r s = (Ok a, s') <-> r = Ok a /\ s = s'.
Proof. unfold lift. naive_solver. Qed.

Lemma ret_Ok {S A} (a b : A) (s s' : S) :
  (mret a : M S A) s = (Ok b, s') <-> a = b /\ s = s'.
Proof. unfold mret, M_ret. naive_solver. Qed.

Lemma gets_Ok {S A} (f : S -> A) a (s s' : S) :
  gets f s = (Ok a, s') <-> a = f s /\ s = s'.
Proof. unfold gets. naive_solver. Qed.

Lemma get_Ok {S} (a s s' : S) : get s = (Ok a, s') <-> a = s /\ s = s'.
Proof. unfold get. naive_solver. Qed.

Lemma modify_Ok {S} (f : S -> S) u (s s' : S) : modify f s = (Ok u, s') <-> s' = f s.
Proof. unfold modify. destruct u. naive_solver. Qed.

Lemma cached_fail {S A} (m : M S A) s : is_ok (cached m s).1 = false -> (cached m s).2 = s.
Proof. unfold cached. destruct (m s) as [[|?|?] ?]; cbn; done. Qed.

(** [atomic m s]: run from [s], [m] either returns normally or leaves the state
    alone. *)
Definition atomic {S A} (m : M S A) (s : S) : Prop := is_ok (m s).1 = false -> (m s).2 = s.

Lemma atomic_bind {S A B} (m : M S A) (f : A -> M S B) s :
  (m s).2 = s -> (forall a, m s = (Ok a, s) -> atomic (f a) s) -> atomic (m ≫= f) s.
Proof.
  unfold atomic, mbind, M_bind. intros Hro Hf. destruct (m s) as [[a|e|p] s1]; cbn in *; subst; auto.
Qed.

Lemma atomic_total {S A} (m : M S A) s : is_ok (m s).1 = true -> atomic m s.
Proof. unfold atomic. intros ->. done. Qed.

Lemma atomic_ro {S A} (m : M S A) s : (m s).2 = s -> atomic m s.
Proof. by intros ? ?. Qed.

(** [go_inv] splits a hypothesis saying that a handler returned normally into
    one equation per statement of the handler. *)
Ltac go_inv1 :=
  match goal with
  | H : (mbind _ _) _ = (Ok _, _) |- _ =>
      apply bind_Ok in H; destruct H as (?&?&?&?)
  | H : mbind _ _ = Ok _ |- _ =>
      apply res_bind_Ok in H; destruct H as (?&?&?)
  | H : ensure _ _ = Ok _ |- _ => apply ensure_Ok in H
  | H : refuse _ _ = Ok _ |- _ => apply refuse_Ok in H
  | H : must _ _ = Ok _ |- _ => apply must_Ok in H
  | H : ensureM _ _ _ = (Ok _, _) |- _ => apply ensureM_Ok in H; destruct H as [? ?]
  | H : refuseM _ _ _ = (Ok _, _) |- _ => apply refuseM_Ok in H; destruct H as [? ?]
  | H : lift _ _ = (Ok _, _) |- _ => apply lift_Ok in H; destruct H as [? ?]
  | H : mret _ _ = (Ok _, _) |- _ => apply ret_Ok in H; destruct H as [? ?]
  | H : gets _ _ = (Ok _, _) |- _ => apply gets_Ok in H; destruct H as [? ?]
  | H : get _ = (Ok _, _) |- _ => apply get_Ok in H; destruct H as [? ?]
  | H : modify _ _ = (Ok _, _) |- _ => apply modify_Ok in H
  | H : bool_decide _ = true |- _ => apply bool_decide_eq_true in H
  | H : bool_decide _ = false |- _ => apply bool_decide_eq_false in H
  | H : throw _ _ = (Ok _, _) |- _ => discriminate H
  | H : panic _ _ = (Ok _, _) |- _ => discriminate H
  end.

Ltac go_inv := repeat (go_inv1; simplify_eq/=).

(** Steps through the guards of a handler in a proof of [atomic]. *)
Ltac atomic_guards :=
  repeat (apply atomic_bind; [done|]; intros; go_inv).

(** [go_run] unfolds the monad so that a handler can be executed by rewriting. *)
Ltac go_run :=
  unfold mbind, M_bind, res_bind, mret, M_ret, res_ret, get, gets, modify, lift, throw, panic,
    ensureM, refuseM, ensure, refuse, must; cbn.

(** [split_guard] splits on the scrutinee of the innermost [if] or [match]. *)
Ltac split_guard :=
  match goal with
  | |- context [if ?b then _ else _] => destruct b eqn:?
  | H : context [if ?b then _ else _] |- _ => destruct b eqn:?
  end.

(** ** Machine integers *)

Definition u64_max : Z := 2 ^ 64 - 1.
Definition u64 (z : Z) : Z := z mod 2 ^ 64.
Definition u32 (z : Z) : Z := z mod 2 ^ 32.
Definition is_u64 (z : Z) : Prop := 0 <= z < 2 ^ 64.
Definition is_byte (z : Z) : Prop := 0 <= z < 256.

(** Conversion [int64(x)] of an unsigned 64-bit value. *)
Definition i64 (z : Z) : Z :=
  let w := z mod 2 ^ 64 in if w <? 2 ^ 63 then w else w - 2 ^ 64.

Lemma u64_small z : is_u64 z -> u64 z = z.
Proof. unfold u64, is_u64. intros. apply Z.mod_small. lia. Qed.

Lemma u64_range z : is_u64 (u64 z).
Proof. unfold u64, is_u64. apply Z.mod_pos_bound. lia. Qed.

Lemma u32_small z : 0 <= z < 2 ^ 32 -> u32 z = z.
Proof. unfold u32. intros. apply Z.mod_small. lia. Qed.

Lemma i64_small z : 0 <= z < 2 ^ 63 -> i64 z = z.
Proof.
  intros. unfold i64. rewrite Z.mod_small by lia.
  destruct (Z.ltb_spec z (2 ^ 63)); lia.
Qed.

Lemma i64_wrapped z : 2 ^ 63 <= z < 2 ^ 64 -> i64 z = z - 2 ^ 64.
Proof.
  intros. unfold i64. rewrite Z.mod_small by lia.
  destruct (Z.ltb_spec z (2 ^ 63)); lia.
Qed.

(** ** Byte strings: [binary.BigEndian] and [binary.LittleEndian] *)

Fixpoint le_encode (n : nat) (z : Z) : list Z :=
  match n with
  | O => []
  | S n => z mod 256 :: le_encode n (z / 256)
  end.

Fixpoint le_decode (bz : list Z) : Z :=
  match bz with
  | [] => 0
  | b :: bz => b + 256 * le_decode bz
  end.

Definition be_encode (n : nat) (z : Z) : list Z := rev (le_encode n z).
Definition be_decode (bz : list Z) : Z := le_decode (rev bz).

(** [sdk.Uint64ToBigEndian]'s layout, eight bytes. *)
Definition be64 (z : Z) : list Z := be_encode 8 z.

Lemma le_encode_length n z : length (le_encode n z) = n.
Proof. revert z. induction n; intros; cbn; auto. Qed.

Lemma be_encode_length n z : length (be_encode n z) = n.
Proof. unfold be_encode. rewrite length_rev. apply le_encode_length. Qed.

Lemma le_encode_bytes n z : Forall is_byte (le_encode n z).
Proof.
  revert z. induction n; intros; cbn; constructor; auto.
  unfold is_byte. apply Z.mod_pos_bound. lia.
Qed.

Lemma le_decode_encode n z : 0 <= z < 256 ^ Z.of_nat n -> le_decode (le_encode n z) = z.
Proof.
  revert z. induction n as [|n IH]; intros z Hz; cbn [le_encode le_decode].
  - change (256 ^ Z.of_nat 0) with 1 in Hz. lia.
  - rewrite Nat2Z.inj_succ, Z.pow_succ_r in Hz by lia.
    rewrite IH.
    + pose proof (Z.div_mod z 256). lia.
    + split; [apply Z.div_pos; lia | apply Z.div_lt_upper_bound; lia].
Qed.

Lemma be_decode_encode n z : 0 <= z < 256 ^ Z.of_nat n -> be_decode (be_encode n z) = z.
Proof. unfold be_decode, be_encode. rewrite rev_involutive. apply le_decode_encode. Qed.

Lemma be64_decode z : is_u64 z -> be_decode (be64 z) = z.
Proof. intros. apply be_decode_encode. exact H. Qed.

Lemma be64_inj x y : is_u64 x -> is_u64 y -> be64 x = be64 y -> x = y.
Proof. intros Hx Hy E. rewrite <- (be64_decode x), <- (be64_decode y), E by done. done. Qed.

Lemma be64_length z : length (be64 z) = 8%nat.
Proof. apply be_encode_length. Qed.

(** ** Go string comparison: lexicographic on bytes *)

Definition str_ltb (s t : string) : bool :=
  match String.compare s t with Lt => true | _ => false end.
Definition str_lt (s t : string) : Prop := str_ltb s t = true.
Definition str_leb (s t : string) : bool := negb (str_ltb t s).

#[global] Instance str_lt_dec s t : Decision (str_lt s t).
Proof. unfold str_lt. apply _. Defined.

Lemma ascii_compare_eq a b : Ascii.compare a b = Eq -> a = b.
Proof. apply Ascii.compare_eq_iff. Qed.

Lemma substring_all s : String.substring 0 (String.length s) s = s.
Proof. induction s as [|c s IH]; cbn; congruence. Qed.

Lemma string_compare_refl s : String.compare s s = Eq.
Proof.
  induction s as [|a s IH]; cbn; auto.
  assert (Ascii.compare a a = Eq) as ->; auto.
  unfold Ascii.compare. apply N.compare_refl.
Qed.

Lemma str_ltb_irrefl s : str_ltb s s = false.
Proof. unfold str_ltb. rewrite string_compare_refl. done. Qed.

Lemma str_lt_trans s t u : str_lt s t -> str_lt t u -> str_lt s u.
Proof.
  unfold str_lt, str_ltb. revert t u.
  induction s as [|a s IH]; intros [|b t] [|c u]; cbn; try done.
  destruct (Ascii.compare a b) eqn:Hab; [|clear IH|done].
  - apply ascii_compare_eq in Hab as ->.
    destruct (Ascii.compare b c); [apply IH|done|done].
  - destruct (Ascii.compare b c) eqn:Hbc; [|intros _ _|done].
    + apply ascii_compare_eq in Hbc as ->. rewrite Hab. done.
    + unfold Ascii.compare in *. rewrite N.compare_lt_iff in *.
      assert ((Ascii.N_of_ascii a ?= Ascii.N_of_ascii c)%N = Lt) as ->; [|done].
      apply N.compare_lt_iff. lia.
Qed.

Lemma str_lt_ne s t : str_lt s t -> s <> t.
Proof. intros H ->. unfold str_lt in H. rewrite str_ltb_irrefl in H. done. Qed.

Lemma str_trichotomy s t : str_lt s t \/ s = t \/ str_lt t s.
Proof.
  unfold str_lt, str_ltb. rewrite (String.compare_antisym t s).
  destruct (String.compare s t) eqn:E; cbn; auto.
  apply String.compare_eq_iff in E. auto.
Qed.

Lemma str_lt_asym s t : str_lt s t -> str_ltb t s = false.
Proof.
  intros H. destruct (str_ltb t s) eqn:E; [|done].
  exfalso. apply (str_lt_ne s s); [|done]. eapply str_lt_trans; eauto.
Qed.

(** ** Hint database of the development *)

Create HintDb terp.
Create Rewrite HintDb terp.
#[export] Hint Resolve u64_range le_encode_bytes str_lt_trans : terp.
#[export] Hint Rewrite @length_app @le_encode_length @be_encode_length @be64_length : terp.
