(* ===== verification/Sdk.v ===== *)
(** * The Cosmos SDK interfaces terp-core is written against

    The SDK is not part of the repository.  Its operations are members of the
    classes below; a second class states the documented behaviour the modules
    rely on.  Every theorem about a module is proved for all implementations
    that satisfy the laws, and the instances at the end show that the laws are
    satisfiable. *)

From Stdlib Require Import ZArith Lia.
From stdpp Require Import base gmap strings list sorting.
From S2P Require Import Prelude.

(** ** Data *)

(** [sdk.Coin]: an integer amount of a denomination. *)
Record Coin := mkCoin { Denom : string; Amount : Z }.

(** [sdk.DecCoin]: the amount is a [LegacyDec], that is an integer number of
    10^-18 units. *)
Record DecCoin := mkDecCoin { DDenom : string; DAmount : Z }.

#[global] Instance Coin_eq_dec : EqDecision Coin.
Proof. solve_decision. Defined.
#[global] Instance DecCoin_eq_dec : EqDecision DecCoin.
Proof. solve_decision. Defined.

(** The representation of the decimal 1. *)
Definition dec_one : Z := 10 ^ 18.

(** Rounding to the nearest integer, ties to even, of [a / b] with [b > 0]. *)
Definition round_half_even (a b : Z) : Z :=
  let q := a / b in
  let r := a mod b in
  if 2 * r <? b then q
  else if b <? 2 * r then q + 1
  else if Z.even q then q else q + 1.

(** The amount of [d] in a list of coins. *)
Fixpoint amount_of (c : list Coin) (d : string) : Z :=
  match c with
  | [] => 0
  | x :: c => if decide (Denom x = d) then Amount x + amount_of c d else amount_of c d
  end.

Definition denoms (c : list Coin) : list string := map Denom c.

Definition coin_lt (x y : Coin) : Prop := str_lt (Denom x) (Denom y).

(** The invariant of [sdk.Coins]: denominations strictly increasing and every
    amount positive. *)
Definition coins_ok (c : list Coin) : Prop :=
  StronglySorted coin_lt c /\ Forall (fun x => 0 < Amount x) c.

(** [math.LegacyNewDec]. *)
Definition LegacyNewDec (n : Z) : Z := n * dec_one.

(** ** Operations *)

(** [cosmossdk.io/math.LegacyDec]. *)
Class SdkMath := {
  dec_mul : Z -> Z -> Z;
  dec_mul_int : Z -> Z -> Z;
  dec_quo_int64 : Z -> Z -> Z;
  dec_ceil : Z -> Z;
  dec_round_int : Z -> Z;
  dec_truncate_int : Z -> Z
}.

(** [sdk.Coins] and the denomination check. *)
Class SdkCoins := {
  ValidateDenom : string -> bool;
  NewCoin : string -> Z -> res Coin;
  NewDecCoinFromDec : string -> Z -> res DecCoin;
  NewCoins : list Coin -> res (list Coin);
  Coins_Validate : list Coin -> res unit;
  Coin_IsValid : Coin -> bool;
  coins_sort : list Coin -> list Coin;
  coins_add : list Coin -> list Coin -> list Coin;
  coins_sub : list Coin -> list Coin -> res (list Coin);
  denoms_subset_of : list Coin -> list Coin -> bool;
  is_any_gte : list Coin -> list Coin -> bool;
  is_all_lte : list Coin -> list Coin -> bool
}.

(** Bech32 account addresses; an [sdk.AccAddress] is kept as the Go string of
    its bytes. *)
Class Bech32 := {
  AccAddressFromBech32 : string -> res string;
  AccAddress_String : string -> string
}.

(** ** Documented behaviour *)

Class SdkMathLaws `{SdkMath} : Prop := {
  dec_mul_spec a b : dec_mul a b = round_half_even (a * b) dec_one;
  dec_mul_int_spec a i : dec_mul_int a i = a * i;
  dec_quo_int64_spec a n : n <> 0 -> dec_quo_int64 a n = Z.quot a n;
  dec_ceil_spec a : dec_ceil a = - (- a / dec_one) * dec_one;
  dec_round_int_spec a : dec_round_int a = round_half_even a dec_one;
  dec_truncate_int_spec a : dec_truncate_int a = Z.quot a dec_one
}.

(** [IsAnyGTE] and friends are documented to work on sets of coins that are
    sorted and free of zero amounts, and say nothing outside. *)
Class SdkCoinsLaws `{SdkCoins} : Prop := {
  NewCoin_ok d a : ValidateDenom d = true -> 0 <= a -> NewCoin d a = Ok (mkCoin d a);
  NewCoin_panics d a : ValidateDenom d = false \/ a < 0 -> exists p, NewCoin d a = Panic p;
  NewCoins_ok c r : NewCoins c = Ok r ->
    coins_ok r /\ (forall d, amount_of r d = amount_of c d);
  NewCoins_valid c : NoDup (denoms c) ->
    Forall (fun x => ValidateDenom (Denom x) = true /\ 0 <= Amount x) c ->
    exists r, NewCoins c = Ok r;
  Coins_Validate_spec c : Coins_Validate c = Ok tt <->
    coins_ok c /\ Forall (fun x => ValidateDenom (Denom x) = true) c;
  Coin_IsValid_spec c : Coin_IsValid c = true <-> ValidateDenom (Denom c) = true /\ 0 <= Amount c;
  NewCoins_no_error c e : NewCoins c <> Err e;
  NewDecCoin_ok d a :
    ValidateDenom d = true -> 0 <= a -> NewDecCoinFromDec d a = Ok (mkDecCoin d a);
  NewDecCoin_panics d a :
    ValidateDenom d = false \/ a < 0 -> exists p, NewDecCoinFromDec d a = Panic p;
  coins_sort_perm c : coins_sort c ≡ₚ c;
  coins_sort_sorted c : NoDup (denoms c) -> StronglySorted coin_lt (coins_sort c);
  coins_add_spec a b d : coins_ok a -> coins_ok b ->
    coins_ok (coins_add a b) /\ amount_of (coins_add a b) d = amount_of a d + amount_of b d;
  coins_sub_ok a b c : coins_ok a -> coins_ok b -> coins_sub a b = Ok c ->
    coins_ok c /\ (forall d, amount_of c d = amount_of a d - amount_of b d);
  coins_sub_total a b : coins_ok a -> coins_ok b ->
    (forall d, amount_of b d <= amount_of a d) -> exists c, coins_sub a b = Ok c;
  denoms_subset_of_spec a b : denoms_subset_of a b = true <-> denoms a ⊆ denoms b;
  is_any_gte_spec a b : coins_ok a -> coins_ok b ->
    is_any_gte a b = true <->
    exists x y, x ∈ a /\ y ∈ b /\ Denom x = Denom y /\ Amount y <= Amount x;
  is_all_lte_spec a b : coins_ok a -> coins_ok b ->
    is_all_lte a b = true <-> forall d, amount_of a d <= amount_of b d
}.

Class Bech32Laws `{Bech32} : Prop := {
  bech32_roundtrip a : a <> ""%string -> AccAddressFromBech32 (AccAddress_String a) = Ok a;
  bech32_nonempty s a : AccAddressFromBech32 s = Ok a -> a <> ""%string;
  bech32_empty : is_ok (AccAddressFromBech32 "") = false;
  bech32_no_panic s p : AccAddressFromBech32 s <> Panic p
}.

(** Gas meters: [storetypes.GasMeter]. *)
Class GasMeterOps (G : Type) := {
  NewGasMeter : Z -> G;
  GasConsumed : G -> Z;
  GasLimit : G -> Z;
  GasConsumedToLimit : G -> Z;
  IsOutOfGas : G -> bool;
  ConsumeGas : Z -> M G unit
}.

(** Consuming past the limit panics and the excess stays on the meter.  The
    infinite meter reports the largest limit and is never out of gas. *)
Class GasMeterLaws (G : Type) `{GasMeterOps G} : Prop := {
  NewGasMeter_consumed l : GasConsumed (NewGasMeter l) = 0;
  NewGasMeter_limit l : GasLimit (NewGasMeter l) = l;
  GasConsumedToLimit_min g : GasConsumedToLimit g = Z.min (GasConsumed g) (GasLimit g);
  IsOutOfGas_finite g : GasLimit g < u64_max ->
    IsOutOfGas g = (GasLimit g <=? GasConsumed g);
  ConsumeGas_ok n g : GasConsumed g + n <= GasLimit g ->
    exists g', ConsumeGas n g = (Ok tt, g') /\
      GasConsumed g' = GasConsumed g + n /\ GasLimit g' = GasLimit g;
  ConsumeGas_out n g : GasLimit g < GasConsumed g + n <= u64_max ->
    exists g', ConsumeGas n g = (Panic "ErrorOutOfGas", g') /\
      GasConsumed g' = GasConsumed g + n /\ GasLimit g' = GasLimit g;
  ConsumeGas_overflow n g : GasLimit g < GasConsumed g + n -> u64_max < GasConsumed g + n ->
    exists g', ConsumeGas n g = (Panic "ErrorGasOverflow", g') /\
      GasConsumed g' = u64_max /\ GasLimit g' = GasLimit g
}.

(** ** Facts about amounts *)

Lemma amount_of_nonneg c d : Forall (fun x => 0 < Amount x) c -> 0 <= amount_of c d.
Proof.
  induction 1 as [|x c Hx Hc IH]; cbn; [lia|]. case_decide; lia.
Qed.

Lemma amount_of_not_in c d : d ∉ denoms c -> amount_of c d = 0.
Proof.
  induction c as [|x c IH]; cbn; [done|].
  rewrite not_elem_of_cons. intros [? ?]. case_decide; [congruence|auto].
Qed.

Lemma amount_of_app a b d : amount_of (a ++ b) d = amount_of a d + amount_of b d.
Proof. induction a as [|x a IH]; cbn; [lia|]. case_decide; lia. Qed.

#[global] Instance amount_of_perm : Proper (Permutation ==> eq ==> eq) amount_of.
Proof.
  intros a b Hp d ? <-. induction Hp; cbn; auto; repeat case_decide; lia.
Qed.

Lemma coin_lt_sorted_nodup c : StronglySorted coin_lt c -> NoDup (denoms c).
Proof.
  induction 1 as [|x c Hs IH Hx]; cbn; constructor; [|done].
  intros Hin. apply list_elem_of_fmap in Hin as (y & E & Hy).
  rewrite Forall_forall in Hx. apply Hx in Hy. apply str_lt_ne in Hy. done.
Qed.

Lemma amount_of_in c x : NoDup (denoms c) -> x ∈ c -> amount_of c (Denom x) = Amount x.
Proof.
  induction c as [|y c IH]; cbn; [intros _ Hx; inversion Hx|].
  intros Hnd Hx. apply NoDup_cons in Hnd as [Hy Hnd].
  apply elem_of_cons in Hx as [->|Hx].
  - rewrite decide_True by done. rewrite amount_of_not_in by done. lia.
  - case_decide as E; [|auto]. exfalso. apply Hy. rewrite E.
    apply list_elem_of_fmap. eauto.
Qed.

Lemma coins_ok_nil : coins_ok [].
Proof. split; constructor. Qed.

(** Sorting leaves a sorted set of coins as it is. *)
Lemma coins_sort_id `{SdkCoinsLaws} c : StronglySorted coin_lt c -> coins_sort c = c.
Proof.
  intros Hs. apply (StronglySorted_unique_strong coin_lt).
  - intros x y _ _ Hxy Hyx. exfalso. apply (str_lt_ne (Denom x) (Denom x)); [|done].
    eapply str_lt_trans; [exact Hxy|exact Hyx].
  - apply coins_sort_sorted. by apply coin_lt_sorted_nodup.
  - done.
  - apply coins_sort_perm.
Qed.

Lemma StronglySorted_filter {A} (R : A -> A -> Prop) f l :
  StronglySorted R l -> StronglySorted R (List.filter f l).
Proof.
  induction 1 as [|x l Hs IH Hx]; cbn; [constructor|].
  destruct (f x); [|done]. constructor; [done|].
  rewrite List.Forall_forall in Hx. apply List.Forall_forall.
  intros y Hy. apply filter_In in Hy as [? ?]. auto.
Qed.

Lemma NewCoin_inv `{SdkCoinsLaws} d a c : NewCoin d a = Ok c -> c = mkCoin d a /\ 0 <= a.
Proof.
  intros E. destruct (ValidateDenom d) eqn:Hd, (Z.leb_spec 0 a).
  - rewrite NewCoin_ok in E by done. by injection E as <-.
  - destruct (NewCoin_panics d a) as [p Hp]; [by right|congruence].
  - destruct (NewCoin_panics d a) as [p Hp]; [by left|congruence].
  - destruct (NewCoin_panics d a) as [p Hp]; [by left|congruence].
Qed.

Lemma coins_ok_single d a : 0 < a -> coins_ok [mkCoin d a].
Proof. intros. split; repeat constructor. done. Qed.

Lemma round_half_even_exact a b : 0 < b -> round_half_even (a * b) b = a.
Proof.
  intros. unfold round_half_even. rewrite Z.mod_mul, Z.div_mul by lia.
  destruct (Z.ltb_spec (2 * 0) b); lia.
Qed.

Lemma round_half_even_nearest a b : 0 < b -> 2 * Z.abs (round_half_even a b * b - a) <= b.
Proof.
  intros Hb. unfold round_half_even.
  pose proof (Z.div_mod a b ltac:(lia)). pose proof (Z.mod_pos_bound a b Hb).
  repeat (split_guard; rewrite ?Z.ltb_lt, ?Z.ltb_ge in * ); lia.
Qed.

Lemma dec_ceil_bounds `{SdkMathLaws} a :
  a <= dec_round_int (dec_ceil a) * dec_one < a + dec_one.
Proof.
  rewrite dec_round_int_spec, dec_ceil_spec, round_half_even_exact by done.
  pose proof (Z.div_mod (- a) dec_one ltac:(done)).
  pose proof (Z.mod_pos_bound (- a) dec_one ltac:(done)). lia.
Qed.

#[export] Hint Resolve amount_of_nonneg coin_lt_sorted_nodup coins_ok_nil : terp.
