(* ===== verification/SdkRef.v ===== *)
(** * A reference implementation of the SDK interfaces

    Executable instances of the classes of [Sdk] that satisfy their laws.  The
    witnesses of the theorems run the modules on them. *)

From Stdlib Require Import ZArith Lia.
From stdpp Require Import base gmap strings list sorting.
From S2P Require Import Prelude Sdk.

Definition str_le (s t : string) : Prop := str_leb s t = true.

#[global] Instance str_le_dec s t : Decision (str_le s t).
Proof. unfold str_le. apply _. Defined.

Module Ref.

#[export] Instance math_ops : SdkMath := {|
  dec_mul a b := round_half_even (a * b) dec_one;
  dec_mul_int a i := a * i;
  dec_quo_int64 a n := Z.quot a n;
  dec_ceil a := - (- a / dec_one) * dec_one;
  dec_round_int a := round_half_even a dec_one;
  dec_truncate_int a := Z.quot a dec_one
|}.

#[export] Instance math_laws : SdkMathLaws.
Proof. split; reflexivity. Qed.

(** Coins tabulated from an amount function over a list of denominations. *)
Definition tabulate (f : string -> Z) (ds : list string) : list Coin :=
  List.filter (fun c => negb (Amount c =? 0)) (map (fun d => mkCoin d (f d)) ds).

Definition all_denoms (a b : list Coin) : list string :=
  merge_sort str_le (remove_dups (denoms a ++ denoms b)).

Definition coin_le (x y : Coin) : Prop := str_le (Denom x) (Denom y).

#[export] Instance coin_le_dec x y : Decision (coin_le x y).
Proof. unfold coin_le. apply _. Defined.

Definition sub (a b : list Coin) : res (list Coin) :=
  let f d := amount_of a d - amount_of b d in
  if forallb (fun d => 0 <=? f d) (all_denoms a b)
  then Ok (tabulate f (all_denoms a b)) else Err "negative coin amount".

Definition valid_denom (d : string) : bool :=
  (3 <=? Z.of_nat (String.length d)) && (Z.of_nat (String.length d) <=? 128).

#[export] Instance coin_lt_dec x y : Decision (coin_lt x y).
Proof. unfold coin_lt. apply _. Defined.

#[export] Instance sorted_dec c : Decision (StronglySorted coin_lt c).
Proof.
  induction c as [|x c IH]; [left; constructor|].
  destruct IH as [Hs|Hs]; [|right; by inversion 1].
  destruct (decide (Forall (coin_lt x) c)); [left; by constructor|right; by inversion 1].
Defined.

#[export] Instance coins_ops : SdkCoins := {|
  ValidateDenom := valid_denom;
  NewCoin d a := if valid_denom d && (0 <=? a) then Ok (mkCoin d a) else Panic "invalid coin";
  NewDecCoinFromDec d a :=
    if valid_denom d && (0 <=? a) then Ok (mkDecCoin d a) else Panic "invalid coin";
  NewCoins c :=
    if bool_decide (NoDup (denoms c)) &&
       forallb (fun x => valid_denom (Denom x) && (0 <=? Amount x)) c
    then Ok (tabulate (amount_of c) (all_denoms c [])) else Panic "invalid coins";
  Coins_Validate c :=
    ensure (bool_decide (StronglySorted coin_lt c) &&
            forallb (fun x => valid_denom (Denom x) && (0 <? Amount x)) c) "invalid coins";
  Coin_IsValid x := valid_denom (Denom x) && (0 <=? Amount x);
  coins_sort c := merge_sort coin_le c;
  coins_add a b := tabulate (fun d => amount_of a d + amount_of b d) (all_denoms a b);
  coins_sub := sub;
  denoms_subset_of a b := bool_decide (denoms a ⊆ denoms b);
  is_any_gte a b :=
    existsb (fun x => existsb (fun y =>
      bool_decide (Denom x = Denom y) && (Amount y <=? Amount x)) b) a;
  is_all_lte a b := forallb (fun d => amount_of a d <=? amount_of b d) (all_denoms a b)
|}.

(** An address whose text is the word "addr" followed by its bytes. *)
#[export] Instance bech32_ops : Bech32 := {|
  AccAddressFromBech32 s :=
    let a := String.substring 4 (String.length s - 4) s in
    if bool_decide (String.substring 0 4 s = "addr"%string) && negb (bool_decide (a = ""%string))
    then Ok a else Err "decoding bech32 failed";
  AccAddress_String a := if bool_decide (a = ""%string) then ""%string else ("addr" ++ a)%string
|}.

(** A gas meter as consumed gas and limit. *)
Record meter := mkMeter { consumed : Z; limit : Z }.

#[export] Instance gas_ops : GasMeterOps meter := {|
  NewGasMeter l := mkMeter 0 l;
  GasConsumed := consumed;
  GasLimit := limit;
  GasConsumedToLimit g := Z.min (consumed g) (limit g);
  IsOutOfGas g := if limit g =? u64_max then false else limit g <=? consumed g;
  ConsumeGas n := fun g =>
    let c := consumed g + n in
    if c <=? limit g then (Ok tt, mkMeter c (limit g))
    else if c <=? u64_max then (Panic "ErrorOutOfGas", mkMeter c (limit g))
    else (Panic "ErrorGasOverflow", mkMeter u64_max (limit g))
|}.

End Ref.

(** ** The laws *)

#[global] Instance str_le_trans : Transitive str_le.
Proof.
  intros s t u. unfold str_le, str_leb. rewrite !negb_true_iff.
  intros Hs Ht. destruct (str_ltb u s) eqn:E; [|done].
  destruct (str_trichotomy t u) as [H|[->|H]].
  - assert (str_lt t s) as Hts by (eapply str_lt_trans; eauto). unfold str_lt in Hts. congruence.
  - congruence.
  - unfold str_lt in H. congruence.
Qed.

#[global] Instance str_le_total : Total str_le.
Proof.
  intros s t. unfold str_le, str_leb.
  destruct (str_trichotomy s t) as [H|[->|H]].
  - left. rewrite (str_lt_asym _ _ H). done.
  - left. rewrite str_ltb_irrefl. done.
  - right. rewrite (str_lt_asym _ _ H). done.
Qed.

Lemma str_le_lt s t : str_le s t -> s <> t -> str_lt s t.
Proof.
  unfold str_le, str_leb. rewrite negb_true_iff. intros H Hne.
  destruct (str_trichotomy s t) as [?|[?|Ht]]; try done. unfold str_lt in Ht. congruence.
Qed.

(** Sorting by a key with no repetitions sorts strictly. *)
Lemma sorted_le_lt {A} (key : A -> string) (l : list A) :
  StronglySorted (fun x y => str_le (key x) (key y)) l -> NoDup (map key l) ->
  StronglySorted (fun x y => str_lt (key x) (key y)) l.
Proof.
  induction 1 as [|x l Hs IH Hx]; cbn; [constructor|].
  rewrite NoDup_cons. intros [Hin Hnd]. constructor; [auto|].
  rewrite Forall_forall in Hx |- *. intros y Hy. apply str_le_lt; [auto|].
  intros E. apply Hin. rewrite E. apply list_elem_of_fmap. eauto.
Qed.

Module RefLaws.
Import Ref.

Lemma all_denoms_sorted a b : StronglySorted str_lt (all_denoms a b).
Proof.
  apply (sorted_le_lt id).
  - apply (StronglySorted_merge_sort str_le).
  - rewrite map_id. unfold all_denoms.
    rewrite merge_sort_Permutation. apply NoDup_remove_dups.
Qed.

Lemma elem_of_all_denoms a b d : d ∈ all_denoms a b <-> d ∈ denoms a \/ d ∈ denoms b.
Proof.
  unfold all_denoms. rewrite merge_sort_Permutation, elem_of_remove_dups, elem_of_app. done.
Qed.

Lemma tabulate_elem f ds x :
  x ∈ tabulate f ds <-> Denom x ∈ ds /\ Amount x = f (Denom x) /\ Amount x <> 0.
Proof.
  unfold tabulate. rewrite list_elem_of_In, filter_In, in_map_iff.
  setoid_rewrite <- list_elem_of_In. destruct x as [d z]; cbn.
  rewrite negb_true_iff, Z.eqb_neq. naive_solver.
Qed.

Lemma tabulate_sorted f ds : StronglySorted str_lt ds -> StronglySorted coin_lt (tabulate f ds).
Proof.
  unfold tabulate. induction 1 as [|d ds Hs IH Hd]; cbn; [constructor|].
  destruct (negb _); [|done]. constructor; [done|].
  rewrite List.Forall_forall in Hd. apply List.Forall_forall. intros y Hy.
  apply list_elem_of_In in Hy. setoid_rewrite <- list_elem_of_In in Hd.
  apply tabulate_elem in Hy as (Hy & _). unfold coin_lt. cbn. auto.
Qed.

Lemma tabulate_amount f ds d :
  StronglySorted str_lt ds -> amount_of (tabulate f ds) d = if decide (d ∈ ds) then f d else 0.
Proof.
  intros Hs. pose proof (coin_lt_sorted_nodup _ (tabulate_sorted f ds Hs)) as Hnd.
  destruct (decide (d ∈ denoms (tabulate f ds))) as [Hin|Hin].
  - apply list_elem_of_fmap in Hin as (x & -> & Hx). rewrite amount_of_in by done.
    apply tabulate_elem in Hx as (?&?&?). rewrite decide_True by done. done.
  - rewrite amount_of_not_in by done. case_decide as Hd; [|done].
    destruct (decide (f d = 0)) as [|Hne]; [done|]. exfalso. apply Hin.
    apply list_elem_of_fmap. exists (mkCoin d (f d)). rewrite tabulate_elem. done.
Qed.

Lemma tabulate_ok f ds :
  StronglySorted str_lt ds -> (forall d, d ∈ ds -> 0 <= f d) -> coins_ok (tabulate f ds).
Proof.
  intros Hs Hf. split; [by apply tabulate_sorted|].
  rewrite Forall_forall. intros x Hx. apply tabulate_elem in Hx as (Hd&->&Hne).
  specialize (Hf _ Hd). lia.
Qed.

Lemma amount_outside a b d :
  d ∉ all_denoms a b -> amount_of a d = 0 /\ amount_of b d = 0.
Proof.
  rewrite elem_of_all_denoms. intros. split; apply amount_of_not_in; tauto.
Qed.

Lemma forallb_denoms (f : string -> bool) ds : forallb f ds = true <-> forall d, d ∈ ds -> f d = true.
Proof. rewrite forallb_forall. by setoid_rewrite list_elem_of_In. Qed.

Lemma sub_spec a b c : Ref.sub a b = Ok c ->
  coins_ok c /\ forall d, amount_of c d = amount_of a d - amount_of b d.
Proof.
  unfold Ref.sub. destruct (forallb _ _) eqn:E; [|done]. intros [= <-].
  rewrite forallb_denoms in E. split.
  - apply tabulate_ok; [apply all_denoms_sorted|]. intros d Hd. apply E in Hd. lia.
  - intros d. rewrite tabulate_amount by apply all_denoms_sorted.
    case_decide as Hd; [done|]. apply amount_outside in Hd. lia.
Qed.

#[export] Instance coin_le_trans : Transitive coin_le.
Proof. intros x y z. apply str_le_trans. Qed.

#[export] Instance coin_le_total : Total coin_le.
Proof. intros x y. apply str_le_total. Qed.

Lemma new_coins_ok c r : NewCoins c = Ok r ->
  coins_ok r /\ (forall d, amount_of r d = amount_of c d).
Proof.
  cbn. destruct (_ && _) eqn:E; [|done]. intros [= <-].
  apply andb_true_iff in E as [_ Hf]. rewrite forallb_forall in Hf.
  assert (forall d, 0 <= amount_of c d) as Hpos.
  { intros d. induction c as [|x c IH]; cbn; [lia|].
    specialize (IH (fun y Hy => Hf y (or_intror Hy))).
    specialize (Hf x (or_introl eq_refl)). apply andb_true_iff in Hf as [_ Hx].
    case_decide; lia. }
  split; [apply tabulate_ok; [apply all_denoms_sorted|done]|].
  intros d. rewrite tabulate_amount by apply all_denoms_sorted. case_decide as Hd; [done|].
  apply amount_outside in Hd. lia.
Qed.

Lemma checked_panics {A} (b : bool) (a : A) z :
  b = false \/ z < 0 ->
  exists p, (if b && (0 <=? z) then Ok a else Panic "invalid coin") = Panic p.
Proof. intros [->|H]; [eauto|]. destruct b; cbn; [|eauto]. destruct (Z.leb_spec 0 z); [lia|eauto]. Qed.

#[export] Instance coins_laws : SdkCoinsLaws.
Proof.
  split.
  - intros d a Hd Ha. cbn in *. rewrite Hd. cbn. destruct (Z.leb_spec 0 a); [done|lia].
  - intros d a. apply checked_panics.
  - intros c r. apply new_coins_ok.
  - intros c Hnd Hv. cbn. rewrite bool_decide_true by done. cbn.
    assert (forallb (fun x => valid_denom (Denom x) && (0 <=? Amount x)) c = true) as ->; [|eauto].
    apply forallb_forall. intros x Hx. rewrite Forall_forall in Hv.
    apply list_elem_of_In, Hv in Hx as [Hx ?]. cbn in Hx. rewrite Hx. cbn. lia.
  - intros c. cbn. rewrite ensure_Ok, andb_true_iff, bool_decide_eq_true, forallb_forall.
    unfold coins_ok. rewrite !List.Forall_forall. split.
    + intros [Hs Hf]. repeat split; [done| |]; intros x Hx; apply Hf, andb_true_iff in Hx as [? ?]; [lia|done].
    + intros [[Hs Hp] Hv]. split; [done|]. intros x Hx. specialize (Hp x Hx).
      rewrite (Hv x Hx). cbn. lia.
  - intros c. cbn. by rewrite andb_true_iff, Z.leb_le.
  - intros c e. cbn. by destruct (_ && _).
  - intros d a Hd Ha. cbn in *. rewrite Hd. cbn. destruct (Z.leb_spec 0 a); [done|lia].
  - intros d a. apply checked_panics.
  - intros c. apply merge_sort_Permutation.
  - intros c Hnd. apply (sorted_le_lt Denom).
    + apply (StronglySorted_merge_sort coin_le).
    + cbn. rewrite merge_sort_Permutation. done.
  - intros a b d [_ Ha] [_ Hb]. split.
    + apply tabulate_ok; [apply all_denoms_sorted|]. intros e _.
      pose proof (amount_of_nonneg a e Ha). pose proof (amount_of_nonneg b e Hb). lia.
    + cbn. rewrite tabulate_amount by apply all_denoms_sorted.
      case_decide as Hd; [done|]. apply amount_outside in Hd. lia.
  - intros a b c _ _. apply sub_spec.
  - intros a b _ _ Hle. cbn. unfold Ref.sub.
    destruct (forallb _ _) eqn:E; [eauto|]. exfalso.
    apply not_true_iff_false in E. apply E. apply forallb_denoms. intros d _.
    specialize (Hle d). lia.
  - intros a b. cbn. apply bool_decide_eq_true.
  - intros a b _ _. cbn. rewrite existsb_exists. setoid_rewrite existsb_exists.
    setoid_rewrite <- list_elem_of_In. setoid_rewrite andb_true_iff.
    setoid_rewrite bool_decide_eq_true. setoid_rewrite Z.leb_le. naive_solver.
  - intros a b _ _. cbn. rewrite forallb_denoms. setoid_rewrite Z.leb_le. split; [|auto].
    intros H d. destruct (decide (d ∈ all_denoms a b)) as [|Hd]; [auto|].
    apply amount_outside in Hd. lia.
Qed.

Lemma substring_prefix a :
  String.substring 4 (String.length ("addr" ++ a) - 4) ("addr" ++ a) = a.
Proof.
  change (String.substring 0 (String.length a - 0) a = a).
  rewrite Nat.sub_0_r. apply substring_all.
Qed.

#[export] Instance bech32_laws : Bech32Laws.
Proof.
  split.
  - intros a H. cbn -[bool_decide]. rewrite !(bool_decide_false (a = "")) by done.
    rewrite substring_prefix, (bool_decide_false (a = "")), bool_decide_true by first [done |  (destruct a; reflexivity)].
    done.
  - intros s a. cbn. destruct (_ && _) eqn:E; [|done]. intros [= <-].
    apply andb_true_iff in E as [_ E]. apply negb_true_iff, bool_decide_eq_false in E. done.
  - reflexivity.
  - intros s p. cbn. by destruct (_ && _).
Qed.

#[export] Instance gas_laws : GasMeterLaws meter.
Proof.
  split; cbn; intros; try done.
  - destruct (Z.eqb_spec (limit g) u64_max); [lia|done].
  - destruct (Z.leb_spec (consumed g + n) (limit g)); [|lia]. eauto.
  - destruct (Z.leb_spec (consumed g + n) (limit g)); [lia|].
    destruct (Z.leb_spec (consumed g + n) u64_max); [|lia]. eauto.
  - destruct (Z.leb_spec (consumed g + n) (limit g)); [lia|].
    destruct (Z.leb_spec (consumed g + n) u64_max); [lia|]. eauto.
Qed.

End RefLaws.
