(* ===== verification/Store.v ===== *)
(** * Go strings and prefix stores

    [strings.Split], [strings.Join], prefix tests, and the ordered iteration of
    a KV store restricted to a prefix. *)

From Stdlib Require Import ZArith Lia.
From stdpp Require Import base gmap strings list sorting.
From S2P Require Import Prelude Sdk SdkRef.

(** ** [strings.Split] and [strings.Join] with a one-byte separator *)

Fixpoint split_on (sep : Ascii.ascii) (s : string) : list string :=
  match s with
  | EmptyString => [""%string]
  | String c s =>
      if Ascii.eqb c sep then ""%string :: split_on sep s
      else match split_on sep s with
           | h :: t => String c h :: t
           | [] => [String c ""]
           end
  end.

Fixpoint join_with (sep : Ascii.ascii) (l : list string) : string :=
  match l with
  | [] => ""
  | [s] => s
  | s :: l => s ++ String sep (join_with sep l)
  end%string.

(** [strings.Contains(s, string(c))]. *)
Fixpoint contains_char (c : Ascii.ascii) (s : string) : bool :=
  match s with
  | EmptyString => false
  | String a s => Ascii.eqb a c || contains_char c s
  end.

(** ** Prefix stores *)

Definition strip_prefix (p k : string) : string :=
  String.substring (String.length p) (String.length k - String.length p) k.

#[global] Arguments strip_prefix : simpl never.

Definition key_le {V} (x y : string * V) : Prop := str_le x.1 y.1.

#[global] Instance key_le_dec {V} (x y : string * V) : Decision (key_le x y).
Proof. unfold key_le. apply _. Defined.

(** [prefix.NewStore(store, p).Iterator(nil, nil)]: the entries under the
    prefix, their keys without it, in ascending byte order. *)
Definition iter_prefix {V} (p : string) (m : gmap string V) : list (string * V) :=
  map (fun kv => (strip_prefix p kv.1, kv.2))
    (merge_sort key_le (List.filter (fun kv => String.prefix p kv.1) (map_to_list m))).

(** ** Lemmas *)

Lemma string_app_cons c s t : (String c s ++ t = String c (s ++ t))%string.
Proof. done. Qed.

Lemma string_app_nil (t : string) : ("" ++ t = t)%string.
Proof. done. Qed.

Lemma split_on_nonempty sep s : split_on sep s <> [].
Proof. destruct s; cbn; [done|]. destruct (Ascii.eqb _ _); [done|]. by destruct (split_on _ _). Qed.

Lemma join_split sep s : join_with sep (split_on sep s) = s.
Proof.
  induction s as [|c s IH]; [done|]. cbn [split_on].
  destruct (Ascii.eqb c sep) eqn:E.
  - apply Ascii.eqb_eq in E as ->. pose proof (split_on_nonempty sep s) as Hne.
    cbn [join_with]. destruct (split_on sep s); [done|]. by rewrite IH.
  - pose proof (split_on_nonempty sep s) as Hne.
    destruct (split_on sep s) as [|h [|h2 t]]; [done| |]; cbn [join_with] in *; by rewrite <- IH.
Qed.

(** A part without the separator is split off whole. *)
Lemma split_on_app sep a b :
  contains_char sep a = false -> split_on sep (a ++ String sep b) = a :: split_on sep b.
Proof.
  induction a as [|c a IH]; intros H.
  - rewrite string_app_nil. cbn. by rewrite Ascii.eqb_refl.
  - cbn in H. apply orb_false_iff in H as [Hc Ha]. rewrite string_app_cons.
    cbn [split_on]. by rewrite Hc, IH.
Qed.

Lemma split_on_single sep a : contains_char sep a = false -> split_on sep a = [a].
Proof.
  induction a as [|c a IH]; intros H; [done|].
  cbn in H |- *. apply orb_false_iff in H as [-> Ha]. by rewrite IH.
Qed.

Lemma prefix_app p k : String.prefix p (p ++ k) = true.
Proof.
  induction p as [|c p IH]; [by destruct k|]. rewrite string_app_cons. cbn.
  destruct (Ascii.ascii_dec c c); done.
Qed.

Lemma prefix_inv p k : String.prefix p k = true -> exists k', k = (p ++ k')%string.
Proof.
  revert k. induction p as [|c p IH]; intros k H; [by exists k|].
  destruct k as [|c' k]; cbn in H; [done|].
  destruct (Ascii.ascii_dec c c') as [->|]; [|done].
  apply IH in H as [k' ->]. exists k'. done.
Qed.

Lemma strip_prefix_app p k : strip_prefix p (p ++ k) = k.
Proof.
  unfold strip_prefix. induction p as [|c p IH].
  - rewrite string_app_nil. cbn. rewrite Nat.sub_0_r. apply substring_all.
  - rewrite string_app_cons. cbn. done.
Qed.

Lemma str_le_app p x y : str_le (p ++ x) (p ++ y) <-> str_le x y.
Proof.
  unfold str_le, str_leb, str_ltb. induction p as [|c p IH]; [by rewrite !string_app_nil|].
  rewrite !string_app_cons. cbn. assert (Ascii.compare c c = Eq) as ->; [|exact IH].
  unfold Ascii.compare. apply N.compare_refl.
Qed.

#[global] Instance key_le_trans {V} : Transitive (@key_le V).
Proof. intros x y z. apply str_le_trans. Qed.

#[global] Instance key_le_total {V} : Total (@key_le V).
Proof. intros x y. apply str_le_total. Qed.

Lemma str_le_antisym s t : str_le s t -> str_le t s -> s = t.
Proof.
  intros H1 H2. destruct (str_trichotomy s t) as [H|[H|H]]; [|done|].
  - exfalso. revert H2. unfold str_le, str_leb. rewrite H. done.
  - exfalso. revert H1. unfold str_le, str_leb. rewrite H. done.
Qed.

Lemma iter_prefix_sorted {V} p (m : gmap string V) : StronglySorted key_le (iter_prefix p m).
Proof.
  unfold iter_prefix. set (l := merge_sort _ _).
  assert (Hs : StronglySorted key_le l) by (apply StronglySorted_merge_sort; apply _).
  assert (Hp : forall kv, kv ∈ l -> String.prefix p kv.1 = true).
  { unfold l. intros kv Hkv. rewrite merge_sort_Permutation in Hkv.
    by apply list_elem_of_In, filter_In in Hkv as [_ ?]. }
  clearbody l. induction Hs as [|[k v] l Hs IH Hk]; cbn; [constructor|].
  constructor; [apply IH; set_solver|]. rewrite Forall_forall in *. intros [k' v'] Hin.
  apply list_elem_of_fmap in Hin as ([k2 v2]&[= -> ->]&Hin). specialize (Hk _ Hin).
  pose proof (Hp (k, v) ltac:(set_solver)) as [x Hx]%prefix_inv.
  pose proof (Hp (k2, v2) ltac:(set_solver)) as [y Hy]%prefix_inv. cbn in *. subst.
  unfold key_le in *. cbn in *. rewrite !strip_prefix_app. by rewrite str_le_app in Hk.
Qed.

Lemma elem_of_iter_prefix {V} p (m : gmap string V) k v :
  (k, v) ∈ iter_prefix p m <-> m !! (p ++ k)%string = Some v.
Proof.
  unfold iter_prefix. rewrite list_elem_of_fmap. setoid_rewrite merge_sort_Permutation.
  setoid_rewrite list_elem_of_In. setoid_rewrite filter_In. split.
  - intros ([k' v'] & E & Hin & Hp). cbn in *. injection E as -> ->.
    apply prefix_inv in Hp as [k'' ->]. rewrite strip_prefix_app.
    by apply list_elem_of_In, elem_of_map_to_list in Hin.
  - intros Hm. exists ((p ++ k)%string, v). cbn. rewrite strip_prefix_app, prefix_app.
    split; [done|]. split; [|done]. by apply list_elem_of_In, elem_of_map_to_list.
Qed.

Lemma iter_prefix_keys_nodup {V} p (m : gmap string V) : NoDup (iter_prefix p m).*1.
Proof.
  unfold iter_prefix. set (l := merge_sort _ _).
  assert (NoDup l.*1 /\ forall kv, kv ∈ l -> String.prefix p kv.1 = true) as [Hnd Hp].
  { unfold l. split.
    - rewrite merge_sort_Permutation. apply NoDup_ListNoDup.
      assert (NoDup (map_to_list m).*1) as H by apply NoDup_fst_map_to_list.
      apply NoDup_ListNoDup in H. induction (map_to_list m) as [|x ml IH]; cbn; [constructor|].
      inversion H; subst. destruct (String.prefix p x.1); cbn; [constructor|]; auto.
      intros Hin. apply H2. clear - Hin. induction ml as [|y ml IH]; cbn in *; [done|].
      destruct (String.prefix p y.1); cbn in *; naive_solver.
    - intros kv Hkv. rewrite merge_sort_Permutation in Hkv.
      apply list_elem_of_In, filter_In in Hkv as [_ ?]. done. }
  clearbody l. induction l as [|[k v] l IH]; cbn; [constructor|].
  cbn in Hnd. apply NoDup_cons in Hnd as [Hk Hnd]. constructor; [|apply IH; [done|]; set_solver].
  intros Hin. apply Hk. apply list_elem_of_fmap in Hin as ([k' v'] & E & Hin). cbn in E.
  apply list_elem_of_fmap in Hin as ([k2 v2] & [= -> ->] & Hin).
  pose proof (Hp (k, v) ltac:(set_solver)) as H1. pose proof (Hp (k2, v2) ltac:(set_solver)) as H2.
  cbn in *. apply prefix_inv in H1 as [x ->]. apply prefix_inv in H2 as [y ->].
  rewrite !strip_prefix_app in E. subst. apply list_elem_of_fmap. exists ((p ++ y)%string, v2). done.
Qed.

Lemma string_app_inv_l (p x y : string) : (p ++ x = p ++ y)%string -> x = y.
Proof. induction p as [|c p IH]; [done|]. rewrite !string_app_cons. by intros [= E%IH]. Qed.

Lemma string_app_assoc (a b c : string) : (a ++ (b ++ c) = (a ++ b) ++ c)%string.
Proof. induction a as [|x a IH]; [done|]. rewrite !string_app_cons. by rewrite IH. Qed.

Lemma string_app_length (a b : string) :
  String.length (a ++ b) = (String.length a + String.length b)%nat.
Proof. induction a as [|x a IH]; [done|]. rewrite string_app_cons. cbn. by rewrite IH. Qed.

Lemma nodup_snd {A V} (l : list (A * V)) :
  NoDup (map fst l) -> (forall k1 k2 v, (k1, v) ∈ l -> (k2, v) ∈ l -> k1 = k2) -> NoDup (map snd l).
Proof.
  induction l as [|[k v] l IH]; cbn; intros Hnd Hdet; [constructor|].
  apply NoDup_cons in Hnd as [Hk Hnd]. constructor.
  - intros Hin. apply list_elem_of_fmap in Hin as ([k' v'] & -> & Hin). apply Hk.
    rewrite (Hdet k k' v') by set_solver. apply list_elem_of_fmap. by exists (k', v').
  - apply IH; [done|]. intros. eapply Hdet; by right.
Qed.

Lemma elem_of_zip_l {A C} (l1 : list A) (l2 : list C) x :
  length l1 = length l2 -> x ∈ l1 -> exists y, (x, y) ∈ zip l1 l2.
Proof.
  revert l2. induction l1 as [|a l1 IH]; intros [|b l2] Hlen Hx; try done; cbn in *; [set_solver..|].
  apply elem_of_cons in Hx as [->|Hx]; [exists b; set_solver|].
  destruct (IH l2 ltac:(lia) Hx) as [y Hy]. exists y. set_solver.
Qed.

(** Concatenation is injective once the lengths of the second parts agree. *)
Lemma string_app_inj_len (a b c d : string) :
  String.length b = String.length d -> (a ++ b = c ++ d)%string -> a = c /\ b = d.
Proof.
  intros Hl. revert c. induction a as [|x a IH]; intros [|y c] E.
  - rewrite !string_app_nil in E. done.
  - exfalso. rewrite string_app_nil in E. apply (f_equal String.length) in E.
    rewrite string_app_length in E. cbn in E. lia.
  - exfalso. rewrite string_app_nil in E. apply (f_equal String.length) in E.
    rewrite string_app_length in E. cbn in E. lia.
  - rewrite !string_app_cons in E. injection E as -> E. apply IH in E as [-> ->]. done.
Qed.

Lemma string_app_inv_r (x y p : string) : (x ++ p = y ++ p)%string -> x = y.
Proof. intros E. by apply string_app_inj_len in E as [? _]. Qed.

Lemma list_filter_perm {A} (f : A -> bool) l l' : l ≡ₚ l' -> List.filter f l ≡ₚ List.filter f l'.
Proof.
  induction 1 as [|x l l' Hp IH|x y l|l l' l'' ? ? ? ?]; cbn; [done|..|by etransitivity].
  - by destruct (f x); rewrite IH.
  - destruct (f x), (f y); try done. apply Permutation_swap.
Qed.
