(* ===== verification/GoLib.v ===== *)
(** * Parts of the Go standard library

    Sorting a slice, hexadecimal text, byte slices as strings and iteration
    over maps, as the modules use them. *)

From Stdlib Require Import ZArith Lia Ascii.
From stdpp Require Import base gmap strings list sorting pretty.
From S2P Require Import Prelude Store.

(** ** sort.Slice

    The result is a permutation of the slice sorted by [less]; equal elements
    may come in any order, since the sort is not stable. *)

Class SliceSort := slice_sort : forall {A : Type}, (A -> A -> bool) -> list A -> list A.

(** [less] orders elements: never both ways, and "not less" composes. *)
Record weak_order {A} (less : A -> A -> bool) : Prop := {
  less_asym x y : less x y = true -> less y x = false;
  not_less_trans x y z : less y x = false -> less z y = false -> less z x = false
}.

Class SliceSortLaws `{SliceSort} : Prop := {
  slice_sort_perm {A} (less : A -> A -> bool) l : slice_sort less l ≡ₚ l;
  slice_sort_sorted {A} (less : A -> A -> bool) l :
    weak_order less -> StronglySorted (fun x y => less y x = false) (slice_sort less l)
}.

(** Insertion sort, an implementation. *)
Module RefSort.

Fixpoint insert_by {A} (less : A -> A -> bool) (x : A) (l : list A) : list A :=
  match l with
  | [] => [x]
  | y :: l => if less y x then y :: insert_by less x l else x :: y :: l
  end.

#[export] Instance insertion_sort : SliceSort := fun A less => foldr (insert_by less) [].

Lemma insert_by_perm {A} (less : A -> A -> bool) x l : insert_by less x l ≡ₚ x :: l.
Proof.
  induction l as [|y l IH]; cbn; [done|]. destruct (less y x); [|done].
  rewrite IH. apply Permutation_swap.
Qed.

Lemma insert_by_sorted {A} (less : A -> A -> bool) x l : weak_order less ->
  StronglySorted (fun x y => less y x = false) l ->
  StronglySorted (fun x y => less y x = false) (insert_by less x l).
Proof.
  intros Hw. induction 1 as [|y l Hs IH Hy]; cbn; [repeat constructor|].
  destruct (less y x) eqn:E.
  - constructor; [done|]. rewrite insert_by_perm. constructor; [|done]. by apply (less_asym _ Hw).
  - constructor; [by constructor|]. constructor; [done|].
    eapply Forall_impl; [exact Hy|]. intros z Hz. by eapply (not_less_trans _ Hw).
Qed.

#[export] Instance insertion_sort_laws : SliceSortLaws.
Proof.
  split.
  - intros A less l. unfold slice_sort, insertion_sort.
    induction l as [|x l IH]; cbn; [done|]. by rewrite insert_by_perm, IH.
  - intros A less l Hw. unfold slice_sort, insertion_sort.
    induction l as [|x l IH]; cbn; [constructor|]. by apply insert_by_sorted.
Qed.

End RefSort.

(** When [less] only looks at a key on which it is a strict total order, the
    keys of the sorted slice depend only on the elements, not on their order. *)
Lemma slice_sort_key {A K} `{SliceSortLaws} (less : A -> A -> bool) (key : A -> K) l1 l2 :
  weak_order less -> (forall x y, less x y = false -> less y x = false -> key x = key y) ->
  (forall x y x' y', key x = key x' -> key y = key y' -> less x y = less x' y') ->
  l1 ≡ₚ l2 -> map key (slice_sort less l1) = map key (slice_sort less l2).
Proof.
  intros Hw Htot Hkey Hp.
  set (R := fun a b => forall x y, key x = a -> key y = b -> less y x = false).
  assert (forall l, StronglySorted R (map key (slice_sort less l))) as Hs.
  { intros l. pose proof (slice_sort_sorted less l Hw) as Hs. induction Hs as [|x m Hm IH Hx]; cbn;
      constructor; [done|].
    apply Forall_forall. intros b Hb. apply list_elem_of_fmap in Hb as (y & -> & Hy).
    intros x' y' Ex Ey. rewrite (Hkey y' x' y x Ey Ex).
    by apply (proj1 (Forall_forall _ _) Hx). }
  apply (StronglySorted_unique_strong R); [|apply Hs..|].
  - intros a b Ha Hb Hab Hba. apply list_elem_of_fmap in Ha as (x & -> & _), Hb as (y & -> & _).
    apply Htot; [by apply Hba|by apply Hab].
  - apply Permutation_map. rewrite !slice_sort_perm. done.
Qed.

(** When no two elements tie, the sorted slice depends only on the elements. *)
Lemma slice_sort_unique {A} `{SliceSortLaws} (less : A -> A -> bool) l1 l2 :
  weak_order less ->
  (forall x y, x ∈ l1 -> y ∈ l1 -> less x y = false -> less y x = false -> x = y) ->
  l1 ≡ₚ l2 -> slice_sort less l1 = slice_sort less l2.
Proof.
  intros Hw Htie Hp. apply (StronglySorted_unique_strong (fun x y => less y x = false)).
  - intros x y Hx Hy ? ?. rewrite slice_sort_perm in Hx. rewrite slice_sort_perm, <- Hp in Hy.
    by apply Htie.
  - by apply slice_sort_sorted.
  - by apply slice_sort_sorted.
  - by rewrite !slice_sort_perm.
Qed.

(** Comparison functions written field by field. *)

Record strict_total {K} (lt : K -> K -> bool) : Prop := {
  total_asym x y : lt x y = true -> lt y x = false;
  total_trans x y z : lt x y = true -> lt y z = true -> lt x z = true;
  total_cmp x y : x <> y -> lt x y = true \/ lt y x = true
}.

Lemma str_ltb_total : strict_total str_ltb.
Proof.
  split.
  - intros x y. apply str_lt_asym.
  - intros x y z. apply str_lt_trans.
  - intros x y Hne. destruct (str_trichotomy x y) as [|[|]]; auto.
Qed.

Lemma Z_ltb_total : strict_total Z.ltb.
Proof. split; intros *; rewrite ?Z.ltb_lt, ?Z.ltb_ge; lia. Qed.

Section Lexicographic.
Context {A K : Type} `{EqDecision K} (key : A -> K) (lt : K -> K -> bool) (rest : A -> A -> bool).
Hypothesis (Hlt : strict_total lt).

Definition lex_less (x y : A) : bool :=
  if negb (bool_decide (key x = key y)) then lt (key x) (key y) else rest x y.

Lemma lex_not_less x y : lex_less y x = false <->
  lt (key x) (key y) = true \/ (key x = key y /\ rest y x = false).
Proof.
  unfold lex_less. case_bool_decide as E; cbn; split; intros Hl.
  - right. done.
  - destruct Hl as [Hl|[_ ?]]; [|done]. exfalso. rewrite E in Hl.
    pose proof (total_asym _ Hlt _ _ Hl). congruence.
  - left. destruct (total_cmp _ Hlt (key x) (key y)) as [|]; congruence.
  - destruct Hl as [Hl|[? _]]; [by apply (total_asym _ Hlt)|congruence].
Qed.

Lemma lex_weak_order : weak_order rest -> weak_order lex_less.
Proof.
  intros Hr. split.
  - intros x y Hxy. apply lex_not_less. unfold lex_less in Hxy.
    case_bool_decide; cbn in Hxy; [right; split; [done|by apply (less_asym _ Hr)]|by left].
  - intros x y z. rewrite !lex_not_less. intros [H1|[E1 H1]] [H2|[E2 H2]].
    + left. by eapply (total_trans _ Hlt).
    + left. by rewrite <- E2.
    + left. by rewrite E1.
    + right. split; [congruence|]. by eapply (not_less_trans _ Hr).
Qed.

Lemma lex_equal x y : lex_less x y = false -> lex_less y x = false ->
  key x = key y /\ rest x y = false /\ rest y x = false.
Proof.
  rewrite !lex_not_less. intros [H1|[E1 H1]] [H2|[E2 H2]]; try done.
  - pose proof (total_asym _ Hlt _ _ H1). congruence.
  - rewrite E2 in H1. pose proof (total_asym _ Hlt _ _ H1). congruence.
  - rewrite E1 in H2. pose proof (total_asym _ Hlt _ _ H2). congruence.
Qed.

End Lexicographic.

Lemma total_weak_order {A K} `{EqDecision K} (key : A -> K) (lt : K -> K -> bool) :
  strict_total lt -> weak_order (fun x y => lt (key x) (key y)).
Proof.
  intros Hlt. split; [intros x y; apply (total_asym _ Hlt)|].
  intros x y z Hxy Hyz. apply not_true_is_false. intros Hzx.
  destruct (decide (key y = key z)) as [E|Hne]; [rewrite E in Hxy; congruence|].
  destruct (total_cmp _ Hlt _ _ Hne) as [Hc|]; [|congruence].
  rewrite (total_trans _ Hlt _ _ _ Hc Hzx) in Hxy. done.
Qed.

(** ** Bytes *)

Definition bytes_to_string (l : list Z) : string :=
  foldr (fun z s => String (ascii_of_N (Z.to_N z)) s) ""%string l.

(** [binary.LittleEndian.PutUint64], which the code also writes as a loop. *)
Definition le64 (z : Z) : string := bytes_to_string (le_encode 8 z).

Lemma bytes_to_string_length l : String.length (bytes_to_string l) = length l.
Proof. induction l as [|x l IH]; [done|]. cbn. by rewrite <- IH. Qed.

Lemma bytes_to_string_inj l1 l2 : Forall is_byte l1 -> Forall is_byte l2 ->
  bytes_to_string l1 = bytes_to_string l2 -> l1 = l2.
Proof.
  intros H1. revert l2. induction H1 as [|x l1 Hx H1 IH]; intros l2 H2 E; destruct H2 as [|y l2 Hy H2];
    cbn in E; try done.
  injection E as E1 E2. f_equal; [|by apply IH].
  apply (f_equal N_of_ascii) in E1. unfold is_byte in *.
  rewrite !N_ascii_embedding in E1 by lia. lia.
Qed.

Lemma le64_length z : String.length (le64 z) = 8%nat.
Proof. unfold le64. by rewrite bytes_to_string_length, le_encode_length. Qed.

Lemma le64_inj x y : is_u64 x -> is_u64 y -> le64 x = le64 y -> x = y.
Proof.
  intros Hx Hy E. apply bytes_to_string_inj in E; [|apply le_encode_bytes..].
  rewrite <- (le_decode_encode 8 x), <- (le_decode_encode 8 y), E by done. done.
Qed.

(** [sdk.Uint64ToBigEndian] and [sdk.BigEndianToUint64]. *)
Definition be64s (z : Z) : string := bytes_to_string (be64 z).

Definition string_to_bytes (s : string) : list Z :=
  map (fun c => Z.of_N (N_of_ascii c)) (String.list_ascii_of_string s).

Definition be64s_decode (s : string) : Z := be_decode (string_to_bytes s).

Lemma bytes_of_string s : bytes_to_string (string_to_bytes s) = s.
Proof.
  induction s as [|c s IH]; [done|]. change (String (ascii_of_N (Z.to_N (Z.of_N (N_of_ascii c)))) (bytes_to_string (string_to_bytes s)) = String c s).
  by rewrite IH, N2Z.id, ascii_N_embedding.
Qed.

Lemma string_to_bytes_to_string l : Forall is_byte l -> string_to_bytes (bytes_to_string l) = l.
Proof.
  induction 1 as [|x l Hx Hl IH]; [done|]. unfold string_to_bytes in *. cbn. f_equal; [|exact IH].
  unfold is_byte in Hx. rewrite N_ascii_embedding by lia. lia.
Qed.

Lemma be64_bytes z : Forall is_byte (be64 z).
Proof. apply Forall_rev, le_encode_bytes. Qed.

#[global] Arguments be64s : simpl never.

Lemma be64s_length z : String.length (be64s z) = 8%nat.
Proof. unfold be64s. by rewrite bytes_to_string_length, be64_length. Qed.

Lemma be64s_roundtrip z : is_u64 z -> be64s_decode (be64s z) = z.
Proof.
  intros. unfold be64s_decode, be64s. rewrite string_to_bytes_to_string by apply be64_bytes.
  by apply be64_decode.
Qed.

Lemma be64s_inj x y : is_u64 x -> is_u64 y -> be64s x = be64s y -> x = y.
Proof. intros Hx Hy E. rewrite <- (be64s_roundtrip x), <- (be64s_roundtrip y), E by done. done. Qed.

(** Big-endian keys sort by their number. *)

Lemma le_encode_snoc n z : le_encode (S n) z = le_encode n z ++ [(z / 256 ^ Z.of_nat n) mod 256].
Proof.
  revert z. induction n as [|n IH]; intros z; [cbn; by rewrite Z.div_1_r|].
  change (le_encode (S (S n)) z) with (z mod 256 :: le_encode (S n) (z / 256)). rewrite IH.
  cbn [le_encode app]. do 3 f_equal.
  rewrite Z.div_div by lia. f_equal. rewrite Nat2Z.inj_succ, Z.pow_succ_r by lia. done.
Qed.

Lemma be_encode_cons n z : be_encode (S n) z = (z / 256 ^ Z.of_nat n) mod 256 :: be_encode n z.
Proof. unfold be_encode. rewrite le_encode_snoc, rev_app_distr. done. Qed.

Lemma le_encode_mod n z : le_encode n (z mod 256 ^ Z.of_nat n) = le_encode n z.
Proof.
  revert z. induction n as [|n IH]; intros z; [done|]. cbn [le_encode].
  rewrite Nat2Z.inj_succ, Z.pow_succ_r by lia.
  pose proof (Z.pow_pos_nonneg 256 (Z.of_nat n) ltac:(lia) ltac:(lia)).
  rewrite Z.rem_mul_r by lia. f_equal.
  - rewrite (Z.mul_comm 256), Z.mod_add by lia. by rewrite Z.mod_mod.
  - rewrite (Z.mul_comm 256), Z.div_add by lia. rewrite Z.div_small by (apply Z.mod_pos_bound; lia).
    apply IH.
Qed.

Lemma be_encode_mod n z : be_encode n (z mod 256 ^ Z.of_nat n) = be_encode n z.
Proof. unfold be_encode. by rewrite le_encode_mod. Qed.

Lemma str_ltb_cons a b s t : is_byte a -> is_byte b ->
  str_ltb (String (ascii_of_N (Z.to_N a)) s) (String (ascii_of_N (Z.to_N b)) t) =
  if a =? b then str_ltb s t else a <? b.
Proof.
  unfold is_byte. intros Ha Hb. unfold str_ltb. cbn. unfold Ascii.compare.
  rewrite !N_ascii_embedding by lia. rewrite Z2N.inj_compare by lia.
  destruct (Z.compare_spec a b) as [->|Hlt|Hgt].
  - by rewrite Z.eqb_refl.
  - destruct (Z.eqb_spec a b), (Z.ltb_spec a b); try lia; done.
  - destruct (Z.eqb_spec a b), (Z.ltb_spec a b); try lia; done.
Qed.

Lemma be_encode_lt n x y r : 0 <= x < 256 ^ Z.of_nat n -> 0 <= y < 256 ^ Z.of_nat n ->
  str_ltb (bytes_to_string (be_encode n x) ++ r) (bytes_to_string (be_encode n y)) = (x <? y).
Proof.
  revert x y. induction n as [|n IH]; intros x y Hx Hy.
  - change (256 ^ Z.of_nat 0) with 1 in *. assert (x = 0) as -> by lia. assert (y = 0) as -> by lia.
    cbn. by destruct r.
  - rewrite Nat2Z.inj_succ, Z.pow_succ_r in * by lia. set (k := 256 ^ Z.of_nat n) in *.
    assert (0 < k) by (apply Z.pow_pos_nonneg; lia).
    assert (forall z, 0 <= z < 256 * k -> 0 <= z / k < 256) as Hq.
    { intros z Hz. split; [apply Z.div_pos; lia|apply Z.div_lt_upper_bound; lia]. }
    rewrite !be_encode_cons. fold k. rewrite !(Z.mod_small (_ / k)) by auto.
    change (bytes_to_string (?a :: ?l)) with (String (ascii_of_N (Z.to_N a)) (bytes_to_string l)).
    rewrite string_app_cons, str_ltb_cons by (unfold is_byte; auto).
    rewrite <- (be_encode_mod n x), <- (be_encode_mod n y). fold k.
    pose proof (Z.div_mod x k ltac:(lia)). pose proof (Z.div_mod y k ltac:(lia)).
    pose proof (Z.mod_pos_bound x k ltac:(lia)). pose proof (Z.mod_pos_bound y k ltac:(lia)).
    destruct (Z.eqb_spec (x / k) (y / k)) as [E|E].
    + rewrite IH by done. apply eq_bool_prop_intro. rewrite !Is_true_true, !Z.ltb_lt. nia.
    + apply eq_bool_prop_intro. rewrite !Is_true_true, !Z.ltb_lt. nia.
Qed.

Lemma be64s_lt x y r : is_u64 x -> is_u64 y -> str_ltb (be64s x ++ r) (be64s y) = (x <? y).
Proof. intros. by apply (be_encode_lt 8). Qed.

(** ** encoding/hex and the %x verb *)

Definition hex_digit (n : N) : ascii := ascii_of_N (if n <? 10 then 48 + n else 87 + n)%N.

Fixpoint hex_encode (s : string) : string :=
  match s with
  | EmptyString => ""
  | String c s =>
      let n := N_of_ascii c in
      String (hex_digit (n / 16)) (String (hex_digit (n mod 16)) (hex_encode s))
  end.

Definition from_hex_char (c : ascii) : option N :=
  let n := N_of_ascii c in
  if ((48 <=? n) && (n <=? 57))%N%bool then Some (n - 48)%N
  else if ((97 <=? n) && (n <=? 102))%N%bool then Some (n - 87)%N
  else if ((65 <=? n) && (n <=? 70))%N%bool then Some (n - 55)%N
  else None.

(** [hex.DecodeString]. *)
Fixpoint hex_decode (s : string) : res string :=
  match s with
  | EmptyString => Ok ""%string
  | String a EmptyString =>
      Err (if from_hex_char a is Some _ then "odd length hex string" else "invalid byte")
  | String a (String b s) =>
      match from_hex_char a, from_hex_char b with
      | Some x, Some y => r ← hex_decode s; Ok (String (ascii_of_N (16 * x + y)) r)
      | _, _ => Err "invalid byte"
      end
  end.

Lemma from_hex_digit n : (n < 16)%N -> from_hex_char (hex_digit n) = Some n.
Proof.
  intros Hn. assert (n ∈ [0;1;2;3;4;5;6;7;8;9;10;11;12;13;14;15]%N) as Hin.
  { rewrite !elem_of_cons. lia. }
  rewrite !elem_of_cons in Hin.
  repeat (destruct Hin as [->|Hin]; [done|]). by apply elem_of_nil in Hin.
Qed.

Lemma hex_decode_encode s : hex_decode (hex_encode s) = Ok s.
Proof.
  induction s as [|c s IH]; [done|]. cbn [hex_encode hex_decode].
  pose proof (N_ascii_bounded c). pose proof (N.div_mod (N_of_ascii c) 16 ltac:(done)).
  pose proof (N.mod_upper_bound (N_of_ascii c) 16 ltac:(done)).
  rewrite !from_hex_digit by (try apply N.Div0.div_lt_upper_bound; lia). rewrite IH. cbn.
  by rewrite <- N.div_mod by done; rewrite ascii_N_embedding.
Qed.

Lemma hex_encode_inj s t : hex_encode s = hex_encode t -> s = t.
Proof.
  intros E. apply (f_equal hex_decode) in E. rewrite !hex_decode_encode in E. by injection E.
Qed.

(** ** A codec for concrete inputs

    Any countable type has a text encoding with a decoder; it stands for the
    wire formats in concrete examples. *)
Module RefCodec.

Fixpoint pos_string (p : positive) : string :=
  match p with
  | xH => "1"
  | xO p => String "0" (pos_string p)
  | xI p => String "1" (pos_string p)
  end.

Fixpoint string_pos (s : string) : option positive :=
  match s with
  | EmptyString => None
  | String "1" EmptyString => Some xH
  | String "0" s => xO <$> string_pos s
  | String "1" s => xI <$> string_pos s
  | _ => None
  end.

Definition enc {A} `{Countable A} (x : A) : string := pos_string (encode x).
Definition dec {A} `{Countable A} (s : string) : res A :=
  match string_pos s ≫= decode with Some x => Ok x | None => Err "decoding failed" end.

Lemma pos_string_ne p : pos_string p <> ""%string.
Proof. by destruct p. Qed.

Lemma string_pos_string p : string_pos (pos_string p) = Some p.
Proof.
  induction p as [p IH|p IH|]; cbn; [| |done].
  - destruct (pos_string p) eqn:E; [by destruct (pos_string_ne p)|]. by rewrite IH.
  - by rewrite IH.
Qed.

Lemma dec_enc {A} `{Countable A} (x : A) : dec (enc x) = Ok x.
Proof. unfold dec, enc. rewrite string_pos_string. cbn. by rewrite decode_encode. Qed.

Lemma enc_ne {A} `{Countable A} (x : A) : enc x <> ""%string.
Proof. apply pos_string_ne. Qed.

End RefCodec.

(** ** strconv.Itoa and strconv.FormatUint *)

Definition itoa (n : Z) : string := pretty n.

(** A character that does not occur in a decimal number. *)
Definition not_decimal (c : ascii) : Prop := c <> "-"%char /\ forall x, pretty_N_char x <> c.

Lemma itoa_inj x y : itoa x = itoa y -> x = y.
Proof. apply pretty_Z_inj. Qed.

Lemma contains_char_app c s t :
  contains_char c (s ++ t) = contains_char c s || contains_char c t.
Proof. induction s as [|a s IH]; [done|]. rewrite string_app_cons. cbn. by rewrite IH, orb_assoc. Qed.

Lemma itoa_no_char c n : not_decimal c -> contains_char c (itoa n) = false.
Proof.
  intros [Hd Hc]. assert (HN : forall x s, contains_char c s = false -> contains_char c (pretty_N_go x s) = false).
  { intros x. induction (N.lt_wf_0 x) as [x _ IH]. intros s Hs.
    assert (x = 0 \/ 0 < x)%N as [->|Hx] by lia; [by rewrite pretty_N_go_0|].
    rewrite pretty_N_go_step by done. apply IH; [by apply N.div_lt|]. cbn.
    destruct (Ascii.eqb_spec (pretty_N_char (x `mod` 10)) c) as [E|]; [by apply Hc in E|done]. }
  assert (HP : forall x : N, contains_char c (pretty x) = false).
  { intros x. unfold pretty, pretty_N. case_decide; [|by apply HN].
    change (Ascii.eqb "0" c || false = false).
    destruct (Ascii.eqb_spec "0" c) as [E|]; [by apply (Hc 0%N) in E|done]. }
  unfold itoa, pretty, pretty_Z. destruct n as [|p|p].
  - apply (HP 0%N).
  - apply HP.
  - change (contains_char c ("-" ++ pretty (N.pos p)) = false). rewrite contains_char_app, HP.
    change (Ascii.eqb "-" c || false || false = false). destruct (Ascii.eqb_spec "-" c); [congruence|done].
Qed.

(** The last occurrence of a separator splits a string in only one way. *)
Lemma last_sep_inj c a b x y : contains_char c x = false -> contains_char c y = false ->
  (a ++ String c x = b ++ String c y)%string -> a = b /\ x = y.
Proof.
  intros Hx Hy. revert b. induction a as [|h a IH]; intros [|k b] E; rewrite ?string_app_cons, ?string_app_nil in E.
  - by injection E as ->.
  - exfalso. injection E as -> ->. rewrite contains_char_app in Hx. cbn in Hx.
    rewrite Ascii.eqb_refl, orb_true_r in Hx. done.
  - exfalso. injection E as <- <-. rewrite contains_char_app in Hy. cbn in Hy.
    rewrite Ascii.eqb_refl, orb_true_r in Hy. done.
  - injection E as -> E. apply IH in E as [-> ->]. done.
Qed.

(** ** strings.TrimSpace and strings.TrimPrefix *)

(** The UTF-8 encodings of the characters [unicode.IsSpace] accepts. *)
Definition space_encodings : list (list Z) :=
  [[9]; [10]; [11]; [12]; [13]; [32]; [194; 133]; [194; 160]; [225; 154; 128]] ++
  map (fun n => [226; 128; 128 + Z.of_nat n]) (seq 0 11) ++
  [[226; 128; 168]; [226; 128; 169]; [226; 128; 175]; [226; 129; 159]; [227; 128; 128]].

Fixpoint strip_bytes (p l : list Z) : option (list Z) :=
  match p, l with
  | [], _ => Some l
  | x :: p, y :: l => if x =? y then strip_bytes p l else None
  | _, [] => None
  end.

Fixpoint strip_any (ps : list (list Z)) (l : list Z) : option (list Z) :=
  match ps with
  | [] => None
  | p :: ps => match strip_bytes p l with Some l => Some l | None => strip_any ps l end
  end.

(** Each step removes at least one byte, so the length of the list is enough. *)
Fixpoint trim_bytes (fuel : nat) (ps : list (list Z)) (l : list Z) : list Z :=
  match fuel with
  | O => l
  | S fuel => match strip_any ps l with Some l => trim_bytes fuel ps l | None => l end
  end.

Definition TrimSpace (s : string) : string :=
  let l := string_to_bytes s in
  let l := trim_bytes (length l) space_encodings l in
  bytes_to_string (rev (trim_bytes (length l) (map (@rev Z) space_encodings) (rev l))).

Definition TrimPrefix (s prefix : string) : string :=
  if String.prefix prefix s then String.substring (String.length prefix) (String.length s - String.length prefix) s
  else s.

(** ** UTF-8 and unicode.IsPrint *)

Definition cont_byte (b : Z) : bool := (128 <=? b) && (b <=? 191).

(** [utf8.DecodeRune]: the character and its width, [None] for a byte that does
    not start a valid encoding. *)
Definition DecodeRune (l : list Z) : option (Z * nat) :=
  match l with
  | [] => None
  | b0 :: l =>
      if b0 <? 128 then Some (b0, 1%nat)
      else match l with
      | [] => None
      | b1 :: l =>
          if (194 <=? b0) && (b0 <=? 223) then
            if cont_byte b1 then Some ((b0 - 192) * 64 + (b1 - 128), 2%nat) else None
          else match l with
          | [] => None
          | b2 :: l =>
              if (224 <=? b0) && (b0 <=? 239) then
                if ((if b0 =? 224 then 160 else 128) <=? b1) && (b1 <=? (if b0 =? 237 then 159 else 191)) && cont_byte b2
                then Some ((b0 - 224) * 4096 + (b1 - 128) * 64 + (b2 - 128), 3%nat) else None
              else match l with
              | [] => None
              | b3 :: _ =>
                  if (240 <=? b0) && (b0 <=? 244) &&
                     ((if b0 =? 240 then 144 else 128) <=? b1) && (b1 <=? (if b0 =? 244 then 143 else 191)) &&
                     cont_byte b2 && cont_byte b3
                  then Some ((b0 - 240) * 262144 + (b1 - 128) * 4096 + (b2 - 128) * 64 + (b3 - 128), 4%nat)
                  else None
              end
          end
      end
  end.

(** The tables of Unicode beyond Latin-1. *)
Class Unicode := { IsPrintWide : Z -> bool }.

Definition IsPrint `{Unicode} (r : Z) : bool :=
  if r <=? 255 then ((32 <=? r) && (r <=? 126)) || ((161 <=? r) && negb (r =? 173)) else IsPrintWide r.

(** [strings.Map] that drops what is not printable; a byte that is not UTF-8
    becomes the replacement character.  Each step takes at least one byte. *)
Fixpoint print_bytes `{Unicode} (fuel : nat) (l : list Z) : list Z :=
  match fuel, l with
  | S fuel, b :: rest =>
      match DecodeRune l with
      | Some (r, n) => (if IsPrint r then take n l else []) ++ print_bytes fuel (drop n l)
      | None => [239; 191; 189] ++ print_bytes fuel rest
      end
  | _, _ => []
  end.

Definition printable_only `{Unicode} (s : string) : string :=
  let l := string_to_bytes s in bytes_to_string (print_bytes (length l) l).
