(* ===== verification/Varint.v ===== *)
(** * Variable-length integers

    Protobuf and multiformats write an integer in groups of seven bits, the
    lowest first; every byte but the last has its top bit set. *)

From Stdlib Require Import ZArith Lia.
From stdpp Require Import base list.
From S2P Require Import Prelude.

Definition len {A} (l : list A) : Z := Z.of_nat (length l).

Lemma len_app {A} (a b : list A) : len (a ++ b) = len a + len b.
Proof. unfold len. rewrite length_app. lia. Qed.

(** [x << shift] on 64 bits; a shift by 64 or more gives 0. *)
Definition shl64 (x shift : Z) : Z := u64 (Z.shiftl x shift).

(** The reference encoding: groups of seven bits, the lowest first. *)
Fixpoint groups (fuel : nat) (v : Z) : list Z :=
  match fuel with
  | O => []
  | S fuel => if 128 <=? v then 128 + v mod 128 :: groups fuel (v / 128) else [v]
  end.

Definition varint (v : Z) : list Z := groups 10 v.
#[global] Arguments varint : simpl never.

Lemma lor_disjoint a b k : 0 <= k -> 0 <= a < 2 ^ k -> Z.lor a (Z.shiftl b k) = a + b * 2 ^ k.
Proof.
  intros Hk Ha. rewrite <- Z.shiftl_mul_pow2, <- Z.add_lor_land by done.
  assert (Z.land a (Z.shiftl b k) = 0) as ->; [|lia].
  apply Z.bits_inj'. intros n Hn. rewrite Z.land_spec, Z.bits_0.
  destruct (Z.ltb_spec n k); [by rewrite Z.shiftl_spec_low, andb_false_r|].
  rewrite <- (Z.mod_small a (2 ^ k)) by done. by rewrite Z.mod_pow2_bits_high by lia.
Qed.

Lemma low_group v : Z.land v 127 = v mod 128.
Proof. change 127 with (Z.ones 7). by rewrite Z.land_ones. Qed.

Lemma high_group v : Z.lor (Z.land v 127) 128 = 128 + v mod 128.
Proof.
  rewrite low_group. change 128 with (Z.shiftl 1 7) at 2.
  rewrite lor_disjoint; [lia|lia|]. apply Z.mod_pos_bound. lia.
Qed.

Lemma group_div v n : 0 <= v < 128 ^ Z.of_nat (S n) -> 0 <= v / 128 < 128 ^ Z.of_nat n.
Proof.
  rewrite Nat2Z.inj_succ, Z.pow_succ_r by lia. intros. split; [apply Z.div_pos; lia|].
  apply Z.div_lt_upper_bound; lia.
Qed.

Lemma groups_S n v :
  groups (S n) v = if 128 <=? v then 128 + v mod 128 :: groups n (v / 128) else [v].
Proof. done. Qed.

Lemma groups_length n v : 0 <= v < 128 ^ Z.of_nat (S n) -> len (groups (S n) v) = Z.log2 v / 7 + 1.
Proof.
  revert v. induction n as [|n IH]; intros v Hv; rewrite groups_S; destruct (Z.leb_spec 128 v) as [Hle|Hlt].
  - change (128 ^ Z.of_nat 1) with 128 in Hv. lia.
  - unfold len. cbn. rewrite Z.div_small; [done|]. split; [apply Z.log2_nonneg|].
    destruct (Z.eq_dec v 0) as [->|]; [done|]. apply Z.log2_lt_pow2; lia.
  - apply group_div in Hv. specialize (IH _ Hv). unfold len in *. cbn [length]. rewrite Nat2Z.inj_succ.
    rewrite IH.
    change 128 with (2 ^ 7). rewrite <- Z.shiftr_div_pow2, Z.log2_shiftr by lia.
    assert (7 <= Z.log2 v) by (apply Z.log2_le_pow2; lia).
    rewrite Z.max_r by lia. replace (Z.log2 v) with (Z.log2 v - 7 + 1 * 7) at 2 by lia.
    rewrite Z.div_add by lia. lia.
  - unfold len. cbn. rewrite Z.div_small; [done|]. split; [apply Z.log2_nonneg|].
    destruct (Z.eq_dec v 0) as [->|]; [done|]. apply Z.log2_lt_pow2; lia.
Qed.

Lemma u64_groups v : is_u64 v -> 0 <= v < 128 ^ Z.of_nat 10.
Proof. unfold is_u64. change (128 ^ Z.of_nat 10) with (2 ^ 70). lia. Qed.

Lemma len_u64 {A} (l : list A) : len l < 2 ^ 63 -> is_u64 (len l).
Proof. unfold is_u64, len. lia. Qed.
