(* ===== verification/Bank.v ===== *)
(** * The bank, gas and community pool interfaces

    The modules of terp-core move coins through the SDK's bank keeper.  The
    class [BankOps] lists the operations they call, over an abstract state;
    [BankLaws] states the documented effect of each on balances, supply and
    metadata.  [RefBank] is an implementation of the laws. *)

From Stdlib Require Import ZArith Lia.
From stdpp Require Import base gmap strings list sorting.
From S2P Require Import Prelude Sdk SdkRef.

(** [banktypes.Metadata]. *)
Record Metadata := mkMetadata {
  DenomUnits : list (string * Z);
  Base : string;
  Display : string;
  MName : string;
  Symbol : string
}.

Class BankOps (B : Type) := {
  balance : B -> string -> string -> Z;
  supply : B -> string -> Z;
  GetDenomMetaData : B -> string -> option Metadata;
  SetDenomMetaData : Metadata -> M B unit;
  Metadata_Validate : Metadata -> res unit;
  BlockedAddr : string -> bool;
  module_address : string -> string;
  MintCoins : string -> list Coin -> M B unit;
  BurnCoins : string -> list Coin -> M B unit;
  SendCoins : string -> string -> list Coin -> M B unit;
  SendCoinsFromModuleToAccount : string -> string -> list Coin -> M B unit;
  SendCoinsFromAccountToModule : string -> string -> list Coin -> M B unit;
  FundCommunityPool : list Coin -> string -> M B unit
}.

Section Effects.
Context {B : Type} `{BankOps B}.

(** The change of one account's balance by a transfer. *)
Definition flow (f t : string) (c : list Coin) (a d : string) : Z :=
  (if decide (a = t) then amount_of c d else 0) - (if decide (a = f) then amount_of c d else 0).

Definition same_meta (b b' : B) : Prop :=
  forall d, GetDenomMetaData b' d = GetDenomMetaData b d.

(** [c] went from [f] to [t] and nothing else changed. *)
Definition transferred (b b' : B) (f t : string) (c : list Coin) : Prop :=
  (forall a d, balance b' a d = balance b a d + flow f t c a d) /\
  (forall d, supply b' d = supply b d) /\ same_meta b b'.

(** [c] was created in (or, negated, destroyed from) the account [a0]. *)
Definition issued (b b' : B) (a0 : string) (c : list Coin) (sign : Z) : Prop :=
  (forall a d, balance b' a d = balance b a d + if decide (a = a0) then sign * amount_of c d else 0) /\
  (forall d, supply b' d = supply b d + sign * amount_of c d) /\ same_meta b b'.

End Effects.

Class BankLaws (B : Type) `{BankOps B} : Prop := {
  SetDenomMetaData_ok m b : exists b', SetDenomMetaData m b = (Ok tt, b') /\
    GetDenomMetaData b' (Base m) = Some m /\
    (forall d, d <> Base m -> GetDenomMetaData b' d = GetDenomMetaData b d) /\
    (forall a d, balance b' a d = balance b a d) /\ (forall d, supply b' d = supply b d);
  MintCoins_ok m c b b' : MintCoins m c b = (Ok tt, b') -> issued b b' (module_address m) c 1;
  BurnCoins_ok m c b b' : BurnCoins m c b = (Ok tt, b') -> issued b b' (module_address m) c (-1);
  SendCoins_ok f t c b b' : SendCoins f t c b = (Ok tt, b') -> transferred b b' f t c;
  SendCoins_funds f t c b : coins_ok c -> (forall d, amount_of c d <= balance b f d) ->
    exists b', SendCoins f t c b = (Ok tt, b');
  SendFromModule_ok m t c b b' : SendCoinsFromModuleToAccount m t c b = (Ok tt, b') ->
    transferred b b' (module_address m) t c;
  SendToModule_ok f m c b b' : SendCoinsFromAccountToModule f m c b = (Ok tt, b') ->
    transferred b b' f (module_address m) c;
  FundCommunityPool_ok c f b b' : FundCommunityPool c f b = (Ok tt, b') ->
    transferred b b' f (module_address "distribution") c
}.

(** ** A reference bank *)

Module RefBank.

Record ref_bank := mkBank {
  bal : gmap (string * string) Z;
  sup : gmap string Z;
  meta : gmap string Metadata
}.

Definition get_bal (m : gmap (string * string) Z) (a d : string) : Z := default 0 (m !! (a, d)).

(** Adds [sign] times the coins to the account. *)
Fixpoint add_coins (a : string) (c : list Coin) (sign : Z) (m : gmap (string * string) Z)
    : gmap (string * string) Z :=
  match c with
  | [] => m
  | x :: c =>
      let m := add_coins a c sign m in
      <[(a, Denom x) := get_bal m a (Denom x) + sign * Amount x]> m
  end.

Fixpoint add_supply (c : list Coin) (sign : Z) (m : gmap string Z) : gmap string Z :=
  match c with
  | [] => m
  | x :: c =>
      let m := add_supply c sign m in
      <[Denom x := default 0 (m !! Denom x) + sign * Amount x]> m
  end.

Definition mod_addr (m : string) : string := ("module:" ++ m)%string.

Definition has_funds (b : ref_bank) (a : string) (c : list Coin) : bool :=
  forallb (fun d => amount_of c d <=? get_bal (bal b) a d) (denoms c).

Definition send (f t : string) (c : list Coin) : M ref_bank unit :=
  b ← get;
  ensureM (has_funds b f c) "insufficient funds";;
  modify (fun b => mkBank (add_coins t c 1 (add_coins f c (-1) (bal b))) (sup b) (meta b)).

Definition issue (a : string) (c : list Coin) (sign : Z) : M ref_bank unit :=
  modify (fun b => mkBank (add_coins a c sign (bal b)) (add_supply c sign (sup b)) (meta b)).

Definition burn (a : string) (c : list Coin) : M ref_bank unit :=
  b ← get;
  ensureM (has_funds b a c) "insufficient funds";;
  issue a c (-1).

#[export] Instance ops : BankOps ref_bank := {|
  balance b a d := get_bal (bal b) a d;
  supply b d := default 0 (sup b !! d);
  GetDenomMetaData b d := meta b !! d;
  SetDenomMetaData m := modify (fun b => mkBank (bal b) (sup b) (<[Base m := m]> (meta b)));
  Metadata_Validate m := ensure (negb (bool_decide (Base m = ""%string))) "invalid metadata";
  BlockedAddr a := bool_decide (a = "blocked"%string);
  module_address := mod_addr;
  MintCoins m c := issue (mod_addr m) c 1;
  BurnCoins m c := burn (mod_addr m) c;
  SendCoins := send;
  SendCoinsFromModuleToAccount m t c := send (mod_addr m) t c;
  SendCoinsFromAccountToModule f m c := send f (mod_addr m) c;
  FundCommunityPool c f := send f (mod_addr "distribution") c
|}.

Definition empty : ref_bank := mkBank ∅ ∅ ∅.

End RefBank.

Module RefBankLaws.
Import RefBank.

Lemma add_coins_spec a c sign m a' d :
  get_bal (add_coins a c sign m) a' d =
  get_bal m a' d + if decide (a' = a) then sign * amount_of c d else 0.
Proof.
  induction c as [|x c IH]; cbn [add_coins amount_of].
  { case_decide; lia. }
  destruct (decide ((a', d) = (a, Denom x))) as [[= -> ->]|Hne].
  - unfold get_bal at 1. rewrite lookup_insert_eq. cbn. rewrite IH.
    rewrite !decide_True by done. lia.
  - unfold get_bal at 1. rewrite lookup_insert_ne by congruence. fold (get_bal (add_coins a c sign m) a' d).
    rewrite IH. repeat case_decide; subst; try lia. by destruct Hne.
Qed.

Lemma add_supply_spec c sign m d :
  default 0 (add_supply c sign m !! d) = default 0 (m !! d) + sign * amount_of c d.
Proof.
  induction c as [|x c IH]; cbn [add_supply amount_of]; [lia|].
  destruct (decide (d = Denom x)) as [->|Hne].
  - rewrite lookup_insert_eq. cbn. rewrite IH, decide_True by done. lia.
  - rewrite lookup_insert_ne, IH, decide_False by congruence. lia.
Qed.

Lemma send_transferred f t c b b' : send f t c b = (Ok tt, b') -> transferred b b' f t c.
Proof.
  unfold send. intros H. go_inv. repeat split; try done. intros a d. cbn.
  rewrite !add_coins_spec. unfold flow. repeat case_decide; lia.
Qed.

Lemma issue_issued a c sign b b' : issue a c sign b = (Ok tt, b') -> issued b b' a c sign.
Proof.
  unfold issue. intros H. go_inv. repeat split; try done; intros; cbn.
  - apply add_coins_spec.
  - apply add_supply_spec.
Qed.

#[export] Instance laws : BankLaws ref_bank.
Proof.
  split; intros.
  - eexists. split; [done|]. cbn. rewrite lookup_insert_eq. repeat split; try done.
    intros d Hd. by rewrite lookup_insert_ne.
  - by apply issue_issued.
  - cbn in *. unfold burn in *. go_inv. by apply issue_issued.
  - by apply send_transferred.
  - assert (has_funds b f c = true) as E.
    { unfold has_funds. apply forallb_forall. intros d _. apply Z.leb_le. auto. }
    eexists. cbn. unfold send. go_run. by rewrite E.
  - by apply send_transferred.
  - by apply send_transferred.
  - by apply send_transferred.
Qed.

End RefBankLaws.
