(* ===== verification/GlobalFee.v ===== *)
(** * x/globalfee

    The fee ante decorator, its parameters and their update.  The main theorem
    is that the decorator, with its sorting, binary search and splitting of
    coin lists, decides a short specification over per-denomination prices. *)

From Stdlib Require Import ZArith Lia.
From stdpp Require Import base gmap strings list sorting.
From S2P Require Import Prelude Sdk SdkRef.

(** ** Data *)

Record Params := mkParams { MinimumGasPrices : list DecCoin }.

(** The module store: the parameters, if any were written. *)
Definition store : Type := option Params.

(** What the decorator reads from the context: the execution mode, the node's
    own minimum gas prices and the module store. *)
Record Context := mkContext {
  IsCheckTx : bool;
  MinGasPrices : list DecCoin;
  gf_store : store
}.

(** A transaction, as far as [sdk.FeeTx] exposes it; [msg_urls] are the type
    URLs of its messages. *)
Record FeeTx := mkFeeTx {
  is_fee_tx : bool;
  GetFee : list Coin;
  GetGas : Z;
  msg_urls : list string
}.

Record FeeDecorator := mkFeeDecorator {
  BypassMinFeeMsgTypes : list string;
  BondDenom : res string;
  MaxTotalBypassMinFeeMsgGasUsage : Z
}.

Section GlobalFee.
Context `{SdkMath} `{SdkCoins}.

(** ** Parameters *)

(** The loop of [DecCoins.Validate]; [low] is [None] on the first turn. *)
Fixpoint Validate_loop (coins : list DecCoin) (low : option string) (seen : gset string)
    : res unit :=
  match coins with
  | [] => Ok tt
  | coin :: coins =>
      refuse (bool_decide (DDenom coin ∈ seen)) "duplicate denomination";;
      ensure (ValidateDenom (DDenom coin)) "invalid denom";;
      refuse (match low with Some l => str_leb (DDenom coin) l | None => false end)
        "denomination is not sorted";;
      refuse (DAmount coin <? 0) "amount is negative";;
      Validate_loop coins (Some (DDenom coin)) ({[DDenom coin]} ∪ seen)
  end.

Definition DecCoins_Validate (coins : list DecCoin) : res unit :=
  if (length coins =? 0)%nat then Ok tt else Validate_loop coins None ∅.

Definition Params_Validate (p : Params) : res unit :=
  DecCoins_Validate (MinimumGasPrices p).

Definition DefaultParams : Params := mkParams [].

Definition GetParams (s : store) : Params :=
  match s with Some p => p | None => mkParams [] end.

Definition SetParams (p : Params) : M store unit :=
  lift (Params_Validate p);;
  modify (fun _ => Some p).

Definition UpdateParams (authority req_authority : string) (p : Params) : M store unit :=
  ensureM (bool_decide (authority = req_authority)) "ErrInvalidSigner";;
  SetParams p.

Definition Migrate_v2 (bondDenom : string) : M store unit :=
  price ← lift (NewDecCoinFromDec bondDenom (75 * 10 ^ 15));
  let currParams := mkParams [price] in
  lift (Params_Validate currParams);;
  modify (fun _ => Some currParams).

(** ** Coin helpers *)

Definition ContainZeroCoins (coins : list Coin) : bool :=
  if (length coins =? 0)%nat then true
  else existsb (fun c => Amount c =? 0) coins.

(** [Find] is a binary search; every call halves the slice, so a fuel of the
    slice's length is enough (see [Find_equiv_linear]). *)
Fixpoint Find_fuel (fuel : nat) (coins : list Coin) (denom : string) : bool * Coin :=
  match fuel with
  | O => (false, mkCoin "" 0)
  | S fuel =>
      match coins with
      | [] => (false, mkCoin "" 0)
      | [coin] => if bool_decide (Denom coin = denom) then (true, coin) else (false, mkCoin "" 0)
      | coin0 :: _ =>
          let midIdx := (length coins / 2)%nat in
          let coin := nth midIdx coins coin0 in
          if str_ltb denom (Denom coin) then Find_fuel fuel (take midIdx coins) denom
          else if bool_decide (denom = Denom coin) then (true, coin)
          else Find_fuel fuel (drop (midIdx + 1) coins) denom
      end
  end.

Definition Find (coins : list Coin) (denom : string) : bool * Coin :=
  Find_fuel (S (length coins)) coins denom.

Definition CombinedFeeRequirement (globalFees minGasPrices : list Coin) : list Coin :=
  if (length minGasPrices =? 0)%nat then globalFees
  else if (length globalFees =? 0)%nat then []
  else coins_sort (map (fun fee =>
    let '(ok, c) := Find minGasPrices (Denom fee) in
    if ok && (Amount fee <? Amount c) then c else fee) globalFees).

Definition getNonZeroFees (fees : list Coin) : list Coin * gset string :=
  (coins_sort (List.filter (fun gf => negb (Amount gf =? 0)) fees),
   list_to_set (map Denom (List.filter (fun gf => Amount gf =? 0) fees))).

Definition splitCoinsByDenoms (feeCoins : list Coin) (denomMap : gset string)
    : list Coin * list Coin :=
  (coins_sort (List.filter (fun fc => negb (bool_decide (Denom fc ∈ denomMap))) feeCoins),
   coins_sort (List.filter (fun fc => bool_decide (Denom fc ∈ denomMap)) feeCoins)).

(** ** Required fees *)

(** The loop shared by [GetGlobalFee] and [GetMinGasPrice]: every price times
    the gas limit, rounded up. *)
Definition required_fees (prices : list DecCoin) (glDec : Z) : res (list Coin) :=
  mapM (fun gp => NewCoin (DDenom gp) (dec_round_int (dec_ceil (dec_mul (DAmount gp) glDec))))
    prices.

Definition DefaultZeroGlobalFee (mfd : FeeDecorator) : res (list DecCoin) :=
  let bondDenom := match BondDenom mfd with Ok d => d | _ => ""%string end in
  refuse (bool_decide (bondDenom = ""%string)) "empty staking bond denomination";;
  c ← NewDecCoinFromDec bondDenom (LegacyNewDec 0);
  Ok [c].

Definition GetGlobalFee (mfd : FeeDecorator) (ctx : Context) (tx : FeeTx) : res (list Coin) :=
  let globalMinGasPrices := MinimumGasPrices (GetParams (gf_store ctx)) in
  globalMinGasPrices ←
    (if (length globalMinGasPrices =? 0)%nat then DefaultZeroGlobalFee mfd
     else Ok globalMinGasPrices);
  requiredGlobalFees ← required_fees globalMinGasPrices (LegacyNewDec (i64 (GetGas tx)));
  Ok (coins_sort requiredGlobalFees).

Definition GetMinGasPrice (ctx : Context) (gasLimit : Z) : res (list Coin) :=
  let minGasPrices := MinGasPrices ctx in
  if forallb (fun gp => DAmount gp =? 0) minGasPrices then Ok []
  else
    must (gasLimit <? 2 ^ 63) "Int64() out of bound";;
    requiredFees ← required_fees minGasPrices (LegacyNewDec gasLimit);
    Ok (coins_sort requiredFees).

Definition ContainsOnlyBypassMinFeeMsgs (mfd : FeeDecorator) (urls : list string) : bool :=
  forallb (fun url => bool_decide (url ∈ BypassMinFeeMsgTypes mfd)) urls.

(** ** The decorator *)

Definition AnteHandle {R} (mfd : FeeDecorator) (ctx : Context) (tx : FeeTx) (simulate : bool)
    (next : Context -> FeeTx -> bool -> res R) : res R :=
  ensure (is_fee_tx tx) "ErrTxDecode";;
  if negb (IsCheckTx ctx) || simulate then next ctx tx simulate
  else
    let feeCoins := coins_sort (GetFee tx) in
    let gas := GetGas tx in
    requiredGlobalFees ← GetGlobalFee mfd ctx tx;
    localFees ← GetMinGasPrice ctx gas;
    let combinedFeeRequirement := CombinedFeeRequirement requiredGlobalFees localFees in
    refuse (length combinedFeeRequirement =? 0)%nat "ErrNotFound";;
    let '(nonZeroCoinFeesReq, zeroCoinFeesDenomReq) := getNonZeroFees combinedFeeRequirement in
    let '(feeCoinsNonZeroDenom, feeCoinsZeroDenom) :=
      splitCoinsByDenoms feeCoins zeroCoinFeesDenomReq in
    ensure (denoms_subset_of feeCoinsNonZeroDenom nonZeroCoinFeesReq) "ErrInsufficientFee";;
    let doesNotExceedMaxGasUsage := gas <=? MaxTotalBypassMinFeeMsgGasUsage mfd in
    let allowedToBypassMinFee :=
      ContainsOnlyBypassMinFeeMsgs mfd (msg_urls tx) && doesNotExceedMaxGasUsage in
    if negb allowedToBypassMinFee && (length feeCoinsZeroDenom =? 0)%nat then
      if (length feeCoins =? 0)%nat && negb (bool_decide (zeroCoinFeesDenomReq = ∅))
      then next ctx tx simulate
      else
        ensure (is_any_gte feeCoinsNonZeroDenom nonZeroCoinFeesReq) "ErrInsufficientFee";;
        next ctx tx simulate
    else next ctx tx simulate.

(** ** Specification *)

Definition price_lt (x y : DecCoin) : Prop := str_lt (DDenom x) (DDenom y).

(** Prices sorted by denomination without repetition, each valid and not negative. *)
Definition valid_prices (ps : list DecCoin) : Prop :=
  StronglySorted price_lt ps /\
  Forall (fun p => ValidateDenom (DDenom p) = true /\ 0 <= DAmount p) ps.

(** [gas * price] rounded up to a whole coin. *)
Definition ceil_fee (gas price : Z) : Z := - (- (price * gas) / dec_one).

Definition fees_of (gas : Z) (ps : list DecCoin) : list Coin :=
  map (fun p => mkCoin (DDenom p) (ceil_fee gas (DAmount p))) ps.

(** The global prices in force: a zero price in the bond denomination when no
    price is set. *)
Definition prices_in_force (mfd : FeeDecorator) (ctx : Context) : list DecCoin :=
  match MinimumGasPrices (GetParams (gf_store ctx)) with
  | [] => match BondDenom mfd with Ok d => [mkDecCoin d 0] | _ => [] end
  | ps => ps
  end.

(** The fee required in [d]: the larger of the global and the local fee. *)
Definition required (gps lps : list DecCoin) (gas : Z) (d : string) : Z :=
  Z.max (amount_of (fees_of gas gps) d) (amount_of (fees_of gas lps) d).

Definition pays_in_accepted_denoms (gps : list DecCoin) (fee : list Coin) : Prop :=
  forall d, d ∈ denoms fee -> d ∈ map DDenom gps.

Definition bypasses (mfd : FeeDecorator) (tx : FeeTx) : bool :=
  forallb (fun url => bool_decide (url ∈ BypassMinFeeMsgTypes mfd)) (msg_urls tx) &&
  (GetGas tx <=? MaxTotalBypassMinFeeMsgGasUsage mfd).

(** What a fee has to satisfy to enter the mempool. *)
Definition fee_accepted (mfd : FeeDecorator) (gps lps : list DecCoin) (gas : Z) (tx : FeeTx) : Prop :=
  pays_in_accepted_denoms gps (GetFee tx) /\
  (bypasses mfd tx = true \/
   (GetFee tx = [] /\ exists d, d ∈ map DDenom gps /\ required gps lps gas d = 0) \/
   exists d, d ∈ denoms (GetFee tx) /\ required gps lps gas d <= amount_of (GetFee tx) d).

(** The prices are so low that a gas limit of 2^63 or more, which becomes negative
    as an [int64], costs nothing. *)
Definition wraps_to_free (gps lps : list DecCoin) (gas : Z) : Prop :=
  Forall (fun p => DAmount p = 0) lps /\ Forall (fun p => DAmount p * (2 ^ 64 - gas) < dec_one) gps.

End GlobalFee.

(** ** Lemmas *)

Section Proofs.
Context `{SdkMathLaws} `{SdkCoinsLaws}.

Lemma sorted_tail_forall (l : string) (ps : list DecCoin) :
  StronglySorted price_lt ps ->
  (match ps with [] => True | p :: _ => str_lt l (DDenom p) end) ->
  Forall (fun p => str_lt l (DDenom p)) ps.
Proof.
  destruct 1 as [|p ps Hs Hp]; intros Hl; constructor; [done|].
  eapply Forall_impl; [exact Hp|]. intros q Hq. eapply str_lt_trans; eauto.
Qed.

Lemma str_leb_false s t : str_leb s t = false <-> str_lt t s.
Proof. unfold str_leb, str_lt. rewrite negb_false_iff. done. Qed.

(** The duplicate test is implied by the order test, because everything seen
    so far is at most the last denomination. *)
Lemma Validate_loop_iff ps low seen :
  (forall d, d ∈ seen -> exists l, low = Some l /\ (d = l \/ str_lt d l)) ->
  Validate_loop ps low seen = Ok tt <->
  valid_prices ps /\ (forall l, low = Some l -> Forall (fun p => str_lt l (DDenom p)) ps).
Proof.
  revert low seen. induction ps as [|p ps IH]; intros low seen Hseen; cbn [Validate_loop].
  { split; [|done]. intros _. repeat split; constructor. }
  assert (forall l, low = Some l ->
    Forall (fun q => str_lt l (DDenom q)) (p :: ps) -> str_lt l (DDenom p)) as Hhd.
  { intros l _ Hl. by inversion Hl. }
  destruct (decide (DDenom p ∈ seen)) as [Hin|Hin].
  { rewrite bool_decide_true by done. split; [done|]. intros [_ Hl]. exfalso.
    destruct (Hseen _ Hin) as (l & -> & Hd). specialize (Hhd l eq_refl (Hl l eq_refl)).
    destruct Hd as [<-|Hd]; [by apply str_lt_ne in Hhd|].
    apply str_lt_asym in Hd. unfold str_lt in Hhd. congruence. }
  rewrite bool_decide_false by done. cbn.
  destruct (ValidateDenom (DDenom p)) eqn:Hv; cbn.
  2:{ split; [done|]. intros [[_ Hf] _]. inversion Hf; subst. naive_solver congruence. }
  destruct (match low with Some l => _ | None => _ end) eqn:Hlow; cbn.
  { split; [done|]. intros [_ Hl]. exfalso. destruct low as [l|]; [|done].
    specialize (Hhd l eq_refl (Hl l eq_refl)). apply str_leb_false in Hhd. congruence. }
  destruct (Z.ltb_spec (DAmount p) 0) as [Hneg|Hpos]; cbn.
  { split; [done|]. intros [[_ Hf] _]. inversion Hf; subst. lia. }
  assert (forall l, low = Some l -> str_lt l (DDenom p)) as Hlt.
  { intros l ->. by apply str_leb_false. }
  rewrite IH.
  2:{ intros d Hd. exists (DDenom p). split; [done|]. apply elem_of_union in Hd as [Hd|Hd];
      [left; set_solver|right]. destruct (Hseen _ Hd) as (l & -> & [->|Hl]); eauto with terp. }
  split.
  - intros [[Hs Hf] Hl]. split; [split; constructor; eauto|].
    intros l ->. constructor; [eauto|]. eapply Forall_impl; [by apply Hl|].
    intros q Hq. eapply str_lt_trans; eauto.
  - intros [[Hs Hf] Hl]. inversion Hs; inversion Hf; subst.
    split; [split; done|]. by intros l [= <-].
Qed.

(** [Find] against a linear search. *)
Definition find_linear (coins : list Coin) (denom : string) : bool * Coin :=
  match List.find (fun c => bool_decide (Denom c = denom)) coins with
  | Some c => (true, c)
  | None => (false, mkCoin "" 0)
  end.

Lemma find_app {A} f (l1 l2 : list A) :
  List.find f (l1 ++ l2) =
  match List.find f l1 with Some x => Some x | None => List.find f l2 end.
Proof. induction l1 as [|x l1 IH]; cbn; [done|]. by destruct (f x). Qed.

Lemma find_none_forall (l : list Coin) d :
  Forall (fun c => Denom c <> d) l -> List.find (fun c => bool_decide (Denom c = d)) l = None.
Proof. induction 1; cbn; [done|]. by rewrite bool_decide_false. Qed.

Lemma sorted_app_inv (l1 l2 : list Coin) c :
  StronglySorted coin_lt (l1 ++ c :: l2) ->
  StronglySorted coin_lt l1 /\ StronglySorted coin_lt l2 /\
  Forall (fun x => str_lt (Denom x) (Denom c)) l1 /\
  Forall (fun x => str_lt (Denom c) (Denom x)) l2.
Proof.
  induction l1 as [|x l1 IH]; cbn; inversion 1 as [|? ? Hs Hf]; subst.
  - repeat split; try constructor; done.
  - destruct (IH Hs) as (?&?&?&?). apply Forall_app in Hf as [Hf1 Hf2].
    inversion Hf2; subst. repeat split; try constructor; done.
Qed.

Lemma Find_fuel_linear n coins d :
  (length coins < n)%nat -> StronglySorted coin_lt coins ->
  Find_fuel n coins d = find_linear coins d.
Proof.
  revert coins. induction n as [|n IH]; intros coins Hn Hs; [lia|].
  destruct coins as [|c0 [|c1 coins]]; [done| |].
  { cbn. unfold find_linear. cbn. by case_bool_decide. }
  cbn [Find_fuel]. set (l := c0 :: c1 :: coins) in *.
  set (m := (length l / 2)%nat).
  assert (m < length l)%nat as Hm by (apply Nat.div_lt; cbn; lia).
  assert (l = take m l ++ nth m l c0 :: drop (m + 1) l) as El.
  { rewrite <- (take_drop m l) at 1. f_equal. rewrite Nat.add_1_r.
    rewrite (drop_S l (nth m l c0) m); [done|].
    destruct (nth_lookup_or_length l m c0); [done|lia]. }
  clearbody m. remember (nth m l c0) as c eqn:Ec. clear Ec.
  rewrite El in Hs. apply sorted_app_inv in Hs as (Hs1&Hs2&Hf1&Hf2).
  assert (length (take m l) < n /\ length (drop (m + 1) l) < n)%nat as [Hl1 Hl2].
  { rewrite length_take, length_drop. lia. }
  unfold find_linear. rewrite El at 3. rewrite find_app. cbn [List.find].
  destruct (str_ltb d (Denom c)) eqn:Hlt.
  { rewrite IH by done. unfold find_linear. destruct (List.find _ (take m l)); [done|].
    rewrite bool_decide_false by (intros <-; by apply str_lt_ne in Hlt).
    rewrite find_none_forall; [done|]. eapply Forall_impl; [exact Hf2|].
    intros x Hx <-. apply (str_lt_ne (Denom x) (Denom x)); [|done]. eapply str_lt_trans; eauto. }
  assert (List.find (fun c => bool_decide (Denom c = d)) (take m l) = None) as ->.
  { apply find_none_forall. eapply Forall_impl; [exact Hf1|]. intros x Hx <-.
    unfold str_lt in Hx. congruence. }
  case_bool_decide as E; [by rewrite bool_decide_true|].
  rewrite bool_decide_false by done. rewrite IH by done. done.
Qed.

Lemma mapM_res_Ok {A B} (f : A -> res B) g l :
  Forall (fun x => f x = Ok (g x)) l -> mapM f l = Ok (map g l).
Proof. induction 1 as [|x l Hx Hl IH]; cbn; [done|]. rewrite Hx. cbn. by rewrite IH. Qed.

Lemma ceil_fee_nonneg gas p : 0 <= gas -> 0 <= p -> 0 <= ceil_fee gas p.
Proof.
  intros. unfold ceil_fee.
  assert (- (p * gas) / dec_one <= 0); [|lia].
  apply Z.div_le_upper_bound; [done|]. nia.
Qed.

(** The fees are not negative. *)
Definition payable (gas : Z) (ps : list DecCoin) : Prop := Forall (fun p => 0 <= ceil_fee gas (DAmount p)) ps.

Lemma payable_pos gas ps : valid_prices ps -> 0 <= gas -> payable gas ps.
Proof. intros [_ Hf] Hgas. eapply Forall_impl; [exact Hf|]. intros p [_ Hp]. by apply ceil_fee_nonneg. Qed.

Lemma payable_neg gas ps : valid_prices ps -> gas < 0 -> payable gas ps <-> Forall (fun p => DAmount p * - gas < dec_one) ps.
Proof.
  intros [_ Hf] Hgas. assert (Hone : 0 < dec_one) by done. unfold payable. rewrite !Forall_forall in *. split; intros Hp p Hin;
    specialize (Hp p Hin); destruct (Hf p Hin) as [_ Hpos]; unfold ceil_fee in *.
  - destruct (Z.lt_ge_cases (DAmount p * - gas) dec_one) as [|Hge]; [done|exfalso].
    assert (1 <= - (DAmount p * gas) / dec_one); [apply Z.div_le_lower_bound; lia|lia].
  - rewrite Z.div_small by nia. done.
Qed.

Lemma required_fee_ceil gas price : dec_round_int (dec_ceil (dec_mul price (LegacyNewDec gas))) = ceil_fee gas price.
Proof.
  unfold LegacyNewDec. rewrite dec_mul_spec, Z.mul_assoc, round_half_even_exact by done.
  by rewrite dec_ceil_spec, dec_round_int_spec, round_half_even_exact.
Qed.

Lemma required_fees_ok gas ps :
  valid_prices ps -> payable gas ps -> required_fees ps (LegacyNewDec gas) = Ok (fees_of gas ps).
Proof.
  intros [_ Hf] Hgas. apply mapM_res_Ok. pose proof (conj Hf Hgas) as Hall%Forall_and.
  eapply Forall_impl; [exact Hall|]. cbn. intros p [[Hv Hp] Hc]. rewrite required_fee_ceil. by apply NewCoin_ok.
Qed.

(** A negative fee cannot be written as a coin. *)
Lemma required_fees_panic gas ps : valid_prices ps -> ~ payable gas ps ->
  exists p, required_fees ps (LegacyNewDec gas) = Panic p.
Proof.
  intros [_ Hf] Hgas. unfold required_fees. induction Hf as [|p ps [Hv Hp] _ IH]; [by destruct Hgas; constructor|].
  cbn [mapM]. rewrite required_fee_ceil. destruct (Z.leb_spec 0 (ceil_fee gas (DAmount p))) as [Hc|Hc].
  - rewrite NewCoin_ok by done. destruct IH as [q ->]; [|by eexists]. intros Hps. apply Hgas. by constructor.
  - destruct (NewCoin_panics (DDenom p) (ceil_fee gas (DAmount p))) as [q ->]; [by right|by eexists].
Qed.

Lemma fees_of_denoms gas ps : denoms (fees_of gas ps) = map DDenom ps.
Proof. unfold denoms, fees_of. by rewrite map_map. Qed.

Lemma fees_of_sorted gas ps : valid_prices ps -> StronglySorted coin_lt (fees_of gas ps).
Proof.
  intros [Hs _]. induction Hs as [|p ps Hs IH Hp]; cbn; constructor; [done|].
  apply Forall_map. eapply Forall_impl; [exact Hp|]. done.
Qed.

Lemma fees_of_nonneg gas ps : payable gas ps -> Forall (fun c => 0 <= Amount c) (fees_of gas ps).
Proof. intros Hf. by apply Forall_map. Qed.

Lemma amount_of_nonneg' c d : Forall (fun x => 0 <= Amount x) c -> 0 <= amount_of c d.
Proof. induction 1; cbn; [lia|]. case_decide; lia. Qed.

Lemma find_linear_spec l d : NoDup (denoms l) ->
  (exists c, c ∈ l /\ Denom c = d /\ find_linear l d = (true, c) /\ amount_of l d = Amount c) \/
  (find_linear l d = (false, mkCoin "" 0) /\ amount_of l d = 0).
Proof.
  intros Hnd. unfold find_linear. destruct (List.find _ l) as [c|] eqn:E.
  - apply find_some in E as [Hin Hd]. apply bool_decide_eq_true in Hd as <-.
    apply list_elem_of_In in Hin. left. exists c. by rewrite amount_of_in.
  - right. split; [done|]. apply amount_of_not_in. intros Hin.
    apply list_elem_of_fmap in Hin as (c & -> & Hc). apply list_elem_of_In in Hc.
    apply (find_none _ _ E) in Hc. by rewrite bool_decide_true in Hc.
Qed.

(** The combined requirement, written without sorting and searching. *)
Definition combined (g l : list Coin) : list Coin :=
  map (fun c => mkCoin (Denom c) (Z.max (Amount c) (amount_of l (Denom c)))) g.

Lemma combined_sorted g l : StronglySorted coin_lt g -> StronglySorted coin_lt (combined g l).
Proof.
  induction 1 as [|c g Hs IH Hc]; cbn; constructor; [done|].
  apply Forall_map. eapply Forall_impl; [exact Hc|]. done.
Qed.

Lemma CombinedFeeRequirement_eq g l :
  StronglySorted coin_lt g -> StronglySorted coin_lt l -> Forall (fun c => 0 <= Amount c) g ->
  CombinedFeeRequirement g l = combined g l.
Proof.
  intros Hg Hl Hpos. unfold CombinedFeeRequirement.
  destruct (length l =? 0)%nat eqn:El.
  { apply Nat.eqb_eq, length_zero_iff_nil in El as ->. unfold combined. cbn.
    rewrite <- (map_id g) at 1. apply map_ext_Forall. eapply Forall_impl; [exact Hpos|].
    intros [d z] ?. cbn in *. f_equal. lia. }
  destruct (length g =? 0)%nat eqn:Eg.
  { by apply Nat.eqb_eq, length_zero_iff_nil in Eg as ->. }
  assert (map (fun fee => let '(ok, c) := Find l (Denom fee) in
    if ok && (Amount fee <? Amount c) then c else fee) g = combined g l) as ->.
  2:{ apply coins_sort_id, combined_sorted, Hg. }
  apply map_ext_Forall. eapply Forall_impl; [exact Hpos|]. intros [d z] Hz. cbn in Hz.
  unfold Find. rewrite Find_fuel_linear by (done || lia). cbn.
  destruct (find_linear_spec l d (coin_lt_sorted_nodup _ Hl)) as
    [([d' z'] & _ & <- & -> & E)|[-> E]]; cbn in *; rewrite E.
  - destruct (Z.ltb_spec z z'); f_equal; lia.
  - f_equal. lia.
Qed.

Lemma combined_elem g l c : NoDup (denoms g) ->
  c ∈ combined g l <->
  Denom c ∈ denoms g /\ Amount c = Z.max (amount_of g (Denom c)) (amount_of l (Denom c)).
Proof.
  intros Hnd. unfold combined. rewrite list_elem_of_fmap. split.
  - intros (x & -> & Hx). cbn. rewrite (amount_of_in g x) by done. split; [|done].
    apply list_elem_of_fmap. eauto.
  - destruct c as [d z]. cbn. intros [Hd ->]. apply list_elem_of_fmap in Hd as (x & -> & Hx).
    exists x. by rewrite (amount_of_in g x).
Qed.

Lemma elem_of_denoms c d : d ∈ denoms c <-> exists x, x ∈ c /\ Denom x = d.
Proof. unfold denoms. rewrite list_elem_of_fmap. naive_solver. Qed.

Lemma elem_of_Lfilter {A} (f : A -> bool) l x : x ∈ List.filter f l <-> x ∈ l /\ f x = true.
Proof. by rewrite !list_elem_of_In, filter_In. Qed.

Lemma length_eqb_0 {A} (l : list A) : (length l =? 0)%nat = bool_decide (l = []).
Proof. by destruct l. Qed.

Lemma elem_of_denoms_sort d c : d ∈ denoms (coins_sort c) <-> d ∈ denoms c.
Proof. rewrite !elem_of_denoms. by setoid_rewrite coins_sort_perm. Qed.

Lemma coins_sort_nil c : coins_sort c = [] <-> c = [].
Proof.
  split.
  - intros E. apply Permutation_nil. rewrite <- E. by rewrite coins_sort_perm.
  - intros ->. apply Permutation_nil. by rewrite coins_sort_perm.
Qed.

(** The state in which the decorator runs: validated parameters and local
    prices, and a fee without zero or repeated coins. *)
Record setup_ok (mfd : FeeDecorator) (ctx : Context) (tx : FeeTx) : Prop := {
  so_tx : is_fee_tx tx = true;
  so_mode : IsCheckTx ctx = true;
  so_params : Params_Validate (GetParams (gf_store ctx)) = Ok tt;
  so_bond : MinimumGasPrices (GetParams (gf_store ctx)) = [] ->
    exists d, BondDenom mfd = Ok d /\ d <> ""%string /\ ValidateDenom d = true;
  so_local : valid_prices (MinGasPrices ctx);
  so_fee_nodup : NoDup (denoms (GetFee tx));
  so_fee_pos : Forall (fun c => 0 < Amount c) (GetFee tx);
  so_gas : 0 <= GetGas tx < 2 ^ 64
}.

(** The required fees can be computed: the gas limit is an [int64], or what it wraps
    to costs nothing. *)
Definition computable (mfd : FeeDecorator) (ctx : Context) (tx : FeeTx) : Prop :=
  payable (i64 (GetGas tx)) (prices_in_force mfd ctx) /\
  (GetGas tx < 2 ^ 63 \/ Forall (fun p => DAmount p = 0) (MinGasPrices ctx)).

Lemma Params_Validate_valid p : Params_Validate p = Ok tt <-> valid_prices (MinimumGasPrices p).
Proof.
  unfold Params_Validate, DecCoins_Validate. rewrite length_eqb_0. case_bool_decide as E.
  - rewrite E. split; [|done]. intros _. split; constructor.
  - rewrite Validate_loop_iff; [naive_solver|]. intros d Hd. set_solver.
Qed.

Lemma prices_in_force_valid mfd ctx tx :
  setup_ok mfd ctx tx -> valid_prices (prices_in_force mfd ctx) /\ prices_in_force mfd ctx <> [].
Proof.
  intros [_ _ Hp Hb _ _ _ _]. apply Params_Validate_valid in Hp. unfold prices_in_force.
  destruct (MinimumGasPrices _) as [|p ps]; [|done].
  destruct (Hb eq_refl) as (d & -> & _ & Hv). split; [|done].
  split; repeat constructor; cbn; [done|lia].
Qed.

Lemma GetGlobalFee_unfold mfd ctx tx : setup_ok mfd ctx tx ->
  GetGlobalFee mfd ctx tx = (fees ← required_fees (prices_in_force mfd ctx) (LegacyNewDec (i64 (GetGas tx))); Ok (coins_sort fees)).
Proof.
  intros [_ _ _ Hb _ _ _ _]. unfold GetGlobalFee. rewrite length_eqb_0.
  assert ((if bool_decide (MinimumGasPrices (GetParams (gf_store ctx)) = [])
    then DefaultZeroGlobalFee mfd else Ok (MinimumGasPrices (GetParams (gf_store ctx))))
    = Ok (prices_in_force mfd ctx)) as ->; [|done].
  unfold prices_in_force. destruct (MinimumGasPrices _) as [|p ps]; [|done]. cbn.
  destruct (Hb eq_refl) as (d & Hd & Hne & Hvd). unfold DefaultZeroGlobalFee. rewrite Hd.
  rewrite bool_decide_false by done. cbn. by rewrite NewDecCoin_ok.
Qed.

Lemma GetGlobalFee_ok mfd ctx tx : setup_ok mfd ctx tx -> computable mfd ctx tx ->
  GetGlobalFee mfd ctx tx = Ok (fees_of (i64 (GetGas tx)) (prices_in_force mfd ctx)).
Proof.
  intros Hok [Hpay _]. rewrite (GetGlobalFee_unfold _ _ _ Hok). destruct (prices_in_force_valid _ _ _ Hok) as [Hv _].
  rewrite required_fees_ok by done. cbn. by rewrite coins_sort_id by (by apply fees_of_sorted).
Qed.

(** The local fees, empty when all local prices are zero. *)
Lemma GetMinGasPrice_ok mfd ctx tx : setup_ok mfd ctx tx -> computable mfd ctx tx ->
  exists l, GetMinGasPrice ctx (GetGas tx) = Ok l /\ StronglySorted coin_lt l /\
    forall d, amount_of l d = amount_of (fees_of (i64 (GetGas tx)) (MinGasPrices ctx)) d.
Proof.
  intros [_ _ _ _ Hl _ _ Hg] [_ Hc]. unfold GetMinGasPrice.
  destruct (forallb _ _) eqn:E.
  - exists []. split; [done|]. split; [constructor|]. intros d. cbn.
    rewrite forallb_forall in E. clear Hl Hc. unfold fees_of.
    induction (MinGasPrices ctx) as [|p ps IH]; cbn; [done|].
    rewrite <- IH by (intros; apply E; by right).
    assert (DAmount p = 0) as -> by (apply Z.eqb_eq, E; by left). by case_decide.
  - destruct Hc as [Hc|Hz].
    2:{ rewrite (proj2 (forallb_forall _ _)) in E; [done|]. intros p Hin%list_elem_of_In. apply Z.eqb_eq.
        by apply (proj1 (Forall_forall _ _) Hz). }
    rewrite i64_small by lia. assert ((GetGas tx <? 2 ^ 63) = true) as -> by lia. cbn.
    rewrite required_fees_ok by (done || apply payable_pos; done || lia). cbn.
    rewrite coins_sort_id by (by apply fees_of_sorted). eexists. split; [done|].
    split; [by apply fees_of_sorted|done].
Qed.

(** Otherwise there is a panic. *)
Lemma fees_panic {R} mfd ctx tx (next : Context -> FeeTx -> bool -> res R) : setup_ok mfd ctx tx -> ~ computable mfd ctx tx ->
  exists p, AnteHandle mfd ctx tx false next = Panic p.
Proof.
  intros Hok Hn. destruct (prices_in_force_valid _ _ _ Hok) as [Hv _].
  unfold AnteHandle. rewrite (so_tx _ _ _ Hok), (so_mode _ _ _ Hok). cbn -[GetGlobalFee GetMinGasPrice].
  rewrite (GetGlobalFee_unfold _ _ _ Hok).
  destruct (decide (payable (i64 (GetGas tx)) (prices_in_force mfd ctx))) as [Hp|Hp].
  - rewrite required_fees_ok by done. cbn -[GetMinGasPrice]. unfold GetMinGasPrice. destruct (forallb _ _) eqn:E.
    + exfalso. apply Hn. split; [done|]. right. apply Forall_forall. intros p Hin.
      apply Z.eqb_eq. rewrite forallb_forall in E. by apply E, list_elem_of_In.
    + destruct (Z.ltb_spec (GetGas tx) (2 ^ 63)); [exfalso; apply Hn; by split; [|left]|]. by eexists.
  - destruct (required_fees_panic _ _ Hv Hp) as [q ->]. by eexists.
Qed.

(** With the fee set sorted and split, the three checks of the decorator read
    as conditions on the required fee per denomination. *)
Section Split.
Variables (C F : list Coin) (zs : gset string) (req : string -> Z).
Hypothesis (HC : StronglySorted coin_lt C).
Hypothesis (HCreq : forall c, c ∈ C -> Amount c = req (Denom c)).
Hypothesis (HCpos : Forall (fun c => 0 <= Amount c) C).
Hypothesis (HF : coins_ok F).
Hypothesis (Hzs : forall d, d ∈ zs <-> d ∈ denoms C /\ req d = 0).

Let nz := List.filter (fun gf => negb (Amount gf =? 0)) C.
Let Fnz := List.filter (fun fc => negb (bool_decide (Denom fc ∈ zs))) F.
Let Fz := List.filter (fun fc => bool_decide (Denom fc ∈ zs)) F.

Lemma split_elem_nz d : d ∈ denoms nz <-> d ∈ denoms C /\ req d <> 0.
Proof.
  unfold nz. rewrite !elem_of_denoms. setoid_rewrite elem_of_Lfilter.
  setoid_rewrite negb_true_iff. setoid_rewrite Z.eqb_neq.
  split.
  - intros (c & [Hc Ha] & <-). rewrite <- HCreq by done. naive_solver.
  - intros ((c & Hc & <-) & Hne). exists c. by rewrite (HCreq c).
Qed.

Lemma split_nz_ok : coins_ok nz.
Proof.
  split; [by apply StronglySorted_filter|].
  rewrite Forall_forall in HCpos |- *. intros c Hc. apply elem_of_Lfilter in Hc as [Hc Hz].
  apply negb_true_iff, Z.eqb_neq in Hz. apply HCpos in Hc. lia.
Qed.

Lemma split_Fnz_ok : coins_ok Fnz.
Proof.
  destruct HF as [Hs Hp]. split; [by apply StronglySorted_filter|].
  rewrite Forall_forall in Hp |- *. intros c Hc. apply elem_of_Lfilter in Hc as [Hc _]. auto.
Qed.

Lemma split_subset :
  denoms_subset_of Fnz nz = true <-> (forall d, d ∈ denoms F -> d ∈ denoms C).
Proof.
  rewrite denoms_subset_of_spec. split.
  - intros Hsub d Hd. destruct (decide (d ∈ zs)) as [Hz|Hz]; [by apply Hzs in Hz as [? _]|].
    enough (d ∈ denoms nz) as Hn by (by apply split_elem_nz in Hn as [? _]). apply Hsub.
    apply elem_of_denoms in Hd as (c & Hc & <-). apply elem_of_denoms. exists c.
    split; [|done]. apply elem_of_Lfilter. by rewrite bool_decide_false.
  - intros Hsub d Hd. apply elem_of_denoms in Hd as (c & Hc & <-).
    apply elem_of_Lfilter in Hc as [Hc Hz]. apply negb_true_iff, bool_decide_eq_false in Hz.
    assert (Denom c ∈ denoms C) by (apply Hsub, elem_of_denoms; eauto).
    apply split_elem_nz. split; [done|]. intros E. by apply Hz, Hzs.
Qed.

Lemma split_pays :
  (forall d, d ∈ denoms F -> d ∈ denoms C) ->
  (Fz <> [] \/ is_any_gte Fnz nz = true) <->
  exists d, d ∈ denoms F /\ req d <= amount_of F d.
Proof.
  intros Hsub. rewrite is_any_gte_spec by (apply split_nz_ok || apply split_Fnz_ok).
  assert (forall c, c ∈ F -> amount_of F (Denom c) = Amount c) as Hamt.
  { intros c Hc. apply amount_of_in; [|done]. apply coin_lt_sorted_nodup, HF. }
  split.
  - intros [Hz|(x & y & Hx & Hy & E & Hle)].
    + destruct Fz as [|c Fz'] eqn:EF; [done|].
      assert (c ∈ Fz) as Hc by (rewrite EF; constructor).
      apply elem_of_Lfilter in Hc as [Hc Hz']. apply bool_decide_eq_true, Hzs in Hz' as [_ Hr].
      exists (Denom c). split; [apply elem_of_denoms; eauto|]. rewrite Hr.
      apply amount_of_nonneg, HF.
    + apply elem_of_Lfilter in Hx as [Hx _]. apply elem_of_Lfilter in Hy as [Hy _].
      exists (Denom x). split; [apply elem_of_denoms; eauto|]. rewrite Hamt by done.
      rewrite E, <- HCreq by done. done.
  - intros (d & Hd & Hle). apply elem_of_denoms in Hd as (c & Hc & <-).
    rewrite Hamt in Hle by done. destruct (decide (Denom c ∈ zs)) as [Hz|Hz].
    + left. intros E. apply (not_elem_of_nil c). rewrite <- E. apply elem_of_Lfilter.
      by rewrite bool_decide_true.
    + right. assert (Denom c ∈ denoms nz) as Hn.
      { apply split_elem_nz. assert (Denom c ∈ denoms C) by (apply Hsub, elem_of_denoms; eauto).
        split; [done|]. intros Hr. by apply Hz, Hzs. }
      apply elem_of_denoms in Hn as (y & Hy & Ey). exists c, y. repeat split; [|done|done|].
      * apply elem_of_Lfilter. by rewrite bool_decide_false.
      * apply elem_of_Lfilter in Hy as [Hy _]. rewrite (HCreq y Hy), Ey. done.
Qed.

End Split.

Lemma combined_facts mfd ctx tx l : setup_ok mfd ctx tx -> computable mfd ctx tx -> StronglySorted coin_lt l ->
  let gas := i64 (GetGas tx) in
  (forall d, amount_of l d = amount_of (fees_of gas (MinGasPrices ctx)) d) ->
  let gps := prices_in_force mfd ctx in
  let C := combined (fees_of gas gps) l in
  let req := required gps (MinGasPrices ctx) gas in
  StronglySorted coin_lt C /\ denoms C = map DDenom gps /\
  (forall c, c ∈ C -> Amount c = req (Denom c)) /\ Forall (fun c => 0 <= Amount c) C.
Proof.
  intros Hok Hc Hl gas Hamt gps C req. destruct (prices_in_force_valid _ _ _ Hok) as [Hv _].
  assert (StronglySorted coin_lt (fees_of gas gps)) as Hs by (by apply fees_of_sorted).
  assert (forall c, c ∈ C -> Amount c = req (Denom c)) as Hreq.
  { intros c Hin. apply combined_elem in Hin as [_ ->]; [|by apply coin_lt_sorted_nodup].
    unfold req, required. by rewrite Hamt. }
  repeat split; [by apply combined_sorted| |done|].
  - unfold C, combined, denoms. rewrite map_map. cbn. apply fees_of_denoms.
  - apply Forall_forall. intros c Hin. rewrite Hreq by done. unfold req, required.
    apply Z.max_le_iff. left. apply amount_of_nonneg', fees_of_nonneg, Hc.
Qed.

Lemma zero_denoms_spec C req d :
  (forall c, c ∈ C -> Amount c = req (Denom c)) ->
  d ∈ (list_to_set (map Denom (List.filter (fun gf => Amount gf =? 0) C)) : gset string) <->
  d ∈ denoms C /\ req d = 0.
Proof.
  intros Hreq. rewrite elem_of_list_to_set, list_elem_of_fmap, elem_of_denoms.
  setoid_rewrite elem_of_Lfilter. setoid_rewrite Z.eqb_eq. split.
  - intros (c & -> & Hc & Hz). rewrite <- Hreq by done. eauto.
  - intros ((c & Hc & <-) & Hz). exists c. by rewrite Hreq.
Qed.

(** What remains of the decorator after the required fees are computed. *)
Lemma AnteHandle_unfold {R} mfd ctx tx l (next : Context -> FeeTx -> bool -> res R) :
  setup_ok mfd ctx tx -> computable mfd ctx tx -> GetMinGasPrice ctx (GetGas tx) = Ok l -> StronglySorted coin_lt l ->
  let G := fees_of (i64 (GetGas tx)) (prices_in_force mfd ctx) in
  let zs : gset string :=
    list_to_set (map Denom (List.filter (fun gf => Amount gf =? 0) (combined G l))) in
  let F := coins_sort (GetFee tx) in
  let nz := List.filter (fun gf => negb (Amount gf =? 0)) (combined G l) in
  let Fnz := List.filter (fun fc => negb (bool_decide (Denom fc ∈ zs))) F in
  let Fz := List.filter (fun fc => bool_decide (Denom fc ∈ zs)) F in
  AnteHandle mfd ctx tx false next =
    if denoms_subset_of Fnz nz then
      if bypasses mfd tx || negb (bool_decide (Fz = [])) ||
         (bool_decide (F = []) && negb (bool_decide (zs = ∅))) || is_any_gte Fnz nz
      then next ctx tx false else Err "ErrInsufficientFee"
    else Err "ErrInsufficientFee".
Proof.
  intros Hok Hc Hloc Hl G zs F nz Fnz Fz. unfold AnteHandle.
  destruct (prices_in_force_valid _ _ _ Hok) as [Hv Hne].
  rewrite (so_tx _ _ _ Hok), (so_mode _ _ _ Hok). cbn -[GetGlobalFee GetMinGasPrice].
  rewrite (GetGlobalFee_ok _ _ _ Hok Hc), Hloc. cbn.
  rewrite CombinedFeeRequirement_eq; [|by apply fees_of_sorted|done|apply fees_of_nonneg, Hc].
  assert (StronglySorted coin_lt (combined G l)) as HC by (by apply combined_sorted, fees_of_sorted).
  assert (StronglySorted coin_lt F) as HFs by (apply coins_sort_sorted, Hok).
  fold G. rewrite (length_eqb_0 (combined G l)), (bool_decide_false (combined G l = [])).
  2:{ intros E%(f_equal length). unfold combined, G, fees_of in E. rewrite !length_map in E.
      by apply Hne, length_zero_iff_nil. }
  cbn. fold F. rewrite !(coins_sort_id (List.filter _ _)) by (by apply StronglySorted_filter).
  fold nz zs Fnz Fz.
  destruct (denoms_subset_of Fnz nz); cbn; [|done].
  change (ContainsOnlyBypassMinFeeMsgs mfd (msg_urls tx) && _) with (bypasses mfd tx).
  rewrite (length_eqb_0 F), (length_eqb_0 Fz). destruct (bypasses mfd tx); cbn; [done|].
  destruct (bool_decide (Fz = [])); cbn; [|done].
  destruct (_ && _); cbn; [done|]. by destruct (is_any_gte Fnz nz).
Qed.

Lemma fee_set_ok mfd ctx tx : setup_ok mfd ctx tx -> coins_ok (coins_sort (GetFee tx)).
Proof.
  intros Hok. split; [apply coins_sort_sorted, Hok|]. rewrite coins_sort_perm. apply Hok.
Qed.

(** The decision on the gas limit as an [int64]. *)
Lemma decorator_decides {R} mfd ctx tx (next : Context -> FeeTx -> bool -> res R) :
  setup_ok mfd ctx tx -> computable mfd ctx tx ->
  let gps := prices_in_force mfd ctx in
  let gas := i64 (GetGas tx) in
  (fee_accepted mfd gps (MinGasPrices ctx) gas tx -> AnteHandle mfd ctx tx false next = next ctx tx false) /\
  (~ fee_accepted mfd gps (MinGasPrices ctx) gas tx -> AnteHandle mfd ctx tx false next = Err "ErrInsufficientFee").
Proof.
  intros Hok Hcm gps gas. destruct (GetMinGasPrice_ok _ _ _ Hok Hcm) as (l & Hloc & Hl & Hamt).
  rewrite (AnteHandle_unfold _ _ _ l _ Hok Hcm Hloc Hl). cbn zeta.
  destruct (combined_facts _ _ _ l Hok Hcm Hl Hamt) as (HC & HCd & HCreq & HCpos). fold gps gas in HC, HCd, HCreq, HCpos |- *.
  set (C := combined _ l) in *. set (zs := list_to_set _ : gset string).
  pose proof (fun d => zero_denoms_spec C _ d HCreq) as Hzs. fold zs in Hzs.
  pose proof (fee_set_ok _ _ _ Hok) as HF.
  pose proof (split_subset C (coins_sort (GetFee tx)) zs _ HCreq Hzs) as Hsub.
  pose proof (split_pays C (coins_sort (GetFee tx)) zs _ HC HCreq HCpos HF Hzs) as Hpay.
  clearbody zs.
  set (Fnz := List.filter (fun fc => negb _) (coins_sort _)) in *.
  set (nz := List.filter _ C) in *. set (Fz := List.filter (fun fc => bool_decide _) (coins_sort _)) in *.
  assert (pays_in_accepted_denoms gps (GetFee tx) <->
    forall d, d ∈ denoms (coins_sort (GetFee tx)) -> d ∈ denoms C) as Hacc.
  { rewrite HCd. unfold pays_in_accepted_denoms. by setoid_rewrite elem_of_denoms_sort. }
  unfold fee_accepted. rewrite Hacc, <- Hsub. clear Hacc.
  destruct (denoms_subset_of Fnz nz); [|naive_solver].
  specialize (Hpay (proj1 Hsub eq_refl)). setoid_rewrite elem_of_denoms_sort in Hpay.
  assert (forall d, amount_of (coins_sort (GetFee tx)) d = amount_of (GetFee tx) d) as Hsame
    by (intros; by rewrite coins_sort_perm).
  setoid_rewrite Hsame in Hpay. rewrite <- Hpay.
  assert ((GetFee tx = [] /\ exists d, d ∈ map DDenom gps /\
      required gps (MinGasPrices ctx) gas d = 0) <->
    bool_decide (coins_sort (GetFee tx) = []) && negb (bool_decide (zs = ∅)) = true) as Hfree.
  { rewrite <- HCd, andb_true_iff, negb_true_iff, bool_decide_eq_true, bool_decide_eq_false.
    setoid_rewrite <- Hzs. rewrite coins_sort_nil. apply and_iff_compat_l. split.
    - intros [d Hd] E. set_solver.
    - apply set_choose_L. }
  rewrite Hfree. clear - R.
  assert (Fz <> [] <-> negb (bool_decide (Fz = [])) = true) as ->
    by (by rewrite negb_true_iff, bool_decide_eq_false).
  split; intros Hdec; destruct (_ || _) eqn:E; try done; exfalso.
  - rewrite !orb_false_iff in E. destruct E as [[[E1 E2] E3] E4].
    rewrite E1, E2, E3, E4 in Hdec. naive_solver.
  - apply Hdec. rewrite !orb_true_iff in E. tauto.
Qed.

(** A negative gas limit that costs nothing costs nothing in any denomination. *)
Lemma free_required gps lps gas d : valid_prices gps -> gas < 0 -> payable gas gps -> Forall (fun p => DAmount p = 0) lps ->
  required gps lps gas d = 0.
Proof.
  intros Hv Hg Hp Hz. assert (Hzero : forall ps, Forall (fun p => ceil_fee gas (DAmount p) = 0) ps -> amount_of (fees_of gas ps) d = 0).
  { intros ps. induction 1 as [|p ps E _ IH]; cbn; [done|]. unfold fees_of in IH. rewrite IH, E. by case_decide. }
  unfold required. rewrite !Hzero; [done| |].
  - eapply Forall_impl; [exact Hz|]. cbn. by intros p ->.
  - destruct Hv as [_ Hv]. apply Forall_forall. intros p Hin. pose proof (proj1 (Forall_forall _ _) Hp p Hin) as Hc.
    destruct (proj1 (Forall_forall _ _) Hv p Hin) as [_ Hpos]. cbn in Hc. unfold ceil_fee in *.
    assert (0 <= - (DAmount p * gas) / dec_one) by (apply Z.div_pos; [nia|done]). lia.
Qed.

(** C10: in CheckTx mode, with validated parameters and prices and a set of fee
    coins, the fee decorator decides as follows.  For a gas limit below 2^63 it hands
    the transaction to the next decorator exactly when the fee is paid in
    denominations that have a global price and either the messages may bypass the
    minimum fee, or the fee is empty and some denomination is free, or in at least
    one denomination the fee reaches the larger of the global and the node's own
    price times the gas limit, rounded up; otherwise it returns the
    insufficient-fee error.  A gas limit of 2^63 or more wraps to a negative number:
    if the prices are so low that nothing is left of the fee when it is rounded up,
    every fee in denominations that have a global price is accepted, none included;
    otherwise there is a panic. *)
Theorem fee_decorator_refines_spec {R} mfd ctx tx (next : Context -> FeeTx -> bool -> res R) :
  setup_ok mfd ctx tx ->
  let gps := prices_in_force mfd ctx in
  (GetGas tx < 2 ^ 63 ->
    (fee_accepted mfd gps (MinGasPrices ctx) (GetGas tx) tx -> AnteHandle mfd ctx tx false next = next ctx tx false) /\
    (~ fee_accepted mfd gps (MinGasPrices ctx) (GetGas tx) tx -> AnteHandle mfd ctx tx false next = Err "ErrInsufficientFee")) /\
  (2 ^ 63 <= GetGas tx ->
    (wraps_to_free gps (MinGasPrices ctx) (GetGas tx) ->
      (pays_in_accepted_denoms gps (GetFee tx) -> AnteHandle mfd ctx tx false next = next ctx tx false) /\
      (~ pays_in_accepted_denoms gps (GetFee tx) -> AnteHandle mfd ctx tx false next = Err "ErrInsufficientFee")) /\
    (~ wraps_to_free gps (MinGasPrices ctx) (GetGas tx) -> exists p, AnteHandle mfd ctx tx false next = Panic p)).
Proof.
  intros Hok gps. destruct (prices_in_force_valid _ _ _ Hok) as [Hv Hne]. pose proof (so_gas _ _ _ Hok) as Hg. split.
  - intros Hlt. rewrite <- (i64_small (GetGas tx)) by lia. apply decorator_decides; [done|]. split; [|by left].
    rewrite i64_small by lia. apply payable_pos; [done|lia].
  - intros Hge. assert (i64 (GetGas tx) = GetGas tx - 2 ^ 64) as Hi by (apply i64_wrapped; lia).
    assert (wraps_to_free gps (MinGasPrices ctx) (GetGas tx) <-> computable mfd ctx tx) as Hw.
    { unfold wraps_to_free, computable. fold gps. rewrite Hi, (payable_neg (GetGas tx - 2 ^ 64) gps Hv) by lia.
      replace (- (GetGas tx - 2 ^ 64)) with (2 ^ 64 - GetGas tx) by lia. split; [tauto|]. intros [? [?|?]]; [lia|tauto]. }
    rewrite Hw. split; [|by apply fees_panic]. intros Hc. pose proof (decorator_decides mfd ctx tx next Hok Hc) as [Hyes Hno].
    assert (forall d, required gps (MinGasPrices ctx) (i64 (GetGas tx)) d = 0) as Hz.
    { intros d. destruct Hc as [Hp [?|Hl]]; [lia|]. apply free_required; [done|lia|done|done]. }
    split; [|by intros Hd; apply Hno; intros [? _]]. intros Hd. apply Hyes. split; [done|]. right.
    destruct (GetFee tx) as [|c l] eqn:Ef; [left|right].
    + split; [done|]. destruct (prices_in_force mfd ctx) as [|p ps] eqn:Eg; [done|]. exists (DDenom p). split; [by left|apply Hz].
    + exists (Denom c). split; [by left|]. etransitivity; [apply Z.eq_le_incl, Hz|]. apply amount_of_nonneg'. rewrite <- Ef. eapply Forall_impl; [apply Hok|]. cbn. lia.
Qed.

(** UpdateParams writes the new parameters exactly when the sender is the
    module authority and the minimum gas prices are valid, not negative and
    strictly increasing in denomination; otherwise it returns an error and
    leaves the store as it was. *)
Theorem update_params_spec authority req p st :
  let '(r, st') := UpdateParams authority req p st in
  (r = Ok tt <-> authority = req /\ valid_prices (MinimumGasPrices p)) /\
  (r = Ok tt -> GetParams st' = p) /\ (r <> Ok tt -> st' = st).
Proof.
  pose proof (Params_Validate_valid p) as Hv. unfold UpdateParams, SetParams. cbn -[Params_Validate].
  case_bool_decide as E; cbn -[Params_Validate]; [|naive_solver].
  unfold lift. destruct (Params_Validate p) as [[]|?|?]; cbn; naive_solver.
Qed.

(** The binary search [Find] returns on every sorted list of coins what a
    linear search for the denomination returns; in particular its recursion
    ends. *)
Theorem Find_equiv_linear coins d :
  StronglySorted coin_lt coins -> Find coins d = find_linear coins d.
Proof. intros Hs. apply Find_fuel_linear; [lia|done]. Qed.

(** The conversion of the gas limit to [int64] wraps: for the gas limit
    2^64 - 1 and prices below one coin per unit of gas, every required global
    fee is zero. *)
Theorem global_fee_wraps_to_zero mfd ctx tx :
  valid_prices (prices_in_force mfd ctx) ->
  MinimumGasPrices (GetParams (gf_store ctx)) = prices_in_force mfd ctx ->
  prices_in_force mfd ctx <> [] ->
  Forall (fun p => DAmount p < dec_one) (prices_in_force mfd ctx) ->
  GetGas tx = u64_max ->
  GetGlobalFee mfd ctx tx = Ok (map (fun p => mkCoin (DDenom p) 0) (prices_in_force mfd ctx)).
Proof.
  intros Hv Hp Hne Hlt Hg. unfold GetGlobalFee. rewrite Hp, length_eqb_0, Hg.
  rewrite bool_decide_false by done. cbn -[i64].
  change (i64 u64_max) with (-1). unfold required_fees.
  rewrite (mapM_res_Ok _ (fun p => mkCoin (DDenom p) 0)).
  - cbn. rewrite coins_sort_id; [done|]. destruct Hv as [Hs _]. clear - Hs.
    induction Hs as [|p ps Hs IH Hp]; cbn; constructor; [done|].
    apply Forall_map. eapply Forall_impl; [exact Hp|]. done.
  - destruct Hv as [_ Hf]. rewrite Forall_forall in Hf, Hlt |- *. intros p Hin.
    destruct (Hf p Hin) as [Hd Hpos]. specialize (Hlt p Hin). unfold LegacyNewDec.
    rewrite dec_mul_spec, Z.mul_assoc, round_half_even_exact by done.
    rewrite dec_ceil_spec, dec_round_int_spec, round_half_even_exact by done.
    rewrite (Z.div_small (- (DAmount p * -1))) by lia. by apply NewCoin_ok.
Qed.

End Proofs.

(** ** Witnesses *)

Section Witnesses.
Import Ref RefLaws.

Let mfd := mkFeeDecorator ["/ibc.MsgUpdateClient"%string] (Ok "uterp"%string) 1000000.
Let price := mkDecCoin "uterp" (75 * 10 ^ 15).
Let ctx := mkContext true [mkDecCoin "uterp" (10 ^ 17)] (Some (mkParams [price])).
Let tx (fee : list Coin) (gas : Z) := mkFeeTx true fee gas ["/bank.MsgSend"%string].

Lemma witness_prices_valid z : 0 <= z -> valid_prices [mkDecCoin "uterp" z].
Proof. intros. split; repeat constructor; done. Qed.

Lemma witness_setup fee l gas : Forall (fun c => 0 < Amount c) fee -> NoDup (denoms fee) -> valid_prices l -> 0 <= gas < 2 ^ 64 ->
  setup_ok mfd (mkContext true l (gf_store ctx)) (tx fee gas).
Proof. intros Hfee Hnd Hl Hgas. split; try done. Qed.

Lemma fee_decorator_refines_spec_witness :
  AnteHandle mfd ctx (tx [mkCoin "uterp" 10001] 100001) false (fun _ _ _ => Ok tt) = Ok tt /\
  AnteHandle mfd ctx (tx [mkCoin "uterp" 10000] 100001) false (fun _ _ _ => Ok tt)
    = Err "ErrInsufficientFee" /\
  AnteHandle mfd (mkContext true [] (gf_store ctx)) (tx [] u64_max) false (fun _ _ _ => Ok tt) = Ok tt.
Proof.
  assert (forall z, 0 < z -> setup_ok mfd ctx (tx [mkCoin "uterp" z] 100001)) as Hok1.
  { intros z Hz. apply (witness_setup _ [mkDecCoin "uterp" (10 ^ 17)]);
      [by repeat constructor|repeat constructor; apply not_elem_of_nil|by apply witness_prices_valid|done]. }
  split_and!.
  - destruct (fee_decorator_refines_spec mfd ctx _ (fun _ _ _ => Ok tt) (Hok1 10001 ltac:(done))) as [Hlow _]. apply Hlow; [done|].
    split; [by intros d Hd|]. right. right. exists "uterp"%string.
    split; [by left|]. vm_compute. discriminate.
  - destruct (fee_decorator_refines_spec mfd ctx _ (fun _ _ _ => Ok tt) (Hok1 10000 ltac:(done))) as [Hlow _]. apply Hlow; [done|].
    intros [_ [E|[[E _]|(d & Hd & E)]]]; [discriminate E|discriminate E|].
    apply list_elem_of_singleton in Hd as ->. vm_compute in E. apply E. reflexivity.
  - destruct (fee_decorator_refines_spec mfd (mkContext true [] (gf_store ctx)) (tx [] u64_max) (fun _ _ _ => Ok tt)) as [_ Hhigh].
    { apply (witness_setup [] []); [constructor|constructor|split; constructor|done]. }
    destruct (Hhigh ltac:(vm_compute; discriminate)) as [Hfree _].
    destruct Hfree as [Hpay _]; [split; [constructor|apply Forall_singleton; vm_compute; reflexivity]|].
    apply Hpay. intros d Hd. destruct (not_elem_of_nil d Hd).
Defined.

Lemma update_params_spec_witness :
  UpdateParams "gov" "gov" (mkParams [price]) None = (Ok tt, Some (mkParams [price])) /\
  (UpdateParams "gov" "eve" (mkParams [price]) None).2 = None.
Proof.
  pose proof (update_params_spec "gov" "gov" (mkParams [price]) None) as H1.
  pose proof (update_params_spec "gov" "eve" (mkParams [price]) None) as H2.
  split; [vm_compute in H1 |- *; reflexivity|]. apply H2. discriminate.
Defined.

Lemma Find_equiv_linear_witness :
  Find [mkCoin "a" 1; mkCoin "b" 2; mkCoin "c" 3] "c" = (true, mkCoin "c" 3).
Proof.
  rewrite (Find_equiv_linear [mkCoin "a" 1; mkCoin "b" 2; mkCoin "c" 3] "c").
  - reflexivity.
  - repeat constructor.
Defined.

Lemma global_fee_wraps_to_zero_witness :
  GetGlobalFee mfd ctx (tx [] u64_max) = Ok [mkCoin "uterp" 0].
Proof.
  apply (global_fee_wraps_to_zero mfd ctx (tx [] u64_max)).
  - apply (witness_prices_valid (75 * 10 ^ 15)). done.
  - reflexivity.
  - discriminate.
  - repeat constructor; done.
  - reflexivity.
Defined.

End Witnesses.
