(* ===== verification/TokenFactory.v ===== *)
(** * x/tokenfactory

    Denominations "factory/creator/subdenom", their administrators, and the
    messages that mint, burn and move them.  The theorems say that only the
    administrator of a denomination acts on it, what every message does to the
    ledger, that creating a denomination never takes one over, and that names
    and genesis states survive a round trip. *)

From Stdlib Require Import ZArith Lia.
From stdpp Require Import base gmap strings list sorting.
From S2P Require Import Prelude Sdk SdkRef Store Bank.

(** ** Data *)

Record DenomAuthorityMetadata := mkAuth { Admin : string }.

(** [DenomCreationFee] is [None] for a nil slice. *)
Record Params := mkParams {
  DenomCreationFee : option (list Coin);
  DenomCreationGasConsume : Z
}.

Record GenesisDenom := mkGenesisDenom { gdenom : string; gauthority : DenomAuthorityMetadata }.
Record GenesisState := mkGenesis { gparams : Params; FactoryDenoms : list GenesisDenom }.

Record Keeper := mkKeeper { enabledCapabilities : list string; authority : string }.

(** The module store (parameters, authority metadata, creator index), with the
    bank and the transaction's gas meter. *)
Record State (B G : Type) := mkState {
  bank : B;
  gas : G;
  params : option Params;
  authorities : gmap string DenomAuthorityMetadata;
  creators : gmap string string
}.
Arguments mkState {B G}.
Arguments bank {B G}.
Arguments gas {B G}.
Arguments params {B G}.
Arguments authorities {B G}.
Arguments creators {B G}.

Inductive Msg :=
| MsgCreateDenom (Sender Subdenom : string)
| MsgMint (Sender : string) (amount : Coin) (MintToAddress : string)
| MsgBurn (Sender : string) (amount : Coin) (BurnFromAddress : string)
| MsgForceTransfer (Sender : string) (amount : Coin) (TransferFrom TransferTo : string)
| MsgChangeAdmin (Sender denom NewAdmin : string)
| MsgSetDenomMetadata (Sender : string) (metadata : Metadata)
| MsgUpdateParams (Authority : string) (p : Params).

Definition ModuleName : string := "tokenfactory".
Definition MaxSubdenomLength : Z := 44.
Definition MaxCreatorLength : Z := 59 + 16.

(** The characters "/" and "|". *)
Definition slash : Ascii.ascii := Ascii.ascii_of_nat 47.
Definition KeySeparator : Ascii.ascii := Ascii.ascii_of_nat 124.

Definition len (s : string) : Z := Z.of_nat (String.length s).

(** ** Store keys *)

Definition GetDenomPrefixStore (denom : string) : string :=
  join_with KeySeparator ["denoms"; denom; ""]%string.

Definition GetCreatorPrefix (creator : string) : string :=
  join_with KeySeparator ["creator"; creator; ""]%string.

Definition GetCreatorsPrefix : string := join_with KeySeparator ["creator"; ""]%string.

Definition authority_key (denom : string) : string :=
  (GetDenomPrefixStore denom ++ "authoritymetadata")%string.

#[global] Arguments authority_key : simpl never.
#[global] Arguments GetCreatorPrefix : simpl never.
#[global] Arguments GetCreatorsPrefix : simpl never.

Definition IsCapabilityEnabled (enabled : list string) (capability : string) : bool :=
  if (length enabled =? 0)%nat then true
  else existsb (fun v => bool_decide (v = capability)) enabled.

(** [NewKeeper] leaves the capabilities and the authority at their zero value. *)
Definition NewKeeper : Keeper := mkKeeper [] "".

Section TokenFactory.
Context {B G : Type} `{BankOps B} `{GasMeterOps G} `{SdkCoins} `{Bech32}.

#[local] Abbreviation St := (State B G).

Definition set_bank (b : B) (s : St) : St :=
  mkState b (gas s) (params s) (authorities s) (creators s).
Definition set_gas (g : G) (s : St) : St :=
  mkState (bank s) g (params s) (authorities s) (creators s).
Definition on_bank {A} (m : M B A) : M St A := zoom bank set_bank m.
Definition on_gas {A} (m : M G A) : M St A := zoom gas set_gas m.

(** ** Denominations *)

Definition GetTokenDenom (creator subdenom : string) : res string :=
  refuse (MaxSubdenomLength <? len subdenom) "ErrSubdenomTooLong";;
  refuse (MaxCreatorLength <? len creator) "ErrCreatorTooLong";;
  refuse (contains_char slash creator) "ErrInvalidCreator";;
  let denom := join_with slash ["factory"; creator; subdenom]%string in
  ensure (ValidateDenom denom) "invalid denom";;
  Ok denom.

Definition DeconstructDenom (denom : string) : res (string * string) :=
  ensure (ValidateDenom denom) "invalid denom";;
  match split_on slash denom with
  | part0 :: creator :: part2 :: parts =>
      ensure (bool_decide (part0 = "factory"%string)) "ErrInvalidDenom";;
      match AccAddressFromBech32 creator with
      | Ok creatorAddr =>
          Ok (AccAddress_String creatorAddr, join_with slash (part2 :: parts))
      | Err _ => Err "ErrInvalidDenom"
      | Panic p => Panic p
      end
  | _ => Err "ErrInvalidDenom"
  end.

(** ** Parameters *)

Definition Params_Validate (p : Params) : res unit :=
  match DenomCreationFee p with
  | None => Ok tt
  | Some fee => match Coins_Validate fee with Ok _ => Ok tt | _ => Err "invalid denom creation fee" end
  end.

(** A nil and an empty fee have the same encoding, which reads back as nil. *)
Definition GetParams (s : St) : Params :=
  match params s with
  | None => mkParams None 0
  | Some p => mkParams (match DenomCreationFee p with Some [] => None | f => f end)
                (DenomCreationGasConsume p)
  end.

Definition SetParams (p : Params) : M St unit :=
  match Params_Validate p with
  | Ok _ => modify (fun s => mkState (bank s) (gas s) (Some p) (authorities s) (creators s))
  | Err e => panic e
  | Panic e => panic e
  end.

(** ** Administrators *)

Definition Auth_Validate (m : DenomAuthorityMetadata) : res unit :=
  if bool_decide (Admin m = ""%string) then Ok tt
  else AccAddressFromBech32 (Admin m) ≫= (fun _ => Ok tt).

(** A denomination without an entry unmarshals to an empty administrator. *)
Definition GetAuthorityMetadata (s : St) (denom : string) : DenomAuthorityMetadata :=
  default (mkAuth "") (authorities s !! authority_key denom).

Definition setAuthorityMetadata (denom : string) (metadata : DenomAuthorityMetadata) : M St unit :=
  lift (Auth_Validate metadata);;
  modify (fun s => mkState (bank s) (gas s) (params s)
    (<[authority_key denom := metadata]> (authorities s)) (creators s)).

Definition setAdmin (denom admin : string) : M St unit :=
  metadata ← gets (fun s => GetAuthorityMetadata s denom);
  setAuthorityMetadata denom (mkAuth admin).

Definition addDenomFromCreator (creator denom : string) : M St unit :=
  modify (fun s => mkState (bank s) (gas s) (params s) (authorities s)
    (<[(GetCreatorPrefix creator ++ denom)%string := denom]> (creators s))).

Definition GetDenomsFromCreator (s : St) (creator : string) : list string :=
  map fst (iter_prefix (GetCreatorPrefix creator) (creators s)).

Definition GetAllDenoms (s : St) : list string :=
  map snd (iter_prefix GetCreatorsPrefix (creators s)).

(** ** Creating denominations *)

Definition createDenomAfterValidation (creatorAddr denom : string) : M St unit :=
  on_bank (SetDenomMetaData (mkMetadata [(denom, 0)] denom denom denom denom));;
  setAuthorityMetadata denom (mkAuth creatorAddr);;
  addDenomFromCreator creatorAddr denom.

Definition validateCreateDenom (creatorAddr subdenom : string) : M St string :=
  denom ← lift (GetTokenDenom creatorAddr subdenom);
  s ← get;
  refuseM (match GetDenomMetaData (bank s) denom with Some _ => true | None => false end)
    "ErrDenomExists";;
  mret denom.

Definition chargeForCreateDenom (creatorAddr : string) : M St unit :=
  p ← gets GetParams;
  (match DenomCreationFee p with
   | Some fee =>
       accAddr ← lift (AccAddressFromBech32 creatorAddr);
       on_bank (FundCommunityPool fee accAddr)
   | None => mret tt
   end);;
  if DenomCreationGasConsume p =? 0 then mret tt
  else on_gas (ConsumeGas (DenomCreationGasConsume p)).

Definition CreateDenom (creatorAddr subdenom : string) : M St string :=
  denom ← validateCreateDenom creatorAddr subdenom;
  chargeForCreateDenom creatorAddr;;
  createDenomAfterValidation creatorAddr denom;;
  mret denom.

(** ** Bank actions *)

Definition mintTo (amount : Coin) (to : string) : M St unit :=
  lift (DeconstructDenom (Denom amount));;
  coins ← lift (NewCoins [amount]);
  on_bank (MintCoins ModuleName coins);;
  addr ← lift (AccAddressFromBech32 to);
  refuseM (BlockedAddr addr) "failed to mint to blocked address";;
  coins ← lift (NewCoins [amount]);
  on_bank (SendCoinsFromModuleToAccount ModuleName addr coins).

Definition burnFrom (amount : Coin) (from : string) : M St unit :=
  lift (DeconstructDenom (Denom amount));;
  addr ← lift (AccAddressFromBech32 from);
  refuseM (BlockedAddr addr) "failed to burn from blocked address";;
  coins ← lift (NewCoins [amount]);
  on_bank (SendCoinsFromAccountToModule addr ModuleName coins);;
  coins ← lift (NewCoins [amount]);
  on_bank (BurnCoins ModuleName coins).

Definition forceTransfer (amount : Coin) (fromAddr toAddr : string) : M St unit :=
  lift (DeconstructDenom (Denom amount));;
  fromSdkAddr ← lift (AccAddressFromBech32 fromAddr);
  toSdkAddr ← lift (AccAddressFromBech32 toAddr);
  refuseM (BlockedAddr toSdkAddr) "failed to force transfer to blocked address";;
  coins ← lift (NewCoins [amount]);
  on_bank (SendCoins fromSdkAddr toSdkAddr coins).

(** ** Message validation *)

Definition CreateDenom_ValidateBasic (Sender Subdenom : string) : res unit :=
  (match AccAddressFromBech32 Sender with
   | Ok _ => Ok tt | Err _ => Err "ErrInvalidAddress" | Panic p => Panic p end);;
  match GetTokenDenom Sender Subdenom with
  | Ok _ => Ok tt | Err _ => Err "ErrInvalidDenom" | Panic p => Panic p
  end.

Definition check_address (s : string) : res unit :=
  match AccAddressFromBech32 s with
  | Ok _ => Ok tt | Err _ => Err "ErrInvalidAddress" | Panic p => Panic p
  end.

Definition Mint_ValidateBasic (Sender : string) (amount : Coin) (to : string) : res unit :=
  check_address Sender;;
  (if bool_decide (to = ""%string) then Ok tt else check_address to);;
  refuse (negb (Coin_IsValid amount) || (Amount amount =? 0)) "ErrInvalidCoins".

Definition Burn_ValidateBasic (Sender : string) (amount : Coin) (from : string) : res unit :=
  check_address Sender;;
  refuse (negb (Coin_IsValid amount) || (Amount amount =? 0)) "ErrInvalidCoins";;
  if bool_decide (from = ""%string) then Ok tt else check_address from.

Definition ForceTransfer_ValidateBasic (Sender : string) (amount : Coin) (from to : string)
    : res unit :=
  check_address Sender;;
  check_address from;;
  check_address to;;
  ensure (Coin_IsValid amount) "ErrInvalidCoins".

Definition ChangeAdmin_ValidateBasic (Sender denom NewAdmin : string) : res unit :=
  check_address Sender;;
  check_address NewAdmin;;
  DeconstructDenom denom ≫= (fun _ => Ok tt).

Definition SetDenomMetadata_ValidateBasic (Sender : string) (metadata : Metadata) : res unit :=
  check_address Sender;;
  Metadata_Validate metadata;;
  DeconstructDenom (Base metadata) ≫= (fun _ => Ok tt).

Definition UpdateParams_ValidateBasic (Authority : string) (p : Params) : res unit :=
  AccAddressFromBech32 Authority;;
  Params_Validate p.

Definition ValidateBasic (m : Msg) : res unit :=
  match m with
  | MsgCreateDenom snd sub => CreateDenom_ValidateBasic snd sub
  | MsgMint snd a t => Mint_ValidateBasic snd a t
  | MsgBurn snd a f => Burn_ValidateBasic snd a f
  | MsgForceTransfer snd a f t => ForceTransfer_ValidateBasic snd a f t
  | MsgChangeAdmin snd d n => ChangeAdmin_ValidateBasic snd d n
  | MsgSetDenomMetadata snd md => SetDenomMetadata_ValidateBasic snd md
  | MsgUpdateParams a p => UpdateParams_ValidateBasic a p
  end.

(** ** The message server *)

Definition msg_CreateDenom (Sender Subdenom : string) : M St unit :=
  lift (CreateDenom_ValidateBasic Sender Subdenom);;
  CreateDenom Sender Subdenom;;
  mret tt.

Definition Mint (Sender : string) (amount : Coin) (MintToAddress : string) : M St unit :=
  s ← get;
  ensureM (match GetDenomMetaData (bank s) (Denom amount) with Some _ => true | None => false end)
    "ErrDenomDoesNotExist";;
  ensureM (bool_decide (Sender = Admin (GetAuthorityMetadata s (Denom amount)))) "ErrUnauthorized";;
  let MintToAddress := if bool_decide (MintToAddress = ""%string) then Sender else MintToAddress in
  mintTo amount MintToAddress.

Definition Burn (k : Keeper) (Sender : string) (amount : Coin) (BurnFromAddress : string)
    : M St unit :=
  s ← get;
  ensureM (bool_decide (Sender = Admin (GetAuthorityMetadata s (Denom amount)))) "ErrUnauthorized";;
  if bool_decide (BurnFromAddress = ""%string) then burnFrom amount Sender
  else
    ensureM (IsCapabilityEnabled (enabledCapabilities k) "enable_burn_from")
      "ErrCapabilityNotEnabled";;
    burnFrom amount BurnFromAddress.

Definition ForceTransfer (k : Keeper) (Sender : string) (amount : Coin) (from to : string)
    : M St unit :=
  ensureM (IsCapabilityEnabled (enabledCapabilities k) "enable_force_transfer")
    "ErrCapabilityNotEnabled";;
  s ← get;
  ensureM (bool_decide (Sender = Admin (GetAuthorityMetadata s (Denom amount)))) "ErrUnauthorized";;
  forceTransfer amount from to.

Definition ChangeAdmin (Sender denom NewAdmin : string) : M St unit :=
  s ← get;
  ensureM (bool_decide (Sender = Admin (GetAuthorityMetadata s denom))) "ErrUnauthorized";;
  setAdmin denom NewAdmin.

Definition SetDenomMetadata (k : Keeper) (Sender : string) (metadata : Metadata) : M St unit :=
  ensureM (IsCapabilityEnabled (enabledCapabilities k) "enable_metadata")
    "ErrCapabilityNotEnabled";;
  lift (Metadata_Validate metadata);;
  s ← get;
  ensureM (bool_decide (Sender = Admin (GetAuthorityMetadata s (Base metadata)))) "ErrUnauthorized";;
  on_bank (SetDenomMetaData metadata).

Definition UpdateParams (k : Keeper) (Authority : string) (p : Params) : M St unit :=
  ensureM (bool_decide (authority k = Authority)) "ErrInvalidSigner";;
  SetParams p.

Definition handle (k : Keeper) (m : Msg) : M St unit :=
  match m with
  | MsgCreateDenom snd sub => msg_CreateDenom snd sub
  | MsgMint snd a t => Mint snd a t
  | MsgBurn snd a f => Burn k snd a f
  | MsgForceTransfer snd a f t => ForceTransfer k snd a f t
  | MsgChangeAdmin snd d n => ChangeAdmin snd d n
  | MsgSetDenomMetadata snd md => SetDenomMetadata k snd md
  | MsgUpdateParams a p => UpdateParams k a p
  end.

(** ** Genesis *)

Definition must_ok (m : M St unit) : M St unit := fun s =>
  match m s with (Err e, s') => (Panic e, s') | r => r end.

Definition init_denom (g : GenesisDenom) : M St unit :=
  match DeconstructDenom (gdenom g) with
  | Ok (creator, _) =>
      must_ok (createDenomAfterValidation creator (gdenom g));;
      must_ok (setAuthorityMetadata (gdenom g) (gauthority g))
  | Err e => panic e
  | Panic e => panic e
  end.

Definition InitGenesis (gs : GenesisState) : M St unit :=
  let p := mkParams (Some (default [] (DenomCreationFee (gparams gs))))
             (DenomCreationGasConsume (gparams gs)) in
  SetParams p;;
  forM (FactoryDenoms gs) init_denom.

Definition ExportGenesis (s : St) : GenesisState :=
  mkGenesis (GetParams s)
    (map (fun d => mkGenesisDenom d (GetAuthorityMetadata s d)) (GetAllDenoms s)).

Fixpoint GenesisState_Validate_loop (l : list GenesisDenom) (seen : gset string) : res unit :=
  match l with
  | [] => Ok tt
  | g :: l =>
      refuse (bool_decide (gdenom g ∈ seen)) "ErrInvalidGenesis";;
      DeconstructDenom (gdenom g);;
      (if bool_decide (Admin (gauthority g) = ""%string) then Ok tt
       else match AccAddressFromBech32 (Admin (gauthority g)) with
            | Ok _ => Ok tt | Err _ => Err "ErrInvalidAuthorityMetadata" | Panic p => Panic p end);;
      GenesisState_Validate_loop l ({[gdenom g]} ∪ seen)
  end.

Definition GenesisState_Validate (gs : GenesisState) : res unit :=
  Params_Validate (gparams gs);;
  GenesisState_Validate_loop (FactoryDenoms gs) ∅.

End TokenFactory.

(** ** Specification of the ledger effect of a message *)

Section Spec.
Context {B G : Type} `{BankOps B} `{Bech32}.

Definition admin_of (s : State B G) (denom : string) : string :=
  Admin (GetAuthorityMetadata s denom).

(** The sender and the denomination of the messages reserved to an administrator. *)
Definition privileged (m : Msg) : option (string * string) :=
  match m with
  | MsgMint snd a _ | MsgBurn snd a _ | MsgForceTransfer snd a _ _ => Some (snd, Denom a)
  | MsgChangeAdmin snd d _ => Some (snd, d)
  | MsgSetDenomMetadata snd md => Some (snd, Base md)
  | MsgCreateDenom _ _ | MsgUpdateParams _ _ => None
  end.

Definition coin_amount (c : Coin) (d : string) : Z := if decide (Denom c = d) then Amount c else 0.

Definition addr_is (text addr : string) : bool := bool_decide (AccAddressFromBech32 text = Ok addr).

Definition or_sender (a snd : string) : string := if bool_decide (a = ""%string) then snd else a.

(** How a successful message changes the balance of account [a] in [d]. *)
Definition balance_delta (fee : list Coin) (m : Msg) (a d : string) : Z :=
  match m with
  | MsgMint snd c t => if addr_is (or_sender t snd) a then coin_amount c d else 0
  | MsgBurn snd c f => if addr_is (or_sender f snd) a then - coin_amount c d else 0
  | MsgForceTransfer _ c f t =>
      (if addr_is t a then coin_amount c d else 0) - (if addr_is f a then coin_amount c d else 0)
  | MsgCreateDenom snd _ =>
      (if decide (a = module_address "distribution") then amount_of fee d else 0)
      - (if addr_is snd a then amount_of fee d else 0)
  | _ => 0
  end.

Definition supply_delta (m : Msg) (d : string) : Z :=
  match m with
  | MsgMint _ c _ => coin_amount c d
  | MsgBurn _ c _ => - coin_amount c d
  | _ => 0
  end.

(** How a successful message changes the administrator of [d]. *)
Definition admin_after (m : Msg) (d old : string) : string :=
  match m with
  | MsgCreateDenom snd sub =>
      if decide (join_with slash ["factory"; snd; sub]%string = d) then snd else old
  | MsgChangeAdmin _ d' new => if decide (d' = d) then new else old
  | _ => old
  end.

(** Every denomination with an authority entry has bank metadata. *)
Definition Inv (s : State B G) : Prop :=
  forall d, authorities s !! authority_key d <> None -> GetDenomMetaData (bank s) d <> None.

End Spec.

(** ** Lemmas *)

Section Proofs.
Context {B G : Type} `{BankOps B} `{GasMeterOps G} `{SdkCoins} `{Bech32}.
Context `{!BankLaws B} `{!SdkCoinsLaws} `{!Bech32Laws}.

#[local] Abbreviation St := (State B G).

Lemma on_bank_Ok {A} (m : M B A) a (s s' : St) :
  on_bank m s = (Ok a, s') <-> exists b', m (bank s) = (Ok a, b') /\ s' = set_bank b' s.
Proof.
  unfold on_bank, zoom. destruct (m (bank s)) as [r b']. split.
  - intros [= -> <-]. eauto.
  - by intros (? & [= -> ->] & ->).
Qed.

Lemma on_gas_Ok {A} (m : M G A) a (s s' : St) :
  on_gas m s = (Ok a, s') <-> exists g', m (gas s) = (Ok a, g') /\ s' = set_gas g' s.
Proof.
  unfold on_gas, zoom. destruct (m (gas s)) as [r g']. split.
  - intros [= -> <-]. eauto.
  - by intros (? & [= -> ->] & ->).
Qed.

Ltac tf_inv :=
  repeat (go_inv; match goal with
  | H : on_bank _ _ = (Ok _, _) |- _ => apply on_bank_Ok in H as (? & ? & ->)
  | H : on_gas _ _ = (Ok _, _) |- _ => apply on_gas_Ok in H as (? & ? & ->)
  end); go_inv.

Lemma authority_key_eq denom :
  authority_key denom = ("denoms|" ++ (denom ++ "|authoritymetadata"))%string.
Proof.
  unfold authority_key, GetDenomPrefixStore. cbn [join_with].
  rewrite <- string_app_assoc, (string_app_cons KeySeparator), <- string_app_assoc. reflexivity.
Qed.

Lemma authority_key_inj d1 d2 : authority_key d1 = authority_key d2 -> d1 = d2.
Proof. rewrite !authority_key_eq. intros E%string_app_inv_l%string_app_inv_r. done. Qed.

Lemma split_denom creator sub : contains_char slash creator = false ->
  split_on slash (join_with slash ["factory"; creator; sub]%string)
  = "factory"%string :: creator :: split_on slash sub.
Proof.
  intros Hc. cbn [join_with]. rewrite split_on_app by done. by rewrite split_on_app.
Qed.

Lemma GetTokenDenom_Ok creator sub d : GetTokenDenom creator sub = Ok d ->
  contains_char slash creator = false /\ ValidateDenom d = true /\
  d = join_with slash ["factory"; creator; sub]%string.
Proof. unfold GetTokenDenom. intros E. go_inv. done. Qed.

(** Names survive a round trip: a denomination built for a valid creator
    address is taken apart into that address and the subdenomination, slashes
    in it included, and no two pairs of creator and subdenomination share a
    name. *)
Theorem denom_roundtrip creator sub d a :
  GetTokenDenom creator sub = Ok d -> AccAddressFromBech32 creator = Ok a ->
  DeconstructDenom d = Ok (AccAddress_String a, sub) /\
  (forall c' s', GetTokenDenom c' s' = Ok d -> c' = creator /\ s' = sub).
Proof.
  intros E Ha. apply GetTokenDenom_Ok in E as (Hc & Hv & ->). split.
  - unfold DeconstructDenom. rewrite split_denom, Hv by done.
    pose proof (join_split slash sub) as Hj. pose proof (split_on_nonempty slash sub).
    destruct (split_on slash sub) as [|p ps]; [done|]. rewrite Hj. go_run. by rewrite Ha.
  - intros c' s' E. apply GetTokenDenom_Ok in E as (Hc' & _ & E).
    apply (f_equal (split_on slash)) in E. rewrite !split_denom in E by done.
    injection E as -> E. apply (f_equal (join_with slash)) in E. by rewrite !join_split in E.
Qed.

(** C40: a message reserved to the administrator of a denomination, sent by
    anybody else, fails and leaves no trace in the state, not even a partial
    one. *)
Theorem only_admin_acts k m (s : St) snd d :
  privileged m = Some (snd, d) -> snd <> admin_of s d ->
  is_ok (handle k m s).1 = false /\ (handle k m s).2 = s.
Proof.
  intros Hm Hne. destruct m; cbn in Hm; simplify_eq; cbn [handle];
    unfold Mint, Burn, ForceTransfer, ChangeAdmin, SetDenomMetadata; go_run;
    unfold admin_of in Hne; rewrite ?bool_decide_false by done.
  - by destruct (GetDenomMetaData (bank s) (Denom amount)).
  - done.
  - by destruct (IsCapabilityEnabled _ _).
  - done.
  - destruct (IsCapabilityEnabled _ _); [|done]. by destruct (Metadata_Validate metadata).
Qed.

Lemma SetDenomMetaData_inv m (b b' : B) u : SetDenomMetaData m b = (Ok u, b') ->
  GetDenomMetaData b' (Base m) = Some m /\
  (forall d, d <> Base m -> GetDenomMetaData b' d = GetDenomMetaData b d) /\
  (forall a d, balance b' a d = balance b a d) /\ (forall d, supply b' d = supply b d).
Proof. destruct (SetDenomMetaData_ok m b) as (b1 & E & ?). rewrite E. by intros [= _ <-]. Qed.

Lemma single_amount c r d : NewCoins [c] = Ok r -> amount_of r d = coin_amount c d.
Proof.
  intros E. apply NewCoins_ok in E as [_ ->]. cbn. unfold coin_amount. case_decide; lia.
Qed.

Lemma addr_is_Ok text addr a :
  AccAddressFromBech32 text = Ok addr -> addr_is text a = bool_decide (a = addr).
Proof. intros E. unfold addr_is. rewrite E. apply bool_decide_ext. naive_solver. Qed.

(** Replaces successful bank calls by their documented effect. *)
Ltac bank_facts :=
  repeat match goal with
  | u : unit |- _ => destruct u
  | H : MintCoins _ _ _ = (Ok _, _) |- _ => apply MintCoins_ok in H; destruct H as (?&?&?)
  | H : BurnCoins _ _ _ = (Ok _, _) |- _ => apply BurnCoins_ok in H; destruct H as (?&?&?)
  | H : SendCoins _ _ _ _ = (Ok _, _) |- _ => apply SendCoins_ok in H; destruct H as (?&?&?)
  | H : SendCoinsFromModuleToAccount _ _ _ _ = (Ok _, _) |- _ =>
      apply SendFromModule_ok in H; destruct H as (?&?&?)
  | H : SendCoinsFromAccountToModule _ _ _ _ = (Ok _, _) |- _ =>
      apply SendToModule_ok in H; destruct H as (?&?&?)
  | H : FundCommunityPool _ _ _ = (Ok _, _) |- _ =>
      apply FundCommunityPool_ok in H; destruct H as (?&?&?)
  | H : SetDenomMetaData _ _ = (Ok _, _) |- _ =>
      apply SetDenomMetaData_inv in H; destruct H as (?&?&?&?)
  | H : NewCoins [_] = Ok ?r |- _ => pose proof (fun d => single_amount _ r d H); clear H
  end; cbn [bank set_bank set_gas] in *.

(** Rewrites balances and supplies with the effects in the context. *)
Ltac ledger_rw :=
  intros; unfold flow in *;
  repeat match goal with
  | H : forall a d, balance ?b a d = _ |- context [balance ?b _ _] => rewrite H
  | H : forall d, supply ?b d = _ |- context [supply ?b _] => rewrite H
  | H : forall d, amount_of ?r d = _ |- context [amount_of ?r _] => rewrite H
  | H : AccAddressFromBech32 ?t = Ok _ |- context [addr_is ?t _] => rewrite (addr_is_Ok _ _ _ H)
  end.

(** Closes a goal about balances or supply from the effects in the context. *)
Ltac ledger :=
  ledger_rw;
  repeat (case_bool_decide || case_decide); subst; try congruence; try lia.

(** Composes the preservation of metadata along the calls in the context. *)
Ltac same_meta :=
  unfold same_meta in *; intros;
  repeat match goal with
  | H : forall d, GetDenomMetaData ?b d = _ |- context [GetDenomMetaData ?b _] => rewrite H
  end; done.

Lemma mintTo_effect c t (s s' : St) u : mintTo c t s = (Ok u, s') ->
  (forall a d, balance (bank s') a d =
     balance (bank s) a d + if addr_is t a then coin_amount c d else 0) /\
  (forall d, supply (bank s') d = supply (bank s) d + coin_amount c d) /\
  same_meta (bank s) (bank s') /\ authorities s' = authorities s.
Proof. unfold mintTo. intros E. tf_inv. bank_facts. split_and!; [ledger..|same_meta|done]. Qed.

Lemma burnFrom_effect c f (s s' : St) u : burnFrom c f s = (Ok u, s') ->
  (forall a d, balance (bank s') a d =
     balance (bank s) a d + if addr_is f a then - coin_amount c d else 0) /\
  (forall d, supply (bank s') d = supply (bank s) d - coin_amount c d) /\
  same_meta (bank s) (bank s') /\ authorities s' = authorities s.
Proof. unfold burnFrom. intros E. tf_inv. bank_facts. split_and!; [ledger..|same_meta|done]. Qed.

Lemma forceTransfer_effect c f t (s s' : St) u : forceTransfer c f t s = (Ok u, s') ->
  (forall a d, balance (bank s') a d = balance (bank s) a d +
     ((if addr_is t a then coin_amount c d else 0) - (if addr_is f a then coin_amount c d else 0))) /\
  (forall d, supply (bank s') d = supply (bank s) d) /\
  same_meta (bank s) (bank s') /\ authorities s' = authorities s.
Proof. unfold forceTransfer. intros E. tf_inv. bank_facts. split_and!; [ledger..|done|done]. Qed.

Lemma chargeForCreateDenom_effect c (s s' : St) u : chargeForCreateDenom c s = (Ok u, s') ->
  let fee := default [] (DenomCreationFee (GetParams s)) in
  (forall a d, balance (bank s') a d = balance (bank s) a d +
     ((if decide (a = module_address "distribution") then amount_of fee d else 0)
      - (if addr_is c a then amount_of fee d else 0))) /\
  (forall d, supply (bank s') d = supply (bank s) d) /\
  same_meta (bank s) (bank s') /\ authorities s' = authorities s /\ params s' = params s.
Proof.
  unfold chargeForCreateDenom. intros E. tf_inv. destruct (DenomCreationFee _) as [fee|]; cbn.
  - destruct (_ =? 0); tf_inv; bank_facts; (split; [ledger|done]).
  - destruct (_ =? 0); tf_inv; cbn; (split; [intros; repeat case_decide; destruct (addr_is _ _); lia|done]).
Qed.

Lemma createDenomAfterValidation_effect c dn (s s' : St) u :
  createDenomAfterValidation c dn s = (Ok u, s') ->
  (forall a d, balance (bank s') a d = balance (bank s) a d) /\
  (forall d, supply (bank s') d = supply (bank s) d) /\
  GetDenomMetaData (bank s') dn <> None /\
  (forall d, d <> dn -> GetDenomMetaData (bank s') d = GetDenomMetaData (bank s) d) /\
  authorities s' = <[authority_key dn := mkAuth c]> (authorities s).
Proof.
  unfold createDenomAfterValidation, setAuthorityMetadata, addDenomFromCreator.
  intros E. tf_inv. bank_facts. cbn in *. repeat split; try done. congruence.
Qed.

(** Replaces successful keeper calls by their effect. *)
Ltac effects :=
  repeat match goal with
  | H : mintTo _ _ _ = (Ok _, _) |- _ => apply mintTo_effect in H; destruct H as (?&?&?&?)
  | H : burnFrom _ _ _ = (Ok _, _) |- _ => apply burnFrom_effect in H; destruct H as (?&?&?&?)
  | H : forceTransfer _ _ _ _ = (Ok _, _) |- _ =>
      apply forceTransfer_effect in H; destruct H as (?&?&?&?)
  | H : chargeForCreateDenom _ _ = (Ok _, _) |- _ =>
      apply chargeForCreateDenom_effect in H; destruct H as (?&?&?&?&?)
  | H : createDenomAfterValidation _ _ _ = (Ok _, _) |- _ =>
      apply createDenomAfterValidation_effect in H; destruct H as (?&?&?&?&?)
  end.

(** C6: a successful message changes balances and supply exactly as specified:
    minting credits the recipient and raises the supply, burning debits the
    holder and lowers it, a forced transfer moves coins, creating a
    denomination moves the creation fee to the community pool, and nothing
    else touches the ledger. *)
Theorem ledger_effect k m (s s' : St) :
  handle k m s = (Ok tt, s') ->
  let fee := default [] (DenomCreationFee (GetParams s)) in
  (forall a d, balance (bank s') a d = balance (bank s) a d + balance_delta fee m a d) /\
  (forall d, supply (bank s') d = supply (bank s) d + supply_delta m d).
Proof.
  intros E fee. destruct m; cbn [handle balance_delta supply_delta] in *.
  - unfold msg_CreateDenom, CreateDenom, validateCreateDenom in E. tf_inv. effects.
    split; ledger_rw; [done|lia].
  - unfold Mint in E. tf_inv. effects. done.
  - unfold Burn in E. tf_inv. unfold or_sender.
    case_bool_decide; tf_inv; effects; (split; [done|]); ledger_rw; lia.
  - unfold ForceTransfer in E. tf_inv. effects. split; [done|]. ledger_rw. lia.
  - unfold ChangeAdmin, setAdmin, setAuthorityMetadata in E. tf_inv. cbn. split; intros; lia.
  - unfold SetDenomMetadata in E. tf_inv. bank_facts. split; ledger_rw; lia.
  - unfold UpdateParams, SetParams in E. tf_inv. destruct (Params_Validate p); tf_inv.
    cbn. split; intros; lia.
Qed.

Ltac auth_rw :=
  repeat match goal with
  | H : authorities ?x = _ |- context [authorities ?x] => rewrite H
  end.

Lemma lookup_authority (m : gmap string DenomAuthorityMetadata) d d' x :
  <[authority_key d' := x]> m !! authority_key d =
  if decide (d' = d) then Some x else m !! authority_key d.
Proof.
  case_decide as E; [subst; by rewrite lookup_insert_eq|].
  rewrite lookup_insert_ne; [done|]. intros Ek. by apply E, authority_key_inj.
Qed.

(** A successful message changes administrators exactly as specified: the
    creator becomes administrator of the denomination it creates, ChangeAdmin
    hands the named denomination over, and no other administrator changes. *)
Theorem admin_effect k m (s s' : St) d :
  handle k m s = (Ok tt, s') -> admin_of s' d = admin_after m d (admin_of s d).
Proof.
  intros E. unfold admin_of, GetAuthorityMetadata. destruct m; cbn [handle admin_after] in *.
  - unfold msg_CreateDenom, CreateDenom, validateCreateDenom in E. tf_inv. effects. auth_rw.
    match goal with H : GetTokenDenom _ _ = Ok _ |- _ => apply GetTokenDenom_Ok in H as (_&_&->) end.
    rewrite lookup_authority. repeat case_decide; done.
  - unfold Mint in E. tf_inv. effects. by auth_rw.
  - unfold Burn in E. tf_inv. case_bool_decide; tf_inv; effects; by auth_rw.
  - unfold ForceTransfer in E. tf_inv. effects. by auth_rw.
  - unfold ChangeAdmin, setAdmin, setAuthorityMetadata in E. tf_inv. cbn.
    rewrite lookup_authority. repeat case_decide; done.
  - unfold SetDenomMetadata in E. by tf_inv.
  - unfold UpdateParams, SetParams in E. tf_inv. by destruct (Params_Validate p); tf_inv.
Qed.

(** The states a chain goes through: transactions run on a cached context and
    are validated before, and other modules use the bank in between without
    removing metadata. *)
Inductive reachable (k : Keeper) : St -> Prop :=
| reach_init s : authorities s = ∅ -> reachable k s
| reach_msg s m :
    reachable k s -> ValidateBasic (B := B) m = Ok tt -> reachable k (cached (handle k m) s).2
| reach_bank s b :
    reachable k s ->
    (forall d, GetDenomMetaData (bank s) d <> None -> GetDenomMetaData b d <> None) ->
    reachable k (set_bank b s).

Lemma check_address_nonempty a u : check_address a = Ok u -> a <> ""%string.
Proof.
  intros E ->. unfold check_address in E. pose proof bech32_empty as He.
  by destruct (AccAddressFromBech32 ""%string).
Qed.

Lemma Inv_same (s s' : St) :
  Inv s -> same_meta (bank s) (bank s') -> authorities s' = authorities s -> Inv s'.
Proof. intros Hinv Hm Ha d. rewrite Ha, Hm. apply Hinv. Qed.

Lemma Inv_step k m (s s' : St) :
  Inv s -> ValidateBasic (B := B) m = Ok tt -> handle k m s = (Ok tt, s') -> Inv s'.
Proof.
  intros Hinv Hv E. destruct m; cbn [handle ValidateBasic] in *.
  - unfold msg_CreateDenom, CreateDenom, validateCreateDenom in E. tf_inv. effects. intros d.
    auth_rw. rewrite lookup_authority. case_decide; [by subst|]. intros Hd.
    match goal with H : forall d, d <> _ -> GetDenomMetaData _ d = _ |- _ => rewrite H by done end.
    match goal with H : same_meta _ _ |- _ => rewrite (H d) end. auto.
  - unfold Mint in E. tf_inv. effects. by eapply Inv_same.
  - unfold Burn in E. tf_inv. case_bool_decide; tf_inv; effects; by eapply Inv_same.
  - unfold ForceTransfer in E. tf_inv. effects. by eapply Inv_same.
  - assert (Sender <> ""%string) as Hne.
    { unfold ChangeAdmin_ValidateBasic in Hv. go_inv. by eapply check_address_nonempty. }
    unfold ChangeAdmin, setAdmin, setAuthorityMetadata in E. tf_inv. intros d. cbn.
    rewrite lookup_authority. destruct (decide (denom = d)) as [->|]; [|exact (Hinv d)].
    intros _. apply (Hinv d). intros En. apply Hne.
    unfold GetAuthorityMetadata. by rewrite En.
  - unfold SetDenomMetadata in E. tf_inv. bank_facts. intros d. cbn. intros Hd.
    destruct (decide (d = Base metadata)) as [->|Hd']; [congruence|].
    match goal with H : forall d, d <> _ -> GetDenomMetaData _ d = _ |- _ => rewrite H by done end.
    by apply (Hinv d).
  - unfold UpdateParams, SetParams in E. tf_inv. by destruct (Params_Validate p); tf_inv.
Qed.

Lemma reachable_Inv k (s : St) : reachable k s -> Inv s.
Proof.
  induction 1 as [s Hs|s m Hr IH Hv|s b Hr IH Hb]; intros d.
  - rewrite Hs, lookup_empty. done.
  - unfold cached. destruct (handle k m s) as [[[]|e|p] s'] eqn:E; [|by apply (IH d)..].
    revert d. by eapply Inv_step.
  - intros Hd. cbn in *. by apply Hb, (IH d).
Qed.

(** In every reachable state, a successful CreateDenom creates a
    denomination that had no administrator entry before: an existing
    denomination is never taken over. *)
Theorem create_denom_no_takeover k (s s' : St) snd sub d :
  reachable k s -> GetTokenDenom snd sub = Ok d ->
  handle k (MsgCreateDenom snd sub) s = (Ok tt, s') ->
  authorities s !! authority_key d = None /\ admin_of s' d = snd.
Proof.
  intros Hr Hd E. pose proof (reachable_Inv _ _ Hr d) as Hinv.
  cbn [handle] in E. unfold msg_CreateDenom, CreateDenom, validateCreateDenom in E. tf_inv.
  rewrite Hd in *. simplify_eq. effects. split.
  - destruct (authorities _ !! authority_key _) eqn:Ea; [|done]. exfalso.
    destruct (GetDenomMetaData _ _) eqn:Em in *; [done|]. by apply Hinv.
  - unfold admin_of, GetAuthorityMetadata. auth_rw. by rewrite lookup_insert_eq.
Qed.

(** A keeper built by NewKeeper has an empty authority, so UpdateParams
    refuses every message that passes ValidateBasic: the parameters cannot be
    changed by a message. *)
Theorem update_params_unreachable m (s : St) auth p :
  m = MsgUpdateParams auth p -> ValidateBasic (B := B) m = Ok tt ->
  handle NewKeeper m s = (Err "ErrInvalidSigner", s).
Proof.
  intros -> Hv. cbn in *. unfold UpdateParams_ValidateBasic, UpdateParams in *. go_run.
  rewrite bool_decide_false; [done|]. intros Hauth. cbn in Hauth. subst auth.
  pose proof bech32_empty as He. by destruct (AccAddressFromBech32 ""%string).
Qed.

(** *** Genesis *)

(** A genesis denomination that passes validation, with the creator it names. *)
Definition genesis_ok (g : GenesisDenom) (c : string) : Prop :=
  (exists sub, DeconstructDenom (gdenom g) = Ok (c, sub)) /\
  contains_char KeySeparator c = false /\ Auth_Validate (gauthority g) = Ok tt.

Definition creator_key (c d : string) : string := (GetCreatorPrefix c ++ d)%string.

Lemma creator_key_eq c d :
  creator_key c d = (GetCreatorsPrefix ++ (c ++ String KeySeparator d))%string.
Proof.
  unfold creator_key, GetCreatorPrefix, GetCreatorsPrefix. cbn [join_with].
  rewrite <- (string_app_assoc "creator"), (string_app_cons KeySeparator), <- string_app_assoc.
  by rewrite <- (string_app_assoc "creator").
Qed.

Lemma creator_key_inj c1 c2 d1 d2 :
  contains_char KeySeparator c1 = false -> contains_char KeySeparator c2 = false ->
  creator_key c1 d1 = creator_key c2 d2 -> d1 = d2.
Proof.
  intros H1' H2'. rewrite !creator_key_eq. intros E%string_app_inv_l.
  apply (f_equal (split_on KeySeparator)) in E. rewrite !split_on_app in E by done.
  injection E as _ E. apply (f_equal (join_with KeySeparator)) in E. by rewrite !join_split in E.
Qed.

Lemma Deconstruct_creator_valid d c sub :
  DeconstructDenom d = Ok (c, sub) -> Auth_Validate (mkAuth c) = Ok tt.
Proof.
  unfold DeconstructDenom. intros E. go_inv. destruct (split_on _ _) as [|p0 [|p1 [|p2 ps]]]; try done.
  go_inv. destruct (AccAddressFromBech32 p1) as [a|?|?] eqn:Ea; simplify_eq.
  unfold Auth_Validate. case_bool_decide; [done|]. cbn.
  by rewrite bech32_roundtrip by (by eapply bech32_nonempty).
Qed.

Lemma init_denom_effect g c (s : St) : genesis_ok g c ->
  exists s', init_denom g s = (Ok tt, s') /\ params s' = params s /\
    authorities s' = <[authority_key (gdenom g) := gauthority g]> (authorities s) /\
    creators s' = <[creator_key c (gdenom g) := gdenom g]> (creators s).
Proof.
  intros ([sub Hd] & Hc & Ha). unfold init_denom. rewrite Hd.
  unfold createDenomAfterValidation, setAuthorityMetadata, addDenomFromCreator, must_ok. go_run.
  unfold on_bank, zoom.
  destruct (SetDenomMetaData_ok (mkMetadata [(gdenom g, 0)] (gdenom g) (gdenom g) (gdenom g) (gdenom g))
    (bank s)) as (b' & -> & _).
  rewrite (Deconstruct_creator_valid _ _ _ Hd). cbn. rewrite Ha. cbn.
  eexists. split; [done|]. split; [done|]. cbn. by rewrite insert_insert_eq.
Qed.

Lemma zip_genesis_ok l cs g c :
  Forall2 genesis_ok l cs -> (g, c) ∈ zip l cs -> g ∈ l /\ genesis_ok g c.
Proof.
  induction 1 as [|g' c' l cs Hg Hl IH]; cbn; [set_solver|].
  rewrite !elem_of_cons. intros [[= -> ->]|Hin]; [auto|]. destruct (IH Hin). auto.
Qed.

Lemma init_denoms_effect l cs (s : St) :
  Forall2 genesis_ok l cs -> NoDup (map gdenom l) ->
  exists s', forM l init_denom s = (Ok tt, s') /\ params s' = params s /\
    (forall g, g ∈ l -> GetAuthorityMetadata s' (gdenom g) = gauthority g) /\
    (forall d, d ∉ map gdenom l -> GetAuthorityMetadata s' d = GetAuthorityMetadata s d) /\
    (forall k v, creators s' !! k = Some v <->
      (exists g c, (g, c) ∈ zip l cs /\ k = creator_key c (gdenom g) /\ v = gdenom g) \/
      creators s !! k = Some v /\ forall g c, (g, c) ∈ zip l cs -> k <> creator_key c (gdenom g)).
Proof.
  intros Hl. revert s. induction Hl as [|g c l cs Hg Hl IH]; intros s Hnd; cbn [forM].
  { exists s. split_and!; try done; [set_solver|]. intros k v. cbn. split; [|naive_solver set_solver].
    intros Hk. right. split; [done|]. set_solver. }
  cbn in Hnd. apply NoDup_cons in Hnd as [Hgd Hnd].
  destruct (init_denom_effect g c s Hg) as (s1 & E1 & Hp1 & Ha1 & Hc1).
  destruct (IH s1 Hnd) as (s2 & E2 & Hp2 & Hin2 & Hout2 & Hcr2).
  exists s2. go_run. rewrite E1, E2. split_and!; [done|congruence| | |].
  - intros g' Hg'. apply elem_of_cons in Hg' as [->|Hg']; [|auto].
    rewrite Hout2 by done. unfold GetAuthorityMetadata. by rewrite Ha1, lookup_insert_eq.
  - intros d Hd. cbn in Hd. apply not_elem_of_cons in Hd as [Hne Hd]. rewrite Hout2 by done.
    unfold GetAuthorityMetadata. rewrite Ha1, lookup_authority, decide_False by done. done.
  - intros k v. rewrite Hcr2, Hc1, lookup_insert_Some. cbn. setoid_rewrite elem_of_cons. split.
    + intros [(g' & c' & Hin & -> & ->)|[[[<- <-]|[Hne Hk]] Hall]]; [naive_solver..|].
      right. split; [done|]. intros g' c' [[= -> ->]|Hin]; [done|eauto].
    + intros [(g' & c' & [[= -> ->]|Hin] & -> & ->)|[Hk Hall]]; [|naive_solver|].
      * right. split; [naive_solver|]. intros g2 c2 Hin E.
        destruct (zip_genesis_ok _ _ _ _ Hl Hin) as [Hg2 (_ & Hc2 & _)].
        destruct Hg as (_ & Hc & _). apply Hgd.
        rewrite (creator_key_inj _ _ _ _ Hc Hc2 E). by apply list_elem_of_fmap_2.
      * right. split; [right; naive_solver|naive_solver].
Qed.

Lemma Validate_loop_genesis l seen :
  GenesisState_Validate_loop l seen = Ok tt ->
  (forall g c sub, g ∈ l -> DeconstructDenom (gdenom g) = Ok (c, sub) ->
     contains_char KeySeparator c = false) ->
  NoDup (map gdenom l) /\ (forall d, d ∈ map gdenom l -> d ∉ seen) /\
  exists cs, Forall2 genesis_ok l cs.
Proof.
  revert seen. induction l as [|g l IH]; intros seen E Hsep.
  { split; [constructor|]. split; [set_solver|]. exists []. constructor. }
  cbn [GenesisState_Validate_loop] in E. go_inv. destruct x0 as [c sub].
  match goal with H : GenesisState_Validate_loop l _ = _ |- _ => apply IH in H as (Hnd & Hout & cs & Hcs) end.
  2:{ intros g' c' sub' Hg'. apply Hsep. by right. }
  split_and!.
  - cbn. constructor; [|done]. intros Hin. apply Hout in Hin. set_solver.
  - intros d Hd. cbn in Hd. apply elem_of_cons in Hd as [->|Hd]; [done|]. apply Hout in Hd. set_solver.
  - exists (c :: cs). constructor; [|done]. split_and!; [eauto| |].
    + eapply Hsep; [by left|done].
    + unfold Auth_Validate. destruct (bool_decide _); [done|].
      by destruct (AccAddressFromBech32 _).
Qed.

Lemma exported_denoms (s : St) l cs :
  Forall2 genesis_ok l cs -> NoDup (map gdenom l) ->
  (forall k v, creators s !! k = Some v <->
     exists g c, (g, c) ∈ zip l cs /\ k = creator_key c (gdenom g) /\ v = gdenom g) ->
  GetAllDenoms s ≡ₚ map gdenom l.
Proof.
  intros Hl Hnd Hcr. unfold GetAllDenoms.
  assert (forall k v, (k, v) ∈ iter_prefix GetCreatorsPrefix (creators s) <->
    exists g c, (g, c) ∈ zip l cs /\ k = (c ++ String KeySeparator v)%string /\ v = gdenom g) as Hiter.
  { intros k v. rewrite elem_of_iter_prefix, Hcr. setoid_rewrite creator_key_eq. split.
    - intros (g & c & Hz & E & ->). apply string_app_inv_l in E. eauto.
    - intros (g & c & Hz & -> & ->). eauto. }
  apply NoDup_Permutation; [|done|].
  - apply nodup_snd; [apply iter_prefix_keys_nodup|]. intros k1 k2 v Hk1 Hk2.
    apply Hiter in Hk1 as (g1 & c1 & Hz1 & -> & ->). apply Hiter in Hk2 as (g2 & c2 & Hz2 & -> & E).
    destruct (zip_genesis_ok _ _ _ _ Hl Hz1) as [_ ((sub1 & D1) & _)].
    destruct (zip_genesis_ok _ _ _ _ Hl Hz2) as [_ ((sub2 & D2) & _)]. congruence.
  - intros d. rewrite !list_elem_of_fmap. split.
    + intros ([k v] & -> & Hin). apply Hiter in Hin as (g & c & Hz & _ & ->).
      exists g. split; [done|]. by eapply zip_genesis_ok.
    + intros (g & -> & Hg). apply elem_of_zip_l with (l2 := cs) in Hg as [c Hz];
        [|by apply Forall2_length in Hl].
      eexists (_, _). split; [|by apply Hiter; eauto]. done.
Qed.

(** A valid genesis state is initialised without error on an empty store,
    and exporting it again gives the same denominations with the same
    administrators, up to order, and the same parameters, where an empty fee
    reads back as no fee. *)
Theorem genesis_roundtrip gs (s : St) :
  GenesisState_Validate gs = Ok tt ->
  (forall g c sub, g ∈ FactoryDenoms gs -> DeconstructDenom (gdenom g) = Ok (c, sub) ->
     contains_char KeySeparator c = false) ->
  creators s = ∅ ->
  exists s', InitGenesis gs s = (Ok tt, s') /\
    FactoryDenoms (ExportGenesis s') ≡ₚ FactoryDenoms gs /\
    gparams (ExportGenesis s') =
      mkParams (match DenomCreationFee (gparams gs) with Some [] => None | f => f end)
        (DenomCreationGasConsume (gparams gs)).
Proof.
  intros Hv Hsep Hempty. unfold GenesisState_Validate in Hv. go_inv.
  match goal with H : GenesisState_Validate_loop _ _ = _ |- _ =>
    apply Validate_loop_genesis in H as (Hnd & _ & cs & Hcs); [|done] end.
  unfold InitGenesis. go_run. unfold SetParams.
  assert (Params_Validate (mkParams (Some (default [] (DenomCreationFee (gparams gs))))
    (DenomCreationGasConsume (gparams gs))) = Ok tt) as ->.
  { unfold Params_Validate in *. destruct (DenomCreationFee (gparams gs)) as [fee|]; cbn; [by destruct x|].
    assert (Coins_Validate [] = Ok tt) as ->; [|done]. apply Coins_Validate_spec. auto with terp. }
  unfold modify. match goal with |- context [forM _ _ ?s0] =>
    destruct (init_denoms_effect _ cs s0 Hcs Hnd) as (s' & -> & Hp & Ha & _ & Hcr) end.
  exists s'. split; [done|]. split.
  - cbn. rewrite (exported_denoms s' _ cs Hcs Hnd).
    + rewrite map_map. rewrite <- (map_id (FactoryDenoms gs)) at 2.
      erewrite map_ext_in; [reflexivity|]. intros g Hg. apply list_elem_of_In in Hg.
      rewrite Ha by done. by destruct g.
    + intros k v. rewrite Hcr. cbn. rewrite Hempty, lookup_empty. naive_solver.
  - cbn. unfold GetParams. rewrite Hp. cbn. by destruct (DenomCreationFee (gparams gs)) as [[]|].
Qed.

End Proofs.

(** ** Witnesses *)

Section Witnesses.
Import Ref RefLaws RefBank RefBankLaws.

Let s0 : State ref_bank meter :=
  mkState (mkBank {[("bob", "uterp") := 100]}%string ∅ ∅) (NewGasMeter 1000)
    (Some (mkParams (Some [mkCoin "uterp" 10]) 50)) ∅ ∅.
Let tok : string := "factory/addrbob/tok".
Let create := MsgCreateDenom "addrbob" "tok".
Let mint := MsgMint "addrbob" (mkCoin tok 5) "addreve".
Let s1 := (handle NewKeeper create s0).2.
Let s2 := (handle NewKeeper mint s1).2.

Lemma denom_roundtrip_witness :
  DeconstructDenom "factory/addrbob/a/b" = Ok ("addrbob", "a/b")%string.
Proof.
  destruct (denom_roundtrip "addrbob" "a/b" "factory/addrbob/a/b" "bob") as [E _];
    [vm_compute; reflexivity..|]. exact E.
Defined.

Lemma only_admin_acts_witness : (handle NewKeeper (MsgMint "addreve" (mkCoin tok 5) "") s1).2 = s1.
Proof.
  apply (only_admin_acts NewKeeper (MsgMint "addreve" (mkCoin tok 5) "") s1 "addreve" tok).
  - reflexivity.
  - vm_compute. discriminate.
Defined.

Lemma ledger_effect_witness : balance (bank s2) "eve" tok = 5 /\ supply (bank s2) tok = 5.
Proof.
  destruct (ledger_effect NewKeeper mint s1 s2) as [Hb Hs].
  - vm_compute. reflexivity.
  - rewrite Hb, Hs. vm_compute. split; reflexivity.
Defined.

Lemma admin_effect_witness : admin_of s1 tok = "addrbob"%string.
Proof.
  rewrite (admin_effect NewKeeper create s0 s1 tok); vm_compute; reflexivity.
Defined.

Lemma create_denom_no_takeover_witness :
  authorities s0 !! authority_key tok = None /\ admin_of s1 tok = "addrbob"%string.
Proof.
  apply (create_denom_no_takeover NewKeeper s0 s1 "addrbob" "tok" tok).
  - by apply reach_init.
  - vm_compute. reflexivity.
  - vm_compute. reflexivity.
Defined.

Lemma update_params_unreachable_witness :
  handle NewKeeper (MsgUpdateParams "addrgov" (mkParams None 0)) s0 = (Err "ErrInvalidSigner", s0).
Proof.
  apply (update_params_unreachable (MsgUpdateParams "addrgov" (mkParams None 0)) s0 "addrgov"
    (mkParams None 0)); vm_compute; reflexivity.
Defined.

Lemma genesis_roundtrip_witness :
  let gs := mkGenesis (mkParams None 7) [mkGenesisDenom tok (mkAuth "addreve")] in
  exists s', InitGenesis gs s0 = (Ok tt, s') /\ FactoryDenoms (ExportGenesis s') ≡ₚ FactoryDenoms gs.
Proof.
  intros gs. destruct (genesis_roundtrip gs s0) as (s' & E & Hp & _).
  - vm_compute. reflexivity.
  - intros g c sub Hg. apply list_elem_of_singleton in Hg as ->. vm_compute. by intros [= <- _].
  - reflexivity.
  - exists s'. split; [exact E|exact Hp].
Defined.

End Witnesses.
