(* ===== verification/FeeShare.v ===== *)
(** * x/feeshare

    Registration of contracts for a share of transaction fees, the indexes by
    deployer and withdrawer, and the payout made by the ante decorator.  The
    theorems cover who may change a registration, the agreement of the indexes
    with the registrations, and the amounts paid, rounding included. *)

From Stdlib Require Import ZArith Lia.
From stdpp Require Import base gmap strings list sorting.
From S2P Require Import Prelude Sdk SdkRef Store Bank.

(** ** Data *)

Record FeeShare := mkFeeShare {
  ContractAddress : string;
  DeployerAddress : string;
  WithdrawerAddress : string
}.

Record Params := mkParams {
  EnableFeeShare : bool;
  DeveloperShares : option Z;
  AllowedDenoms : list string
}.

(** What the module reads of a contract from the wasm keeper. *)
Record ContractInfo := mkContractInfo { Creator : string; Admin : string }.

Record Keeper := mkKeeper { authority : string; gov_address : string }.

(** The module store: parameters, registrations by contract address, and the
    two index sets, whose keys are an account address followed by a contract
    address. *)
Record State (B : Type) := mkState {
  bank : B;
  params : option Params;
  shares : gmap string FeeShare;
  deployers : gset string;
  withdrawers : gset string
}.
Arguments mkState {B}.
Arguments bank {B}.
Arguments params {B}.
Arguments shares {B}.
Arguments deployers {B}.
Arguments withdrawers {B}.

Record GenesisState := mkGenesis { gparams : Params; gshares : list FeeShare }.

Inductive Msg :=
| MsgRegisterFeeShare (Contract Deployer Withdrawer : string)
| MsgUpdateFeeShare (Contract Deployer Withdrawer : string)
| MsgCancelFeeShare (Contract Deployer : string)
| MsgUpdateParams (Authority : string) (p : Params).

(** The messages of a transaction, as far as the decorator looks at them. *)
Inductive TxMsg := ExecuteContract (Contract : string) | OtherMsg.

Section FeeShareModel.
Context {B : Type} `{BankOps B} `{SdkMath} `{SdkCoins} `{Bech32}.

#[local] Abbreviation St := (State B).

(** ** Registrations *)

Definition addr_or_nil (text : string) : option string :=
  match AccAddressFromBech32 text with Ok a => Some a | _ => None end.

Definition GetContractAddr (fs : FeeShare) : option string := addr_or_nil (ContractAddress fs).
Definition GetDeployerAddr (fs : FeeShare) : option string := addr_or_nil (DeployerAddress fs).
Definition GetWithdrawerAddr (fs : FeeShare) : option string := addr_or_nil (WithdrawerAddress fs).

Definition NewFeeShare (contract deployer withdrawer : string) : FeeShare :=
  mkFeeShare (AccAddress_String contract) (AccAddress_String deployer)
    (AccAddress_String withdrawer).

Definition FeeShare_Validate (fs : FeeShare) : res unit :=
  AccAddressFromBech32 (ContractAddress fs);;
  AccAddressFromBech32 (DeployerAddress fs);;
  refuse (bool_decide (WithdrawerAddress fs = ""%string)) "ErrInvalidAddress";;
  AccAddressFromBech32 (WithdrawerAddress fs);;
  Ok tt.

(** ** Store access *)

Definition upd (f : St -> St) : M St unit := modify f.

Definition with_shares (f : gmap string FeeShare -> gmap string FeeShare) : M St unit :=
  upd (fun s => mkState (bank s) (params s) (f (shares s)) (deployers s) (withdrawers s)).
Definition with_deployers (f : gset string -> gset string) : M St unit :=
  upd (fun s => mkState (bank s) (params s) (shares s) (f (deployers s)) (withdrawers s)).
Definition with_withdrawers (f : gset string -> gset string) : M St unit :=
  upd (fun s => mkState (bank s) (params s) (shares s) (deployers s) (f (withdrawers s))).

Definition GetFeeShare (s : St) (contract : string) : option FeeShare := shares s !! contract.

Definition IsFeeShareRegistered (s : St) (contract : string) : bool :=
  bool_decide (is_Some (shares s !! contract)).

(** [GetContractAddr] returns an interface, whose nil value has no [Bytes]. *)
Definition SetFeeShare (fs : FeeShare) : M St unit :=
  match GetContractAddr fs with
  | Some key => with_shares (insert key fs)
  | None => panic "nil pointer dereference"
  end.

Definition DeleteFeeShare (fs : FeeShare) : M St unit :=
  match GetContractAddr fs with
  | Some key => with_shares (delete key)
  | None => panic "nil pointer dereference"
  end.

Definition index_key (account contract : string) : string := (account ++ contract)%string.

Definition SetDeployerMap (deployer contract : string) : M St unit :=
  with_deployers (fun x => {[index_key deployer contract]} ∪ x).
Definition DeleteDeployerMap (deployer contract : string) : M St unit :=
  with_deployers (fun x => x ∖ {[index_key deployer contract]}).
Definition SetWithdrawerMap (withdrawer contract : string) : M St unit :=
  with_withdrawers (fun x => {[index_key withdrawer contract]} ∪ x).
Definition DeleteWithdrawerMap (withdrawer contract : string) : M St unit :=
  with_withdrawers (fun x => x ∖ {[index_key withdrawer contract]}).

Definition IsDeployerMapSet (s : St) (deployer contract : string) : bool :=
  bool_decide (index_key deployer contract ∈ deployers s).
Definition IsWithdrawerMapSet (s : St) (withdrawer contract : string) : bool :=
  bool_decide (index_key withdrawer contract ∈ withdrawers s).

Definition GetFeeShares (s : St) : list FeeShare := map snd (iter_prefix "" (shares s)).

(** ** Parameters *)

Definition validateShares (v : option Z) : res unit :=
  match v with
  | None => Err "invalid parameter: nil"
  | Some v =>
      refuse (v <? 0) "value cannot be negative";;
      refuse (dec_one <? v) "value cannot be greater than 1"
  end.

Definition validateArray (ds : list string) : res unit :=
  refuse (existsb (fun d => bool_decide (d = ""%string)) ds) "denom cannot be blank".

Definition Params_Validate (p : Params) : res unit :=
  validateShares (DeveloperShares p);;
  validateArray (AllowedDenoms p).

Definition GetParams (s : St) : Params := default (mkParams false None []) (params s).

Definition SetParams (p : Params) : M St unit :=
  lift (Params_Validate p);;
  upd (fun s => mkState (bank s) (Some p) (shares s) (deployers s) (withdrawers s)).

Definition UpdateParams (k : Keeper) (Authority : string) (p : Params) : M St unit :=
  ensureM (bool_decide (authority k = Authority)) "ErrInvalidSigner";;
  SetParams p.

(** ** Authorisation

    [wasm] is the contract table of x/wasm; a missing entry is a nil pointer,
    which the code dereferences. *)

Definition GetIfContractWasCreatedFromFactory (k : Keeper) (wasm : gmap string ContractInfo)
    (info : option ContractInfo) : res bool :=
  match info with
  | None => Panic "nil pointer dereference"
  | Some info =>
      match AccAddressFromBech32 (Creator info) with
      | Ok creator =>
          if bool_decide (Admin info = gov_address k) then Ok true
          else if bool_decide (Admin info = ""%string)
          then Ok (bool_decide (is_Some (wasm !! creator)))
          else match AccAddressFromBech32 (Admin info) with
               | Ok admin => Ok (bool_decide (is_Some (wasm !! admin)))
               | _ => Ok false
               end
      | _ => Ok false
      end
  end.

Definition valid_address (text : string) : res string :=
  match AccAddressFromBech32 text with Ok a => Ok a | _ => Err "ErrInvalidAddress" end.

Definition GetContractAdminOrCreatorAddress (wasm : gmap string ContractInfo)
    (contract deployer : string) : res string :=
  valid_address deployer;;
  match wasm !! contract with
  | None => Panic "nil pointer dereference"
  | Some info =>
      if bool_decide (Admin info = ""%string) then
        ensure (bool_decide (Creator info = deployer)) "ErrUnauthorized";;
        valid_address (Creator info)
      else
        ensure (bool_decide (Admin info = deployer)) "ErrUnauthorized";;
        valid_address (Admin info)
  end.

(** ** The message server *)

Definition RegisterFeeShare (k : Keeper) (wasm : gmap string ContractInfo)
    (Contract Deployer Withdrawer : string) : M St unit :=
  s ← get;
  ensureM (EnableFeeShare (GetParams s)) "ErrFeeShareDisabled";;
  contract ← lift (valid_address Contract);
  refuseM (IsFeeShareRegistered s contract) "ErrFeeShareAlreadyRegistered";;
  withdrawer ← lift (valid_address Withdrawer);
  factory ← lift (GetIfContractWasCreatedFromFactory k wasm (wasm !! contract));
  deployer ←
    (if factory : bool then
       ensureM (bool_decide (Withdrawer = Contract)) "ErrFeeShareInvalidWithdrawer";;
       lift (AccAddressFromBech32 Contract)
     else lift (GetContractAdminOrCreatorAddress wasm contract Deployer));
  SetFeeShare (NewFeeShare contract deployer withdrawer);;
  SetDeployerMap deployer contract;;
  SetWithdrawerMap withdrawer contract.

Definition UpdateFeeShare (wasm : gmap string ContractInfo) (Contract Deployer Withdrawer : string)
    : M St unit :=
  s ← get;
  ensureM (EnableFeeShare (GetParams s)) "ErrFeeShareDisabled";;
  contract ← lift (valid_address Contract);
  match GetFeeShare s contract with
  | None => throw "ErrFeeShareContractNotRegistered"
  | Some feeshare =>
      refuseM (bool_decide (Withdrawer = WithdrawerAddress feeshare)) "ErrFeeShareAlreadyRegistered";;
      lift (GetContractAdminOrCreatorAddress wasm contract Deployer);;
      withdrawAddr ← lift (valid_address (WithdrawerAddress feeshare));
      newWithdrawAddr ← lift (valid_address Withdrawer);
      DeleteWithdrawerMap withdrawAddr contract;;
      SetWithdrawerMap newWithdrawAddr contract;;
      SetFeeShare (mkFeeShare (ContractAddress feeshare) (DeployerAddress feeshare)
        (AccAddress_String newWithdrawAddr))
  end.

Definition CancelFeeShare (wasm : gmap string ContractInfo) (Contract Deployer : string)
    : M St unit :=
  s ← get;
  ensureM (EnableFeeShare (GetParams s)) "ErrFeeShareDisabled";;
  contract ← lift (valid_address Contract);
  match GetFeeShare s contract with
  | None => throw "ErrFeeShareContractNotRegistered"
  | Some fee =>
      lift (GetContractAdminOrCreatorAddress wasm contract Deployer);;
      DeleteFeeShare fee;;
      DeleteDeployerMap (default ""%string (GetDeployerAddr fee)) contract;;
      match GetWithdrawerAddr fee with
      | Some withdrawAddr => DeleteWithdrawerMap withdrawAddr contract
      | None => mret tt
      end
  end.

Definition handle (k : Keeper) (wasm : gmap string ContractInfo) (m : Msg) : M St unit :=
  match m with
  | MsgRegisterFeeShare c d w => RegisterFeeShare k wasm c d w
  | MsgUpdateFeeShare c d w => UpdateFeeShare wasm c d w
  | MsgCancelFeeShare c d => CancelFeeShare wasm c d
  | MsgUpdateParams a p => UpdateParams k a p
  end.

(** ** Genesis *)

Fixpoint validate_shares (seenContract : gset string) (l : list FeeShare) : res unit :=
  match l with
  | [] => Ok tt
  | fs :: l =>
      refuse (bool_decide (ContractAddress fs ∈ seenContract)) "contract duplicated on genesis";;
      FeeShare_Validate fs;;
      validate_shares ({[ContractAddress fs]} ∪ seenContract) l
  end.

Definition GenesisState_Validate (gs : GenesisState) : res unit :=
  validate_shares ∅ (gshares gs);;
  Params_Validate (gparams gs).

Definition init_share (fs : FeeShare) : M St unit :=
  SetFeeShare fs;;
  let contract := default ""%string (GetContractAddr fs) in
  SetDeployerMap (default ""%string (GetDeployerAddr fs)) contract;;
  match GetWithdrawerAddr fs with
  | Some w => if (String.length w =? 0)%nat then mret tt else SetWithdrawerMap w contract
  | None => mret tt
  end.

Definition InitGenesis (gs : GenesisState) : M St unit :=
  (fun s => match SetParams (gparams gs) s with (Err e, s') => (Panic e, s') | r => r end);;
  forM (gshares gs) init_share.

Definition ExportGenesis (s : St) : GenesisState := mkGenesis (GetParams s) (GetFeeShares s).

(** ** The payout decorator *)

(** [FeePayLogic]'s loop over the sorted fees. *)
Fixpoint FeePayLogic_loop (fees : list Coin) (govPercent numPairs : Z) (splitFees : list Coin)
    : res (list Coin) :=
  match fees with
  | [] => Ok splitFees
  | c :: fees =>
      let rewardAmount :=
        dec_round_int (dec_quo_int64 (dec_mul_int govPercent (Amount c)) numPairs) in
      if rewardAmount =? 0 then FeePayLogic_loop fees govPercent numPairs splitFees
      else
        coin ← NewCoin (Denom c) rewardAmount;
        FeePayLogic_loop fees govPercent numPairs (coins_add splitFees [coin])
  end.

Definition FeePayLogic (fees : list Coin) (govPercent numPairs : Z) : res (list Coin) :=
  FeePayLogic_loop (coins_sort fees) govPercent numPairs [].

(** The withdraw addresses of the registered contracts a transaction executes,
    one per message. *)
Fixpoint collect_payees (s : St) (msgs : list TxMsg) : res (list string) :=
  match msgs with
  | [] => Ok []
  | OtherMsg :: msgs => collect_payees s msgs
  | ExecuteContract c :: msgs =>
      contractAddr ← AccAddressFromBech32 c;
      rest ← collect_payees s msgs;
      let shareData := default (mkFeeShare "" "" "") (GetFeeShare s contractAddr) in
      match GetWithdrawerAddr shareData with
      | Some w => if bool_decide (w = ""%string) then Ok rest else Ok (w :: rest)
      | None => Ok rest
      end
  end.

Definition allowed_fees (totalFees : list Coin) (allowedDenoms : list string) : list Coin :=
  if (length allowedDenoms =? 0)%nat then totalFees
  else foldl (fun fees fee =>
         foldl (fun fees allowed =>
                  if bool_decide (Denom fee = allowed) then coins_add fees [fee] else fees)
           fees allowedDenoms)
       [] (coins_sort totalFees).

Definition on_bank {A} (m : M B A) : M St A :=
  zoom bank (fun b s => mkState b (params s) (shares s) (deployers s) (withdrawers s)) m.

Definition pay_one (splitFees : list Coin) (withdrawAddr : string) : M St unit := fun s =>
  match on_bank (SendCoinsFromModuleToAccount "fee_collector" withdrawAddr splitFees) s with
  | (Err _, s') => (Err "ErrFeeSharePayment", s')
  | r => r
  end.

(** A nil share fails inside the decimal arithmetic. *)
Definition FeeSharePayout (totalFees : list Coin) (msgs : list TxMsg) : M St unit :=
  s ← get;
  let p := GetParams s in
  if negb (EnableFeeShare p) then mret tt
  else
    toPay ← lift (collect_payees s msgs);
    if (length toPay =? 0)%nat then mret tt
    else
      match DeveloperShares p with
      | None => panic "nil pointer dereference"
      | Some govPercent =>
          splitFees ← lift (FeePayLogic (allowed_fees totalFees (AllowedDenoms p)) govPercent
                              (Z.of_nat (length toPay)));
          forM toPay (pay_one splitFees)
      end.

Definition AnteHandle {R} (is_fee_tx : bool) (fee : list Coin) (msgs : list TxMsg)
    (next : M St R) : M St R :=
  ensureM is_fee_tx "ErrTxDecode";;
  (fun s => match FeeSharePayout fee msgs s with
            | (Err _, s') => (Err "ErrInsufficientFunds", s')
            | r => r
            end);;
  next.

(** ** Specification *)

(** The account that controls a contract: its administrator, or its creator
    when there is none. *)
Definition controller (info : ContractInfo) : string :=
  if bool_decide (Admin info = ""%string) then Creator info else Admin info.

(** The contract is run by another contract or by governance. *)
Definition from_factory (k : Keeper) (wasm : gmap string ContractInfo) (info : ContractInfo) : Prop :=
  Admin info = gov_address k \/
  exists a, AccAddressFromBech32 (controller info) = Ok a /\ is_Some (wasm !! a).

(** The registrations after a message. *)
Definition registrations_after (k : Keeper) (wasm : gmap string ContractInfo) (m : Msg) (s s' : St)
    : Prop :=
  match m with
  | MsgRegisterFeeShare C D W => exists c d w info,
      AccAddressFromBech32 C = Ok c /\ AccAddressFromBech32 W = Ok w /\ wasm !! c = Some info /\
      shares s !! c = None /\ shares s' = <[c := NewFeeShare c d w]> (shares s) /\
      ((D = controller info /\ AccAddressFromBech32 D = Ok d) \/
       (from_factory k wasm info /\ d = c /\ w = c))
  | MsgUpdateFeeShare C D W => exists c fs w info,
      AccAddressFromBech32 C = Ok c /\ AccAddressFromBech32 W = Ok w /\ wasm !! c = Some info /\
      shares s !! c = Some fs /\ D = controller info /\
      shares s' = <[c := mkFeeShare (ContractAddress fs) (DeployerAddress fs) (AccAddress_String w)]>
                    (shares s)
  | MsgCancelFeeShare C D => exists c info,
      AccAddressFromBech32 C = Ok c /\ wasm !! c = Some info /\ is_Some (shares s !! c) /\
      D = controller info /\ shares s' = delete c (shares s)
  | MsgUpdateParams a p =>
      a = authority k /\ shares s' = shares s /\ params s' = Some p /\
      exists v, DeveloperShares p = Some v /\ 0 <= v <= dec_one
  end.

(** The key set of an index agrees with the registrations. *)
Definition indexed (get : FeeShare -> option string) (ix : gset string)
    (m : gmap string FeeShare) : Prop :=
  forall key, key ∈ ix <-> exists c fs a, m !! c = Some fs /\ get fs = Some a /\ key = index_key a c.

(** Well-formed stores: a registration is stored under its contract's address,
    contract addresses have one length [n], and both indexes agree with the
    registrations. *)
Record wf (n : nat) (s : St) : Prop := {
  wf_shares : forall c fs, shares s !! c = Some fs ->
    String.length c = n /\ GetContractAddr fs = Some c /\
    is_Some (GetDeployerAddr fs) /\ is_Some (GetWithdrawerAddr fs);
  wf_deployers : indexed GetDeployerAddr (deployers s) (shares s);
  wf_withdrawers : indexed GetWithdrawerAddr (withdrawers s) (shares s)
}.

(** The withdraw address a message earns a payment for, if any. *)
Definition payee (s : St) (m : TxMsg) : option string :=
  match m with
  | OtherMsg => None
  | ExecuteContract C => c ← addr_or_nil C; fs ← shares s !! c; GetWithdrawerAddr fs
  end.

(** How often the fee in [d] is counted: once without a list of allowed
    denominations, and otherwise as often as the list names it. *)
Definition weight (p : Params) (d : string) : Z :=
  match AllowedDenoms p with
  | [] => 1
  | l => Z.of_nat (length (filter (fun x => x = d) l))
  end.

(** The amount of [d] that each of [n] payments carries. *)
Definition reward (p : Params) (fee : list Coin) (n : nat) (d : string) : Z :=
  round_half_even
    (Z.quot (default 0 (DeveloperShares p) * (weight p d * amount_of fee d)) (Z.of_nat n)) dec_one.

Definition times (a : string) (l : list string) : Z := Z.of_nat (length (filter (fun x => x = a) l)).

End FeeShareModel.

Section FeeShareProofs.
Context {B : Type} `{BankOps B} `{SdkMath} `{SdkCoins} `{Bech32} `{!Bech32Laws}.

#[local] Abbreviation St := (State B).

(** ** Registrations *)

Lemma addr_or_nil_Some t a : addr_or_nil t = Some a <-> AccAddressFromBech32 t = Ok a.
Proof. unfold addr_or_nil. destruct (AccAddressFromBech32 t); naive_solver. Qed.

Lemma valid_address_Ok t a : valid_address t = Ok a <-> AccAddressFromBech32 t = Ok a.
Proof. unfold valid_address. destruct (AccAddressFromBech32 t); naive_solver. Qed.

Lemma addr_or_nil_String a : a <> ""%string -> addr_or_nil (AccAddress_String a) = Some a.
Proof. intros. by apply addr_or_nil_Some, bech32_roundtrip. Qed.

Lemma controller_Ok wasm c D a : GetContractAdminOrCreatorAddress wasm c D = Ok a ->
  exists info, wasm !! c = Some info /\ D = controller info /\ AccAddressFromBech32 D = Ok a.
Proof.
  unfold GetContractAdminOrCreatorAddress, controller. intros E. go_inv.
  destruct (wasm !! c) as [info|]; [|done]. exists info. split; [done|].
  case_bool_decide; go_inv; subst; split; try done; by apply valid_address_Ok.
Qed.

Lemma factory_Ok k wasm info : GetIfContractWasCreatedFromFactory k wasm info = Ok true ->
  exists i, info = Some i /\ from_factory k wasm i.
Proof.
  unfold GetIfContractWasCreatedFromFactory, from_factory, controller. intros E.
  destruct info as [i|]; [|done]. exists i. split; [done|].
  destruct (AccAddressFromBech32 (Creator i)) as [cr| |] eqn:Ec; [|done..].
  case_bool_decide; [by left|right]. case_bool_decide.
  - injection E as E%bool_decide_eq_true. eauto.
  - destruct (AccAddressFromBech32 (Admin i)) as [ad| |]; [|done..].
    injection E as E%bool_decide_eq_true. eauto.
Qed.

(** Splits a successful run of a handler down to its final state. *)
Ltac fs_inv :=
  unfold SetFeeShare, DeleteFeeShare, SetDeployerMap, DeleteDeployerMap, SetWithdrawerMap,
    DeleteWithdrawerMap, with_shares, with_deployers, with_withdrawers, upd in *;
  repeat (go_inv; match goal with
  | H : valid_address _ = Ok _ |- _ => apply valid_address_Ok in H
  | H : GetContractAdminOrCreatorAddress _ _ _ = Ok _ |- _ =>
      apply controller_Ok in H as (? & ? & ? & ?)
  | H1 : AccAddressFromBech32 ?C = Ok ?a, H2 : AccAddressFromBech32 ?C = Ok ?b |- _ =>
      assert (a = b) by congruence; clear H1; subst a
  | H : GetContractAddr ?fs = _, E : match GetContractAddr ?fs with _ => _ end _ = _ |- _ =>
      rewrite H in E
  end); go_inv; simplify_eq/=.

Lemma NewFeeShare_contract c d w : c <> ""%string -> GetContractAddr (NewFeeShare c d w) = Some c.
Proof. apply addr_or_nil_String. Qed.

Lemma RegisterFeeShare_inv k wasm C D W (s s' : St) u :
  RegisterFeeShare k wasm C D W s = (Ok u, s') -> exists c d w info,
    AccAddressFromBech32 C = Ok c /\ AccAddressFromBech32 W = Ok w /\ wasm !! c = Some info /\
    shares s !! c = None /\
    s' = mkState (bank s) (params s) (<[c := NewFeeShare c d w]> (shares s))
           ({[index_key d c]} ∪ deployers s) ({[index_key w c]} ∪ withdrawers s) /\
    d <> ""%string /\
    ((D = controller info /\ AccAddressFromBech32 D = Ok d) \/
     (from_factory k wasm info /\ d = c /\ w = c)).
Proof.
  unfold RegisterFeeShare. intros E. go_inv.
  match goal with Hv : valid_address C = Ok ?x |- _ => rename x into c; apply valid_address_Ok in Hv end.
  pose proof (bech32_nonempty C c ltac:(done)).
  pose proof (fun d w => NewFeeShare_contract c d w ltac:(done)) as HN.
  unfold IsFeeShareRegistered in *.
  match goal with H : (if ?f then _ else _) _ = _ |- _ => rename H into Hd; rename f into fac end.
  destruct fac.
  - match goal with H : _ = Ok true |- _ => apply factory_Ok in H as (i & ? & ?) end.
    fs_inv. rewrite HN in *. fs_inv.
    do 3 eexists. exists i. split_and!; try done; [|by right].
    by apply eq_None_not_Some.
  - fs_inv. rewrite HN in *. fs_inv.
    do 4 eexists. split_and!; try done; [| |by left]; [by apply eq_None_not_Some|].
    by eapply bech32_nonempty.
Qed.

(** What the wasm contract table and the store agree on at the keys a handler
    touches, once the store is well formed. *)
Lemma UpdateFeeShare_inv n wasm C D W (s s' : St) u : wf n s ->
  UpdateFeeShare wasm C D W s = (Ok u, s') -> exists c fs a w info,
    AccAddressFromBech32 C = Ok c /\ AccAddressFromBech32 W = Ok w /\ wasm !! c = Some info /\
    shares s !! c = Some fs /\ D = controller info /\ GetWithdrawerAddr fs = Some a /\
    s' = mkState (bank s) (params s)
           (<[c := mkFeeShare (ContractAddress fs) (DeployerAddress fs) (AccAddress_String w)]> (shares s))
           (deployers s) ({[index_key w c]} ∪ (withdrawers s ∖ {[index_key a c]})).
Proof.
  unfold UpdateFeeShare, GetFeeShare. intros Hwf E. go_inv.
  match goal with Hv : valid_address C = Ok ?x |- _ => rename x into c; apply valid_address_Ok in Hv end.
  destruct (shares _ !! c) as [fs|] eqn:Ec; [|done].
  destruct (wf_shares n _ Hwf c fs Ec) as (_ & Hc & _ & _).
  assert (forall w, GetContractAddr (mkFeeShare (ContractAddress fs) (DeployerAddress fs) w) = Some c)
    as HN by done.
  fs_inv. rewrite HN in *. fs_inv. do 5 eexists. split_and!; try done. by apply addr_or_nil_Some.
Qed.

Lemma CancelFeeShare_inv n wasm C D (s s' : St) u : wf n s ->
  CancelFeeShare wasm C D s = (Ok u, s') -> exists c fs d w info,
    AccAddressFromBech32 C = Ok c /\ wasm !! c = Some info /\
    shares s !! c = Some fs /\ D = controller info /\
    GetDeployerAddr fs = Some d /\ GetWithdrawerAddr fs = Some w /\
    s' = mkState (bank s) (params s) (delete c (shares s))
           (deployers s ∖ {[index_key d c]}) (withdrawers s ∖ {[index_key w c]}).
Proof.
  unfold CancelFeeShare, GetFeeShare. intros Hwf E. go_inv.
  match goal with Hv : valid_address C = Ok ?x |- _ => rename x into c; apply valid_address_Ok in Hv end.
  destruct (shares _ !! c) as [fs|] eqn:Ec; [|done].
  destruct (wf_shares n _ Hwf c fs Ec) as (_ & Hc & [d Hd] & [w Hw]).
  unfold DeleteFeeShare in *. rewrite Hc, Hw, Hd in *. fs_inv.
  do 5 eexists. split_and!; done.
Qed.

(** ** The indexes *)

Lemma index_key_inj a1 a2 c1 c2 : String.length c1 = String.length c2 ->
  index_key a1 c1 = index_key a2 c2 -> a1 = a2 /\ c1 = c2.
Proof. apply string_app_inj_len. Qed.

Section Index.
Context (n : nat) (get : FeeShare -> option string) (ix : gset string) (m : gmap string FeeShare).
Hypothesis (Hlen : forall c fs, m !! c = Some fs -> String.length c = n) (Hix : indexed get ix m).

Lemma indexed_insert c fs a : String.length c = n -> m !! c = None -> get fs = Some a ->
  indexed get ({[index_key a c]} ∪ ix) (<[c := fs]> m).
Proof.
  intros Hc Hm Ha key. rewrite elem_of_union, elem_of_singleton, (Hix key). split.
  - intros [->|(c' & fs' & a' & ? & ? & ->)]; [exists c, fs, a; by rewrite lookup_insert_eq|].
    exists c', fs', a'. by rewrite lookup_insert_ne by congruence.
  - intros (c' & fs' & a' & Hl & ? & ->). apply lookup_insert_Some in Hl as [[<- <-]|[? ?]].
    + left. congruence.
    + right. eauto 10.
Qed.

Lemma indexed_delete c fs a : m !! c = Some fs -> get fs = Some a ->
  indexed get (ix ∖ {[index_key a c]}) (delete c m).
Proof.
  intros Hm Ha key. rewrite elem_of_difference, elem_of_singleton, (Hix key). split.
  - intros [(c' & fs' & a' & ? & ? & ->) Hne]. exists c', fs', a'.
    rewrite lookup_delete_ne; [done|]. intros <-. apply Hne. congruence.
  - intros (c' & fs' & a' & Hl & ? & ->). apply lookup_delete_Some in Hl as [? ?].
    split; [eauto 10|]. intros [_ E]%index_key_inj; [done|]. by erewrite !Hlen by done.
Qed.

(** A change of registration that keeps the indexed account. *)
Lemma indexed_same c fs fs' : m !! c = Some fs -> get fs' = get fs ->
  indexed get ix (<[c := fs']> m).
Proof.
  intros Hm Ha key. rewrite (Hix key). split.
  - intros (c' & x & a' & ? & ? & ->). destruct (decide (c' = c)) as [->|].
    + exists c, fs', a'. rewrite lookup_insert_eq. split_and!; congruence.
    + exists c', x, a'. by rewrite lookup_insert_ne by done.
  - intros (c' & x & a' & Hl & ? & ->). apply lookup_insert_Some in Hl as [[<- <-]|[? ?]].
    + exists c, fs, a'. split_and!; congruence.
    + eauto 10.
Qed.

End Index.

(** A handler that fails leaves a well-formed store as it was. *)
Lemma handle_fail n k wasm m (s : St) : wf n s -> atomic (handle k wasm m) s.
Proof.
  intros Hwf. destruct m; cbn [handle].
  - unfold RegisterFeeShare, SetFeeShare. atomic_guards. apply atomic_bind.
    { case_match; [go_run; by case_bool_decide|done]. }
    intros d _. case_match; [by apply atomic_total|done].
  - unfold UpdateFeeShare, GetFeeShare. atomic_guards. case_match eqn:Ec; [|done].
    apply (wf_shares n _ Hwf) in Ec as (_ & Hc & _ & _). atomic_guards. apply atomic_total.
    unfold SetFeeShare. change (GetContractAddr (mkFeeShare _ _ _)) with (GetContractAddr f).
    by rewrite Hc.
  - unfold CancelFeeShare, GetFeeShare. atomic_guards. case_match eqn:Ec; [|done].
    apply (wf_shares n _ Hwf) in Ec as (_ & Hc & _ & _). atomic_guards. apply atomic_total.
    unfold DeleteFeeShare. rewrite Hc. by destruct (GetWithdrawerAddr f).
  - unfold UpdateParams, SetParams. atomic_guards. by apply atomic_total.
Qed.

Lemma RegisterFeeShare_wf n k wasm C D W (s s' : St) u :
  (forall c, is_Some (wasm !! c) -> String.length c = n) -> wf n s ->
  RegisterFeeShare k wasm C D W s = (Ok u, s') -> wf n s'.
Proof.
  intros Hn [Hs Hd Hw] (c & d & w & info & HC & HW & Hi & Hnone & -> & Hdne & _)%RegisterFeeShare_inv.
  pose proof (bech32_nonempty _ _ HC). pose proof (bech32_nonempty _ _ HW).
  assert (String.length c = n) by (apply Hn; eauto).
  assert (GetDeployerAddr (NewFeeShare c d w) = Some d) by by apply addr_or_nil_String.
  assert (GetWithdrawerAddr (NewFeeShare c d w) = Some w) by by apply addr_or_nil_String.
  split; cbn; [|by eapply (indexed_insert n)..].
  intros c' fs' [[<- <-]|[? ?]]%lookup_insert_Some; [|by apply Hs].
  split_and!; [done|by apply NewFeeShare_contract|eauto..].
Qed.

Lemma UpdateFeeShare_wf n wasm C D W (s s' : St) u : wf n s ->
  UpdateFeeShare wasm C D W s = (Ok u, s') -> wf n s'.
Proof.
  intros Hwf (c & fs & a & w & info & HC & HW & Hi & Hc & _ & Ha & ->)%(UpdateFeeShare_inv n); [|done].
  destruct Hwf as [Hs Hd Hw]. pose proof (bech32_nonempty _ _ HW).
  destruct (Hs c fs Hc) as (Hl & ? & ? & _).
  set (fs' := mkFeeShare _ _ _).
  assert (GetWithdrawerAddr fs' = Some w) by by apply addr_or_nil_String.
  split; cbn.
  - intros c' fs1 [[<- <-]|[? ?]]%lookup_insert_Some; [|by apply Hs]. by split_and!; eauto.
  - by eapply indexed_same.
  - rewrite <- insert_delete_eq. eapply (indexed_insert n); try done.
    + by eapply (indexed_delete n); [|done..]; intros ? ? [? _]%Hs.
    + apply lookup_delete_eq.
Qed.

Lemma CancelFeeShare_wf n wasm C D (s s' : St) u : wf n s ->
  CancelFeeShare wasm C D s = (Ok u, s') -> wf n s'.
Proof.
  intros Hwf (c & fs & d & w & info & HC & Hi & Hc & _ & Hfd & Hfw & ->)%(CancelFeeShare_inv n); [|done].
  destruct Hwf as [Hs Hd Hw].
  split; cbn; [intros c' fs' [_ ?]%lookup_delete_Some; by apply Hs|..];
    by eapply (indexed_delete n); [|done..]; intros ? ? [? _]%Hs.
Qed.

(** C39: the indexes by deployer and by withdrawer list exactly the registered
    contracts, whatever messages are handled and whether or not they succeed:
    a handler takes a well-formed store to a well-formed store, provided that
    contract addresses, as x/wasm makes them, all have the same length. *)
Theorem handle_keeps_indexes n k wasm m (s : St) :
  (forall c, is_Some (wasm !! c) -> String.length c = n) -> wf n s -> wf n (handle k wasm m s).2.
Proof.
  intros Hn Hwf. pose proof (handle_fail n k wasm m s Hwf) as Hfail. unfold atomic in Hfail.
  destruct (handle k wasm m s) as [[u|e|p] s'] eqn:E; cbn in *; [|by rewrite Hfail..].
  destruct m; cbn in E.
  - by eapply RegisterFeeShare_wf.
  - by eapply UpdateFeeShare_wf.
  - by eapply CancelFeeShare_wf.
  - unfold UpdateParams, SetParams, upd in E. go_inv. destruct Hwf; by split.
Qed.

Lemma Params_Validate_Ok p u : Params_Validate p = Ok u ->
  exists v, DeveloperShares p = Some v /\ 0 <= v <= dec_one.
Proof.
  unfold Params_Validate, validateShares. intros E. go_inv.
  destruct (DeveloperShares p) as [v|]; [|done]. go_inv. exists v. split; [done|].
  rewrite Z.ltb_ge in *. lia.
Qed.

(** A successful message changes the registrations only as its sender may:
    an unregistered contract is entered by its administrator (its creator when
    it has none), or by anyone when another contract or governance runs it, the
    payments then going to the contract itself; only the administrator (or
    creator) redirects or removes a registration; only the authority changes
    the parameters, to a developer share between 0 and 1. *)
Theorem registrations_authorised n k wasm m (s s' : St) u :
  wf n s -> handle k wasm m s = (Ok u, s') -> registrations_after k wasm m s s'.
Proof.
  intros Hwf E. destruct m; cbn in E |- *.
  - apply RegisterFeeShare_inv in E as (c & d & w & info & ? & ? & ? & ? & -> & ? & ?).
    by exists c, d, w, info.
  - apply (UpdateFeeShare_inv n) in E as (c & fs & a & w & info & ? & ? & ? & ? & ? & ? & ->); [|done].
    by exists c, fs, w, info.
  - apply (CancelFeeShare_inv n) in E as (c & fs & d & w & info & ? & ? & ? & ? & ? & ? & ->); [|done].
    exists c, info. by eauto.
  - unfold UpdateParams, SetParams, upd in E. go_inv. split_and!; try done.
    by eapply Params_Validate_Ok.
Qed.

(** ** Payments *)

Context `{!SdkMathLaws, !SdkCoinsLaws, !BankLaws B}.

Definition split_amount (g n a : Z) : Z := round_half_even (Z.quot (g * a) n) dec_one.

Lemma coins_add_single acc d a d' : coins_ok acc -> 0 < a ->
  coins_ok (coins_add acc [mkCoin d a]) /\
  amount_of (coins_add acc [mkCoin d a]) d' = amount_of acc d' + if decide (d = d') then a else 0.
Proof.
  intros Hacc Ha. destruct (coins_add_spec acc [mkCoin d a] d' Hacc (coins_ok_single d a Ha)) as [? ->].
  split; [done|]. cbn. case_decide; lia.
Qed.

Lemma split_amount_0 g n : n <> 0 -> split_amount g n 0 = 0.
Proof.
  intros. unfold split_amount. rewrite Z.mul_0_r, Z.quot_0_l by done.
  by apply (round_half_even_exact 0).
Qed.

Lemma FeePayLogic_loop_amount g n fees acc r d : n <> 0 ->
  NoDup (denoms fees) -> coins_ok acc -> FeePayLogic_loop fees g n acc = Ok r ->
  coins_ok r /\ amount_of r d = amount_of acc d + split_amount g n (amount_of fees d).
Proof.
  intros Hn. revert acc. induction fees as [|c fees IH]; intros acc Hnd Hacc E; cbn in E.
  - injection E as <-. split; [done|]. cbn. rewrite split_amount_0 by done. lia.
  - cbn in Hnd. apply NoDup_cons in Hnd as [Hc Hnd].
    rewrite dec_round_int_spec, dec_quo_int64_spec, dec_mul_int_spec in E by done.
    fold (split_amount g n (Amount c)) in E.
    assert (split_amount g n (amount_of (c :: fees) d) =
            (if decide (Denom c = d) then split_amount g n (Amount c) else 0)
            + split_amount g n (amount_of fees d)) as ->.
    { cbn. case_decide; [subst|lia].
      rewrite amount_of_not_in by done. rewrite split_amount_0 by done. by rewrite !Z.add_0_r. }
    destruct (Z.eqb_spec (split_amount g n (Amount c)) 0) as [E0|Hne].
    + apply IH in E as [? ->]; [|done..]. split; [done|]. rewrite E0. case_decide; lia.
    + go_inv. match goal with H : NewCoin _ _ = Ok _ |- _ => apply NewCoin_inv in H as [-> ?] end.
      destruct (coins_add_single acc (Denom c) (split_amount g n (Amount c)) d) as [Hok Hamt];
        [done|lia|].
      match goal with H : FeePayLogic_loop _ _ _ _ = _ |- _ => apply IH in H as [? ->]; [|done..] end.
      split; [done|]. rewrite Hamt. lia.
Qed.

Lemma FeePayLogic_amount g n fees r d : n <> 0 -> coins_ok fees -> FeePayLogic fees g n = Ok r ->
  coins_ok r /\ amount_of r d = split_amount g n (amount_of fees d).
Proof.
  intros Hn [Hs _] E. unfold FeePayLogic in E. rewrite coins_sort_id in E by done.
  by apply (FeePayLogic_loop_amount g n fees [] r d) in E; [|eauto with terp..].
Qed.

Lemma split_amount_bound g n a : 0 < n -> 0 <= g * a ->
  2 * Z.abs (n * split_amount g n a * dec_one - g * a) <= n * dec_one + 2 * n.
Proof.
  intros Hn Hga. unfold split_amount.
  pose proof (round_half_even_nearest (Z.quot (g * a) n) dec_one ltac:(done)) as Hr.
  set (q := Z.quot (g * a) n) in *. set (r := round_half_even q dec_one) in *.
  assert (0 <= g * a - n * q < n).
  { pose proof (Z.quot_rem (g * a) n ltac:(lia)). pose proof (Z.rem_bound_pos (g * a) n Hga Hn).
    unfold q. lia. }
  assert (n * r * dec_one - g * a = n * (r * dec_one - q) - (g * a - n * q)) as -> by lia.
  assert (2 * Z.abs (n * (r * dec_one - q)) <= n * dec_one) by (rewrite Z.abs_mul; nia).
  lia.
Qed.

Lemma split_amount_nonneg g n a : 0 < n -> 0 <= g * a -> 0 <= split_amount g n a.
Proof.
  intros Hn Hga. unfold split_amount.
  pose proof (round_half_even_nearest (Z.quot (g * a) n) dec_one ltac:(done)) as Hr.
  pose proof (Z.quot_pos (g * a) n Hga Hn).
  assert (0 < dec_one) by done. nia.
Qed.

Lemma FeePayLogic_loop_total g n fees acc : 0 < n -> 0 <= g ->
  Forall (fun x => ValidateDenom (Denom x) = true /\ 0 < Amount x) fees ->
  exists r, FeePayLogic_loop fees g n acc = Ok r.
Proof.
  intros Hn Hg Hf. revert acc. induction Hf as [|c fees [Hd Ha] Hf IH]; intros acc; cbn; [eauto|].
  rewrite dec_round_int_spec, dec_quo_int64_spec, dec_mul_int_spec by lia.
  destruct (_ =? 0); [apply IH|].
  rewrite NewCoin_ok; [apply IH|done|]. apply split_amount_nonneg; [done|nia].
Qed.

(** A split of valid fees between [n] payments always succeeds, and what
    the payments take together differs from the developer share by at most
    half a unit (and the last decimal place) per payment. *)
Theorem fee_split_near_share fees g n :
  0 < n -> 0 <= g -> coins_ok fees -> Forall (fun x => ValidateDenom (Denom x) = true) fees ->
  exists r, FeePayLogic fees g n = Ok r /\ coins_ok r /\ forall d,
    2 * Z.abs (n * amount_of r d * dec_one - g * amount_of fees d) <= n * dec_one + 2 * n.
Proof.
  intros Hn Hg Hok Hv. destruct (FeePayLogic_loop_total g n (coins_sort fees) [] Hn Hg) as [r Hr].
  { destruct Hok as [Hs Hp]. rewrite coins_sort_id by done. by apply Forall_and. }
  change (FeePayLogic fees g n = Ok r) in Hr. exists r. split; [done|]. split.
  - by eapply (FeePayLogic_amount g n fees r ""%string); [lia|..].
  - intros d. destruct (FeePayLogic_amount g n fees r d ltac:(lia) Hok Hr) as [_ ->].
    apply split_amount_bound; [done|].
    pose proof (amount_of_nonneg fees d (proj2 Hok)). nia.
Qed.

(** Adding one fee once for each time the list names it. *)
Lemma add_allowed x l acc d : coins_ok acc -> 0 < Amount x ->
  let r := foldl (fun fees allowed =>
             if bool_decide (Denom x = allowed) then coins_add fees [x] else fees) acc l in
  coins_ok r /\ amount_of r d = amount_of acc d +
    (if decide (Denom x = d) then Z.of_nat (length (filter (fun y => y = d) l)) * Amount x else 0).
Proof.
  intros Hacc Hx. revert acc Hacc. induction l as [|y l IH]; intros acc Hacc.
  - cbn. split; [done|]. case_decide; lia.
  - cbn [foldl]. case_bool_decide as E.
    + destruct x as [dx ax]. cbn [Denom Amount] in *. subst y.
      destruct (coins_add_single acc dx ax d Hacc Hx) as [Hok Ha].
      destruct (IH _ Hok) as [? ->]. split; [done|]. rewrite Ha, filter_cons.
      repeat case_decide; cbn; try done; lia.
    + destruct (IH _ Hacc) as [? ->]. split; [done|]. rewrite filter_cons.
      repeat case_decide; cbn; subst; try done; lia.
Qed.

Lemma allowed_fees_amount fee p d : coins_ok fee ->
  coins_ok (allowed_fees fee (AllowedDenoms p)) /\
  amount_of (allowed_fees fee (AllowedDenoms p)) d = weight p d * amount_of fee d.
Proof.
  intros Hfee. unfold allowed_fees, weight. destruct (AllowedDenoms p) as [|a l]; cbn [length Nat.eqb].
  { split; [done|lia]. }
  rewrite coins_sort_id by apply Hfee. set (al := a :: l).
  assert (forall fee acc, Forall (fun x => 0 < Amount x) fee -> coins_ok acc ->
    let r := foldl (fun fees fee => foldl (fun fees allowed =>
               if bool_decide (Denom fee = allowed) then coins_add fees [fee] else fees) fees al) acc fee in
    coins_ok r /\ amount_of r d = amount_of acc d +
      Z.of_nat (length (filter (fun y => y = d) al)) * amount_of fee d) as Hgen.
  { clear fee Hfee. intros fee acc Hpos. revert acc. induction Hpos as [|x fee Hx Hpos IH]; intros acc Hacc.
    - cbn. split; [done|lia].
    - cbn [foldl]. destruct (add_allowed x al acc d Hacc Hx) as [Hok Ha].
      destruct (IH _ Hok) as [? E]. split; [done|]. rewrite E, Ha. cbn. case_decide; lia. }
  destruct (Hgen fee [] (proj2 Hfee) coins_ok_nil) as [? E]. split; [done|]. rewrite E. cbn. lia.
Qed.

Lemma collect_payees_Ok (s : St) msgs l : collect_payees s msgs = Ok l -> l = omap (payee s) msgs.
Proof.
  revert l. induction msgs as [|[C|] msgs IH]; intros l E; cbn in E; [by injection E as <-| |by apply IH].
  go_inv. match goal with H : collect_payees _ _ = _ |- _ => apply IH in H as -> end.
  match goal with H : AccAddressFromBech32 C = Ok ?x |- _ =>
    apply addr_or_nil_Some in H; rename x into c; rename H into Hc end.
  match goal with H : _ = Ok l |- _ => rename H into E end.
  unfold GetFeeShare in *. cbn. rewrite Hc. cbn.
  destruct (shares s !! c) as [fs|]; cbn in *.
  - destruct (GetWithdrawerAddr fs) as [w|] eqn:Ew; [|by injection E as <-].
    apply addr_or_nil_Some, bech32_nonempty in Ew. rewrite bool_decide_false in E by done.
    by injection E as <-.
  - unfold GetWithdrawerAddr, addr_or_nil in E. cbn in E. pose proof bech32_empty as He.
    destruct (AccAddressFromBech32 ""); cbn in He; [done|by injection E as <-..].
Qed.

Lemma times_cons a x l : times a (x :: l) = (if decide (x = a) then 1 else 0) + times a l.
Proof. unfold times. rewrite filter_cons. case_decide; cbn; lia. Qed.

(** The rest of the store, which payments do not touch. *)
Definition same_store (s s' : St) : Prop :=
  params s' = params s /\ shares s' = shares s /\ deployers s' = deployers s /\
  withdrawers s' = withdrawers s.

Lemma pay_all_effect c l (s s' : St) u : forM l (pay_one c) s = (Ok u, s') ->
  (forall a d, balance (bank s') a d = balance (bank s) a d + amount_of c d *
     (times a l - if decide (a = module_address "fee_collector") then Z.of_nat (length l) else 0)) /\
  (forall d, supply (bank s') d = supply (bank s) d) /\ same_store s s'.
Proof.
  revert s. induction l as [|w l IH]; intros s E.
  - cbn [forM] in E. go_inv. split_and!; try done. intros. unfold times. cbn. case_decide; lia.
  - cbn [forM] in E. go_inv.
    match goal with H : forM l _ _ = _ |- _ => apply IH in H as (Hb & Hs & Hss) end.
    match goal with H : pay_one _ _ _ = _ |- _ => rename H into Hp end.
    unfold pay_one, on_bank, zoom in Hp.
    destruct (SendCoinsFromModuleToAccount _ _ _ _) as [[[]| |] b'] eqn:Es; simplify_eq/=.
    apply SendFromModule_ok in Es as (Hb' & Hs' & _).
    split_and!; [|congruence|exact Hss].
    intros a d. rewrite Hb. cbn. rewrite Hb', times_cons. unfold flow.
    repeat case_decide; subst; try done; lia.
Qed.

(** C15: when fee sharing is on, a payout that succeeds moves exactly the
    specified reward from the fee collector to the withdraw address of each
    executed registered contract, once per message, and nothing else; the
    supply, the parameters and the registrations stay as they were. *)
Theorem payout_effect fee msgs (s s' : St) u :
  coins_ok fee -> FeeSharePayout fee msgs s = (Ok u, s') ->
  let l := omap (payee s) msgs in
  let p := GetParams s in
  (forall a d, balance (bank s') a d = balance (bank s) a d +
     if EnableFeeShare p then
       reward p fee (length l) d *
       (times a l - if decide (a = module_address "fee_collector") then Z.of_nat (length l) else 0)
     else 0) /\
  (forall d, supply (bank s') d = supply (bank s) d) /\ same_store s s'.
Proof.
  intros Hfee E l p. unfold FeeSharePayout in E. unfold mbind at 1, M_bind at 1, get in E. unfold p.
  destruct (EnableFeeShare (GetParams s)) eqn:Hen; cbn [negb] in E;
    [|go_inv; split_and!; try done; intros; lia].
  apply bind_Ok in E as (l0 & s1 & Hl & E). apply lift_Ok in Hl as [->%collect_payees_Ok <-].
  fold l in E. destruct l as [|w l'] eqn:El; cbn [length Nat.eqb] in E.
  { go_inv. split_and!; try done. intros. unfold times. cbn. case_decide; lia. }
  destruct (DeveloperShares (GetParams s)) as [g|] eqn:Eg; [|done].
  apply bind_Ok in E as (r & s1 & Hr & E). apply lift_Ok in Hr as [Hr <-].
  apply pay_all_effect in E as (Hb & Hs & Hss).
  split_and!; [|done|exact Hss]. intros a d. rewrite Hb. f_equal. f_equal.
  destruct (allowed_fees_amount fee (GetParams s) d Hfee) as [Hok Ha].
  apply (FeePayLogic_amount _ _ _ _ d) in Hr as [_ ->]; [|cbn; lia|done].
  unfold reward, split_amount. by rewrite Ha, Eg.
Qed.

End FeeShareProofs.

(** ** Rounding and repeated denominations *)

Section Examples.
Import Ref RefLaws RefBank RefBankLaws.

#[local] Abbreviation contract := "contract"%string.

Definition example_info : ContractInfo := mkContractInfo (AccAddress_String "creator") "".
Definition example_wasm : gmap string ContractInfo := {[contract := example_info]}.
Definition example_keeper : Keeper := mkKeeper "gov" (AccAddress_String "gov").
Definition example_params (share : Z) (l : list string) : Params := mkParams true (Some share) l.

Definition example_bank : ref_bank := mkBank {[(mod_addr "fee_collector", "uterp") := 10]} ∅ ∅.

Definition empty_store (p : Params) : State ref_bank := mkState example_bank (Some p) ∅ ∅ ∅.

(** The store after its creator has registered the contract. *)
Definition registered (p : Params) : State ref_bank :=
  (RegisterFeeShare example_keeper example_wasm (AccAddress_String contract)
     (AccAddress_String "creator") (AccAddress_String "dev") (empty_store p)).2.

Lemma wf_empty n p : wf n (empty_store p).
Proof. split; [done|..]; by split; [|intros (? & ? & ? & ? & ?)]. Qed.

Lemma example_wasm_length c : is_Some (example_wasm !! c) -> String.length c = 8%nat.
Proof. unfold example_wasm. intros [i [<- _]%lookup_singleton_Some]. done. Qed.

Lemma handle_keeps_indexes_witness :
  wf 8 (handle example_keeper example_wasm
    (MsgRegisterFeeShare (AccAddress_String contract) (AccAddress_String "creator")
       (AccAddress_String "dev")) (empty_store (example_params dec_one []))).2.
Proof. apply handle_keeps_indexes; [apply example_wasm_length|apply wf_empty]. Defined.

Lemma registrations_authorised_witness :
  registrations_after example_keeper example_wasm
    (MsgRegisterFeeShare (AccAddress_String contract) (AccAddress_String "creator")
       (AccAddress_String "dev"))
    (empty_store (example_params dec_one [])) (registered (example_params dec_one [])).
Proof. by eapply (registrations_authorised 8); [apply wf_empty|]. Defined.

Lemma fee_split_near_share_witness : exists r,
  FeePayLogic [mkCoin "uterp" 3] dec_one 2 = Ok r /\ coins_ok r /\ forall d,
    2 * Z.abs (2 * amount_of r d * dec_one - dec_one * amount_of [mkCoin "uterp" 3] d)
    <= 2 * dec_one + 2 * 2.
Proof. apply fee_split_near_share; [done..|by apply coins_ok_single|by repeat constructor]. Defined.

#[local] Abbreviation run := (ExecuteContract (AccAddress_String contract)).

Lemma payout_effect_witness :
  let s := registered (example_params dec_one []) in
  let s' := (FeeSharePayout [mkCoin "uterp" 3] [run] s).2 in
  balance (bank s') "dev" "uterp" = balance (bank s) "dev" "uterp" + 3.
Proof.
  intros s s'.
  destruct (payout_effect [mkCoin "uterp" 3] [run] s s' tt) as [Hb _];
    [by apply coins_ok_single|by vm_compute|].
  by rewrite (Hb "dev"%string "uterp"%string).
Defined.

(** Rounding each payment to the nearest unit can pay out more than the
    fee: with a share of 100%, a fee of 3 split between two payments pays 2
    twice, and the fourth unit is taken from earlier fees in the collector. *)
Theorem payout_exceeds_fee :
  let s := registered (example_params dec_one []) in
  let s' := (FeeSharePayout [mkCoin "uterp" 3] [run; run] s).2 in
  (FeeSharePayout [mkCoin "uterp" 3] [run; run] s).1 = Ok tt /\
  balance (bank s') "dev" "uterp" = balance (bank s) "dev" "uterp" + 4.
Proof. by vm_compute. Qed.

(** The parameter check accepts a list of allowed denominations with a
    repeated entry, and the fee then counts once per entry: at a share of 100%
    a fee of 3 pays out 6. *)
Theorem repeated_denom_counts_twice :
  let p := example_params dec_one ["uterp"; "uterp"] in
  let s := registered p in
  let s' := (FeeSharePayout [mkCoin "uterp" 3] [run] s).2 in
  Params_Validate p = Ok tt /\
  (FeeSharePayout [mkCoin "uterp" 3] [run] s).1 = Ok tt /\
  balance (bank s') "dev" "uterp" = balance (bank s) "dev" "uterp" + 6.
Proof. by vm_compute. Qed.

End Examples.
