(* ===== verification/HmOracle.v ===== *)
(** * x/hashmerchant: attestations and vote extensions

    The module's data and store, the signed payload and the aggregate root of
    oracle attestations, the vote extension a validator builds from its
    sidecar's answer, and the check other validators make of it. *)

From Stdlib Require Import ZArith Lia Ascii.
From stdpp Require Import base gmap strings list sorting.
From S2P Require Import Prelude Sdk Store GoLib.

(** ** Data *)

Record CustodyAuthenticator := mkAuthenticator {
  Pubkey : string;
  Algorithm : string;
  Scope : string
}.

Record OracleSource := mkSource {
  SrcId : string;
  Authenticator : option CustodyAuthenticator;
  SrcEnabled : bool
}.

Record OracleAttestation := mkAttestation {
  SourceId : string;
  Value : string;
  Height : Z;
  Timestamp : Z;
  CustodySignature : string
}.

Record RegisteredChain := mkChain {
  ChainUid : string;
  ChainEnabled : bool;
  OracleSources : list (option OracleSource)
}.

Record RegisteredContract := mkContract {
  ContractAddr : string;
  ContractChain : string;
  SubstoreKeys : list string;
  ContractEnabled : bool
}.

Record EscrowRecord := mkEscrow {
  EscrowContract : string;
  EscrowAmount : Coin;
  PaidUntilHeight : Z
}.

Record HashRoot := mkHashRoot {
  RootChain : string;
  RootAlgo : string;
  RootHeight : Z;
  Root : string;
  AttestationCount : Z;
  BlockTime : Z;
  RootAttestations : list OracleAttestation
}.

Record VoteExtensionHashData := mkExtension {
  VeChainUid : string;
  VeAlgo : string;
  VeRoot : string;
  ForeignHeight : Z;
  ForeignBlockTime : Z;
  Ics23Proof : string;
  VeAttestations : list (option OracleAttestation)
}.

Record Params := mkParams {
  QuorumFraction : Z;
  PruneInterval : Z;
  EscrowDenom : string;
  MinEscrowAmount : Z;
  ContractGasLimit : Z
}.

(** The module store over the rest of the chain, [W].  The prune height is
    kept under the key that the oracle sources of an empty chain identifier
    would have; messages and genesis validation refuse such an identifier. *)
Record State (W : Type) := mkState {
  world : W;
  params : option Params;
  chains : gmap string RegisteredChain;
  contracts : gmap string RegisteredContract;
  escrows : gmap string EscrowRecord;
  roots : gmap string HashRoot;
  prune_epoch : Z;
  sources : gmap string (list OracleSource)
}.
Arguments mkState {W}.
Arguments world {W}.
Arguments params {W}.
Arguments chains {W}.
Arguments contracts {W}.
Arguments escrows {W}.
Arguments roots {W}.
Arguments prune_epoch {W}.
Arguments sources {W}.

(** The decoded answer of the sidecar. *)
Record sidecarAttestationJSON := mkSidecarAttestation {
  jSourceID : string;
  jValue : string;
  jHeight : Z;
  jTimestamp : Z;
  jCustodySignature : string
}.

Record sidecarResponse := mkSidecarResponse {
  jChainUID : string;
  jAlgo : string;
  jRoot : string;
  jForeignHeight : Z;
  jForeignBlockTime : Z;
  jAttestations : list sidecarAttestationJSON
}.

Inductive status := ACCEPT | REJECT.

(** ** Code outside the module: hashing, signatures and codecs *)

Class HmExternal := {
  sha256 : string -> string;
  ed25519_verify : string -> string -> string -> bool;
  ve_marshal : VoteExtensionHashData -> res string;
  ve_unmarshal : string -> res VoteExtensionHashData;
  bundle_unmarshal : string -> res (list OracleAttestation)
}.

Section OracleModel.
Context `{HmExternal} `{SliceSort} {W : Type}.

(** ** Parameters *)

Definition SudoMemoryLimitBytes : Z := Z.shiftl 32 20.
Definition DefaultContractGasLimit : Z := SudoMemoryLimitBytes * 3.

Definition DefaultParams : Params :=
  mkParams 667000000000000000 1000 "uterp" 1000000 DefaultContractGasLimit.

Definition SudoGasLimit (p : Params) : Z :=
  if ContractGasLimit p =? 0 then DefaultContractGasLimit else ContractGasLimit p.

Definition Params_Validate (p : Params) : res unit :=
  refuse ((QuorumFraction p <? 0) || (dec_one <? QuorumFraction p)) "ErrInvalidParams";;
  refuse (PruneInterval p =? 0) "ErrInvalidParams";;
  refuse (bool_decide (EscrowDenom p = ""%string)) "ErrInvalidParams";;
  refuse (MinEscrowAmount p <? 0) "ErrInvalidParams".

Definition GetParams (s : State W) : Params := default DefaultParams (params s).

(** ** Signed attestations *)

Definition custodyDomain (scope sourceID : string) : string :=
  sha256 ("hashmerchant/custody/" ++ scope ++ "/" ++ sourceID).

Definition custodyPayload (scope sourceID value : string) (height timestamp : Z) : string :=
  custodyDomain scope sourceID ++ value ++ le64 height ++ le64 (u64 timestamp).

Fixpoint findOracleSource (l : list OracleSource) (sourceID : string) : option OracleSource :=
  match l with
  | [] => None
  | src :: l =>
      if bool_decide (SrcId src = sourceID) && SrcEnabled src then Some src
      else findOracleSource l sourceID
  end.

Definition GetOracleSources (s : State W) (chainUID : string) : list OracleSource :=
  default [] (sources s !! chainUID).

(** The body of the loop of [verifyOracleAttestations]. *)
Definition verify_attestation (srcs : list OracleSource) (att : OracleAttestation) : res unit :=
  match findOracleSource srcs (SourceId att) with
  | None => Err "unregistered oracle source"
  | Some src =>
      match Authenticator src with
      | None => Err "missing custody authenticator"
      | Some auth =>
          ensure (bool_decide (Algorithm auth = "ed25519"%string)) "unsupported custody algorithm";;
          ensure (String.length (Pubkey auth) =? 32)%nat "invalid custody pubkey length";;
          ensure (ed25519_verify (Pubkey auth)
                    (custodyPayload (Scope auth) (SourceId att) (Value att) (Height att) (Timestamp att))
                    (CustodySignature att)) "custody signature verification failed"
      end
  end.

Fixpoint verify_attestations (srcs : list OracleSource) (l : list OracleAttestation) : res unit :=
  match l with
  | [] => Ok tt
  | att :: l => verify_attestation srcs att;; verify_attestations srcs l
  end.

Definition verifyOracleAttestations (s : State W) (chainUID : string)
    (attestations : list OracleAttestation) : res unit :=
  if (length attestations =? 0)%nat then Ok tt
  else verify_attestations (GetOracleSources s chainUID) attestations.

(** ** The aggregate root *)

Definition attestation_less (x y : OracleAttestation) : bool :=
  if negb (bool_decide (SourceId x = SourceId y)) then str_ltb (SourceId x) (SourceId y)
  else if negb (bool_decide (Value x = Value y)) then str_ltb (Value x) (Value y)
  else if negb (bool_decide (Height x = Height y)) then Height x <? Height y
  else Timestamp x <? Timestamp y.

Definition sortOracleAttestations (l : list OracleAttestation) : list OracleAttestation :=
  slice_sort attestation_less l.

(** The loop of [dedupeOracleAttestationsBySourceID]. *)
Fixpoint dedupe (seen : gset string) (l : list OracleAttestation) : list OracleAttestation :=
  match l with
  | [] => []
  | att :: l =>
      if bool_decide (SourceId att ∈ seen) then dedupe seen l
      else att :: dedupe ({[SourceId att]} ∪ seen) l
  end.

Definition dedupeOracleAttestationsBySourceID (l : list OracleAttestation) : list OracleAttestation :=
  if (length l =? 0)%nat then l else dedupe ∅ l.

(** What one attestation adds to the hash. *)
Definition attestation_bytes (att : OracleAttestation) : string :=
  SourceId att ++ Value att ++ le64 (Height att).

(** Everything written to the hash, in order. *)
Definition preimage (l : list OracleAttestation) : string :=
  foldr (fun att s => attestation_bytes att ++ s)%string ""%string l.

(** The nil slice is the empty string. *)
Definition aggregateAttestationRoot (l : list OracleAttestation) : string :=
  if (length l =? 0)%nat then ""%string
  else sha256 (preimage (dedupeOracleAttestationsBySourceID (sortOracleAttestations l))).

(** ** Vote extensions *)

Definition oracleBundleMagic : string := "HMOR".

Definition unpackOracleBundle (bz : string) : res (list OracleAttestation) :=
  if String.prefix oracleBundleMagic bz
  then bundle_unmarshal (strip_prefix oracleBundleMagic bz) else Ok [].

Definition voteExtensionAttestations (data : VoteExtensionHashData) : list OracleAttestation :=
  if (length (VeAttestations data) =? 0)%nat
  then match unpackOracleBundle (Ics23Proof data) with Ok l => l | _ => [] end
  else omap id (VeAttestations data).

Definition decode_attestation (a : sidecarAttestationJSON) : res OracleAttestation :=
  value ← hex_decode (jValue a);
  sig ← hex_decode (jCustodySignature a);
  Ok (mkAttestation (jSourceID a) value (jHeight a) (jTimestamp a) sig).

Fixpoint decode_attestations (l : list sidecarAttestationJSON) : res (list OracleAttestation) :=
  match l with
  | [] => Ok []
  | a :: l => att ← decode_attestation a; rest ← decode_attestations l; Ok (att :: rest)
  end.

(** [fetchSidecar] from the decoded JSON on. *)
Definition fetchSidecar (sr : sidecarResponse) : res VoteExtensionHashData :=
  rootBytes ← hex_decode (jRoot sr);
  attestations ← decode_attestations (jAttestations sr);
  refuse (length attestations =? 0)%nat "sidecar returned no attestations";;
  let root := aggregateAttestationRoot attestations in
  refuse (negb (String.length rootBytes =? 0)%nat && negb (bool_decide (rootBytes = root)))
    "sidecar root does not match sorted aggregate";;
  Ok (mkExtension (jChainUID sr) (jAlgo sr) root (jForeignHeight sr) (jForeignBlockTime sr) ""
        (map Some attestations)).

(** [answer] is the decoded JSON, or the failure to get it. *)
Definition ExtendVoteHandler (SidecarURL : string) (answer : res sidecarResponse) : string :=
  if bool_decide (SidecarURL = ""%string) then ""%string
  else
    match answer ≫= fetchSidecar with
    | Ok data => match ve_marshal data with Ok bz => bz | _ => ""%string end
    | _ => ""%string
    end.

Definition VerifyVoteExtensionHandler (s : State W) (VoteExtension : string) : status :=
  if (String.length VoteExtension =? 0)%nat then ACCEPT
  else
    match ve_unmarshal VoteExtension with
    | Ok data =>
        match chains s !! VeChainUid data with
        | Some chain =>
            if negb (ChainEnabled chain) then REJECT
            else
              let attestations := voteExtensionAttestations data in
              if negb (is_ok (verifyOracleAttestations s (VeChainUid data) attestations)) then REJECT
              else if negb (length attestations =? 0)%nat && negb (String.length (VeRoot data) =? 0)%nat
                      && negb (bool_decide (VeRoot data = aggregateAttestationRoot attestations))
              then REJECT else ACCEPT
        | None => REJECT
        end
    | _ => REJECT
    end.

(** ** Specification *)

(** The attestation is signed by the key of the first enabled source with its
    identifier. *)
Definition attested (srcs : list OracleSource) (att : OracleAttestation) : Prop :=
  exists before src after auth,
    srcs = before ++ src :: after /\ SrcId src = SourceId att /\ SrcEnabled src = true /\
    Forall (fun x => SrcId x = SourceId att -> SrcEnabled x = false) before /\
    Authenticator src = Some auth /\ Algorithm auth = "ed25519"%string /\
    String.length (Pubkey auth) = 32%nat /\
    ed25519_verify (Pubkey auth)
      (custodyPayload (Scope auth) (SourceId att) (Value att) (Height att) (Timestamp att))
      (CustodySignature att) = true.

(** What makes a vote extension acceptable. *)
Definition acceptable (s : State W) (ve : string) : Prop :=
  ve = ""%string \/
  exists data chain,
    ve_unmarshal ve = Ok data /\ chains s !! VeChainUid data = Some chain /\
    ChainEnabled chain = true /\
    let atts := voteExtensionAttestations data in
    Forall (attested (GetOracleSources s (VeChainUid data))) atts /\
    (atts = [] \/ VeRoot data = ""%string \/ VeRoot data = aggregateAttestationRoot atts).

End OracleModel.

Section OracleProofs.
Context `{HmExternal} `{SliceSort} {W : Type}.

(** ** The aggregate root does not depend on the order *)

(** What the sort and the hash look at. *)
Definition att_key (x : OracleAttestation) : string * string * Z * Z :=
  (SourceId x, Value x, Height x, Timestamp x).

Lemma attestation_less_lex :
  attestation_less = lex_less SourceId str_ltb (lex_less Value str_ltb (lex_less Height Z.ltb
                       (fun x y => Timestamp x <? Timestamp y))).
Proof. done. Qed.

Lemma attestation_less_order : weak_order attestation_less.
Proof.
  rewrite attestation_less_lex. repeat apply lex_weak_order; auto using str_ltb_total, Z_ltb_total.
  apply (total_weak_order Timestamp Z.ltb), Z_ltb_total.
Qed.

Lemma attestation_less_equal x y :
  attestation_less x y = false -> attestation_less y x = false -> att_key x = att_key y.
Proof.
  rewrite attestation_less_lex. intros Ha Hb.
  destruct (lex_equal _ _ _ str_ltb_total _ _ Ha Hb) as (? & Ha1 & Hb1).
  destruct (lex_equal _ _ _ str_ltb_total _ _ Ha1 Hb1) as (? & Ha2 & Hb2).
  destruct (lex_equal _ _ _ Z_ltb_total _ _ Ha2 Hb2) as (? & Ha3 & Hb3).
  rewrite Z.ltb_ge in *. unfold att_key. f_equal; [congruence|lia].
Qed.

Lemma dedupe_all l : dedupeOracleAttestationsBySourceID l = dedupe ∅ l.
Proof. by destruct l. Qed.

Lemma dedupe_key seen l1 l2 : map att_key l1 = map att_key l2 ->
  map att_key (dedupe seen l1) = map att_key (dedupe seen l2).
Proof.
  revert seen l2. induction l1 as [|x l1 IH]; intros seen [|y l2] E; try done.
  cbn in E. injection E as E1 E2 E3 E4 E. cbn. rewrite E1.
  case_bool_decide; [by apply IH|]. cbn. f_equal; [|by apply IH].
  unfold att_key. congruence.
Qed.

Lemma preimage_key l1 l2 : map att_key l1 = map att_key l2 -> preimage l1 = preimage l2.
Proof.
  revert l2. induction l1 as [|x l1 IH]; intros [|y l2] E; try done.
  cbn in E. injection E as E1 E2 E3 E4 E. unfold preimage in *. cbn [foldr]. rewrite (IH l2 E).
  unfold attestation_bytes. by rewrite E1, E2, E3.
Qed.

(** Validators that hold the same attestations in different orders compute
    the same aggregate root, although the sort is not stable and attestations
    may differ in signatures only. *)
Theorem aggregate_order_independent `{!SliceSortLaws} l1 l2 :
  l1 ≡ₚ l2 -> aggregateAttestationRoot l1 = aggregateAttestationRoot l2.
Proof.
  intros Hp. unfold aggregateAttestationRoot, sortOracleAttestations. rewrite !dedupe_all, <- Hp.
  destruct (_ =? _)%nat; [done|]. f_equal.
  apply preimage_key, dedupe_key, slice_sort_key; auto using attestation_less_order, attestation_less_equal.
  intros x y x' y' [= E1 E2 E3 E4] [= F1 F2 F3 F4].
  unfold attestation_less. by rewrite E1, E2, E3, E4, F1, F2, F3, F4.
Qed.

(** ** Signed payloads *)

(** A custody signature of a source fixes what is attested: the payload
    determines the value, the height and the time, whatever the hash. *)
Theorem custodyPayload_inj scope source v h t v' h' t' :
  is_u64 h -> is_u64 h' -> - 2 ^ 63 <= t < 2 ^ 63 -> - 2 ^ 63 <= t' < 2 ^ 63 ->
  custodyPayload scope source v h t = custodyPayload scope source v' h' t' ->
  v = v' /\ h = h' /\ t = t'.
Proof.
  intros Hh Hh' Ht Ht' E. unfold custodyPayload in E. apply string_app_inv_l in E.
  rewrite !string_app_assoc in E.
  apply string_app_inj_len in E as [E Et]; [|by rewrite !le64_length].
  apply string_app_inj_len in E as [-> Eh]; [|by rewrite !le64_length].
  apply le64_inj in Eh; [|done..]. apply le64_inj in Et; [|apply u64_range..].
  split_and!; [done..|]. unfold u64 in Et.
  pose proof (Z.div_mod t (2 ^ 64) ltac:(done)). pose proof (Z.div_mod t' (2 ^ 64) ltac:(done)).
  pose proof (Z.mod_pos_bound t (2 ^ 64) ltac:(done)).
  pose proof (Z.mod_pos_bound t' (2 ^ 64) ltac:(done)). lia.
Qed.

(** The aggregate root does not separate a source's identifier from the
    attested value: moving bytes from one to the other gives the same root,
    for every hash function. *)
Theorem aggregate_ambiguous `{!SliceSortLaws} a b c h t sig :
  aggregateAttestationRoot [mkAttestation (a ++ b) c h t sig] =
  aggregateAttestationRoot [mkAttestation a (b ++ c) h t sig].
Proof.
  assert (forall x, aggregateAttestationRoot [x] = sha256 (attestation_bytes x ++ "")) as Hone.
  { intros x. unfold aggregateAttestationRoot, sortOracleAttestations. rewrite dedupe_all.
    by rewrite (proj1 (Permutation_singleton_r _ x) (slice_sort_perm attestation_less [x])). }
  rewrite !Hone. unfold attestation_bytes. cbn. by rewrite !string_app_assoc.
Qed.

(** ** The check of vote extensions *)

Lemma findOracleSource_Some srcs i src : findOracleSource srcs i = Some src <->
  exists before after, srcs = before ++ src :: after /\ SrcId src = i /\ SrcEnabled src = true /\
    Forall (fun x => SrcId x = i -> SrcEnabled x = false) before.
Proof.
  split.
  - induction srcs as [|x srcs IH]; cbn; [done|]. case_bool_decide; cbn.
    + destruct (SrcEnabled x) eqn:Ex; cbn; [intros [= ->]; by exists [], srcs|].
      intros (b & a & -> & ? & ? & ?)%IH. exists (x :: b), a. split_and!; try done. by constructor.
    + intros (b & a & -> & ? & ? & ?)%IH. exists (x :: b), a. split_and!; try done. by constructor.
  - intros (b & a & -> & <- & Hen & Hb). induction Hb as [|x b Hx Hb IH]; cbn.
    + by rewrite bool_decide_true, Hen by done.
    + case_bool_decide as E; [by rewrite Hx|done].
Qed.

Lemma verify_attestation_Ok srcs att : verify_attestation srcs att = Ok tt <-> attested srcs att.
Proof.
  unfold verify_attestation, attested. split.
  - destruct (findOracleSource _ _) as [src|] eqn:Ef; [|done].
    apply findOracleSource_Some in Ef as (b & a & ? & ? & ? & ?).
    destruct (Authenticator src) as [auth|] eqn:Ea; [|done]. intros E. go_inv.
    exists b, src, a, auth. split_and!; try done. by apply Nat.eqb_eq.
  - intros (b & src & a & auth & ? & ? & ? & ? & Ha & Halg & Hlen & Hv).
    assert (findOracleSource srcs (SourceId att) = Some src) as ->
      by (apply findOracleSource_Some; eauto 10).
    rewrite Ha, Hlen, Hv, bool_decide_true by done. done.
Qed.

Lemma verifyOracleAttestations_Ok (s : State W) uid l :
  is_ok (verifyOracleAttestations s uid l) = true <-> Forall (attested (GetOracleSources s uid)) l.
Proof.
  unfold verifyOracleAttestations. destruct l as [|x l]; [by split|]. cbn [length Nat.eqb].
  generalize (x :: l). clear x l. intros l. induction l as [|x l IH]; cbn; [by split|].
  rewrite Forall_cons, <- IH, <- verify_attestation_Ok.
  destruct (verify_attestation _ x) as [[]| |]; cbn; naive_solver.
Qed.

Lemma string_length_0 (x : string) : (String.length x =? 0)%nat = bool_decide (x = ""%string).
Proof. by destruct x. Qed.

(** The check accepts exactly the acceptable vote extensions: the empty
    one, and those for an enabled chain in which every attestation carries a
    valid signature of its enabled source and the root, when given with
    attestations, is their aggregate. *)
Theorem verify_extension_spec (s : State W) ve :
  VerifyVoteExtensionHandler s ve = ACCEPT <-> acceptable s ve.
Proof.
  unfold VerifyVoteExtensionHandler, acceptable. rewrite string_length_0.
  case_bool_decide as E0; [by split; [left|]|].
  destruct (ve_unmarshal ve) as [data| |] eqn:Eu;
    [|by split; [done|intros [?|(? & ? & ? & ?)]; congruence]..].
  destruct (chains s !! VeChainUid data) as [chain|] eqn:Ec;
    [|by split; [done|intros [?|(? & ? & ? & ? & ?)]; simplify_eq]].
  set (atts := voteExtensionAttestations data).
  transitivity (ChainEnabled chain = true /\ Forall (attested (GetOracleSources s (VeChainUid data))) atts /\
    (atts = [] \/ VeRoot data = ""%string \/ VeRoot data = aggregateAttestationRoot atts)).
  - rewrite <- verifyOracleAttestations_Ok, string_length_0.
    destruct (ChainEnabled chain); cbn; [|naive_solver].
    destruct (is_ok _); cbn; [|naive_solver].
    destruct atts as [|x l]; cbn [length Nat.eqb negb andb]; [naive_solver|].
    repeat case_bool_decide; cbn; naive_solver.
  - split; [intros (? & ? & ?); right; by exists data, chain|].
    intros [?|(d & c & ? & ? & ? & ? & ?)]; [done|]. by simplify_eq.
Qed.

(** ** A validator's own extension *)

Lemma fetchSidecar_Ok sr data : fetchSidecar sr = Ok data ->
  exists atts, decode_attestations (jAttestations sr) = Ok atts /\ atts <> [] /\
    VeChainUid data = jChainUID sr /\ VeRoot data = aggregateAttestationRoot atts /\
    voteExtensionAttestations data = atts.
Proof.
  unfold fetchSidecar. intros E. go_inv.
  match goal with H : decode_attestations _ = Ok ?x |- _ => exists x; rename x into atts end.
  assert (omap id (map Some atts) = atts) as Hid.
  { clear. induction atts as [|y l IH]; [done|]. cbn. by f_equal. }
  unfold voteExtensionAttestations. cbn. rewrite length_map, Hid.
  match goal with H : (_ =? 0)%nat = false |- _ => rewrite H; apply Nat.eqb_neq in H end.
  split_and!; try done. by intros ->.
Qed.

Hypothesis ve_roundtrip : forall d bz, ve_marshal d = Ok bz -> ve_unmarshal bz = Ok d.

(** What a validator sends is accepted by the others, if the chain is
    enabled and the attestations its sidecar reports are signed: when they
    are not usable the validator sends the empty extension. *)
Theorem own_extension_accepted (s : State W) url answer chain :
  (forall sr, answer = Ok sr -> chains s !! jChainUID sr = Some chain /\
     forall atts, decode_attestations (jAttestations sr) = Ok atts ->
       Forall (attested (GetOracleSources s (jChainUID sr))) atts) ->
  ChainEnabled chain = true ->
  VerifyVoteExtensionHandler s (ExtendVoteHandler url answer) = ACCEPT.
Proof.
  intros Hsr Hen. unfold ExtendVoteHandler. case_bool_decide; [done|].
  destruct answer as [sr| |]; cbn; [|done..].
  destruct (fetchSidecar sr) as [data| |] eqn:Ef; [|done..].
  destruct (ve_marshal data) as [bz| |] eqn:Em; [|done..].
  destruct (Hsr sr eq_refl) as [Hc Hatt].
  apply fetchSidecar_Ok in Ef as (atts & Hd & Hne & Huid & Hroot & Hva).
  apply verify_extension_spec. right. exists data, chain.
  rewrite Huid, Hva, Hroot. auto 10.
Qed.

End OracleProofs.

(** ** Examples *)

Module RefOracle.

#[export] Instance attestation_eq_dec : EqDecision OracleAttestation.
Proof. solve_decision. Defined.

#[export] Instance attestation_countable : Countable OracleAttestation := inj_countable'
  (fun x => (SourceId x, Value x, Height x, Timestamp x, CustodySignature x))
  (fun '(a, b, c, d, e) => mkAttestation a b c d e) ltac:(by intros []).

#[export] Instance extension_eq_dec : EqDecision VoteExtensionHashData.
Proof. solve_decision. Defined.

#[export] Instance extension_countable : Countable VoteExtensionHashData := inj_countable'
  (fun x => (VeChainUid x, VeAlgo x, VeRoot x, ForeignHeight x, ForeignBlockTime x, Ics23Proof x,
             VeAttestations x))
  (fun '(a, b, c, d, e, f, g) => mkExtension a b c d e f g) ltac:(by intros []).

(** The hash keeps its input and a signature repeats the message under the key. *)
#[export] Instance external : HmExternal := {|
  sha256 x := x;
  ed25519_verify pk msg sig := bool_decide (sig = (pk ++ msg)%string);
  ve_marshal d := Ok (RefCodec.enc d);
  ve_unmarshal := RefCodec.dec;
  bundle_unmarshal := RefCodec.dec
|}.

Lemma roundtrip d bz : ve_marshal d = Ok bz -> ve_unmarshal bz = Ok d.
Proof. intros [= <-]. apply RefCodec.dec_enc. Qed.

End RefOracle.

Section OracleExamples.
Import RefOracle RefSort.

Definition example_key : string := "0123456789abcdef0123456789abcdef".
Definition example_source : OracleSource :=
  mkSource "feed" (Some (mkAuthenticator example_key "ed25519" "price")) true.
Definition example_state : State unit :=
  mkState tt None {["chain" := mkChain "chain" true [Some example_source]]} ∅ ∅ ∅ 0
    {["chain" := [example_source]]}.

(** The value "A" at height 7, signed by the source. *)
Definition example_attestation : OracleAttestation :=
  mkAttestation "feed" "A" 7 1 (example_key ++ custodyPayload "price" "feed" "A" 7 1).

Definition example_answer : sidecarResponse :=
  mkSidecarResponse "chain" "sha256" "" 7 1
    [mkSidecarAttestation "feed" "41" 7 1 (hex_encode (CustodySignature example_attestation))].

Lemma aggregate_order_independent_witness :
  let a := example_attestation in
  let b := mkAttestation "other" "B" 8 1 "" in
  aggregateAttestationRoot [a; b] = aggregateAttestationRoot [b; a].
Proof. apply aggregate_order_independent, Permutation_swap. Defined.

Lemma custodyPayload_inj_witness :
  let payload := custodyPayload "price" "feed" "A" 7 (-1) in
  "A"%string = "A"%string /\ 7 = 7 /\ -1 = -1.
Proof. apply (custodyPayload_inj "price" "feed"); done. Defined.

Lemma aggregate_ambiguous_witness :
  aggregateAttestationRoot [mkAttestation ("fe" ++ "ed") "A" 7 1 ""] =
  aggregateAttestationRoot [mkAttestation "fe" ("ed" ++ "A") 7 1 ""].
Proof. apply aggregate_ambiguous. Defined.

Lemma own_extension_accepted_witness :
  VerifyVoteExtensionHandler example_state (ExtendVoteHandler "url" (Ok example_answer)) = ACCEPT.
Proof.
  apply (own_extension_accepted roundtrip _ _ _ (mkChain "chain" true [Some example_source])); [|done].
  intros sr [= <-]. split; [by vm_compute|]. intros atts E.
  assert (atts = [example_attestation]) as ->.
  { assert (decode_attestations (jAttestations example_answer) = Ok [example_attestation]) as E'
      by by vm_compute. congruence. }
  constructor; [|constructor].
  exists [], example_source, [], (mkAuthenticator example_key "ed25519" "price").
  split_and!; try done; by vm_compute.
Defined.

End OracleExamples.
