(* ===== verification/HmVotes.v ===== *)
(** * x/hashmerchant: tallying votes

    The pre-blocker decodes the commit a proposer injected, tallies the vote
    extensions per chain and algorithm, writes the roots that reach a quorum
    and calls the registered contracts.  Go iterates over maps in an
    unspecified order, which is an argument of the model. *)

From Stdlib Require Import ZArith Lia Ascii.
From stdpp Require Import base gmap strings list sorting.
From S2P Require Import Prelude Sdk SdkRef Store GoLib HmOracle.

(** ** Data *)

(** [abci.ExtendedVoteInfo], as far as the module reads it. *)
Record Vote := mkVote { Power : Z; VoteExtension : string }.

Record rootVote := mkRootVote {
  vroot : string;
  vheight : Z;
  vblockTime : Z;
  votingPower : Z;
  vattestations : list OracleAttestation
}.

Abbreviation tallyKey := (string * string)%type.
Abbreviation tally_map := (gmap tallyKey (gmap string (list rootVote))).

Record winner := mkWinner { wkey : tallyKey; wvotes : list rootVote; wpower : Z }.

(** The order in which the two nested maps are visited. *)
Record map_order := mkOrder {
  outer : tally_map -> list (tallyKey * gmap string (list rootVote));
  inner : gmap string (list rootVote) -> list (string * list rootVote)
}.

Definition valid_order (o : map_order) : Prop :=
  (forall m, outer o m ≡ₚ map_to_list m) /\ (forall m, inner o m ≡ₚ map_to_list m).

Record SudoPayload := mkPayload {
  pChainUID : string;
  pAlgo : string;
  pHeight : Z;
  pRoot : string;
  pAttestationCount : Z;
  pBlockTime : Z;
  pOracleSources : list (string * string * Z)
}.

Inductive proposal_status := PROPOSAL_ACCEPT | PROPOSAL_REJECT.

(** The protobuf codec of [abci.ExtendedCommitInfo], and the wasm keeper's
    [Sudo], which runs a contract under a gas limit and may change any state. *)
Class HmHost (W : Type) := {
  commit_marshal : list Vote -> res string;
  commit_unmarshal : string -> res (list Vote);
  Sudo : Z -> string -> SudoPayload -> M (State W) unit
}.

Section VotesModel.
Context `{HmExternal} `{SliceSort} `{SdkMath} `{Bech32} {W : Type} `{HmHost W}.

#[local] Abbreviation St := (State W).

(** ** Tally *)

Definition add_vote (tally : tally_map) (vote : Vote) : tally_map :=
  if (String.length (VoteExtension vote) =? 0)%nat then tally
  else
    match ve_unmarshal (VoteExtension vote) with
    | Ok data =>
        let key := (VeChainUid data, VeAlgo data) in
        let rootHex := hex_encode (VeRoot data) in
        let rootMap := default ∅ (tally !! key) in
        let entry := mkRootVote (VeRoot data) (ForeignHeight data) (ForeignBlockTime data)
                       (Power vote) (voteExtensionAttestations data) in
        <[key := <[rootHex := default [] (rootMap !! rootHex) ++ [entry]]> rootMap]> tally
    | _ => tally
    end.

Definition tally_votes (votes : list Vote) : tally_map := foldl add_vote ∅ votes.

Definition totalPower (votes : list Vote) : Z :=
  foldl (fun p vote => i64 (p + Power vote)) 0 votes.

(** [Int64] panics outside the range of an int64. *)
Definition quorumThreshold (p : Params) (total : Z) : res Z :=
  let t := dec_truncate_int (dec_mul_int (QuorumFraction p) total) in
  if (- 2 ^ 63 <=? t) && (t <? 2 ^ 63) then Ok t else Panic "Int64() out of bound".

Definition votes_power (votes : list rootVote) : Z :=
  foldl (fun p v => i64 (p + votingPower v)) 0 votes.

(** One step of the search for the best root; the second component is
    [bestRootHex]. *)
Definition better (threshold : Z) (key : tallyKey) (best : winner * string)
    (entry : string * list rootVote) : winner * string :=
  let '(rootHex, votes) := entry in
  let power := votes_power votes in
  if power <? threshold then best
  else if (wpower best.1 <? power) ||
          ((power =? wpower best.1) &&
           (bool_decide (best.2 = ""%string) || str_ltb rootHex best.2))
  then (mkWinner key votes power, rootHex) else best.

Definition best_root (o : map_order) (threshold : Z) (key : tallyKey)
    (rootMap : gmap string (list rootVote)) : winner :=
  (foldl (better threshold key) (mkWinner ("", "") [] (-1), ""%string) (inner o rootMap)).1.

Definition winner_less (x y : winner) : bool :=
  if negb (bool_decide ((wkey x).1 = (wkey y).1)) then str_ltb (wkey x).1 (wkey y).1
  else str_ltb (wkey x).2 (wkey y).2.

Definition find_winners (o : map_order) (threshold : Z) (tally : tally_map) : list winner :=
  List.filter (fun w => threshold <=? wpower w)
    (map (fun '(key, rootMap) => best_root o threshold key rootMap) (outer o tally)).

Definition winners (o : map_order) (threshold : Z) (tally : tally_map) : list winner :=
  slice_sort winner_less (find_winners o threshold tally).

(** ** Callbacks *)

Definition sudoBounded (contractAddr : string) (payload : SudoPayload) (limit : Z) : M St unit :=
  fun s =>
    let limit := if limit =? 0 then DefaultContractGasLimit else limit in
    match Sudo limit contractAddr payload s with
    | (Ok _, s') => (Ok tt, s')
    | (Err e, _) => (Err e, s)
    | (Panic p, _) =>
        if bool_decide (p = "ErrorOutOfGas"%string) then (Err "sudo gas limit exceeded", s)
        else (Panic p, s)
    end.

Definition payload_of (root : HashRoot) (attestations : list OracleAttestation) : SudoPayload :=
  mkPayload (RootChain root) (RootAlgo root) (RootHeight root) (Root root) (AttestationCount root)
    (BlockTime root)
    (map (fun att => (SourceId att, Value att, Height att))
       (dedupeOracleAttestationsBySourceID (sortOracleAttestations attestations))).

(** The callback for one registered contract; errors are only logged. *)
Definition callback (blockHeight limit : Z) (root : HashRoot) (attestations : list OracleAttestation)
    (c : RegisteredContract) : M St unit := fun s =>
  if negb (bool_decide (ContractChain c = RootChain root)) || negb (ContractEnabled c) then (Ok tt, s)
  else
    match escrows s !! ContractAddr c with
    | None => (Ok tt, s)
    | Some escrow =>
        if PaidUntilHeight escrow <? blockHeight then (Ok tt, s)
        else
          match AccAddressFromBech32 (ContractAddr c) with
          | Ok contractAddr =>
              match sudoBounded contractAddr (payload_of root attestations) limit s with
              | (Err _, s') => (Ok tt, s')
              | r => r
              end
          | _ => (Ok tt, s)
          end
    end.

Definition dispatchSudoCallbacks (blockHeight : Z) (root : HashRoot)
    (attestations : list OracleAttestation) : M St unit :=
  s ← get;
  forM (map snd (iter_prefix "" (contracts s)))
    (callback blockHeight (SudoGasLimit (GetParams s)) root attestations).

(** ** Confirming roots *)

Definition KeyHashRoot (chainUID algo : string) : string := (chainUID ++ "|" ++ algo)%string.

Definition SetHashRoot (root : HashRoot) : M St unit :=
  modify (fun s => mkState (world s) (params s) (chains s) (contracts s) (escrows s)
    (<[KeyHashRoot (RootChain root) (RootAlgo root) := root]> (roots s)) (prune_epoch s) (sources s)).

Definition root_of (w : winner) (representative : rootVote) : HashRoot :=
  mkHashRoot (wkey w).1 (wkey w).2 (vheight representative) (vroot representative)
    (u32 (Z.of_nat (length (wvotes w)))) (vblockTime representative)
    (dedupeOracleAttestationsBySourceID (sortOracleAttestations (vattestations representative))).

Definition confirm (blockHeight : Z) (w : winner) : M St unit :=
  match wvotes w with
  | [] => panic "index out of range"
  | representative :: _ =>
      let root := root_of w representative in
      SetHashRoot root;;
      dispatchSudoCallbacks blockHeight root (RootAttestations root)
  end.

Definition ProcessVoteExtensions (o : map_order) (blockHeight : Z) (votes : list Vote) : M St unit :=
  s ← get;
  threshold ← lift (quorumThreshold (GetParams s) (totalPower votes));
  forM (winners o threshold (tally_votes votes)) (confirm blockHeight).

(** ** Proposals *)

Definition InjectedVoteExtensionPrefix : string := "HMVE".

Definition PrepareProposalHandler (LocalLastCommit : list Vote) (Txs : list string) : list string :=
  if negb (existsb (fun v => negb (String.length (VoteExtension v) =? 0)%nat) LocalLastCommit) then Txs
  else
    match commit_marshal LocalLastCommit with
    | Ok bz => (InjectedVoteExtensionPrefix ++ bz)%string :: Txs
    | _ => Txs
    end.

Definition ProcessProposalHandler (Txs : list string) : proposal_status :=
  match Txs with
  | [] => PROPOSAL_ACCEPT
  | tx :: _ =>
      if String.prefix InjectedVoteExtensionPrefix tx then
        match commit_unmarshal (strip_prefix InjectedVoteExtensionPrefix tx) with
        | Ok _ => PROPOSAL_ACCEPT
        | _ => PROPOSAL_REJECT
        end
      else PROPOSAL_ACCEPT
  end.

Definition ProcessInjectedVoteExtension (o : map_order) (blockHeight : Z) (txs : list string)
    : M St bool :=
  match txs with
  | [] => mret false
  | tx :: _ =>
      if String.prefix InjectedVoteExtensionPrefix tx then
        match commit_unmarshal (strip_prefix InjectedVoteExtensionPrefix tx) with
        | Ok commitInfo => fun s =>
            match ProcessVoteExtensions o blockHeight commitInfo s with
            | (Ok _, s') => (Ok true, s')
            | (Err _, s') => (Ok false, s')
            | (Panic p, s') => (Panic p, s')
            end
        | _ => mret false
        end
      else mret false
  end.

(** ** Specification *)

(** The extension a vote carries. *)
Definition cast (vote : Vote) : option VoteExtensionHashData :=
  if bool_decide (VoteExtension vote = ""%string) then None
  else match ve_unmarshal (VoteExtension vote) with Ok data => Some data | _ => None end.

Definition ballot_of (vote : Vote) (data : VoteExtensionHashData) : rootVote :=
  mkRootVote (VeRoot data) (ForeignHeight data) (ForeignBlockTime data) (Power vote)
    (voteExtensionAttestations data).

(** The votes for one root of a chain and algorithm, in commit order. *)
Definition ballots (key : tallyKey) (root : string) (votes : list Vote) : list rootVote :=
  omap (fun vote => data ← cast vote;
          if decide ((VeChainUid data, VeAlgo data) = key /\ VeRoot data = root)
          then Some (ballot_of vote data) else None) votes.

(** Every extension that decodes names a root. *)
Definition roots_given (votes : list Vote) : Prop :=
  Forall (fun vote => forall data, cast vote = Some data -> VeRoot data <> ""%string) votes.

(** Powers are not negative and their sum fits an int64. *)
Definition powers_ok (votes : list Vote) : Prop :=
  Forall (fun vote => 0 <= Power vote) votes /\ 
  foldr (fun vote p => Power vote + p) 0 votes < 2 ^ 63.

(** The effect of a callback: the contract's own writes if it is called and
    succeeds, and nothing otherwise. *)
Definition deliver (blockHeight limit : Z) (payload : SudoPayload) (s : St) (c : RegisteredContract) : St :=
  if bool_decide (ContractChain c = pChainUID payload) && ContractEnabled c then
    match escrows s !! ContractAddr c, AccAddressFromBech32 (ContractAddr c) with
    | Some escrow, Ok addr =>
        if blockHeight <=? PaidUntilHeight escrow then
          match Sudo limit addr payload s with (Ok _, s') => s' | _ => s end
        else s
    | _, _ => s
    end
  else s.

End VotesModel.

Section VotesProofs.
Context `{HmExternal} `{SliceSort} `{SdkMath} `{Bech32} {W : Type} `{HmHost W}.
Context `{!SliceSortLaws}.

#[local] Abbreviation St := (State W).

(** ** The best root of a chain and algorithm *)

Section Best.
Context (threshold : Z) (key : tallyKey).
Hypothesis (Hthr : 0 <= threshold).

(** An entry that reaches the threshold. *)
Definition eligible (e : string * list rootVote) : Prop := threshold <= votes_power e.2.

(** [e] is at least as good as [e']. *)
Definition dominates (e e' : string * list rootVote) : Prop :=
  votes_power e'.2 < votes_power e.2 \/
  (votes_power e'.2 = votes_power e.2 /\ (e.1 = e'.1 \/ str_lt e.1 e'.1)).

(** The votes for an empty root have as much power: then the order of the visits
    decides. *)
Definition blank_tie (l : list (string * list rootVote)) (e : string * list rootVote) : Prop :=
  exists votes, (""%string, votes) ∈ l /\ votes_power votes = votes_power e.2.

Definition prevails (l : list (string * list rootVote)) (e e' : string * list rootVote) : Prop :=
  dominates e e' \/ (votes_power e'.2 = votes_power e.2 /\ blank_tie l e).

(** The result of the search over the entries [l]. *)
Definition is_best (l : list (string * list rootVote)) (w : winner) (hex : string) : Prop :=
  (w = mkWinner ("", "") [] (-1) /\ hex = ""%string /\ Forall (fun e => ~ eligible e) l) \/
  (exists votes, w = mkWinner key votes (votes_power votes) /\ (hex, votes) ∈ l /\
     eligible (hex, votes) /\ Forall (fun e => eligible e -> prevails l (hex, votes) e) l).

Lemma prevails_incl l l' e e' : l ⊆ l' -> prevails l e e' -> prevails l' e e'.
Proof. intros Hl [?|(? & v & ? & ?)]; [by left|right]. split; [done|]. exists v. auto. Qed.

#[global] Instance is_best_perm : Proper (Permutation ==> eq ==> eq ==> iff) is_best.
Proof.
  assert (forall l l', l ≡ₚ l' -> forall w h, is_best l w h -> is_best l' w h) as Himp.
  { intros l l' Hp w h. unfold is_best. intros [(? & ? & Hf)|(v & ? & Hin & ? & Hf)];
      [left|right; exists v]; rewrite Hp in Hf; try rewrite Hp in Hin; [done|].
    split_and!; try done. eapply Forall_impl; [exact Hf|]. cbn. intros e He Hel.
    eapply prevails_incl; [|by apply He]. intros x. by rewrite Hp. }
  intros l l' Hp w ? <- h ? <-. split; apply Himp; done.
Qed.

Lemma dominates_trans e1 e2 e3 : dominates e1 e2 -> dominates e2 e3 -> dominates e1 e3.
Proof.
  unfold dominates. intros [?|[? H1']] [?|[? H2']]; [left; lia..|right; split; [lia|]].
  destruct H1' as [->|?], H2' as [<-|?]; auto. right. by eapply str_lt_trans.
Qed.

(** What an entry prevails over, one that is better, or as good next to an empty
    root, prevails over too. *)
Lemma prevails_step l x e e' : dominates x e -> prevails l e e' -> prevails (l ++ [x]) x e'.
Proof.
  intros Hd [He|(He & v & Hin & Hv)]; [left; by eapply dominates_trans|].
  destruct Hd as [?|[Hp ?]]; [left; left; lia|]. right. split; [lia|]. exists v. split; [set_solver|lia].
Qed.

Lemma prevails_blank l v x e' : (""%string, v) ∈ l -> votes_power x.2 = votes_power v ->
  prevails l (""%string, v) e' -> prevails (l ++ [x]) x e'.
Proof.
  intros Hin Hv Hp. assert (blank_tie (l ++ [x]) x) as Ht by (exists v; split; [set_solver|done]).
  destruct Hp as [[?|[? _]]|[? _]]; cbn [snd] in *; [left; left; lia|right; split; [lia|done]..].
Qed.

Lemma foldl_better l : let r := foldl (better threshold key) (mkWinner ("", "") [] (-1), ""%string) l in
  is_best l r.1 r.2.
Proof.
  induction l as [|[hex votes] l IH] using rev_ind; [by left|].
  rewrite foldl_app. cbn zeta in IH |- *. cbn [foldl].
  destruct (foldl _ _ l) as [w h] eqn:Ew. clear Ew. cbn [fst snd] in *. unfold better.
  assert (Hkeep : forall v, w = mkWinner key v (votes_power v) -> (h, v) ∈ l -> eligible (h, v) ->
    Forall (fun e => eligible e -> prevails l (h, v) e) l ->
    (eligible (hex, votes) -> dominates (h, v) (hex, votes)) -> is_best (l ++ [(hex, votes)]) w h).
  { intros v -> Hin He Hf Hd. right. exists v. split_and!; try done; [set_solver|]. apply Forall_app. split.
    - eapply Forall_impl; [exact Hf|]. cbn. intros e He' Hel. eapply prevails_incl; [|by apply He']. set_solver.
    - apply Forall_singleton. intros Hel. left. auto. }
  destruct (Z.ltb_spec (votes_power votes) threshold) as [Hlt|Hge].
  - assert (~ eligible (hex, votes)) as Hn by (unfold eligible; cbn [snd]; lia).
    destruct IH as [(-> & -> & Hf)|(v & -> & Hin & He & Hf)]; [|by eapply Hkeep].
    left. split_and!; try done. apply Forall_app. by rewrite Forall_singleton.
  - assert (eligible (hex, votes)) as Hel by (unfold eligible; done).
    assert (Htake : (forall e, e ∈ l -> eligible e -> prevails (l ++ [(hex, votes)]) (hex, votes) e) ->
      is_best (l ++ [(hex, votes)]) (mkWinner key votes (votes_power votes)) hex).
    { intros Hf. right. exists votes. split_and!; try done; [set_solver|]. apply Forall_app. split.
      - by apply Forall_forall.
      - apply Forall_singleton. intros _. left. right. auto. }
    destruct IH as [(-> & -> & Hf)|(v & -> & Hin & He & Hf)]; cbn [wpower fst snd].
    + destruct (Z.ltb_spec (-1) (votes_power votes)); [|lia]. cbn. apply Htake. intros e Hin He.
      by apply (proj1 (Forall_forall _ _) Hf) in Hin.
    + rewrite Forall_forall in Hf. destruct (_ || _) eqn:Eb.
      * apply Htake. intros e Hin' He'. specialize (Hf e Hin' He').
        apply orb_true_iff in Eb as [?%Z.ltb_lt|[Eq%Z.eqb_eq Eb]%andb_true_iff].
        { eapply prevails_step; [|exact Hf]. by left. }
        apply orb_true_iff in Eb as [->%bool_decide_eq_true|Hlt]; [by eapply prevails_blank|].
        eapply prevails_step; [|exact Hf]. right. auto.
      * eapply Hkeep; [done..|by apply Forall_forall|]. intros _.
        apply orb_false_iff in Eb as [Eb1%Z.ltb_ge Eb2]. unfold dominates. cbn [fst snd].
        apply andb_false_iff in Eb2 as [Eb2%Z.eqb_neq|[_ Eb2]%orb_false_iff]; [left; lia|].
        destruct (Z.eq_dec (votes_power votes) (votes_power v)); [right|left; lia].
        split; [done|]. destruct (str_trichotomy h hex) as [|[|Hc]]; auto. unfold str_lt in Hc; congruence.
Qed.

(** Without an empty root the result does not depend on the order of the entries. *)
Lemma is_best_unique m l l' w hex w' hex' : m !! ""%string = None ->
  l ≡ₚ map_to_list m -> l' ≡ₚ map_to_list m -> is_best l w hex -> is_best l' w' hex' -> w = w'.
Proof.
  intros Hblank Hl Hl'. rewrite Hl, Hl'. intros Hb Hb'.
  assert (Hp : forall e e', prevails (map_to_list m) e e' -> dominates e e').
  { intros e e' [?|(_ & v & Hin%elem_of_map_to_list & _)]; [done|congruence]. }
  destruct Hb as [(-> & -> & Hf)|(v & -> & Hin & He & Hf)],
    Hb' as [(-> & -> & Hf')|(v' & -> & Hin' & He' & Hf')]; [done|..].
  - by apply (proj1 (Forall_forall _ _) Hf) in Hin'.
  - by apply (proj1 (Forall_forall _ _) Hf') in Hin.
  - pose proof (Hp _ _ (proj1 (Forall_forall _ _) Hf' _ Hin He)) as D1.
    pose proof (Hp _ _ (proj1 (Forall_forall _ _) Hf _ Hin' He')) as D2.
    unfold dominates in *. cbn [fst snd] in *.
    assert (hex = hex') as <-.
    { destruct D1 as [?|[? [?|A1]]], D2 as [?|[? [?|A2]]]; try done; try lia.
      pose proof (str_lt_asym _ _ A1). unfold str_lt in *. congruence. }
    apply elem_of_map_to_list in Hin, Hin'. by simplify_eq.
Qed.

End Best.

(** ** The tally *)

Lemma ballots_app key root l1 l2 : ballots key root (l1 ++ l2) = ballots key root l1 ++ ballots key root l2.
Proof. apply omap_app. Qed.

Lemma ballots_snoc key root votes vote : ballots key root (votes ++ [vote]) = ballots key root votes ++
  match cast vote with
  | Some data => if decide ((VeChainUid data, VeAlgo data) = key /\ VeRoot data = root)
                 then [ballot_of vote data] else []
  | None => []
  end.
Proof.
  rewrite ballots_app. f_equal. unfold ballots. cbn. destruct (cast vote); cbn; [|done].
  by case_decide.
Qed.

Definition entry (m : tally_map) (key : tallyKey) (hex : string) : option (list rootVote) :=
  m !! key ≫= lookup hex.

(** [None] for the empty list. *)
Definition nonempty {A} (l : list A) : option (list A) := match l with [] => None | _ => Some l end.

Lemma default_nonempty {A} (l : list A) : default [] (nonempty l) = l.
Proof. by destruct l. Qed.

Lemma entry_insert m key hex l key' hex' :
  entry (<[key := <[hex := l]> (default ∅ (m !! key))]> m) key' hex' =
  if decide (key = key' /\ hex = hex') then Some l else entry m key' hex'.
Proof.
  unfold entry. destruct (decide (key = key')) as [<-|Hk].
  - rewrite lookup_insert_eq. cbn. case_decide as E.
    + destruct E as [_ <-]. by rewrite lookup_insert_eq.
    + rewrite lookup_insert_ne by naive_solver. by destruct (m !! key).
  - rewrite lookup_insert_ne by done. rewrite decide_False by naive_solver. done.
Qed.

Lemma add_vote_cast m vote : add_vote m vote =
  match cast vote with
  | None => m
  | Some data =>
      let key := (VeChainUid data, VeAlgo data) in
      let hex := hex_encode (VeRoot data) in
      <[key := <[hex := default [] (entry m key hex) ++ [ballot_of vote data]]> (default ∅ (m !! key))]> m
  end.
Proof.
  unfold add_vote, cast, entry. rewrite string_length_0. case_bool_decide; [done|].
  destruct (ve_unmarshal _) as [data| |]; [|done..]. cbn zeta.
  by destruct (m !! _).
Qed.

(** The tally holds, under the hexadecimal text of a root, the votes for it,
    and nothing else. *)
Lemma tally_entry votes key root :
  entry (tally_votes votes) key (hex_encode root) = nonempty (ballots key root votes).
Proof.
  unfold tally_votes. induction votes as [|vote votes IH] using rev_ind; [done|].
  rewrite foldl_app. cbn [foldl]. rewrite add_vote_cast, ballots_snoc.
  destruct (cast vote) as [data|]; [|by rewrite app_nil_r]. cbn zeta. rewrite entry_insert.
  repeat case_decide; try (destruct_and!; simplify_eq).
  - rewrite IH, default_nonempty. by destruct (ballots _ _ votes).
  - exfalso. match goal with H : hex_encode _ = hex_encode _ |- _ => apply hex_encode_inj in H end. naive_solver.
  - naive_solver.
  - by rewrite app_nil_r.
Qed.

Lemma tally_hex votes key hex l : entry (tally_votes votes) key hex = Some l ->
  exists root, hex = hex_encode root /\ (roots_given votes -> root <> ""%string).
Proof.
  unfold tally_votes. revert l. induction votes as [|vote votes IH] using rev_ind; intros l; [done|].
  rewrite foldl_app. cbn [foldl]. rewrite add_vote_cast.
  assert (roots_given (votes ++ [vote]) -> roots_given votes) by by intros [? _]%Forall_app.
  destruct (cast vote) as [data|] eqn:Ec; [|naive_solver]. cbn zeta. rewrite entry_insert.
  case_decide as E; [|naive_solver]. intros _. exists (VeRoot data). split; [naive_solver|].
  intros [_ [Hr _]%Forall_cons]%Forall_app. by apply Hr.
Qed.

(** ** Winners *)

Lemma best_root_is_best o t key rm : valid_order o -> 0 <= t ->
  exists hex, is_best t key (map_to_list rm) (best_root o t key rm) hex.
Proof. intros [_ Ho] Ht. eexists. rewrite <- (Ho rm). exact (foldl_better t key Ht _). Qed.

Section Quorum.
Context (votes : list Vote) (t : Z).
Hypothesis (Ht : 0 <= t).

(** A winner is the best root of its key. *)
Lemma elem_of_find_winners o w : valid_order o ->
  w ∈ find_winners o t (tally_votes votes) <->
  exists rm, tally_votes votes !! wkey w = Some rm /\ w = best_root o t (wkey w) rm /\ t <= wpower w.
Proof.
  intros Ho. unfold find_winners. rewrite list_elem_of_In, filter_In, in_map_iff, Z.leb_le. split.
  - intros [([key rm] & <- & Hin) Hp]. apply list_elem_of_In in Hin.
    rewrite (proj1 Ho) in Hin. apply elem_of_map_to_list in Hin.
    destruct (best_root_is_best o t key rm Ho Ht) as [hex [(E & _)|(v & E & _)]];
      [rewrite E in Hp; cbn in Hp; lia|].
    exists rm. rewrite E in *. cbn in *. by rewrite E.
  - intros (rm & Hk & Hw & Hp). split; [|done]. exists (wkey w, rm). split; [done|].
    apply list_elem_of_In. rewrite (proj1 Ho). by apply elem_of_map_to_list.
Qed.

Lemma winner_less_order : weak_order winner_less.
Proof.
  change winner_less with (lex_less (fun w => (wkey w).1) str_ltb (fun x y => str_ltb (wkey x).2 (wkey y).2)).
  apply lex_weak_order; [apply str_ltb_total|].
  apply (total_weak_order (fun w => (wkey w).2)), str_ltb_total.
Qed.

Lemma winner_less_key x y : winner_less x y = false -> winner_less y x = false -> wkey x = wkey y.
Proof.
  change winner_less with (lex_less (fun w => (wkey w).1) str_ltb (fun x y => str_ltb (wkey x).2 (wkey y).2)).
  intros Hx Hy. destruct (lex_equal _ _ _ str_ltb_total _ _ Hx Hy) as (E1 & E2 & E3).
  destruct (wkey x) as [a b], (wkey y) as [a' b']. cbn in *. subst. f_equal.
  destruct (decide (b = b')) as [|Hne]; [done|].
  apply (total_cmp _ str_ltb_total) in Hne. destruct Hne; congruence.
Qed.

(** [root] is the choice of a quorum for [key]: it reaches the threshold, and
    no other root does with more power, or the same and a smaller text, unless the
    empty root has as much power. *)
Definition tied_with_blank (key : tallyKey) (root : string) : Prop :=
  ballots key "" votes <> [] /\ votes_power (ballots key "" votes) = votes_power (ballots key root votes).

Definition chosen (key : tallyKey) (root : string) : Prop :=
  let b := ballots key root votes in
  b <> [] /\ t <= votes_power b /\
  forall root', ballots key root' votes <> [] -> t <= votes_power (ballots key root' votes) ->
    dominates (hex_encode root, b) (hex_encode root', ballots key root' votes) \/
    (votes_power (ballots key root' votes) = votes_power b /\ tied_with_blank key root).

Lemma elem_of_tally key rm hex l : tally_votes votes !! key = Some rm ->
  (hex, l) ∈ map_to_list rm <-> exists r, hex = hex_encode r /\ l = ballots key r votes /\ l <> [].
Proof.
  intros Hk. rewrite elem_of_map_to_list. split.
  - intros Hl. assert (entry (tally_votes votes) key hex = Some l) as He by (unfold entry; by rewrite Hk).
    destruct (tally_hex _ _ _ _ He) as (r & -> & _). exists r. rewrite tally_entry in He.
    destruct (ballots key r votes); cbn in He; by simplify_eq.
  - intros (r & -> & -> & Hne). pose proof (tally_entry votes key r) as He. unfold entry in He.
    rewrite Hk in He. cbn in He. rewrite He. by destruct (ballots key r votes).
Qed.

Lemma blank_tie_tied key rm root : tally_votes votes !! key = Some rm ->
  blank_tie (map_to_list rm) (hex_encode root, ballots key root votes) <-> tied_with_blank key root.
Proof.
  intros Hk. unfold blank_tie, tied_with_blank. split.
  - intros (v & (r & Er & -> & Hne)%(elem_of_tally key rm _ _ Hk) & Hp). apply (hex_encode_inj ""%string r) in Er as <-. done.
  - intros [Hne Hp]. exists (ballots key "" votes). split; [|done]. apply (elem_of_tally key rm _ _ Hk). by exists ""%string.
Qed.

Lemma is_best_chosen key rm root : tally_votes votes !! key = Some rm ->
  let b := ballots key root votes in
  is_best t key (map_to_list rm) (mkWinner key b (votes_power b)) (hex_encode root) <-> chosen key root.
Proof.
  intros Hk b. pose proof (fun hex l => elem_of_tally key rm hex l Hk) as Hin.
  assert (forall e', prevails (map_to_list rm) (hex_encode root, b) e' <->
    dominates (hex_encode root, b) e' \/ (votes_power e'.2 = votes_power b /\ tied_with_blank key root)) as Hpr.
  { intros e'. unfold prevails, b. by rewrite (blank_tie_tied key rm root Hk). }
  unfold is_best, chosen. fold b. rewrite Forall_forall. split.
  - intros [(E & Eh & _)|(v & E & (r & Er & -> & Hne)%Hin & He & Hf)].
    { exfalso. injection E as _ Hb Hp. rewrite Hb in Hp. done. }
    apply hex_encode_inj in Er as <-. split_and!; [done..|]. intros r' Hr' Ht'.
    apply (Hpr (_, _)). apply (proj1 (Forall_forall _ _) Hf); [|done]. apply Hin. eauto.
  - intros (Hne & Hp & Hd). right. exists b. split_and!; [done|apply Hin; eauto|done|].
    apply Forall_forall. intros [hex l] (r & -> & -> & Hr)%Hin He. by apply Hpr, Hd.
Qed.

(** The best root of a key with a root that reaches the threshold. *)
Lemma winner_of o key rm : valid_order o -> tally_votes votes !! key = Some rm -> t <= wpower (best_root o t key rm) ->
  exists root, chosen key root /\ best_root o t key rm = mkWinner key (ballots key root votes) (votes_power (ballots key root votes)).
Proof.
  intros Ho Hk Hp. destruct (best_root_is_best o t key rm Ho Ht) as [hex Hb]. pose proof Hb as Hb'.
  destruct Hb' as [(E & _)|(v & E & Hin & _)]; [rewrite E in Hp; cbn in Hp; lia|].
  apply (elem_of_tally key rm _ _ Hk) in Hin as (root & -> & -> & Hne). exists root. rewrite E in Hb |- *.
  split; [by apply (is_best_chosen key rm root Hk)|done].
Qed.

Lemma elem_of_winners o w : valid_order o -> w ∈ winners o t (tally_votes votes) ->
  exists root, chosen (wkey w) root /\ wvotes w = ballots (wkey w) root votes /\ wpower w = votes_power (wvotes w).
Proof.
  intros Ho. unfold winners. rewrite slice_sort_perm, elem_of_find_winners by done. intros (rm & Hk & Ew & Hp).
  rewrite Ew in Hp. destruct (winner_of o (wkey w) rm Ho Hk Hp) as (root & Hc & E). exists root. split; [done|].
  rewrite Ew, E. done.
Qed.

(** A key with a root that reaches the threshold has a winner. *)
Lemma quorum_wins o key root : valid_order o -> ballots key root votes <> [] -> t <= votes_power (ballots key root votes) ->
  exists root', chosen key root' /\
    mkWinner key (ballots key root' votes) (votes_power (ballots key root' votes)) ∈ winners o t (tally_votes votes).
Proof.
  intros Ho Hne Hp. pose proof (tally_entry votes key root) as He. unfold entry in He.
  destruct (tally_votes votes !! key) as [rm|] eqn:Hk; [|by destruct (ballots key root votes)].
  assert (t <= wpower (best_root o t key rm)) as Hw.
  { destruct (best_root_is_best o t key rm Ho Ht) as [hex [(_ & _ & Hf)|(v & -> & _ & ? & _)]]; [exfalso|done].
    refine (proj1 (Forall_forall _ _) Hf (hex_encode root, ballots key root votes) _ Hp).
    apply (elem_of_tally key rm _ _ Hk). eauto. }
  destruct (winner_of o key rm Ho Hk Hw) as (root' & Hc & E). exists root'. split; [done|]. rewrite <- E.
  unfold winners. rewrite slice_sort_perm, elem_of_find_winners by done. exists rm. rewrite E in Hw |- *. cbn. by rewrite E.
Qed.

Lemma chosen_unique key root root' : chosen key root -> chosen key root' -> ~ tied_with_blank key root -> root = root'.
Proof.
  intros (Hne & Hp & Hd) (Hne' & Hp' & Hd') Hnt. specialize (Hd root' Hne' Hp'). specialize (Hd' root Hne Hp).
  assert (tied_with_blank key root' -> votes_power (ballots key root votes) = votes_power (ballots key root' votes) -> False) as Hnt'.
  { intros [? ?] ?. apply Hnt. split; [done|lia]. }
  unfold dominates in *. cbn [fst snd] in *. apply hex_encode_inj.
  destruct Hd as [[?|[? [?|A1]]]|[? ?]]; try done; destruct Hd' as [[?|[? [?|A2]]]|[? ?]]; try done; try lia; try (exfalso; auto; fail).
  pose proof (str_lt_asym _ _ A1). unfold str_lt in *. congruence.
Qed.

(** The winners have different keys. *)
Lemma winners_distinct o : valid_order o -> NoDup (wkey <$> winners o t (tally_votes votes)).
Proof.
  intros Ho. unfold winners. rewrite slice_sort_perm. unfold find_winners.
  assert (forall l, NoDup l.*1 -> (forall k rm, (k, rm) ∈ l -> tally_votes votes !! k = Some rm) ->
    NoDup (wkey <$> List.filter (fun w => t <=? wpower w) (map (fun '(key, rm) => best_root o t key rm) l))) as Hl.
  { intros l. induction l as [|[k rm] l IH]; intros Hnd Hin; [constructor|]. cbn in Hnd |- *. apply NoDup_cons in Hnd as [Hk Hnd].
    specialize (IH Hnd ltac:(set_solver)). destruct (Z.leb_spec t (wpower (best_root o t k rm))) as [Hp|]; [|done].
    destruct (winner_of o k rm Ho (Hin k rm ltac:(set_solver)) Hp) as (root & _ & ->). cbn. apply NoDup_cons. split; [|done].
    intros (w & Ew & Hw)%list_elem_of_fmap. apply Hk. apply list_elem_of_In, filter_In in Hw as [Hw Hp'%Z.leb_le].
    apply in_map_iff in Hw as ([k' rm'] & <- & Hw%list_elem_of_In).
    destruct (winner_of o k' rm' Ho (Hin k' rm' ltac:(set_solver)) Hp') as (root' & _ & E). rewrite E in Ew. cbn in Ew. subst k'.
    apply list_elem_of_fmap. by exists (k, rm'). }
  apply Hl.
  - rewrite (proj1 Ho). apply NoDup_fst_map_to_list.
  - intros k rm Hin. rewrite (proj1 Ho) in Hin. by apply elem_of_map_to_list.
Qed.

(** *** Without empty roots *)

Hypothesis (Hroots : roots_given votes).

Lemma tally_roots key rm : tally_votes votes !! key = Some rm -> rm !! ""%string = None.
Proof.
  intros Hk. destruct (rm !! ""%string) as [l|] eqn:Hh; [exfalso|done].
  destruct (tally_hex votes key ""%string l) as (root & E & Hne); [unfold entry; by rewrite Hk|].
  apply Hne; [done|]. by apply (hex_encode_inj root ""%string).
Qed.

Lemma best_root_order o o' key rm : valid_order o -> valid_order o' ->
  tally_votes votes !! key = Some rm -> best_root o t key rm = best_root o' t key rm.
Proof.
  intros Ho Ho' Hk.
  destruct (best_root_is_best o t key rm Ho Ht) as [hex Hb], (best_root_is_best o' t key rm Ho' Ht) as [hex' Hb'].
  by eapply (is_best_unique t key rm); [eapply tally_roots|..].
Qed.

Lemma find_winners_order o o' : valid_order o -> valid_order o' ->
  find_winners o t (tally_votes votes) ≡ₚ find_winners o' t (tally_votes votes).
Proof.
  intros Ho Ho'. unfold find_winners. apply list_filter_perm.
  transitivity (map (fun '(key, rm) => best_root o' t key rm) (outer o (tally_votes votes))).
  - erewrite map_ext_in; [reflexivity|]. intros [key rm] Hin. apply list_elem_of_In in Hin.
    rewrite (proj1 Ho) in Hin. apply elem_of_map_to_list in Hin. by eapply best_root_order.
  - apply Permutation_map. by rewrite (proj1 Ho), (proj1 Ho').
Qed.

Lemma winners_order o o' : valid_order o -> valid_order o' ->
  winners o t (tally_votes votes) = winners o' t (tally_votes votes).
Proof.
  intros Ho Ho'. apply slice_sort_unique; [apply winner_less_order| |by apply find_winners_order].
  intros x y (rm & Hx & Ex & _)%elem_of_find_winners (rm' & Hy & Ey & _)%elem_of_find_winners Hxy Hyx;
    [|done..].
  pose proof (winner_less_key x y Hxy Hyx) as Ek. rewrite Ek in Hx, Ex. congruence.
Qed.

End Quorum.

Context `{!SdkMathLaws}.

Lemma i64_range z : - 2 ^ 63 <= z < 2 ^ 63 -> i64 z = z.
Proof.
  intros. unfold i64. destruct (Z.leb_spec 0 z).
  - rewrite Z.mod_small by lia. destruct (Z.ltb_spec z (2 ^ 63)); lia.
  - assert (z mod 2 ^ 64 = z + 2 ^ 64) as ->.
    { symmetry. apply (Z.mod_unique _ _ (-1)); lia. }
    destruct (Z.ltb_spec (z + 2 ^ 64) (2 ^ 63)); lia.
Qed.

Definition power_sum (votes : list Vote) : Z := foldr (fun vote p => Power vote + p) 0 votes.

Lemma power_sum_nonneg votes : Forall (fun vote => 0 <= Power vote) votes -> 0 <= power_sum votes.
Proof. induction 1 as [|v l Hv Hl IH]; [done|]. change (0 <= Power v + power_sum l). lia. Qed.

Lemma totalPower_sum votes : powers_ok votes -> totalPower votes = power_sum votes /\ 0 <= power_sum votes.
Proof.
  intros [Hnn Hs]. split; [|by apply power_sum_nonneg]. unfold totalPower.
  enough (forall acc, 0 <= acc -> acc + power_sum votes < 2 ^ 63 ->
    foldl (fun p vote => i64 (p + Power vote)) acc votes = acc + power_sum votes) as Hg
    by (apply Hg; [done|exact Hs]).
  clear Hs. induction Hnn as [|v l Hv Hl IH]; intros acc Ha Hs; [cbn; lia|].
  change (power_sum (v :: l)) with (Power v + power_sum l) in *. cbn [foldl].
  pose proof (power_sum_nonneg l Hl).
  rewrite i64_range by lia. rewrite IH by lia. lia.
Qed.

(** The threshold is the whole part of the quorum fraction of the power. *)
Lemma quorumThreshold_floor p votes t : powers_ok votes -> 0 <= QuorumFraction p ->
  quorumThreshold p (totalPower votes) = Ok t ->
  0 <= t /\ t * dec_one <= QuorumFraction p * power_sum votes < (t + 1) * dec_one.
Proof.
  intros Hp Hq. destruct (totalPower_sum votes Hp) as [-> Hs]. unfold quorumThreshold.
  rewrite dec_truncate_int_spec, dec_mul_int_spec. destruct (_ && _); [|done]. intros [= <-].
  rewrite Z.quot_div_nonneg by (done || nia).
  pose proof (Z.div_mod (QuorumFraction p * power_sum votes) dec_one ltac:(done)).
  pose proof (Z.mod_pos_bound (QuorumFraction p * power_sum votes) dec_one ltac:(done)).
  split; [apply Z.div_pos; [nia|done]|lia].
Qed.

Lemma quorumThreshold_returns p votes : powers_ok votes -> 0 <= QuorumFraction p <= dec_one ->
  exists t, quorumThreshold p (totalPower votes) = Ok t.
Proof.
  intros Hp Hq. destruct (totalPower_sum votes Hp) as [-> Hs]. unfold quorumThreshold. rewrite dec_truncate_int_spec, dec_mul_int_spec.
  destruct Hp as [_ Hlt]. fold (power_sum votes) in Hlt. rewrite Z.quot_div_nonneg by (done || nia).
  assert (0 <= QuorumFraction p * power_sum votes / dec_one <= power_sum votes) as [? ?].
  { split; [apply Z.div_pos; [nia|done]|]. apply Z.div_le_upper_bound; [done|nia]. }
  destruct (Z.leb_spec (- 2 ^ 63) (QuorumFraction p * power_sum votes / dec_one)); [|lia].
  destruct (Z.ltb_spec (QuorumFraction p * power_sum votes / dec_one) (2 ^ 63)); [|lia]. eauto.
Qed.

(** C9: the roots the module confirms are those that a quorum voted for, where a
    quorum is the quorum fraction of the total power rounded down.  For powers that
    are not negative and add up to an int64: there is one winner for each chain and
    algorithm with a root that reaches the quorum, and no other; it stands for all
    votes for one root, which reaches the quorum and has most power, the smaller
    text breaking ties, except that a tie with votes for the empty root is broken by
    the order in which Go visits the map. *)
Theorem winners_are_quorums o p votes : valid_order o -> powers_ok votes -> 0 <= QuorumFraction p <= dec_one ->
  exists t, quorumThreshold p (totalPower votes) = Ok t /\
    t * dec_one <= QuorumFraction p * power_sum votes < (t + 1) * dec_one /\
    let ws := winners o t (tally_votes votes) in
    NoDup (wkey <$> ws) /\
    (forall w, w ∈ ws -> exists root, chosen votes t (wkey w) root /\ wvotes w = ballots (wkey w) root votes /\
       wpower w = votes_power (wvotes w)) /\
    (forall key root, ballots key root votes <> [] -> t <= votes_power (ballots key root votes) -> key ∈ wkey <$> ws) /\
    (forall key root, chosen votes t key root -> ~ tied_with_blank votes key root ->
       mkWinner key (ballots key root votes) (votes_power (ballots key root votes)) ∈ ws).
Proof.
  intros Ho Hp Hq. destruct (quorumThreshold_returns p votes Hp Hq) as [t Et]. exists t. split; [done|].
  destruct (quorumThreshold_floor p votes t Hp (proj1 Hq) Et) as [Ht Hb]. split; [done|]. cbv zeta. split_and!.
  - by apply winners_distinct.
  - intros w. by apply elem_of_winners.
  - intros key root Hne Hr. destruct (quorum_wins votes t Ht o key root Ho Hne Hr) as (root' & _ & Hw).
    apply list_elem_of_fmap. eexists. by split; [|exact Hw].
  - intros key root Hc Hnt. pose proof Hc as (Hne & Hr & _).
    destruct (quorum_wins votes t Ht o key root Ho Hne Hr) as (root' & Hc' & Hw).
    by rewrite (chosen_unique votes t key root root' Hc Hc' Hnt).
Qed.

(** Processing the votes does not depend on the order in which Go visits
    the tally: two nodes that process the same commit from the same state write
    the same roots and make the same calls. *)
Theorem process_order_independent o o' h votes (s : St) :
  valid_order o -> valid_order o' -> roots_given votes -> powers_ok votes ->
  0 <= QuorumFraction (GetParams s) ->
  ProcessVoteExtensions o h votes s = ProcessVoteExtensions o' h votes s.
Proof.
  intros Ho Ho' Hr Hp Hq. unfold ProcessVoteExtensions, mbind, M_bind, get, lift.
  destruct (quorumThreshold _ _) as [t| |] eqn:Et; [|done..].
  destruct (quorumThreshold_floor _ _ _ Hp Hq Et) as [Ht _].
  by rewrite (winners_order votes t Ht Hr o o').
Qed.

(** ** Callbacks *)

Lemma SudoGasLimit_pos p : SudoGasLimit p <> 0.
Proof. unfold SudoGasLimit. by destruct (Z.eqb_spec (ContractGasLimit p) 0). Qed.

Lemma callback_deliver h limit root atts c (s : St) : limit <> 0 ->
  callback h limit root atts c s = (Ok tt, deliver h limit (payload_of root atts) s c) \/
  exists p s', callback h limit root atts c s = (Panic p, s') /\ p <> "ErrorOutOfGas"%string.
Proof.
  intros Hl. unfold callback, deliver, sudoBounded. apply Z.eqb_neq in Hl. rewrite Hl. cbn [pChainUID payload_of].
  case_bool_decide; cbn [negb orb andb]; [|by left].
  destruct (ContractEnabled c); cbn [negb]; [|by left].
  destruct (escrows s !! ContractAddr c) as [e|]; [|by left].
  rewrite Z.leb_antisym. destruct (PaidUntilHeight e <? h); cbn [negb];
    [by left; destruct (AccAddressFromBech32 _)|].
  destruct (AccAddressFromBech32 _) as [addr| |]; [|by left..].
  destruct (Sudo _ _ _ _) as [[[]|e'|p] s']; [by left..|].
  case_bool_decide; [by left|]. right. eauto.
Qed.

(** The callbacks for a root go, in the order of the contract addresses,
    to the enabled contracts of its chain whose escrow is paid up; a callback
    that fails or runs out of gas leaves no trace and does not stop the others,
    and the whole dispatch fails only if a contract call panics in another way
    than by running out of gas. *)
Theorem callbacks_isolated h root atts (s : St) :
  let limit := SudoGasLimit (GetParams s) in
  let calls := map snd (iter_prefix "" (contracts s)) in
  dispatchSudoCallbacks h root atts s =
    (Ok tt, foldl (deliver h limit (payload_of root atts)) s calls) \/
  exists p s', dispatchSudoCallbacks h root atts s = (Panic p, s') /\ p <> "ErrorOutOfGas"%string.
Proof.
  intros limit calls.
  change (dispatchSudoCallbacks h root atts s) with (forM calls (callback h limit root atts) s).
  generalize calls as l. clear calls. assert (limit <> 0) as Hl by apply SudoGasLimit_pos.
  clearbody limit. intros l. revert s. induction l as [|c l IH]; intros s; [by left|].
  cbn [forM foldl]. unfold mbind, M_bind.
  destruct (callback_deliver h limit root atts c s Hl) as [->|(p & s' & -> & Hp)]; [apply IH|].
  right. eauto.
Qed.

(** ** Proposals *)

Hypothesis commit_roundtrip : forall v bz, commit_marshal v = Ok bz -> commit_unmarshal bz = Ok v.

(** A commit that a proposer injects is processed as it was given: the
    pseudo-transaction passes the check of the proposal and is decoded to the
    same votes. *)
Theorem injected_commit_processed o h commit txs tx rest (s : St) :
  PrepareProposalHandler commit txs = tx :: rest -> tx :: rest <> txs ->
  ProcessProposalHandler (tx :: rest) = PROPOSAL_ACCEPT /\ rest = txs /\
  ProcessInjectedVoteExtension o h (tx :: rest) s =
    match ProcessVoteExtensions o h commit s with
    | (Ok _, s') => (Ok true, s')
    | (Err _, s') => (Ok false, s')
    | (Panic p, s') => (Panic p, s')
    end.
Proof.
  unfold PrepareProposalHandler. destruct (negb _); [congruence|].
  destruct (commit_marshal commit) as [bz| |] eqn:Em; [|congruence..]. intros [= <- <-] _.
  unfold ProcessProposalHandler, ProcessInjectedVoteExtension.
  rewrite !prefix_app, !strip_prefix_app, (commit_roundtrip _ _ Em). done.
Qed.

Hypothesis ve_roundtrip : forall d bz, ve_marshal d = Ok bz -> ve_unmarshal bz = Ok d.

(** The winner of a commit with a single vote. *)
Lemma single_vote_winner o t data ve : valid_order o -> t <= 1 ->
  ve_marshal data = Ok ve -> ve <> ""%string ->
  winners o t (tally_votes [mkVote 1 ve]) =
    [mkWinner (VeChainUid data, VeAlgo data) [ballot_of (mkVote 1 ve) data] 1].
Proof.
  intros [Ho Hi] Ht Hm Hne. unfold winners, find_winners, tally_votes. cbn [foldl].
  rewrite add_vote_cast. unfold cast. cbn [VoteExtension].
  rewrite bool_decide_false, (ve_roundtrip _ _ Hm) by done. cbn zeta. unfold entry.
  rewrite lookup_empty. cbn [mbind option_bind default app].
  assert (forall m, outer o {[(VeChainUid data, VeAlgo data) := m]} = [((VeChainUid data, VeAlgo data), m)])
    as Eo by (intros m; apply Permutation_singleton_r; by rewrite Ho, map_to_list_singleton).
  rewrite !insert_empty, Eo. cbn [map]. unfold best_root.
  assert (forall k l, inner o {[k := l]} = [(k, l)]) as Ei
    by (intros k l; apply Permutation_singleton_r; by rewrite Hi, map_to_list_singleton).
  rewrite Ei. cbn [foldl]. unfold better. change (votes_power [ballot_of (mkVote 1 ve) data]) with 1.
  destruct (Z.ltb_spec 1 t); [lia|]. cbn. destruct (Z.leb_spec t 1); [|lia].
  apply Permutation_singleton_r. by rewrite slice_sort_perm.
Qed.

(** Nothing ties an injected commit to what validators signed: whatever
    root a proposer writes into a commit of its own making, with one vote of
    power 1, every node accepts the proposal and confirms that root (here with
    no contract to call back). *)
Theorem forged_commit_confirmed o h data ve bz (s : St) :
  valid_order o -> contracts s = ∅ -> 0 <= QuorumFraction (GetParams s) <= dec_one ->
  ve_marshal data = Ok ve -> ve <> ""%string -> commit_marshal [mkVote 1 ve] = Ok bz ->
  let tx := (InjectedVoteExtensionPrefix ++ bz)%string in
  ProcessProposalHandler [tx] = PROPOSAL_ACCEPT /\
  exists s' r, ProcessInjectedVoteExtension o h [tx] s = (Ok true, s') /\
    roots s' !! KeyHashRoot (VeChainUid data) (VeAlgo data) = Some r /\ Root r = VeRoot data.
Proof.
  intros Ho Hc Hq Hm Hne Hb tx. unfold ProcessProposalHandler, ProcessInjectedVoteExtension, tx.
  rewrite !prefix_app, !strip_prefix_app, (commit_roundtrip _ _ Hb). split; [done|].
  unfold ProcessVoteExtensions, mbind, M_bind, get, lift.
  assert (exists t, quorumThreshold (GetParams s) (totalPower [mkVote 1 ve]) = Ok t /\ t <= 1) as (t & Et & Ht).
  { change (totalPower [mkVote 1 ve]) with 1. unfold quorumThreshold.
    rewrite dec_truncate_int_spec, dec_mul_int_spec, Z.mul_1_r. rewrite Z.quot_div_nonneg by (done || lia).
    assert (0 <= QuorumFraction (GetParams s) / dec_one <= 1).
    { split; [apply Z.div_pos; [lia|done]|]. apply Z.div_le_upper_bound; [done|lia]. }
    destruct (Z.leb_spec (- 2 ^ 63) (QuorumFraction (GetParams s) / dec_one)); [|lia].
    destruct (Z.ltb_spec (QuorumFraction (GetParams s) / dec_one) (2 ^ 63)); [|lia].
    eexists. split; [done|lia]. }
  rewrite Et, (single_vote_winner o t data ve Ho Ht Hm Hne). cbn [forM].
  unfold confirm, dispatchSudoCallbacks, SetHashRoot, mbind, M_bind, get, modify. cbn [wvotes contracts].
  rewrite Hc. eexists. eexists. split; [reflexivity|]. cbn. by rewrite lookup_insert_eq.
Qed.

End VotesProofs.

(** ** Examples *)

Module RefVotes.
Import RefOracle.

#[export] Instance vote_eq_dec : EqDecision Vote.
Proof. solve_decision. Defined.

#[export] Instance vote_countable : Countable Vote := inj_countable'
  (fun x => (Power x, VoteExtension x)) (fun '(a, b) => mkVote a b) ltac:(by intros []).

(** Contracts that do nothing. *)
#[export] Instance host : HmHost unit := {|
  commit_marshal v := Ok (RefCodec.enc v);
  commit_unmarshal := RefCodec.dec;
  Sudo _ _ _ := mret tt
|}.

Lemma commit_codec v bz : commit_marshal v = Ok bz -> commit_unmarshal bz = Ok v.
Proof. intros [= <-]. apply RefCodec.dec_enc. Qed.

Definition forwards : map_order := mkOrder map_to_list map_to_list.
Definition backwards : map_order :=
  mkOrder (fun m => rev (map_to_list m)) (fun m => rev (map_to_list m)).

Lemma forwards_valid : valid_order forwards.
Proof. done. Qed.

Lemma backwards_valid : valid_order backwards.
Proof. split; intros m; cbn; by rewrite <- Permutation_rev. Qed.

End RefVotes.

Section VotesExamples.
Import Ref RefLaws RefOracle RefSort RefVotes.

Definition extension (root : string) : VoteExtensionHashData :=
  mkExtension "chain" "sha256" root 7 1 "" [].

Definition vote (root : string) (power : Z) : Vote := mkVote power (RefCodec.enc (extension root)).

Definition start : State unit := mkState tt None ∅ ∅ ∅ ∅ 0 ∅.

Definition two_votes : list Vote := [vote "A" 2; vote "B" 1].

Lemma cast_vote root power : cast (vote root power) = Some (extension root).
Proof.
  unfold cast, vote. cbn [VoteExtension]. rewrite bool_decide_false by apply RefCodec.enc_ne.
  unfold ve_unmarshal, external. by rewrite RefCodec.dec_enc.
Qed.

Lemma two_votes_roots : roots_given two_votes.
Proof. repeat constructor; intros data; rewrite cast_vote; by intros [= <-]. Qed.

Lemma two_votes_powers : powers_ok two_votes.
Proof. split; [repeat constructor; done|done]. Qed.

(** Two of three units of power confirm a root, and with a tie between an empty root
    and another one there is a winner too. *)
Lemma winners_are_quorums_witness :
  ("chain", "sha256")%string ∈ wkey <$> winners forwards 2 (tally_votes two_votes) /\
  ("chain", "sha256")%string ∈ wkey <$> winners forwards 1 (tally_votes [vote "" 1; vote "A" 1]).
Proof.
  assert (0 <= QuorumFraction DefaultParams <= dec_one) as Hq by by vm_compute.
  split.
  - destruct (winners_are_quorums forwards DefaultParams two_votes forwards_valid two_votes_powers Hq) as (t & Et & _ & _ & _ & Hw & _).
    vm_compute in Et. injection Et as <-. apply (Hw _ "A"%string); by vm_compute.
  - assert (powers_ok [vote "" 1; vote "A" 1]) as Hp by (split; [repeat constructor; done|done]).
    destruct (winners_are_quorums forwards DefaultParams _ forwards_valid Hp Hq) as (t & Et & _ & _ & _ & Hw & _).
    vm_compute in Et. injection Et as <-. apply (Hw _ "A"%string); by vm_compute.
Defined.

(** A root is confirmed with less than the quorum fraction of the power, because the
    threshold is rounded down: two of three units at 0.667. *)
Lemma quorum_below_fraction :
  winners forwards 2 (tally_votes two_votes) = [mkWinner ("chain", "sha256")%string [ballot_of (vote "A" 2) (extension "A")] 2] /\
  quorumThreshold DefaultParams (totalPower two_votes) = Ok 2 /\
  2 * dec_one < QuorumFraction DefaultParams * power_sum two_votes.
Proof. split_and!; vm_compute; reflexivity. Qed.

Lemma process_order_independent_witness :
  ProcessVoteExtensions forwards 10 two_votes start = ProcessVoteExtensions backwards 10 two_votes start.
Proof.
  apply process_order_independent; [apply forwards_valid|apply backwards_valid|apply two_votes_roots|
    apply two_votes_powers|done].
Defined.

Lemma injected_commit_processed_witness :
  let tx := (InjectedVoteExtensionPrefix ++ RefCodec.enc two_votes)%string in
  ProcessProposalHandler [tx; "tx"] = PROPOSAL_ACCEPT /\ ["tx"%string] = ["tx"%string] /\
  ProcessInjectedVoteExtension forwards 10 [tx; "tx"] start =
    match ProcessVoteExtensions forwards 10 two_votes start with
    | (Ok _, s') => (Ok true, s')
    | (Err _, s') => (Ok false, s')
    | (Panic p, s') => (Panic p, s')
    end.
Proof.
  intros tx.
  assert (PrepareProposalHandler two_votes ["tx"%string] = [tx; "tx"%string]) as Hp by reflexivity.
  assert ([tx; "tx"%string] <> ["tx"%string]) as Hne by by intros E%(f_equal length).
  exact (injected_commit_processed commit_codec forwards 10 two_votes _ _ _ start Hp Hne).
Defined.

Lemma forged_commit_confirmed_witness :
  let tx := (InjectedVoteExtensionPrefix ++ RefCodec.enc [vote "forged" 1])%string in
  ProcessProposalHandler [tx] = PROPOSAL_ACCEPT /\
  exists s' r, ProcessInjectedVoteExtension forwards 10 [tx] start = (Ok true, s') /\
    roots s' !! KeyHashRoot "chain" "sha256" = Some r /\ Root r = "forged"%string.
Proof.
  assert (0 <= QuorumFraction (GetParams start) <= dec_one) as Hq
    by (split; vm_compute; discriminate).
  exact (forged_commit_confirmed commit_codec roundtrip forwards 10 (extension "forged")
    (RefCodec.enc (extension "forged")) (RefCodec.enc [vote "forged" 1]) start
    forwards_valid eq_refl Hq eq_refl (RefCodec.enc_ne _) eq_refl).
Defined.

(** When votes without a root tie with votes for a root, the outcome
    depends on the order in which Go visits the tally: two nodes can write
    different roots for the same commit. *)
Theorem empty_root_order_dependent :
  let votes := [vote "" 1; vote "A" 1] in
  exists s1 s2, ProcessVoteExtensions forwards 10 votes start = (Ok tt, s1) /\
    ProcessVoteExtensions backwards 10 votes start = (Ok tt, s2) /\ roots s1 <> roots s2.
Proof.
  intros votes. eexists _, _. split; [vm_compute; reflexivity|]. split; [vm_compute; reflexivity|].
  intros E. apply (f_equal (lookup (KeyHashRoot "chain" "sha256"))) in E. vm_compute in E. discriminate.
Qed.

End VotesExamples.
