(* ===== verification/HashMerchant.v ===== *)
(** * x/hashmerchant: registrations, escrow and genesis

    The message server, the escrow that pays for callbacks, the pruning at the
    end of a block, and genesis. *)

From Stdlib Require Import ZArith Lia.
From stdpp Require Import base gmap strings list sorting.
From S2P Require Import Prelude Sdk SdkRef Store Bank GoLib HmOracle HmVotes.

Record GenesisState := mkGenesis {
  gParams : Params;
  gChains : list RegisteredChain;
  gContracts : list RegisteredContract;
  gEscrows : list EscrowRecord;
  gRoots : list HashRoot;
  gPruneEpoch : Z
}.

Inductive Msg :=
| MsgRegisterChain (Authority : string) (Chain : RegisteredChain)
| MsgRegisterContract (Sender Contract Chain : string) (Keys : list string) (Escrow : Coin)
| MsgRefillEscrow (Sender Contract : string) (Amt : Coin)
| MsgUpdateParams (Authority : string) (P : Params).

Section HashMerchantModel.
Context {W : Type} `{BankOps W} `{SdkCoins} `{Bech32}.

#[local] Abbreviation St := (State W).

(** ** Store access *)

Definition on_bank {A} (m : M W A) : M St A :=
  zoom world (fun w s => mkState w (params s) (chains s) (contracts s) (escrows s) (roots s)
                           (prune_epoch s) (sources s)) m.

Definition SetParams (p : Params) : M St unit :=
  modify (fun s => mkState (world s) (Some p) (chains s) (contracts s) (escrows s) (roots s)
                     (prune_epoch s) (sources s)).

Definition SetRegisteredChain (c : RegisteredChain) : M St unit :=
  modify (fun s => mkState (world s) (params s) (<[ChainUid c := c]> (chains s)) (contracts s)
                     (escrows s) (roots s) (prune_epoch s) (sources s)).

Definition SetRegisteredContract (c : RegisteredContract) : M St unit :=
  modify (fun s => mkState (world s) (params s) (chains s) (<[ContractAddr c := c]> (contracts s))
                     (escrows s) (roots s) (prune_epoch s) (sources s)).

Definition SetEscrowRecord (r : EscrowRecord) : M St unit :=
  modify (fun s => mkState (world s) (params s) (chains s) (contracts s)
                     (<[EscrowContract r := r]> (escrows s)) (roots s) (prune_epoch s) (sources s)).

Definition SetPruneEpoch (h : Z) : M St unit :=
  modify (fun s => mkState (world s) (params s) (chains s) (contracts s) (escrows s) (roots s) h
                     (sources s)).

Definition SetOracleSources (uid : string) (l : list OracleSource) : M St unit :=
  modify (fun s => mkState (world s) (params s) (chains s) (contracts s) (escrows s) (roots s)
                     (prune_epoch s) (<[uid := l]> (sources s))).

Definition GetRegisteredChain (s : St) (uid : string) : res RegisteredChain :=
  match chains s !! uid with Some c => Ok c | None => Err "ErrChainNotFound" end.

Definition GetRegisteredContract (s : St) (addr : string) : res RegisteredContract :=
  match contracts s !! addr with Some c => Ok c | None => Err "ErrContractNotFound" end.

Definition GetEscrowRecord (s : St) (addr : string) : res EscrowRecord :=
  match escrows s !! addr with Some r => Ok r | None => Err "ErrEscrowNotFound" end.

Definition EnsureSudoGasLimit : M St unit :=
  s ← get;
  let p := GetParams s in
  if negb (ContractGasLimit p =? 0) then mret tt
  else SetParams (mkParams (QuorumFraction p) (PruneInterval p) (EscrowDenom p) (MinEscrowAmount p)
                    DefaultContractGasLimit).

(** ** The message server *)

Definition RegisterChain (authority Authority : string) (Chain : RegisteredChain) : M St unit :=
  ensureM (bool_decide (authority = Authority)) "ErrInvalidSigner";;
  s ← get;
  refuseM (bool_decide (is_Some (chains s !! ChainUid Chain))) "ErrChainAlreadyExists";;
  SetRegisteredChain Chain.

(** [amount.Quo(min).Uint64()]. *)
Definition paid_periods (amount min : Z) : res Z :=
  must (negb (min =? 0)) "division by zero";;
  let q := Z.quot amount min in
  must ((0 <=? q) && (q <=? u64_max)) "Uint64() out of bounds";;
  Ok q.

(** A sender that does not parse is the nil address. *)
Definition sender_address (Sender : string) : string :=
  match AccAddressFromBech32 Sender with Ok a => a | _ => ""%string end.

Definition pay_escrow (Sender : string) (c : Coin) : M St unit :=
  coins ← lift (NewCoins [c]);
  on_bank (SendCoinsFromAccountToModule (sender_address Sender) "hashmerchant" coins).

Definition RegisterContract (height : Z) (Sender Contract Chain : string) (Keys : list string)
    (Escrow : Coin) : M St unit :=
  s ← get;
  chain ← lift (GetRegisteredChain s Chain);
  ensureM (ChainEnabled chain) "ErrChainDisabled";;
  let p := GetParams s in
  ensureM (bool_decide (Denom Escrow = EscrowDenom p)) "ErrInsufficientEscrow";;
  refuseM (Amount Escrow <? MinEscrowAmount p) "ErrInsufficientEscrow";;
  pay_escrow Sender Escrow;;
  periods ← lift (paid_periods (Amount Escrow) (MinEscrowAmount p));
  let paidUntil := u64 (height + u64 (periods * PruneInterval p)) in
  SetRegisteredContract (mkContract Contract Chain Keys true);;
  SetEscrowRecord (mkEscrow Contract Escrow paidUntil).

(** [Coin.Add] panics on different denominations. *)
Definition coin_add (a b : Coin) : res Coin :=
  must (bool_decide (Denom a = Denom b)) "invalid coin denominations";;
  Ok (mkCoin (Denom a) (Amount a + Amount b)).

Definition RefillEscrow (Sender Contract : string) (Amt : Coin) : M St unit :=
  s ← get;
  record ← lift (GetEscrowRecord s Contract);
  let p := GetParams s in
  ensureM (bool_decide (Denom Amt = EscrowDenom p)) "ErrInsufficientEscrow";;
  pay_escrow Sender Amt;;
  periods ← lift (paid_periods (Amount Amt) (MinEscrowAmount p));
  amount ← lift (coin_add (EscrowAmount record) Amt);
  SetEscrowRecord (mkEscrow (EscrowContract record) amount
    (u64 (PaidUntilHeight record + u64 (periods * PruneInterval p)))).

Definition UpdateParams (authority Authority : string) (p : Params) : M St unit :=
  ensureM (bool_decide (authority = Authority)) "ErrInvalidSigner";;
  lift (Params_Validate p);;
  SetParams p.

Definition handle (authority : string) (height : Z) (m : Msg) : M St unit :=
  match m with
  | MsgRegisterChain a c => RegisterChain authority a c
  | MsgRegisterContract sd c ch ks e => RegisterContract height sd c ch ks e
  | MsgRefillEscrow sd c a => RefillEscrow sd c a
  | MsgUpdateParams a p => UpdateParams authority a p
  end.

(** ** Stateless checks *)

Definition addr_ok (text : string) : res unit :=
  ensure (is_ok (AccAddressFromBech32 text)) "ErrUnauthorized".

Definition ValidateBasic (m : Msg) : res unit :=
  match m with
  | MsgRegisterChain a c =>
      addr_ok a;;
      refuse (bool_decide (ChainUid c = ""%string)) "ErrInvalidChainUID"
  | MsgRegisterContract sd c ch _ e =>
      addr_ok sd;;
      refuse (bool_decide (c = ""%string)) "ErrContractNotFound";;
      refuse (bool_decide (ch = ""%string)) "ErrInvalidChainUID";;
      ensure (0 <? Amount e) "ErrInsufficientEscrow"
  | MsgRefillEscrow sd c a =>
      addr_ok sd;;
      refuse (bool_decide (c = ""%string)) "ErrContractNotFound";;
      ensure (0 <? Amount a) "ErrInsufficientEscrow"
  | MsgUpdateParams a p => addr_ok a;; Params_Validate p
  end.

(** ** The end of a block *)

Definition disable (addr : string) : M St unit := fun s =>
  match GetRegisteredContract s addr with
  | Ok c => SetRegisteredContract (mkContract (ContractAddr c) (ContractChain c) (SubstoreKeys c) false) s
  | _ => (Ok tt, s)
  end.

Definition pruneExpiredEscrows (currentHeight : Z) : M St unit :=
  s ← get;
  let toDisable := map (fun e => EscrowContract e.2)
                     (List.filter (fun e => PaidUntilHeight e.2 <? currentHeight)
                        (iter_prefix "" (escrows s))) in
  forM toDisable disable.

Definition EndBlocker (height : Z) : M St unit :=
  s ← get;
  let blockHeight := u64 height in
  if PruneInterval (GetParams s) <=? u64 (blockHeight - prune_epoch s)
  then pruneExpiredEscrows blockHeight;; SetPruneEpoch blockHeight
  else mret tt.

(** ** Genesis *)

Fixpoint validate_chains (seen : gset string) (l : list RegisteredChain) : res unit :=
  match l with
  | [] => Ok tt
  | c :: l =>
      refuse (bool_decide (ChainUid c = ""%string)) "ErrInvalidChainUID";;
      refuse (bool_decide (ChainUid c ∈ seen)) "ErrChainAlreadyExists";;
      validate_chains ({[ChainUid c]} ∪ seen) l
  end.

Definition GenesisState_Validate (gs : GenesisState) : res unit :=
  Params_Validate (gParams gs);;
  validate_chains ∅ (gChains gs).

Definition init_chain (c : RegisteredChain) : M St unit :=
  SetRegisteredChain c;;
  if (length (OracleSources c) =? 0)%nat then mret tt
  else SetOracleSources (ChainUid c) (omap id (OracleSources c)).

Definition InitGenesis (gs : GenesisState) : M St unit :=
  SetParams (gParams gs);;
  forM (gChains gs) init_chain;;
  forM (gContracts gs) SetRegisteredContract;;
  forM (gEscrows gs) SetEscrowRecord;;
  forM (gRoots gs) SetHashRoot;;
  SetPruneEpoch (gPruneEpoch gs).

Definition all_values {V} (m : gmap string V) : list V := map snd (iter_prefix "" m).

Definition ExportGenesis (s : St) : GenesisState :=
  mkGenesis (GetParams s) (all_values (chains s)) (all_values (contracts s)) (all_values (escrows s))
    (all_values (roots s)) (prune_epoch s).

(** ** Specification *)

Definition module_account : string := module_address "hashmerchant".

(** [c] moved from the sender to the module account. *)
Definition paid_in (Sender : string) (c : Coin) (s s' : St) : Prop :=
  (forall a d, balance (world s') a d =
     balance (world s) a d + flow (sender_address Sender) module_account [c] a d) /\
  (forall d, supply (world s') d = supply (world s) d).

(** The effect of a message on the ledger, the registrations and the escrow. *)
Definition effect (height : Z) (m : Msg) (s s' : St) : Prop :=
  let p := GetParams s in
  let bought amount := u64 (Z.quot amount (MinEscrowAmount p) * PruneInterval p) in
  match m with
  | MsgRegisterContract sd c ch ks e =>
      paid_in sd e s s' /\ Denom e = EscrowDenom p /\ 0 <= Amount e /\
      MinEscrowAmount p <= Amount e /\ MinEscrowAmount p <> 0 /\
      (exists chain, chains s !! ch = Some chain /\ ChainEnabled chain = true) /\
      contracts s' = <[c := mkContract c ch ks true]> (contracts s) /\
      escrows s' = <[c := mkEscrow c e (u64 (height + bought (Amount e)))]> (escrows s)
  | MsgRefillEscrow sd c a =>
      paid_in sd a s s' /\ Denom a = EscrowDenom p /\ 0 <= Amount a /\ MinEscrowAmount p <> 0 /\
      contracts s' = contracts s /\
      exists r, escrows s !! c = Some r /\ Denom (EscrowAmount r) = Denom a /\
        escrows s' = <[EscrowContract r := mkEscrow (EscrowContract r)
          (mkCoin (Denom a) (Amount (EscrowAmount r) + Amount a))
          (u64 (PaidUntilHeight r + bought (Amount a)))]> (escrows s)
  | _ => world s' = world s /\ contracts s' = contracts s /\ escrows s' = escrows s
  end.

(** Everything recorded as escrow in [d]. *)
Definition escrowed (m : gmap string EscrowRecord) (d : string) : Z :=
  map_fold (fun _ r acc => amount_of [EscrowAmount r] d + acc) 0 m.

(** Records are stored under their contract, amounts are not negative, and the
    module account holds at least what is recorded. *)
Record escrow_inv (s : St) : Prop := {
  inv_contracts a c : contracts s !! a = Some c -> ContractAddr c = a;
  inv_escrows a r : escrows s !! a = Some r -> EscrowContract r = a /\ 0 <= Amount (EscrowAmount r);
  inv_solvent d : escrowed (escrows s) d <= balance (world s) module_account d
}.

(** The contract's escrow has run out at [height]. *)
Definition expired (s : St) (height : Z) (a : string) : bool :=
  match escrows s !! a with Some r => PaidUntilHeight r <? height | None => false end.

Definition sender (m : Msg) : option string :=
  match m with
  | MsgRegisterContract sd _ _ _ _ | MsgRefillEscrow sd _ _ => Some sd
  | _ => None
  end.

End HashMerchantModel.

Section HashMerchantProofs.
Context {W : Type} `{BankLaws W} `{SdkCoinsLaws} `{Bech32}.

#[local] Abbreviation St := (State W).

Lemma amount_of_single (c : Coin) d : amount_of [c] d = if decide (Denom c = d) then Amount c else 0.
Proof. cbn. case_decide; lia. Qed.

Lemma pay_escrow_Ok sd c (s s' : St) u : pay_escrow sd c s = (Ok u, s') ->
  paid_in sd c s s' /\ 0 <= Amount c /\
  s' = mkState (world s') (params s) (chains s) (contracts s) (escrows s) (roots s) (prune_epoch s) (sources s).
Proof.
  unfold pay_escrow, on_bank, zoom. intros E. go_inv.
  match goal with Hn : NewCoins [c] = Ok ?r |- _ => rename r into coins; apply NewCoins_ok in Hn as [Hok Ha] end.
  destruct (SendCoinsFromAccountToModule _ _ _ _) as [[[]| |] w'] eqn:Es; simplify_eq/=.
  apply SendToModule_ok in Es as (Hb & Hs & _). split_and!; [| |done].
  - split; [|exact Hs]. intros a d. cbn. rewrite Hb. unfold flow, module_account. by rewrite !Ha.
  - pose proof (Ha (Denom c)) as Hc. cbn in Hc. case_decide; [|done].
    pose proof (amount_of_nonneg coins (Denom c) (proj2 Hok)). lia.
Qed.

Lemma paid_periods_Ok a m q : paid_periods a m = Ok q -> m <> 0 /\ q = Z.quot a m.
Proof.
  unfold paid_periods. intros E. go_inv. split; [|done].
  match goal with Hm : negb (m =? 0) = true |- _ => by apply negb_true_iff, Z.eqb_neq in Hm end.
Qed.

Lemma handle_effect authority height m (s s' : St) u :
  handle authority height m s = (Ok u, s') -> effect height m s s'.
Proof.
  destruct m; cbn [handle]; intros E.
  - unfold RegisterChain, SetRegisteredChain in E. go_inv. done.
  - unfold RegisterContract, SetRegisteredContract, SetEscrowRecord, GetRegisteredChain in E. go_inv.
    destruct (chains _ !! Chain) as [chain|] eqn:Ec; simplify_eq.
    match goal with Hp : pay_escrow _ _ _ = _ |- _ => apply pay_escrow_Ok in Hp as (Hpaid & Hnn & ->) end.
    match goal with Hp : paid_periods _ _ = _ |- _ => apply paid_periods_Ok in Hp as [? ->] end.
    cbn. rewrite Z.ltb_ge in *. split_and!; try done. by eexists.
  - unfold RefillEscrow, SetEscrowRecord, GetEscrowRecord, coin_add in E. go_inv.
    destruct (escrows _ !! Contract) as [r|] eqn:Ec; simplify_eq.
    match goal with Hp : pay_escrow _ _ _ = _ |- _ => apply pay_escrow_Ok in Hp as (Hpaid & Hnn & ->) end.
    match goal with Hp : paid_periods _ _ = _ |- _ => apply paid_periods_Ok in Hp as [? ->] end.
    cbn. split_and!; try done. eexists. split_and!; [done|done|]. cbn. congruence.
  - unfold UpdateParams, SetParams in E. go_inv. done.
Qed.

(** A successful message has exactly the specified effect: registering or
    refilling moves the escrow from the sender to the module account and buys
    one prune interval for each full minimum amount (with the wrap-around of
    64-bit heights); a registration replaces whatever was registered for the
    contract, and a refill does not enable a disabled contract again; nothing
    else moves coins or changes registrations. *)
Theorem message_effect authority height m (s s' : St) u :
  handle authority height m s = (Ok u, s') -> effect height m s s'.
Proof. apply handle_effect. Qed.

(** ** The escrow is covered *)

Lemma escrowed_insert_new m a r d : m !! a = None ->
  escrowed (<[a := r]> m) d = amount_of [EscrowAmount r] d + escrowed m d.
Proof.
  intros Ha. unfold escrowed. rewrite map_fold_insert_L; [done| |done].
  intros. lia.
Qed.

(** Replacing a record changes the sum by the difference of the amounts. *)
Lemma escrowed_insert m a r d :
  escrowed (<[a := r]> m) d =
  escrowed m d + amount_of [EscrowAmount r] d -
  (if m !! a is Some r0 then amount_of [EscrowAmount r0] d else 0).
Proof.
  destruct (m !! a) as [r0|] eqn:E.
  - rewrite <- insert_delete_eq. rewrite escrowed_insert_new by apply lookup_delete_eq.
    rewrite <- (insert_delete_id m a r0 E) at 2. rewrite escrowed_insert_new by apply lookup_delete_eq. lia.
  - rewrite escrowed_insert_new by done. lia.
Qed.

Lemma paid_in_module sd c (s s' : St) d : paid_in sd c s s' -> sender_address sd <> module_account ->
  balance (world s') module_account d = balance (world s) module_account d + amount_of [c] d.
Proof.
  intros [Hb _] Hne. rewrite Hb. unfold flow. rewrite decide_True, decide_False by (done || congruence). lia.
Qed.

Lemma amount_of_coin_nonneg (c : Coin) d : 0 <= Amount c -> 0 <= amount_of [c] d.
Proof. rewrite amount_of_single. case_decide; lia. Qed.

(** C13: whatever messages succeed, the module account covers the recorded
    escrow, as long as the module account itself sends none. *)
Theorem escrow_stays_covered authority height m (s s' : St) u :
  escrow_inv s -> (forall sd, sender m = Some sd -> sender_address sd <> module_account) ->
  handle authority height m s = (Ok u, s') -> escrow_inv s'.
Proof.
  intros [Hc He Hs] Hsd Eh.
  apply handle_effect in Eh. destruct m; cbn in Eh, Hsd.
  - destruct Eh as (Ew & Ec & Ee). split; by rewrite ?Ew, ?Ec, ?Ee.
  - destruct Eh as (Hp & _ & Hnn & _ & _ & _ & Ec & Ee). split; rewrite ?Ec, ?Ee.
    + intros a c [[<- <-]|[_ ?]]%lookup_insert_Some; [done|by apply Hc].
    + intros a r [[<- <-]|[_ ?]]%lookup_insert_Some; [done|by apply He].
    + intros d. rewrite escrowed_insert, (paid_in_module _ _ _ _ d Hp) by auto. cbn [EscrowAmount].
      specialize (Hs d). destruct (escrows s !! Contract) as [r|] eqn:Er; [|lia].
      apply He in Er as [_ Hr]. pose proof (amount_of_coin_nonneg _ d Hr). lia.
  - destruct Eh as (Hp & Hd & Hnn & _ & Ec & r & Er & Edr & Ee). destruct (He _ _ Er) as [Ek Hr].
    split; rewrite ?Ec, ?Ee; [done|..].
    + intros a r' [[<- <-]|[_ ?]]%lookup_insert_Some; [|by apply He]. cbn. split; [done|lia].
    + intros d. rewrite escrowed_insert, (paid_in_module _ _ _ _ d Hp) by auto. rewrite Ek, Er.
      specialize (Hs d). rewrite !amount_of_single. cbn. rewrite Edr. case_decide; lia.
  - destruct Eh as (Ew & Ec & Ee). split; by rewrite ?Ew, ?Ec, ?Ee.
Qed.

(** ** Pruning *)

Lemma disable_contracts l (s : St) : (forall a c, contracts s !! a = Some c -> ContractAddr c = a) ->
  exists s', forM l disable s = (Ok tt, s') /\ s' = mkState (world s) (params s) (chains s) (contracts s')
    (escrows s) (roots s) (prune_epoch s) (sources s) /\
  forall a, contracts s' !! a = (fun c => mkContract (ContractAddr c) (ContractChain c) (SubstoreKeys c)
    (ContractEnabled c && negb (bool_decide (a ∈ l)))) <$> contracts s !! a.
Proof.
  revert s. induction l as [|x l IH]; intros s Hk.
  - exists s. split_and!; [done|by destruct s|]. intros a. cbn.
    destruct (contracts s !! a) as [[]|]; cbn; [|done].
    rewrite bool_decide_false by set_solver. by rewrite andb_true_r.
  - cbn [forM]. unfold mbind, M_bind, disable, GetRegisteredContract, SetRegisteredContract, modify.
    destruct (contracts s !! x) as [c|] eqn:Ex.
    + pose proof (Hk _ _ Ex) as Ec. cbn [ContractAddr]. rewrite Ec.
      edestruct (IH (mkState (world s) (params s) (chains s)
        (<[x := mkContract x (ContractChain c) (SubstoreKeys c) false]> (contracts s)) (escrows s)
        (roots s) (prune_epoch s) (sources s))) as (s' & E & Es & Hc).
      { cbn. intros a c' [[<- <-]|[_ ?]]%lookup_insert_Some; [done|by apply Hk]. }
      exists s'. split_and!; [exact E|exact Es|]. intros a. rewrite Hc. cbn.
      destruct (decide (a = x)) as [->|Hne].
      * rewrite lookup_insert_eq, Ex. cbn. rewrite Ec.
        rewrite (bool_decide_true (x ∈ x :: l)) by set_solver. by rewrite andb_false_r.
      * rewrite lookup_insert_ne by done. destruct (contracts s !! a); cbn; [|done].
        by rewrite (bool_decide_ext (a ∈ x :: l) (a ∈ l)) by set_solver.
    + destruct (IH s Hk) as (s' & E & Es & Hc). exists s'. split_and!; [exact E|exact Es|].
      intros a. rewrite Hc. destruct (contracts s !! a) eqn:Ea; cbn; [|done].
      rewrite (bool_decide_ext (a ∈ x :: l) (a ∈ l)); [done|]. set_solver.
Qed.

(** At the end of a block in which pruning is due, exactly the contracts
    whose escrow has run out are disabled and the height is noted; otherwise,
    and for the rest of the store, nothing changes.  It never fails. *)
Theorem end_block_effect height (s : St) : escrow_inv s ->
  exists s', EndBlocker height s = (Ok tt, s') /\
  if PruneInterval (GetParams s) <=? u64 (u64 height - prune_epoch s) then
    s' = mkState (world s) (params s) (chains s) (contracts s') (escrows s) (roots s) (u64 height) (sources s) /\
    forall a, contracts s' !! a = (fun c => mkContract (ContractAddr c) (ContractChain c) (SubstoreKeys c)
      (ContractEnabled c && negb (expired s (u64 height) a))) <$> contracts s !! a
  else s' = s.
Proof.
  intros [Hc He _]. unfold EndBlocker, mbind at 1, M_bind at 1, get.
  destruct (_ <=? _); [|by exists s]. unfold pruneExpiredEscrows, mbind, M_bind, get, SetPruneEpoch, modify.
  set (l := map _ _). destruct (disable_contracts l s Hc) as (s' & -> & Es & Hs').
  eexists. split; [done|]. cbn. split; [by rewrite Es|]. intros a. rewrite Hs'.
  destruct (contracts s !! a) as [c|]; cbn; [|done]. do 3 f_equal.
  assert (a ∈ l <-> expired s (u64 height) a = true) as Hl.
  { unfold l, expired. rewrite list_elem_of_fmap. split.
    - intros ([k r] & -> & Hin). rewrite list_elem_of_In, filter_In, <- list_elem_of_In in Hin.
      destruct Hin as [Hin Hp]. apply elem_of_iter_prefix in Hin. rewrite string_app_nil in Hin.
      cbn in *. destruct (He _ _ Hin) as [-> _]. by rewrite Hin.
    - destruct (escrows s !! a) as [r|] eqn:Er; [|done]. intros Hp. exists (a, r). cbn.
      destruct (He _ _ Er) as [-> _]. split; [done|].
      rewrite list_elem_of_In, filter_In, <- list_elem_of_In. split; [|done].
      apply elem_of_iter_prefix. by rewrite string_app_nil. }
  apply (f_equal negb). destruct (expired s (u64 height) a); [apply bool_decide_eq_true|apply bool_decide_eq_false];
    rewrite Hl; done.
Qed.

(** ** Genesis *)

Lemma all_values_perm {V} (m : gmap string V) : all_values m ≡ₚ (map_to_list m).*2.
Proof.
  unfold all_values, iter_prefix. rewrite map_map. cbn. apply Permutation_map.
  rewrite merge_sort_Permutation.
  replace (List.filter (fun kv => String.prefix "" kv.1) (map_to_list m)) with (map_to_list m); [done|].
  induction (map_to_list m) as [|[k v] l IH]; [done|]. cbn. destruct k; cbn; by f_equal.
Qed.

(** Storing the entries of a list under distinct keys and reading them back. *)
Lemma all_values_stored {V} (key : V -> string) (l : list V) : NoDup (map key l) ->
  all_values (foldl (fun m v => <[key v := v]> m) ∅ l) ≡ₚ l.
Proof.
  intros Hnd. rewrite all_values_perm.
  enough (forall m : gmap string V, Forall (fun v => m !! key v = None) l ->
    (map_to_list (foldl (fun m v => <[key v := v]> m) m l)).*2 ≡ₚ l ++ (map_to_list m).*2) as Hg.
  { rewrite Hg by (apply Forall_forall; intros; apply lookup_empty).
    rewrite map_to_list_empty. by rewrite app_nil_r. }
  induction l as [|v l IH]; intros m Hm; [done|]. cbn in *.
  apply NoDup_cons in Hnd as [Hv Hnd]. apply Forall_cons in Hm as [Hk Hm]. rewrite IH; [|done|].
  - rewrite map_to_list_insert by done. cbn. symmetry. apply Permutation_middle.
  - apply Forall_forall. intros w Hw. rewrite lookup_insert_ne.
    + by apply (proj1 (Forall_forall _ _) Hm).
    + intros E. apply Hv. rewrite E. by apply list_elem_of_fmap_2.
Qed.

Definition store {V} (key : V -> string) (m : gmap string V) (l : list V) : gmap string V :=
  foldl (fun m v => <[key v := v]> m) m l.

Lemma init_contracts l (s : St) : forM l SetRegisteredContract s =
  (Ok tt, mkState (world s) (params s) (chains s) (store ContractAddr (contracts s) l) (escrows s)
            (roots s) (prune_epoch s) (sources s)).
Proof. revert s. induction l as [|c l IH]; intros []; [done|]. apply IH. Qed.

Lemma init_escrows l (s : St) : forM l SetEscrowRecord s =
  (Ok tt, mkState (world s) (params s) (chains s) (contracts s) (store EscrowContract (escrows s) l)
            (roots s) (prune_epoch s) (sources s)).
Proof. revert s. induction l as [|c l IH]; intros []; [done|]. apply IH. Qed.

Definition root_key (r : HashRoot) : string := KeyHashRoot (RootChain r) (RootAlgo r).

Lemma init_roots l (s : St) : forM l SetHashRoot s =
  (Ok tt, mkState (world s) (params s) (chains s) (contracts s) (escrows s)
            (store root_key (roots s) l) (prune_epoch s) (sources s)).
Proof. revert s. induction l as [|c l IH]; intros []; [done|]. apply IH. Qed.

Lemma init_chains l (s : St) : exists srcs, forM l init_chain s =
  (Ok tt, mkState (world s) (params s) (store ChainUid (chains s) l) (contracts s) (escrows s)
            (roots s) (prune_epoch s) srcs).
Proof.
  revert s. induction l as [|c l IH]; intros s; [by exists (sources s); destruct s|].
  cbn [forM]. unfold mbind at 1, M_bind at 1, init_chain at 1, mbind at 1, M_bind at 1, SetRegisteredChain, modify.
  destruct (_ =? _)%nat; cbn; [apply IH|].
  destruct (IH (mkState (world s) (params s) (<[ChainUid c := c]> (chains s)) (contracts s) (escrows s)
    (roots s) (prune_epoch s) (<[ChainUid c := omap id (OracleSources c)]> (sources s)))) as [srcs E].
  by exists srcs.
Qed.

Lemma validate_chains_nodup seen l u : validate_chains seen l = Ok u ->
  NoDup (map ChainUid l) /\ Forall (fun c => ChainUid c ∉ seen) l.
Proof.
  revert seen. induction l as [|c l IH]; intros seen E; cbn in *; [split; constructor|]. go_inv.
  match goal with Hv : validate_chains _ _ = _ |- _ => apply IH in Hv as [Hnd Hf] end.
  rewrite Forall_forall in Hf. split.
  - constructor; [|done]. intros (y & Ey & Hy)%list_elem_of_fmap. apply (Hf y Hy). rewrite Ey. set_solver.
  - constructor; [done|]. apply Forall_forall. intros y Hy. specialize (Hf y Hy). set_solver.
Qed.

(** A valid genesis with one record per contract and root initialises an
    empty store without failing, and exporting it gives the same parameters,
    prune height and records, up to their order. *)
Theorem genesis_reexported gs w u :
  GenesisState_Validate gs = Ok u ->
  NoDup (map ContractAddr (gContracts gs)) -> NoDup (map EscrowContract (gEscrows gs)) ->
  NoDup (map root_key (gRoots gs)) ->
  exists s, InitGenesis gs (mkState w None ∅ ∅ ∅ ∅ 0 ∅ : St) = (Ok tt, s) /\
    let gs' := ExportGenesis s in
    gParams gs' = gParams gs /\ gPruneEpoch gs' = gPruneEpoch gs /\
    gChains gs' ≡ₚ gChains gs /\ gContracts gs' ≡ₚ gContracts gs /\
    gEscrows gs' ≡ₚ gEscrows gs /\ gRoots gs' ≡ₚ gRoots gs.
Proof.
  intros Hv Hc He Hr. unfold GenesisState_Validate in Hv. go_inv.
  match goal with H' : validate_chains _ _ = _ |- _ => apply validate_chains_nodup in H' as [Hch _] end.
  unfold InitGenesis, mbind, M_bind, SetParams, modify, SetPruneEpoch.
  cbn [world params chains contracts escrows roots prune_epoch sources].
  destruct (init_chains (gChains gs) (mkState w (Some (gParams gs)) ∅ ∅ ∅ ∅ 0 ∅)) as [srcs ->].
  rewrite init_contracts, init_escrows, init_roots. eexists. split; [reflexivity|]. cbn.
  split_and!; try done; by apply all_values_stored.
Qed.

(** A chain that governance registers has no oracle sources in the store,
    whatever the message lists, so every vote extension with attestations for
    it is rejected. *)
Theorem registered_chain_unusable `{HmExternal, SliceSort} authority height a c (s s' : St) u ve data :
  handle authority height (MsgRegisterChain a c) s = (Ok u, s') -> sources s !! ChainUid c = None ->
  ve_unmarshal ve = Ok data -> VeChainUid data = ChainUid c -> voteExtensionAttestations data <> [] ->
  ve <> ""%string -> VerifyVoteExtensionHandler s' ve = REJECT.
Proof.
  cbn. unfold RegisterChain, SetRegisteredChain. intros E Hs Hu Hd Ha Hve. go_inv.
  unfold VerifyVoteExtensionHandler. rewrite string_length_0, bool_decide_false, Hu, Hd by done.
  cbn [chains]. rewrite lookup_insert_eq. destruct (ChainEnabled c); [|done]. cbn [negb].
  destruct (is_ok _) eqn:Ev; [|done]. exfalso. apply verifyOracleAttestations_Ok in Ev.
  unfold GetOracleSources in Ev. cbn in Ev. rewrite Hs in Ev. cbn in Ev.
  destruct (voteExtensionAttestations data) as [|att l]; [done|].
  apply Forall_cons in Ev as [(b & src & a' & auth & Hl & _) _]. by destruct b.
Qed.

End HashMerchantProofs.

(** ** Examples *)

Section HashMerchantExamples.
Import Ref RefLaws RefBank RefBankLaws RefOracle RefSort.

#[local] Abbreviation alice := (AccAddress_String "alice").
#[local] Abbreviation bob := (AccAddress_String "bob").

Definition funds : ref_bank :=
  mkBank {[("alice", "uterp")%string := 9000000; ("bob", "uterp")%string := 9000000]} ∅ ∅.

Definition fresh (p : Params) : State ref_bank :=
  mkState funds (Some p) {["chain" := mkChain "chain" true []]} ∅ ∅ ∅ 0 ∅.

Definition register (who : string) (n : Z) : Msg :=
  MsgRegisterContract who "contract" "chain" [] (mkCoin "uterp" n).

(** The store after the messages, all sent at height 10. *)
Definition after (l : list Msg) (s : State ref_bank) : State ref_bank :=
  (forM l (handle "gov" 10) s).2.

Lemma fresh_inv p : escrow_inv (fresh p).
Proof.
  split; [done..|]. intros d. cbn. unfold RefBank.get_bal, funds. cbn.
  rewrite lookup_insert_ne, lookup_singleton_ne by done. done.
Qed.

Lemma message_effect_witness :
  effect 10 (register alice 3000000) (fresh DefaultParams)
    (after [register alice 3000000] (fresh DefaultParams)).
Proof. eapply (message_effect "gov"). vm_compute. reflexivity. Defined.

Lemma escrow_stays_covered_witness : escrow_inv (after [register alice 3000000] (fresh DefaultParams)).
Proof.
  eapply (escrow_stays_covered "gov" 10 (register alice 3000000)); [apply (fresh_inv DefaultParams)|..].
  - intros sd [= <-]. done.
  - vm_compute. reflexivity.
Defined.

Lemma end_block_effect_witness : exists s', EndBlocker 5000 (fresh DefaultParams) = (Ok tt, s') /\
  prune_epoch s' = 5000.
Proof.
  destruct (end_block_effect 5000 (fresh DefaultParams) (fresh_inv _)) as (s' & E & Hs).
  exists s'. split; [done|]. cbn in Hs. destruct Hs as [-> _]. done.
Defined.

Lemma genesis_reexported_witness :
  let gs := mkGenesis DefaultParams [mkChain "chain" true []] [mkContract "c" "chain" [] true]
              [mkEscrow "c" (mkCoin "uterp" 1) 5] [] 7 in
  exists s : State ref_bank, InitGenesis gs (mkState funds None ∅ ∅ ∅ ∅ 0 ∅) = (Ok tt, s) /\
    let gs' := ExportGenesis s in
    gParams gs' = gParams gs /\ gPruneEpoch gs' = gPruneEpoch gs /\
    gChains gs' ≡ₚ gChains gs /\ gContracts gs' ≡ₚ gContracts gs /\
    gEscrows gs' ≡ₚ gEscrows gs /\ gRoots gs' ≡ₚ gRoots gs.
Proof.
  intros gs. apply (genesis_reexported gs funds tt); [by vm_compute|..];
    repeat constructor; set_solver.
Defined.

Definition signed_extension : VoteExtensionHashData :=
  mkExtension "new" "sha256" "" 7 1 "" [Some example_attestation].

Lemma registered_chain_unusable_witness :
  VerifyVoteExtensionHandler
    (after [MsgRegisterChain "gov" (mkChain "new" true [Some example_source])] (fresh DefaultParams))
    (RefCodec.enc signed_extension) = REJECT.
Proof.
  eapply (registered_chain_unusable "gov" 10 "gov" (mkChain "new" true [Some example_source])
    (fresh DefaultParams) _ tt _ signed_extension); [vm_compute; reflexivity|done|..|].
  - apply RefCodec.dec_enc.
  - done.
  - done.
  - apply RefCodec.enc_ne.
Defined.

(** A registration can be replaced by anyone who pays the minimum: what
    was paid for before stays with the module and the paid period shrinks. *)
Theorem reregistration_forfeits :
  let s1 := after [register alice 5000000] (fresh DefaultParams) in
  let s2 := after [register bob 1000000] s1 in
  PaidUntilHeight <$> escrows s1 !! "contract"%string = Some 5010 /\
  PaidUntilHeight <$> escrows s2 !! "contract"%string = Some 1010 /\
  escrowed (escrows s2) "uterp" = 1000000 /\
  balance (world s2) module_account "uterp" = 6000000.
Proof. by vm_compute. Qed.

(** The parameter check accepts a minimum escrow of zero, with which every
    registration panics on a division by zero. *)
Lemma zero_minimum_panics :
  let p := mkParams 0 1 "uterp" 0 0 in
  Params_Validate p = Ok tt /\
  (handle "gov" 10 (register alice 1) (fresh p)).1 = Panic "division by zero".
Proof. by vm_compute. Qed.

End HashMerchantExamples.
