(* ===== verification/WasmAccess.v ===== *)
(** * x/wasm: access configuration and authorisation policies

    Who may upload code and instantiate it, when one configuration is at least
    as strict as another, and the policies under which messages and the
    messages that contracts send in turn are authorised. *)

From Stdlib Require Import ZArith Lia Ascii.
From stdpp Require Import base gmap strings list.
From S2P Require Import Prelude Sdk SdkRef GoLib.

(** ** Data *)

Inductive AccessType :=
  AccessTypeUnspecified | AccessTypeNobody | AccessTypeEverybody | AccessTypeAnyOfAddresses.

#[export] Instance access_type_eq_dec : EqDecision AccessType.
Proof. solve_decision. Defined.

Record AccessConfig := mkAccess { Permission : AccessType; Addresses : list string }.

Record ChainAccessConfigs := mkChainConfigs { Upload : AccessConfig; Instantiate : AccessConfig }.

Record Params := mkParams {
  CodeUploadAccess : AccessConfig;
  InstantiateDefaultPermission : AccessType;
  CircuitUploadAccess : AccessConfig;
  CircuitDevDestination : string
}.

Inductive Action := AuthZActionInstantiate | AuthZActionMigrateContract.

#[export] Instance action_eq_dec : EqDecision Action.
Proof. solve_decision. Defined.

(** The implementations of [AuthorizationPolicy]; a partial policy always
    decorates the default one. *)
Inductive Policy :=
| DefaultAuthorizationPolicy
| GovAuthorizationPolicy (propagate : list Action)
| PartialGovAuthorizationPolicy (action : Action).

Section AccessModel.
Context `{Bech32}.

(** ** Configurations *)

Definition AllowEverybody : AccessConfig := mkAccess AccessTypeEverybody [].
Definition AllowNobody : AccessConfig := mkAccess AccessTypeNobody [].

Definition MaxAddressCount : nat := 50.

(** [strings.ToUpper] on the characters of an address. *)
Definition upper_char (c : ascii) : ascii :=
  let n := N_of_ascii c in if ((97 <=? n) && (n <=? 122))%N%bool then ascii_of_N (n - 32) else c.

Fixpoint to_upper (s : string) : string :=
  match s with
  | EmptyString => ""
  | String c s => String (upper_char c) (to_upper s)
  end.

Fixpoint validate_addresses (index : gset string) (l : list string) : res unit :=
  match l with
  | [] => Ok tt
  | addr :: l =>
      AccAddressFromBech32 addr;;
      refuse (bool_decide (to_upper addr ∈ index)) "ErrDuplicate";;
      validate_addresses ({[to_upper addr]} ∪ index) l
  end.

Definition validateBech32Addresses (l : list string) : res unit :=
  refuse (length l =? 0)%nat "ErrEmpty";;
  refuse (MaxAddressCount <? length l)%nat "ErrInvalidRequest";;
  validate_addresses ∅ l.

Definition AccessConfig_ValidateBasic (a : AccessConfig) : res unit :=
  match Permission a with
  | AccessTypeUnspecified => Err "ErrEmpty"
  | AccessTypeNobody | AccessTypeEverybody => Ok tt
  | AccessTypeAnyOfAddresses => validateBech32Addresses (Addresses a)
  end.

Definition validateAccessType (a : AccessType) : res unit :=
  refuse (bool_decide (a = AccessTypeUnspecified)) "ErrEmpty".

Definition Params_ValidateBasic (p : Params) : res unit :=
  validateAccessType (InstantiateDefaultPermission p);;
  AccessConfig_ValidateBasic (CircuitUploadAccess p);;
  AccessConfig_ValidateBasic (CodeUploadAccess p);;
  if bool_decide (CircuitDevDestination p = ""%string) then Ok tt
  else AccAddressFromBech32 (CircuitDevDestination p);; Ok tt.

Definition With (a : AccessType) (addrs : list string) : res AccessConfig :=
  match a with
  | AccessTypeNobody => Ok AllowNobody
  | AccessTypeEverybody => Ok AllowEverybody
  | AccessTypeAnyOfAddresses =>
      let texts := map AccAddress_String addrs in
      match validateBech32Addresses texts with
      | Ok _ => Ok (mkAccess AccessTypeAnyOfAddresses texts)
      | Err e | Panic e => Panic e
      end
  | AccessTypeUnspecified => Panic "unsupported access type"
  end.

Definition Allowed (a : AccessConfig) (actor : string) : res bool :=
  match Permission a with
  | AccessTypeNobody => Ok false
  | AccessTypeEverybody => Ok true
  | AccessTypeAnyOfAddresses => Ok (bool_decide (AccAddress_String actor ∈ Addresses a))
  | AccessTypeUnspecified => Panic "unknown type"
  end.

Definition AccessType_IsSubset (a superSet : AccessType) : bool :=
  match superSet with
  | AccessTypeEverybody => negb (bool_decide (a = AccessTypeUnspecified))
  | AccessTypeNobody => bool_decide (a = AccessTypeNobody)
  | AccessTypeAnyOfAddresses =>
      bool_decide (a = AccessTypeNobody) || bool_decide (a = AccessTypeAnyOfAddresses)
  | AccessTypeUnspecified => false
  end.

Definition isSubset (super sub : list string) : bool :=
  if (length sub =? 0)%nat then true
  else
    let matches := foldl (fun n o => if bool_decide (o ∈ super) then S n else n) O sub in
    (matches =? length sub)%nat.

Definition IsSubset (a superSet : AccessConfig) : bool :=
  match Permission superSet with
  | AccessTypeAnyOfAddresses =>
      bool_decide (Permission a = AccessTypeNobody) ||
      (bool_decide (Permission a = AccessTypeAnyOfAddresses) && isSubset (Addresses superSet) (Addresses a))
  | AccessTypeUnspecified => false
  | _ => AccessType_IsSubset (Permission a) (Permission superSet)
  end.

(** ** Policies *)

(** Addresses are compared as bytes; a nil address is empty. *)
Definition same_address (x y : string) : bool :=
  negb (bool_decide (x = ""%string)) && bool_decide (x = y).

Definition CanCreateCode (p : Policy) (chainConfigs : ChainAccessConfigs) (actor : string)
    (contractConfig : AccessConfig) : res bool :=
  match p with
  | GovAuthorizationPolicy _ => Ok true
  | _ =>
      allowed ← Allowed (Upload chainConfigs) actor;
      Ok (allowed && IsSubset contractConfig (Instantiate chainConfigs))
  end.

Definition CanInstantiateContract (p : Policy) (c : AccessConfig) (actor : string) : res bool :=
  match p with
  | GovAuthorizationPolicy _ | PartialGovAuthorizationPolicy AuthZActionInstantiate => Ok true
  | _ => Allowed c actor
  end.

Definition CanModifyContract (p : Policy) (admin actor : string) : bool :=
  match p with
  | GovAuthorizationPolicy _ | PartialGovAuthorizationPolicy AuthZActionMigrateContract => true
  | _ => same_address admin actor
  end.

Definition CanModifyCodeAccessConfig (p : Policy) (creator actor : string) (is_subset : bool) : bool :=
  match p with
  | GovAuthorizationPolicy _ => true
  | _ => same_address creator actor && is_subset
  end.

Definition SubMessageAuthorizationPolicy (p : Policy) (action : Action) : Policy :=
  match p with
  | DefaultAuthorizationPolicy => DefaultAuthorizationPolicy
  | GovAuthorizationPolicy propagate =>
      if bool_decide (action ∈ propagate) then PartialGovAuthorizationPolicy action
      else DefaultAuthorizationPolicy
  | PartialGovAuthorizationPolicy a => PartialGovAuthorizationPolicy a
  end.

(** The policy a message is checked under after passing through the entry
    points of contracts, outermost first. *)
Definition nested_policy (p : Policy) (path : list Action) : Policy :=
  foldl SubMessageAuthorizationPolicy p path.

(** [propagate] of the policy at the top: what governance hands on. *)
Definition hands_on (p : Policy) (a : Action) : Prop :=
  match p with
  | DefaultAuthorizationPolicy => False
  | GovAuthorizationPolicy propagate => a ∈ propagate
  | PartialGovAuthorizationPolicy a' => a = a'
  end.

End AccessModel.

Section AccessProofs.
Context `{Bech32Laws}.

Lemma isSubset_spec super sub : isSubset super sub = true <-> sub ⊆ super.
Proof.
  assert (forall n, let m := foldl (fun n o => if bool_decide (o ∈ super) then S n else n) n sub in
    (m <= n + length sub)%nat /\ (m = (n + length sub)%nat <-> sub ⊆ super)) as Hg.
  { induction sub as [|o sub IH]; intros n; cbn; [split; [lia|split; [set_solver|lia]]|].
    case_bool_decide as Ho.
    - destruct (IH (S n)) as [Hle Heq]. split; [lia|].
      replace (n + S (length sub))%nat with (S n + length sub)%nat by lia. rewrite Heq. set_solver.
    - destruct (IH n) as [Hle Heq]. split; [lia|]. split; [lia|set_solver]. }
  unfold isSubset. destruct (Nat.eqb_spec (length sub) 0) as [E|E].
  - apply nil_length_inv in E as ->. split; [set_solver|done].
  - destruct (Hg O) as [_ Hm]. cbn in Hm. rewrite Nat.eqb_eq. exact Hm.
Qed.

(** A configuration that counts as a subset of another lets in nobody whom
    the other keeps out. *)
Theorem IsSubset_sound a superSet actor :
  IsSubset a superSet = true -> Allowed a actor = Ok true -> Allowed superSet actor = Ok true.
Proof.
  unfold IsSubset, Allowed, AccessType_IsSubset. intros Hs Ha.
  destruct (Permission superSet) eqn:Es; [done|..|].
  - apply bool_decide_eq_true in Hs. by rewrite Hs in Ha.
  - done.
  - apply orb_true_iff in Hs as [Hs|[Hp Hs]%andb_true_iff].
    + apply bool_decide_eq_true in Hs. by rewrite Hs in Ha.
    + apply bool_decide_eq_true in Hp. rewrite Hp in Ha.
      injection Ha as Ha%bool_decide_eq_true. apply isSubset_spec in Hs.
      f_equal. apply bool_decide_eq_true. set_solver.
Qed.

(** Two addresses of a valid list never differ only in case. *)
Lemma validate_addresses_nodup index l u : validate_addresses index l = Ok u ->
  NoDup (map to_upper l) /\ Forall (fun a => to_upper a ∉ index) l /\
  Forall (fun a => is_ok (AccAddressFromBech32 a) = true) l.
Proof.
  revert index. induction l as [|a l IH]; intros index E; cbn in *; [by repeat constructor|]. go_inv.
  match goal with Hv : validate_addresses _ _ = _ |- _ => apply IH in Hv as (Hnd & Hf & Ha) end.
  rewrite Forall_forall in Hf.
  match goal with Hok : AccAddressFromBech32 a = Ok _ |- _ => rename Hok into Hpa end. split_and!.
  - constructor; [|done]. intros (y & Ey & Hy)%list_elem_of_fmap. apply (Hf y Hy). rewrite Ey. set_solver.
  - constructor; [done|]. apply Forall_forall. intros y Hy. specialize (Hf y Hy). set_solver.
  - constructor; [by rewrite Hpa|done].
Qed.

(** However deep contracts call each other, messages below governance can
    create code, instantiate, migrate and change access exactly as the default
    policy allows, except for an action that governance handed on, which stays
    the only one lifted. *)
Theorem nested_policy_confined p a path :
  let q := nested_policy (SubMessageAuthorizationPolicy p a) path in
  (forall c actor cfg, CanCreateCode q c actor cfg = CanCreateCode DefaultAuthorizationPolicy c actor cfg) /\
  (forall cr actor b, CanModifyCodeAccessConfig q cr actor b =
     CanModifyCodeAccessConfig DefaultAuthorizationPolicy cr actor b) /\
  (~ hands_on p AuthZActionInstantiate ->
   forall c actor, CanInstantiateContract q c actor = Allowed c actor) /\
  (~ hands_on p AuthZActionMigrateContract ->
   forall admin actor, CanModifyContract q admin actor = same_address admin actor).
Proof.
  assert (forall q, (q = DefaultAuthorizationPolicy \/ exists b, q = PartialGovAuthorizationPolicy b) ->
    nested_policy q path = q) as Hfix.
  { intros q [->|[b ->]]; unfold nested_policy; induction path as [|x path IH]; by cbn. }
  assert (let q := SubMessageAuthorizationPolicy p a in q = DefaultAuthorizationPolicy \/
    exists b, q = PartialGovAuthorizationPolicy b /\ hands_on p b) as Hq.
  { destruct p as [|l|b]; cbn; [by left| |right; by exists b]. case_bool_decide; [right; by exists a|by left]. }
  cbn zeta in Hq |- *. rewrite Hfix by naive_solver.
  destruct Hq as [->|(b & -> & Hb)]; [done|].
  split_and!; [done..|intros Hn|intros Hn]; destruct b; done.
Qed.

End AccessProofs.

Section AccessExamples.
Import Ref RefLaws.

Definition alice_only : AccessConfig := mkAccess AccessTypeAnyOfAddresses [AccAddress_String "alice"].

Lemma IsSubset_sound_witness : Allowed AllowEverybody "alice" = Ok true.
Proof. apply (IsSubset_sound alice_only AllowEverybody "alice"); done. Defined.

End AccessExamples.
