(* ===== verification/WasmGas.v ===== *)
(** * x/wasm: gas register

    The costs the module charges for loading contracts, for replies and for
    events, the conversion between SDK gas and virtual machine gas in 64-bit
    arithmetic, and the gas a contract call is given and charged. *)

From Stdlib Require Import ZArith Lia.
From stdpp Require Import base strings list.
From S2P Require Import Prelude Sdk SdkRef.

(** ** Data *)

Record EventAttribute := mkAttr { Key : string; Value : string }.
Record Event := mkEvent { Type_ : string; Attributes : list EventAttribute }.

#[export] Instance attr_eq_dec : EqDecision EventAttribute.
Proof. solve_decision. Defined.
#[export] Instance event_eq_dec : EqDecision Event.
Proof. solve_decision. Defined.

Record MsgResponse := mkMsgResponse { TypeURL : string; MsgValue : string }.
Record SubMsgResponse := mkSubMsgResponse {
  Events : list Event; Data : string; MsgResponses : list MsgResponse }.

(** [Ok_] is a pointer: [None] when the submessage failed. *)
Record SubMsgResult := mkSubMsgResult { Ok_ : option SubMsgResponse; Err_ : string }.
Record Reply := mkReply { ID : Z; Result : SubMsgResult; Payload : string }.

Record UFraction := mkFraction { Numerator : Z; Denominator : Z }.

Definition UFraction_Mul (f : UFraction) (m : Z) : UFraction :=
  mkFraction (u64 (Numerator f * m)) (Denominator f).

(** Integer division panics on a zero denominator. *)
Definition UFraction_Floor (f : UFraction) : res Z :=
  must (negb (Denominator f =? 0)) "integer divide by zero";;
  mret (Numerator f / Denominator f).

Record WasmGasRegisterConfig := mkGasConfig {
  InstanceCost : Z;
  InstanceCostDiscount : Z;
  CompileCost : Z;
  UncompressCost : UFraction;
  GasMultiplier : Z;
  EventPerAttributeCost : Z;
  EventAttributeDataCost : Z;
  EventAttributeDataFreeTier : Z;
  ContractMessageDataCost : Z;
  CustomEventCost : Z;
  PinCodeCost : Z;
  UnpinCodeCost : Z
}.

Definition DefaultGasRegisterConfig : WasmGasRegisterConfig := {|
  InstanceCost := 60000;
  InstanceCostDiscount := 2000;
  CompileCost := 3;
  UncompressCost := mkFraction 15 100;
  GasMultiplier := 140000;
  EventPerAttributeCost := 10;
  EventAttributeDataCost := 1;
  EventAttributeDataFreeTier := 100;
  ContractMessageDataCost := 0;
  CustomEventCost := 20;
  PinCodeCost := 500000;
  UnpinCodeCost := 500000
|}.

(** ** Operations *)

Definition NewWasmGasRegister (c : WasmGasRegisterConfig) : res WasmGasRegisterConfig :=
  must (negb (GasMultiplier c =? 0)) "GasMultiplier can not be 0";;
  mret c.

Definition slen (s : string) : Z := Z.of_nat (String.length s).

Section Costs.
Context (c : WasmGasRegisterConfig).

Definition UncompressCosts (byteLength : Z) : res Z :=
  must (negb (byteLength <? 0)) "negative length";;
  UFraction_Floor (UFraction_Mul (UncompressCost c) (u64 byteLength)).

Definition SetupContractCost (discount : bool) (msgLen : Z) : res Z :=
  must (negb (msgLen <? 0)) "negative length";;
  let dataCost := u64 (msgLen * ContractMessageDataCost c) in
  mret (if discount then u64 (InstanceCostDiscount c + dataCost) else u64 (InstanceCost c + dataCost)).

Definition calcWithFreeTier (storedBytes freeTier : Z) : Z * Z :=
  if storedBytes <=? freeTier then (0, freeTier - storedBytes) else (storedBytes - freeTier, 0).

Definition attr_bytes (a : EventAttribute) : Z := slen (Key a) + slen (Value a).

Definition eventAttributeCosts (attrs : list EventAttribute) (freeTier : Z) : res (Z * Z) :=
  match attrs with
  | [] => mret (0, freeTier)
  | _ =>
      let storedBytes := foldl (fun n l => u64 (n + u64 (attr_bytes l))) 0 attrs in
      let '(storedBytes, freeTier) := calcWithFreeTier storedBytes freeTier in
      let r := EventAttributeDataCost c * storedBytes
               + EventPerAttributeCost c * Z.of_nat (length attrs) in
      must (r <=? u64_max) "ErrorOutOfGas";;
      mret (r, freeTier)
  end.

Fixpoint eventsCosts (events : list Event) (gas remainingFreeTier : Z) : res Z :=
  match events with
  | [] => mret gas
  | e :: events =>
      let gas := u64 (gas + CustomEventCost c) in
      let gas := u64 (gas + u64 (slen (Type_ e) * EventAttributeDataCost c)) in
      r ← eventAttributeCosts (Attributes e) remainingFreeTier;
      eventsCosts events (u64 (gas + r.1)) r.2
  end.

Definition EventCosts (attrs : list EventAttribute) (events : list Event) : res Z :=
  r ← eventAttributeCosts attrs (EventAttributeDataFreeTier c);
  eventsCosts events r.1 r.2.

Definition ReplyCosts (discount : bool) (reply : Reply) : res Z :=
  let msgLen := slen (Err_ (Result reply)) in
  match Ok_ (Result reply) with
  | Some ok =>
      let eventGas := foldl (fun g e => u64 (g + u64 (slen (Type_ e) * EventAttributeDataCost c)))
                        0 (Events ok) in
      attrGas ← EventCosts (concat (map Attributes (Events ok))) [];
      setup ← SetupContractCost discount (msgLen + slen (Data ok));
      mret (u64 (u64 (eventGas + attrGas) + setup))
  | None =>
      setup ← SetupContractCost discount msgLen;
      mret (u64 (0 + setup))
  end.

Definition ToWasmVMGas (source : Z) : res Z :=
  let x := u64 (source * GasMultiplier c) in
  must (negb (x <? source)) "ErrorGasOverflow";;
  mret x.

Definition FromWasmVMGas (source : Z) : res Z :=
  must (negb (GasMultiplier c =? 0)) "integer divide by zero";;
  mret (source / GasMultiplier c).

(** ** Gas of a contract call *)

Context {G : Type} `{GasMeterOps G}.

Definition runtimeGasForContract (meter : G) : res Z :=
  if IsOutOfGas meter then mret 0
  else if GasLimit meter =? u64_max then mret u64_max
  else ToWasmVMGas (u64 (GasLimit meter - GasConsumedToLimit meter)).

Definition consumeRuntimeGas (gas : Z) : M G unit :=
  consumed ← lift (FromWasmVMGas gas);
  ConsumeGas consumed;;
  out ← gets IsOutOfGas;
  (if out : bool then panic "ErrorOutOfGas" else mret tt).

End Costs.

(** ** Events are charged by one formula *)

Definition total_bytes (attrs : list EventAttribute) : Z := foldr (fun a n => attr_bytes a + n) 0 attrs.

(** All attributes of a response, in the order they are charged. *)
Definition all_attrs (attrs : list EventAttribute) (events : list Event) : list EventAttribute :=
  attrs ++ concat (map Attributes events).

(** The reference price of a list of events without their attributes. *)
Definition type_cost (c : WasmGasRegisterConfig) (events : list Event) : Z :=
  foldr (fun e n => CustomEventCost c + slen (Type_ e) * EventAttributeDataCost c + n) 0 events.

(** The reference price of attributes under a free allowance of bytes. *)
Definition attr_cost (c : WasmGasRegisterConfig) (attrs : list EventAttribute) (free : Z) : Z :=
  EventAttributeDataCost c * Z.max 0 (total_bytes attrs - free)
  + EventPerAttributeCost c * Z.of_nat (length attrs).

Record config_ok (c : WasmGasRegisterConfig) : Prop := {
  co_attr : 0 <= EventPerAttributeCost c;
  co_data : 0 <= EventAttributeDataCost c;
  co_free : is_u64 (EventAttributeDataFreeTier c);
  co_custom : 0 <= CustomEventCost c;
  co_mult : 0 < GasMultiplier c
}.

Lemma slen_nonneg s : 0 <= slen s.
Proof. unfold slen. lia. Qed.

Lemma attr_bytes_nonneg a : 0 <= attr_bytes a.
Proof. pose proof (slen_nonneg (Key a)). pose proof (slen_nonneg (Value a)). unfold attr_bytes. lia. Qed.

Lemma total_bytes_nonneg l : 0 <= total_bytes l.
Proof.
  induction l as [|a l IH]; [done|]. cbn [total_bytes foldr]. fold (total_bytes l).
  pose proof (attr_bytes_nonneg a). lia.
Qed.

Lemma total_bytes_app l k : total_bytes (l ++ k) = total_bytes l + total_bytes k.
Proof. induction l as [|a l IH]; [done|]. unfold total_bytes in *. cbn in *. lia. Qed.

#[export] Hint Resolve slen_nonneg attr_bytes_nonneg total_bytes_nonneg : terp.

Lemma type_cost_nonneg c l : config_ok c -> 0 <= type_cost c l.
Proof.
  intros []. induction l as [|e l IH]; cbn; [lia|].
  pose proof (Z.mul_nonneg_nonneg _ _ (slen_nonneg (Type_ e)) co_data0).
  unfold type_cost in IH. lia.
Qed.

Lemma attr_cost_nonneg c l f : config_ok c -> 0 <= attr_cost c l f.
Proof. intros []. unfold attr_cost. apply Z.add_nonneg_nonneg; apply Z.mul_nonneg_nonneg; lia. Qed.

Lemma stored_bytes_sum l n : 0 <= n -> n + total_bytes l < 2 ^ 64 ->
  foldl (fun n l => u64 (n + u64 (attr_bytes l))) n l = n + total_bytes l.
Proof.
  revert n. induction l as [|a l IH]; intros n Hn Hb; cbn [foldl total_bytes foldr] in *; [lia|].
  fold (total_bytes l) in *.
  pose proof (attr_bytes_nonneg a). pose proof (total_bytes_nonneg l).
  rewrite (u64_small (attr_bytes a)), u64_small by (unfold is_u64; lia).
  rewrite IH by lia. lia.
Qed.

Lemma attr_costs_eval c l f : config_ok c -> 0 <= f -> total_bytes l < 2 ^ 64 ->
  attr_cost c l f < 2 ^ 64 ->
  eventAttributeCosts c l f = Ok (attr_cost c l f, Z.max 0 (f - total_bytes l)).
Proof.
  intros Hc Hf Hb Hr. unfold eventAttributeCosts. destruct l as [|a l].
  { unfold attr_cost. cbn. do 2 f_equal; lia. }
  rewrite stored_bytes_sum by lia. rewrite Z.add_0_l. unfold calcWithFreeTier.
  set (tb := total_bytes (a :: l)) in *. unfold attr_cost in *. fold tb in Hr |- *.
  destruct (Z.leb_spec tb f) as [Hle|Hlt].
  - rewrite (Z.max_l 0 (tb - f)), Z.mul_0_r in * by lia. rewrite Z.max_r by lia.
    unfold must. destruct (Z.leb_spec (0 + EventPerAttributeCost c * Z.of_nat (length (a :: l))) u64_max);
      [done|unfold u64_max in *; lia].
  - rewrite (Z.max_r 0 (tb - f)), (Z.max_l 0 (f - tb)) in * by lia.
    unfold must.
    destruct (Z.leb_spec (EventAttributeDataCost c * (tb - f)
      + EventPerAttributeCost c * Z.of_nat (length (a :: l))) u64_max);
      [done|unfold u64_max in *; lia].
Qed.

(** The allowance is used up in order, so charging two lists one after the
    other costs what charging them together does. *)
Lemma attr_cost_app c l k f : 0 <= f ->
  attr_cost c (l ++ k) f = attr_cost c l f + attr_cost c k (Z.max 0 (f - total_bytes l)).
Proof.
  intros Hf. unfold attr_cost. rewrite total_bytes_app, length_app.
  pose proof (total_bytes_nonneg l). pose proof (total_bytes_nonneg k).
  replace (Z.max 0 (total_bytes l + total_bytes k - f)) with
    (Z.max 0 (total_bytes l - f) + Z.max 0 (total_bytes k - Z.max 0 (f - total_bytes l))) by lia.
  lia.
Qed.

Lemma events_costs_eval c events g f : config_ok c -> 0 <= f -> 0 <= g ->
  total_bytes (concat (map Attributes events)) < 2 ^ 64 ->
  g + type_cost c events + attr_cost c (concat (map Attributes events)) f < 2 ^ 64 ->
  eventsCosts c events g f = Ok (g + type_cost c events + attr_cost c (concat (map Attributes events)) f).
Proof.
  intros Hc. revert g f. induction events as [|e events IH]; intros g f Hf Hg Hb Hr.
  { cbn. unfold attr_cost. cbn. f_equal. lia. }
  cbn [map concat] in *. rewrite attr_cost_app, total_bytes_app in * by done.
  cbn [type_cost foldr] in *. fold (type_cost c events) in *.
  pose proof (total_bytes_nonneg (Attributes e)).
  pose proof (total_bytes_nonneg (concat (map Attributes events))).
  pose proof (type_cost_nonneg c events Hc). pose proof (slen_nonneg (Type_ e)).
  pose proof (attr_cost_nonneg c (Attributes e) f Hc).
  pose proof (attr_cost_nonneg c (concat (map Attributes events)) (Z.max 0 (f - total_bytes (Attributes e))) Hc).
  assert (0 <= slen (Type_ e) * EventAttributeDataCost c) by (destruct Hc; nia).
  pose proof (co_custom c Hc).
  cbn [eventsCosts]. rewrite attr_costs_eval by (done || lia). cbn [mbind res_bind fst snd].
  rewrite (u64_small (g + _)), (u64_small (slen _ * _)) by (unfold is_u64; lia).
  rewrite !u64_small by (rewrite ?u64_small; unfold is_u64; lia).
  rewrite IH by lia. f_equal. lia.
Qed.

(** Unless the true price leaves 64 bits, emitting a response costs a flat
    price per attribute and per event, the data price for every byte of the
    event types, and the data price for the attribute bytes beyond the free
    tier.  The free tier is granted once for the response, however the
    attributes are distributed over its events. *)
Theorem event_costs_formula c attrs events :
  config_ok c ->
  total_bytes (all_attrs attrs events) < 2 ^ 64 ->
  type_cost c events + attr_cost c (all_attrs attrs events) (EventAttributeDataFreeTier c) < 2 ^ 64 ->
  EventCosts c attrs events =
    Ok (type_cost c events + attr_cost c (all_attrs attrs events) (EventAttributeDataFreeTier c)).
Proof.
  intros Hc Hb Hr. unfold EventCosts, all_attrs in *. destruct (co_free c Hc) as [Hf _].
  rewrite total_bytes_app in Hb. rewrite attr_cost_app in * by done.
  pose proof (total_bytes_nonneg attrs). pose proof (type_cost_nonneg c events Hc).
  pose proof (total_bytes_nonneg (concat (map Attributes events))).
  pose proof (attr_cost_nonneg c attrs (EventAttributeDataFreeTier c) Hc).
  pose proof (attr_cost_nonneg c (concat (map Attributes events))
    (Z.max 0 (EventAttributeDataFreeTier c - total_bytes attrs)) Hc).
  rewrite attr_costs_eval by (done || lia). cbn [mbind res_bind fst snd].
  rewrite events_costs_eval by (done || lia). f_equal. lia.
Qed.

Lemma default_config_ok : config_ok DefaultGasRegisterConfig.
Proof. split; try (cbn; lia). by split. Defined.

Section BudgetProofs.
Context (c : WasmGasRegisterConfig) {G : Type} `{GasMeterLaws G}.

(** The gas left on a meter. *)
Definition remaining (m : G) : Z := GasLimit m - GasConsumed m.

Lemma to_vm_exact n : 0 < GasMultiplier c -> 0 <= n -> n * GasMultiplier c < 2 ^ 64 ->
  ToWasmVMGas c n = Ok (n * GasMultiplier c).
Proof.
  intros Hm Hn Hb. unfold ToWasmVMGas. assert (n <= n * GasMultiplier c) by nia.
  rewrite u64_small by (unfold is_u64; lia). unfold must.
  destruct (Z.ltb_spec (n * GasMultiplier c) n); [lia|done].
Qed.

Lemma consume_runtime_split gas (m : G) : 0 < GasMultiplier c -> 0 <= gas ->
  GasLimit m < u64_max -> GasConsumed m + gas / GasMultiplier c <= GasLimit m ->
  exists m', GasConsumed m' = GasConsumed m + gas / GasMultiplier c /\ GasLimit m' = GasLimit m /\
    consumeRuntimeGas c gas m =
      (if GasConsumed m' <? GasLimit m then Ok tt else Panic "ErrorOutOfGas", m').
Proof.
  intros Hm Hg Hl Hc. destruct (ConsumeGas_ok _ _ Hc) as (m'&E&Hc'&Hl'). exists m'.
  split_and!; [done..|]. unfold consumeRuntimeGas, FromWasmVMGas, must.
  destruct (Z.eqb_spec (GasMultiplier c) 0); [lia|]. go_run. rewrite E. go_run.
  rewrite IsOutOfGas_finite by lia. rewrite Hl'.
  destruct (Z.leb_spec (GasLimit m) (GasConsumed m')), (Z.ltb_spec (GasConsumed m') (GasLimit m)); done || lia.
Qed.

(** A contract call is given exactly the gas left on a finite meter, in
    virtual machine units.  As long as the virtual machine stays within that
    budget, charging what it used moves the meter by that amount rounded down
    to SDK gas and never past its limit, and the call fails with out of gas
    only when the limit is reached exactly. *)
Theorem contract_gas_within_limit m used :
  0 < GasMultiplier c -> 0 <= GasConsumed m <= GasLimit m -> GasLimit m < u64_max ->
  remaining m * GasMultiplier c < 2 ^ 64 ->
  0 <= used <= remaining m * GasMultiplier c ->
  runtimeGasForContract c m = Ok (remaining m * GasMultiplier c) /\
  exists m', GasConsumed m' = GasConsumed m + used / GasMultiplier c /\
    GasLimit m' = GasLimit m /\ GasConsumed m' <= GasLimit m' /\
    consumeRuntimeGas c used m =
      (if GasConsumed m' <? GasLimit m then Ok tt else Panic "ErrorOutOfGas", m').
Proof.
  intros Hm Hc Hl Hb Hu. unfold remaining in *. split.
  - unfold runtimeGasForContract. rewrite IsOutOfGas_finite, GasConsumedToLimit_min by lia.
    destruct (Z.leb_spec (GasLimit m) (GasConsumed m)).
    { cbn. unfold mret, res_ret. f_equal. replace (GasLimit m - GasConsumed m) with 0 by lia. done. }
    destruct (Z.eqb_spec (GasLimit m) u64_max); [lia|].
    rewrite Z.min_l by lia. rewrite u64_small by (unfold is_u64, u64_max in *; lia).
    apply to_vm_exact; lia.
  - assert (used / GasMultiplier c <= GasLimit m - GasConsumed m).
    { apply Z.div_le_upper_bound; lia. }
    destruct (consume_runtime_split used m) as (m'&?&?&?); [lia..|].
    exists m'. split_and!; done || lia.
Qed.

End BudgetProofs.

(** The overflow guard of the conversion compares the wrapped product with the
    source only: with the default multiplier a remaining gas of [2^50] wraps
    around and still passes, giving the contract a fraction of its budget. *)
Theorem vm_budget_wraps :
  ToWasmVMGas DefaultGasRegisterConfig (2 ^ 50) = Ok (279 * 2 ^ 55) /\
  279 * 2 ^ 55 < 2 ^ 50 * GasMultiplier DefaultGasRegisterConfig.
Proof. by vm_compute. Qed.

(** ** Witnesses *)

Module Witness.
Import Ref RefLaws.
Local Open Scope string_scope.

Definition attrs : list EventAttribute := [mkAttr "_contract_address" "addr"; mkAttr "action" "burn"].
Definition events : list Event := [mkEvent "wasm-burn" [mkAttr "amount" "100"]].

Lemma event_costs_formula_witness :
  EventCosts DefaultGasRegisterConfig attrs events =
    Ok (type_cost DefaultGasRegisterConfig events
        + attr_cost DefaultGasRegisterConfig (all_attrs attrs events) 100).
Proof.
  apply (event_costs_formula DefaultGasRegisterConfig attrs events);
    [apply default_config_ok | vm_compute; done | vm_compute; done].
Defined.

Lemma contract_gas_within_limit_witness :
  exists m', consumeRuntimeGas DefaultGasRegisterConfig 1000000 (mkMeter 10 1000) = (Ok tt, m') /\
    GasConsumed m' = 17.
Proof.
  destruct (contract_gas_within_limit DefaultGasRegisterConfig (mkMeter 10 1000) 1000000)
    as (_&m'&Hc&Hl&_&->); [done | cbn; lia | vm_compute; done | vm_compute; done | split; vm_compute; discriminate |].
  exists m'. rewrite Hc. split; reflexivity.
Defined.

End Witness.
