(* ===== verification/WasmDispatch.v ===== *)
(** * x/wasm: dispatching the messages of a contract

    How the messages a contract returns are routed to the SDK on its behalf,
    and how submessages run in a sandbox with their own gas limit, are
    committed or rolled back, and are reported to the contract's [reply]. *)

From Stdlib Require Import ZArith Lia.
From stdpp Require Import base strings list pretty.
From S2P Require Import Prelude Sdk SdkRef WasmGas.

(** ** Data *)

(** SDK events; the attribute index flag is dropped on the way to a contract. *)
Record SdkAttr := mkSdkAttr { AKey : string; AValue : string; AIndex : bool }.
Record SdkEvent := mkSdkEvent { EType : string; EAttributes : list SdkAttr }.

Inductive replyOn := UnsetReplyOn | ReplyAlways | ReplySuccess | ReplyError | ReplyNever.

#[export] Instance reply_on_eq_dec : EqDecision replyOn.
Proof. solve_decision. Defined.

(** What a messenger returns besides its error: events, data and responses. *)
Record CallResult := mkCall {
  call_events : list SdkEvent;
  call_data : list string;
  call_responses : list (list MsgResponse)
}.

(** The parts of an [sdk.Context] a call can change: the multistore, the gas
    meter, which cached contexts share, and the event manager. *)
Record World (S G : Type) := mkWorld { store : S; meter : G; evs : list SdkEvent }.
Arguments mkWorld {S G}.
Arguments store {S G}.
Arguments meter {S G}.
Arguments evs {S G}.

Definition set_store {S G} (x : S) (w : World S G) : World S G := mkWorld x (meter w) (evs w).
Definition set_meter {S G} (g : G) (w : World S G) : World S G := mkWorld (store w) g (evs w).
Definition set_evs {S G} (l : list SdkEvent) (w : World S G) : World S G := mkWorld (store w) (meter w) l.

(** What the dispatcher asks of an error value: whether it is one of the
    [SystemError] variants, whether it is a [DeterministicError], its text, and
    its ABCI codespace and code. *)
Class GoErrors := {
  ToSystemError : string -> bool;
  isDeterministicError : string -> bool;
  ErrorText : string -> string;
  ABCIInfo : string -> string * N
}.

(** [CosmosMsg] is inspected only for whether its [Wasm] field is set. *)
Class CosmosMsgOps (Msg : Type) := { isWasm : Msg -> bool }.

Record SubMsg (Msg : Type) := mkSubMsg {
  SubID : Z; SubMsg_Msg : Msg; SubPayload : string; SubGasLimit : option Z; ReplyOn : replyOn }.
Arguments mkSubMsg {Msg}.
Arguments SubID {Msg}.
Arguments SubMsg_Msg {Msg}.
Arguments SubPayload {Msg}.
Arguments SubGasLimit {Msg}.
Arguments ReplyOn {Msg}.

(** The [Messenger] interface: contract address, its IBC port, the message. *)
Class Messenger (S G Msg : Type) := {
  DispatchMsg : string -> string -> Msg -> M (World S G) CallResult
}.

(** The [replyer] interface; the data of a reply may be nil. *)
Class Replyer (S G : Type) := { reply : string -> Reply -> M (World S G) (option string) }.

(** ** Event conversions *)

Definition filterEvents (events : list SdkEvent) : list SdkEvent :=
  filter (fun ev => EType ev <> "message"%string) events.

Definition sdkAttributesToWasmVMAttributes (attrs : list SdkAttr) : list EventAttribute :=
  map (fun a => mkAttr (AKey a) (AValue a)) attrs.

Definition sdkEventsToWasmVMEvents (events : list SdkEvent) : list Event :=
  map (fun ev => mkEvent (EType ev) (sdkAttributesToWasmVMAttributes (EAttributes ev))) events.

(** [sort.SliceStable] by attribute key. *)
Fixpoint insert_attr (a : SdkAttr) (l : list SdkAttr) : list SdkAttr :=
  match l with
  | [] => [a]
  | b :: l' => if str_ltb (AKey b) (AKey a) then b :: insert_attr a l' else a :: l
  end.

Definition sort_attrs (l : list SdkAttr) : list SdkAttr := foldr insert_attr [] l.

Definition sort_event (e : SdkEvent) : SdkEvent := mkSdkEvent (EType e) (sort_attrs (EAttributes e)).

Section Dispatcher.
Context {S G Msg : Type} `{GoErrors} `{CosmosMsgOps Msg} `{GasMeterOps G} `{Messenger S G Msg} `{Replyer S G}.

Abbreviation W := (World S G).

Definition redactError (err : string) : string :=
  if ToSystemError err then ErrorText err
  else if isDeterministicError err then ErrorText err
  else let '(codespace, code) := ABCIInfo err in
       ("codespace: " ++ codespace ++ ", code: " ++ pretty code)%string.

Fixpoint DispatchMessages (contractAddr ibcPort : string) (msgs : list Msg) : M W unit :=
  match msgs with
  | [] => mret tt
  | msg :: msgs =>
      r ← DispatchMsg contractAddr ibcPort msg;
      modify (fun w => set_evs (evs w ++ call_events r) w);;
      DispatchMessages contractAddr ibcPort msgs
  end.

(** [ctx.GasMeter().ConsumeGas]. *)
Definition charge (n : Z) : M W unit := zoom meter set_meter (ConsumeGas n).

(** The deferred function of [dispatchMsgWithGasLimit]. *)
Definition recovered (gasLimit spent : Z) (p : string) : M W CallResult :=
  if decide (p = "ErrorOutOfGas"%string) then charge gasLimit;; throw "ErrOutOfGas"
  else charge spent;; panic p.

Definition dispatchMsgWithGasLimit (contractAddr ibcPort : string) (msg : Msg) (gasLimit : Z)
    : M W CallResult := fun w =>
  let '(r, sub) := DispatchMsg contractAddr ibcPort msg (set_meter (NewGasMeter gasLimit) w) in
  let spent := GasConsumed (meter sub) in
  let back := set_meter (meter w) sub in
  match r with
  | Panic p => recovered gasLimit spent p back
  | _ => match charge spent back with
         | (Panic p, back) => recovered gasLimit spent p back
         | (_, back) => (r, back)
         end
  end.

(** The call of a submessage, under its own limit when that is lower than the
    gas left. *)
Definition callSubMsg (contractAddr ibcPort : string) (msg : SubMsg Msg) : M W CallResult := fun w =>
  let gasRemaining := u64 (GasLimit (meter w) - GasConsumed (meter w)) in
  match SubGasLimit msg with
  | Some l => if l <? gasRemaining then dispatchMsgWithGasLimit contractAddr ibcPort (SubMsg_Msg msg) l w
              else DispatchMsg contractAddr ibcPort (SubMsg_Msg msg) w
  | None => DispatchMsg contractAddr ibcPort (SubMsg_Msg msg) w
  end.

(** The sandbox of a submessage: a cached store, a fresh event manager, the
    shared gas meter.  Success commits the store and emits the filtered events;
    the in-place sort of a Wasm message's attributes also reaches the emitted
    events, which share them.  An error discards both. *)
Definition sandbox (contractAddr ibcPort : string) (msg : SubMsg Msg)
    : M W (string + CallResult) := fun w =>
  let '(r, sub) := callSubMsg contractAddr ibcPort msg (set_evs [] w) in
  match r with
  | Ok c =>
      let filtered := filterEvents (evs sub ++ call_events c) in
      let emitted := if isWasm (SubMsg_Msg msg) then map sort_event filtered else filtered in
      let visible := if isWasm (SubMsg_Msg msg) then emitted else [] in
      (Ok (inr (mkCall visible (call_data c) (call_responses c))), set_evs (evs w ++ emitted) sub)
  | Err e => (Ok (inl e), set_meter (meter sub) w)
  | Panic p => (Panic p, set_meter (meter sub) w)
  end.

Definition subMsgResult (r : string + CallResult) : SubMsgResult :=
  match r with
  | inr c => mkSubMsgResult (Some (mkSubMsgResponse (sdkEventsToWasmVMEvents (call_events c))
               (default ""%string (head (call_data c))) (concat (call_responses c)))) ""
  | inl e => mkSubMsgResult None (redactError e)
  end.

Fixpoint DispatchSubmessages_from (contractAddr ibcPort : string) (msgs : list (SubMsg Msg))
    (rsp : option string) : M W (option string) :=
  match msgs with
  | [] => mret rsp
  | msg :: msgs =>
      refuseM (bool_decide (ReplyOn msg = UnsetReplyOn)) "ErrInvalid";;
      r ← sandbox contractAddr ibcPort msg;
      let failed := match r with inl _ => true | inr _ => false end in
      match r with
      | inl e => if bool_decide (ReplyOn msg = ReplySuccess) || bool_decide (ReplyOn msg = ReplyNever)
                 then throw e else mret tt
      | inr _ => mret tt
      end;;
      if bool_decide (ReplyOn msg = ReplyNever) || (bool_decide (ReplyOn msg = ReplyError) && negb failed)
      then DispatchSubmessages_from contractAddr ibcPort msgs rsp
      else
        rspData ← reply contractAddr (mkReply (SubID msg) (subMsgResult r) (SubPayload msg));
        DispatchSubmessages_from contractAddr ibcPort msgs
          (match rspData with Some d => Some d | None => rsp end)
  end.

Definition DispatchSubmessages (contractAddr ibcPort : string) (msgs : list (SubMsg Msg))
    : M W (option string) := DispatchSubmessages_from contractAddr ibcPort msgs None.

End Dispatcher.

(** ** SDK messages on behalf of a contract *)

(** The SDK side of a message: its encoding from a [CosmosMsg], its basic
    validation, its signers, and the handler the router has for it. *)
Class SdkRouter (S G Msg SdkMsg : Type) := {
  Encode : string -> string -> Msg -> M (World S G) (list SdkMsg);
  ValidateBasic : SdkMsg -> res unit;
  GetMsgV1Signers : SdkMsg -> res (list string);
  Handler : SdkMsg -> option (M (World S G) CallResult)
}.

Section Handlers.
Context {S G Msg SdkMsg : Type} `{SdkRouter S G Msg SdkMsg}.

Abbreviation W := (World S G).

(** A result of the router is one event list, one data entry and one list of
    responses. *)
Definition handleSdkMessage (contractAddr : string) (msg : SdkMsg) : M W CallResult :=
  lift (ValidateBasic msg);;
  signers ← lift (GetMsgV1Signers msg);
  ensureM (forallb (fun acct => String.eqb contractAddr acct) signers) "ErrUnauthorized";;
  match Handler msg with
  | Some handler => handler
  | None => throw "ErrUnknownRequest"
  end.

Fixpoint handleSdkMessages (contractAddr : string) (msgs : list SdkMsg) (acc : CallResult) : M W CallResult :=
  match msgs with
  | [] => mret acc
  | m :: msgs =>
      r ← handleSdkMessage contractAddr m;
      handleSdkMessages contractAddr msgs
        (mkCall (call_events acc ++ call_events r) (call_data acc ++ call_data r)
           (call_responses acc ++ call_responses r))
  end.

Definition SDKMessageHandler_DispatchMsg (contractAddr contractIBCPortID : string) (msg : Msg)
    : M W CallResult :=
  sdkMsgs ← Encode contractAddr contractIBCPortID msg;
  handleSdkMessages contractAddr sdkMsgs (mkCall [] [] []).

End Handlers.

(** [MessageHandlerChain.DispatchMsg]: the writes a handler made before it
    declined a message are not rolled back. *)
Fixpoint MessageHandlerChain_DispatchMsg {S G Msg}
    (handlers : list (string -> string -> Msg -> M (World S G) CallResult))
    (contractAddr contractIBCPortID : string) (msg : Msg) : M (World S G) CallResult :=
  match handlers with
  | [] => throw "ErrUnknownMsg"
  | h :: handlers => fun w =>
      match h contractAddr contractIBCPortID msg w with
      | (Err e, w') =>
          if decide (e = "ErrUnknownMsg"%string)
          then MessageHandlerChain_DispatchMsg handlers contractAddr contractIBCPortID msg w'
          else (Err e, w')
      | r => r
      end
  end.

(** ** A contract speaks only for itself *)

Section HandlerProofs.
Context {S G Msg SdkMsg : Type} `{SdkRouter S G Msg SdkMsg}.

(** [Executes contract msgs w w']: the messages were handled one after the
    other from [w] to [w'], each valid and signed by the contract alone. *)
Inductive Executes (contract : string) : list SdkMsg -> World S G -> World S G -> Prop :=
| Executes_nil w : Executes contract [] w w
| Executes_cons m msgs h r signers w1 w2 w3 :
    ValidateBasic m = Ok tt ->
    GetMsgV1Signers m = Ok signers -> Forall (eq contract) signers ->
    Handler m = Some h -> h w1 = (Ok r, w2) ->
    Executes contract msgs w2 w3 ->
    Executes contract (m :: msgs) w1 w3.

Lemma handle_sdk_ok contract m r w w' :
  handleSdkMessage contract m w = (Ok r, w') ->
  ValidateBasic m = Ok tt /\ exists signers h,
    GetMsgV1Signers m = Ok signers /\ Forall (eq contract) signers /\ Handler m = Some h /\ h w = (Ok r, w').
Proof.
  unfold handleSdkMessage. intros E. apply bind_Ok in E as ([]&w1&[? <-]%lift_Ok&E).
  apply bind_Ok in E as (signers&w1&[? <-]%lift_Ok&E).
  apply bind_Ok in E as ([]&w1&[Hs <-]%ensureM_Ok&E).
  destruct (Handler m) as [h|] eqn:Hh; [|done]. split; [done|]. exists signers, h. split_and!; try done.
  rewrite forallb_forall in Hs. apply Forall_forall. intros x Hx. apply String.eqb_eq, Hs.
  by apply list_elem_of_In.
Qed.

Lemma handle_sdk_msgs_ok contract msgs acc r w w' :
  handleSdkMessages contract msgs acc w = (Ok r, w') -> Executes contract msgs w w'.
Proof.
  revert acc w. induction msgs as [|m msgs IH]; intros acc w E; cbn [handleSdkMessages] in E.
  { apply ret_Ok in E as [_ <-]. constructor. }
  apply bind_Ok in E as (a&w1&(?&?&?&?&?&?&?)%handle_sdk_ok&E). econstructor; eauto.
Qed.

(** A message signed by anyone else stops the batch at that point. *)
Lemma foreign_signer_stops contract m msgs acc w signers :
  ValidateBasic m = Ok tt -> GetMsgV1Signers m = Ok signers ->
  Exists (fun a => a <> contract) signers ->
  handleSdkMessages contract (m :: msgs) acc w = (Err "ErrUnauthorized", w).
Proof.
  intros Hv Hs Hx. cbn [handleSdkMessages]. unfold handleSdkMessage.
  rewrite Hv, Hs. go_run.
  assert (forallb (fun acct => String.eqb contract acct) signers = false) as ->; [|done].
  clear -Hx. induction Hx as [a l Ha|a l Ha IH]; cbn.
  - destruct (String.eqb_spec contract a); [congruence|done].
  - rewrite IH. apply andb_false_r.
Qed.

(** When a contract's message is dispatched, every SDK message it encodes
    to has passed its validation, has no signer other than the contract, and has
    been executed by its handler, in order; a message with another signer fails
    with an authorisation error without being executed. *)
Theorem contract_speaks_for_itself contract port msg w :
  (forall r w', SDKMessageHandler_DispatchMsg contract port msg w = (Ok r, w') ->
     exists msgs w1, Encode contract port msg w = (Ok msgs, w1) /\ Executes contract msgs w1 w') /\
  (forall m msgs signers w1, Encode contract port msg w = (Ok (m :: msgs), w1) ->
     ValidateBasic m = Ok tt -> GetMsgV1Signers m = Ok signers ->
     Exists (fun a => a <> contract) signers ->
     SDKMessageHandler_DispatchMsg contract port msg w = (Err "ErrUnauthorized", w1)).
Proof.
  split.
  - unfold SDKMessageHandler_DispatchMsg. intros r w' (msgs&w1&?&?%handle_sdk_msgs_ok)%bind_Ok. eauto.
  - intros m msgs signers w1 HE Hv Hs Hx. unfold SDKMessageHandler_DispatchMsg, mbind, M_bind.
    rewrite HE. by apply (foreign_signer_stops _ _ _ _ _ signers).
Qed.

End HandlerProofs.

(** ** Sandboxed submessages *)

Section SandboxProofs.
Context {S G Msg : Type} `{GoErrors} `{CosmosMsgOps Msg} `{GasMeterOps G} `{Messenger S G Msg} `{Replyer S G}.

Abbreviation W := (World S G).

(** When a contract asked to hear about a submessage. *)
Definition wants_reply (on : replyOn) (r : string + CallResult) : bool :=
  match on, r with
  | ReplyAlways, _ | ReplySuccess, inr _ | ReplyError, inl _ => true
  | _, _ => false
  end.

(** When an error of a submessage is passed on instead. *)
Definition aborts (on : replyOn) : bool :=
  match on with ReplySuccess | ReplyNever => true | _ => false end.

(** What one submessage does: its sandbox, then the reply if it was asked for. *)
Lemma dispatch_step contract port msg msgs rsp w r w1 :
  ReplyOn msg <> UnsetReplyOn -> sandbox contract port msg w = (Ok r, w1) ->
  DispatchSubmessages_from contract port (msg :: msgs) rsp w =
    match r with
    | inl e => if aborts (ReplyOn msg) then (Err e, w1) else
        (rspData ← reply contract (mkReply (SubID msg) (subMsgResult r) (SubPayload msg));
         DispatchSubmessages_from contract port msgs
           (match rspData with Some d => Some d | None => rsp end)) w1
    | inr _ => if wants_reply (ReplyOn msg) r then
        (rspData ← reply contract (mkReply (SubID msg) (subMsgResult r) (SubPayload msg));
         DispatchSubmessages_from contract port msgs
           (match rspData with Some d => Some d | None => rsp end)) w1
        else DispatchSubmessages_from contract port msgs rsp w1
    end.
Proof.
  intros Hon Hs. cbn [DispatchSubmessages_from]. unfold mbind at 1, M_bind at 1, refuseM, lift, refuse.
  rewrite bool_decide_eq_false_2 by done. unfold mbind at 1, M_bind at 1. rewrite Hs.
  unfold mbind at 1, M_bind at 1. by destruct r, (ReplyOn msg).
Qed.

(** The sandbox leaves no trace of a call that did not succeed but the gas. *)
Lemma sandbox_fail contract port msg w :
  match sandbox contract port msg w with
  | (Ok (inl _), w') | (Err _, w') | (Panic _, w') => store w' = store w /\ evs w' = evs w
  | (Ok (inr _), _) => True
  end.
Proof. unfold sandbox. destruct (callSubMsg _ _ _ _) as [[c|e|p] sub]; done. Qed.

Lemma sandbox_ok contract port msg w c w' :
  sandbox contract port msg w = (Ok (inr c), w') ->
  exists c' sub, callSubMsg contract port msg (set_evs [] w) = (Ok c', sub) /\ store w' = store sub.
Proof.
  unfold sandbox. destruct (callSubMsg _ _ _ _) as [[c'|e|p] sub]; intros [= <- <-]. eauto.
Qed.

Lemma sandbox_no_err contract port msg w e w' : sandbox contract port msg w <> (Err e, w').
Proof. unfold sandbox. destruct (callSubMsg _ _ _ _) as [[]]; done. Qed.

Lemma charge_store n (w : W) : store (charge n w).2 = store w.
Proof. unfold charge, zoom. by destruct (ConsumeGas n (meter w)). Qed.

(** A call that succeeds is a successful dispatch on some meter. *)
Lemma call_sub_ok contract port msg w c w' :
  callSubMsg contract port msg w = (Ok c, w') ->
  exists g w1, DispatchMsg contract port (SubMsg_Msg msg) (set_meter g w) = (Ok c, w1) /\ store w' = store w1.
Proof.
  assert (HW : forall v : W, set_meter (meter v) v = v) by (by intros []).
  assert (HR : forall gl sp p (v v' : W), recovered gl sp p v <> (Ok c, v')).
  { intros gl sp p v v'. unfold recovered. case_decide; go_run; destruct (charge _ v) as [[]]; done. }
  unfold callSubMsg. destruct (SubGasLimit msg) as [l|]; [destruct (l <? _)|].
  - unfold dispatchMsgWithGasLimit.
    destruct (DispatchMsg _ _ _ _) as [[c'|e|p] sub] eqn:E; intros Hr; try by apply HR in Hr.
    + destruct (charge _ _) as [[u|e|p] b] eqn:Ec; try by apply HR in Hr.
      all: simplify_eq; exists (NewGasMeter l), sub; split; [done|].
      all: pose proof (charge_store (GasConsumed (meter sub)) (set_meter (meter w) sub)) as Hc.
      all: by rewrite Ec in Hc.
    + destruct (charge _ _) as [[u|e'|p] b] eqn:Ec; try done. by apply HR in Hr.
  - intros E. exists (meter w), w'. by rewrite HW.
  - intros E. exists (meter w), w'. by rewrite HW.
Qed.

Lemma sandbox_inv (Inv : S -> Prop) contract port msg w :
  (forall msg v r v', DispatchMsg contract port msg v = (Ok r, v') -> Inv (store v) -> Inv (store v')) ->
  Inv (store w) -> Inv (store (sandbox contract port msg w).2).
Proof.
  intros Hmsg Hw. pose proof (sandbox_fail contract port msg w) as Hf.
  destruct (sandbox contract port msg w) as [[[e|c]|e|p] w'] eqn:E; cbn.
  - by destruct Hf as [-> _].
  - apply sandbox_ok in E as (c'&sub&(g&w1&Hd&Hw1)%call_sub_ok&->). rewrite Hw1. by eapply Hmsg.
  - by destruct Hf as [-> _].
  - by destruct Hf as [-> _].
Qed.

(** C12: an invariant of the store that every successful message and every reply
    keep is kept by the dispatch of any list of submessages, whether it
    succeeds, fails or panics: what a failing submessage does to its sandbox,
    even breaking the invariant, is never seen. *)
Theorem failed_submessages_leave_no_trace (Inv : S -> Prop) contract port msgs w :
  (forall msg v r v', DispatchMsg contract port msg v = (Ok r, v') -> Inv (store v) -> Inv (store v')) ->
  (forall rp v, Inv (store v) -> Inv (store (reply contract rp v).2)) ->
  Inv (store w) ->
  Inv (store (DispatchSubmessages contract port msgs w).2).
Proof.
  intros Hmsg Hreply. unfold DispatchSubmessages. generalize (@None string).
  revert w. induction msgs as [|msg msgs IH]; intros w rsp Hw; [done|].
  pose proof (sandbox_inv Inv contract port msg w Hmsg Hw) as Hs. destruct (decide (ReplyOn msg = UnsetReplyOn)) as [Hu|Hu].
  { cbn [DispatchSubmessages_from]. unfold mbind at 1, M_bind at 1, refuseM, lift, refuse.
    by rewrite bool_decide_eq_true_2. }
  destruct (sandbox contract port msg w) as [[r|e|p] w1] eqn:E.
  - rewrite (dispatch_step _ _ _ _ _ _ r w1 Hu E).
    assert (Hk : Inv (store ((rspData ← reply contract (mkReply (SubID msg) (subMsgResult r) (SubPayload msg));
       DispatchSubmessages_from contract port msgs
         (match rspData with Some d => Some d | None => rsp end)) w1).2)).
    { specialize (Hreply (mkReply (SubID msg) (subMsgResult r) (SubPayload msg)) w1 Hs).
      unfold mbind, M_bind. destruct (reply _ _ w1) as [[d|e|p] w2]; auto. }
    destruct r; repeat split_guard; auto.
  - by apply sandbox_no_err in E.
  - cbn [DispatchSubmessages_from]. unfold mbind at 1, M_bind at 1, refuseM, lift, refuse.
    rewrite bool_decide_eq_false_2 by done. unfold mbind at 1, M_bind at 1. by rewrite E.
Qed.

End SandboxProofs.

(** ** Gas of a limited submessage *)

Section GasProofs.
Context {S G Msg : Type} `{GoErrors} `{CosmosMsgOps Msg} `{GasMeterLaws G} `{Messenger S G Msg}.

Abbreviation W := (World S G).

(** A messenger works on the meter it is given: unless it panics it only adds
    to it and stays within its limit. *)
Definition meter_respected (contract port : string) (msg : Msg) : Prop :=
  forall v : W, GasConsumed (meter v) <= GasLimit (meter v) ->
  match DispatchMsg contract port msg v with
  | (Panic _, _) => True
  | (_, v') => GasConsumed (meter v) <= GasConsumed (meter v') <= GasLimit (meter v') /\
               GasLimit (meter v') = GasLimit (meter v)
  end.

Lemma charge_ok n (w : W) : GasConsumed (meter w) + n <= GasLimit (meter w) ->
  exists g, charge n w = (Ok tt, set_meter g w) /\
    GasConsumed g = GasConsumed (meter w) + n /\ GasLimit g = GasLimit (meter w).
Proof.
  intros Hn. destruct (ConsumeGas_ok _ _ Hn) as (g&E&?&?). exists g.
  unfold charge, zoom. by rewrite E.
Qed.

(** A submessage run under its own gas limit costs its caller at most that
    limit.  If it runs out of that gas the panic becomes an error and exactly
    the limit is charged; in every other case its caller is charged what it
    used and gets its result. *)
Theorem limited_submessage_gas contract port msg l w :
  meter_respected contract port msg -> 0 <= l ->
  GasConsumed (meter w) + l <= GasLimit (meter w) ->
  (forall p, (DispatchMsg contract port msg (set_meter (NewGasMeter l) w)).1 = Panic p ->
     p = "ErrorOutOfGas"%string) ->
  exists r sub g,
    DispatchMsg contract port msg (set_meter (NewGasMeter l) w) = (r, sub) /\
    dispatchMsgWithGasLimit contract port msg l w =
      (match r with Panic _ => Err "ErrOutOfGas" | r => r end, set_meter g sub) /\
    GasLimit g = GasLimit (meter w) /\
    GasConsumed g = GasConsumed (meter w)
      + (match r with Panic _ => l | _ => GasConsumed (meter sub) end) /\
    GasConsumed (meter w) <= GasConsumed g <= GasConsumed (meter w) + l.
Proof.
  intros Hresp Hl Hroom Hpanic. unfold dispatchMsgWithGasLimit.
  specialize (Hresp (set_meter (NewGasMeter l) w)). cbn [meter set_meter] in Hresp.
  rewrite NewGasMeter_consumed, NewGasMeter_limit in Hresp. specialize (Hresp Hl).
  destruct (DispatchMsg contract port msg _) as [r sub] eqn:E.
  assert (Hc : forall n, n <= l -> exists g, charge n (set_meter (meter w) sub) = (Ok tt, set_meter g sub) /\
    GasConsumed g = GasConsumed (meter w) + n /\ GasLimit g = GasLimit (meter w)).
  { intros n Hn. apply (charge_ok n (set_meter (meter w) sub)). cbn. lia. }
  exists r, sub. destruct r as [c|e|p].
  - destruct Hresp as [Hg Hlim]. destruct (Hc (GasConsumed (meter sub))) as (g&->&?&?); [lia|].
    exists g. split_and!; done || lia.
  - destruct Hresp as [Hg Hlim]. destruct (Hc (GasConsumed (meter sub))) as (g&->&?&?); [lia|].
    exists g. split_and!; done || lia.
  - rewrite (Hpanic p eq_refl). unfold recovered. rewrite decide_True by done.
    destruct (Hc l) as (g&Ec&?&?); [lia|]. unfold mbind, M_bind. rewrite Ec.
    exists g. split_and!; done || lia.
Qed.

End GasProofs.

(** ** Witnesses *)

Module Witness.
Import Ref RefLaws.
Local Open Scope string_scope.

(** A store of one number; a message adds to it, fails after adding when it is
    negative, and costs ten gas. *)
Abbreviation W := (World Z meter).

#[local] Instance errors : GoErrors := {|
  ToSystemError _ := false; isDeterministicError _ := false; ErrorText e := e;
  ABCIInfo e := ("sdk", 5%N) |}.
#[local] Instance msg_ops : CosmosMsgOps Z := {| isWasm _ := false |}.
#[local] Instance messenger : Messenger Z meter Z := {|
  DispatchMsg _ _ m := charge 10;;
    modify (fun w => set_store (store w + m)%Z w);;
    (if (m <? 0)%Z then throw "ErrInsufficientFunds" else mret (mkCall [] [] [])) |}.
#[local] Instance replyer : Replyer Z meter := {| reply _ r := mret (Some (Err_ (Result r))) |}.
#[local] Instance router : SdkRouter Z meter Z Z := {|
  Encode _ _ m := mret [m];
  ValidateBasic _ := Ok tt;
  GetMsgV1Signers m := Ok ["bob"];
  Handler m := Some (mret (mkCall [] [] [])) |}.

Definition w0 : W := mkWorld 7 (mkMeter 0 1000) [].

Lemma contract_speaks_for_itself_witness :
  SDKMessageHandler_DispatchMsg "alice" "" 1 w0 = (Err "ErrUnauthorized", w0).
Proof.
  apply (proj2 (contract_speaks_for_itself "alice" "" 1 w0) 1 [] ["bob"] w0); try reflexivity.
  constructor. done.
Defined.

(** The failing message is rolled back and reported, the next one commits. *)
Definition msgs : list (SubMsg Z) :=
  [mkSubMsg 1 (-20)%Z "" None ReplyError; mkSubMsg 2 5 "" (Some 50) ReplyNever].

Lemma failed_submessages_leave_no_trace_witness :
  (0 <= store (DispatchSubmessages "c" "" msgs w0).2)%Z /\
  DispatchSubmessages "c" "" msgs w0 =
    (Ok (Some "codespace: sdk, code: 5"), mkWorld 12 (mkMeter 20 1000) []).
Proof.
  split; [|reflexivity].
  apply (failed_submessages_leave_no_trace (fun n => 0 <= n)%Z "c" "" msgs w0).
  - intros m v r v' E Hv. cbn in E. go_inv.
    destruct (Z.ltb_spec m 0); go_inv. unfold charge, zoom in *.
    match goal with E : (let '(_, _) := ?x in _) = _ |- _ => destruct x; simplify_eq/= end. lia.
  - done.
  - done.
Defined.

Lemma limited_submessage_gas_witness : exists r sub g,
  dispatchMsgWithGasLimit "c" "" 3 5 w0 = (match r with Panic _ => Err "ErrOutOfGas" | r => r end, set_meter g sub)
  /\ GasConsumed g = 5.
Proof.
  destruct (limited_submessage_gas "c" "" 3 5 w0) as (r&sub&g&E&->&_&Hg&_).
  - intros v Hv. cbn. unfold charge, zoom. go_run.
    destruct (Z.leb_spec (consumed (WasmDispatch.meter v) + 10)%Z (limit (WasmDispatch.meter v))); cbn; [lia|].
    by destruct (consumed (WasmDispatch.meter v) + 10 <=? u64_max)%Z.
  - done.
  - cbn. lia.
  - cbn. by intros p [= <-].
  - exists r, sub, g. split; [done|]. cbn in E. injection E as <- <-. exact Hg.
Defined.

End Witness.
