(* ===== verification/WasmCircuits.v ===== *)
(** * x/wasm: the circuit registry

    Commitment parameters and circuits as the keeper stores them: who may upload
    them, the sequences that number them, the blob and the metadata kept for
    each, the index by creator, pinning, and removal. *)

From Stdlib Require Import ZArith Lia Ascii.
From stdpp Require Import base gmap strings list sorting.
From S2P Require Import Prelude Sdk SdkRef Store GoLib Bank WasmAccess WasmGas.

(** ** Data *)

Record CodeInfo := mkCodeInfo { CodeHash : string; CodeCreator : string; CodeConfig : AccessConfig }.

Record CircuitInfo := mkCircuitInfo {
  CircuitHash : string; Creator : string; InstantiateConfig : AccessConfig;
  I_ : Z; VkpLen : Z; CsLen : Z; VkLen : Z }.

Record VkParamInfoResponse := mkVkParamInfo { VkID : Z; VkCreator : string; DataHash : string }.

(** The circuit part of the module's store.  A key that is a prefix followed by
    a big-endian id is kept as the id; keys built from addresses are kept as
    the bytes after their prefix.  Codes and circuits are pinned under the same
    prefix, so there is one set of pinned ids. *)
Record Registry := mkRegistry {
  seqs : gmap string string;
  codes : gmap Z CodeInfo;
  infos : gmap Z CircuitInfo;
  blobs : gmap Z string;
  param_refs : gmap Z Z;
  creator_ix : gmap string unit;
  vk_infos : gmap Z VkParamInfoResponse;
  vk_bytes : gmap Z string;
  pinned : gset Z
}.

(** Circuit deposits: paid-until by depositor, the expiry index and the marks
    of depositors whose circuits remain to be pruned. *)
Record Deposits := mkDeposits {
  depositees : gmap string Z; expiry : gmap string unit; gcq : gmap string unit }.

Record CircuitEpochInfo := mkEpochInfo {
  Identifier : string; DurationSeconds : Z; CurrentEpoch : Z;
  CurrentEpochStartUnix : Z; CurrentEpochStartHeight : Z }.

Record Keeper (B G : Type) := mkKeeper {
  params : Params; bank : B; gas : G; reg : Registry; dep : Deposits; epoch : option CircuitEpochInfo }.
Arguments mkKeeper {B G}.
Arguments params {B G}.
Arguments bank {B G}.
Arguments gas {B G}.
Arguments reg {B G}.
Arguments dep {B G}.
Arguments epoch {B G}.

(** The block a call runs in. *)
Record BlockCtx := mkBlock { BlockTime : Z; BlockHeight : Z; Simulate : bool }.

(** ** Dependencies *)

(** [address.MustLengthPrefix]. *)
Class AddrPrefix := { MustLengthPrefix : string -> res string }.

Definition lp (a : string) : string := String (ascii_of_nat (String.length a)) a.

(** Documented: an address of at most 255 bytes is preceded by its length, a
    longer one panics. *)
Class AddrPrefixLaws `{AddrPrefix} : Prop := {
  MustLengthPrefix_ok a : (0 < String.length a <= 255)%nat -> MustLengthPrefix a = Ok (lp a);
  MustLengthPrefix_long a : (255 < String.length a)%nat -> exists p, MustLengthPrefix a = Panic p
}.

(** The virtual machine: storing parameters returns their key, storing or
    simulating a circuit returns its key and the gas used.  Its caches are
    local to a node. *)
Class CircuitVM := {
  StoreParam : string -> res string;
  StoreCircuit : string -> Z -> res string * Z;
  SimulateStoreCircuit : string -> Z -> res string * Z;
  SyncPinnedCodes : list string -> res unit;
  SyncPinnedCircuits : list string -> res unit;
  Uncompress : string -> Z -> res string;
  sha256 : string -> string
}.

(** [errorsmod.Wrap(sentinel, err.Error())]. *)
Definition wrap_err {A} (sentinel : string) (r : res A) : res A :=
  match r with Err _ => Err sentinel | r => r end.

(** ** Keys *)

Section Keys.
Context `{AddrPrefix}.

Definition GetCircuitDepositExpiryKey (until : Z) (addr : string) : res string :=
  ap ← MustLengthPrefix addr;
  mret (be64s until ++ ap)%string.

(** The byte at an index. *)
Definition byte_at (s : string) (i : nat) : nat :=
  match String.get i s with Some c => nat_of_ascii c | None => 0 end.

Definition ParseCircuitDepositExpiryKey (key : string) : option (Z * string) :=
  if (String.length key <? 9)%nat then None
  else
    let until := be64s_decode (String.substring 0 8 key) in
    let n := byte_at key 8 in
    if (n <=? 0)%nat || (String.length key <? 9 + n)%nat then None
    else Some (until, String.substring 9 n key).

Definition GetCircuitDepositGCKey (addr : string) : res string := MustLengthPrefix addr.

Definition ParseCircuitDepositGCKey (key : string) : option string :=
  if (String.length key <? 1)%nat then None
  else
    let n := byte_at key 0 in
    if (n <=? 0)%nat || (String.length key <? 1 + n)%nat then None
    else Some (String.substring 1 n key).

Definition GetCircuitByCreatorIDPrefix (creator : string) : res string := MustLengthPrefix creator.

Definition GetCircuitByCreatorIDKey (creator : string) (zkID : Z) : res string :=
  p ← GetCircuitByCreatorIDPrefix creator;
  mret (p ++ be64s zkID)%string.

End Keys.

Definition KeySequenceCircuitID : string := "lastPlonkishCircuit".
Definition KeySequenceVkParamID : string := "lastVkParamId".

(** ** Sequences *)

(** [binary.BigEndian.Uint64] panics on fewer than eight bytes and ignores
    bytes after the eighth; [binary.LittleEndian.Uint32] likewise with four. *)
Definition BigEndian_Uint64 (bz : string) : res Z :=
  must (8 <=? String.length bz)%nat "index out of range";;
  mret (be64s_decode (String.substring 0 8 bz)).

Definition LittleEndian_Uint32 (bz : string) : res Z :=
  must (4 <=? String.length bz)%nat "index out of range";;
  mret (le_decode (string_to_bytes (String.substring 0 4 bz))).

Definition le32s (z : Z) : string := bytes_to_string (le_encode 4 z).

Definition set_seq (k v : string) (r : Registry) : Registry :=
  mkRegistry (<[k := v]> (seqs r)) (codes r) (infos r) (blobs r) (param_refs r) (creator_ix r)
    (vk_infos r) (vk_bytes r) (pinned r).

Definition mustAutoIncrementID (sequenceKey : string) : M Registry Z :=
  bz ← gets (fun r => seqs r !! sequenceKey);
  id ← lift (match bz with Some bz => BigEndian_Uint64 bz | None => Ok 1 end);
  modify (set_seq sequenceKey (be64s (u64 (id + 1))));;
  mret id.

Definition mustAutoIncrementIDUint32 (sequenceKey : string) : M Registry Z :=
  bz ← gets (fun r => seqs r !! sequenceKey);
  id ← lift (match bz with Some bz => LittleEndian_Uint32 bz | None => Ok 1 end);
  modify (set_seq sequenceKey (le32s (u32 (id + 1))));;
  mret id.

Definition PeekAutoIncrementIDUint32 (sequenceKey : string) (r : Registry) : res Z :=
  match seqs r !! sequenceKey with Some bz => LittleEndian_Uint32 bz | None => Ok 1 end.

Definition PeekAutoIncrementID (sequenceKey : string) (r : Registry) : res Z :=
  match seqs r !! sequenceKey with Some bz => BigEndian_Uint64 bz | None => Ok 1 end.

Definition importAutoIncrementID (sequenceKey : string) (val : Z) : M Registry unit :=
  ok ← gets (fun r => bool_decide (is_Some (seqs r !! sequenceKey)));
  refuseM ok "ErrDuplicate";;
  modify (set_seq sequenceKey (be64s val)).

(** ** Registry updates *)

Definition set_codes f (r : Registry) : Registry :=
  mkRegistry (seqs r) (f (codes r)) (infos r) (blobs r) (param_refs r) (creator_ix r)
    (vk_infos r) (vk_bytes r) (pinned r).
Definition set_infos f (r : Registry) : Registry :=
  mkRegistry (seqs r) (codes r) (f (infos r)) (blobs r) (param_refs r) (creator_ix r)
    (vk_infos r) (vk_bytes r) (pinned r).
Definition set_blobs f (r : Registry) : Registry :=
  mkRegistry (seqs r) (codes r) (infos r) (f (blobs r)) (param_refs r) (creator_ix r)
    (vk_infos r) (vk_bytes r) (pinned r).
Definition set_param_refs f (r : Registry) : Registry :=
  mkRegistry (seqs r) (codes r) (infos r) (blobs r) (f (param_refs r)) (creator_ix r)
    (vk_infos r) (vk_bytes r) (pinned r).
Definition set_creator_ix f (r : Registry) : Registry :=
  mkRegistry (seqs r) (codes r) (infos r) (blobs r) (param_refs r) (f (creator_ix r))
    (vk_infos r) (vk_bytes r) (pinned r).
Definition set_vk_infos f (r : Registry) : Registry :=
  mkRegistry (seqs r) (codes r) (infos r) (blobs r) (param_refs r) (creator_ix r)
    (f (vk_infos r)) (vk_bytes r) (pinned r).
Definition set_vk_bytes f (r : Registry) : Registry :=
  mkRegistry (seqs r) (codes r) (infos r) (blobs r) (param_refs r) (creator_ix r)
    (vk_infos r) (f (vk_bytes r)) (pinned r).
Definition set_pinned f (r : Registry) : Registry :=
  mkRegistry (seqs r) (codes r) (infos r) (blobs r) (param_refs r) (creator_ix r)
    (vk_infos r) (vk_bytes r) (f (pinned r)).

Section RegistryOps.
Context `{AddrPrefix} `{CircuitVM} `{Bech32}.

Definition setCircuitCreatorIndex (creator : string) (zkID : Z) : M Registry unit :=
  k ← lift (GetCircuitByCreatorIDKey creator zkID);
  modify (set_creator_ix <[k := tt]>).

Definition deleteCircuitCreatorIndex (creator : string) (zkID : Z) : M Registry unit :=
  k ← lift (GetCircuitByCreatorIDKey creator zkID);
  modify (set_creator_ix (delete k)).

(** The keys of the creator's index, without their prefix, in order. *)
Definition iter_creator (creator : string) (r : Registry) : res (list string) :=
  p ← GetCircuitByCreatorIDPrefix creator;
  mret (map fst (iter_prefix p (creator_ix r))).

Definition hasCircuitCreatorIndex (creator : string) : M Registry bool :=
  r ← get;
  keys ← lift (iter_creator creator r);
  mret (negb (bool_decide (keys = []))).

(** Only the state of the store is modelled: the calls that drop the circuit
    from the caches of the virtual machine log their errors. *)
Definition removeCircuit (zkID : Z) : M Registry unit :=
  info ← gets (fun r => infos r !! zkID);
  match info with
  | None => throw "ErrNoSuchCircuit"
  | Some zkInfo =>
      modify (set_pinned (.∖ {[zkID]}));;
      match AccAddressFromBech32 (Creator zkInfo) with
      | Ok creator => deleteCircuitCreatorIndex creator zkID
      | Err _ => mret tt
      | Panic p => panic p
      end;;
      modify (set_infos (delete zkID));;
      modify (set_blobs (delete zkID));;
      modify (set_param_refs (delete zkID))
  end.

(** ** Pinning *)

(** The pinned ids in the order of their keys. *)
Definition pinned_ids (r : Registry) : list Z := merge_sort Z.le (elements (pinned r)).

Fixpoint collect_hashes (hash : Z -> option string) (err : string) (exclude : option Z) (ids : list Z)
    : res (list string) :=
  match ids with
  | [] => mret []
  | id :: ids =>
      if bool_decide (exclude = Some id) then collect_hashes hash err exclude ids
      else match hash id with
           | None => Err err
           | Some h => hs ← collect_hashes hash err exclude ids; mret (h :: hs)
           end
  end.

Definition collectPinnedChecksums (exclude : option Z) (r : Registry) : res (list string) :=
  collect_hashes (fun id => CodeHash <$> codes r !! id) "ErrNoSuchCode" exclude (pinned_ids r).

Definition collectPinnedCircuitKeys (exclude : option Z) (r : Registry) : res (list string) :=
  collect_hashes (fun id => CircuitHash <$> infos r !! id) "ErrNoSuchCircuit" exclude (pinned_ids r).

Definition pinCircuit (zkID : Z) : M Registry unit :=
  r ← get;
  match infos r !! zkID with
  | None => throw "ErrNoSuchCode"
  | Some zkInfo =>
      keys ← lift (collectPinnedCircuitKeys None r);
      lift (wrap_err "ErrPinCircuitFailed" (SyncPinnedCircuits (keys ++ [CircuitHash zkInfo])));;
      modify (set_pinned (.∪ {[zkID]}))
  end.

Definition unpinCircuit (zkID : Z) : M Registry unit :=
  r ← get;
  match infos r !! zkID with
  | None => throw "ErrNoSuchCode"
  | Some _ =>
      keys ← lift (collectPinnedCircuitKeys (Some zkID) r);
      lift (wrap_err "ErrUnpinCircuitFailed" (SyncPinnedCircuits keys));;
      modify (set_pinned (.∖ {[zkID]}))
  end.

Definition IsPinnedCode (codeID : Z) (r : Registry) : bool := bool_decide (codeID ∈ pinned r).

End RegistryOps.

(** ** Uploads *)

Section KeeperOps.
Context {B G : Type} `{AddrPrefix} `{CircuitVM} `{Bech32} `{GasMeterOps G}.
Context (gasRegister : WasmGasRegisterConfig) (ctx : BlockCtx).

Abbreviation K := (Keeper B G).

Definition set_reg (r : Registry) (k : K) : K := mkKeeper (params k) (bank k) (gas k) r (dep k) (epoch k).
Definition set_gas (g : G) (k : K) : K := mkKeeper (params k) (bank k) g (reg k) (dep k) (epoch k).
Definition set_dep (d : Deposits) (k : K) : K := mkKeeper (params k) (bank k) (gas k) (reg k) d (epoch k).
Definition set_bank (b : B) (k : K) : K := mkKeeper (params k) b (gas k) (reg k) (dep k) (epoch k).
Definition set_epoch (e : option CircuitEpochInfo) (k : K) : K :=
  mkKeeper (params k) (bank k) (gas k) (reg k) (dep k) e.

Definition on_reg {A} (m : M Registry A) : M K A := zoom reg set_reg m.
Definition on_gas {A} (m : M G A) : M K A := zoom gas set_gas m.

Definition pinCode (codeID : Z) : M K unit :=
  k ← get;
  match codes (reg k) !! codeID with
  | None => throw "ErrNoSuchCode"
  | Some codeInfo =>
      on_gas (ConsumeGas (PinCodeCost gasRegister));;
      checksums ← lift (collectPinnedChecksums None (reg k));
      lift (wrap_err "ErrSyncPinnedCodesFailed" (SyncPinnedCodes (checksums ++ [CodeHash codeInfo])));;
      on_reg (modify (set_pinned (.∪ {[codeID]})))
  end.

Definition unpinCode (codeID : Z) : M K unit :=
  k ← get;
  match codes (reg k) !! codeID with
  | None => throw "ErrNoSuchCode"
  | Some _ =>
      on_gas (ConsumeGas (UnpinCodeCost gasRegister));;
      checksums ← lift (collectPinnedChecksums (Some codeID) (reg k));
      lift (wrap_err "ErrSyncPinnedCodesFailed" (SyncPinnedCodes checksums));;
      on_reg (modify (set_pinned (.∖ {[codeID]})))
  end.

Definition getCircuitUploadAccessConfig (p : Params) : AccessConfig :=
  if bool_decide (Permission (CircuitUploadAccess p) = AccessTypeUnspecified) then CodeUploadAccess p
  else CircuitUploadAccess p.

Definition clamp_now : Z := if BlockTime ctx <? 0 then 0 else BlockTime ctx.

Definition HasCircuitDeposit (addr : string) (k : K) : bool :=
  match depositees (dep k) !! addr with
  | None => false
  | Some until => clamp_now <? i64 until
  end.

Definition CircuitDepositPaidUntil (addr : string) (k : K) : option Z := depositees (dep k) !! addr.

Definition authorizeCircuitUpload (creator : string) (instantiateAccess : AccessConfig) (authZ : Policy)
    : M K unit :=
  k ← get;
  defaultAccessConfig ← lift (With (InstantiateDefaultPermission (params k)) [creator]);
  let chainConfigs := mkChainConfigs (getCircuitUploadAccessConfig (params k)) defaultAccessConfig in
  can ← lift (CanCreateCode authZ chainConfigs creator instantiateAccess);
  if can : bool then mret tt
  else
    ensureM (IsSubset instantiateAccess defaultAccessConfig) "ErrUnauthorized";;
    ensureM (HasCircuitDeposit creator k) "ErrCircuitDepositRequired".

Definition gzipIdent : string := bytes_to_string [31; 139; 8].
Definition IsGzip (input : string) : bool := String.prefix gzipIdent input.
Definition MaxWasmSize : Z := 800 * 1024 * 2.
Definition MaxCircuitSize : Z := 32 * 1024 * 1024.

(** Charging for and unpacking a compressed upload. *)
Definition uncompress_upload (bz : string) : M K string :=
  if IsGzip bz then
    c ← lift (UncompressCosts gasRegister (slen bz));
    on_gas (ConsumeGas c);;
    match Uncompress bz MaxCircuitSize with
    | Ok r => mret r
    | Err _ => throw "ErrCreateFailed"
    | Panic p => panic p
    end
  else mret bz.

Definition create_failed {A} : res A -> res A := wrap_err "ErrCreateFailed".

Definition store_vk_param (creator : string) (auth : bool) (paramBytes : string) (authZ : Policy)
    : M K (Z * string) :=
  refuseM (bool_decide (creator = ""%string)) "ErrInvalidAddress";;
  ensureM auth "ErrInvalidRequest";;
  k ← get;
  defaultAccessConfig ← lift (With (InstantiateDefaultPermission (params k)) [creator]);
  authorizeCircuitUpload creator defaultAccessConfig authZ;;
  paramBytes ← uncompress_upload paramBytes;
  refuseM (bool_decide (paramBytes = ""%string)) "ErrInvalidRequest";;
  paramKey ← lift (create_failed (StoreParam paramBytes));
  ensureM (String.length paramKey =? 36)%nat "ErrCreateFailed";;
  paramID ← on_reg (mustAutoIncrementID KeySequenceVkParamID);
  on_reg (modify (set_vk_infos <[paramID := mkVkParamInfo paramID (AccAddress_String creator) paramKey]>));;
  on_reg (modify (set_vk_bytes <[paramID := paramBytes]>));;
  c ← lift (UncompressCosts gasRegister (slen paramBytes));
  on_gas (ConsumeGas c);;
  mret (paramID, paramKey).

(** The stored parameter bytes match the hash half of their key. *)
Definition param_intact (info : VkParamInfoResponse) (paramBytes : string) : res unit :=
  match String.length (DataHash info) with
  | 36%nat => ensure (String.eqb (sha256 paramBytes) (String.substring 4 32 (DataHash info))) "ErrInvalid"
  | 32%nat => ensure (String.eqb (sha256 paramBytes) (DataHash info)) "ErrInvalid"
  | _ => Err "ErrInvalid"
  end.

Definition store_circuit (creator : string) (paramID : Z) (vkBody : string)
    (instantiateAccess : option AccessConfig) (authZ : Policy) : M K (Z * string) :=
  refuseM (bool_decide (creator = ""%string)) "ErrInvalidAddress";;
  refuseM (paramID =? 0) "ErrInvalidRequest";;
  k ← get;
  defaultAccessConfig ← lift (With (InstantiateDefaultPermission (params k)) [creator]);
  let access := default defaultAccessConfig instantiateAccess in
  authorizeCircuitUpload creator access authZ;;
  paramInfo ← lift (match vk_infos (reg k) !! paramID with Some i => Ok i | None => Err "ErrNotFound" end);
  paramBytes ← lift (match vk_bytes (reg k) !! paramID with Some b => Ok b | None => Err "ErrNotFound" end);
  lift (param_intact paramInfo paramBytes);;
  lift (create_failed (StoreParam paramBytes));;
  vkBody ← uncompress_upload vkBody;
  refuseM (bool_decide (vkBody = ""%string)) "ErrInvalidRequest";;
  let circuitBinary := (paramBytes ++ vkBody)%string in
  meter ← gets gas;
  gasLeft ← lift (runtimeGasForContract gasRegister meter);
  let '(vmChecksum, gasUsed) :=
    if Simulate ctx then SimulateStoreCircuit circuitBinary gasLeft else StoreCircuit circuitBinary gasLeft in
  on_gas (consumeRuntimeGas gasRegister gasUsed);;
  checksum ← lift (create_failed vmChecksum);
  refuseM (bool_decide (checksum = ""%string)) "ErrCreateFailed";;
  zkID ← on_reg (mustAutoIncrementID KeySequenceCircuitID);
  on_reg (modify (set_infos <[zkID := mkCircuitInfo checksum (AccAddress_String creator) access
    0 (slen paramBytes) 0 (slen vkBody)]>));;
  on_reg (modify (set_param_refs <[zkID := paramID]>));;
  on_reg (setCircuitCreatorIndex creator zkID);;
  on_reg (modify (set_blobs <[zkID := circuitBinary]>));;
  mret (zkID, checksum).

Definition store_full_circuit (creator : string) (auth : bool) (paramBytes vkBody : string) (authZ : Policy)
    : M K (Z * Z * string * string) :=
  p ← store_vk_param creator auth paramBytes authZ;
  c ← store_circuit creator p.1 vkBody None authZ;
  mret (p.1, c.1, p.2, c.2).

End KeeperOps.

(** ** Keys identify what they were built from *)

Definition valid_addr (a : string) : Prop := (0 < String.length a <= 255)%nat.

Lemma lp_length a : String.length (lp a) = S (String.length a).
Proof. done. Qed.

Lemma byte_len a : valid_addr a -> nat_of_ascii (ascii_of_nat (String.length a)) = String.length a.
Proof. intros [_ ?]. apply nat_ascii_embedding. lia. Qed.

Lemma lp_app_inj a b x y : valid_addr a -> valid_addr b ->
  (lp a ++ x = lp b ++ y)%string -> a = b /\ x = y.
Proof.
  intros Ha Hb E. unfold lp in E. rewrite !string_app_cons in E. injection E as Hl E.
  apply (f_equal nat_of_ascii) in Hl. rewrite !byte_len in Hl by done.
  apply (f_equal String.length) in E as Hlen. rewrite !string_app_length in Hlen.
  apply string_app_inj_len in E; [done|lia].
Qed.

Lemma substring_app_l a b : String.substring 0 (String.length a) (a ++ b) = a.
Proof. induction a as [|c a IH]; [by destruct b|]. rewrite string_app_cons. cbn. by rewrite IH. Qed.

Lemma substring_app_r a b n : String.substring (String.length a) n (a ++ b) = String.substring 0 n b.
Proof. induction a as [|c a IH]; [done|]. rewrite string_app_cons. cbn. done. Qed.

Lemma substring_full s : String.substring 0 (String.length s) s = s.
Proof. induction s as [|c s IH]; [done|]. cbn. by rewrite IH. Qed.

Lemma get_app_r a b n : String.get (String.length a + n) (a ++ b) = String.get n b.
Proof. induction a as [|c a IH]; [done|]. rewrite string_app_cons. cbn. done. Qed.

Lemma parse_gc_roundtrip a : valid_addr a -> ParseCircuitDepositGCKey (lp a) = Some a.
Proof.
  intros Ha. unfold ParseCircuitDepositGCKey, byte_at. rewrite lp_length. cbn [String.get lp].
  rewrite byte_len by done. destruct Ha as [Hlo Hhi].
  destruct (Nat.ltb_spec (S (String.length a)) 1); [lia|].
  destruct (Nat.leb_spec (String.length a) 0); [lia|]. cbn [orb].
  destruct (Nat.ltb_spec (S (String.length a)) (1 + String.length a)); [lia|].
  f_equal. unfold lp. cbn. apply substring_full.
Qed.

Lemma parse_expiry_roundtrip u a : is_u64 u -> valid_addr a ->
  ParseCircuitDepositExpiryKey (be64s u ++ lp a) = Some (u, a).
Proof.
  intros Hu Ha. pose proof (be64s_length u) as H8.
  assert (Hlen : String.length (be64s u ++ lp a) = (9 + String.length a)%nat).
  { rewrite string_app_length, H8, lp_length. lia. }
  assert (Hget : String.get 8 (be64s u ++ lp a) = Some (ascii_of_nat (String.length a))).
  { pose proof (get_app_r (be64s u) (lp a) 0) as E. by rewrite H8 in E. }
  assert (Hu8 : String.substring 0 8 (be64s u ++ lp a) = be64s u).
  { pose proof (substring_app_l (be64s u) (lp a)) as E. by rewrite H8 in E. }
  assert (Hrest : String.substring 9 (String.length a) (be64s u ++ lp a) = a).
  { set (pre := (be64s u ++ String (ascii_of_nat (String.length a)) "")%string).
    assert (Hpre : String.length pre = 9%nat) by (unfold pre; rewrite string_app_length, H8; done).
    replace (be64s u ++ lp a)%string with (pre ++ a)%string
      by (unfold pre; rewrite <- string_app_assoc; done).
    pose proof (substring_app_r pre a (String.length a)) as E. rewrite Hpre in E. rewrite E.
    apply substring_full. }
  unfold ParseCircuitDepositExpiryKey, byte_at. rewrite Hget, Hu8, byte_len, Hrest, Hlen by done.
  rewrite be64s_roundtrip by done. destruct Ha as [Hlo Hhi].
  destruct (Nat.ltb_spec (9 + String.length a) 9); [lia|].
  destruct (Nat.leb_spec (String.length a) 0); [lia|]. cbn [orb].
  destruct (Nat.ltb_spec (9 + String.length a) (9 + String.length a)); [lia|done].
Qed.

(** ** The registry invariant *)

Section RegistryProofs.
Context `{AddrPrefixLaws} `{CircuitVM} `{Bech32Laws}.

(** [owns r a id]: circuit [id] is recorded with the creator [a]. *)
Definition owns (r : Registry) (a : string) (id : Z) : Prop :=
  exists info, infos r !! id = Some info /\ AccAddressFromBech32 (Creator info) = Ok a.

(** Ids are below the next one of the sequence, and every entry of the creator
    index is that of a circuit with that creator. *)
Record reg_ok (r : Registry) : Prop := {
  ro_next : exists n, PeekAutoIncrementID KeySequenceCircuitID r = Ok n /\ 1 <= n <= u64_max /\
    forall id, is_Some (infos r !! id) -> 0 <= id < n;
  ro_index : forall key, is_Some (creator_ix r !! key) ->
    exists a id, valid_addr a /\ is_u64 id /\ key = (lp a ++ be64s id)%string /\ owns r a id
}.

(** What removing a circuit of [a] does to the registry. *)
Definition del_circuit (a : string) (r : Registry) (id : Z) : Registry :=
  mkRegistry (seqs r) (codes r) (delete id (infos r)) (delete id (blobs r)) (delete id (param_refs r))
    (delete (lp a ++ be64s id)%string (creator_ix r)) (vk_infos r) (vk_bytes r) (pinned r ∖ {[id]}).

Lemma creator_key_ok a id : valid_addr a ->
  GetCircuitByCreatorIDKey a id = Ok (lp a ++ be64s id)%string.
Proof.
  intros Ha. unfold GetCircuitByCreatorIDKey, GetCircuitByCreatorIDPrefix.
  by rewrite MustLengthPrefix_ok.
Qed.

Lemma remove_circuit_ok r a id : valid_addr a -> owns r a id ->
  removeCircuit id r = (Ok tt, del_circuit a r id).
Proof.
  intros Ha (info&Hi&Hc). unfold removeCircuit, deleteCircuitCreatorIndex.
  go_run. rewrite Hi. go_run. rewrite Hc. rewrite creator_key_ok by done. done.
Qed.

Lemma circuit_key_inj a b i j : valid_addr a -> valid_addr b -> is_u64 i -> is_u64 j ->
  (lp a ++ be64s i = lp b ++ be64s j)%string -> a = b /\ i = j.
Proof. intros ? ? ? ? [-> E]%lp_app_inj; [|done..]. split; [done|]. by apply be64s_inj. Qed.

Lemma owns_del r a id b j : owns (del_circuit a r id) b j <-> owns r b j /\ j <> id.
Proof.
  unfold owns, del_circuit. cbn. split.
  - intros (info&Hi&?). apply lookup_delete_Some in Hi as [? ?]. naive_solver.
  - intros [(info&?&?) ?]. exists info. by rewrite lookup_delete_ne by done.
Qed.

Lemma owns_fun r a b id : owns r a id -> owns r b id -> a = b.
Proof. intros (i&?&?) (j&?&?). congruence. Qed.

Lemma del_circuit_ok r a id : valid_addr a -> is_u64 id -> owns r a id -> reg_ok r ->
  reg_ok (del_circuit a r id).
Proof.
  intros Ha Hid Ho [(n&Hn&Hr&Hb) Hix]. split.
  - exists n. split_and!; [done|lia..|]. intros j Hj. apply Hb. cbn in Hj.
    destruct Hj as [i [? ?]%lookup_delete_Some]. by exists i.
  - intros key Hk. cbn in Hk. destruct Hk as [[] [Hne Hk]%lookup_delete_Some].
    destruct (Hix key) as (b&j&Hb'&Hj&->&Hown); [by exists tt|].
    exists b, j. split_and!; [done..|]. apply owns_del. split; [done|].
    intros ->. apply Hne. by rewrite (owns_fun _ _ _ _ Ho Hown).
Qed.

(** The ids in the index of a creator. *)
Definition ids_of (a : string) (r : Registry) : list Z :=
  map be64s_decode (map fst (iter_prefix (lp a) (creator_ix r))).

Lemma creator_keys r a key : reg_ok r -> valid_addr a ->
  key ∈ map fst (iter_prefix (lp a) (creator_ix r)) ->
  exists id, key = be64s id /\ is_u64 id /\ owns r a id /\ is_Some (creator_ix r !! (lp a ++ key)%string).
Proof.
  intros Hr Ha ([k []]&->&Hin)%list_elem_of_fmap. cbn. apply elem_of_iter_prefix in Hin.
  destruct (ro_index _ Hr (lp a ++ k)%string) as (b&id&Hb&Hid&E&Hown); [by exists tt|].
  apply lp_app_inj in E as [<- ->]; [|done..]. exists id. split_and!; [done..|]. by exists tt.
Qed.

Lemma elem_of_ids_of r a id : reg_ok r -> valid_addr a ->
  id ∈ ids_of a r -> is_u64 id /\ owns r a id /\ is_Some (creator_ix r !! (lp a ++ be64s id)%string).
Proof.
  intros Hr Ha (key&->&Hin)%list_elem_of_fmap.
  destruct (creator_keys r a key Hr Ha Hin) as (j&->&Hj&Hown&Hs).
  by rewrite be64s_roundtrip.
Qed.

Lemma ids_of_nodup r a : reg_ok r -> valid_addr a -> NoDup (ids_of a r).
Proof.
  intros Hr Ha. unfold ids_of. pose proof (iter_prefix_keys_nodup (lp a) (creator_ix r)) as Hnd.
  assert (Hk : forall k, k ∈ map fst (iter_prefix (lp a) (creator_ix r)) -> exists id, k = be64s id /\ is_u64 id).
  { intros k (id&->&?&_)%creator_keys; [by exists id|done..]. }
  change (NoDup (map fst (iter_prefix (lp a) (creator_ix r)))) in Hnd.
  induction Hnd as [|k l Hkl Hnd IH]; cbn; constructor.
  - intros (k'&E&Hin)%list_elem_of_fmap. destruct (Hk k) as (i&->&Hi); [set_solver|].
    destruct (Hk k') as (j&->&Hj); [set_solver|]. rewrite !be64s_roundtrip in E by done. by subst.
  - apply IH. set_solver.
Qed.

(** All keys of a creator's index are eight bytes long. *)
Lemma creator_keys_all8 r a : reg_ok r -> valid_addr a ->
  List.filter (fun k => (String.length k =? 8)%nat) (map fst (iter_prefix (lp a) (creator_ix r)))
  = map fst (iter_prefix (lp a) (creator_ix r)).
Proof.
  intros Hr Ha. apply List.forallb_filter_id, forallb_forall. intros k Hk%list_elem_of_In.
  destruct (creator_keys r a k Hr Ha Hk) as (id&->&_). by rewrite be64s_length.
Qed.

End RegistryProofs.

(** ** Uploads extend the registry *)

Section UploadProofs.
Context {B G : Type} `{AddrPrefixLaws} `{CircuitVM} `{Bech32Laws} `{GasMeterOps G}.
Context (gasRegister : WasmGasRegisterConfig) (ctx : BlockCtx).

Abbreviation K := (Keeper B G).

Lemma on_reg_Ok {A} (m : M Registry A) a (k k' : K) :
  on_reg m k = (Ok a, k') -> exists r, m (reg k) = (Ok a, r) /\ k' = set_reg r k.
Proof. unfold on_reg, zoom. destruct (m (reg k)) as [x r]. intros [= -> <-]. eauto. Qed.

Lemma kp_gas_Ok {A} (m : M G A) a (k k' : K) :
  on_gas m k = (Ok a, k') -> exists g, m (gas k) = (Ok a, g) /\ k' = set_gas g k.
Proof. unfold on_gas, zoom. destruct (m (gas k)) as [x r]. intros [= -> <-]. eauto. Qed.

Lemma authorize_Ok creator access authZ u (k k' : K) :
  authorizeCircuitUpload ctx creator access authZ k = (Ok u, k') ->
  k' = k /\ exists d, With (InstantiateDefaultPermission (params k)) [creator] = Ok d /\
    (CanCreateCode authZ (mkChainConfigs (getCircuitUploadAccessConfig (params k)) d) creator access = Ok true
     \/ IsSubset access d = true /\ HasCircuitDeposit ctx creator k = true).
Proof.
  unfold authorizeCircuitUpload. intros E. apply bind_Ok in E as (k0&k1&[-> <-]%get_Ok&E).
  apply bind_Ok in E as (d&k1&[Hd <-]%lift_Ok&E). apply bind_Ok in E as (can&k1&[Hc <-]%lift_Ok&E).
  destruct can.
  - apply ret_Ok in E as [_ <-]. split; [done|]. exists d. auto.
  - apply bind_Ok in E as ([]&k1&[Hs <-]%ensureM_Ok&E). apply ensureM_Ok in E as [Hh <-].
    split; [done|]. exists d. auto.
Qed.

Lemma uncompress_Ok bz r (k k' : K) :
  uncompress_upload gasRegister bz k = (Ok r, k') -> exists g, k' = set_gas g k.
Proof.
  unfold uncompress_upload. destruct (IsGzip bz).
  - intros E. apply bind_Ok in E as (c&k1&[_ <-]%lift_Ok&E).
    apply bind_Ok in E as ([]&k1&(g&_&->)%kp_gas_Ok&E). exists g.
    destruct (Uncompress _ _); go_inv; done.
  - intros [_ <-]%ret_Ok. exists (gas k). by destruct k.
Qed.

Lemma increment_Ok key id (r r' : Registry) :
  mustAutoIncrementID key r = (Ok id, r') ->
  PeekAutoIncrementID key r = Ok id /\ r' = set_seq key (be64s (u64 (id + 1))) r.
Proof.
  unfold mustAutoIncrementID, PeekAutoIncrementID. intros E.
  apply bind_Ok in E as (bz&r1&[-> <-]%gets_Ok&E). apply bind_Ok in E as (i&r1&[Hi <-]%lift_Ok&E).
  apply bind_Ok in E as ([]&r1&->%modify_Ok&[<- <-]%ret_Ok). done.
Qed.

Lemma set_index_Ok creator id u (r r' : Registry) : valid_addr creator ->
  setCircuitCreatorIndex creator id r = (Ok u, r') ->
  r' = set_creator_ix <[(lp creator ++ be64s id)%string := tt]> r.
Proof.
  intros Hc. unfold setCircuitCreatorIndex. rewrite creator_key_ok by done. intros E. go_inv. done.
Qed.

(** The registry after storing circuit [id] with this metadata and blob. *)
Definition add_circuit (creator : string) (id paramID : Z) (info : CircuitInfo) (blob : string)
    (r : Registry) : Registry :=
  mkRegistry (<[KeySequenceCircuitID := be64s (u64 (id + 1))]> (seqs r)) (codes r) (<[id := info]> (infos r))
    (<[id := blob]> (blobs r)) (<[id := paramID]> (param_refs r))
    (<[(lp creator ++ be64s id)%string := tt]> (creator_ix r)) (vk_infos r) (vk_bytes r) (pinned r).

Lemma peek_after key n r : is_u64 n ->
  seqs r !! key = Some (be64s n) -> PeekAutoIncrementID key r = Ok n.
Proof.
  intros Hn E. unfold PeekAutoIncrementID. rewrite E. unfold BigEndian_Uint64, must.
  rewrite be64s_length. cbn [Nat.leb mbind res_bind]. pose proof (substring_full (be64s n)) as Hs.
  rewrite be64s_length in Hs. by rewrite Hs, be64s_roundtrip.
Qed.

Lemma add_circuit_ok creator id paramID info blob r :
  reg_ok r -> valid_addr creator -> PeekAutoIncrementID KeySequenceCircuitID r = Ok id -> id < u64_max ->
  AccAddressFromBech32 (Creator info) = Ok creator ->
  infos r !! id = None /\ reg_ok (add_circuit creator id paramID info blob r) /\
  owns (add_circuit creator id paramID info blob r) creator id.
Proof.
  intros [(n&Hn&Hr&Hb) Hix] Hc Hp Hmax Hi. rewrite Hn in Hp. injection Hp as ->.
  assert (Hfresh : infos r !! id = None).
  { destruct (infos r !! id) eqn:E; [|done]. destruct (Hb id) as [_ ?]; [by rewrite E|lia]. }
  assert (Ho : owns (add_circuit creator id paramID info blob r) creator id).
  { exists info. cbn. by rewrite lookup_insert_eq. }
  split_and!; [done| |done]. unfold u64_max in *. split.
  - exists (id + 1). split_and!; [|unfold u64_max; lia..|].
    + apply peek_after; [unfold is_u64; lia|]. cbn.
      by rewrite lookup_insert_eq, u64_small by (unfold is_u64; lia).
    + intros j Hj. cbn in Hj. destruct (decide (j = id)) as [->|Hne]; [lia|].
      rewrite lookup_insert_ne in Hj by done. apply Hb in Hj. lia.
  - intros key Hk. cbn in Hk. destruct (decide (key = lp creator ++ be64s id)%string) as [->|Hne].
    + exists creator, id. split_and!; [done|unfold is_u64; lia|done..].
    + rewrite lookup_insert_ne in Hk by done. destruct (Hix key Hk) as (a&j&?&?&->&(i&Hj&?)).
      exists a, j. split_and!; [done..|]. exists i. cbn. rewrite lookup_insert_ne; [done|congruence].
Qed.

(** A circuit that is stored was allowed by the policy, or its creator has
    an unexpired deposit and asked for no wider access than the default.  It
    gets an id that was not in use, its blob is the referenced parameters
    followed by the uploaded body, the parameters still hash to the key they
    were stored under, the circuit belongs to its creator in the index, and the
    registry stays consistent; deposits and balances are untouched. *)
Theorem store_circuit_effect creator paramID vkBody access authZ (k k' : K) zkID checksum :
  reg_ok (reg k) -> valid_addr creator ->
  (forall n, PeekAutoIncrementID KeySequenceCircuitID (reg k) = Ok n -> n < u64_max) ->
  store_circuit gasRegister ctx creator paramID vkBody access authZ k = (Ok (zkID, checksum), k') ->
  exists d paramInfo paramBytes body,
    With (InstantiateDefaultPermission (params k)) [creator] = Ok d /\
    (CanCreateCode authZ (mkChainConfigs (getCircuitUploadAccessConfig (params k)) d) creator
       (default d access) = Ok true
     \/ IsSubset (default d access) d = true /\ HasCircuitDeposit ctx creator k = true) /\
    vk_infos (reg k) !! paramID = Some paramInfo /\ vk_bytes (reg k) !! paramID = Some paramBytes /\
    param_intact paramInfo paramBytes = Ok tt /\
    infos (reg k) !! zkID = None /\
    reg k' = add_circuit creator zkID paramID
      (mkCircuitInfo checksum (AccAddress_String creator) (default d access) 0 (slen paramBytes) 0 (slen body))
      (paramBytes ++ body) (reg k) /\
    reg_ok (reg k') /\ owns (reg k') creator zkID /\
    dep k' = dep k /\ bank k' = bank k /\ params k' = params k.
Proof.
  intros Hreg Hc Hseq E. unfold store_circuit in E.
  apply bind_Ok in E as ([]&k1&[_ <-]%refuseM_Ok&E). apply bind_Ok in E as ([]&k1&[_ <-]%refuseM_Ok&E).
  apply bind_Ok in E as (k0&k1&[-> <-]%get_Ok&E). apply bind_Ok in E as (d&k1&[Hd <-]%lift_Ok&E).
  apply bind_Ok in E as ([]&k1&(->&d'&Hd'&Hauth)%authorize_Ok&E).
  assert (d' = d) as -> by congruence.
  apply bind_Ok in E as (pi&k1&[Hpi <-]%lift_Ok&E). apply bind_Ok in E as (pb&k1&[Hpb <-]%lift_Ok&E).
  apply bind_Ok in E as ([]&k1&[Hint <-]%lift_Ok&E). apply bind_Ok in E as (pk&k1&[_ <-]%lift_Ok&E).
  apply bind_Ok in E as (vb&k1&(g1&->)%uncompress_Ok&E). apply bind_Ok in E as ([]&k1&[_ <-]%refuseM_Ok&E).
  apply bind_Ok in E as (m&k1&[_ <-]%gets_Ok&E). apply bind_Ok in E as (gl&k1&[_ <-]%lift_Ok&E).
  destruct (if Simulate ctx then _ else _) as [vmc gu].
  apply bind_Ok in E as ([]&k1&(g2&_&->)%kp_gas_Ok&E). apply bind_Ok in E as (cs&k1&[_ <-]%lift_Ok&E).
  apply bind_Ok in E as ([]&k1&[_ <-]%refuseM_Ok&E).
  apply bind_Ok in E as (id&k1&(r1&[Hpeek ->]%increment_Ok&->)%on_reg_Ok&E).
  apply bind_Ok in E as ([]&k1&(r2&->%modify_Ok&->)%on_reg_Ok&E).
  apply bind_Ok in E as ([]&k1&(r3&->%modify_Ok&->)%on_reg_Ok&E).
  apply bind_Ok in E as ([]&k1&(r4&->%(set_index_Ok _ _ _ _ _ Hc)&->)%on_reg_Ok&E).
  apply bind_Ok in E as ([]&k1&(r5&->%modify_Ok&->)%on_reg_Ok&E).
  apply ret_Ok in E as [[= <- <-] <-]. cbn in Hpeek.
  exists d, pi, pb, vb. split; [done|]. split; [done|].
  destruct (vk_infos (reg k) !! paramID) as [pi'|]; [|done]. injection Hpi as ->.
  destruct (vk_bytes (reg k) !! paramID) as [pb'|]; [|done]. injection Hpb as ->.
  set (info := mkCircuitInfo cs (AccAddress_String creator) (default d access) 0 (slen pb) 0 (slen vb)).
  assert (Hdec : AccAddressFromBech32 (Creator info) = Ok creator).
  { apply bech32_roundtrip. intros ->. destruct Hc. cbn in *. lia. }
  destruct (add_circuit_ok creator id paramID info (pb ++ vb) (reg k) Hreg Hc Hpeek (Hseq _ Hpeek) Hdec)
    as (Hf&Hok&Ho).
  split_and!; done.
Qed.

(** What an upload holds once unpacked. *)
Definition unpacked (bz : string) : res string := if IsGzip bz then Uncompress bz MaxCircuitSize else Ok bz.

Lemma uncompress_value bz r (k k' : K) : uncompress_upload gasRegister bz k = (Ok r, k') -> unpacked bz = Ok r.
Proof.
  unfold uncompress_upload, unpacked. destruct (IsGzip bz); [|by intros [-> _]%ret_Ok].
  intros E. apply bind_Ok in E as (c&k1&_&E). apply bind_Ok in E as ([]&k2&_&E).
  destruct (Uncompress _ _); go_inv; done.
Qed.

(** The registry after storing parameters under [id]. *)
Definition add_vk_param (id : Z) (creator key pb : string) (r : Registry) : Registry :=
  set_vk_bytes <[id := pb]> (set_vk_infos <[id := mkVkParamInfo id (AccAddress_String creator) key]>
    (set_seq KeySequenceVkParamID (be64s (u64 (id + 1))) r)).

Lemma store_vk_param_Ok creator auth bz authZ (k k' : K) id key :
  store_vk_param gasRegister ctx creator auth bz authZ k = (Ok (id, key), k') ->
  exists pb, unpacked bz = Ok pb /\ pb <> ""%string /\ StoreParam pb = Ok key /\ String.length key = 36%nat /\
    PeekAutoIncrementID KeySequenceVkParamID (reg k) = Ok id /\ reg k' = add_vk_param id creator key pb (reg k) /\
    dep k' = dep k /\ bank k' = bank k /\ params k' = params k.
Proof.
  intros E. unfold store_vk_param in E.
  apply bind_Ok in E as ([]&k1&[_ <-]%refuseM_Ok&E). apply bind_Ok in E as ([]&k1&[_ <-]%ensureM_Ok&E).
  apply bind_Ok in E as (k0&k1&[-> <-]%get_Ok&E). apply bind_Ok in E as (d&k1&[_ <-]%lift_Ok&E).
  apply bind_Ok in E as ([]&k1&(->&_)%authorize_Ok&E).
  apply bind_Ok in E as (vb&k1&Hu&E). pose proof (uncompress_value _ _ _ _ Hu) as Hv.
  apply uncompress_Ok in Hu as (g1&->). apply bind_Ok in E as ([]&k1&[Hne <-]%refuseM_Ok&E).
  apply bool_decide_eq_false in Hne.
  apply bind_Ok in E as (pk&k1&[Hpk <-]%lift_Ok&E). apply bind_Ok in E as ([]&k1&[Hlen <-]%ensureM_Ok&E).
  apply Nat.eqb_eq in Hlen. assert (Hst : StoreParam vb = Ok pk) by (by destruct (StoreParam vb)).
  apply bind_Ok in E as (n&k1&(r1&[Hpeek ->]%increment_Ok&->)%on_reg_Ok&E).
  apply bind_Ok in E as ([]&k1&(r2&->%modify_Ok&->)%on_reg_Ok&E).
  apply bind_Ok in E as ([]&k1&(r3&->%modify_Ok&->)%on_reg_Ok&E).
  apply bind_Ok in E as (c&k1&[_ <-]%lift_Ok&E). apply bind_Ok in E as ([]&k1&(g2&_&->)%kp_gas_Ok&E).
  apply ret_Ok in E as [[= <- <-] <-]. by exists vb.
Qed.

Lemma store_vk_param_keeps creator auth bz authZ (k k' : K) r :
  reg_ok (reg k) -> store_vk_param gasRegister ctx creator auth bz authZ k = (Ok r, k') ->
  reg_ok (reg k') /\ infos (reg k') = infos (reg k) /\ creator_ix (reg k') = creator_ix (reg k) /\
  dep k' = dep k /\ bank k' = bank k /\ params k' = params k.
Proof.
  intros Hreg E. destruct r as [id key]. apply store_vk_param_Ok in E as (pb&_&_&_&_&_&->&Hk).
  split; [|done]. destruct Hreg as [(n&Hn&Hr) Hix].
  split; [|done]. exists n. split; [|done]. unfold PeekAutoIncrementID in *. cbn.
  by rewrite lookup_insert_ne.
Qed.

End UploadProofs.

(** Codes and circuits share the prefix of the pinned index, so that
    removing circuit [n], as the garbage collection of deposits does, also
    unpins code [n], which is still stored. *)
Theorem circuit_removal_unpins_code `{AddrPrefix} `{Bech32} n h (r r' : Registry) :
  codes r !! n = Some h -> IsPinnedCode n r = true -> removeCircuit n r = (Ok tt, r') ->
  codes r' !! n = Some h /\ IsPinnedCode n r' = false.
Proof.
  intros Hc Hp E. unfold removeCircuit in E. apply bind_Ok in E as (i&r1&[-> <-]%gets_Ok&E).
  destruct (infos r !! n) as [info|]; [|done].
  apply bind_Ok in E as ([]&r1&->%modify_Ok&E). apply bind_Ok in E as ([]&r1&Hd&E). go_inv.
  assert (codes r1 = codes r /\ pinned r1 = pinned r ∖ {[n]}) as [Hr1 Hr2].
  { destruct (AccAddressFromBech32 (Creator info)); [|by go_inv|done].
    unfold deleteCircuitCreatorIndex in Hd. go_inv. done. }
  unfold IsPinnedCode. cbn. rewrite Hr1, Hr2. split; [done|]. apply bool_decide_eq_false. set_solver.
Qed.

(** ** Witnesses *)

Module CircuitRef.

#[export] Instance addr_prefix : AddrPrefix := {|
  MustLengthPrefix a := if (String.length a <=? 255)%nat then Ok (lp a) else Panic "address too long" |}.

#[export] Instance addr_prefix_laws : AddrPrefixLaws.
Proof. split; intros a Ha; cbn; destruct (Nat.leb_spec (String.length a) 255); eauto || lia. Defined.

Definition hash32 : string := "0123456789abcdef0123456789abcdef".

(** A machine under which everything hashes to the same 32 bytes. *)
#[export] Instance vm : CircuitVM := {|
  StoreParam _ := Ok ("key." ++ hash32)%string;
  StoreCircuit _ _ := (Ok "circuit"%string, 140000);
  SimulateStoreCircuit _ _ := (Ok "circuit"%string, 140000);
  SyncPinnedCodes _ := Ok tt;
  SyncPinnedCircuits _ := Ok tt;
  Uncompress bz _ := Ok bz;
  sha256 _ := hash32 |}.

End CircuitRef.

Module CircuitWitness.
Import Ref RefLaws RefBank RefBankLaws CircuitRef.

Definition everybody : Params := mkParams AllowEverybody AccessTypeEverybody AllowEverybody "".
Definition param7 : VkParamInfoResponse := mkVkParamInfo 7 "addrbob" ("key." ++ hash32)%string.
Definition code1 : CodeInfo := mkCodeInfo "wasm" "ann" AllowEverybody.
Definition r0 : Registry := mkRegistry ∅ {[1 := code1]} ∅ ∅ ∅ ∅ {[7 := param7]} {[7 := "params"%string]} {[1]}.
Definition k0 : Keeper ref_bank meter :=
  mkKeeper everybody RefBank.empty (mkMeter 0 1000000) r0 (mkDeposits ∅ ∅ ∅) None.

Lemma r0_ok : reg_ok r0.
Proof. split; [|by intros ? [? ?]]. exists 1. by split_and!; try (intros ? [? ?]). Defined.

Lemma store_circuit_effect_witness :
  exists k', store_circuit DefaultGasRegisterConfig (mkBlock 5 1 false) "bob" 7 "body" None
      DefaultAuthorizationPolicy k0 = (Ok (1, "circuit"%string), k') /\ owns (reg k') "bob" 1.
Proof.
  destruct (store_circuit DefaultGasRegisterConfig (mkBlock 5 1 false) "bob" 7 "body" None
    DefaultAuthorizationPolicy k0) as [r k'] eqn:E.
  assert (r = Ok (1, "circuit"%string)) as ->.
  { apply (f_equal fst) in E. cbn [fst] in E. rewrite <- E. vm_compute. reflexivity. }
  exists k'. split; [done|].
  destruct (store_circuit_effect DefaultGasRegisterConfig (mkBlock 5 1 false) "bob" 7 "body" None
    DefaultAuthorizationPolicy k0 k' 1 "circuit" r0_ok) as (?&?&?&?&H); [cbv; lia| |exact E|tauto].
  intros n [= <-]. done.
Defined.

Definition r1 : Registry :=
  mkRegistry ∅ {[1 := code1]} {[1 := mkCircuitInfo "h" "" AllowEverybody 0 0 0 0]} ∅ ∅ ∅ ∅ ∅ {[1]}.

Lemma circuit_removal_unpins_code_witness :
  exists r', removeCircuit 1 r1 = (Ok tt, r') /\ IsPinnedCode 1 r' = false.
Proof.
  eexists. split; [reflexivity|].
  refine (proj2 (circuit_removal_unpins_code 1 code1 r1 _ _ _ _)); reflexivity.
Defined.

End CircuitWitness.
