(* ===== verification/WasmContracts.v ===== *)
(** * x/wasm: contracts in the store

    What the keeper records for a contract: its info, the history of the codes
    it has run, and the two secondary indexes, by code and by creator.  A
    contract is represented by its info and the list of its history entries;
    [Rep] relates that to the keys of the store, and the operations of the
    keeper are shown to maintain it, so that the queries over the indexes
    return exactly what they promise. *)

From Stdlib Require Import ZArith Lia Ascii.
From stdpp Require Import base gmap strings list sorting.
From S2P Require Import Prelude Sdk SdkRef Store GoLib Bank WasmAccess WasmGas WasmCircuits.

(** ** Data *)

Record AbsoluteTxPosition := mkPos { PosHeight : Z; TxIndex : Z }.

Inductive HistoryOperation :=
  HistoryUnspecified | HistoryInit | HistoryMigrate | HistoryGenesis.

#[export] Instance history_operation_eq_dec : EqDecision HistoryOperation.
Proof. solve_decision. Defined.

(** [ContractCodeHistoryEntry]. *)
Record HistoryEntry := mkHistory {
  Operation : HistoryOperation; HCodeID : Z; Updated : option AbsoluteTxPosition; HMsg : string }.

(** The extension, a protobuf [Any], is kept as its bytes. *)
Record ContractInfo := mkContractInfo {
  CodeID : Z; ContractCreator : string; Admin : string; Label : string;
  Created : option AbsoluteTxPosition; IBCPortID : string; Extension : option string; IBC2PortID : string }.

(** The contract part of the module's store, each map without the byte that
    prefixes its keys: infos by address, history entries by address and
    position, the two indexes, and the state of each contract by its address. *)
Record Contracts := mkContracts {
  cinfos : gmap string ContractInfo;
  chist : gmap string HistoryEntry;
  code_ix : gmap string unit;
  ccreator_ix : gmap string unit;
  cstates : gmap string (gmap string string)
}.

Definition set_cinfos f (c : Contracts) : Contracts :=
  mkContracts (f (cinfos c)) (chist c) (code_ix c) (ccreator_ix c) (cstates c).
Definition set_chist f (c : Contracts) : Contracts :=
  mkContracts (cinfos c) (f (chist c)) (code_ix c) (ccreator_ix c) (cstates c).
Definition set_code_ix f (c : Contracts) : Contracts :=
  mkContracts (cinfos c) (chist c) (f (code_ix c)) (ccreator_ix c) (cstates c).
Definition set_ccreator_ix f (c : Contracts) : Contracts :=
  mkContracts (cinfos c) (chist c) (code_ix c) (f (ccreator_ix c)) (cstates c).
Definition set_cstates f (c : Contracts) : Contracts :=
  mkContracts (cinfos c) (chist c) (code_ix c) (ccreator_ix c) (f (cstates c)).

(** ** Positions *)

(** A nil position is before every other, itself included. *)
Definition LessThan (a b : option AbsoluteTxPosition) : bool :=
  match a, b with
  | None, _ => true
  | _, None => false
  | Some a, Some b =>
      (PosHeight a <? PosHeight b) || ((PosHeight a =? PosHeight b) && (TxIndex a <? TxIndex b))
  end.

Definition pos_bytes (p : AbsoluteTxPosition) : string := (be64s (PosHeight p) ++ be64s (TxIndex p))%string.

Definition Position_Bytes (a : option AbsoluteTxPosition) : res string :=
  match a with
  | None => Panic "object must not be nil"
  | Some p => Ok (pos_bytes p)
  end.

Definition AbsoluteTxPositionLen : nat := 16.

(** ** Contract infos *)

(** [AccAddress.String] of a nil address is the empty text. *)
Definition address_text `{Bech32} (a : string) : string :=
  if decide (a = ""%string) then ""%string else AccAddress_String a.

Definition NewContractInfo `{Bech32} (codeID : Z) (creator admin label : string)
    (createdAt : option AbsoluteTxPosition) : ContractInfo :=
  mkContractInfo codeID (address_text creator) (address_text admin) label createdAt "" None "".

Definition InitialHistory (c : ContractInfo) (initMsg : string) : HistoryEntry :=
  mkHistory HistoryInit (CodeID c) (Created c) initMsg.

Definition set_code (id : Z) (c : ContractInfo) : ContractInfo :=
  mkContractInfo id (ContractCreator c) (Admin c) (Label c) (Created c) (IBCPortID c) (Extension c) (IBC2PortID c).
Definition set_admin (a : string) (c : ContractInfo) : ContractInfo :=
  mkContractInfo (CodeID c) (ContractCreator c) a (Label c) (Created c) (IBCPortID c) (Extension c) (IBC2PortID c).
Definition set_label (l : string) (c : ContractInfo) : ContractInfo :=
  mkContractInfo (CodeID c) (ContractCreator c) (Admin c) l (Created c) (IBCPortID c) (Extension c) (IBC2PortID c).
Definition set_ports (p p2 : string) (c : ContractInfo) : ContractInfo :=
  mkContractInfo (CodeID c) (ContractCreator c) (Admin c) (Label c) (Created c) p (Extension c) p2.
Definition set_extension (e : option string) (c : ContractInfo) : ContractInfo :=
  mkContractInfo (CodeID c) (ContractCreator c) (Admin c) (Label c) (Created c) (IBCPortID c) e (IBC2PortID c).

(** The entry of a migration and the info after it. *)
Definition AddMigration (at_ : AbsoluteTxPosition) (codeID : Z) (msg : string) (c : ContractInfo)
    : HistoryEntry * ContractInfo :=
  (mkHistory HistoryMigrate codeID (Some at_) msg, set_code codeID c).

Definition AdminAddr `{Bech32} (c : ContractInfo) : res string :=
  if decide (Admin c = ""%string) then Ok ""%string
  else match AccAddressFromBech32 (Admin c) with Err e => Panic e | r => r end.

(** ** Keys *)

(** [copy(r[a:a+n], s)] into a fresh, zeroed slice. *)
Definition copy_into (n : nat) (s : string) : string :=
  (String.substring 0 n s ++ bytes_to_string (replicate (n - String.length s) 0))%string.

Definition GetContractByCodeIDSecondaryIndexPrefix (codeID : Z) : string := be64s codeID.

Definition GetContractByCreatedSecondaryIndexKey (contractAddr : string) (c : HistoryEntry) : res string :=
  updated ← Position_Bytes (Updated c);
  mret (GetContractByCodeIDSecondaryIndexPrefix (HCodeID c) ++ copy_into AbsoluteTxPositionLen updated
        ++ contractAddr)%string.

Definition GetContractCodeHistoryElementPrefix (contractAddr : string) : string := contractAddr.

Definition GetContractCodeHistoryElementKey (contractAddr : string) (pos : Z) : string :=
  (GetContractCodeHistoryElementPrefix contractAddr ++ be64s pos)%string.

Section CreatorKeys.
Context `{AddrPrefix}.

Definition GetContractsByCreatorPrefix (addr : string) : res string := MustLengthPrefix addr.

Definition GetContractByCreatorSecondaryIndexKey (bz position contractAddr : string) : res string :=
  prefixBytes ← GetContractsByCreatorPrefix bz;
  mret (prefixBytes ++ copy_into AbsoluteTxPositionLen position ++ contractAddr)%string.

End CreatorKeys.

(** ** Store operations *)

Section StoreOps.
Context `{AddrPrefix} `{Bech32}.

Definition addToContractCodeSecondaryIndex (contractAddress : string) (entry : HistoryEntry) : M Contracts unit :=
  k ← lift (GetContractByCreatedSecondaryIndexKey contractAddress entry);
  modify (set_code_ix <[k := tt]>).

Definition removeFromContractCodeSecondaryIndex (contractAddress : string) (entry : HistoryEntry)
    : M Contracts unit :=
  k ← lift (GetContractByCreatedSecondaryIndexKey contractAddress entry);
  modify (set_code_ix (delete k)).

Definition addToContractCreatorSecondaryIndex (creatorAddress : string) (position : option AbsoluteTxPosition)
    (contractAddress : string) : M Contracts unit :=
  position ← lift (Position_Bytes position);
  k ← lift (GetContractByCreatorSecondaryIndexKey creatorAddress position contractAddress);
  modify (set_ccreator_ix <[k := tt]>).

(** [key[AbsoluteTxPositionLen:]] of the keys of an index. *)
Fixpoint addresses_of (keys : list string) : res (list string) :=
  match keys with
  | [] => mret []
  | k :: keys =>
      must (AbsoluteTxPositionLen <=? String.length k)%nat "slice bounds out of range";;
      r ← addresses_of keys;
      mret (String.substring AbsoluteTxPositionLen (String.length k - AbsoluteTxPositionLen) k :: r)
  end.

(** The addresses the callback is called with, when it never stops early. *)
Definition IterateContractsByCreator (creator : string) (c : Contracts) : res (list string) :=
  p ← GetContractsByCreatorPrefix creator;
  addresses_of (iter_prefix p (ccreator_ix c)).*1.

Definition IterateContractsByCode (codeID : Z) (c : Contracts) : res (list string) :=
  addresses_of (iter_prefix (GetContractByCodeIDSecondaryIndexPrefix codeID) (code_ix c)).*1.

(** The entries of a contract in the order of their keys.  A key of another
    length belongs to a longer address that starts with this one. *)
Definition history_items (contractAddr : string) (c : Contracts) : list (string * HistoryEntry) :=
  List.filter (fun kv => (String.length kv.1 =? 8)%nat)
    (iter_prefix (GetContractCodeHistoryElementPrefix contractAddr) (chist c)).

(** The last position, zero when there is none: the first key of length eight
    in descending order. *)
Definition last_position (contractAddr : string) (c : Contracts) : Z :=
  match last (history_items contractAddr c) with
  | Some (k, _) => be64s_decode k
  | None => 0
  end.

Fixpoint append_entries (contractAddr : string) (pos : Z) (newEntries : list HistoryEntry) (c : Contracts)
    : Contracts :=
  match newEntries with
  | [] => c
  | e :: newEntries =>
      let pos := u64 (pos + 1) in
      append_entries contractAddr pos newEntries
        (set_chist <[GetContractCodeHistoryElementKey contractAddr pos := e]> c)
  end.

Definition appendToContractHistory (contractAddr : string) (newEntries : list HistoryEntry)
    : M Contracts unit :=
  modify (fun c => append_entries contractAddr (last_position contractAddr c) newEntries c).

Definition GetContractHistory (contractAddr : string) (c : Contracts) : list HistoryEntry :=
  (history_items contractAddr c).*2.

Definition mustGetLastContractHistoryEntry (contractAddr : string) (c : Contracts) : res HistoryEntry :=
  match last (history_items contractAddr c) with
  | Some (_, e) => Ok e
  | None => Panic "no history"
  end.

Definition GetContractInfo (contractAddress : string) (c : Contracts) : option ContractInfo :=
  cinfos c !! contractAddress.

Definition HasContractInfo (contractAddress : string) (c : Contracts) : bool :=
  bool_decide (is_Some (cinfos c !! contractAddress)).

Definition mustStoreContractInfo (contractAddress : string) (contract : ContractInfo) : M Contracts unit :=
  modify (set_cinfos <[contractAddress := contract]>).

(** ** Import *)

Record Model := mkModel { ModelKey : string; ModelValue : string }.

(** The store of a contract, empty until it is first written. *)
Definition contract_state (addr : string) (c : Contracts) : gmap string string := default ∅ (cstates c !! addr).

(** Stores refuse empty keys. *)
Fixpoint import_models (models : list Model) (m : gmap string string) : res unit * gmap string string :=
  match models with
  | [] => (Ok tt, m)
  | x :: models =>
      if bool_decide (is_Some (m !! ModelKey x)) then (Err "ErrDuplicate", m)
      else if bool_decide (ModelKey x = ""%string) then (Panic "key is nil or empty", m)
      else import_models models (<[ModelKey x := ModelValue x]> m)
  end.

Definition importContractState (contractAddress : string) (models : list Model) : M Contracts unit := fun c =>
  let '(r, m) := import_models models (contract_state contractAddress c) in
  (r, set_cstates <[contractAddress := m]> c).

Definition importContract (codes : gmap Z CodeInfo) (contractAddr : string) (c : ContractInfo)
    (state : list Model) (historyEntries : list HistoryEntry) : M Contracts unit :=
  ensureM (bool_decide (is_Some (codes !! CodeID c))) "ErrNoSuchCode";;
  has ← gets (HasContractInfo contractAddr);
  refuseM has "ErrDuplicate";;
  match historyEntries, last historyEntries with
  | first :: _, Some last_entry =>
      creatorAddress ← lift (AccAddressFromBech32 (ContractCreator c));
      appendToContractHistory contractAddr historyEntries;;
      mustStoreContractInfo contractAddr c;;
      addToContractCodeSecondaryIndex contractAddr last_entry;;
      addToContractCreatorSecondaryIndex creatorAddress (Updated first) contractAddr;;
      importContractState contractAddr state
  | _, _ => throw "ErrEmpty"
  end.

End StoreOps.

(** ** Keys identify what they were built from *)

Definition pos_ok (p : AbsoluteTxPosition) : Prop := is_u64 (PosHeight p) /\ is_u64 (TxIndex p).

Lemma pos_bytes_length p : String.length (pos_bytes p) = 16%nat.
Proof. unfold pos_bytes. by rewrite string_app_length, !be64s_length. Qed.

Lemma pos_bytes_inj p q : pos_ok p -> pos_ok q -> pos_bytes p = pos_bytes q -> p = q.
Proof.
  intros [Hp1 Hp2] [Hq1 Hq2] E. unfold pos_bytes in E.
  apply string_app_inj_len in E as [E1%be64s_inj E2%be64s_inj]; [|done..|by rewrite !be64s_length].
  by destruct p, q; cbn in *; subst.
Qed.

Lemma string_app_inj_len_l (a b c d : string) :
  String.length a = String.length c -> (a ++ b = c ++ d)%string -> a = c /\ b = d.
Proof.
  intros Hl E. apply string_app_inj_len; [|done].
  apply (f_equal String.length) in E. rewrite !string_app_length in E. lia.
Qed.

Lemma string_app_nil_r (s : string) : (s ++ "")%string = s.
Proof. induction s as [|c s IH]; [done|]. by rewrite string_app_cons, IH. Qed.

Lemma copy_into_exact n s : String.length s = n -> copy_into n s = s.
Proof.
  intros <-. unfold copy_into. rewrite substring_full, Nat.sub_diag. apply string_app_nil_r.
Qed.

(** The key of a contract in the index by code. *)
Definition code_key (addr : string) (id : Z) (p : AbsoluteTxPosition) : string :=
  (be64s id ++ pos_bytes p ++ addr)%string.

(** The key of a contract in the index by creator. *)
Definition creator_key (creator addr : string) (p : AbsoluteTxPosition) : string :=
  (lp creator ++ pos_bytes p ++ addr)%string.

Lemma code_key_inj a b i j p q : is_u64 i -> is_u64 j -> pos_ok p -> pos_ok q ->
  code_key a i p = code_key b j q -> a = b /\ i = j /\ p = q.
Proof.
  intros ???? E. unfold code_key in E.
  apply string_app_inj_len_l in E as [Ei%be64s_inj E]; [|done..|by rewrite !be64s_length].
  apply string_app_inj_len_l in E as [Ep%pos_bytes_inj ->]; [done..|by rewrite !pos_bytes_length].
Qed.

Lemma creator_index_inj a b c d p q : valid_addr c -> valid_addr d -> pos_ok p -> pos_ok q ->
  creator_key c a p = creator_key d b q -> a = b /\ c = d /\ p = q.
Proof.
  intros ???? E. unfold creator_key in E. apply lp_app_inj in E as [-> E]; [|done..].
  apply string_app_inj_len_l in E as [Ep%pos_bytes_inj ->]; [done..|by rewrite !pos_bytes_length].
Qed.

Lemma code_index_key addr e p : Updated e = Some p ->
  GetContractByCreatedSecondaryIndexKey addr e = Ok (code_key addr (HCodeID e) p).
Proof.
  intros E. unfold GetContractByCreatedSecondaryIndexKey. rewrite E. cbn.
  by rewrite copy_into_exact by apply pos_bytes_length.
Qed.

Lemma creator_index_key `{AddrPrefixLaws} creator addr p : valid_addr creator ->
  GetContractByCreatorSecondaryIndexKey creator (pos_bytes p) addr = Ok (creator_key creator addr p).
Proof.
  intros Hc. unfold GetContractByCreatorSecondaryIndexKey, GetContractsByCreatorPrefix.
  rewrite MustLengthPrefix_ok by done. cbn. by rewrite copy_into_exact by apply pos_bytes_length.
Qed.

Lemma history_key_inj a b i j : is_u64 i -> is_u64 j ->
  GetContractCodeHistoryElementKey a i = GetContractCodeHistoryElementKey b j -> a = b /\ i = j.
Proof.
  intros ?? E. unfold GetContractCodeHistoryElementKey, GetContractCodeHistoryElementPrefix in E.
  apply string_app_inj_len in E as [-> E%be64s_inj]; [done..|by rewrite !be64s_length].
Qed.

Lemma be64s_mono x y : is_u64 x -> is_u64 y -> x <= y -> str_le (be64s x) (be64s y).
Proof.
  intros Hx Hy Hle. unfold str_le, str_leb. pose proof (be64s_lt y x "" Hy Hx) as E.
  rewrite string_app_nil_r in E. rewrite E. apply negb_true_iff, Z.ltb_ge. lia.
Qed.

(** ** Representation *)

(** The abstract registry: what each contract is and which codes it has run,
    oldest first. *)
Abbreviation registry := (gmap string (ContractInfo * list HistoryEntry)).

Definition entry_ok (e : HistoryEntry) : Prop :=
  is_u64 (HCodeID e) /\ exists p, Updated e = Some p /\ pos_ok p.

Definition hist_rep (a : registry) (m : gmap string HistoryEntry) : Prop :=
  forall k e, m !! k = Some e <-> exists addr info es (i : nat),
    a !! addr = Some (info, es) /\ es !! i = Some e /\
    k = GetContractCodeHistoryElementKey addr (Z.of_nat i + 1).

Definition code_rep (a : registry) (m : gmap string unit) : Prop :=
  forall k, is_Some (m !! k) <-> exists addr info es e p,
    a !! addr = Some (info, es) /\ last es = Some e /\ Updated e = Some p /\ k = code_key addr (HCodeID e) p.

Section Representation.
Context `{AddrPrefixLaws} `{Bech32}.

Definition creator_rep (a : registry) (m : gmap string unit) : Prop :=
  forall k, is_Some (m !! k) <-> exists addr info es e p creator,
    a !! addr = Some (info, es) /\ head es = Some e /\ Updated e = Some p /\
    AccAddressFromBech32 (ContractCreator info) = Ok creator /\ k = creator_key creator addr p.

(** What holds of one contract: its code exists, the last entry of its history
    names that code, its creator is an address. *)
Record contract_wf (codes : gmap Z CodeInfo) (x : ContractInfo * list HistoryEntry) : Prop := {
  wf_code : is_Some (codes !! CodeID x.1);
  wf_last : exists e, last x.2 = Some e /\ HCodeID e = CodeID x.1;
  wf_entries : Forall entry_ok x.2;
  wf_length : Z.of_nat (length x.2) < 2 ^ 64 - 1;
  wf_creator : exists creator, AccAddressFromBech32 (ContractCreator x.1) = Ok creator /\ valid_addr creator
}.

Record Rep (codes : gmap Z CodeInfo) (a : registry) (c : Contracts) : Prop := {
  rep_infos : cinfos c = fst <$> a;
  rep_hist : hist_rep a (chist c);
  rep_code : code_rep a (code_ix c);
  rep_creator : creator_rep a (ccreator_ix c);
  rep_wf : map_Forall (fun _ x => contract_wf codes x) a
}.

(** No contracts. *)
Definition empty_contracts : Contracts := mkContracts ∅ ∅ ∅ ∅ ∅.

Lemma empty_rep codes : Rep codes ∅ empty_contracts.
Proof.
  split; [done|..|apply map_Forall_empty]; cbn.
  - intros k e. rewrite lookup_empty. split; [done|]. intros (?&?&?&?&E&_). by rewrite lookup_empty in E.
  - intros k. rewrite lookup_empty. split; [by intros [? ?]|]. intros (?&?&?&?&?&E&_). by rewrite lookup_empty in E.
  - intros k. rewrite lookup_empty. split; [by intros [? ?]|]. intros (?&?&?&?&?&?&E&_). by rewrite lookup_empty in E.
Qed.

(** ** Reading *)

Lemma rep_lookup codes a c addr info : Rep codes a c -> cinfos c !! addr = Some info ->
  exists es, a !! addr = Some (info, es) /\ contract_wf codes (info, es).
Proof.
  intros R. rewrite (rep_infos _ _ _ R), lookup_fmap. destruct (a !! addr) as [[i es]|] eqn:E; [|done].
  intros [= ->]. exists es. split; [done|]. by apply (rep_wf _ _ _ R addr).
Qed.

(** The history of a contract as the iterator sees it. *)
Definition numbered (es : list HistoryEntry) : list (string * HistoryEntry) :=
  imap (fun i e => (be64s (Z.of_nat i + 1), e)) es.

Lemma elem_of_numbered es k e : (k, e) ∈ numbered es <->
  exists i : nat, es !! i = Some e /\ k = be64s (Z.of_nat i + 1).
Proof.
  unfold numbered. rewrite list_elem_of_lookup. split.
  - intros [i Hi]. rewrite list_lookup_imap in Hi. destruct (es !! i) eqn:E; [|done].
    injection Hi as <- <-. eauto.
  - intros (i&Hi&->). exists i. by rewrite list_lookup_imap, Hi.
Qed.

Lemma numbered_snoc es e : numbered (es ++ [e]) = numbered es ++ [(be64s (Z.of_nat (length es) + 1), e)].
Proof. unfold numbered. rewrite imap_app. cbn. by rewrite Nat.add_0_r. Qed.

Lemma numbered_snd es : (numbered es).*2 = es.
Proof.
  induction es as [|e es IH] using rev_ind; [done|]. by rewrite numbered_snoc, fmap_app, IH.
Qed.

Lemma numbered_sorted es : Z.of_nat (length es) < 2 ^ 64 -> StronglySorted key_le (numbered es).
Proof.
  induction es as [|e es IH] using rev_ind; [constructor|]. rewrite length_app. cbn. intros Hl.
  rewrite numbered_snoc. apply StronglySorted_app_2; [|apply IH; lia|repeat constructor].
  intros [k x] [k' y] [i [Hi ->]]%elem_of_numbered [= -> ->]%list_elem_of_singleton.
  apply lookup_lt_Some in Hi. apply be64s_mono; unfold is_u64; lia.
Qed.

Lemma list_filter_sorted {A} (R : A -> A -> Prop) f l :
  StronglySorted R l -> StronglySorted R (List.filter f l).
Proof.
  induction 1 as [|x l Hs IH Hx]; cbn; [constructor|]. destruct (f x); [|done]. constructor; [done|].
  rewrite Forall_forall in *. intros y Hy%list_elem_of_In%filter_In. apply Hx, list_elem_of_In. tauto.
Qed.


Lemma history_items_rep codes a c addr : Rep codes a c ->
  history_items addr c = numbered (from_option snd [] (a !! addr)).
Proof.
  intros R. set (es := from_option snd [] (a !! addr)).
  assert (Hlen : Z.of_nat (length es) < 2 ^ 64 - 1).
  { unfold es. destruct (a !! addr) as [x|] eqn:E; [|cbn; lia].
    by apply (wf_length _ _ (rep_wf _ _ _ R addr x E)). }
  assert (Hin : forall k e, (k, e) ∈ history_items addr c <-> (k, e) ∈ numbered es).
  { intros k e. unfold history_items. rewrite list_elem_of_In, filter_In, <- list_elem_of_In.
    rewrite elem_of_iter_prefix, (rep_hist _ _ _ R _ _), elem_of_numbered. cbn. split.
    - intros [(addr'&info&es'&i&Ha&Hi&Hk) Hl]. apply Nat.eqb_eq in Hl.
      apply string_app_inj_len in Hk as [E ->]; [|by rewrite be64s_length].
      unfold GetContractCodeHistoryElementPrefix in E. subst addr'. exists i. unfold es. by rewrite Ha.
    - intros (i&Hi&->). split; [|by rewrite be64s_length]. unfold es in Hi.
      destruct (a !! addr) as [[info es']|] eqn:Ea; [|done]. by exists addr, info, es', i. }
  assert (Hnd : NoDup (history_items addr c)).
  { apply (NoDup_fmap_1 fst). unfold history_items.
    assert (forall l : list (string * HistoryEntry), NoDup l.*1 ->
      NoDup (List.filter (fun kv => (String.length kv.1 =? 8)%nat) l).*1) as HF.
    { clear. induction l as [|x l IH]; cbn; [done|]. intros [Hx Hl]%NoDup_cons.
      destruct (_ =? _)%nat; cbn; [|by apply IH]. constructor; [|by apply IH].
      intros (y&Ey&[Hy _]%list_elem_of_In%filter_In)%list_elem_of_fmap. apply Hx.
      rewrite Ey. by apply list_elem_of_fmap_2, list_elem_of_In. }
    apply HF, iter_prefix_keys_nodup. }
  apply (StronglySorted_unique_strong key_le).
  - intros [k e] [k' e'] Hx Hy Hle Hge. pose proof (str_le_antisym _ _ Hle Hge) as E. cbn in E. subst.
    f_equal. apply Hin in Hx. apply elem_of_numbered in Hx as (i&Hi&Ei).
    apply elem_of_numbered in Hy as (j&Hj&Ej). subst.
    apply be64s_inj in Ej; [|apply lookup_lt_Some in Hi, Hj; unfold is_u64; lia..].
    assert (i = j) as -> by lia. congruence.
  - apply list_filter_sorted, iter_prefix_sorted.
  - apply numbered_sorted. lia.
  - apply NoDup_Permutation; [done| |intros []; apply Hin].
    apply (NoDup_fmap_1 fst). unfold numbered. apply NoDup_alt. intros i j k. rewrite !list_lookup_fmap.
    rewrite !list_lookup_imap. intros Hi Hj.
    destruct (es !! i) eqn:Ei; [|done]. destruct (es !! j) eqn:Ej; [|done]. cbn in *.
    assert (be64s (Z.of_nat i + 1) = be64s (Z.of_nat j + 1)) as Hk by congruence.
    apply lookup_lt_Some in Ei, Ej. apply be64s_inj in Hk; unfold is_u64; lia.
Qed.

Lemma history_rep codes a c addr info es : Rep codes a c -> a !! addr = Some (info, es) ->
  GetContractHistory addr c = es.
Proof.
  intros R Ha. unfold GetContractHistory. rewrite (history_items_rep _ _ _ addr R), Ha. apply numbered_snd.
Qed.

Lemma last_position_rep codes a c addr : Rep codes a c ->
  last_position addr c = Z.of_nat (length (from_option snd [] (a !! addr))).
Proof.
  intros R. unfold last_position. rewrite (history_items_rep _ _ _ addr R).
  destruct (a !! addr) as [[info es]|] eqn:Ea; [|done]. cbn.
  pose proof (wf_length _ _ (rep_wf _ _ _ R addr _ Ea)) as Hl. cbn in Hl.
  destruct es as [|e es _] using rev_ind; [done|]. rewrite numbered_snoc, last_snoc.
  rewrite length_app in *. cbn in *. rewrite be64s_roundtrip by (unfold is_u64; lia). lia.
Qed.

Lemma last_entry_rep codes a c addr info es : Rep codes a c -> a !! addr = Some (info, es) ->
  exists e, last es = Some e /\ mustGetLastContractHistoryEntry addr c = Ok e.
Proof.
  intros R Ha. destruct (wf_last _ _ (rep_wf _ _ _ R addr _ Ha)) as (e&He&_). exists e. split; [done|].
  cbn in He. unfold mustGetLastContractHistoryEntry. rewrite (history_items_rep _ _ _ addr R), Ha. cbn.
  destruct es as [|x es _] using rev_ind; [done|]. rewrite last_snoc in He. injection He as ->.
  by rewrite numbered_snoc, last_snoc.
Qed.

(** ** Writing *)

Definition lengths_ok (a : registry) : Prop :=
  forall addr x, a !! addr = Some x -> Z.of_nat (length x.2) < 2 ^ 64 - 1.

Lemma rep_lengths codes a c : Rep codes a c -> lengths_ok a.
Proof. intros R addr x Hx. apply (wf_length _ _ (rep_wf _ _ _ R addr x Hx)). Qed.

(** The entries recorded for an address. *)
Definition entries (a : registry) (addr : string) : list HistoryEntry := from_option snd [] (a !! addr).

Lemma entries_length a addr : lengths_ok a -> Z.of_nat (length (entries a addr)) < 2 ^ 64 - 1.
Proof. intros Hl. unfold entries. destruct (a !! addr) eqn:E; [by apply (Hl addr)|cbn; lia]. Qed.

Lemma entries_lookup a addr i e : entries a addr !! i = Some e ->
  exists info, a !! addr = Some (info, entries a addr).
Proof. unfold entries. destruct (a !! addr) as [[info es]|]; [by exists info|done]. Qed.

Lemma hist_snoc a m addr info e : hist_rep a m -> lengths_ok a ->
  hist_rep (<[addr := (info, entries a addr ++ [e])]> a)
    (<[GetContractCodeHistoryElementKey addr (Z.of_nat (length (entries a addr)) + 1) := e]> m).
Proof.
  intros HR Hl k e'. pose proof (entries_length a addr Hl) as Hlen. set (es := entries a addr) in *.
  assert (Hinj : forall addr' (i : nat), Z.of_nat i < 2 ^ 64 - 1 ->
    GetContractCodeHistoryElementKey addr (Z.of_nat (length es) + 1) =
    GetContractCodeHistoryElementKey addr' (Z.of_nat i + 1) -> addr' = addr /\ i = length es).
  { intros addr' i Hi [? ?]%history_key_inj; [|unfold is_u64; lia..]. split; [done|lia]. }
  destruct (decide (k = GetContractCodeHistoryElementKey addr (Z.of_nat (length es) + 1))) as [->|Hk].
  - rewrite lookup_insert_eq. split.
    + intros [= <-]. exists addr, info, (es ++ [e]), (length es).
      by rewrite lookup_insert_eq, list_lookup_middle by done.
    + intros (addr'&info'&es'&i&Ha&Hi&Hk). destruct (decide (addr' = addr)) as [->|Hne].
      * rewrite lookup_insert_eq in Ha. injection Ha as <- <-.
        pose proof (lookup_lt_Some _ _ _ Hi) as Hlt. rewrite length_app in Hlt. cbn in Hlt.
        apply Hinj in Hk as [_ ->]; [|lia]. rewrite list_lookup_middle in Hi by done. done.
      * rewrite lookup_insert_ne in Ha by done. apply Hl in Ha as Hl'. apply lookup_lt_Some in Hi.
        apply Hinj in Hk as [? _]; [done|]. cbn in Hl'. lia.
  - rewrite lookup_insert_ne by done. rewrite (HR k e'). split.
    + intros (addr'&info'&es'&i&Ha&Hi&Hk'). destruct (decide (addr' = addr)) as [->|Hne].
      * exists addr, info, (es ++ [e]), i. rewrite lookup_insert_eq. split_and!; [done| |done].
        unfold es, entries. rewrite Ha. by apply lookup_app_l_Some.
      * exists addr', info', es', i. by rewrite lookup_insert_ne.
    + intros (addr'&info'&es'&i&Ha&Hi&Hk'). destruct (decide (addr' = addr)) as [->|Hne].
      * rewrite lookup_insert_eq in Ha. injection Ha as <- <-.
        apply lookup_app_Some in Hi as [Hi|[Hge Hi]].
        -- destruct (entries_lookup _ _ _ _ Hi) as [info' Hin]. by exists addr, info', es, i.
        -- destruct Hk. rewrite Hk'. do 2 f_equal. apply lookup_lt_Some in Hi as Hlt. cbn in Hlt. lia.
      * rewrite lookup_insert_ne in Ha by done. by exists addr', info', es', i.
Qed.

(** Appending entries, as long as their number fits. *)
Lemma hist_append new : forall a c addr info,
  hist_rep a (chist c) -> lengths_ok a -> new <> [] ->
  Z.of_nat (length (entries a addr) + length new) < 2 ^ 64 - 1 ->
  hist_rep (<[addr := (info, entries a addr ++ new)]> a)
    (chist (append_entries addr (Z.of_nat (length (entries a addr))) new c)).
Proof.
  induction new as [|e new IH]; intros a c addr info HR Hl Hne Hlen; [done|].
  cbn [append_entries]. rewrite u64_small by (unfold is_u64; cbn in Hlen; lia).
  pose proof (hist_snoc a (chist c) addr info e HR Hl) as HS.
  destruct new as [|e2 new]; [exact HS|].
  set (a1 := <[addr := (info, entries a addr ++ [e])]> a) in *.
  assert (He : entries a1 addr = entries a addr ++ [e]) by (unfold entries at 1, a1; by rewrite lookup_insert_eq).
  pose proof (IH a1 (set_chist <[GetContractCodeHistoryElementKey addr (Z.of_nat (length (entries a addr)) + 1) := e]> c)
    addr info HS) as HI.
  rewrite He, length_app in HI. replace (Z.of_nat (length (entries a addr) + length [e]))
    with (Z.of_nat (length (entries a addr)) + 1) in HI by (cbn; lia).
  unfold a1 in HI. rewrite insert_insert_eq, <- app_assoc in HI. apply HI; [|done|cbn in *; lia].
  intros addr' x Hx. destruct (decide (addr' = addr)) as [->|Hn].
  - rewrite lookup_insert_eq in Hx. injection Hx as <-. cbn in *. rewrite length_app. cbn. lia.
  - rewrite lookup_insert_ne in Hx by done. by apply (Hl addr').
Qed.

Lemma append_entries_frame addr new : forall pos c,
  cinfos (append_entries addr pos new c) = cinfos c /\ code_ix (append_entries addr pos new c) = code_ix c /\
  ccreator_ix (append_entries addr pos new c) = ccreator_ix c /\ cstates (append_entries addr pos new c) = cstates c.
Proof.
  induction new as [|e new IH]; intros pos c; [done|]. cbn [append_entries].
  by destruct (IH (u64 (pos + 1)) (set_chist <[GetContractCodeHistoryElementKey addr (u64 (pos + 1)) := e]> c))
    as (->&->&->&->).
Qed.

(** A change of the info alone. *)
Lemma hist_info a m addr info info' es : hist_rep a m -> a !! addr = Some (info, es) ->
  hist_rep (<[addr := (info', es)]> a) m.
Proof.
  intros HR Ha k e. rewrite (HR k e). split; intros (addr'&i'&es'&i&Ha'&Hi&->).
  - destruct (decide (addr' = addr)) as [->|Hne].
    + assert (es' = es) as -> by congruence. exists addr, info', es, i. by rewrite lookup_insert_eq.
    + exists addr', i', es', i. by rewrite lookup_insert_ne.
  - destruct (decide (addr' = addr)) as [->|Hne].
    + rewrite lookup_insert_eq in Ha'. injection Ha' as <- <-. by exists addr, info, es, i.
    + rewrite lookup_insert_ne in Ha' by done. by exists addr', i', es', i.
Qed.

(** The key an address has in the index by code. *)
Definition own_code_key (a : registry) (addr k : string) : Prop :=
  exists e p, last (entries a addr) = Some e /\ Updated e = Some p /\ k = code_key addr (HCodeID e) p.

Lemma code_rep_set a m m' addr info es e p :
  code_rep a m -> last es = Some e -> Updated e = Some p ->
  (forall addr x, a !! addr = Some x -> Forall entry_ok x.2) ->
  (forall k, is_Some (m' !! k) <->
     k = code_key addr (HCodeID e) p \/ (is_Some (m !! k) /\ ~ own_code_key a addr k)) ->
  code_rep (<[addr := (info, es)]> a) m'.
Proof.
  intros HR He Hp Hok Hm k. rewrite Hm, (HR k). split.
  - intros [->|[(addr'&info'&es'&e'&p'&Ha&He'&Hp'&->) Hown]].
    + exists addr, info, es, e, p. by rewrite lookup_insert_eq.
    + destruct (decide (addr' = addr)) as [->|Hne].
      * destruct Hown. exists e', p'. unfold entries. by rewrite Ha.
      * exists addr', info', es', e', p'. by rewrite lookup_insert_ne.
  - intros (addr'&info'&es'&e'&p'&Ha&He'&Hp'&->). destruct (decide (addr' = addr)) as [->|Hne].
    + left. rewrite lookup_insert_eq in Ha. injection Ha as <- <-. congruence.
    + right. rewrite lookup_insert_ne in Ha by done. split; [by exists addr', info', es', e', p'|].
      intros (e2&p2&He2&Hp2&Hk). unfold entries in He2.
      destruct (a !! addr) as [x|] eqn:Hx; [|done]. cbn in He2. apply Hok in Hx, Ha. cbn in Ha.
      rewrite last_lookup in He', He2.
      pose proof (Forall_lookup_1 _ _ _ _ Ha He') as (?&q&?&?).
      pose proof (Forall_lookup_1 _ _ _ _ Hx He2) as (?&q2&?&?).
      apply code_key_inj in Hk as [? _]; [done..|congruence|congruence].
Qed.

Lemma creator_rep_info a m addr info info' es es' : creator_rep a m -> a !! addr = Some (info, es) ->
  ContractCreator info' = ContractCreator info -> head es' = head es ->
  creator_rep (<[addr := (info', es')]> a) m.
Proof.
  intros HR Ha Hc Hh k. rewrite (HR k). split; intros (addr'&i'&l&e&p&cr&Ha'&Hl&Hp&Hcr&->).
  - destruct (decide (addr' = addr)) as [->|Hne].
    + exists addr, info', es', e, p, cr. rewrite lookup_insert_eq. split_and!; congruence.
    + exists addr', i', l, e, p, cr. by rewrite lookup_insert_ne.
  - destruct (decide (addr' = addr)) as [->|Hne].
    + rewrite lookup_insert_eq in Ha'. injection Ha' as <- <-. exists addr, info, es, e, p, cr. split_and!; congruence.
    + rewrite lookup_insert_ne in Ha' by done. by exists addr', i', l, e, p, cr.
Qed.

Lemma creator_rep_new a m addr info es e p creator : creator_rep a m -> a !! addr = None ->
  head es = Some e -> Updated e = Some p -> AccAddressFromBech32 (ContractCreator info) = Ok creator ->
  creator_rep (<[addr := (info, es)]> a) (<[creator_key creator addr p := tt]> m).
Proof.
  intros HR Ha He Hp Hc k. rewrite lookup_insert_is_Some', (HR k). split.
  - intros [<-|(addr'&i'&l&e'&p'&cr&Ha'&?)].
    + exists addr, info, es, e, p, creator. by rewrite lookup_insert_eq.
    + exists addr', i', l, e', p', cr. rewrite lookup_insert_ne by congruence. done.
  - intros (addr'&i'&l&e'&p'&cr&Ha'&Hl&Hp'&Hcr&->). destruct (decide (addr' = addr)) as [->|Hne].
    + left. rewrite lookup_insert_eq in Ha'. injection Ha' as <- <-. congruence.
    + right. rewrite lookup_insert_ne in Ha' by done. by exists addr', i', l, e', p', cr.
Qed.

Lemma rep_entries_ok codes a c : Rep codes a c -> forall addr x, a !! addr = Some x -> Forall entry_ok x.2.
Proof. intros R addr x Hx. apply (wf_entries _ _ (rep_wf _ _ _ R addr x Hx)). Qed.

(** A history is no longer than the number of entries stored. *)
Lemma entries_size a m addr : hist_rep a m -> lengths_ok a -> (length (entries a addr) <= size m)%nat.
Proof.
  intros HR Hl. set (key := fun i : nat => GetContractCodeHistoryElementKey addr (Z.of_nat i + 1)).
  pose proof (entries_length a addr Hl) as Hlen.
  set (ks := map key (seq 0 (length (entries a addr)))).
  assert (HN : NoDup ks).
  { apply NoDup_fmap_2_strong; [|apply NoDup_seq].
    intros x y Hx%elem_of_seq Hy%elem_of_seq [_ E]%history_key_inj; [lia|unfold is_u64; lia..]. }
  assert (Hsub : list_to_set (C:=gset string) ks ⊆ dom m).
  { intros k Hk%elem_of_list_to_set. apply list_elem_of_fmap in Hk as (i&->&Hi%elem_of_seq).
    destruct (lookup_lt_is_Some_2 (entries a addr) i) as [e He]; [lia|].
    destruct (entries_lookup _ _ _ _ He) as [info Ha]. apply elem_of_dom. exists e. apply HR.
    by exists addr, info, (entries a addr), i. }
  apply subseteq_size in Hsub. rewrite size_list_to_set, size_dom in Hsub by done.
  unfold ks in Hsub. by rewrite length_map, length_seq in Hsub.
Qed.

Lemma snoc_size a m addr info es e : hist_rep a m -> lengths_ok a -> a !! addr = Some (info, es) ->
  (length (es ++ [e]) <= size (<[GetContractCodeHistoryElementKey addr (Z.of_nat (length es) + 1) := e]> m))%nat.
Proof.
  intros HR Hl Ha. pose proof (entries_size a m addr HR Hl) as Hs. unfold entries in Hs. rewrite Ha in Hs. cbn in Hs.
  rewrite length_app, map_size_insert_None; [cbn; lia|].
  destruct (m !! _) as [x|] eqn:E; [|done]. apply HR in E as (addr'&info'&es'&i&Ha'&Hi&Hk).
  pose proof (Hl _ _ Ha) as L1. pose proof (Hl _ _ Ha') as L2. cbn in L1, L2. apply lookup_lt_Some in Hi as Hlt.
  apply history_key_inj in Hk as [<- ?]; [|unfold is_u64; lia..].
  assert (es' = es) as -> by congruence. lia.
Qed.

(** *** The three ways in which the registry changes *)

(** A new contract, with the history it comes with, after the entries found
    under its address. *)
Definition add_contract (addr creator : string) (info : ContractInfo) (es : list HistoryEntry)
    (first latest : AbsoluteTxPosition) (pos : Z) (c : Contracts) : Contracts :=
  mkContracts (<[addr := info]> (cinfos c)) (chist (append_entries addr pos es c))
    (<[code_key addr (CodeID info) latest := tt]> (code_ix c))
    (<[creator_key creator addr first := tt]> (ccreator_ix c)) (cstates c).

Lemma rep_new codes a c addr creator info es e e' p p' :
  Rep codes a c -> cinfos c !! addr = None -> contract_wf codes (info, es) ->
  head es = Some e -> Updated e = Some p -> last es = Some e' -> Updated e' = Some p' ->
  AccAddressFromBech32 (ContractCreator info) = Ok creator ->
  Rep codes (<[addr := (info, es)]> a) (add_contract addr creator info es p p' (last_position addr c) c).
Proof.
  intros R Hn Hwf He Hp He' Hp' Hc.
  assert (Ha : a !! addr = None).
  { rewrite (rep_infos _ _ _ R), lookup_fmap in Hn. by destruct (a !! addr). }
  assert (Hent : entries a addr = []) by (unfold entries; by rewrite Ha).
  destruct (wf_last _ _ Hwf) as (e2&He2&Hid). cbn in *. assert (e2 = e') as -> by congruence.
  rewrite (last_position_rep _ _ _ _ R), Ha. cbn [from_option length].
  split; cbn.
  - by rewrite (rep_infos _ _ _ R), fmap_insert.
  - pose proof (hist_append es a c addr info (rep_hist _ _ _ R) (rep_lengths _ _ _ R)) as HA.
    rewrite Hent in HA. apply HA; [by destruct es|]. apply (wf_length _ _ Hwf).
  - eapply code_rep_set; [apply (rep_code _ _ _ R)|done|done|by apply (rep_entries_ok _ _ _ R)|].
    intros k. rewrite lookup_insert_is_Some', Hid. unfold own_code_key. rewrite Hent. naive_solver.
  - by apply (creator_rep_new _ _ _ _ _ e); [apply (rep_creator _ _ _ R)|..].
  - apply map_Forall_insert_2; [done|apply (rep_wf _ _ _ R)].
Qed.

(** A contract moves on to another code. *)
Definition move_contract (addr : string) (info : ContractInfo) (e old : HistoryEntry) (p p_old : AbsoluteTxPosition)
    (pos : Z) (c : Contracts) : Contracts :=
  mkContracts (<[addr := info]> (cinfos c)) (<[GetContractCodeHistoryElementKey addr pos := e]> (chist c))
    (<[code_key addr (HCodeID e) p := tt]> (delete (code_key addr (HCodeID old) p_old) (code_ix c)))
    (ccreator_ix c) (cstates c).

Lemma rep_move codes a c addr info info' es e old p p_old :
  Rep codes a c -> a !! addr = Some (info, es) -> contract_wf codes (info', es ++ [e]) ->
  last es = Some old -> Updated old = Some p_old -> Updated e = Some p ->
  ContractCreator info' = ContractCreator info ->
  Rep codes (<[addr := (info', es ++ [e])]> a)
    (move_contract addr info' e old p p_old (Z.of_nat (length es) + 1) c).
Proof.
  intros R Ha Hwf Hold Hpold Hp Hc. assert (Hent : entries a addr = es) by (unfold entries; by rewrite Ha).
  split; cbn.
  - by rewrite (rep_infos _ _ _ R), fmap_insert.
  - pose proof (hist_snoc a (chist c) addr info' e (rep_hist _ _ _ R) (rep_lengths _ _ _ R)) as HS.
    by rewrite Hent in HS.
  - eapply code_rep_set; [apply (rep_code _ _ _ R)|by rewrite last_snoc|done|by apply (rep_entries_ok _ _ _ R)|].
    intros k. rewrite lookup_insert_is_Some', lookup_delete_is_Some. unfold own_code_key. rewrite Hent. naive_solver.
  - eapply creator_rep_info; [apply (rep_creator _ _ _ R)|done|done|]. by destruct es.
  - apply map_Forall_insert_2; [done|apply (rep_wf _ _ _ R)].
Qed.

(** The info changes, but neither the code nor the creator. *)
Lemma rep_update codes a c addr info info' es :
  Rep codes a c -> a !! addr = Some (info, es) ->
  CodeID info' = CodeID info -> ContractCreator info' = ContractCreator info ->
  Rep codes (<[addr := (info', es)]> a) (set_cinfos <[addr := info']> c).
Proof.
  intros R Ha Hid Hc. pose proof (rep_wf _ _ _ R addr _ Ha) as Hwf.
  destruct (wf_last _ _ Hwf) as (e&He&Hide). cbn in He, Hide.
  pose proof (wf_entries _ _ Hwf) as Hes. cbn in Hes.
  destruct (Forall_lookup_1 _ _ _ _ Hes (eq_trans (eq_sym (last_lookup es)) He)) as (_&p&Hp&_).
  split; cbn.
  - by rewrite (rep_infos _ _ _ R), fmap_insert.
  - by eapply hist_info; [apply (rep_hist _ _ _ R)|].
  - eapply code_rep_set; [apply (rep_code _ _ _ R)|done|done|by apply (rep_entries_ok _ _ _ R)|].
    intros k. rewrite (rep_code _ _ _ R k). unfold own_code_key, entries. rewrite Ha. cbn. split.
    + intros Hk. destruct (decide (k = code_key addr (HCodeID e) p)) as [->|]; [by left|].
      right. split; [done|]. intros (e2&p2&?&?&->). congruence.
    + intros [->|[? _]]; [|done]. by exists addr, info, es, e, p.
  - by eapply creator_rep_info; [apply (rep_creator _ _ _ R)|..].
  - apply map_Forall_insert_2; [|apply (rep_wf _ _ _ R)].
    destruct Hwf as [W1 W2 W3 W4 W5]. split; cbn in *; rewrite ?Hid, ?Hc; done.
Qed.

(** More codes, and states that belong to contracts, do not matter. *)
Lemma rep_codes codes codes' a c : Rep codes a c -> (forall i, is_Some (codes !! i) -> is_Some (codes' !! i)) ->
  Rep codes' a c.
Proof.
  intros [R1 R2 R3 R4 R5] Hc. split; try done. intros addr x Hx.
  destruct (R5 addr x Hx) as [W1 W2 W3 W4 W5]. split; auto.
Qed.

Lemma rep_states codes a c m : Rep codes a c -> Rep codes a (set_cstates m c).
Proof. by intros []. Qed.

(** ** The indexes answer their queries *)

Lemma str_ltb_app_len (a b s t : string) : String.length a = String.length b ->
  str_ltb a b = true -> str_ltb (a ++ s) (b ++ t) = true.
Proof.
  unfold str_ltb. revert b. induction a as [|x a IH]; intros [|y b] Hl; try done; cbn in Hl.
  rewrite !string_app_cons. cbn. destruct (Ascii.compare x y); [|done..]. apply IH. lia.
Qed.

(** Earlier positions have smaller keys. *)
Lemma pos_bytes_lt p q s t : pos_ok p -> pos_ok q -> LessThan (Some p) (Some q) = true ->
  str_ltb (pos_bytes p ++ s) (pos_bytes q ++ t) = true.
Proof.
  intros [Hp1 Hp2] [Hq1 Hq2] Hlt. unfold pos_bytes. rewrite <- !string_app_assoc. cbn in Hlt.
  assert (Hb : forall x y, is_u64 x -> is_u64 y -> (x <? y) = true -> str_ltb (be64s x) (be64s y) = true).
  { intros x y Hx Hy Hxy. rewrite <- (string_app_nil_r (be64s x)). by rewrite be64s_lt. }
  apply orb_true_iff in Hlt as [Hlt|[Heq Hlt]%andb_true_iff].
  - apply str_ltb_app_len; [by rewrite !be64s_length|auto].
  - apply Z.eqb_eq in Heq as ->. pose proof (str_le_app (be64s (PosHeight q))
      (be64s (TxIndex q) ++ t) (be64s (TxIndex p) ++ s)) as HE.
    unfold str_le, str_leb in HE. destruct (str_ltb _ _); [done|].
    assert (str_ltb (be64s (TxIndex p) ++ s) (be64s (TxIndex q) ++ t) = true) as Ht.
    { apply str_ltb_app_len; [by rewrite !be64s_length|auto]. }
    rewrite Ht in HE. cbn in HE. destruct HE as [HE _]. by discriminate HE.
Qed.

Lemma addresses_of_spec (l : list (AbsoluteTxPosition * string)) :
  addresses_of (map (fun x => pos_bytes x.1 ++ x.2)%string l) = Ok l.*2.
Proof.
  induction l as [|[p addr] l IH]; [done|]. cbn [map addresses_of fst snd].
  rewrite string_app_length, pos_bytes_length. cbn [Nat.leb AbsoluteTxPositionLen Nat.add must mbind res_bind].
  rewrite IH. cbn [mbind res_bind mret res_ret fmap list_fmap]. do 2 f_equal.
  rewrite <- (pos_bytes_length p) at 1. rewrite substring_app_r. cbn. rewrite Nat.sub_0_r. apply substring_full.
Qed.

(** The keys of an index under a prefix, when they are positions followed by
    addresses, list those addresses by position. *)
Section IndexScan.
Context (pre : string) (m : gmap string unit) (P : AbsoluteTxPosition -> string -> Prop).
Hypothesis index_keys : forall k,
  is_Some (m !! (pre ++ k)%string) <-> exists p addr, P p addr /\ k = (pos_bytes p ++ addr)%string.
Hypothesis index_ok : forall p addr, P p addr -> pos_ok p.
Hypothesis index_fun : forall p q addr, P p addr -> P q addr -> p = q.

Lemma index_list : exists l, (iter_prefix pre m).*1 = map (fun x => pos_bytes x.1 ++ x.2)%string l /\
  forall p addr, (p, addr) ∈ l <-> P p addr.
Proof.
  assert (Hkeys : forall k, k ∈ (iter_prefix pre m).*1 <-> exists p addr, P p addr /\ k = (pos_bytes p ++ addr)%string).
  { intros k. rewrite <- index_keys. split.
    - intros ([k' []]&->&Hin%elem_of_iter_prefix)%list_elem_of_fmap. by eexists.
    - intros [[] Hk]. apply list_elem_of_fmap. exists (k, tt). by rewrite elem_of_iter_prefix. }
  assert (exists l, (iter_prefix pre m).*1 = map (fun x => pos_bytes x.1 ++ x.2)%string l /\
            forall x, x ∈ l -> P x.1 x.2) as (l&Hl&HP).
  { assert (Forall (fun k => exists p addr, P p addr /\ k = (pos_bytes p ++ addr)%string) (iter_prefix pre m).*1) as HF.
    { apply Forall_forall. intros k. apply Hkeys. }
    clear -HF. induction HF as [|k ks (p&addr&Hp&->) _ (l&->&Hl)]; [by exists []; split; [|intros ? ?%not_elem_of_nil]|].
    exists ((p, addr) :: l). split; [done|]. intros x [->|Hx]%elem_of_cons; [done|by apply Hl]. }
  exists l. split; [done|]. intros p addr. split; [apply (HP (p, addr))|]. intros Hp.
  assert ((pos_bytes p ++ addr)%string ∈ (iter_prefix pre m).*1) as Hin by (apply Hkeys; eauto).
  rewrite Hl in Hin. apply list_elem_of_fmap in Hin as ([p' addr']&E&Hx). cbn in E.
  pose proof (HP _ Hx) as HP'. cbn in HP'.
  apply string_app_inj_len_l in E as [E%pos_bytes_inj ->]; [by subst|eauto..|by rewrite !pos_bytes_length].
Qed.

Lemma index_scan : exists l, addresses_of (iter_prefix pre m).*1 = Ok l.*2 /\ NoDup l.*2 /\
  (forall p addr, (p, addr) ∈ l <-> P p addr) /\
  StronglySorted (fun x y => LessThan (Some y.1) (Some x.1) = false) l.
Proof.
  destruct index_list as (l&Hl&Hmem). exists l. rewrite Hl. split_and!; [apply addresses_of_spec| |done|].
  - apply NoDup_fmap_2_strong.
    + intros [p addr] [q addr'] Hp%Hmem Hq%Hmem E. cbn in E. subst. f_equal. by eapply index_fun.
    + apply (NoDup_fmap_1 (fun x => pos_bytes x.1 ++ x.2)%string). unfold fmap, list_fmap.
      change (NoDup (map (fun x => pos_bytes x.1 ++ x.2)%string l)). rewrite <- Hl. apply iter_prefix_keys_nodup.
  - assert (Hs : StronglySorted str_le (map (fun x => pos_bytes x.1 ++ x.2)%string l)).
    { rewrite <- Hl. pose proof (iter_prefix_sorted pre m) as Hs. clear -Hs.
      induction Hs as [|x l Hs IH Hx]; cbn; constructor; [done|]. rewrite Forall_fmap. exact Hx. }
    assert (Hok : forall x, x ∈ l -> pos_ok x.1) by (intros [p addr] Hx%Hmem; eauto).
    clear -Hs Hok. induction l as [|x l IH]; [constructor|]. cbn in Hs.
    apply StronglySorted_inv in Hs as [Hs Hx]. constructor; [apply IH; [done|set_solver]|].
    rewrite Forall_fmap in Hx. rewrite Forall_forall in *. intros y Hy. specialize (Hx y Hy).
    destruct (LessThan _ _) eqn:E; [|done].
    apply (pos_bytes_lt _ _ y.2 x.2) in E; [|apply Hok; set_solver..].
    unfold str_le, str_leb in Hx. cbn in Hx. by rewrite E in Hx.
Qed.

End IndexScan.

(** When a contract last changed its code, and when it was created. *)
Definition updated_at (a : registry) (addr : string) (p : AbsoluteTxPosition) : Prop :=
  exists info es e, a !! addr = Some (info, es) /\ last es = Some e /\ Updated e = Some p.

Lemma code_scan codes a c id : Rep codes a c -> is_u64 id ->
  exists l, IterateContractsByCode id c = Ok l.*2 /\ NoDup l.*2 /\
    (forall p addr, (p, addr) ∈ l <-> updated_at a addr p /\ CodeID <$> cinfos c !! addr = Some id) /\
    StronglySorted (fun x y => LessThan (Some y.1) (Some x.1) = false) l.
Proof.
  intros R Hid. unfold IterateContractsByCode, GetContractByCodeIDSecondaryIndexPrefix.
  assert (Hcode : forall addr info es e, a !! addr = Some (info, es) -> last es = Some e ->
    entry_ok e /\ CodeID <$> cinfos c !! addr = Some (HCodeID e)).
  { intros addr info es e Ha He. pose proof (rep_wf _ _ _ R addr _ Ha) as Hwf.
    destruct (wf_last _ _ Hwf) as (e'&He'&E). cbn in He', E. assert (e' = e) as -> by congruence. split.
    - rewrite last_lookup in He. by apply (Forall_lookup_1 _ _ _ _ (wf_entries _ _ Hwf) He).
    - rewrite (rep_infos _ _ _ R), lookup_fmap, Ha. cbn. congruence. }
  apply (index_scan (be64s id) (code_ix c)
    (fun p addr => updated_at a addr p /\ CodeID <$> cinfos c !! addr = Some id)).
  - intros k. rewrite (rep_code _ _ _ R _). split.
    + intros (addr&info&es&e&p&Ha&He&Hp&E). destruct (Hcode _ _ _ _ Ha He) as [[? _] Hc].
      apply string_app_inj_len_l in E as [Ei%be64s_inj ->]; [|done..|by rewrite !be64s_length].
      exists p, addr. split; [|done]. split; [by exists info, es, e|congruence].
    + intros (p&addr&[(info&es&e&Ha&He&Hp) Hc]&->). exists addr, info, es, e, p. split_and!; try done.
      destruct (Hcode _ _ _ _ Ha He) as [_ Hc']. unfold code_key. congruence.
  - intros p addr [(info&es&e&Ha&He&Hp) _]. destruct (Hcode _ _ _ _ Ha He) as [(_&q&?&?) _]. congruence.
  - intros p q addr [(?&?&?&?&?&?) _] [(?&?&?&?&?&?) _]. congruence.
Qed.

Lemma creator_scan codes a c creator : Rep codes a c -> valid_addr creator ->
  exists l, IterateContractsByCreator creator c = Ok l.*2 /\ NoDup l.*2 /\
    (forall addr, addr ∈ l.*2 <-> exists info, cinfos c !! addr = Some info /\
       AccAddressFromBech32 (ContractCreator info) = Ok creator) /\
    (forall p addr, (p, addr) ∈ l -> exists info es e, a !! addr = Some (info, es) /\ head es = Some e /\ Updated e = Some p) /\
    StronglySorted (fun x y => LessThan (Some y.1) (Some x.1) = false) l.
Proof.
  intros R Hcr. unfold IterateContractsByCreator, GetContractsByCreatorPrefix.
  rewrite MustLengthPrefix_ok by done. cbn [mbind res_bind].
  set (P := fun p addr => exists info es e, a !! addr = Some (info, es) /\ head es = Some e /\ Updated e = Some p /\
    AccAddressFromBech32 (ContractCreator info) = Ok creator).
  destruct (index_scan (lp creator) (ccreator_ix c) P) as (l&Hl&Hnd&Hmem&Hs).
  - intros k. rewrite (rep_creator _ _ _ R _). split.
    + intros (addr&info&es&e&p&cr&Ha&He&Hp&Hc&E).
      destruct (wf_creator _ _ (rep_wf _ _ _ R addr _ Ha)) as (cr'&Hc'&Hv). cbn in Hc'.
      assert (cr' = cr) as -> by congruence.
      apply lp_app_inj in E as [-> ->]; [|done..]. exists p, addr. split; [|done]. by exists info, es, e.
    + intros (p&addr&(info&es&e&Ha&He&Hp&Hc)&->). by exists addr, info, es, e, p, creator.
  - intros p addr (info&es&e&Ha&He&Hp&_). pose proof (wf_entries _ _ (rep_wf _ _ _ R addr _ Ha)) as HF. cbn in HF.
    destruct es as [|x es]; [done|]. injection He as ->. apply Forall_cons in HF as [(_&q&?&?) _]. congruence.
  - intros p q addr (?&?&?&?&?&?&?) (?&?&?&?&?&?&?). congruence.
  - exists l. split_and!; try done; [|by intros p addr (info&es&e&?&?&?&_)%Hmem; exists info, es, e].
    intros addr. rewrite list_elem_of_fmap. split.
    + intros ([p addr']&->&(info&es&e&Ha&_&_&Hc)%Hmem). exists info. split; [|done].
      cbn. by rewrite (rep_infos _ _ _ R), lookup_fmap, Ha.
    + intros (info&Hi&Hc). destruct (rep_lookup _ _ _ _ _ R Hi) as (es&Ha&Hwf).
      destruct (wf_last _ _ Hwf) as (e&He&_). destruct es as [|e0 es]; [done|].
      pose proof (wf_entries _ _ Hwf) as HF. cbn in HF. apply Forall_cons in HF as [(_&p&Hp&_) _].
      exists (p, addr). split; [done|]. apply Hmem. by exists info, (e0 :: es), e0.
Qed.

End Representation.
