(* ===== verification/WasmPackets.v ===== *)
(** * x/wasm: packets

    The packets and channels of IBC, what of them a contract is shown, and the
    store of the packets that wait for an acknowledgement. *)

From Stdlib Require Import ZArith Lia Ascii.
From stdpp Require Import base gmap strings list.
From S2P Require Import Prelude Sdk Store GoLib WasmGas WasmCircuits.

(** ** Data *)

(** [clienttypes.Height] and [channeltypes.Packet]. *)
Record Height := mkHeight { RevisionNumber : Z; RevisionHeight : Z }.
Record Packet := mkPacket {
  Sequence : Z; SourcePort : string; SourceChannel : string; DestinationPort : string; DestinationChannel : string;
  PacketData : string; TimeoutHeight : Height; TimeoutTimestamp : Z }.

(** [channeltypes.Channel], with the text of its ordering. *)
Record Channel := mkChannel {
  Ordering : string; CounterpartyPort : string; CounterpartyChannel : string; ConnectionHops : list string }.

(** What a contract is shown. *)
Record IBCEndpoint := mkEndpoint { PortID : string; ChannelID : string }.
Record IBCTimeout := mkTimeout { TimeoutBlock : option Height; Timestamp : Z }.
Record IBCPacket := mkIBCPacket {
  IBCData : string; Src : IBCEndpoint; Dest : IBCEndpoint; IBCSequence : Z; Timeout : IBCTimeout }.
Record IBCChannel := mkIBCChannel {
  Endpoint : IBCEndpoint; CounterpartyEndpoint : IBCEndpoint; Order : string; Version : string; ConnectionID : string }.
Record IBC2Payload := mkPayload {
  PSourcePort : string; PDestinationPort : string; PVersion : string; PEncoding : string; PValue : string }.
Record IBCTransferCallback := mkTransferCb {
  CbReceiver : string; CbSender : string; CbFunds : list (string * string) }.

(** The IBC entry points of a contract, with the messages they are called with. *)
Inductive VmIBCCall :=
| IBCOpenInit (c : IBCChannel)
| IBCOpenTry (c : IBCChannel) (counterpartyVersion : string)
| IBCOpenAck (c : IBCChannel) (counterpartyVersion : string)
| IBCOpenConfirm (c : IBCChannel)
| IBCCloseInit (c : IBCChannel)
| IBCCloseConfirm (c : IBCChannel)
| IBCPacketReceive (p : IBCPacket) (relayer : string)
| IBCPacketAck (ack : string) (p : IBCPacket) (relayer : string)
| IBCPacketTimeout (p : IBCPacket) (relayer : string)
| IBCSourceAck (ack : string) (p : IBCPacket) (relayer : string)
| IBCSourceTimeout (p : IBCPacket) (relayer : string)
| IBCDestination (ack : string) (p : IBCPacket) (transfer : option IBCTransferCallback)
| IBC2PacketSend (payload : IBC2Payload) (source destination : string) (sequence : Z) (signer : string)
| IBC2PacketReceive (payload : IBC2Payload) (relayer source destination : string) (sequence : Z)
| IBC2PacketTimeout (payload : IBC2Payload) (source destination : string) (sequence : Z) (relayer : string)
| IBC2PacketAck (source destination : string) (payload : IBC2Payload) (ack : string) (relayer : string).

(** ** Conversions *)

(** [Height.IsZero]. *)
Definition Height_IsZero (h : Height) : bool := (RevisionHeight h =? 0) && (RevisionNumber h =? 0).

Definition newIBCPacket (p : Packet) : IBCPacket :=
  mkIBCPacket (PacketData p) (mkEndpoint (SourcePort p) (SourceChannel p))
    (mkEndpoint (DestinationPort p) (DestinationChannel p)) (Sequence p)
    (mkTimeout (if Height_IsZero (TimeoutHeight p) then None else Some (TimeoutHeight p)) (TimeoutTimestamp p)).

Definition convertPacket (p : IBCPacket) : Packet :=
  mkPacket (IBCSequence p) (PortID (Src p)) (ChannelID (Src p)) (PortID (Dest p)) (ChannelID (Dest p)) (IBCData p)
    (match TimeoutBlock (Timeout p) with Some b => b | None => mkHeight 0 0 end) (Timestamp (Timeout p)).

Definition ConvertWasmIBCTimeoutHeightToCosmosHeight (b : option Height) : Height :=
  match b with Some h => mkHeight (RevisionNumber h) (RevisionHeight h) | None => mkHeight 0 0 end.

(** The first connection of a channel; an empty list is out of range. *)
Definition first_hop (l : list string) : res string :=
  match l with c :: _ => Ok c | [] => Panic "index out of range" end.

Definition toWasmVMChannel (portID channelID : string) (c : Channel) (appVersion : string) : res IBCChannel :=
  hop ← first_hop (ConnectionHops c);
  mret (mkIBCChannel (mkEndpoint portID channelID) (mkEndpoint (CounterpartyPort c) (CounterpartyChannel c))
          (Ordering c) appVersion hop).

(** ** Packets that wait for an acknowledgement *)

Definition GetAsyncPacketKey (destChannel : string) (sequence : Z) : string :=
  (bytes_to_string (be_encode 4 (u32 (slen destChannel))) ++ destChannel ++ be64s sequence)%string.

(** The key below the prefix of the packets: the port, then the packet. *)
Definition async_key (portID channelID : string) (sequence : Z) : string :=
  (portID ++ GetAsyncPacketKey channelID sequence)%string.

Abbreviation AsyncAcks := (gmap string Packet).

Definition LoadAsyncAckPacket (portID channelID : string) (sequence : Z) (s : AsyncAcks) : res Packet :=
  match s !! async_key portID channelID sequence with Some p => Ok p | None => Err "ErrNotFound" end.

Definition StoreAsyncAckPacket (p : Packet) : M AsyncAcks unit :=
  modify <[async_key (DestinationPort p) (DestinationChannel p) (Sequence p) := p]>.

Definition DeleteAsyncAckPacket (portID channelID : string) (sequence : Z) : M AsyncAcks unit :=
  modify (delete (async_key portID channelID sequence)).

(** ** Proofs *)

(** The packet kept for a late acknowledgement is the packet that was received. *)
Lemma convert_packet_roundtrip p : convertPacket (newIBCPacket p) = p.
Proof.
  destruct p as [sq sp sc dp dc data [n h] ts]. unfold newIBCPacket, convertPacket, Height_IsZero. cbn.
  destruct (Z.eqb_spec h 0) as [->|], (Z.eqb_spec n 0) as [->|]; done.
Qed.

(** Identifiers of ports are printable, and those of channels short. *)
Fixpoint no_nul (s : string) : Prop :=
  match s with EmptyString => True | String c s => c <> Ascii.zero /\ no_nul s end.

Definition packet_id_ok (port channel : string) (sequence : Z) : Prop :=
  no_nul port /\ slen channel < 2 ^ 24 /\ is_u64 sequence.

Lemma no_nul_app_inj p q a b : no_nul p -> no_nul q ->
  (p ++ String Ascii.zero a)%string = (q ++ String Ascii.zero b)%string -> p = q /\ a = b.
Proof.
  revert q. induction p as [|c p IH]; intros [|d q] Hp Hq E; cbn in *.
  - by injection E as ->.
  - injection E as <- _. by destruct Hq.
  - injection E as -> _. by destruct Hp.
  - injection E as -> E. destruct Hp, Hq. destruct (IH q) as [-> ->]; done.
Qed.

Lemma be32_short n : 0 <= n < 2 ^ 24 -> exists l, bytes_to_string (be_encode 4 (u32 n)) = String Ascii.zero l /\
  String.length l = 3%nat.
Proof.
  intros Hn. unfold u32. rewrite Z.mod_small by lia. unfold be_encode. cbn [le_encode rev app].
  replace (n / 256 / 256 / 256 mod 256) with 0.
  - eexists. split; [reflexivity|done].
  - rewrite !Z.div_div by lia. rewrite (Z.div_small n) by lia. done.
Qed.

Lemma async_key_inj p c s p' c' s' : packet_id_ok p c s -> packet_id_ok p' c' s' ->
  async_key p c s = async_key p' c' s' -> p = p' /\ c = c' /\ s = s'.
Proof.
  intros (Hp&Hc&Hs) (Hp'&Hc'&Hs') E. unfold async_key, GetAsyncPacketKey in E.
  assert (Hz : forall x, 0 <= slen x) by (intros; unfold slen; lia).
  destruct (be32_short (slen c)) as (l&El&Hl); [auto|]. destruct (be32_short (slen c')) as (l'&El'&Hl'); [auto|].
  rewrite El, El', !string_app_cons in E. apply no_nul_app_inj in E as [-> E]; [|done..].
  assert (Hlen : String.length c = String.length c').
  { apply (f_equal String.length) in E. rewrite !string_app_length, !be64s_length in E. lia. }
  apply string_app_inj_len in E as [_ E]; [|rewrite !string_app_length, !be64s_length; lia].
  apply string_app_inj_len in E as [-> E]; [|by rewrite !be64s_length]. by apply be64s_inj in E as ->.
Qed.
