(* ===== verification/WasmJson.v ===== *)
(** * x/wasm: the size of messages in JSON

    Entry points of IBC are charged by the size of their message in JSON, which
    is computed without writing the JSON.  The reference is the output of
    [encoding/json], byte by byte. *)

From Stdlib Require Import ZArith Lia Ascii.
From stdpp Require Import base strings list pretty.
From S2P Require Import Prelude GoLib WasmGas WasmPackets.

(** ** The computed size *)

Definition brackets : Z := 2.
Definition quotes : Z := 2.
Definition comma : Z := 1.
Definition colon : Z := 1.
Definition null : Z := 4.

(** What escaping adds to a character.  A byte below 128 is always a character
    of its own, and no other character is escaped. *)
Definition escaping (r : Z) : Z :=
  if (r =? 34) || (r =? 92) then 1
  else if (r =? 8) || (r =? 12) || (r =? 10) || (r =? 13) || (r =? 9) then 1
  else if r <=? 31 then 5
  else if (r =? 60) || (r =? 62) || (r =? 38) then 5
  else 0.

Fixpoint escaping_all (s : list Z) : Z := match s with [] => 0 | r :: s => escaping r + escaping_all s end.

Definition ExpectedJSONSizeString (s : string) : Z := quotes + slen s + escaping_all (string_to_bytes s).

(** [None] is the nil slice. *)
Definition ExpectedJSONSizeBinary (b : option string) : Z :=
  match b with
  | None => null
  | Some b => Z.ldiff (4 * slen b / 3 + 3) 3 + quotes
  end.

(** Dividing by ten until nothing is left; 64 bits have at most 20 digits. *)
Fixpoint digits (fuel : nat) (i out : Z) : Z :=
  match fuel with
  | O => out
  | S fuel => if 0 <? i then digits fuel (i / 10) (out + 1) else out
  end.

Definition ExpectedJSONSizeInt (i : Z) : Z :=
  let '(i, out) := if i <=? 0 then (i64 (- i), 1) else (i, 0) in
  digits 20 i out.

Definition ExpectedJSONSizeUint64 (i : Z) : Z := if i =? 0 then 1 else digits 20 i 0.

Definition ExpectedJSONSizeBool (b : bool) : Z := if b then 4 else 5.

Definition Coin_JSONSize (c : string * string) : Z :=
  brackets + 7 + colon + ExpectedJSONSizeString c.1 + comma + 8 + colon + ExpectedJSONSizeString c.2.

Fixpoint array_tail {T} (size : T -> Z) (a : list T) : Z :=
  match a with [] => 0 | v :: a => comma + size v + array_tail size a end.
Definition ExpectedJSONSizeArray {T} (size : T -> Z) (a : list T) : Z :=
  match a with [] => brackets | v :: a => brackets + size v + array_tail size a end.

Definition IBCEndpoint_JSONSize (t : IBCEndpoint) : Z :=
  brackets + 9 + colon + ExpectedJSONSizeString (PortID t) + comma + 12 + colon + ExpectedJSONSizeString (ChannelID t).

Definition IBCChannel_JSONSize (t : IBCChannel) : Z :=
  brackets + 10 + colon + IBCEndpoint_JSONSize (Endpoint t) + comma +
  23 + colon + IBCEndpoint_JSONSize (CounterpartyEndpoint t) + comma +
  7 + colon + ExpectedJSONSizeString (Order t) + comma +
  9 + colon + ExpectedJSONSizeString (Version t) + comma +
  15 + colon + ExpectedJSONSizeString (ConnectionID t).

(** [IBCOpenInit], [IBCOpenConfirm], [IBCCloseInit] and [IBCCloseConfirm]. *)
Definition only_channel_JSONSize (c : IBCChannel) : Z := brackets + 9 + colon + IBCChannel_JSONSize c.
(** [IBCOpenTry] and [IBCOpenAck]. *)
Definition versioned_JSONSize (c : IBCChannel) (counterpartyVersion : string) : Z :=
  brackets + 9 + colon + IBCChannel_JSONSize c + comma + 22 + colon + ExpectedJSONSizeString counterpartyVersion.

Definition IBCTimeoutBlock_JSONSize (t : Height) : Z :=
  brackets + 10 + colon + ExpectedJSONSizeUint64 (RevisionNumber t) + comma +
  8 + colon + ExpectedJSONSizeUint64 (RevisionHeight t).

Definition IBCTimeout_JSONSize (t : IBCTimeout) : Z :=
  let out := brackets in
  let out := match TimeoutBlock t with
             | Some b => out + 7 + colon + IBCTimeoutBlock_JSONSize b
             | None => out + 7 + colon + null
             end in
  if negb (Timestamp t =? 0) then out + comma + 11 + colon + ExpectedJSONSizeUint64 (Timestamp t) + quotes else out.

(** Data that is empty is nil.  IBC refuses packets and acknowledgements without data,
    so that a slice that is empty but not nil, which is written as two quotes, does not
    reach a contract. *)
Definition nilable (data : string) : option string := if bool_decide (data = ""%string) then None else Some data.

Definition IBCPacket_JSONSize (t : IBCPacket) : Z :=
  brackets + 6 + colon + ExpectedJSONSizeBinary (nilable (IBCData t)) + comma +
  5 + colon + IBCEndpoint_JSONSize (Src t) + comma +
  6 + colon + IBCEndpoint_JSONSize (Dest t) + comma +
  10 + colon + ExpectedJSONSizeUint64 (IBCSequence t) + comma +
  9 + colon + IBCTimeout_JSONSize (Timeout t).

Definition IBCAcknowledgement_JSONSize (data : string) : Z :=
  brackets + 6 + colon + ExpectedJSONSizeBinary (nilable data).

(** [IBCPacketReceiveMsg], [IBCPacketTimeoutMsg] and [IBCTimeoutCallbackMsg]. *)
Definition packet_msg_JSONSize (p : IBCPacket) (relayer : string) : Z :=
  brackets + 8 + colon + IBCPacket_JSONSize p + comma + 9 + colon + ExpectedJSONSizeString relayer.
(** [IBCPacketAckMsg] and [IBCAckCallbackMsg]. *)
Definition ack_msg_JSONSize (ack : string) (p : IBCPacket) (relayer : string) : Z :=
  brackets + 17 + colon + IBCAcknowledgement_JSONSize ack + comma + 17 + colon + IBCPacket_JSONSize p + comma +
  9 + colon + ExpectedJSONSizeString relayer.

Definition IBCTransferCallback_JSONSize (t : IBCTransferCallback) : Z :=
  brackets + 7 + colon + ExpectedJSONSizeArray Coin_JSONSize (CbFunds t) + comma +
  10 + colon + ExpectedJSONSizeString (CbReceiver t) + comma + 8 + colon + ExpectedJSONSizeString (CbSender t).

Definition IBCDestinationCallbackMsg_JSONSize (ack : string) (p : IBCPacket) (transfer : option IBCTransferCallback) : Z :=
  let out := brackets + 5 + colon + IBCAcknowledgement_JSONSize ack + comma + 8 + colon + IBCPacket_JSONSize p in
  match transfer with Some t => out + comma + 10 + colon + IBCTransferCallback_JSONSize t | None => out end.

(** The messages of the entry points, each with one of its fields set.  Those of
    version 2 have no size and are not charged by it. *)
Definition ExpectedJSONSize (msg : VmIBCCall) : Z :=
  match msg with
  | IBCOpenInit c => brackets + 11 + colon + only_channel_JSONSize c
  | IBCOpenTry c v => brackets + 10 + colon + versioned_JSONSize c v
  | IBCOpenAck c v => brackets + 10 + colon + versioned_JSONSize c v
  | IBCOpenConfirm c => brackets + 14 + colon + only_channel_JSONSize c
  | IBCCloseInit c => brackets + 12 + colon + only_channel_JSONSize c
  | IBCCloseConfirm c => brackets + 15 + colon + only_channel_JSONSize c
  | IBCPacketReceive p r => packet_msg_JSONSize p r
  | IBCPacketAck a p r => ack_msg_JSONSize a p r
  | IBCPacketTimeout p r => packet_msg_JSONSize p r
  | IBCSourceAck a p r => brackets + 17 + colon + ack_msg_JSONSize a p r
  | IBCSourceTimeout p r => brackets + 9 + colon + packet_msg_JSONSize p r
  | IBCDestination a p t => IBCDestinationCallbackMsg_JSONSize a p t
  | _ => 0
  end.

(** ** The reference: what [encoding/json] writes *)

Definition hex (d : Z) : Z := if d <? 10 then 48 + d else 87 + d.

(** A character below 128, with HTML escaped. *)
Definition escape (r : Z) : list Z :=
  if (r =? 34) || (r =? 92) then [92; r]
  else if r =? 8 then [92; 98] else if r =? 12 then [92; 102] else if r =? 10 then [92; 110]
  else if r =? 13 then [92; 114] else if r =? 9 then [92; 116]
  else if (r <=? 31) || (r =? 60) || (r =? 62) || (r =? 38) then [92; 117; 48; 48; hex (r / 16); hex (r mod 16)]
  else [r].

Definition within (lo hi b : Z) : bool := (lo <=? b) && (b <=? hi).

(** The number of bytes of the valid UTF-8 sequence of two or more bytes at the
    start, 0 if there is none. *)
Definition sequence_width (s : list Z) : nat :=
  match s with
  | b0 :: b1 :: s =>
      if within 194 223 b0 then if within 128 191 b1 then 2%nat else 0%nat
      else match s with
           | b2 :: s =>
               if within 224 239 b0 then
                 if within (if b0 =? 224 then 160 else 128) (if b0 =? 237 then 159 else 191) b1 && within 128 191 b2
                 then 3%nat else 0%nat
               else match s with
                    | b3 :: _ =>
                        if within 240 244 b0 && within (if b0 =? 240 then 144 else 128) (if b0 =? 244 then 143 else 191) b1
                           && within 128 191 b2 && within 128 191 b3
                        then 4%nat else 0%nat
                    | [] => 0%nat
                    end
           | [] => 0%nat
           end
  | _ => 0%nat
  end.

(** The line and paragraph separators, U+2028 and U+2029. *)
Definition separator (s : list Z) : option Z :=
  match s with
  | b0 :: b1 :: b2 :: _ => if (b0 =? 226) && (b1 =? 128) && within 168 169 b2 then Some (b2 - 112) else None
  | _ => None
  end.

(** The characters of a string; the fuel is the number of bytes. *)
Fixpoint json_chars (fuel : nat) (s : list Z) : list Z :=
  match fuel, s with
  | S fuel, b :: rest =>
      if b <? 128 then escape b ++ json_chars fuel rest
      else match sequence_width s, separator s with
           | O, _ => [92; 117; 102; 102; 102; 100] ++ json_chars fuel rest
           | w, Some d => [92; 117; 50; 48; 50; d] ++ json_chars fuel (drop w s)
           | w, None => take w s ++ json_chars fuel (drop w s)
           end
  | _, _ => []
  end.

Definition json_string (s : string) : list Z :=
  [34] ++ json_chars (String.length s) (string_to_bytes s) ++ [34].

(** Standard base64 with padding. *)
Definition base64_char (d : Z) : Z :=
  if d <? 26 then 65 + d else if d <? 52 then 71 + d else if d <? 62 then d - 4 else if d =? 62 then 43 else 47.
Fixpoint base64 (s : list Z) : list Z :=
  match s with
  | [] => []
  | [a] => [base64_char (a / 4); base64_char (a mod 4 * 16); 61; 61]
  | [a; b] => [base64_char (a / 4); base64_char (a mod 4 * 16 + b / 16); base64_char (b mod 16 * 4); 61]
  | a :: b :: c :: s =>
      [base64_char (a / 4); base64_char (a mod 4 * 16 + b / 16); base64_char (b mod 16 * 4 + c / 64); base64_char (c mod 64)]
      ++ base64 s
  end.

Definition json_null : list Z := string_to_bytes "null".
Definition json_binary (b : option string) : list Z :=
  match b with None => json_null | Some b => [34] ++ base64 (string_to_bytes b) ++ [34] end.
Definition json_number (i : Z) : list Z := string_to_bytes (itoa i).
Definition json_bool (b : bool) : list Z := string_to_bytes (if b then "true" else "false").

Fixpoint joined (l : list (list Z)) : list Z :=
  match l with [] => [] | [x] => x | x :: l => x ++ [44] ++ joined l end.
Definition json_field (name : string) (value : list Z) : list Z := [34] ++ string_to_bytes name ++ [34; 58] ++ value.
Definition json_object (fields : list (list Z)) : list Z := [123] ++ joined fields ++ [125].
Definition json_array {T} (f : T -> list Z) (a : list T) : list Z := [91] ++ joined (map f a) ++ [93].

Definition json_coin (c : string * string) : list Z :=
  json_object [json_field "denom" (json_string c.1); json_field "amount" (json_string c.2)].
Definition json_endpoint (t : IBCEndpoint) : list Z :=
  json_object [json_field "port_id" (json_string (PortID t)); json_field "channel_id" (json_string (ChannelID t))].
Definition json_channel (t : IBCChannel) : list Z :=
  json_object [json_field "endpoint" (json_endpoint (Endpoint t)); json_field "counterparty_endpoint" (json_endpoint (CounterpartyEndpoint t));
    json_field "order" (json_string (Order t)); json_field "version" (json_string (Version t));
    json_field "connection_id" (json_string (ConnectionID t))].
Definition json_only_channel (c : IBCChannel) : list Z := json_object [json_field "channel" (json_channel c)].
Definition json_versioned (c : IBCChannel) (v : string) : list Z :=
  json_object [json_field "channel" (json_channel c); json_field "counterparty_version" (json_string v)].
Definition json_block (t : Height) : list Z :=
  json_object [json_field "revision" (json_number (RevisionNumber t)); json_field "height" (json_number (RevisionHeight t))].
Definition json_timeout (t : IBCTimeout) : list Z :=
  json_object (json_field "block" (match TimeoutBlock t with Some b => json_block b | None => json_null end) ::
    if negb (Timestamp t =? 0) then [json_field "timestamp" ([34] ++ json_number (Timestamp t) ++ [34])] else []).
Definition json_packet (t : IBCPacket) : list Z :=
  json_object [json_field "data" (json_binary (nilable (IBCData t))); json_field "src" (json_endpoint (Src t));
    json_field "dest" (json_endpoint (Dest t)); json_field "sequence" (json_number (IBCSequence t));
    json_field "timeout" (json_timeout (Timeout t))].
Definition json_ack (data : string) : list Z := json_object [json_field "data" (json_binary (nilable data))].
Definition json_packet_msg (p : IBCPacket) (r : string) : list Z :=
  json_object [json_field "packet" (json_packet p); json_field "relayer" (json_string r)].
Definition json_ack_msg (a : string) (p : IBCPacket) (r : string) : list Z :=
  json_object [json_field "acknowledgement" (json_ack a); json_field "original_packet" (json_packet p); json_field "relayer" (json_string r)].
Definition json_transfer (t : IBCTransferCallback) : list Z :=
  json_object [json_field "funds" (json_array json_coin (CbFunds t)); json_field "receiver" (json_string (CbReceiver t));
    json_field "sender" (json_string (CbSender t))].
Definition json_destination (a : string) (p : IBCPacket) (t : option IBCTransferCallback) : list Z :=
  json_object ([json_field "ack" (json_ack a); json_field "packet" (json_packet p)] ++
    match t with Some t => [json_field "transfer" (json_transfer t)] | None => [] end).

(** The messages of version 1. *)
Definition json_call (msg : VmIBCCall) : option (list Z) :=
  match msg with
  | IBCOpenInit c => Some (json_object [json_field "open_init" (json_only_channel c)])
  | IBCOpenTry c v => Some (json_object [json_field "open_try" (json_versioned c v)])
  | IBCOpenAck c v => Some (json_object [json_field "open_ack" (json_versioned c v)])
  | IBCOpenConfirm c => Some (json_object [json_field "open_confirm" (json_only_channel c)])
  | IBCCloseInit c => Some (json_object [json_field "close_init" (json_only_channel c)])
  | IBCCloseConfirm c => Some (json_object [json_field "close_confirm" (json_only_channel c)])
  | IBCPacketReceive p r => Some (json_packet_msg p r)
  | IBCPacketAck a p r => Some (json_ack_msg a p r)
  | IBCPacketTimeout p r => Some (json_packet_msg p r)
  | IBCSourceAck a p r => Some (json_object [json_field "acknowledgement" (json_ack_msg a p r)])
  | IBCSourceTimeout p r => Some (json_object [json_field "timeout" (json_packet_msg p r)])
  | IBCDestination a p t => Some (json_destination a p t)
  | _ => None
  end.

(** ** Lengths *)

Definition blen (l : list Z) : Z := Z.of_nat (length l).

Lemma size_app a b : blen (a ++ b) = blen a + blen b.
Proof. unfold blen. rewrite length_app. lia. Qed.

Lemma size_bytes s : blen (string_to_bytes s) = slen s.
Proof.
  unfold blen, slen, string_to_bytes. rewrite length_map. f_equal. induction s as [|c s IH]; [done|]. cbn. by rewrite IH.
Qed.

(** What [json_chars] writes beyond the computed size: five bytes for every byte
    that is not part of valid UTF-8, three for every separator. *)
Fixpoint excess_chars (fuel : nat) (s : list Z) : Z :=
  match fuel, s with
  | S fuel, b :: rest =>
      if b <? 128 then excess_chars fuel rest
      else match sequence_width s, separator s with
           | O, _ => 5 + excess_chars fuel rest
           | w, Some _ => 3 + excess_chars fuel (drop w s)
           | w, None => excess_chars fuel (drop w s)
           end
  | _, _ => 0
  end.

Definition excess (s : string) : Z := excess_chars (String.length s) (string_to_bytes s).

Lemma excess_nonneg s : 0 <= excess s.
Proof.
  unfold excess. generalize (string_to_bytes s). induction (String.length s) as [|fuel IH]; intros l; [done|].
  destruct l as [|b rest]; [done|]. cbn [excess_chars]. destruct (b <? 128); [apply IH|].
  destruct (sequence_width (b :: rest)), (separator (b :: rest)); try apply IH; pose proof (IH rest); try lia;
    match goal with |- context[excess_chars fuel ?l] => pose proof (IH l) end; lia.
Qed.

Lemma escape_size r : 0 <= r < 128 -> blen (escape r) = 1 + escaping r.
Proof.
  intros Hr. unfold escape, escaping.
  destruct (r =? 34), (r =? 92); [done..|]; cbn [orb].
  destruct (r =? 8), (r =? 12), (r =? 10), (r =? 13), (r =? 9); [done..|]. cbn [orb].
  destruct (r <=? 31); [done|]. cbn [orb]. by destruct (r =? 60), (r =? 62), (r =? 38).
Qed.

Lemma escaping_high b : 128 <= b -> escaping b = 0.
Proof.
  intros Hb. unfold escaping. repeat match goal with |- context[?a =? ?c] => rewrite (proj2 (Z.eqb_neq a c)) by lia end.
  cbn. by rewrite (proj2 (Z.leb_gt b 31)) by lia.
Qed.

Lemma escaping_app a b : escaping_all (a ++ b) = escaping_all a + escaping_all b.
Proof. induction a as [|x a IH]; [done|]. cbn. rewrite IH. lia. Qed.

Lemma escaping_take w s : Forall (fun b => 128 <= b) (take w s) -> escaping_all s = escaping_all (drop w s).
Proof.
  intros Hw. rewrite <- (take_drop w s) at 1. rewrite escaping_app.
  assert (escaping_all (take w s) = 0) as ->; [|lia]. induction Hw as [|b l Hb _ IH]; [done|]. cbn. rewrite IH, escaping_high by done. done.
Qed.

Lemma within_low lo hi b : 128 <= lo -> within lo hi b = true -> 128 <= b.
Proof. unfold within. rewrite andb_true_iff, !Z.leb_le. lia. Qed.

(** A sequence has as many bytes as its width, none of them below 128. *)
Lemma width_spec s w : sequence_width s = S w -> length (take (S w) s) = S w /\ Forall (fun b => 128 <= b) (take (S w) s).
Proof.
  destruct s as [|b0 [|b1 s]]; [done..|]. cbn [sequence_width]. destruct (within 194 223 b0) eqn:E0.
  { destruct (within 128 191 b1) eqn:E1; [|done]. intros [= <-]. split; [done|].
    repeat constructor; eapply within_low; [|done| |done]; lia. }
  destruct s as [|b2 s]; [done|]. destruct (within 224 239 b0) eqn:E0'.
  { destruct (within _ _ b1) eqn:E1; [|done]. destruct (within 128 191 b2) eqn:E2; [|done]. intros [= <-]. split; [done|].
    repeat constructor; (eapply within_low; [|done]); [lia|by destruct (b0 =? 224); lia|lia]. }
  destruct s as [|b3 s]; [done|]. destruct (within 240 244 b0) eqn:E0''; [|done]. destruct (within _ _ b1) eqn:E1; [|done].
  destruct (within 128 191 b2) eqn:E2; [|done]. destruct (within 128 191 b3) eqn:E3; [|done]. intros [= <-]. split; [done|].
  repeat constructor; (eapply within_low; [|done]); [lia|by destruct (b0 =? 240); lia|lia..].
Qed.

Lemma separator_width s d w : separator s = Some d -> sequence_width s = S w -> w = 2%nat.
Proof.
  destruct s as [|b0 [|b1 [|b2 s]]]; [done..|]. cbn [separator sequence_width].
  destruct (Z.eqb_spec b0 226) as [->|]; [|done]. destruct (Z.eqb_spec b1 128) as [->|]; [|done]. cbn.
  destruct (within 168 169 b2) eqn:E2; [|done]. intros _. change (within 194 223 226) with false. cbn.
  destruct (within 128 191 b2); [|done]. by intros [= <-].
Qed.

Lemma chars_size fuel s : Forall is_byte s -> (length s <= fuel)%nat ->
  blen (json_chars fuel s) = blen s + escaping_all s + excess_chars fuel s.
Proof.
  revert s. induction fuel as [|fuel IH]; intros s Hb Hl; [by destruct s; cbn in Hl; [|lia]|].
  destruct s as [|b rest]; [done|]. apply Forall_cons in Hb as Hb'. destruct Hb' as [Hb0 Hrest]. cbn in Hl.
  cbn [json_chars excess_chars]. assert (Hcons : blen (b :: rest) = 1 + blen rest) by (unfold blen; cbn; lia).
  destruct (Z.ltb_spec b 128) as [Hlt|Hge].
  { rewrite size_app, IH, escape_size by (done || unfold is_byte in *; lia). cbn [escaping_all]. lia. }
  destruct (sequence_width (b :: rest)) as [|w] eqn:Ew.
  { rewrite size_app, IH by (done || lia). cbn [escaping_all]. rewrite escaping_high by done.
    change (blen [92; 117; 102; 102; 102; 100]) with 6. lia. }
  destruct (width_spec _ _ Ew) as [Hlen Hall]. rewrite (escaping_take (S w) (b :: rest)) by done.
  assert (Hd : blen (b :: rest) = Z.of_nat (S w) + blen (drop (S w) (b :: rest))).
  { rewrite <- (take_drop (S w) (b :: rest)) at 1. rewrite size_app. unfold blen at 1. by rewrite Hlen. }
  assert (Hf : (length (drop (S w) (b :: rest)) <= fuel)%nat) by (rewrite length_drop; cbn; lia).
  assert (Hbd : Forall is_byte (drop (S w) (b :: rest))) by (by apply Forall_drop).
  destruct (separator (b :: rest)) eqn:Es.
  - pose proof (separator_width _ _ _ Es Ew) as ->. rewrite size_app, IH, Hd by done. change (blen [92; 117; 50; 48; 50; z]) with 6. lia.
  - rewrite size_app, IH, Hd by done. unfold blen at 1. rewrite Hlen. lia.
Qed.

Lemma string_bytes s : Forall is_byte (string_to_bytes s).
Proof.
  unfold string_to_bytes. apply List.Forall_map, List.Forall_forall. intros c _. unfold is_byte.
  pose proof (N_ascii_bounded c). lia.
Qed.

Lemma string_size s : blen (json_string s) = ExpectedJSONSizeString s + excess s.
Proof.
  unfold json_string, ExpectedJSONSizeString, excess. rewrite !size_app, chars_size; [|apply string_bytes|].
  - rewrite size_bytes. change (blen [34]) with 1. unfold quotes. lia.
  - pose proof (size_bytes s) as Hs. unfold blen, slen in Hs. lia.
Qed.

(** Padded base64: four characters for every three bytes begun. *)
Lemma base64_size s : blen (base64 s) = 4 * ((blen s + 2) / 3).
Proof.
  assert (Hlen : forall n s, (length s <= n)%nat -> blen (base64 s) = 4 * ((blen s + 2) / 3)).
  { intros n. induction n as [|n IH]; intros l Hl; [by destruct l; cbn in Hl; [|lia]|].
    destruct l as [|a [|b [|c l]]]; [done..|]. cbn [base64]. rewrite size_app, IH by (cbn in Hl; lia).
    replace (blen (a :: b :: c :: l) + 2) with (blen l + 2 + 1 * 3) by (unfold blen; cbn; lia). rewrite Z.div_add by lia.
    change (blen [_; _; _; _]) with 4. lia. }
  by apply (Hlen (length s)).
Qed.

Lemma base64_length n : 0 <= n -> Z.ldiff (4 * n / 3 + 3) 3 = 4 * ((n + 2) / 3).
Proof.
  intros Hn. change 3 with (Z.ones 2) at 3. rewrite Z.ldiff_ones_r, Z.shiftl_mul_pow2, Z.shiftr_div_pow2 by lia.
  change (2 ^ 2) with 4. rewrite (Z.mul_comm _ 4). f_equal.
  assert (E : n = 3 * (n / 3) + n mod 3) by (apply Z.div_mod; lia). pose proof (Z.mod_pos_bound n 3 ltac:(lia)).
  set (q := n / 3) in *. set (m := n mod 3) in *. rewrite E.
  assert (m = 0 \/ m = 1 \/ m = 2) as [-> | [-> | ->]] by lia.
  - replace (4 * (3 * q + 0)) with (4 * q * 3) by lia. rewrite Z.div_mul by lia.
    replace (4 * q + 3) with (3 + q * 4) by lia. replace (3 * q + 0 + 2) with (2 + q * 3) by lia. by rewrite !Z.div_add.
  - replace (4 * (3 * q + 1)) with (4 + 4 * q * 3) by lia. rewrite Z.div_add by lia. change (4 / 3) with 1.
    replace (1 + 4 * q + 3) with (4 + q * 4) by lia. replace (3 * q + 1 + 2) with (3 + q * 3) by lia. by rewrite !Z.div_add.
  - replace (4 * (3 * q + 2)) with (8 + 4 * q * 3) by lia. rewrite Z.div_add by lia. change (8 / 3) with 2.
    replace (2 + 4 * q + 3) with (5 + q * 4) by lia. replace (3 * q + 2 + 2) with (4 + q * 3) by lia. by rewrite !Z.div_add.
Qed.

Lemma binary_size b : blen (json_binary b) = ExpectedJSONSizeBinary b.
Proof.
  destruct b as [b|]; [|done]. cbn [json_binary ExpectedJSONSizeBinary]. rewrite !size_app, base64_size, size_bytes, base64_length by (unfold slen; lia).
  change (blen [34]) with 1. unfold quotes. lia.
Qed.

Lemma digits_out fuel i out : digits fuel i out = out + digits fuel i 0.
Proof.
  revert i out. induction fuel as [|fuel IH]; intros i out; cbn; [lia|]. destruct (0 <? i); [|lia].
  rewrite IH, (IH _ (0 + 1)). lia.
Qed.

Lemma pretty_digits fuel (x : N) s : Z.of_N x < 10 ^ Z.of_nat fuel ->
  slen (pretty_N_go x s) = digits fuel (Z.of_N x) 0 + slen s.
Proof.
  revert x s. induction fuel as [|fuel IH]; intros x s Hx.
  { change (10 ^ Z.of_nat 0) with 1 in Hx. assert (x = 0%N) as -> by lia. done. }
  cbn [digits]. destruct (Z.ltb_spec 0 (Z.of_N x)); [|assert (x = 0%N) as -> by lia; done].
  rewrite pretty_N_go_step by lia. rewrite IH.
  - rewrite digits_out, N2Z.inj_div. unfold slen. cbn. rewrite (digits_out _ _ 1). lia.
  - rewrite N2Z.inj_div. apply Z.div_lt_upper_bound; [lia|]. rewrite Nat2Z.inj_succ, Z.pow_succ_r in Hx by lia. exact Hx.
Qed.

Lemma natural_size i : 0 < i < 10 ^ 20 -> blen (json_number i) = digits 20 i 0.
Proof.
  intros Hi. unfold json_number, itoa. rewrite size_bytes. unfold pretty, pretty_Z. destruct i as [|p|p]; [lia| |lia].
  unfold pretty_positive, pretty, pretty_N. rewrite decide_False by lia. rewrite (pretty_digits 20) by (change (Z.of_nat 20) with 20; lia).
  rewrite Z.add_0_r. by rewrite positive_N_Z.
Qed.

Lemma number_size i : is_u64 i -> blen (json_number i) = ExpectedJSONSizeUint64 i.
Proof.
  intros Hi. unfold ExpectedJSONSizeUint64, is_u64 in *. destruct (Z.eqb_spec i 0) as [->|]; [done|]. apply natural_size. lia.
Qed.

Lemma fields_size name v : blen (json_field name v) = slen name + 2 + 1 + blen v.
Proof.
  unfold json_field. rewrite !size_app, size_bytes. change (blen [34]) with 1. change (blen [34; 58]) with 2. lia.
Qed.

(** Objects and arrays. *)
Fixpoint joined_size (l : list (list Z)) : Z :=
  match l with [] => 0 | [x] => blen x | x :: l => blen x + 1 + joined_size l end.

Lemma joined_spec l : blen (joined l) = joined_size l.
Proof.
  induction l as [|x [|y l] IH]; [done..|]. cbn [joined joined_size] in *. rewrite !size_app, IH. change (blen [44]) with 1. lia.
Qed.

Lemma object_size l : blen (json_object l) = 2 + joined_size l.
Proof. unfold json_object. rewrite !size_app, joined_spec. change (blen [123]) with 1. change (blen [125]) with 1. lia. Qed.

(** The texts of a message that [json_string] writes. *)
Definition endpoint_texts (t : IBCEndpoint) : list string := [PortID t; ChannelID t].
Definition channel_texts (t : IBCChannel) : list string :=
  endpoint_texts (Endpoint t) ++ endpoint_texts (CounterpartyEndpoint t) ++ [Order t; Version t; ConnectionID t].
Definition packet_texts (t : IBCPacket) : list string := endpoint_texts (Src t) ++ endpoint_texts (Dest t).
Definition transfer_texts (t : IBCTransferCallback) : list string :=
  concat (map (fun c => [c.1; c.2]) (CbFunds t)) ++ [CbReceiver t; CbSender t].
Definition texts (msg : VmIBCCall) : list string :=
  match msg with
  | IBCOpenInit c | IBCOpenConfirm c | IBCCloseInit c | IBCCloseConfirm c => channel_texts c
  | IBCOpenTry c v | IBCOpenAck c v => channel_texts c ++ [v]
  | IBCPacketReceive p r | IBCPacketTimeout p r | IBCSourceTimeout p r => packet_texts p ++ [r]
  | IBCPacketAck _ p r | IBCSourceAck _ p r => packet_texts p ++ [r]
  | IBCDestination _ p t => packet_texts p ++ match t with Some t => transfer_texts t | None => [] end
  | _ => []
  end.

Fixpoint excess_all (l : list string) : Z := match l with [] => 0 | s :: l => excess s + excess_all l end.

Lemma excess_app a b : excess_all (a ++ b) = excess_all a + excess_all b.
Proof. induction a as [|x a IH]; [done|]. cbn. rewrite IH. lia. Qed.

(** The numbers of a packet are 64 bits wide. *)
Definition block_fits (t : Height) : Prop := is_u64 (RevisionNumber t) /\ is_u64 (RevisionHeight t).
Definition packet_fits (p : IBCPacket) : Prop :=
  is_u64 (IBCSequence p) /\ is_u64 (Timestamp (Timeout p)) /\
  match TimeoutBlock (Timeout p) with Some b => block_fits b | None => True end.
Definition fits (msg : VmIBCCall) : Prop :=
  match msg with
  | IBCPacketReceive p _ | IBCPacketAck _ p _ | IBCPacketTimeout p _ | IBCSourceAck _ p _ | IBCSourceTimeout p _
  | IBCDestination _ p _ => packet_fits p
  | _ => True
  end.

(** Every part of a message has the computed size, up to the excess of its
    texts. *)
Create Rewrite HintDb json.
#[export] Hint Rewrite object_size fields_size string_size binary_size size_app : json.

Ltac sizes := unfold brackets, colon, comma, quotes, null in *; repeat (progress (autorewrite with json; cbn [joined_size app]));
  unfold slen; cbn [String.length Z.of_nat Pos.of_succ_nat Pos.succ excess_all app];
  rewrite ?excess_app; cbn [excess_all]; try lia.

Lemma endpoint_size t : blen (json_endpoint t) = IBCEndpoint_JSONSize t + excess_all (endpoint_texts t).
Proof. unfold json_endpoint, IBCEndpoint_JSONSize, endpoint_texts. sizes. Qed.

Lemma coin_size c : blen (json_coin c) = Coin_JSONSize c + excess_all [c.1; c.2].
Proof. unfold json_coin, Coin_JSONSize. sizes. Qed.

#[export] Hint Rewrite endpoint_size coin_size : json.

Lemma channel_size t : blen (json_channel t) = IBCChannel_JSONSize t + excess_all (channel_texts t).
Proof. unfold json_channel, IBCChannel_JSONSize, channel_texts. sizes. Qed.

Lemma timeout_size t : is_u64 (Timestamp t) -> match TimeoutBlock t with Some b => block_fits b | None => True end ->
  blen (json_timeout t) = IBCTimeout_JSONSize t.
Proof.
  intros Hts Hb. unfold json_timeout, IBCTimeout_JSONSize.
  assert (Hblock : blen (match TimeoutBlock t with Some b => json_block b | None => json_null end) =
    match TimeoutBlock t with Some b => IBCTimeoutBlock_JSONSize b | None => null end).
  { destruct (TimeoutBlock t) as [b|]; [|done]. destruct Hb as [Hr Hh]. unfold json_block, IBCTimeoutBlock_JSONSize.
    sizes. rewrite !number_size by done. lia. }
  destruct (Timestamp t =? 0); cbn [negb]; rewrite object_size; cbn [joined_size]; rewrite !fields_size, Hblock.
  - destruct (TimeoutBlock t); unfold slen; cbn; unfold brackets, colon, null; lia.
  - rewrite !size_app, number_size by done. change (blen [34]) with 1. destruct (TimeoutBlock t); unfold slen; cbn [String.length]; unfold brackets, colon, comma, quotes, null; lia.
Qed.

Lemma packet_size p : packet_fits p -> blen (json_packet p) = IBCPacket_JSONSize p + excess_all (packet_texts p).
Proof.
  intros (Hs&Ht&Hb). unfold json_packet, IBCPacket_JSONSize, packet_texts. sizes.
  rewrite number_size, timeout_size by done. lia.
Qed.

Lemma ack_size a : blen (json_ack a) = IBCAcknowledgement_JSONSize a.
Proof. unfold json_ack, IBCAcknowledgement_JSONSize. sizes. Qed.

Lemma array_size {T} (f : T -> list Z) (sz : T -> Z) (tx : T -> list string) a : (forall x, blen (f x) = sz x + excess_all (tx x)) ->
  blen (json_array f a) = ExpectedJSONSizeArray sz a + excess_all (concat (map tx a)).
Proof.
  intros Hf. unfold json_array. rewrite !size_app, joined_spec. change (blen [91]) with 1. change (blen [93]) with 1.
  destruct a as [|x a]; [done|]. cbn [ExpectedJSONSizeArray map concat].
  assert (joined_size (f x :: map f a) = sz x + array_tail sz a + excess_all (tx x ++ concat (map tx a))) as ->; [|unfold brackets; lia].
  revert x. induction a as [|y a IH]; intros x; [cbn; rewrite Hf, excess_app; cbn; lia|].
  change (joined_size (f x :: map f (y :: a))) with (blen (f x) + 1 + joined_size (f y :: map f a)).
  rewrite IH, Hf. cbn [array_tail map concat]. rewrite !excess_app. unfold comma. lia.
Qed.

Lemma transfer_size t : blen (json_transfer t) = IBCTransferCallback_JSONSize t + excess_all (transfer_texts t).
Proof.
  unfold json_transfer, IBCTransferCallback_JSONSize, transfer_texts. sizes.
  rewrite (array_size json_coin Coin_JSONSize (fun c => [c.1; c.2])) by apply coin_size. lia.
Qed.

#[export] Hint Rewrite channel_size ack_size transfer_size : json.

(** C26: how far the computed size of a message is from the length of its JSON: what
    [encoding/json] writes is longer than the computed size by five bytes for every byte of a text that
    is not valid UTF-8 and by three for every line or paragraph separator, and
    by nothing else; in particular it is never shorter than what is charged. *)
Theorem json_size_exact msg json : json_call msg = Some json -> fits msg ->
  blen json = ExpectedJSONSize msg + excess_all (texts msg).
Proof.
  intros Hj Hf.
  destruct msg as [c|c v|c v|c|c|c|p r|a p r|p r|a p r|p r|a p [t|]|? ? ? ? ?|? ? ? ? ?|? ? ? ? ?|? ? ? ? ?];
    [..|done|done|done|done]; injection Hj as <-; cbn [ExpectedJSONSize texts fits] in *;
    unfold json_only_channel, only_channel_JSONSize, json_versioned, versioned_JSONSize, json_packet_msg, packet_msg_JSONSize,
      json_ack_msg, ack_msg_JSONSize, json_destination, IBCDestinationCallbackMsg_JSONSize; sizes;
    rewrite ?packet_size by done; lia.
Qed.

Lemma int_size i : - 2 ^ 63 < i < 2 ^ 63 -> blen (json_number i) = ExpectedJSONSizeInt i.
Proof.
  intros Hi. unfold ExpectedJSONSizeInt. destruct (Z.leb_spec i 0) as [Hle|Hgt]; [|apply natural_size; lia].
  rewrite i64_small by lia. rewrite digits_out. destruct (Z.eq_dec i 0) as [->|Hne]; [done|].
  pose proof (natural_size (- i) ltac:(lia)) as Hn. destruct i as [|p|p]; [done|lia|]. rewrite <- Hn.
  unfold json_number. rewrite !size_bytes. change (itoa (Z.neg p)) with (String "-" (itoa (Z.pos p))).
  change (- Z.neg p) with (Z.pos p). unfold slen. cbn [String.length]. lia.
Qed.

Module JsonWitness.

Definition channel0 : IBCChannel :=
  mkIBCChannel (mkEndpoint "wasm.terp1x" "channel-0") (mkEndpoint "transfer" "channel-9") "ORDER_ORDERED" "v<1>" "connection-3".
Definition packet0 : IBCPacket :=
  mkIBCPacket "hello" (mkEndpoint "wasm.terp1x" "channel-0") (mkEndpoint "transfer" "channel-9") 18446744073709551615
    (mkTimeout (Some (mkHeight 1 12345)) 1700000000000000000).
Definition call0 : VmIBCCall :=
  IBCDestination "AQ==" packet0 (Some (mkTransferCb "terp1receiver" "osmo1sender" [("uterp", "1")]%string)).

Lemma json_size_exact_witness : option_map blen (json_call call0) = Some (ExpectedJSONSize call0).
Proof.
  destruct (json_call call0) as [json|] eqn:E; [|done]. cbn [option_map]. f_equal.
  rewrite (json_size_exact call0 json E); [by vm_compute|]. by vm_compute.
Defined.

(** A byte that is not valid UTF-8 is written as an escape of six bytes. *)
Lemma invalid_text_undercharged :
  excess (String (ascii_of_nat 255) "") = 5.
Proof. reflexivity. Qed.

(** The least integer is its own negation. *)
Lemma least_int_size : ExpectedJSONSizeInt (- 2 ^ 63) = 1 /\ blen (json_number (- 2 ^ 63)) = 20.
Proof. by vm_compute. Qed.

End JsonWitness.
