(* ===== verification/WasmLifecycle.v ===== *)
(** * x/wasm: the life of a contract

    Uploading code, instantiating, executing and migrating contracts, calls by
    the chain and replies, the admin, label and access configuration, and what
    happens to the response of a contract: its events are emitted under its own
    name and its messages are dispatched one level deeper.  The virtual machine,
    the account and bank keepers and the dispatcher are parameters. *)

From Stdlib Require Import ZArith Lia Ascii.
From stdpp Require Import base gmap strings list.
From S2P Require Import Prelude Sdk SdkRef Store GoLib Bank WasmAccess WasmGas WasmDispatch WasmCircuits.
From S2P Require Import WasmContracts WasmPackets.

(** ** Data *)

(** The state of the chain a contract call can reach: the parts of this module,
    the bank, the accounts, and everything else. *)
Record Chain (B A X : Type) := mkChain {
  ch_params : Params; ch_bank : B; ch_accts : A; ch_reg : Registry; ch_dep : Deposits;
  ch_epoch : option CircuitEpochInfo; ch_con : Contracts; ch_async : AsyncAcks; ch_rest : X }.
Arguments mkChain {B A X}.
Arguments ch_params {B A X}.
Arguments ch_bank {B A X}.
Arguments ch_accts {B A X}.
Arguments ch_reg {B A X}.
Arguments ch_dep {B A X}.
Arguments ch_epoch {B A X}.
Arguments ch_con {B A X}.
Arguments ch_async {B A X}.
Arguments ch_rest {B A X}.

(** What an [sdk.Context] carries besides the state: the block, the gas used in
    the block so far, the position of the transaction and the hash of its bytes,
    the depth of contract calls and the policy for submessages. *)
Record Ctx := mkCtx {
  cBlock : BlockCtx; cNano : Z; cChainID : string; cBlockGas : Z;
  cTxCounter : option Z; cTxHash : string;
  cCallDepth : option Z; cPolicy : option Policy }.

Definition WithCallDepth (ctx : Ctx) (d : Z) : Ctx :=
  mkCtx (cBlock ctx) (cNano ctx) (cChainID ctx) (cBlockGas ctx) (cTxCounter ctx) (cTxHash ctx) (Some d) (cPolicy ctx).
Definition WithSubMsgAuthzPolicy (ctx : Ctx) (p : Policy) : Ctx :=
  mkCtx (cBlock ctx) (cNano ctx) (cChainID ctx) (cBlockGas ctx) (cTxCounter ctx) (cTxHash ctx) (cCallDepth ctx) (Some p).

(** [wasmvmtypes.Env] and [MessageInfo]. *)
Record Env := mkEnv {
  EnvHeight : Z; EnvTime : Z; EnvChainID : string; EnvContract : string; EnvTx : option (Z * string) }.
Record MessageInfo := mkMessageInfo { InfoSender : string; InfoFunds : list (string * string) }.

(** The entry points of a contract, with what they are called with. *)
Inductive VmCall :=
| VmInstantiate (info : MessageInfo) (msg : string)
| VmExecute (info : MessageInfo) (msg : string)
| VmMigrate (msg sender : string) (oldVersion : option Z)
| VmSudo (msg : string)
| VmReply (r : Reply)
| VmIBC (c : VmIBCCall).

(** [wasmvmtypes.Response] and [ContractResult]. *)
Record Response (Msg : Type) := mkResponse {
  Messages : list (SubMsg Msg); RespAttributes : list EventAttribute;
  RespData : option string; RespEvents : list Event }.
Arguments mkResponse {Msg}.
Arguments Messages {Msg}.
Arguments RespAttributes {Msg}.
Arguments RespData {Msg}.
Arguments RespEvents {Msg}.

Record ContractResult (Msg : Type) := mkResult { ResultOk : option (Response Msg); ResultErr : string }.
Arguments mkResult {Msg}.
Arguments ResultOk {Msg}.
Arguments ResultErr {Msg}.

Record AnalysisReport := mkReport {
  HasIBCEntryPoints : bool; RequiredCapabilities : string; ContractMigrateVersion : option Z }.

(** The settings of the keeper. *)
Record Config := mkConfig {
  gasRegister : WasmGasRegisterConfig; maxCallDepth : Z; propagateGovAuthorization : list Action }.

(** ** Dependencies *)

(** The virtual machine.  An entry point runs on the store of its contract and
    on the gas meter, may read the rest of the world through queries, and
    returns an error or a result, which may be nil, with the gas it used. *)
Class WasmVM (W G Msg : Type) := {
  StoreCode : string -> Z -> res string * Z;
  SimulateStoreCode : string -> Z -> res string * Z;
  StoreCodeUnchecked : string -> res string;
  AnalyzeCode : string -> res AnalysisReport;
  VmRun : string -> Env -> VmCall -> Z -> W ->
    M (gmap string string * G) ((string + option (ContractResult Msg)) * Z)
}.

(** The account keeper and accounts: [IsBaseAccount] is membership in the
    accepted account types, [GetOriginalVesting] is defined for vesting accounts. *)
Class AccountKeeper (A Acct : Type) := {
  GetAccount : string -> A -> option Acct;
  NewAccountWithAddress : string -> M A Acct;
  SetAccount : Acct -> M A unit;
  GetAddress : Acct -> string;
  GetSequence : Acct -> Z;
  HasPubKey : Acct -> bool;
  IsBaseAccount : Acct -> bool;
  GetOriginalVesting : Acct -> option (list Coin)
}.

(** The rest of the bank keeper: whether coins may be sent, and the events of a
    transfer. *)
Class BankSend (B : Type) := {
  IsSendEnabledCoins : list Coin -> B -> res unit;
  SendEvents : string -> string -> list Coin -> list SdkEvent
}.

(** Addresses: [address.Module], the format check, the prefix of account
    addresses, [Int.String]. *)
Class AddressOps := {
  address_Module : string -> string -> string;
  VerifyAddressFormat : string -> res unit;
  AccountAddrPrefix : string;
  Int_String : Z -> string
}.

(** [json.Valid], and the methods of a contract info extension. *)
Class JsonOps := { json_Valid : string -> bool }.
Class ExtensionOps := { ext_ValidateBasic : string -> res unit; NewAnyWithValue : string -> res string }.

(** ** Addresses *)

Definition ModuleName : string := "wasm".
Definition ContractAddrLen : nat := 32.
Definition MaxSaltSize : nat := 64.

Section Addresses.
Context `{AddressOps} `{JsonOps} `{Bech32}.

Definition UInt64LengthPrefix (bz : string) : string := (be64s (slen bz) ++ bz)%string.

Definition ValidateSalt (salt : string) : res unit :=
  refuse (String.length salt =? 0)%nat "ErrEmpty";;
  refuse (MaxSaltSize <? String.length salt)%nat "ErrLimit".

Definition RawContractMessage_ValidateBasic (msg : string) : res unit := ensure (json_Valid msg) "ErrInvalid".

(** [address.Module(ModuleName, key)[:ContractAddrLen]]. *)
Definition contract_address (key : string) : res string :=
  let a := address_Module ModuleName key in
  must (ContractAddrLen <=? String.length a)%nat "slice bounds out of range";;
  mret (String.substring 0 ContractAddrLen a).

Definition BuildContractAddressClassic (codeID instanceID : Z) : res string :=
  contract_address (be64s codeID ++ be64s instanceID).

(** An error becomes a panic. *)
Definition must_ok {A} (r : res A) : res A := match r with Err e => Panic e | r => r end.

(** The key of a predictable address. *)
Definition predictable_key (checksum creator salt initMsg : string) : string :=
  (UInt64LengthPrefix checksum ++ UInt64LengthPrefix creator ++ UInt64LengthPrefix salt
   ++ UInt64LengthPrefix initMsg)%string.

Definition BuildContractAddressPredictable (checksum creator salt initMsg : string) : res string :=
  must (String.length checksum =? 32)%nat "invalid checksum";;
  must_ok (VerifyAddressFormat creator);;
  must_ok (ValidateSalt salt);;
  (if (String.length initMsg =? 0)%nat then Ok tt else must_ok (RawContractMessage_ValidateBasic initMsg));;
  contract_address (predictable_key checksum creator salt initMsg).

Definition KeySequenceCodeID : string := "lastCodeId".
Definition KeySequenceInstanceID : string := "lastContractId".

(** An address generator: code id and checksum to an address, on the sequences. *)
Definition ClassicAddressGenerator (codeID : Z) (checksum : string) : M Registry string :=
  instanceID ← mustAutoIncrementID KeySequenceInstanceID;
  lift (BuildContractAddressClassic codeID instanceID).

Definition PredictableAddressGenerator (creator salt msg : string) (fixMsg : bool) (codeID : Z) (checksum : string)
    : M Registry string :=
  lift (BuildContractAddressPredictable checksum creator salt (if fixMsg then msg else "")).

Definition PortIDForContract (addr : string) : string := ("wasm." ++ address_text addr)%string.
Definition PortIDForContractV2 (addr : string) : string :=
  ("wasm2" ++ TrimPrefix (address_text addr) AccountAddrPrefix)%string.

Definition ContractFromPortID (portID : string) : res string :=
  ensure (String.prefix "wasm." portID) "ErrInvalid";;
  AccAddressFromBech32 (strip_prefix "wasm." portID).

Definition ContractFromPortID2 (portID : string) : res string :=
  ensure (String.prefix "wasm2" portID) "ErrInvalid";;
  AccAddressFromBech32 (AccountAddrPrefix ++ strip_prefix "wasm2" portID).

End Addresses.

(** ** Events of a contract *)

Definition attr (k v : string) : SdkAttr := mkSdkAttr k v false.

Section ContractEvents.
Context `{Bech32}.

Fixpoint custom_attributes (l : list EventAttribute) : res (list SdkAttr) :=
  match l with
  | [] => mret []
  | a :: l =>
      let key := TrimSpace (Key a) in
      refuse (String.length key =? 0)%nat "ErrInvalidEvent";;
      let value := TrimSpace (Value a) in
      refuse (String.prefix "_" key) "ErrInvalidEvent";;
      r ← custom_attributes l;
      mret (attr key value :: r)
  end.

Definition contractSDKEventAttributes (customAttributes : list EventAttribute) (contractAddr : string)
    : res (list SdkAttr) :=
  r ← custom_attributes customAttributes;
  mret (attr "_contract_address" (address_text contractAddr) :: r).

Definition newWasmModuleEvent (customAttributes : list EventAttribute) (contractAddr : string)
    : res (list SdkEvent) :=
  attrs ← contractSDKEventAttributes customAttributes contractAddr;
  mret [mkSdkEvent "wasm" attrs].

Definition eventTypeMinLength : nat := 2.

Fixpoint newCustomEvents (evts : list Event) (contractAddr : string) : res (list SdkEvent) :=
  match evts with
  | [] => mret []
  | e :: evts =>
      let errType := TrimSpace (Type_ e) in
      refuse (String.length errType <=? eventTypeMinLength)%nat "ErrInvalidEvent";;
      attributes ← contractSDKEventAttributes (Attributes e) contractAddr;
      r ← newCustomEvents evts contractAddr;
      mret (mkSdkEvent ("wasm-" ++ errType) attributes :: r)
  end.

End ContractEvents.

(** ** Contexts *)

Definition NewAbsoluteTxPosition (ctx : Ctx) : res AbsoluteTxPosition :=
  must (negb (BlockHeight (cBlock ctx) <? 0)) "unsupported height";;
  mret (mkPos (u64 (BlockHeight (cBlock ctx))) (cBlockGas ctx)).

Definition NewEnv `{Bech32} (ctx : Ctx) (contractAddr : string) : res Env :=
  must (negb (BlockHeight (cBlock ctx) <? 0)) "Block height must never be negative";;
  must (negb (cNano ctx <? 1)) "Block (unix) time must never be empty or negative";;
  mret (mkEnv (u64 (BlockHeight (cBlock ctx))) (u64 (cNano ctx)) (cChainID ctx) (address_text contractAddr)
    (match cTxCounter ctx with Some n => Some (n, cTxHash ctx) | None => None end)).

Definition NewWasmCoins `{AddressOps} (c : list Coin) : list (string * string) :=
  map (fun x => (Denom x, Int_String (Amount x))) c.

Definition NewInfo `{AddressOps} `{Bech32} (creator : string) (deposit : list Coin) : MessageInfo :=
  mkMessageInfo (address_text creator) (NewWasmCoins deposit).

Definition checkAndIncreaseCallDepth (ctx : Ctx) (max : Z) : res Ctx :=
  let callDepth := u32 (default 0 (cCallDepth ctx) + 1) in
  refuse (max <? callDepth) "ErrExceedMaxCallDepth";;
  mret (WithCallDepth ctx callDepth).

(** The contracts already executed in the transaction, by checksum; the set is
    nil when no decorator has put one into the context. *)
Definition checkDiscountEligibility (txContracts : option (gset string)) (checksum : string) (isPinned : bool)
    : option (gset string) * bool :=
  if isPinned then (txContracts, true)
  else match txContracts with
       | None => (txContracts, false)
       | Some s =>
           if bool_decide (hex_encode checksum ∈ s) then (txContracts, true)
           else (Some (if (String.length checksum =? 0)%nat then s else {[hex_encode checksum]} ∪ s), false)
       end.

(** ** Operations *)

Section Lifecycle.
Context {B A Acct X G Msg : Type} `{BankOps B} `{BankSend B} `{AccountKeeper A Acct} `{GasMeterOps G}
  `{Bech32} `{AddrPrefix} `{CircuitVM} `{AddressOps} `{JsonOps} `{ExtensionOps} `{SdkCoins}
  `{WasmVM (World (Chain B A X) G) G Msg}.
Context (cfg : Config).

Abbreviation S := (Chain B A X).
Abbreviation W := (World S G).

Definition set_params (p : Params) (s : S) : S :=
  mkChain p (ch_bank s) (ch_accts s) (ch_reg s) (ch_dep s) (ch_epoch s) (ch_con s) (ch_async s)
    (ch_rest s).
Definition set_chbank (b : B) (s : S) : S :=
  mkChain (ch_params s) b (ch_accts s) (ch_reg s) (ch_dep s) (ch_epoch s) (ch_con s) (ch_async s)
    (ch_rest s).
Definition set_accts (a : A) (s : S) : S :=
  mkChain (ch_params s) (ch_bank s) a (ch_reg s) (ch_dep s) (ch_epoch s) (ch_con s) (ch_async s)
    (ch_rest s).
Definition set_chreg (r : Registry) (s : S) : S :=
  mkChain (ch_params s) (ch_bank s) (ch_accts s) r (ch_dep s) (ch_epoch s) (ch_con s) (ch_async s)
    (ch_rest s).
Definition set_con (c : Contracts) (s : S) : S :=
  mkChain (ch_params s) (ch_bank s) (ch_accts s) (ch_reg s) (ch_dep s) (ch_epoch s) c (ch_async s)
    (ch_rest s).
Definition set_async (a : AsyncAcks) (s : S) : S :=
  mkChain (ch_params s) (ch_bank s) (ch_accts s) (ch_reg s) (ch_dep s) (ch_epoch s) (ch_con s) a (ch_rest s).
Definition set_rest (x : X) (s : S) : S :=
  mkChain (ch_params s) (ch_bank s) (ch_accts s) (ch_reg s) (ch_dep s) (ch_epoch s) (ch_con s) (ch_async s) x.

(** Parts of the world. *)
Definition with_bank {T} (m : M B T) : M W T :=
  zoom (fun w => ch_bank (store w)) (fun b w => set_store (set_chbank b (store w)) w) m.
Definition with_accts {T} (m : M A T) : M W T :=
  zoom (fun w => ch_accts (store w)) (fun a w => set_store (set_accts a (store w)) w) m.
Definition with_reg {T} (m : M Registry T) : M W T :=
  zoom (fun w => ch_reg (store w)) (fun r w => set_store (set_chreg r (store w)) w) m.
Definition with_con {T} (m : M Contracts T) : M W T :=
  zoom (fun w => ch_con (store w)) (fun c w => set_store (set_con c (store w)) w) m.
Definition with_async {T} (m : M AsyncAcks T) : M W T :=
  zoom (fun w => ch_async (store w)) (fun a w => set_store (set_async a (store w)) w) m.
Definition with_rest {T} (m : M X T) : M W T :=
  zoom (fun w => ch_rest (store w)) (fun x w => set_store (set_rest x (store w)) w) m.

Definition emit (l : list SdkEvent) : M W unit := modify (fun w => set_evs (evs w ++ l) w).

Definition consume_runtime (gas : Z) : M W unit := zoom meter set_meter (consumeRuntimeGas (gasRegister cfg) gas).

Definition runtime_gas : M W Z :=
  m ← gets meter;
  lift (runtimeGasForContract (gasRegister cfg) m).

(** *** Uploading code *)

Definition getUploadAccessConfig (s : S) : AccessConfig := CodeUploadAccess (ch_params s).
Definition getInstantiateAccessConfig (s : S) : AccessType := InstantiateDefaultPermission (ch_params s).

Definition GetCodeInfo (codeID : Z) (s : S) : option CodeInfo := codes (ch_reg s) !! codeID.

Definition mustStoreCodeInfo (codeID : Z) (info : CodeInfo) : M W unit :=
  with_reg (modify (set_codes <[codeID := info]>)).

(** Charging for and unpacking a compressed code. *)
Definition uncompress_code (wasmCode : string) : M W string :=
  if IsGzip wasmCode then
    c ← lift (UncompressCosts (gasRegister cfg) (slen wasmCode));
    charge c;;
    lift (create_failed (Uncompress wasmCode MaxWasmSize))
  else mret wasmCode.

(** Who may create code, and the access configuration it gets. *)
Definition authorize_create (creator : string) (instantiateAccess : option AccessConfig) (authZ : Policy)
    : M W AccessConfig :=
  s ← gets store;
  defaultAccessConfig ← lift (With (getInstantiateAccessConfig s) [creator]);
  let access := default defaultAccessConfig instantiateAccess in
  can ← lift (CanCreateCode authZ (mkChainConfigs (getUploadAccessConfig s) defaultAccessConfig) creator access);
  ensureM can "ErrUnauthorized";;
  mret access.

(** The capabilities a code requires; a simulation gets the default.  They are
    computed for the event, but [AppendAttributes] returns the longer event
    instead of changing it, and its result is not used: no attribute is added. *)
Definition required_capabilities (ctx : Ctx) (checksum : string) : M W string :=
  if Simulate (cBlock ctx) then mret ""%string
  else
    report ← lift (create_failed (AnalyzeCode checksum));
    mret (RequiredCapabilities report).

Definition create (ctx : Ctx) (creator wasmCode : string) (instantiateAccess : option AccessConfig)
    (authZ : Policy) : M W (Z * string) :=
  refuseM (bool_decide (creator = ""%string)) "ErrInvalidAddress";;
  access ← authorize_create creator instantiateAccess authZ;
  wasmCode ← uncompress_code wasmCode;
  gasLeft ← runtime_gas;
  let '(checksum, gasUsed) :=
    if Simulate (cBlock ctx) then SimulateStoreCode wasmCode gasLeft else StoreCode wasmCode gasLeft in
  consume_runtime gasUsed;;
  checksum ← lift (create_failed checksum);
  required_capabilities ctx checksum;;
  codeID ← with_reg (mustAutoIncrementID KeySequenceCodeID);
  mustStoreCodeInfo codeID (mkCodeInfo checksum (address_text creator) access);;
  emit [mkSdkEvent "store_code"
    [attr "code_checksum" (hex_encode checksum); attr "code_id" (itoa codeID)]];;
  mret (codeID, checksum).

(** The gas of the two uploads is charged together; a code without a circuit is
    refused after both have been stored in the machine. *)
Definition create_with_circuit (ctx : Ctx) (creator wasmCode : string) (vkCode : option string)
    (instantiateAccess : option AccessConfig) (authZ : Policy) : M W (Z * Z * (string * string)) :=
  refuseM (bool_decide (creator = ""%string)) "ErrInvalidAddress";;
  access ← authorize_create creator instantiateAccess authZ;
  wasmCode ← uncompress_code wasmCode;
  gasLeft ← runtime_gas;
  let '(wasmChecksum, used1) :=
    if Simulate (cBlock ctx) then SimulateStoreCode wasmCode gasLeft else StoreCode wasmCode gasLeft in
  match wasmChecksum with
  | Err _ => consume_runtime used1;; throw "ErrCreateFailed"
  | Panic p => panic p
  | Ok wasmChecksum =>
      gasLeft ← runtime_gas;
      let '(circuitKey, totalGasUsed) :=
        match vkCode with
        | Some vk =>
            let '(r, used2) :=
              if Simulate (cBlock ctx) then SimulateStoreCircuit vk gasLeft else StoreCircuit vk gasLeft in
            (r, u64 (used1 + used2))
        | None => (Ok ""%string, used1)
        end in
      consume_runtime totalGasUsed;;
      circuitKey ← lift (create_failed circuitKey);
      ensureM (String.length wasmChecksum =? 32)%nat "ErrCreateFailed";;
      refuseM (String.length circuitKey =? 0)%nat "ErrCreateFailed";;
      ensureM (String.length circuitKey =? 72)%nat "ErrCreateFailed";;
      required_capabilities ctx wasmChecksum;;
      codeID ← with_reg (mustAutoIncrementID KeySequenceCodeID);
      zkID ← with_reg (mustAutoIncrementIDUint32 KeySequenceCircuitID);
      mustStoreCodeInfo codeID (mkCodeInfo wasmChecksum (address_text creator) access);;
      with_reg (modify (set_infos <[zkID := mkCircuitInfo circuitKey (address_text creator) access 0 0 0 0]>));;
      with_reg (setCircuitCreatorIndex creator zkID);;
      with_reg (modify (set_blobs <[zkID := default ""%string vkCode]>));;
      emit [mkSdkEvent "store_code_circuit"
        [attr "code_checksum" (hex_encode wasmChecksum); attr "circuit_checksum" (hex_encode circuitKey);
         attr "code_id" (itoa codeID); attr "zk_id" (itoa zkID)]];;
      mret (codeID, 0, (wasmChecksum, circuitKey))
  end.

(** *** Funds and accounts *)

(** [BankCoinTransferrer.TransferCoins]: the events of the transfer are passed
    on, except those of type message. *)
Definition TransferCoins (fromAddr toAddr : string) (amount : list Coin) : M W unit :=
  b ← gets (fun w => ch_bank (store w));
  lift (IsSendEnabledCoins amount b);;
  refuseM (BlockedAddr toAddr) "ErrUnauthorized";;
  with_bank (SendCoins fromAddr toAddr amount);;
  emit (filterEvents (SendEvents fromAddr toAddr amount)).

(** [VestingCoinBurner.CleanupExistingAccount]. *)
Definition CleanupExistingAccount (existingAcc : Acct) : M W bool :=
  match GetOriginalVesting existingAcc with
  | None => mret false
  | Some orig =>
      b ← gets (fun w => ch_bank (store w));
      let coinsToBurn := map (fun c => mkCoin (Denom c) (balance b (GetAddress existingAcc) (Denom c))) orig in
      with_bank (SendCoinsFromAccountToModule (GetAddress existingAcc) ModuleName coinsToBurn);;
      with_bank (BurnCoins ModuleName coinsToBurn);;
      mret true
  end.

(** [Coins.IsZero]. *)
Definition Coins_IsZero (c : list Coin) : bool := forallb (fun x => Amount x =? 0) c.

Definition transfer_funds (from to : string) (coins : list Coin) : M W unit :=
  if Coins_IsZero coins then mret tt else TransferCoins from to coins.

(** Making sure that the contract address has an account of its own. *)
Definition claim_account (contractAddress : string) : M W unit :=
  existing ← gets (fun w => GetAccount contractAddress (ch_accts (store w)));
  match existing with
  | Some acct =>
      refuseM (negb (GetSequence acct =? 0) || HasPubKey acct) "ErrAccountExists";;
      if IsBaseAccount acct then mret tt
      else
        contractAccount ← with_accts (NewAccountWithAddress contractAddress);
        with_accts (SetAccount contractAccount);;
        handled ← CleanupExistingAccount acct;
        ensureM handled "ErrAccountExists"
  | None =>
      contractAccount ← with_accts (NewAccountWithAddress contractAddress);
      with_accts (SetAccount contractAccount)
  end.

(** *** Calling a contract *)

(** The call itself: only the store of the contract and the gas meter change. *)
Definition vm_step (addr checksum : string) (env : Env) (call : VmCall) (gasLeft : Z)
    : M W ((string + option (ContractResult Msg)) * Z) := fun w =>
  let '(r, (cs, g)) := VmRun checksum env call gasLeft w (contract_state addr (ch_con (store w)), meter w) in
  (r, set_meter g (set_store (set_con (set_cstates <[addr := cs]> (ch_con (store w))) (store w)) w)).

(** Calling an entry point and looking at what it returned; [failed] is the
    error a contract error becomes. *)
Definition call_contract (addr checksum : string) (env : Env) (call : VmCall) (failed : string)
    : M W (Response Msg) :=
  gasLeft ← runtime_gas;
  out ← vm_step addr checksum env call gasLeft;
  consume_runtime out.2;;
  match out.1 with
  | inl _ | inr None => throw "ErrVMError"
  | inr (Some r) =>
      ensureM (bool_decide (ResultErr r = ""%string)) failed;;
      match ResultOk r with
      | None => throw "ErrVMError"
      | Some resp => mret resp
      end
  end.

(** The setup cost.  No context carries a set of executed contracts: the
    decorator that would put one there is not part of the ante chain. *)
Definition charge_setup (codeID : Z) (checksum msg : string) : M W unit :=
  pinned ← gets (fun w => IsPinnedCode codeID (ch_reg (store w)));
  let '(_, discount) := checkDiscountEligibility None checksum pinned in
  setupCost ← lift (SetupContractCost (gasRegister cfg) discount (slen msg));
  charge setupCost.

Definition contractInstance (contractAddress : string) : M W (ContractInfo * CodeInfo) :=
  s ← gets store;
  match GetContractInfo contractAddress (ch_con s) with
  | None => throw "ErrNoSuchContract"
  | Some contractInfo =>
      match GetCodeInfo (CodeID contractInfo) s with
      | None => throw "ErrNoSuchCode"
      | Some codeInfo => mret (contractInfo, codeInfo)
      end
  end.

(** *** The response of a contract *)

(** The dispatcher of submessages, which the response handler calls one level
    deeper. *)
Context (DispatchSubs : Ctx -> string -> string -> list (SubMsg Msg) -> M W (option string)).

(** [DefaultWasmVMContractResponseHandler.Handle]. *)
Definition Handle (ctx : Ctx) (contractAddr ibcPort : string) (messages : list (SubMsg Msg))
    (origRspData : option string) : M W (option string) :=
  rsp ← DispatchSubs ctx contractAddr ibcPort messages;
  mret (match rsp with Some d => Some d | None => origRspData end).

Definition handleContractResponse (ctx : Ctx) (contractAddr ibcPort : string) (r : Response Msg)
    : M W (option string) :=
  attributeGasCost ← lift (EventCosts (gasRegister cfg) (RespAttributes r) (RespEvents r));
  charge attributeGasCost;;
  (match RespAttributes r with
   | [] => mret tt
   | attrs => wasmEvents ← lift (newWasmModuleEvent attrs contractAddr); emit wasmEvents
   end);;
  (match RespEvents r with
   | [] => mret tt
   | evts => customEvents ← lift (newCustomEvents evts contractAddr); emit customEvents
   end);;
  ctx ← lift (checkAndIncreaseCallDepth ctx (maxCallDepth cfg));
  Handle ctx contractAddr ibcPort (Messages r) (RespData r).

(** *** Entry points *)

Definition contract_event (ty addr : string) : SdkEvent := mkSdkEvent ty [attr "_contract_address" (address_text addr)].

(** What is recorded of a new contract, before its messages run. *)
Definition record_contract (contractAddress creator : string) (contractInfo : ContractInfo) (initMsg : string)
    : M W unit :=
  let historyEntry := InitialHistory contractInfo initMsg in
  with_con (addToContractCodeSecondaryIndex contractAddress historyEntry);;
  with_con (addToContractCreatorSecondaryIndex creator (Updated historyEntry) contractAddress);;
  with_con (appendToContractHistory contractAddress [historyEntry]);;
  with_con (mustStoreContractInfo contractAddress contractInfo).

Definition vm_error {T} : res T -> res T := wrap_err "ErrVMError".

Definition instantiate (ctx : Ctx) (codeID : Z) (creator admin initMsg label : string) (deposit : list Coin)
    (addressGenerator : Z -> string -> M Registry string) (authPolicy : Policy) : M W (string * option string) :=
  refuseM (bool_decide (creator = ""%string)) "ErrEmpty";;
  info ← gets (fun w => GetCodeInfo codeID (store w));
  match info with
  | None => throw "ErrNoSuchCode"
  | Some codeInfo =>
      charge_setup codeID (CodeHash codeInfo) initMsg;;
      can ← lift (CanInstantiateContract authPolicy (CodeConfig codeInfo) creator);
      ensureM can "ErrUnauthorized";;
      contractAddress ← with_reg (addressGenerator codeID (CodeHash codeInfo));
      has ← gets (fun w => HasContractInfo contractAddress (ch_con (store w)));
      refuseM has "ErrDuplicate";;
      claim_account contractAddress;;
      transfer_funds creator contractAddress deposit;;
      env ← lift (NewEnv ctx contractAddress);
      res ← call_contract contractAddress (CodeHash codeInfo) env
              (VmInstantiate (NewInfo creator deposit) initMsg) "ErrInstantiateFailed";
      createdAt ← lift (NewAbsoluteTxPosition ctx);
      report ← lift (vm_error (AnalyzeCode (CodeHash codeInfo)));
      let ibcPort := if HasIBCEntryPoints report then PortIDForContract contractAddress else ""%string in
      let contractInfo := set_ports ibcPort (PortIDForContractV2 contractAddress)
        (NewContractInfo codeID creator admin label (Some createdAt)) in
      record_contract contractAddress creator contractInfo initMsg;;
      emit [mkSdkEvent "instantiate" [attr "_contract_address" (address_text contractAddress);
                                      attr "code_id" (itoa codeID)]];;
      let ctx := WithSubMsgAuthzPolicy ctx (SubMessageAuthorizationPolicy authPolicy AuthZActionInstantiate) in
      data ← handleContractResponse ctx contractAddress (IBCPortID contractInfo) res;
      mret (contractAddress, data)
  end.

Definition execute (ctx : Ctx) (contractAddress caller msg : string) (coins : list Coin) : M W (option string) :=
  inst ← contractInstance contractAddress;
  let '(contractInfo, codeInfo) := inst in
  charge_setup (CodeID contractInfo) (CodeHash codeInfo) msg;;
  transfer_funds caller contractAddress coins;;
  env ← lift (NewEnv ctx contractAddress);
  res ← call_contract contractAddress (CodeHash codeInfo) env (VmExecute (NewInfo caller coins) msg) "ErrExecuteFailed";
  emit [contract_event "execute" contractAddress];;
  handleContractResponse ctx contractAddress (IBCPortID contractInfo) res.

Definition Sudo (ctx : Ctx) (contractAddress msg : string) : M W (option string) :=
  inst ← contractInstance contractAddress;
  let '(contractInfo, codeInfo) := inst in
  charge_setup (CodeID contractInfo) (CodeHash codeInfo) msg;;
  env ← lift (NewEnv ctx contractAddress);
  res ← call_contract contractAddress (CodeHash codeInfo) env (VmSudo msg) "ErrExecuteFailed";
  emit [contract_event "sudo" contractAddress];;
  handleContractResponse ctx contractAddress (IBCPortID contractInfo) res.

Definition keeper_reply (ctx : Ctx) (contractAddress : string) (r : Reply) : M W (option string) :=
  inst ← contractInstance contractAddress;
  let '(contractInfo, codeInfo) := inst in
  replyCosts ← lift (ReplyCosts (gasRegister cfg) true r);
  charge replyCosts;;
  env ← lift (NewEnv ctx contractAddress);
  res ← call_contract contractAddress (CodeHash codeInfo) env (VmReply r) "ErrExecuteFailed";
  emit [contract_event "reply" contractAddress];;
  handleContractResponse ctx contractAddress (IBCPortID contractInfo) res.

Definition callMigrateEntrypoint (ctx : Ctx) (contractAddress newChecksum msg : string) (newCodeID : Z)
    (senderAddress : string) (oldMigrateVersion : option Z) : M W (Response Msg) :=
  charge_setup newCodeID newChecksum msg;;
  env ← lift (NewEnv ctx contractAddress);
  call_contract contractAddress newChecksum env
    (VmMigrate msg (address_text senderAddress) oldMigrateVersion) "ErrMigrationFailed".

(** The port of a contract after a migration, or why it may not migrate. *)
Definition migrated_port (report : AnalysisReport) (contractAddress port : string) : res string :=
  refuse (negb (HasIBCEntryPoints report) && negb (bool_decide (port = ""%string))) "ErrMigrationFailed";;
  mret (if HasIBCEntryPoints report && bool_decide (port = ""%string) then PortIDForContract contractAddress else port).

(** The entry point is skipped when both codes declare the same version. *)
Definition same_version (a b : option Z) : bool :=
  match a, b with Some x, Some y => x =? y | _, _ => false end.

(** What is recorded of a migration, before its messages run. *)
Definition record_migration (ctx : Ctx) (contractAddress : string) (contractInfo : ContractInfo) (newCodeID : Z)
    (msg : string) : M W unit :=
  c ← gets (fun w => ch_con (store w));
  old ← lift (mustGetLastContractHistoryEntry contractAddress c);
  with_con (removeFromContractCodeSecondaryIndex contractAddress old);;
  at_ ← lift (NewAbsoluteTxPosition ctx);
  let '(historyEntry, contractInfo) := AddMigration at_ newCodeID msg contractInfo in
  with_con (appendToContractHistory contractAddress [historyEntry]);;
  with_con (addToContractCodeSecondaryIndex contractAddress historyEntry);;
  with_con (mustStoreContractInfo contractAddress contractInfo).

Definition migrate (ctx : Ctx) (contractAddress caller : string) (newCodeID : Z) (msg : string) (authZ : Policy)
    : M W (option string) :=
  s ← gets store;
  match GetContractInfo contractAddress (ch_con s) with
  | None => throw "ErrInvalidRequest"
  | Some contractInfo =>
      admin ← lift (AdminAddr contractInfo);
      ensureM (CanModifyContract authZ admin caller) "ErrUnauthorized";;
      match GetCodeInfo newCodeID s with
      | None => throw "ErrInvalidRequest"
      | Some newCodeInfo =>
          can ← lift (CanInstantiateContract authZ (CodeConfig newCodeInfo) caller);
          ensureM can "ErrUnauthorized";;
          report ← lift (vm_error (AnalyzeCode (CodeHash newCodeInfo)));
          port ← lift (migrated_port report contractAddress (IBCPortID contractInfo));
          let contractInfo := set_ports port (PortIDForContractV2 contractAddress) contractInfo in
          oldHash ← lift (match GetCodeInfo (CodeID contractInfo) s with
                          | Some i => Ok (CodeHash i)
                          | None => Panic "nil pointer dereference"
                          end);
          oldReport ← lift (vm_error (AnalyzeCode oldHash));
          response ← (if same_version (ContractMigrateVersion report) (ContractMigrateVersion oldReport) then mret None
                      else r ← callMigrateEntrypoint ctx contractAddress (CodeHash newCodeInfo) msg newCodeID caller
                             (ContractMigrateVersion oldReport);
                           mret (Some r));
          record_migration ctx contractAddress contractInfo newCodeID msg;;
          emit [mkSdkEvent "migrate" [attr "code_id" (itoa newCodeID);
                                      attr "_contract_address" (address_text contractAddress)]];;
          match response with
          | None => mret None
          | Some r =>
              let ctx := WithSubMsgAuthzPolicy ctx (SubMessageAuthorizationPolicy authZ AuthZActionMigrateContract) in
              handleContractResponse ctx contractAddress port r
          end
      end
  end.

(** *** Administration *)

Definition setContractAdmin (contractAddress caller newAdmin : string) (authZ : Policy) : M W unit :=
  info ← gets (fun w => GetContractInfo contractAddress (ch_con (store w)));
  match info with
  | None => throw "ErrInvalidRequest"
  | Some contractInfo =>
      admin ← lift (AdminAddr contractInfo);
      ensureM (CanModifyContract authZ admin caller) "ErrUnauthorized";;
      let newAdminStr := address_text newAdmin in
      with_con (mustStoreContractInfo contractAddress (set_admin newAdminStr contractInfo));;
      emit [mkSdkEvent "update_contract_admin" [attr "_contract_address" (address_text contractAddress);
                                                attr "new_admin_address" newAdminStr]]
  end.

Definition setContractLabel (contractAddress caller newLabel : string) (authZ : Policy) : M W unit :=
  info ← gets (fun w => GetContractInfo contractAddress (ch_con (store w)));
  match info with
  | None => throw "ErrInvalidRequest"
  | Some contractInfo =>
      admin ← lift (AdminAddr contractInfo);
      ensureM (CanModifyContract authZ admin caller) "ErrUnauthorized";;
      with_con (mustStoreContractInfo contractAddress (set_label newLabel contractInfo));;
      emit [mkSdkEvent "update_contract_label" [attr "_contract_address" (address_text contractAddress);
                                                attr "new_label" newLabel]]
  end.

Definition SetExtension (ext : option string) (c : ContractInfo) : res ContractInfo :=
  match ext with
  | None => mret (set_extension None c)
  | Some e =>
      ext_ValidateBasic e;;
      any ← wrap_err "ErrPackAny" (NewAnyWithValue e);
      mret (set_extension (Some any) c)
  end.

Definition setContractInfoExtension (contractAddr : string) (ext : option string) : M W unit :=
  info ← gets (fun w => GetContractInfo contractAddr (ch_con (store w)));
  match info with
  | None => throw "ErrNoSuchContract"
  | Some info =>
      info ← lift (SetExtension ext info);
      with_con (mustStoreContractInfo contractAddr info)
  end.

Definition permission_name (a : AccessType) : string :=
  match a with
  | AccessTypeUnspecified => "Unspecified"
  | AccessTypeNobody => "Nobody"
  | AccessTypeEverybody => "Everybody"
  | AccessTypeAnyOfAddresses => "AnyOfAddresses"
  end.

Definition AllAuthorizedAddresses (a : AccessConfig) : list string :=
  if bool_decide (Permission a = AccessTypeAnyOfAddresses) then Addresses a else [].

Definition setAccessConfig (codeID : Z) (caller : string) (newConfig : AccessConfig) (authz : Policy) : M W unit :=
  s ← gets store;
  match GetCodeInfo codeID s with
  | None => throw "ErrNoSuchCode"
  | Some info =>
      let isSubset := AccessType_IsSubset (Permission newConfig) (getInstantiateAccessConfig s) in
      creator ← lift (must_ok (AccAddressFromBech32 (CodeCreator info)));
      ensureM (CanModifyCodeAccessConfig authz creator caller isSubset) "ErrUnauthorized";;
      mustStoreCodeInfo codeID (mkCodeInfo (CodeHash info) (CodeCreator info) newConfig);;
      emit [mkSdkEvent "update_code_access_config"
        ([attr "code_permission" (permission_name (Permission newConfig)); attr "code_id" (itoa codeID)]
         ++ match AllAuthorizedAddresses newConfig with
            | [] => []
            | addrs => [attr "authorized_addresses" (join_with "," addrs)]
            end)]
  end.

End Lifecycle.

(** ** Addresses identify what they were built from *)

Section AddressProofs.
Context `{AddressOps} `{JsonOps} `{Bech32}.

(** What a contract address is built from. *)
Inductive AddressSource := FromClassic (codeID instanceID : Z) | FromPredictable (checksum creator salt initMsg : string).

Definition source_ok (x : AddressSource) : Prop :=
  match x with
  | FromClassic c i => is_u64 c /\ is_u64 i
  | FromPredictable c cr s m => is_u64 (slen c) /\ is_u64 (slen cr) /\ is_u64 (slen s) /\ is_u64 (slen m)
  end.

Definition build_address (x : AddressSource) : res string :=
  match x with
  | FromClassic c i => BuildContractAddressClassic c i
  | FromPredictable c cr s m => BuildContractAddressPredictable c cr s m
  end.

Lemma prefixed_inj x y a b : is_u64 (slen x) -> is_u64 (slen y) ->
  (UInt64LengthPrefix x ++ a)%string = (UInt64LengthPrefix y ++ b)%string -> x = y /\ a = b.
Proof.
  unfold UInt64LengthPrefix. intros Hx Hy E. rewrite <- !string_app_assoc in E.
  apply string_app_inj_len_l in E as [Hl%be64s_inj E]; [|done..|by rewrite !be64s_length].
  apply string_app_inj_len_l in E; [done|]. unfold slen in Hl. lia.
Qed.

Lemma predictable_key_inj c cr s m c' cr' s' m' :
  source_ok (FromPredictable c cr s m) -> source_ok (FromPredictable c' cr' s' m') ->
  predictable_key c cr s m = predictable_key c' cr' s' m' -> c = c' /\ cr = cr' /\ s = s' /\ m = m'.
Proof.
  intros (?&?&?&?) (?&?&?&?) E. unfold predictable_key in E.
  apply prefixed_inj in E as [-> E]; [|done..]. apply prefixed_inj in E as [-> E]; [|done..].
  apply prefixed_inj in E as [-> E]; [|done..].
  rewrite <- (string_app_nil_r (UInt64LengthPrefix m)), <- (string_app_nil_r (UInt64LengthPrefix m')) in E.
  by apply prefixed_inj in E as [-> _].
Qed.

Definition source_key (x : AddressSource) : string :=
  match x with FromClassic c i => be64s c ++ be64s i | FromPredictable c cr s m => predictable_key c cr s m end.

Lemma source_key_inj x y : source_ok x -> source_ok y -> source_key x = source_key y -> x = y.
Proof.
  assert (Hlong : forall c cr s m c' i', (be64s c' ++ be64s i')%string <> predictable_key c cr s m).
  { intros c cr s m c' i' E. apply (f_equal String.length) in E. unfold predictable_key, UInt64LengthPrefix in E.
    rewrite !string_app_length, !be64s_length in E. lia. }
  destruct x as [c i|c cr s m], y as [c' i'|c' cr' s' m']; cbn [source_key]; intros Hx Hy E.
  - destruct Hx, Hy. apply string_app_inj_len_l in E as [->%be64s_inj ->%be64s_inj]; [done..|by rewrite !be64s_length].
  - by apply Hlong in E.
  - symmetry in E. by apply Hlong in E.
  - apply predictable_key_inj in E as (->&->&->&->); done.
Qed.

Lemma build_address_key x a : build_address x = Ok a -> contract_address (source_key x) = Ok a.
Proof.
  destruct x as [c i|c cr s m]; cbn; [done|]. unfold BuildContractAddressPredictable.
  intros E. do 4 (apply res_bind_Ok in E as (?&_&E)). exact E.
Qed.

(** C33: two contract addresses, classic or predictable, are equal only if they
    were built from the same code and instance, or from the same checksum,
    creator, salt and message, unless the hashes of their two different keys
    collide. *)
Theorem addresses_identify_sources x y a : source_ok x -> source_ok y ->
  build_address x = Ok a -> build_address y = Ok a ->
  x = y \/ source_key x <> source_key y /\
    String.substring 0 ContractAddrLen (address_Module ModuleName (source_key x)) =
    String.substring 0 ContractAddrLen (address_Module ModuleName (source_key y)).
Proof.
  intros Hx Hy Ex Ey. apply build_address_key in Ex, Ey.
  destruct (decide (source_key x = source_key y)) as [E|E]; [left; by apply source_key_inj|right].
  split; [done|]. unfold contract_address in Ex, Ey.
  apply res_bind_Ok in Ex as (_&_&[= Ex]). apply res_bind_Ok in Ey as (_&_&[= Ey]). by rewrite Ex, Ey.
Qed.

End AddressProofs.

(** ** What a contract's response does *)

Section ResponseProofs.
Context {B A X G Msg : Type} `{GasMeterOps G} `{Bech32}.
Context (cfg : Config).

Abbreviation W := (World (Chain B A X) G).

(** An event a contract may cause: of the module's type or of a custom one, led
    by the address of the contract, with no other reserved attribute. *)
Definition attributed (contract : string) (e : SdkEvent) : Prop :=
  (EType e = "wasm"%string \/ exists t, EType e = ("wasm-" ++ t)%string) /\
  exists rest, EAttributes e = attr "_contract_address" (address_text contract) :: rest /\
    Forall (fun a => AKey a <> ""%string /\ forall t, AKey a <> ("_" ++ t)%string) rest.

Lemma custom_attributes_ok l r : custom_attributes l = Ok r ->
  Forall (fun a => AKey a <> ""%string /\ forall t, AKey a <> ("_" ++ t)%string) r.
Proof.
  revert r. induction l as [|a l IH]; intros r E; cbn in E; [injection E as <-; constructor|].
  apply res_bind_Ok in E as (u&Hne%refuse_Ok&E). apply res_bind_Ok in E as (u2&Hp%refuse_Ok&E).
  apply res_bind_Ok in E as (r'&Hr&[= <-]). constructor; [cbn|auto]. apply Nat.eqb_neq in Hne. split.
  - intros E. by rewrite E in Hne.
  - intros t E. rewrite E in Hp. by destruct t.
Qed.

Lemma event_attributes_ok l contract r : contractSDKEventAttributes l contract = Ok r ->
  exists rest, r = attr "_contract_address" (address_text contract) :: rest /\
    Forall (fun a => AKey a <> ""%string /\ forall t, AKey a <> ("_" ++ t)%string) rest.
Proof.
  unfold contractSDKEventAttributes. intros E. apply res_bind_Ok in E as (r'&Hr&[= <-]).
  exists r'. split; [done|]. by eapply custom_attributes_ok.
Qed.

Lemma module_event_ok l contract r : newWasmModuleEvent l contract = Ok r -> Forall (attributed contract) r.
Proof.
  unfold newWasmModuleEvent. intros E. apply res_bind_Ok in E as (a&Ha&[= <-]).
  constructor; [|constructor]. split; [by left|]. by apply event_attributes_ok in Ha.
Qed.

Lemma custom_events_ok l contract r : newCustomEvents l contract = Ok r -> Forall (attributed contract) r.
Proof.
  revert r. induction l as [|e l IH]; intros r E; cbn in E; [injection E as <-; constructor|].
  apply res_bind_Ok in E as (u&_&E). apply res_bind_Ok in E as (a&Ha&E). apply res_bind_Ok in E as (r'&Hr&[= <-]).
  constructor; [|auto]. split; [by right; eexists|]. by apply event_attributes_ok in Ha.
Qed.

Lemma emit_when {T} (l : list T) (f : list T -> res (list SdkEvent)) contract (w : W) u w' :
  (forall x r, f x = Ok r -> Forall (attributed contract) r) ->
  (match l with [] => mret tt | x :: k => r ← lift (f (x :: k)); emit r end) w = (Ok u, w') ->
  exists r, Forall (attributed contract) r /\ evs w' = evs w ++ r /\ store w' = store w.
Proof.
  intros Hf E. destruct l as [|x l].
  - apply ret_Ok in E as [_ <-]. exists []. by rewrite app_nil_r.
  - apply bind_Ok in E as (r&w1&[Hr <-]%lift_Ok&[= _ <-]). exists r. split; [by eapply Hf|done].
Qed.

(** C35: a contract speaks under its own name.  When the response of a contract is
    accepted, what it adds by itself are events led by its address, with no other
    reserved attribute, and nothing in the stores; then its messages are
    dispatched one call deeper, within the maximal depth, and a reply's data
    replaces the response's. *)
Theorem response_effect (D : Ctx -> string -> string -> list (SubMsg Msg) -> M W (option string))
    ctx contract port r (w : W) d w' :
  handleContractResponse cfg D ctx contract port r w = (Ok d, w') ->
  exists l w1 ctx' rsp, Forall (attributed contract) l /\ evs w1 = evs w ++ l /\ store w1 = store w /\
    default 0 (cCallDepth ctx') = u32 (default 0 (cCallDepth ctx) + 1) /\
    u32 (default 0 (cCallDepth ctx) + 1) <= maxCallDepth cfg /\ cPolicy ctx' = cPolicy ctx /\
    D ctx' contract port (Messages r) w1 = (Ok rsp, w') /\
    d = match rsp with Some x => Some x | None => RespData r end.
Proof.
  intros E. unfold handleContractResponse in E. apply bind_Ok in E as (c&w0&[_ <-]%lift_Ok&E).
  apply bind_Ok in E as (u&w1&Eg&E). apply bind_Ok in E as (u1&w2&E1&E). apply bind_Ok in E as (u2&w3&E2&E).
  apply (emit_when _ (fun l => newWasmModuleEvent l contract) contract) in E1 as (l1&Hl1&Ev1&Es1); [|intros; by eapply module_event_ok].
  apply (emit_when _ (fun l => newCustomEvents l contract) contract) in E2 as (l2&Hl2&Ev2&Es2); [|intros; by eapply custom_events_ok].
  assert (Hg : evs w1 = evs w /\ store w1 = store w).
  { unfold charge, zoom in Eg. destruct (ConsumeGas c _). by injection Eg as _ <-. }
  apply bind_Ok in E as (ctx'&w4&[Hd <-]%lift_Ok&E). unfold checkAndIncreaseCallDepth in Hd.
  apply res_bind_Ok in Hd as (u3&Hle%refuse_Ok&[= <-]). apply Z.ltb_ge in Hle.
  unfold Handle in E. apply bind_Ok in E as (rsp&w5&E5&[<- <-]%ret_Ok). destruct Hg as [Hg1 Hg2].
  exists (l1 ++ l2), w3, (WithCallDepth ctx (u32 (default 0 (cCallDepth ctx) + 1))), rsp.
  split_and!; [by apply Forall_app| |congruence|reflexivity|done|done|exact E5|done].
  rewrite Ev2, Ev1, Hg1. by rewrite app_assoc.
Qed.

End ResponseProofs.

(** ** Witnesses *)

(** A small chain: accounts are a set of addresses, and the hash of an address is
    its key padded. *)
Module ChainRef.
Import Ref RefLaws RefBank RefBankLaws CircuitRef.

#[export] Instance bank_send : BankSend ref_bank := {| IsSendEnabledCoins _ _ := Ok tt; SendEvents _ _ _ := [] |}.
#[export] Instance accounts : AccountKeeper (gset string) string := {|
  GetAccount a s := if bool_decide (a ∈ s) then Some a else None;
  NewAccountWithAddress a := mret a;
  SetAccount a := modify (.∪ {[a]});
  GetAddress a := a; GetSequence _ := 0; HasPubKey _ := false; IsBaseAccount _ := true; GetOriginalVesting _ := None |}.
#[export] Instance address_ops : AddressOps := {|
  address_Module _ k := (k ++ hash32)%string;
  VerifyAddressFormat _ := Ok tt; AccountAddrPrefix := "addr"; Int_String := itoa |}.
#[export] Instance json : JsonOps := {| json_Valid _ := true |}.
#[export] Instance extension : ExtensionOps := {| ext_ValidateBasic _ := Ok tt; NewAnyWithValue e := Ok e |}.

Definition cfg5 : Config := mkConfig DefaultGasRegisterConfig 5 [].
Definition ctx0 : Ctx := mkCtx (mkBlock 5 7 false) 5 "chain" 100 None "" None None.

(** One code, no contracts. *)
Definition params0 : Params := mkParams AllowEverybody AccessTypeEverybody AllowEverybody "".
Definition code1 : CodeInfo := mkCodeInfo hash32 "addrann" AllowEverybody.
Definition chain0 : Chain ref_bank (gset string) unit :=
  mkChain params0 RefBank.empty ∅ (mkRegistry ∅ {[1 := code1]} ∅ ∅ ∅ ∅ ∅ ∅ ∅) (mkDeposits ∅ ∅ ∅) None
    (mkContracts ∅ ∅ ∅ ∅ ∅) ∅ tt.

End ChainRef.

Module LifecycleWitness.
Import Ref RefLaws RefBank RefBankLaws CircuitRef ChainRef.

(** Two salts whose keys have colliding hashes on this chain. *)
Definition salted (salt : string) : AddressSource := FromPredictable hash32 "bob" salt "".

Lemma addresses_identify_sources_witness : salted "s1" = salted "s2" \/
  source_key (salted "s1") <> source_key (salted "s2") /\
  String.substring 0 ContractAddrLen (address_Module ModuleName (source_key (salted "s1"))) =
  String.substring 0 ContractAddrLen (address_Module ModuleName (source_key (salted "s2"))).
Proof.
  assert (Hok : forall x, x = "s1"%string \/ x = "s2"%string -> source_ok (salted x)).
  { unfold source_ok, salted, is_u64. by intros x [-> | ->]; vm_compute. }
  refine (addresses_identify_sources (salted "s1") (salted "s2") (match build_address (salted "s1") with Ok a => a | _ => ""%string end)
    (Hok _ (or_introl eq_refl)) (Hok _ (or_intror eq_refl)) _ _); by vm_compute.
Defined.

(** A response with an attribute and no messages, handled on an empty chain. *)
Definition response1 : Response unit := mkResponse [] [mkAttr "action" "mint"] (Some "done"%string) [].
Definition no_messages (_ : Ctx) (_ _ : string) (_ : list (SubMsg unit)) : M (World (Chain ref_bank (gset string) unit) meter) (option string) :=
  mret None.
Definition world_start : World (Chain ref_bank (gset string) unit) meter := mkWorld chain0 (mkMeter 0 1000000000) [].

Definition handled := handleContractResponse cfg5 no_messages ctx0 hash32 "port" response1 world_start.

Lemma response_effect_witness : handled.1 = Ok (Some "done"%string) /\
  exists l w1 ctx' rsp, Forall (attributed hash32) l /\ evs w1 = l /\ store w1 = chain0 /\
    default 0 (cCallDepth ctx') = 1 /\ no_messages ctx' hash32 "port" [] w1 = (Ok rsp, handled.2).
Proof.
  split; [by vm_compute|].
  destruct (response_effect cfg5 no_messages ctx0 hash32 "port" response1 world_start (Some "done"%string) handled.2)
    as (l&w1&ctx'&rsp&Hl&He&Hs&Hd&_&_&Hm&_); [by vm_compute|].
  by exists l, w1, ctx', rsp.
Defined.

End LifecycleWitness.
