(* ===== verification/WasmSteps.v ===== *)
(** * x/wasm: what a call can do to the contracts of the chain

    The effect of any keeper call on codes and contracts is a sequence of a few
    kinds of step: a new code, a new contract, a migration, a change of a
    contract's info, a change of a code's access configuration.  Calls are shown
    to refine that relation, however their messages call back, and the
    invariants are proved of the relation. *)

From Stdlib Require Import ZArith Lia Ascii.
From stdpp Require Import base gmap strings list sorting.
From S2P Require Import Prelude Sdk SdkRef Store GoLib Bank WasmAccess WasmGas WasmDispatch WasmCircuits.
From S2P Require Import WasmContracts WasmLifecycle.

(** ** The step relation *)

Section Steps.
Context {B A X : Type} `{Bech32}.

Abbreviation S := (Chain B A X).

(** What a step is about: the codes, and the contracts without their stores. *)
Record View := mkView {
  v_codes : gmap Z CodeInfo; v_infos : gmap string ContractInfo; v_hist : gmap string HistoryEntry;
  v_code_ix : gmap string unit; v_creator_ix : gmap string unit }.

Definition view (s : S) : View :=
  mkView (codes (ch_reg s)) (cinfos (ch_con s)) (chist (ch_con s)) (code_ix (ch_con s)) (ccreator_ix (ch_con s)).

(** Codes and contracts are as before; the stores of the contracts and the rest
    of the chain may differ. *)
Definition quiet (s s' : S) : Prop := view s' = view s.

#[export] Instance quiet_preorder : PreOrder quiet.
Proof. unfold quiet. split; [done|]. intros s1 s2 s3 H1 H2. congruence. Qed.

Lemma quiet_codes s s' : quiet s s' -> codes (ch_reg s') = codes (ch_reg s).
Proof. by intros [=]. Qed.
Lemma quiet_infos s s' : quiet s s' -> cinfos (ch_con s') = cinfos (ch_con s).
Proof. by intros [=]. Qed.
Lemma quiet_hist s s' : quiet s s' -> chist (ch_con s') = chist (ch_con s).
Proof. by intros [=]. Qed.

(** Up to the stores of the contracts. *)
Definition contracts_are (c : Contracts) (s : S) : Prop :=
  cinfos (ch_con s) = cinfos c /\ chist (ch_con s) = chist c /\ code_ix (ch_con s) = code_ix c /\
  ccreator_ix (ch_con s) = ccreator_ix c.

(** Who acts: an account the call is made for, or a contract. *)
Definition may_act (origin : string -> Prop) (s : S) (caller : string) : Prop :=
  origin caller \/ is_Some (cinfos (ch_con s) !! caller).

(** Without governance only the default policy is applied. *)
Definition allowed (gov : bool) (p : Policy) : Prop := gov = true \/ p = DefaultAuthorizationPolicy.

Inductive wstep (gov : bool) (origin : string -> Prop) (s s' : S) : Prop :=
| step_quiet : quiet s s' -> wstep gov origin s s'
| step_code id info :
    is_u64 id \/ is_Some (codes (ch_reg s) !! id) -> codes (ch_reg s') = <[id := info]> (codes (ch_reg s)) -> contracts_are (ch_con s) s' ->
    wstep gov origin s s'
| step_new addr creator info e p :
    cinfos (ch_con s) !! addr = None -> String.length addr = ContractAddrLen -> is_Some (codes (ch_reg s) !! CodeID info) ->
    AccAddressFromBech32 (ContractCreator info) = Ok creator -> valid_addr creator ->
    HCodeID e = CodeID info -> Updated e = Some p -> pos_ok p ->
    codes (ch_reg s') = codes (ch_reg s) ->
    contracts_are (add_contract addr creator info [e] p p (last_position addr (ch_con s)) (ch_con s)) s' ->
    wstep gov origin s s'
| step_move addr admin caller pol info info' e old p p_old :
    cinfos (ch_con s) !! addr = Some info -> AdminAddr info = Ok admin ->
    may_act origin s caller -> allowed gov pol -> CanModifyContract pol admin caller = true ->
    is_Some (codes (ch_reg s) !! CodeID info') -> ContractCreator info' = ContractCreator info ->
    Admin info' = Admin info ->
    mustGetLastContractHistoryEntry addr (ch_con s) = Ok old -> Updated old = Some p_old ->
    HCodeID e = CodeID info' -> Updated e = Some p -> pos_ok p ->
    codes (ch_reg s') = codes (ch_reg s) ->
    contracts_are (move_contract addr info' e old p p_old (u64 (last_position addr (ch_con s) + 1)) (ch_con s)) s' ->
    wstep gov origin s s'
| step_info addr admin caller pol info info' :
    cinfos (ch_con s) !! addr = Some info -> AdminAddr info = Ok admin ->
    may_act origin s caller -> allowed gov pol -> CanModifyContract pol admin caller = true ->
    CodeID info' = CodeID info -> ContractCreator info' = ContractCreator info ->
    codes (ch_reg s') = codes (ch_reg s) ->
    contracts_are (set_cinfos <[addr := info']> (ch_con s)) s' ->
    wstep gov origin s s'.

Definition wsteps (gov : bool) (origin : string -> Prop) : S -> S -> Prop := rtc (wstep gov origin).

#[export] Instance wsteps_preorder gov origin : PreOrder (wsteps gov origin).
Proof. unfold wsteps. split; apply _. Qed.

Lemma quiet_steps gov origin s s' : quiet s s' -> wsteps gov origin s s'.
Proof. intros. by apply rtc_once, step_quiet. Qed.

(** Contracts do not disappear. *)
Lemma wstep_keeps gov origin s s' addr : wstep gov origin s s' ->
  is_Some (cinfos (ch_con s) !! addr) -> is_Some (cinfos (ch_con s') !! addr).
Proof.
  intros [Hq|? ? _ _ (->&_)|? ? ? ? ? _ _ _ _ _ _ _ _ _ (->&_)|? ? ? ? ? ? ? ? ? ? _ _ _ _ _ _ _ _ _ _ _ _ _ _ (->&_)
    |? ? ? ? ? ? _ _ _ _ _ _ _ _ (->&_)]; cbn; try done.
  - by rewrite (quiet_infos _ _ Hq).
  - by intros ?; apply lookup_insert_is_Some'; right.
  - by intros ?; apply lookup_insert_is_Some'; right.
  - by intros ?; apply lookup_insert_is_Some'; right.
Qed.

Lemma wsteps_keep gov origin s s' addr : wsteps gov origin s s' ->
  is_Some (cinfos (ch_con s) !! addr) -> is_Some (cinfos (ch_con s') !! addr).
Proof. induction 1; eauto using wstep_keeps. Qed.

(** The addresses of contracts have the length the generators give them. *)
Definition sized (s : S) : Prop := forall a, is_Some (cinfos (ch_con s) !! a) -> String.length a = ContractAddrLen.

Lemma wstep_sized gov origin s s' : wstep gov origin s s' -> sized s -> sized s'.
Proof.
  unfold sized. intros [Hq|? ? _ _ (->&_)|? ? ? ? ? _ ? _ _ _ _ _ _ _ (->&_)
    |? ? ? ? ? ? ? ? ? ? Hi _ _ _ _ _ _ _ _ _ _ _ _ _ (->&_)|? ? ? ? ? ? Hi _ _ _ _ _ _ _ (->&_)] Hs a; cbn; auto.
  - rewrite (quiet_infos _ _ Hq). auto.
  - by intros [<-|]%lookup_insert_is_Some'; auto.
  - intros [<-|]%lookup_insert_is_Some'; [|auto]. apply Hs. by rewrite Hi.
  - intros [<-|]%lookup_insert_is_Some'; [|auto]. apply Hs. by rewrite Hi.
Qed.

Lemma may_act_quiet origin s s' caller : quiet s s' -> may_act origin s caller -> may_act origin s' caller.
Proof. intros Hq [?|?]; [by left|right]. by rewrite (quiet_infos _ _ Hq). Qed.

Lemma quiet_sized s s' : quiet s s' -> sized s -> sized s'.
Proof. intros Hq Hs a. rewrite (quiet_infos _ _ Hq). apply Hs. Qed.

Lemma wsteps_sized gov origin s s' : wsteps gov origin s s' -> sized s -> sized s'.
Proof. induction 1; eauto using wstep_sized. Qed.

(** ** The registry stays consistent *)

(** The history entries stored are few enough to be numbered. *)
Definition history_fits (s : S) : Prop := Z.of_nat (size (chist (ch_con s))) < 2 ^ 64 - 1.

Record registry_ok (s : S) (a : registry) : Prop := {
  ok_ids : forall id, is_Some (codes (ch_reg s) !! id) -> is_u64 id;
  ok_sized : sized s;
  ok_rep : Rep (codes (ch_reg s)) a (ch_con s)
}.

(** The codes are numbered and the infos, histories and indexes describe the
    same contracts. *)
Definition consistent (s : S) : Prop := exists a, registry_ok s a.

Lemma wstep_size gov origin s s' : wstep gov origin s s' ->
  (size (chist (ch_con s)) <= size (chist (ch_con s')))%nat.
Proof.
  assert (Hins : forall (m : gmap string HistoryEntry) k e, (size m <= size (<[k := e]> m))%nat).
  { intros m k e. rewrite map_size_insert. destruct (m !! k); cbn; lia. }
  intros [Hq|? ? _ _ (_&->&_)|? ? ? ? ? _ _ _ _ _ _ _ _ _ (_&->&_)
    |? ? ? ? ? ? ? ? ? ? _ _ _ _ _ _ _ _ _ _ _ _ _ _ (_&->&_)|? ? ? ? ? ? _ _ _ _ _ _ _ _ (_&->&_)]; cbn; auto.
  by rewrite (quiet_hist _ _ Hq).
Qed.

Lemma wsteps_size gov origin s s' : wsteps gov origin s s' ->
  (size (chist (ch_con s)) <= size (chist (ch_con s')))%nat.
Proof. induction 1 as [|s1 s2 s3 Hs _ IH]; [done|]. apply wstep_size in Hs. lia. Qed.

Lemma rep_contracts_are cs a c s : Rep cs a c -> contracts_are c s -> Rep cs a (ch_con s).
Proof. intros [R1 R2 R3 R4 R5] (E1&E2&E3&E4). split; rewrite ?E1, ?E2, ?E3, ?E4; done. Qed.

(** Every kind of step keeps the registry consistent. *)
Lemma wstep_consistent gov origin s s' : consistent s -> wstep gov origin s s' -> history_fits s' -> consistent s'.
Proof.
  intros [a [Hids Hsz R]] Hstep Hfit. pose proof (wstep_sized _ _ _ _ Hstep Hsz) as Hsz'. destruct Hstep as
    [Hq|id info Hid Hc Hcon|addr creator info e p Hn Hlen Hcode Hcr Hv He Hp Hpos Hc Hcon
    |addr admin caller pol info info' e old p p_old Hi _ _ _ _ Hcode Hcr _ Hold Hpold He Hp Hpos Hc Hcon
    |addr admin caller pol info info' Hi _ _ _ _ Hid Hcr Hc Hcon].
  - exists a. injection Hq as Hc Q1 Q2 Q3 Q4. split; [by rewrite Hc|done|rewrite Hc]. by eapply rep_contracts_are.
  - exists a. split; [rewrite Hc|done|rewrite Hc].
    + intros i [->|?]%lookup_insert_is_Some'; [|auto]. destruct Hid; auto.
    + eapply rep_codes; [by eapply rep_contracts_are|]. intros i ?. apply lookup_insert_is_Some'. auto.
  - exists (<[addr := (info, [e])]> a). split; [by rewrite Hc|done|rewrite Hc]. eapply rep_contracts_are; [|done].
    eapply rep_new; try done. split; cbn; [done|by exists e|constructor; [|done]|lia|by exists creator].
    split; [rewrite He; auto|by exists p].
  - destruct (rep_lookup _ _ _ _ _ R Hi) as (es&Ha&Hwf).
    destruct (last_entry_rep _ _ _ _ _ _ R Ha) as (old'&Hlast&Hold').
    assert (old' = old) as -> by congruence.
    assert (Hpos_eq : last_position addr (ch_con s) = Z.of_nat (length es)).
    { rewrite (last_position_rep _ _ _ _ R), Ha. done. }
    pose proof (wf_length _ _ Hwf) as Hl. cbn in Hl.
    rewrite Hpos_eq, u64_small in Hcon by (unfold is_u64; lia).
    exists (<[addr := (info', es ++ [e])]> a). split; [by rewrite Hc|done|rewrite Hc]. eapply rep_contracts_are; [|done].
    eapply rep_move; try done. split; cbn.
    + done.
    + exists e. by rewrite last_snoc.
    + apply Forall_app. split; [apply (wf_entries _ _ Hwf)|]. constructor; [|done].
      split; [rewrite He; auto|by exists p].
    + destruct Hcon as (_&Hh&_). unfold history_fits in Hfit. rewrite Hh in Hfit. cbn in Hfit.
      pose proof (snoc_size a _ addr info es e (rep_hist _ _ _ R) (rep_lengths _ _ _ R) Ha). lia.
    + rewrite Hcr. apply (wf_creator _ _ Hwf).
  - destruct (rep_lookup _ _ _ _ _ R Hi) as (es&Ha&Hwf). exists (<[addr := (info', es)]> a).
    split; [by rewrite Hc|done|rewrite Hc]. eapply rep_contracts_are; [|done]. by eapply rep_update.
Qed.

Lemma wsteps_consistent gov origin s s' : consistent s -> wsteps gov origin s s' -> history_fits s' -> consistent s'.
Proof.
  intros Hc Hs. revert Hc. induction Hs as [|s1 s2 s3 Hs Hs' IH]; intros Hc Hfit; [done|].
  apply IH; [|done]. eapply wstep_consistent; [done..|]. unfold history_fits in *.
  apply wsteps_size in Hs'. lia.
Qed.

(** ** Nobody but the admin changes a contract *)

(** What only the admin may change. *)
Definition governed (info : ContractInfo) : Z * string * string := (CodeID info, Admin info, Label info).

(** A contract whose admin is neither an origin nor a contract. *)
Lemma wstep_protected origin s s' addr info admin : wstep false origin s s' ->
  cinfos (ch_con s) !! addr = Some info -> AdminAddr info = Ok admin ->
  ~ origin admin -> cinfos (ch_con s') !! admin = None ->
  exists info', cinfos (ch_con s') !! addr = Some info' /\ governed info' = governed info.
Proof.
  intros Hstep Ha Had Hne Hna.
  assert (Hauth : forall caller pol, may_act origin s caller -> allowed false pol ->
    CanModifyContract pol admin caller = true -> False).
  { intros caller pol Hact [?| ->] Hcan; [done|]. cbn in Hcan. unfold same_address in Hcan.
    apply andb_true_iff in Hcan as [_ Hcan%bool_decide_eq_true]. subst caller.
    destruct Hact as [?|Hin]; [done|]. apply (wstep_keeps _ _ _ _ _ Hstep) in Hin. rewrite Hna in Hin. by destruct Hin. }
  destruct Hstep as [Hq|id ci _ _ (Hi&_)|addr2 cr i2 e p Hn _ _ _ _ _ _ _ _ (Hi&_)
    |addr2 adm caller pol i1 i2 e old p p_old Hi1 Had2 Hact Hal Hcan _ _ _ _ _ _ _ _ _ (Hi&_)
    |addr2 adm caller pol i1 i2 Hi1 Had2 Hact Hal Hcan _ _ _ (Hi&_)].
  - exists info. by rewrite (quiet_infos _ _ Hq).
  - exists info. by rewrite Hi.
  - exists info. rewrite Hi. cbn. rewrite lookup_insert_ne by congruence. done.
  - rewrite Hi. cbn. destruct (decide (addr2 = addr)) as [->|]; [|exists info; by rewrite lookup_insert_ne].
    exfalso. eapply Hauth; [done..|]. congruence.
  - rewrite Hi. cbn. destruct (decide (addr2 = addr)) as [->|]; [|exists info; by rewrite lookup_insert_ne].
    exfalso. eapply Hauth; [done..|]. congruence.
Qed.

Lemma AdminAddr_admin i j : Admin i = Admin j -> AdminAddr i = AdminAddr j.
Proof. unfold AdminAddr. by intros ->. Qed.

Lemma wsteps_protected origin s s' addr info admin : wsteps false origin s s' ->
  cinfos (ch_con s) !! addr = Some info -> AdminAddr info = Ok admin ->
  ~ origin admin -> cinfos (ch_con s') !! admin = None ->
  exists info', cinfos (ch_con s') !! addr = Some info' /\ governed info' = governed info.
Proof.
  intros Hs. revert info. induction Hs as [|s1 s2 s3 Hs Hs' IH]; intros info Ha Had Hne Hna; [by exists info|].
  assert (Hna2 : cinfos (ch_con s2) !! admin = None).
  { destruct (cinfos (ch_con s2) !! admin) eqn:E; [|done].
    destruct (wsteps_keep _ _ _ _ admin Hs') as [? ?]; [by rewrite E|congruence]. }
  destruct (wstep_protected _ _ _ _ _ _ Hs Ha Had Hne Hna2) as (i2&Ha2&Hg).
  destruct (IH i2 Ha2) as (i3&Ha3&Hg3); [|done..|].
  - rewrite <- Had. apply AdminAddr_admin. by injection Hg.
  - exists i3. split; [done|congruence].
Qed.

End Steps.

(** ** What the indexes answer *)

Section Listings.
Context {B A X : Type} `{Bech32Laws} `{AddrPrefixLaws}.

(** Listing by code. *)
Lemma code_listing (s : Chain B A X) id : consistent s -> is_u64 id ->
  exists l, IterateContractsByCode id (ch_con s) = Ok l.*2 /\ NoDup l.*2 /\
    (forall addr, addr ∈ l.*2 <-> exists info, cinfos (ch_con s) !! addr = Some info /\ CodeID info = id) /\
    (forall p addr, (p, addr) ∈ l -> Updated <$> last (GetContractHistory addr (ch_con s)) = Some (Some p)) /\
    StronglySorted (fun x y => LessThan (Some y.1) (Some x.1) = false) l.
Proof.
  intros [a [_ _ R]] Hid. destruct (code_scan _ _ _ _ R Hid) as (l&Hl&Hnd&Hmem&Hs). exists l. split_and!; [done..| | |done].
  - intros addr. rewrite list_elem_of_fmap. split.
    + intros ([p addr']&->&[_ E]%Hmem). cbn. destruct (cinfos _ !! addr') as [i|]; [|done]. injection E as <-. eauto.
    + intros (info&Hi&<-). destruct (rep_lookup _ _ _ _ _ R Hi) as (es&Ha&Hwf).
      destruct (wf_last _ _ Hwf) as (e&He&_). cbn in He.
      assert (Hok : entry_ok e) by (rewrite last_lookup in He; exact (Forall_lookup_1 _ _ _ _ (wf_entries _ _ Hwf) He)).
      destruct Hok as (_&p&Hp&_). exists (p, addr). split; [done|]. apply Hmem. split; [by exists info, es, e|by rewrite Hi].
  - intros p addr [(info&es&e&Ha&He&Hp) _]%Hmem. rewrite (history_rep _ _ _ _ _ _ R Ha), He. cbn. by rewrite Hp.
Qed.

(** Listing by creator. *)
Lemma creator_listing (s : Chain B A X) creator : consistent s -> valid_addr creator ->
  exists l, IterateContractsByCreator creator (ch_con s) = Ok l.*2 /\ NoDup l.*2 /\
    (forall addr, addr ∈ l.*2 <-> exists info, cinfos (ch_con s) !! addr = Some info /\
       AccAddressFromBech32 (ContractCreator info) = Ok creator) /\
    (forall p addr, (p, addr) ∈ l -> Updated <$> head (GetContractHistory addr (ch_con s)) = Some (Some p)) /\
    StronglySorted (fun x y => LessThan (Some y.1) (Some x.1) = false) l.
Proof.
  intros [a [_ _ R]] Hv. destruct (creator_scan _ _ _ _ R Hv) as (l&Hl&Hnd&Hmem&Hpos&Hs). exists l. split_and!; [done..| |done].
  intros p addr (info&es&e&Ha&He&Hp)%Hpos. rewrite (history_rep _ _ _ _ _ _ R Ha), He. cbn. by rewrite Hp.
Qed.

(** C34: in a consistent registry the secondary indexes answer exactly: listing by
    code gives each contract that runs the code once, ordered by when it took
    that code, listing by creator gives each contract of the creator once, ordered
    by when it was created, and the history of a contract ends with the code it
    runs. *)
Theorem listings_are_exact (s : Chain B A X) : consistent s ->
  (forall id, is_u64 id -> exists l, IterateContractsByCode id (ch_con s) = Ok l.*2 /\ NoDup l.*2 /\
     (forall addr, addr ∈ l.*2 <-> exists info, cinfos (ch_con s) !! addr = Some info /\ CodeID info = id) /\
     (forall p addr, (p, addr) ∈ l -> Updated <$> last (GetContractHistory addr (ch_con s)) = Some (Some p)) /\
     StronglySorted (fun x y => LessThan (Some y.1) (Some x.1) = false) l) /\
  (forall creator, valid_addr creator -> exists l, IterateContractsByCreator creator (ch_con s) = Ok l.*2 /\ NoDup l.*2 /\
     (forall addr, addr ∈ l.*2 <-> exists info, cinfos (ch_con s) !! addr = Some info /\
        AccAddressFromBech32 (ContractCreator info) = Ok creator) /\
     (forall p addr, (p, addr) ∈ l -> Updated <$> head (GetContractHistory addr (ch_con s)) = Some (Some p)) /\
     StronglySorted (fun x y => LessThan (Some y.1) (Some x.1) = false) l) /\
  (forall addr info, cinfos (ch_con s) !! addr = Some info ->
     HCodeID <$> last (GetContractHistory addr (ch_con s)) = Some (CodeID info)).
Proof.
  intros Hc. split_and!; [intros; by apply code_listing|intros; by apply creator_listing|].
  destruct Hc as [a [_ _ R]]. intros addr info Hi. destruct (rep_lookup _ _ _ _ _ R Hi) as (es&Ha&Hwf).
  destruct (wf_last _ _ Hwf) as (e&He&Hid). rewrite (history_rep _ _ _ _ _ _ R Ha). cbn in *. rewrite He. cbn. by rewrite Hid.
Qed.

End Listings.
