(* ===== verification/WasmRefine.v ===== *)
(** * x/wasm: keeper calls take steps

    A small program logic for calls whose effect on codes and contracts is a
    sequence of steps, and the proof that every call of the keeper is one, also
    when it returns an error.  A call that panics may stop anywhere: its
    transaction is reverted. *)

From Stdlib Require Import ZArith Lia Ascii.
From stdpp Require Import base gmap strings list.
From S2P Require Import Prelude Sdk SdkRef Store GoLib Bank WasmAccess WasmGas WasmDispatch WasmCircuits.
From S2P Require Import WasmContracts WasmPackets WasmLifecycle WasmSteps.

(** ** Calls that leave codes and contracts alone *)

Section Quiet.
Context {B A X G : Type}.

Abbreviation W := (World (Chain B A X) G).

Definition wview (w : W) : View := view (store w).

(** What a call sees and changes is outside the view. *)
Definition Keeps {T} (m : M W T) : Prop := Preserves wview m.

Lemma Keeps_emit l : Keeps (emit l).
Proof. by apply Preserves_modify. Qed.

Lemma Keeps_reg {T} (m : M Registry T) : Preserves codes m -> Keeps (with_reg m).
Proof. intros Hm. eapply Preserves_zoom; [exact Hm|]. intros w r E. unfold wview, view. cbn. by rewrite E. Qed.

Lemma Keeps_vm `{WasmVM W G Msg} addr h env call gas : Keeps (vm_step (Msg:=Msg) addr h env call gas).
Proof. intros w x w'. unfold vm_step. destruct (VmRun _ _ _ _ _ _) as [r [cs g]]. by intros [= _ <-]. Qed.

End Quiet.

#[export] Hint Resolve Keeps_emit Keeps_reg Keeps_vm : quiet.
#[export] Hint Extern 1 (Keeps (charge _)) => apply Preserves_part; reflexivity : quiet.
#[export] Hint Extern 1 (Preserves wview (charge _)) => apply Preserves_part; reflexivity : quiet.
#[export] Hint Extern 1 (Preserves wview (emit _)) => apply Keeps_emit : quiet.
#[export] Hint Extern 1 (Preserves wview (vm_step _ _ _ _ _)) => apply Keeps_vm : quiet.
#[export] Hint Extern 1 (Preserves wview (with_bank _)) => apply Preserves_part; reflexivity : quiet.
#[export] Hint Extern 1 (Preserves wview (with_accts _)) => apply Preserves_part; reflexivity : quiet.
#[export] Hint Extern 1 (Preserves wview (with_async _)) => apply Preserves_part; reflexivity : quiet.
#[export] Hint Extern 1 (Preserves wview (with_rest _)) => apply Preserves_part; reflexivity : quiet.
#[export] Hint Extern 2 (Preserves wview (with_reg _)) => apply Keeps_reg : quiet.
#[export] Hint Unfold Keeps : quiet.

(** ** Calls that take steps *)

Section Logic.
Context {B A X G : Type} `{Bech32} (gov : bool) (origin : string -> Prop).

Abbreviation W := (World (Chain B A X) G).
Implicit Types (P : View -> Prop).

(** From a state whose view satisfies [P], a call that returns takes steps. *)
Definition Steps P {T} (m : M W T) : Prop :=
  forall w r w', P (view (store w)) -> sized (store w) -> m w = (r, w') -> returns r ->
    wsteps gov origin (store w) (store w').

Lemma Steps_Keeps P {T} (m : M W T) : Keeps m -> Steps P m.
Proof. intros Hk w r w' _ _ E _. apply quiet_steps. exact (Hk _ _ _ E). Qed.

Lemma Steps_weaken P Q {T} (m : M W T) : (forall v, P v -> Q v) -> Steps Q m -> Steps P m.
Proof. intros HPQ Hm w r w' HP. apply Hm. auto. Qed.

Lemma Steps_seq P (Q : View -> Prop) {T U} (m : M W T) (k : T -> M W U) :
  Steps P m -> (forall w x w', P (view (store w)) -> m w = (Ok x, w') -> Q (view (store w'))) ->
  (forall x, Steps Q (k x)) -> Steps P (m ≫= k).
Proof.
  intros Hm HQ Hk w r w' HP Hsz E Hr. unfold mbind, M_bind in E. destruct (m w) as [[x|e|p] w1] eqn:E1.
  - assert (Hs : wsteps gov origin (store w) (store w1)) by by eapply Hm.
    transitivity (store w1); [done|]. eapply Hk; [by eapply HQ|by eapply wsteps_sized|done..].
  - injection E as <- <-. by eapply Hm.
  - by injection E as <- <-.
Qed.

(** What the steps cannot take away still holds afterwards. *)
Lemma Steps_stable P {T U} (m : M W T) (k : T -> M W U) :
  Steps P m -> (forall s s' : Chain B A X, wsteps gov origin s s' -> P (view s) -> P (view s')) ->
  (forall x, Steps P (k x)) -> Steps P (m ≫= k).
Proof.
  intros Hm HP Hk w r w' Hw Hsz E Hr. unfold mbind, M_bind in E. destruct (m w) as [[x|e|p] w1] eqn:E1.
  - assert (Hs : wsteps gov origin (store w) (store w1)) by by eapply Hm.
    transitivity (store w1); [done|]. eapply Hk; [by eapply HP|by eapply wsteps_sized|done..].
  - injection E as <- <-. by eapply Hm.
  - by injection E as <- <-.
Qed.

(** Nothing but quiet statements follows. *)
Lemma Steps_last P {T U} (m : M W T) (k : T -> M W U) : Steps P m -> (forall x, Keeps (k x)) -> Steps P (m ≫= k).
Proof.
  intros Hm Hk. eapply (Steps_seq _ (fun _ => True)); [done..|]. intros x. by apply Steps_Keeps.
Qed.

(** A quiet statement, with what is known of its result. *)
Lemma Steps_post P {T U} (R : T -> Prop) (m : M W T) (k : T -> M W U) :
  Keeps m -> (forall w x w', m w = (Ok x, w') -> R x) -> (forall x, R x -> Steps P (k x)) -> Steps P (m ≫= k).
Proof.
  intros Hm HR Hk w r w' HP Hsz E Hr. unfold mbind, M_bind in E.
  destruct (m w) as [[x|e|p] w1] eqn:E1; [|injection E as <- <-; by apply quiet_steps, (Hm _ _ _ E1)..].
  pose proof (Hm _ _ _ E1) as Hq. unfold wview in Hq. transitivity (store w1); [by apply quiet_steps|].
  eapply Hk; [by eapply HR|by rewrite Hq| |done..]. by eapply quiet_sized.
Qed.

Lemma Steps_quiet P {T U} (m : M W T) (k : T -> M W U) : Keeps m -> (forall x, Steps P (k x)) -> Steps P (m ≫= k).
Proof. intros Hm Hk. apply (Steps_post P (fun _ => True)); auto. Qed.

Lemma Steps_lift P {T U} (r : res T) (k : T -> M W U) : (forall x, r = Ok x -> Steps P (k x)) -> Steps P (lift r ≫= k).
Proof.
  intros Hk w r' w' HP Hsz E Hr. unfold mbind, M_bind, lift in E.
  destruct r as [x|e|p]; [by eapply Hk|by injection E as _ <-|by injection E as <- _].
Qed.

Lemma Steps_ensure P {U} b e (k : M W U) : (b = true -> Steps P k) -> Steps P (ensureM b e ;; k).
Proof. intros Hk. apply Steps_lift. intros [] Hb. apply Hk. by apply ensure_Ok in Hb. Qed.

Lemma Steps_refuse P {U} b e (k : M W U) : (b = false -> Steps P k) -> Steps P (refuseM b e ;; k).
Proof. intros Hk. apply Steps_lift. intros [] Hb. apply Hk. by apply refuse_Ok in Hb. Qed.

Lemma Steps_gets P {T U} (h : View -> T) (k : T -> M W U) :
  (forall x, Steps (fun v => P v /\ h v = x) (k x)) -> Steps P (gets (fun w => h (view (store w))) ≫= k).
Proof. intros Hk w r w' HP Hsz E Hr. eapply Hk; [by split|done..]. Qed.

Lemma Steps_store P {U} (k : Chain B A X -> M W U) :
  (forall s, P (view s) -> Steps (fun v => v = view s) (k s)) -> Steps P (gets store ≫= k).
Proof. intros Hk w r w' HP Hsz E Hr. by eapply (Hk (store w)). Qed.

(** A fact that follows from the state the call starts in. *)
Lemma Steps_fact P {T} (F : Prop) (m : M W T) :
  (forall s : Chain B A X, P (view s) -> sized s -> F) -> (F -> Steps P m) -> Steps P m.
Proof. intros HF Hm w r w' HP Hsz. eapply Hm; eauto. Qed.

(** One step, by a call that fails only by panicking. *)
Lemma Steps_once P (m : M W unit) : NoErr m ->
  (forall w w', P (view (store w)) -> m w = (Ok tt, w') -> wstep gov origin (store w) (store w')) -> Steps P m.
Proof.
  intros Hn Hm w r w' HP _ E Hr. destruct (NoErr_Ok _ _ _ _ Hn E Hr) as [[] ->]. apply rtc_once. eauto.
Qed.

(** Who may act, in terms of the view. *)
Definition v_may_act (v : View) (caller : string) : Prop := origin caller \/ is_Some (v_infos v !! caller).

Lemma may_act_stable s s' caller : wsteps gov origin s s' -> v_may_act (view (B:=B) (A:=A) (X:=X) s) caller ->
  v_may_act (view s') caller.
Proof. intros Hs [?|Hc]; [by left|right]. exact (wsteps_keep _ _ _ _ _ Hs Hc). Qed.

End Logic.

(** [quietly] takes a quiet statement off the front, [stepwise] all of them. *)
Ltac quietly := apply Steps_quiet; [solve [unfold Keeps; preserves]|intros ?].
Create HintDb steps.
Ltac stepwise := repeat first [ solve [apply Steps_Keeps; unfold Keeps; preserves] | solve [eauto with steps] | quietly ].

(** ** Recording *)

Section Recording.
Context {B A X G : Type} `{Bech32Laws} `{AddrPrefixLaws} `{AddressOps} `{JsonOps}.

Abbreviation W := (World (Chain B A X) G).

Lemma with_con_Ok {T} (m : M Contracts T) (w : W) x w' : with_con m w = (Ok x, w') <->
  exists c, m (ch_con (store w)) = (Ok x, c) /\ w' = set_store (set_con c (store w)) w.
Proof.
  unfold with_con, zoom. destruct (m _) as [y c]. split; [intros [= -> <-]; eauto|].
  by intros (c'&[= -> ->]&->).
Qed.

Lemma NoErr_con {T} (m : M Contracts T) : NoErr m -> NoErr (with_con (B:=B) (A:=A) (X:=X) (G:=G) m).
Proof. apply NoErr_zoom. Qed.

Lemma created_key_no_err addr e err : GetContractByCreatedSecondaryIndexKey addr e <> Err err.
Proof. unfold GetContractByCreatedSecondaryIndexKey. by destruct (Updated e). Qed.

Lemma add_code_no_err addr e : NoErr (addToContractCodeSecondaryIndex addr e).
Proof. apply NoErr_bind; [apply NoErr_lift, created_key_no_err|by intros k s e' s' [=]]. Qed.

Lemma remove_code_no_err addr e : NoErr (removeFromContractCodeSecondaryIndex addr e).
Proof. apply NoErr_bind; [apply NoErr_lift, created_key_no_err|by intros k s e' s' [=]]. Qed.

Lemma add_creator_no_err creator p addr : creator <> ""%string ->
  NoErr (addToContractCreatorSecondaryIndex creator p addr).
Proof.
  intros Hne. apply NoErr_bind; [apply NoErr_lift; by destruct p|]. intros b.
  apply NoErr_bind; [|by intros k s e' s' [=]]. apply NoErr_lift. intros e.
  unfold GetContractByCreatorSecondaryIndexKey, GetContractsByCreatorPrefix.
  destruct (le_lt_dec (String.length creator) 255).
  - rewrite MustLengthPrefix_ok; [done|]. destruct creator; [done|cbn in *; lia].
  - destruct (MustLengthPrefix_long creator) as [q ->]; [lia|done].
Qed.

Lemma add_creator_Ok creator addr p (c c' : Contracts) : creator <> ""%string ->
  addToContractCreatorSecondaryIndex creator (Some p) addr c = (Ok tt, c') ->
  valid_addr creator /\ c' = set_ccreator_ix <[creator_key creator addr p := tt]> c.
Proof.
  intros Hne E. unfold addToContractCreatorSecondaryIndex in E. cbn [Position_Bytes] in E.
  apply bind_Ok in E as (b&c1&[[= <-] <-]%lift_Ok&E). apply bind_Ok in E as (k&c1&[Hk <-]%lift_Ok&E).
  apply modify_Ok in E as ->.
  assert (Hv : valid_addr creator).
  { split; [destruct creator; [done|cbn; lia]|]. destruct (le_lt_dec (String.length creator) 255); [done|].
    exfalso. unfold GetContractByCreatorSecondaryIndexKey, GetContractsByCreatorPrefix in Hk.
    destruct (MustLengthPrefix_long creator l) as [q Hq]. by rewrite Hq in Hk. }
  split; [done|]. rewrite creator_index_key in Hk by done. by injection Hk as <-.
Qed.

Lemma add_code_Ok addr e p (c c' : Contracts) : Updated e = Some p ->
  addToContractCodeSecondaryIndex addr e c = (Ok tt, c') ->
  c' = set_code_ix <[code_key addr (HCodeID e) p := tt]> c.
Proof.
  intros Hp E. unfold addToContractCodeSecondaryIndex in E. rewrite (code_index_key _ _ _ Hp) in E. by go_inv.
Qed.

Lemma remove_code_Ok addr e (c c' : Contracts) :
  removeFromContractCodeSecondaryIndex addr e c = (Ok tt, c') ->
  exists p, Updated e = Some p /\ c' = set_code_ix (delete (code_key addr (HCodeID e) p)) c.
Proof.
  intros E. unfold removeFromContractCodeSecondaryIndex in E.
  destruct (Updated e) as [p|] eqn:Hp.
  - rewrite (code_index_key _ _ _ Hp) in E. exists p. by go_inv.
  - unfold GetContractByCreatedSecondaryIndexKey in E. rewrite Hp in E. go_inv.
Qed.

Lemma record_contract_Ok addr creator info msg p (w : W) w' : creator <> ""%string -> Created info = Some p ->
  record_contract addr creator info msg w = (Ok tt, w') ->
  valid_addr creator /\ codes (ch_reg (store w')) = codes (ch_reg (store w)) /\
  contracts_are (add_contract addr creator info [InitialHistory info msg] p p
    (last_position addr (ch_con (store w))) (ch_con (store w))) (store w').
Proof.
  intros Hne Hp E. unfold record_contract in E.
  apply bind_Ok in E as ([]&w1&(c1&E1&->)%with_con_Ok&E). apply (add_code_Ok _ _ p) in E1 as ->; [|done].
  apply bind_Ok in E as ([]&w2&(c2&E2&->)%with_con_Ok&E). cbn [InitialHistory Updated] in E2. rewrite Hp in E2.
  apply add_creator_Ok in E2 as [Hv ->]; [|done].
  apply bind_Ok in E as ([]&w3&(c3&E3&->)%with_con_Ok&E). apply modify_Ok in E3 as ->.
  apply with_con_Ok in E as (c4&E4&->). apply modify_Ok in E4 as ->.
  split; [done|]. split; [done|]. by split_and!.
Qed.

Lemma record_contract_no_err addr creator info msg : creator <> ""%string ->
  NoErr (record_contract (B:=B) (A:=A) (X:=X) (G:=G) addr creator info msg).
Proof.
  intros Hne. unfold record_contract.
  apply NoErr_bind; [apply NoErr_con, add_code_no_err|intros _].
  apply NoErr_bind; [by apply NoErr_con, add_creator_no_err|intros _].
  apply NoErr_bind; [by intros w e w' [=]|by intros _ w e w' [=]].
Qed.

Lemma record_migration_Ok ctx addr info newID msg (w : W) w' :
  record_migration ctx addr info newID msg w = (Ok tt, w') ->
  exists old p_old p, mustGetLastContractHistoryEntry addr (ch_con (store w)) = Ok old /\ Updated old = Some p_old /\
    NewAbsoluteTxPosition ctx = Ok p /\ codes (ch_reg (store w')) = codes (ch_reg (store w)) /\
    contracts_are (move_contract addr (set_code newID info) (mkHistory HistoryMigrate newID (Some p) msg) old p p_old
      (u64 (last_position addr (ch_con (store w)) + 1)) (ch_con (store w))) (store w').
Proof.
  intros E. unfold record_migration in E. apply bind_Ok in E as (c&w1&[-> <-]%gets_Ok&E).
  apply bind_Ok in E as (old&w1&[Hold <-]%lift_Ok&E).
  apply bind_Ok in E as ([]&w1&(c1&E1&->)%with_con_Ok&E). apply remove_code_Ok in E1 as (p_old&Hpo&->).
  apply bind_Ok in E as (p&w2&[Hp <-]%lift_Ok&E). cbn [AddMigration] in E.
  apply bind_Ok in E as ([]&w3&(c3&E3&->)%with_con_Ok&E). apply modify_Ok in E3 as ->.
  apply bind_Ok in E as ([]&w4&(c4&E4&->)%with_con_Ok&E). apply (add_code_Ok _ _ p) in E4 as ->; [|done].
  apply with_con_Ok in E as (c5&E5&->). apply modify_Ok in E5 as ->.
  exists old, p_old, p. split_and!; try done.
Qed.

Lemma record_migration_no_err ctx addr info newID msg :
  NoErr (record_migration (B:=B) (A:=A) (X:=X) (G:=G) ctx addr info newID msg).
Proof.
  unfold record_migration. apply NoErr_bind; [by intros w e w' [=]|intros c].
  apply NoErr_bind; [apply NoErr_lift; unfold mustGetLastContractHistoryEntry; by destruct (last _) as [[? ?]|]|intros old].
  apply NoErr_bind; [apply NoErr_con, remove_code_no_err|intros _].
  apply NoErr_bind; [apply NoErr_lift; unfold NewAbsoluteTxPosition; by destruct (negb _)|intros p].
  cbn [AddMigration]. apply NoErr_bind; [by intros w e w' [=]|intros _].
  apply NoErr_bind; [apply NoErr_con, add_code_no_err|by intros _ w e w' [=]].
Qed.

Lemma position_ok ctx p : is_u64 (cBlockGas ctx) -> NewAbsoluteTxPosition ctx = Ok p -> pos_ok p.
Proof.
  intros Hg E. unfold NewAbsoluteTxPosition in E. apply res_bind_Ok in E as (_&_&[= <-]).
  split; cbn; [apply u64_range|done].
Qed.

End Recording.

(** ** The keeper *)

Section Refinement.
Context {B A Acct X G Msg : Type} `{BankOps B} `{BankSend B} `{AccountKeeper A Acct} `{GasMeterOps G}
  `{Bech32Laws} `{AddrPrefixLaws} `{CircuitVM} `{AddressOps} `{JsonOps} `{ExtensionOps} `{SdkCoins}
  `{WasmVM (World (Chain B A X) G) G Msg}.
Context (cfg : Config).

Abbreviation S := (Chain B A X).
Abbreviation W := (World S G).

Lemma sequence_keeps_codes k : Preserves codes (mustAutoIncrementID k).
Proof. unfold mustAutoIncrementID. preserves. Qed.
#[local] Hint Resolve sequence_keeps_codes : quiet.

Lemma Keeps_call addr h env call failed : Preserves wview (call_contract (Msg:=Msg) (B:=B) (A:=A) (X:=X) cfg addr h env call failed).
Proof. unfold call_contract, runtime_gas, consume_runtime. preserves. Qed.

Lemma Keeps_setup id h m : Preserves wview (charge_setup (B:=B) (A:=A) (X:=X) (G:=G) cfg id h m).
Proof. unfold charge_setup. preserves. Qed.

Lemma Keeps_transfer f t c : Preserves wview (transfer_funds (A:=A) (X:=X) (G:=G) f t c).
Proof. unfold transfer_funds, TransferCoins. preserves. Qed.

Lemma Keeps_claim addr : Preserves wview (claim_account (B:=B) (X:=X) (G:=G) addr).
Proof. unfold claim_account, CleanupExistingAccount. preserves. Qed.

#[local] Hint Resolve Keeps_call Keeps_setup Keeps_transfer Keeps_claim : quiet.

(** *** The dispatcher's part *)

Context (DispatchSubs : Ctx -> string -> string -> list (SubMsg Msg) -> M W (option string)) (gov : bool)
  (origin : string -> Prop).

Abbreviation Steps := (Steps (B:=B) (A:=A) (X:=X) (G:=G) gov origin).

(** The policy for submessages is one that is allowed, and the gas used in the
    block is a machine integer. *)
Definition ctx_ok (ctx : Ctx) : Prop :=
  (forall p, cPolicy ctx = Some p -> allowed gov p) /\ is_u64 (cBlockGas ctx).

Definition has_contract (addr : string) (v : View) : Prop := is_Some (v_infos v !! addr).

(** What is assumed of the dispatcher: a contract's messages take steps. *)
Hypothesis subs_steps : forall ctx addr port msgs, ctx_ok ctx -> Steps (has_contract addr) (DispatchSubs ctx addr port msgs).

Lemma sub_policy_allowed p a : allowed gov p -> allowed gov (SubMessageAuthorizationPolicy p a).
Proof. intros [Hg| ->]; [by left|by right]. Qed.

Lemma ctx_ok_policy ctx p : ctx_ok ctx -> allowed gov p -> ctx_ok (WithSubMsgAuthzPolicy ctx p).
Proof. intros [_ ?] ?. split; [|done]. cbn. by intros ? [= <-]. Qed.

Lemma response_steps ctx addr port r : ctx_ok ctx ->
  Steps (has_contract addr) (handleContractResponse cfg DispatchSubs ctx addr port r).
Proof.
  intros Hctx. unfold handleContractResponse, Handle. do 4 quietly.
  apply Steps_lift. intros ctx' Hd. apply Steps_last; [|preserves].
  apply subs_steps. unfold checkAndIncreaseCallDepth in Hd. apply res_bind_Ok in Hd as (_&_&[= <-]). exact Hctx.
Qed.

Lemma Steps_instance P {U} addr (k : ContractInfo * CodeInfo -> M W U) :
  (forall i c, Steps (fun v => v_infos v !! addr = Some i) (k (i, c))) -> Steps P (contractInstance addr ≫= k).
Proof.
  intros Hk w r w' HP Hsz E Hr. unfold contractInstance, GetContractInfo, GetCodeInfo in E.
  unfold mbind, M_bind, gets in E. destruct (cinfos _ !! addr) as [i|] eqn:Hi; [|by injection E as <- <-].
  destruct (codes _ !! CodeID i) as [c|]; [|by injection E as <- <-]. by eapply (Hk i c).
Qed.

Lemma has_contract_of addr i v : v_infos v !! addr = Some i -> has_contract addr v.
Proof. unfold has_contract. by intros ->. Qed.

(** Execution, calls by the chain and replies run the contract on its own
    behalf. *)
Lemma execute_steps ctx addr caller msg coins : ctx_ok ctx ->
  Steps (fun _ => True) (execute cfg DispatchSubs ctx addr caller msg coins).
Proof.
  intros Hctx. apply Steps_instance. intros i c. do 5 quietly.
  eapply Steps_weaken; [apply has_contract_of|by apply response_steps].
Qed.

Lemma sudo_steps ctx addr msg : ctx_ok ctx -> Steps (fun _ => True) (Sudo cfg DispatchSubs ctx addr msg).
Proof.
  intros Hctx. apply Steps_instance. intros i c. do 4 quietly.
  eapply Steps_weaken; [apply has_contract_of|by apply response_steps].
Qed.

Lemma reply_steps ctx addr r : ctx_ok ctx -> Steps (fun _ => True) (keeper_reply cfg DispatchSubs ctx addr r).
Proof.
  intros Hctx. apply Steps_instance. intros i c. do 5 quietly.
  eapply Steps_weaken; [apply has_contract_of|by apply response_steps].
Qed.

(** *** New contracts *)

(** An address generator leaves the codes alone and gives addresses of the
    length of a contract's. *)
Definition generator_ok (gen : Z -> string -> M Registry string) : Prop :=
  (forall id h, Preserves codes (gen id h)) /\
  (forall id h r a r', gen id h r = (Ok a, r') -> String.length a = ContractAddrLen).

Lemma contract_address_length k a : contract_address k = Ok a -> String.length a = ContractAddrLen.
Proof.
  unfold contract_address. intros E. apply res_bind_Ok in E as (_&Hl%must_Ok&[= <-]). apply Nat.leb_le in Hl.
  revert Hl. generalize ContractAddrLen (address_Module ModuleName k). clear.
  induction n as [|n IH]; intros [|c s] Hl; cbn in *; try done; [lia|]. f_equal. apply IH. lia.
Qed.

Lemma classic_ok : generator_ok ClassicAddressGenerator.
Proof.
  split; [intros; unfold ClassicAddressGenerator; preserves|]. intros id h r a r' E.
  unfold ClassicAddressGenerator in E. apply bind_Ok in E as (i&r1&_&[E _]%lift_Ok). by eapply contract_address_length.
Qed.

Lemma predictable_ok c s m f : generator_ok (PredictableAddressGenerator c s m f).
Proof.
  split; [intros; unfold PredictableAddressGenerator; preserves|]. intros id h r a r' E.
  unfold PredictableAddressGenerator in E. apply lift_Ok in E as [E _]. unfold BuildContractAddressPredictable in E.
  do 4 (apply res_bind_Ok in E as (?&_&E)). by eapply contract_address_length.
Qed.

Lemma record_contract_steps addr creator info msg p : creator <> ""%string ->
  String.length addr = ContractAddrLen -> Created info = Some p -> pos_ok p ->
  ContractCreator info = address_text creator ->
  Steps (fun v => v_infos v !! addr = None /\ is_Some (v_codes v !! CodeID info))
    (record_contract addr creator info msg).
Proof.
  intros Hne Hlen Hp Hpos Hcr. apply Steps_once; [by apply record_contract_no_err|].
  intros w w' [Hn Hc] E. apply (record_contract_Ok _ _ _ _ p) in E as (Hv&Hcodes&Hcon); [|done..].
  apply (step_new _ _ _ _ addr creator info (InitialHistory info msg) p); try done.
  rewrite Hcr. unfold address_text. rewrite decide_False by done. by apply bech32_roundtrip.
Qed.

Lemma record_contract_has addr creator info msg (w : W) w' :
  record_contract addr creator info msg w = (Ok tt, w') -> has_contract addr (view (store w')).
Proof.
  unfold record_contract. intros (?&?&_&(?&?&_&(?&?&_&(c&E&->)%with_con_Ok)%bind_Ok)%bind_Ok)%bind_Ok.
  apply modify_Ok in E as ->. unfold has_contract. cbn. by rewrite lookup_insert_eq.
Qed.

Definition v_has (addr : string) (v : View) : bool := bool_decide (is_Some (v_infos v !! addr)).

(** The code is still there when the contract is recorded, and the address is
    still free. *)
Lemma instantiate_steps ctx codeID creator admin msg label deposit gen pol :
  ctx_ok ctx -> generator_ok gen -> allowed gov pol ->
  Steps (fun _ => True) (instantiate cfg DispatchSubs ctx codeID creator admin msg label deposit gen pol).
Proof.
  intros Hctx [Hgen Hlen] Hpol. apply Steps_refuse. intros Hcr%bool_decide_eq_false.
  apply (Steps_gets _ _ _ (fun v => v_codes v !! codeID)). intros [ci|]; [|stepwise]. do 3 quietly.
  apply (Steps_post _ _ _ (fun a : string => String.length a = ContractAddrLen)).
  { apply Keeps_reg, Hgen. }
  { intros w a w'. unfold with_reg, zoom. destruct (gen _ _ _) as [y r] eqn:E. intros [= -> _]. by eapply Hlen. }
  intros addr Haddr.
  apply (Steps_gets _ _ _ (v_has addr)). intros has.
  apply Steps_refuse. intros ->. do 4 quietly. apply Steps_lift. intros at_ Hat. quietly. cbv zeta.
  eapply (Steps_seq _ _ _ (has_contract addr)).
  - eapply Steps_weaken; [|apply (record_contract_steps _ _ _ _ at_); try done].
    + intros v [[_ Hc] Hn]. cbn. rewrite Hc. split; [|done].
      by apply bool_decide_eq_false, eq_None_not_Some in Hn.
    + eapply position_ok; [apply Hctx|done].
  - intros w [] w' _ E. by eapply record_contract_has.
  - intros _. quietly. apply Steps_last; [|preserves].
    apply response_steps, ctx_ok_policy; [done|by apply sub_policy_allowed].
Qed.

(** *** Migration *)

Lemma Keeps_migrate ctx addr h msg id sender v :
  Preserves wview (callMigrateEntrypoint (B:=B) (A:=A) (X:=X) (G:=G) (Msg:=Msg) cfg ctx addr h msg id sender v).
Proof. unfold callMigrateEntrypoint. preserves. Qed.
#[local] Hint Resolve Keeps_migrate : quiet.

Lemma record_migration_steps ctx addr info0 info newID msg admin caller pol :
  ctx_ok ctx -> AdminAddr info0 = Ok admin -> allowed gov pol -> CanModifyContract pol admin caller = true ->
  ContractCreator info = ContractCreator info0 -> Admin info = Admin info0 ->
  Steps (fun v => v_infos v !! addr = Some info0 /\ is_Some (v_codes v !! newID) /\ v_may_act origin v caller)
    (record_migration ctx addr info newID msg).
Proof.
  intros Hctx Had Hpol Hcan Hcr Hadm. apply Steps_once; [apply record_migration_no_err|].
  intros w w' (Hi&Hc&Hact) E. apply record_migration_Ok in E as (old&p_old&p&Hold&Hpo&Hp&Hcodes&Hcon).
  apply (step_move _ _ _ _ addr admin caller pol info0 (set_code newID info) (mkHistory HistoryMigrate newID (Some p) msg) old p p_old);
    try done.
  eapply position_ok; [apply Hctx|done].
Qed.

Lemma record_migration_has ctx addr info newID msg (w : W) w' :
  record_migration ctx addr info newID msg w = (Ok tt, w') -> has_contract addr (view (store w')).
Proof.
  intros (old&p_old&p&_&_&_&_&Hcon&_)%record_migration_Ok. unfold has_contract. cbn. rewrite Hcon. cbn.
  by rewrite lookup_insert_eq.
Qed.

Lemma migrate_steps ctx addr caller newID msg pol : ctx_ok ctx -> allowed gov pol ->
  Steps (fun v => v_may_act origin v caller) (migrate cfg DispatchSubs ctx addr caller newID msg pol).
Proof.
  intros Hctx Hpol. apply Steps_store. intros s Hact. unfold GetContractInfo, GetCodeInfo.
  destruct (cinfos (ch_con s) !! addr) as [info|] eqn:Hi; [|stepwise].
  apply Steps_lift. intros admin Had. apply Steps_ensure. intros Hcan.
  destruct (codes (ch_reg s) !! newID) as [ci|] eqn:Hci; [|stepwise].
  do 4 quietly. cbv zeta. do 3 quietly.
  eapply (Steps_seq _ _ _ (has_contract addr)).
  - eapply Steps_weaken; [|by apply (record_migration_steps _ _ info _ _ _ admin caller pol)].
    intros v ->. split_and!; [done|cbn; by rewrite Hci|done].
  - intros w [] w' _ E. by eapply record_migration_has.
  - intros _. quietly. destruct x5 as [r|]; [|stepwise].
    apply response_steps, ctx_ok_policy; [done|by apply sub_policy_allowed].
Qed.

(** *** Administration and uploads *)

Lemma set_info_steps addr caller pol admin info info' : AdminAddr info = Ok admin -> allowed gov pol ->
  CanModifyContract pol admin caller = true -> CodeID info' = CodeID info ->
  ContractCreator info' = ContractCreator info ->
  Steps (fun v => v_may_act origin v caller /\ v_infos v !! addr = Some info) (with_con (mustStoreContractInfo addr info')).
Proof.
  intros Had Hal Hcan Hid Hcr. apply Steps_once; [by intros w e w' [=]|].
  intros w w' [Hact Hi] (c&E&->)%with_con_Ok. apply modify_Ok in E as ->.
  by apply (step_info _ _ _ _ addr admin caller pol info info').
Qed.

Lemma set_admin_steps addr caller newAdmin pol : allowed gov pol ->
  Steps (fun v => v_may_act origin v caller) (setContractAdmin addr caller newAdmin pol).
Proof.
  intros Hpol. apply (Steps_gets _ _ _ (fun v => v_infos v !! addr)). intros [info|]; [|stepwise].
  apply Steps_lift. intros admin Had. apply Steps_ensure. intros Hcan. cbv zeta.
  apply Steps_last; [|preserves]. by eapply set_info_steps.
Qed.

Lemma set_label_steps addr caller label pol : allowed gov pol ->
  Steps (fun v => v_may_act origin v caller) (setContractLabel addr caller label pol).
Proof.
  intros Hpol. apply (Steps_gets _ _ _ (fun v => v_infos v !! addr)). intros [info|]; [|stepwise].
  apply Steps_lift. intros admin Had. apply Steps_ensure. intros Hcan.
  apply Steps_last; [|preserves]. by eapply set_info_steps.
Qed.

Lemma store_code_steps id info : Steps (fun v => is_u64 id \/ is_Some (v_codes v !! id)) (mustStoreCodeInfo id info).
Proof.
  apply Steps_once; [by intros w e w' [=]|]. intros w w' Hid [= <-].
  by apply (step_code _ _ _ _ id info); [..|split_and!].
Qed.

Lemma set_access_steps id caller newConfig pol : Steps (fun _ => True) (setAccessConfig id caller newConfig pol).
Proof.
  apply Steps_store. intros s _. unfold GetCodeInfo. destruct (codes (ch_reg s) !! id) as [info|] eqn:Hi; [|stepwise].
  cbv zeta. do 2 quietly. apply Steps_last; [|preserves].
  eapply Steps_weaken; [|apply store_code_steps]. intros v ->. right. cbn. by rewrite Hi.
Qed.

Lemma be64s_decode_u64 s : String.length s = 8%nat -> is_u64 (be64s_decode s).
Proof.
  intros Hl. unfold be64s_decode, be_decode.
  assert (Hb : Forall is_byte (rev (string_to_bytes s))).
  { apply Forall_rev. clear. unfold string_to_bytes. induction (String.list_ascii_of_string s) as [|c l IH]; cbn; [constructor|].
    constructor; [|done]. unfold is_byte. pose proof (N_ascii_bounded c). lia. }
  assert (Hn : length (rev (string_to_bytes s)) = 8%nat).
  { rewrite length_rev. unfold string_to_bytes. rewrite length_map. clear -Hl.
    revert Hl. generalize 8%nat. induction s as [|c s IH]; intros n Hl; cbn in *; [done|]. destruct n; [done|].
    f_equal. apply IH. lia. }
  revert Hb Hn. generalize (rev (string_to_bytes s)). clear. intros l Hb Hn. unfold is_u64.
  replace (2 ^ 64) with (256 ^ Z.of_nat (length l)) by (rewrite Hn; done). clear Hn.
  induction Hb as [|x l Hx Hb IH]; [cbn; lia|]. cbn [length le_decode].
  rewrite Nat2Z.inj_succ, Z.pow_succ_r by lia. unfold is_byte in Hx. lia.
Qed.

Lemma sequence_u64 k (r : Registry) id r' : mustAutoIncrementID k r = (Ok id, r') -> is_u64 id.
Proof.
  intros E. unfold mustAutoIncrementID in E. apply bind_Ok in E as (bz&r1&[-> <-]%gets_Ok&E).
  apply bind_Ok in E as (i&r1&[Hi <-]%lift_Ok&E). apply bind_Ok in E as (u&r2&_&[-> _]%ret_Ok).
  destruct (seqs r !! k) as [bz|]; [|injection Hi as <-; unfold is_u64; lia].
  unfold BigEndian_Uint64 in Hi. apply res_bind_Ok in Hi as (u'&Hl%must_Ok&[= <-]).
  apply be64s_decode_u64. apply Nat.leb_le in Hl. clear -Hl.
  do 8 (destruct bz as [|? bz]; [cbn in Hl; lia|]). by destruct bz.
Qed.

(** A sequence number for a code, and the code stored under it. *)
Lemma Steps_new_code P {U} k (f : Z -> CodeInfo) (g : Z -> M W U) : (forall id, Keeps (g id)) ->
  Steps P (id ← with_reg (mustAutoIncrementID k); mustStoreCodeInfo id (f id);; g id).
Proof.
  intros Hg. apply (Steps_post _ _ _ (fun id : Z => is_u64 id)).
  - apply Keeps_reg, sequence_keeps_codes.
  - intros w id w'. unfold with_reg, zoom. destruct (mustAutoIncrementID k _) as [y r] eqn:E.
    intros [= -> _]. by eapply sequence_u64.
  - intros id Hid. apply Steps_last; [|auto]. eapply Steps_weaken; [|apply store_code_steps]. by left.
Qed.

Lemma create_steps ctx creator code access pol : Steps (fun _ => True) (create cfg ctx creator code access pol).
Proof.
  unfold create, authorize_create, uncompress_code, runtime_gas, consume_runtime, required_capabilities.
  do 4 quietly. destruct (if Simulate _ then _ else _) as [checksum used]. do 3 quietly.
  apply (Steps_new_code _ _ (fun id => mkCodeInfo _ _ _)). intros id. unfold Keeps. preserves.
Qed.

End Refinement.
