(* ===== verification/WasmIBC.v ===== *)
(** * x/wasm: contracts on IBC

    The handshake, packets and callbacks of IBC that are routed to a contract,
    on both versions of the protocol.  A contract that returns no
    acknowledgement leaves its packet to be acknowledged later. *)

From Stdlib Require Import ZArith Lia Ascii.
From stdpp Require Import base gmap strings list.
From S2P Require Import Prelude Sdk SdkRef Store GoLib Bank WasmAccess WasmGas WasmDispatch WasmCircuits.
From S2P Require Import WasmContracts WasmPackets WasmJson WasmLifecycle WasmSteps WasmRefine.

(** ** Data and dependencies *)

(** The acknowledgement of a packet: the contract's data, or an error. *)
Inductive Ack := ContractConfirmStateAck (data : string) | AckError (err : string).

Definition Ack_Success (a : Ack) : bool := match a with ContractConfirmStateAck _ => true | AckError _ => false end.

(** [channeltypesv2.RecvPacketResult]. *)
Inductive PacketStatus := PacketStatus_Success | PacketStatus_Failure | PacketStatus_Async.
Record RecvPacketResult := mkRecv { Status : PacketStatus; RecvAck : option string }.

(** The data of an ICS-20 packet, with the hops of its denomination. *)
Record TransferData := mkTransferData {
  TSender : string; TReceiver : string; TTrace : list (string * string); TBase : string; TAmount : string }.

(** The IBC keepers: channels, the application version of a channel, the port of
    the transfer module and the content of its packets. *)
Class IbcOps (X : Type) := {
  GetChannel : string -> string -> X -> option Channel;
  GetAppVersion : string -> string -> X -> option string;
  ParseChannelSequence : string -> res Z;
  GetPort : string;
  UnmarshalPacketData : string -> string -> res TransferData;
  Denom_HasPrefix : list (string * string) -> string -> string -> bool;
  IBCDenom : list (string * string) -> string -> string;
  Ack_Bytes : Ack -> string;
  ErrorAckText : string -> string
}.

(** ** The keeper's part *)

Section Relay.
Context {B A Acct X G Msg : Type} `{BankOps B} `{BankSend B} `{AccountKeeper A Acct} `{GasMeterOps G}
  `{Bech32} `{AddrPrefix} `{CircuitVM} `{AddressOps} `{JsonOps} `{ExtensionOps} `{SdkCoins} `{GoErrors} `{IbcOps X}
  `{WasmVM (World (Chain B A X) G) G Msg}.
Context (cfg : Config).
Context (DispatchSubs : Ctx -> string -> string -> list (SubMsg Msg) -> M (World (Chain B A X) G) (option string)).

Abbreviation S := (Chain B A X).
Abbreviation W := (World S G).

(** The cost of loading the contract, by the size of the message. *)
Definition ibc_setup (codeID : Z) (checksum : string) (msg : VmIBCCall) : M W unit :=
  pinned ← gets (fun w => IsPinnedCode codeID (ch_reg (store w)));
  let '(_, discount) := checkDiscountEligibility None checksum pinned in
  setupCost ← lift (SetupContractCost (gasRegister cfg) discount (ExpectedJSONSize msg));
  charge setupCost.

(** The call of an entry point: the error of the machine, or its result. *)
Definition ibc_run (ctx : Ctx) (addr checksum : string) (msg : VmIBCCall)
    : M W (string + option (ContractResult Msg)) :=
  env ← lift (NewEnv ctx addr);
  gasLeft ← runtime_gas cfg;
  out ← vm_step addr checksum env (VmIBC msg) gasLeft;
  consume_runtime cfg out.2;;
  mret out.1.

(** What an entry point other than packet receipt makes of the result. *)
Definition ibc_checked (ctx : Ctx) (addr checksum : string) (msg : VmIBCCall) : M W (option (Response Msg)) :=
  out ← ibc_run ctx addr checksum msg;
  match out with
  | inl _ => throw "ErrExecuteFailed"
  | inr None => throw "ErrVMError"
  | inr (Some r) => ensureM (bool_decide (ResultErr r = ""%string)) "ErrExecuteFailed";; mret (ResultOk r)
  end.

Definition handleIBCBasicContractResponse (ctx : Ctx) (addr id : string) (r : option (Response Msg)) : M W unit :=
  match r with
  | None => throw "ErrVMError"
  | Some r =>
      handleContractResponse cfg DispatchSubs ctx addr id
        (mkResponse (Messages r) (RespAttributes r) None (RespEvents r));;
      mret tt
  end.

(** The version of an accepted channel stands in the data of the response. *)
Definition OnOpenChannel (ctx : Ctx) (contractAddr : string) (msg : VmIBCCall) : M W string :=
  inst ← contractInstance contractAddr;
  let '(contractInfo, codeInfo) := inst in
  ibc_setup (CodeID contractInfo) (CodeHash codeInfo) msg;;
  r ← ibc_checked ctx contractAddr (CodeHash codeInfo) msg;
  mret (match r with None => ""%string | Some r => default ""%string (RespData r) end).

(** The entry points whose response has no data. *)
Definition ibc_basic (ctx : Ctx) (contractAddr : string) (msg : VmIBCCall) : M W unit :=
  inst ← contractInstance contractAddr;
  let '(contractInfo, codeInfo) := inst in
  ibc_setup (CodeID contractInfo) (CodeHash codeInfo) msg;;
  r ← ibc_checked ctx contractAddr (CodeHash codeInfo) msg;
  handleIBCBasicContractResponse ctx contractAddr (IBCPortID contractInfo) r.

Definition OnConnectChannel := ibc_basic.
Definition OnCloseChannel := ibc_basic.
Definition OnAckPacket := ibc_basic.
Definition keeper_OnTimeoutPacket := ibc_basic.
Definition IBCSourceCallback := ibc_basic.
Definition IBCDestinationCallback := ibc_basic.

(** An error of the machine aborts the transaction, an error of the contract is
    an error acknowledgement, no acknowledgement leaves the packet for later. *)
Definition keeper_OnRecvPacket (ctx : Ctx) (contractAddr : string) (packet : IBCPacket) (relayer : string)
    : M W (option Ack) :=
  inst ← contractInstance contractAddr;
  let '(contractInfo, codeInfo) := inst in
  let msg := IBCPacketReceive packet relayer in
  ibc_setup (CodeID contractInfo) (CodeHash codeInfo) msg;;
  out ← ibc_run ctx contractAddr (CodeHash codeInfo) msg;
  match out with
  | inl e => panic e
  | inr None => throw "ErrVMError"
  | inr (Some r) =>
      if negb (bool_decide (ResultErr r = ""%string)) then mret (Some (AckError (ResultErr r)))
      else match ResultOk r with
           | None => throw "ErrVMError"
           | Some resp =>
               data ← handleContractResponse cfg DispatchSubs ctx contractAddr (IBCPortID contractInfo) resp;
               match data with
               | None => with_async (StoreAsyncAckPacket (convertPacket packet));; mret None
               | Some d => mret (Some (ContractConfirmStateAck d))
               end
           end
  end.

(** Version 2 of the protocol: nothing is charged for loading the contract. *)
Definition ibc2_basic (ctx : Ctx) (contractAddr : string) (msg : VmIBCCall) : M W unit :=
  inst ← contractInstance contractAddr;
  let '(contractInfo, codeInfo) := inst in
  r ← ibc_checked ctx contractAddr (CodeHash codeInfo) msg;
  handleIBCBasicContractResponse ctx contractAddr (IBC2PortID contractInfo) r.

Definition OnAckIBC2Packet := ibc2_basic.
Definition OnTimeoutIBC2Packet := ibc2_basic.
Definition OnSendIBC2Packet := ibc2_basic.

(** An error becomes a failed result, with the text of the error. *)
Definition failed_result (m : M W RecvPacketResult) : M W RecvPacketResult := fun w =>
  match m w with
  | (Err e, w) => (Ok (mkRecv PacketStatus_Failure (Some (ErrorText e))), w)
  | r => r
  end.

Definition OnRecvIBC2Packet (ctx : Ctx) (contractAddr : string) (msg : VmIBCCall) : M W RecvPacketResult :=
  failed_result (
    inst ← contractInstance contractAddr;
    let '(contractInfo, codeInfo) := inst in
    out ← ibc_run ctx contractAddr (CodeHash codeInfo) msg;
    match out with
    | inl e => panic e
    | inr None => throw "ErrVMError"
    | inr (Some r) =>
        if negb (bool_decide (ResultErr r = ""%string))
        then mret (mkRecv PacketStatus_Failure (Some (ResultErr r)))
        else match ResultOk r with
             | None => throw "ErrVMError"
             | Some resp =>
                 data ← handleContractResponse cfg DispatchSubs ctx contractAddr (IBC2PortID contractInfo) resp;
                 mret (match data with
                       | None => mkRecv PacketStatus_Async None
                       | Some d => mkRecv PacketStatus_Success (Some d)
                       end)
             end
    end).

End Relay.

(** ** The IBC module *)

Section Handler.
Context {B A Acct X G Msg : Type} `{BankOps B} `{BankSend B} `{AccountKeeper A Acct} `{GasMeterOps G}
  `{Bech32} `{AddrPrefix} `{CircuitVM} `{AddressOps} `{JsonOps} `{ExtensionOps} `{SdkCoins} `{GoErrors} `{IbcOps X}
  `{WasmVM (World (Chain B A X) G) G Msg}.
Context (cfg : Config).
Context (DispatchSubs : Ctx -> string -> string -> list (SubMsg Msg) -> M (World (Chain B A X) G) (option string)).

Abbreviation S := (Chain B A X).
Abbreviation W := (World S G).

Definition ValidateChannelParams (channelID : string) : res unit :=
  channelSequence ← ParseChannelSequence channelID;
  refuse (2 ^ 32 - 1 <? channelSequence) "ErrMaxIBCChannels".

Definition OnChanOpenInit (ctx : Ctx) (order : string) (hops : list string) (portID channelID : string)
    (cpPort cpChannel version : string) : M W string :=
  lift (ValidateChannelParams channelID);;
  contractAddr ← lift (ContractFromPortID portID);
  hop ← lift (first_hop hops);
  acceptedVersion ← OnOpenChannel cfg ctx contractAddr
    (IBCOpenInit (mkIBCChannel (mkEndpoint portID channelID) (mkEndpoint cpPort cpChannel) order version hop));
  if bool_decide (acceptedVersion = ""%string) then
    refuseM (bool_decide (version = ""%string)) "ErrEmpty";; mret version
  else mret acceptedVersion.

Definition OnChanOpenTry (ctx : Ctx) (order : string) (hops : list string) (portID channelID : string)
    (cpPort cpChannel counterpartyVersion : string) : M W string :=
  lift (ValidateChannelParams channelID);;
  contractAddr ← lift (ContractFromPortID portID);
  hop ← lift (first_hop hops);
  version ← OnOpenChannel cfg ctx contractAddr
    (IBCOpenTry (mkIBCChannel (mkEndpoint portID channelID) (mkEndpoint cpPort cpChannel) order counterpartyVersion hop)
       counterpartyVersion);
  mret (if bool_decide (version = ""%string) then counterpartyVersion else version).

(** The contract of a port, the channel and its application version. *)
Definition channel_of (portID channelID : string) : M W (string * Channel * string) :=
  contractAddr ← lift (ContractFromPortID portID);
  x ← gets (fun w => ch_rest (store w));
  match GetChannel portID channelID x with
  | None => throw "ErrChannelNotFound"
  | Some channelInfo =>
      match GetAppVersion portID channelID x with
      | None => throw "ErrInvalidChannelVersion"
      | Some appVersion => mret (contractAddr, channelInfo, appVersion)
      end
  end.

Definition OnChanOpenAck (ctx : Ctx) (portID channelID counterpartyChannelID counterpartyVersion : string) : M W unit :=
  ch ← channel_of portID channelID;
  let '(contractAddr, info, appVersion) := ch in
  let info := mkChannel (Ordering info) (CounterpartyPort info) counterpartyChannelID (ConnectionHops info) in
  c ← lift (toWasmVMChannel portID channelID info appVersion);
  OnConnectChannel cfg DispatchSubs ctx contractAddr (IBCOpenAck c counterpartyVersion).

Definition OnChanOpenConfirm (ctx : Ctx) (portID channelID : string) : M W unit :=
  ch ← channel_of portID channelID;
  let '(contractAddr, info, appVersion) := ch in
  c ← lift (toWasmVMChannel portID channelID info appVersion);
  OnConnectChannel cfg DispatchSubs ctx contractAddr (IBCOpenConfirm c).

Definition OnChanCloseInit (ctx : Ctx) (portID channelID : string) : M W unit :=
  ch ← channel_of portID channelID;
  let '(contractAddr, info, appVersion) := ch in
  c ← lift (toWasmVMChannel portID channelID info appVersion);
  OnCloseChannel cfg DispatchSubs ctx contractAddr (IBCCloseInit c).

Definition OnChanCloseConfirm (ctx : Ctx) (portID channelID : string) : M W unit :=
  ch ← channel_of portID channelID;
  let '(contractAddr, info, appVersion) := ch in
  c ← lift (toWasmVMChannel portID channelID info appVersion);
  OnCloseChannel cfg DispatchSubs ctx contractAddr (IBCCloseConfirm c).

Definition bool_text (b : bool) : string := if b then "true" else "false".

(** [emitEvent]: the receipt of a packet. *)
Definition packet_event (contractAddr : string) (success : bool) (err : option string) : SdkEvent :=
  mkSdkEvent "ibc_packet_received"
    ([attr "module" ModuleName; attr "_contract_address" (address_text contractAddr);
      attr "success" (bool_text success)]
     ++ match err with Some e => [attr "error" (ErrorText e)] | None => [] end).

(** The receipt of a packet on a fresh event manager: the events of the contract
    are passed on when the acknowledgement is not an error. *)
Definition report_receipt (contractAddr : string) (m : M W (option Ack)) : M W (option Ack) := fun w =>
  let '(r, sub) := m (set_evs [] w) in
  match r with
  | Panic p => (Panic p, set_evs (evs w) sub)
  | Err e => (Ok (Some (AckError (ErrorAckText e))), set_evs (evs w ++ [packet_event contractAddr false (Some e)]) sub)
  | Ok ack =>
      let success := match ack with None => true | Some a => Ack_Success a end in
      (Ok ack, set_evs (evs w ++ (if success then evs sub else []) ++ [packet_event contractAddr success None]) sub)
  end.

Definition OnRecvPacket (ctx : Ctx) (packet : Packet) (relayer : string) : M W (option Ack) :=
  contractAddr ← lift (must_ok (ContractFromPortID (DestinationPort packet)));
  report_receipt contractAddr
    (keeper_OnRecvPacket cfg DispatchSubs ctx contractAddr (newIBCPacket packet) (address_text relayer)).

Definition OnAcknowledgementPacket (ctx : Ctx) (packet : Packet) (ack relayer : string) : M W unit :=
  contractAddr ← lift (ContractFromPortID (SourcePort packet));
  OnAckPacket cfg DispatchSubs ctx contractAddr (IBCPacketAck ack (newIBCPacket packet) (address_text relayer)).

Definition OnTimeoutPacket (ctx : Ctx) (packet : Packet) (relayer : string) : M W unit :=
  contractAddr ← lift (ContractFromPortID (SourcePort packet));
  keeper_OnTimeoutPacket cfg DispatchSubs ctx contractAddr (IBCPacketTimeout (newIBCPacket packet) (address_text relayer)).

(** *** Callbacks of other applications *)

Definition validateSender (contractAddr senderAddr : string) : res string :=
  contractAddress ← AccAddressFromBech32 contractAddr;
  senderAddress ← AccAddressFromBech32 senderAddr;
  ensure (bool_decide (contractAddress = senderAddress)) "ErrExecuteFailed";;
  mret contractAddress.

Definition IBCSendPacketCallback (contractAddress packetSender : string) : res unit :=
  validateSender contractAddress packetSender;; mret tt.

Definition IBCOnAcknowledgementPacketCallback (ctx : Ctx) (packet : Packet) (ack relayer contractAddress packetSender : string)
    : M W unit :=
  contractAddr ← lift (validateSender contractAddress packetSender);
  IBCSourceCallback cfg DispatchSubs ctx contractAddr (IBCSourceAck ack (newIBCPacket packet) (address_text relayer)).

Definition IBCOnTimeoutPacketCallback (ctx : Ctx) (packet : Packet) (relayer contractAddress packetSender : string)
    : M W unit :=
  contractAddr ← lift (validateSender contractAddress packetSender);
  IBCSourceCallback cfg DispatchSubs ctx contractAddr (IBCSourceTimeout (newIBCPacket packet) (address_text relayer)).

(** The denomination of the coins a transfer brings: one hop less when it comes
    back to this chain, one hop more otherwise. *)
Definition received_trace (packet : Packet) (trace : list (string * string)) : res (list (string * string)) :=
  if Denom_HasPrefix trace (SourcePort packet) (SourceChannel packet) then
    match trace with _ :: t => Ok t | [] => Panic "slice bounds out of range" end
  else Ok ((DestinationPort packet, DestinationChannel packet) :: trace).

(** The transfer a callback reports, when the packet was a successful one. *)
Definition transfer_callback (packet : Packet) (ack : Ack) (version : string) : res (option IBCTransferCallback) :=
  if bool_decide (DestinationPort packet = GetPort) && Ack_Success ack then
    data ← UnmarshalPacketData (PacketData packet) version;
    receiver ← AccAddressFromBech32 (TReceiver data);
    trace ← received_trace packet (TTrace data);
    mret (Some (mkTransferCb (address_text receiver) (TSender data) [(IBCDenom trace (TBase data), TAmount data)]))
  else mret None.

Definition IBCReceivePacketCallback (ctx : Ctx) (packet : Packet) (ack : Ack) (contractAddress version : string)
    : M W unit :=
  contractAddr ← lift (AccAddressFromBech32 contractAddress);
  transfer ← lift (transfer_callback packet ack version);
  IBCDestinationCallback cfg DispatchSubs ctx contractAddr (IBCDestination (Ack_Bytes ack) (newIBCPacket packet) transfer).

(** *** Version 2 *)

Definition newIBC2Payload (p : IBC2Payload) : IBC2Payload :=
  mkPayload (PSourcePort p) (PDestinationPort p) (PVersion p) (PEncoding p) (PValue p).

Definition IBC2_OnSendPacket (ctx : Ctx) (source destination : string) (sequence : Z) (payload : IBC2Payload)
    (signer : string) : M W unit :=
  contractAddr ← lift (must_ok (ContractFromPortID2 (PSourcePort payload)));
  ensureM (bool_decide (signer = contractAddr)) "ErrUnauthorized";;
  OnSendIBC2Packet cfg DispatchSubs ctx contractAddr
    (IBC2PacketSend (newIBC2Payload payload) source destination sequence (address_text signer)).

(** The events of the contract are passed on with a success only. *)
Definition report_receipt2 (contractAddr : string) (m : M W RecvPacketResult) : M W RecvPacketResult := fun w =>
  let '(r, sub) := m (set_evs [] w) in
  match r with
  | Ok ack =>
      let ok := match Status ack with PacketStatus_Success => true | _ => false end in
      let success := match RecvAck ack with None => true | Some _ => ok end in
      (Ok ack, set_evs (evs w ++ (if ok then evs sub else []) ++ [packet_event contractAddr success None]) sub)
  | _ => (r, set_evs (evs w) sub)
  end.

Definition IBC2_OnRecvPacket (ctx : Ctx) (source destination : string) (sequence : Z) (payload : IBC2Payload)
    (relayer : string) : M W RecvPacketResult :=
  contractAddr ← lift (must_ok (ContractFromPortID2 (PDestinationPort payload)));
  report_receipt2 contractAddr (OnRecvIBC2Packet cfg DispatchSubs ctx contractAddr
    (IBC2PacketReceive (newIBC2Payload payload) (address_text relayer) source destination sequence)).

Definition IBC2_OnTimeoutPacket (ctx : Ctx) (source destination : string) (sequence : Z) (payload : IBC2Payload)
    (relayer : string) : M W unit :=
  contractAddr ← lift (ContractFromPortID2 (PSourcePort payload));
  OnTimeoutIBC2Packet cfg DispatchSubs ctx contractAddr
    (IBC2PacketTimeout (newIBC2Payload payload) source destination sequence (address_text relayer)).

Definition IBC2_OnAcknowledgementPacket (ctx : Ctx) (source destination : string) (ack : string) (payload : IBC2Payload)
    (relayer : string) : M W unit :=
  contractAddr ← lift (ContractFromPortID2 (PSourcePort payload));
  OnAckIBC2Packet cfg DispatchSubs ctx contractAddr
    (IBC2PacketAck source destination (newIBC2Payload payload) ack (address_text relayer)).

(** *** Everything IBC may ask of the module *)

Inductive IbcCall :=
| ChanOpenInit (order : string) (hops : list string) (port channel cpPort cpChannel version : string)
| ChanOpenTry (order : string) (hops : list string) (port channel cpPort cpChannel version : string)
| ChanOpenAck (port channel cpChannel cpVersion : string)
| ChanOpenConfirm (port channel : string)
| ChanCloseInit (port channel : string)
| ChanCloseConfirm (port channel : string)
| RecvPacket (p : Packet) (relayer : string)
| AcknowledgementPacket (p : Packet) (ack relayer : string)
| TimeoutPacket (p : Packet) (relayer : string)
| SendCallback (contract sender : string)
| AckCallback (p : Packet) (ack relayer contract sender : string)
| TimeoutCallback (p : Packet) (relayer contract sender : string)
| ReceiveCallback (p : Packet) (ack : Ack) (contract version : string)
| SendPacket2 (source destination : string) (sequence : Z) (p : IBC2Payload) (signer : string)
| RecvPacket2 (source destination : string) (sequence : Z) (p : IBC2Payload) (relayer : string)
| TimeoutPacket2 (source destination : string) (sequence : Z) (p : IBC2Payload) (relayer : string)
| AcknowledgementPacket2 (source destination ack : string) (p : IBC2Payload) (relayer : string).

Inductive IbcResult := IbcDone | IbcVersion (v : string) | IbcAck (a : option Ack) | IbcReceived (r : RecvPacketResult).

Definition ibc_call (ctx : Ctx) (c : IbcCall) : M W IbcResult :=
  match c with
  | ChanOpenInit o h p c cp cc v => v ← OnChanOpenInit ctx o h p c cp cc v; mret (IbcVersion v)
  | ChanOpenTry o h p c cp cc v => v ← OnChanOpenTry ctx o h p c cp cc v; mret (IbcVersion v)
  | ChanOpenAck p c cc v => OnChanOpenAck ctx p c cc v;; mret IbcDone
  | ChanOpenConfirm p c => OnChanOpenConfirm ctx p c;; mret IbcDone
  | ChanCloseInit p c => OnChanCloseInit ctx p c;; mret IbcDone
  | ChanCloseConfirm p c => OnChanCloseConfirm ctx p c;; mret IbcDone
  | RecvPacket p r => a ← OnRecvPacket ctx p r; mret (IbcAck a)
  | AcknowledgementPacket p a r => OnAcknowledgementPacket ctx p a r;; mret IbcDone
  | TimeoutPacket p r => OnTimeoutPacket ctx p r;; mret IbcDone
  | SendCallback c s => lift (IBCSendPacketCallback c s);; mret IbcDone
  | AckCallback p a r c s => IBCOnAcknowledgementPacketCallback ctx p a r c s;; mret IbcDone
  | TimeoutCallback p r c s => IBCOnTimeoutPacketCallback ctx p r c s;; mret IbcDone
  | ReceiveCallback p a c v => IBCReceivePacketCallback ctx p a c v;; mret IbcDone
  | SendPacket2 s d n p g => IBC2_OnSendPacket ctx s d n p g;; mret IbcDone
  | RecvPacket2 s d n p r => x ← IBC2_OnRecvPacket ctx s d n p r; mret (IbcReceived x)
  | TimeoutPacket2 s d n p r => IBC2_OnTimeoutPacket ctx s d n p r;; mret IbcDone
  | AcknowledgementPacket2 s d a p r => IBC2_OnAcknowledgementPacket ctx s d a p r;; mret IbcDone
  end.

End Handler.

(** ** IBC calls take steps *)

Section IbcRefinement.
Context {B A Acct X G Msg : Type} `{BankOps B} `{BankSend B} `{AccountKeeper A Acct} `{GasMeterOps G}
  `{Bech32} `{AddrPrefix} `{CircuitVM} `{AddressOps} `{JsonOps} `{ExtensionOps} `{SdkCoins} `{GoErrors} `{IbcOps X}
  `{WasmVM (World (Chain B A X) G) G Msg}.
Context (cfg : Config).

Abbreviation W := (World (Chain B A X) G).

Context (DispatchSubs : Ctx -> string -> string -> list (SubMsg Msg) -> M W (option string)) (gov : bool)
  (origin : string -> Prop).

Abbreviation Steps := (Steps (B:=B) (A:=A) (X:=X) (G:=G) gov origin).

Hypothesis subs_steps : forall ctx addr port msgs, ctx_ok gov ctx ->
  Steps (has_contract addr) (DispatchSubs ctx addr port msgs).

Lemma Keeps_ibc_setup id h m : Preserves wview (ibc_setup (B:=B) (A:=A) (X:=X) (G:=G) cfg id h m).
Proof. unfold ibc_setup. preserves. Qed.

Lemma Keeps_ibc_run ctx a h m : Preserves wview (ibc_run (B:=B) (A:=A) (X:=X) (G:=G) (Msg:=Msg) cfg ctx a h m).
Proof. unfold ibc_run, runtime_gas, consume_runtime. preserves. Qed.
#[local] Hint Resolve Keeps_ibc_setup Keeps_ibc_run : quiet.

Lemma Keeps_ibc_checked ctx a h m : Preserves wview (ibc_checked (B:=B) (A:=A) (X:=X) (G:=G) (Msg:=Msg) cfg ctx a h m).
Proof. unfold ibc_checked. preserves. Qed.
#[local] Hint Resolve Keeps_ibc_checked : quiet.

Lemma basic_response_steps ctx addr port r : ctx_ok gov ctx ->
  Steps (has_contract addr) (handleIBCBasicContractResponse cfg DispatchSubs ctx addr port r).
Proof.
  intros Hctx. unfold handleIBCBasicContractResponse. destruct r as [r|]; [|stepwise].
  apply Steps_last; [|preserves]. by apply response_steps.
Qed.

Lemma ibc_basic_steps ctx addr msg : ctx_ok gov ctx -> Steps (fun _ => True) (ibc_basic cfg DispatchSubs ctx addr msg).
Proof.
  intros Hctx. apply Steps_instance. intros i c. do 2 quietly.
  eapply Steps_weaken; [apply has_contract_of|by apply basic_response_steps].
Qed.

Lemma ibc2_basic_steps ctx addr msg : ctx_ok gov ctx -> Steps (fun _ => True) (ibc2_basic cfg DispatchSubs ctx addr msg).
Proof.
  intros Hctx. apply Steps_instance. intros i c. quietly.
  eapply Steps_weaken; [apply has_contract_of|by apply basic_response_steps].
Qed.

(** What both versions make of the result of a receipt. *)
Lemma receipt_steps {T} ctx addr port (out : string + option (ContractResult Msg))
    (reject : string -> T) (finish : option string -> M W T) : ctx_ok gov ctx -> (forall d, Keeps (finish d)) ->
  Steps (has_contract addr)
    (match out with
     | inl e => panic e
     | inr None => throw "ErrVMError"
     | inr (Some r) =>
         if negb (bool_decide (ResultErr r = ""%string)) then mret (reject (ResultErr r))
         else match ResultOk r with
              | None => throw "ErrVMError"
              | Some resp => data ← handleContractResponse cfg DispatchSubs ctx addr port resp; finish data
              end
     end).
Proof.
  intros Hctx Hf. destruct out as [e|[r|]]; [stepwise| |stepwise]. destruct (negb _); [stepwise|].
  destruct (ResultOk r) as [resp|]; [|stepwise]. apply Steps_last; [by apply response_steps|auto].
Qed.

Lemma keeper_recv_steps ctx addr p relayer : ctx_ok gov ctx ->
  Steps (fun _ => True) (keeper_OnRecvPacket cfg DispatchSubs ctx addr p relayer).
Proof.
  intros Hctx. apply Steps_instance. intros i c. cbv zeta. do 2 quietly.
  eapply Steps_weaken; [apply has_contract_of|].
  apply (receipt_steps _ _ _ _ (fun e => Some (AckError e))); [done|]. intros d. unfold Keeps. preserves.
Qed.

Lemma keeper_recv2_steps ctx addr msg : ctx_ok gov ctx ->
  Steps (fun _ => True) (OnRecvIBC2Packet cfg DispatchSubs ctx addr msg).
Proof.
  intros Hctx w r w' HP Hsz E Hr. unfold OnRecvIBC2Packet, failed_result in E.
  match type of E with match ?m w with _ => _ end = _ => set (body := m) in E; assert (Hs : Steps (fun _ => True) body) end.
  { apply Steps_instance. intros i c. quietly. eapply Steps_weaken; [apply has_contract_of|].
    apply (receipt_steps _ _ _ _ (fun e => mkRecv PacketStatus_Failure (Some e))); [done|]. intros d. unfold Keeps. preserves. }
  destruct (body w) as [[y|e|e] w1] eqn:E1; injection E as <- <-; [by eapply Hs..|done].
Qed.

(** Reporting the receipt changes events only. *)
Lemma report_steps P addr m : Steps P m -> Steps P (report_receipt addr m).
Proof.
  intros Hm w r w' HP Hsz E Hr. unfold report_receipt in E. destruct (m (set_evs [] w)) as [[a|e|e] sub] eqn:E1.
  - injection E as <- <-. exact (Hm (set_evs [] w) _ _ HP Hsz E1 I).
  - injection E as <- <-. exact (Hm (set_evs [] w) _ _ HP Hsz E1 I).
  - by injection E as <- <-.
Qed.

Lemma report2_steps P addr m : Steps P m -> Steps P (report_receipt2 addr m).
Proof.
  intros Hm w r w' HP Hsz E Hr. unfold report_receipt2 in E. destruct (m (set_evs [] w)) as [[a|e|e] sub] eqn:E1.
  - injection E as <- <-. exact (Hm (set_evs [] w) _ _ HP Hsz E1 I).
  - injection E as <- <-. exact (Hm (set_evs [] w) _ _ HP Hsz E1 I).
  - by injection E as <- <-.
Qed.

Lemma Keeps_open ctx addr msg : Preserves wview (OnOpenChannel (Msg:=Msg) (B:=B) (A:=A) (X:=X) (G:=G) cfg ctx addr msg).
Proof. unfold OnOpenChannel, contractInstance. preserves. Qed.

Lemma Keeps_channel_of p c : Preserves wview (channel_of (B:=B) (A:=A) (X:=X) (G:=G) p c).
Proof. unfold channel_of. preserves. Qed.
#[local] Hint Resolve Keeps_open Keeps_channel_of : quiet.

#[local] Hint Resolve ibc_basic_steps ibc2_basic_steps keeper_recv_steps keeper_recv2_steps report_steps report2_steps : steps.

(** Whatever IBC asks of the module takes steps. *)
Lemma ibc_call_steps ctx c : ctx_ok gov ctx -> Steps (fun _ => True) (ibc_call cfg DispatchSubs ctx c).
Proof.
  intros Hctx. destruct c; cbn [ibc_call]; (apply Steps_last; [|preserves]);
    unfold OnChanOpenInit, OnChanOpenTry, OnChanOpenAck, OnChanOpenConfirm, OnChanCloseInit, OnChanCloseConfirm,
      OnRecvPacket, OnAcknowledgementPacket, OnTimeoutPacket, IBCOnAcknowledgementPacketCallback,
      IBCOnTimeoutPacketCallback, IBCReceivePacketCallback, IBC2_OnSendPacket, IBC2_OnRecvPacket, IBC2_OnTimeoutPacket,
      IBC2_OnAcknowledgementPacket, OnConnectChannel, OnCloseChannel, OnAckPacket, keeper_OnTimeoutPacket,
      IBCSourceCallback, IBCDestinationCallback, OnAckIBC2Packet, OnTimeoutIBC2Packet, OnSendIBC2Packet; stepwise.
  all: match goal with p : (string * Channel * string)%type |- _ => destruct p as [[? ?] ?]; stepwise end.
Qed.

End IbcRefinement.
