(* ===== verification/WasmAuthz.v ===== *)
(** * x/wasm: authorisations

    The authorisations an account can give another one through [x/authz]: to
    store code with given hashes, and to execute or migrate given contracts
    within a limit on calls and funds and a filter on the message. *)

From Stdlib Require Import ZArith Lia Ascii.
From stdpp Require Import base gmap strings list.
From S2P Require Import Prelude Sdk SdkRef GoLib WasmAccess WasmGas WasmCircuits.

(** ** Dependencies *)

(** [Coins.Empty] and [Coins.IsZero]. *)
Class SdkCoinTests := { Coins_Empty : list Coin -> bool; Coins_IsZero : list Coin -> bool }.

Class SdkCoinTestsLaws `{SdkCoinTests} : Prop := {
  Coins_Empty_spec c : Coins_Empty c = true <-> c = [];
  Coins_IsZero_spec c : Coins_IsZero c = true <-> Forall (fun x => Amount x = 0) c
}.

(** [json.Valid], and the keys of the map that [json.Unmarshal] fills. *)
Class AuthzJson := { json_Valid : string -> bool; UnmarshalMap : string -> option (gset string) }.

(** The tables of package [unicode] behind [EqualFold] and [ToLower]. *)
Class UnicodeTables := { SimpleFold : Z -> Z -> bool; LowerRune : Z -> Z }.

(** [wasmvm.CreateChecksum]. *)
Class Checksums := { CreateChecksum : string -> res string }.

(** ** Text as [strings.EqualFold] and [strings.ToLower] see it *)

Definition RuneError : Z := 65533.

Definition byte (c : ascii) : Z := Z.of_N (N_of_ascii c).

(** The first rune of a byte sequence with its width; an invalid encoding is
    one byte wide. *)
Definition DecodeRune (b0 : Z) (rest : list Z) : Z * nat :=
  let within lo hi b := (lo <=? b) && (b <=? hi) in
  let cont b := within 128 191 b in
  if b0 <? 128 then (b0, 1%nat)
  else match rest with
  | b1 :: rest1 =>
      if within 194 223 b0 && cont b1 then ((b0 - 192) * 64 + (b1 - 128), 2%nat)
      else match rest1 with
      | b2 :: rest2 =>
          let lo := if b0 =? 224 then 160 else 128 in
          let hi := if b0 =? 237 then 159 else 191 in
          if within 224 239 b0 && within lo hi b1 && cont b2
          then ((b0 - 224) * 4096 + (b1 - 128) * 64 + (b2 - 128), 3%nat)
          else match rest2 with
          | b3 :: _ =>
              let lo := if b0 =? 240 then 144 else 128 in
              let hi := if b0 =? 244 then 143 else 191 in
              if within 240 244 b0 && within lo hi b1 && cont b2 && cont b3
              then ((b0 - 240) * 262144 + (b1 - 128) * 4096 + (b2 - 128) * 64 + (b3 - 128), 4%nat)
              else (RuneError, 1%nat)
          | [] => (RuneError, 1%nat)
          end
      | [] => (RuneError, 1%nat)
      end
  | [] => (RuneError, 1%nat)
  end.

(** The runes of a string; [skip] bytes belong to the rune read last. *)
Fixpoint runes_from (skip : nat) (bz : list Z) : list Z :=
  match bz with
  | [] => []
  | b :: rest =>
      match skip with
      | S skip => runes_from skip rest
      | O => let '(r, w) := DecodeRune b rest in r :: runes_from (w - 1) rest
      end
  end.

Definition runes (s : string) : list Z := runes_from 0 (map byte (String.list_ascii_of_string s)).

Fixpoint same_fold `{UnicodeTables} (a b : list Z) : bool :=
  match a, b with
  | [], [] => true
  | x :: a, y :: b => ((x =? y) || SimpleFold x y) && same_fold a b
  | _, _ => false
  end.

Definition EqualFold `{UnicodeTables} (s t : string) : bool := same_fold (runes s) (runes t).

Definition char_of (b : Z) : ascii := ascii_of_N (Z.to_N b).

Definition EncodeRune (r : Z) : string :=
  String.string_of_list_ascii (map char_of
    (if r <? 128 then [r]
     else if r <? 2048 then [192 + r / 64; 128 + r mod 64]
     else if r <? 65536 then [224 + r / 4096; 128 + r / 64 mod 64; 128 + r mod 64]
     else [240 + r / 262144; 128 + r / 4096 mod 64; 128 + r / 64 mod 64; 128 + r mod 64])).

Definition ToLower `{UnicodeTables} (s : string) : string :=
  foldr (fun r t => EncodeRune (LowerRune r) ++ t)%string ""%string (runes s).

(** [unicode.IsSpace]. *)
Definition IsSpace (r : Z) : bool :=
  ((9 <=? r) && (r <=? 13)) || ((8192 <=? r) && (r <=? 8202)) ||
  bool_decide (r ∈ [32; 133; 160; 5760; 8232; 8233; 8239; 8287; 12288]).

(** [s == strings.TrimSpace(s)]: no space at either end. *)
Definition is_trimmed (s : string) : bool :=
  let ends o := match o with Some r => IsSpace r | None => false end in
  negb (ends (head (runes s))) && negb (ends (last (runes s))).

(** ** Data *)

Record CodeGrant := mkCodeGrant { CodeHash : string; InstantiatePermission : option AccessConfig }.

Inductive ContractAuthzLimitX :=
| UndefinedLimit
| MaxCallsLimit (Remaining : Z)
| MaxFundsLimit (Amounts : list Coin)
| CombinedLimit (CallsRemaining : Z) (Amounts : list Coin).

Inductive ContractAuthzFilterX :=
| UndefinedFilter
| AllowAllMessagesFilter
| AcceptedMessageKeysFilter (Keys : list string)
| AcceptedMessagesFilter (Messages : list string).

(** The cached value of a protobuf [Any]. *)
Inductive AnyValue :=
| AnyLimit (l : ContractAuthzLimitX)
| AnyFilter (f : ContractAuthzFilterX)
| AnyOther.

Record ContractGrant := mkGrant { Contract : string; Limit : option AnyValue; Filter : option AnyValue }.

Record ContractAuthzLimitAcceptResult := mkLimitResult {
  Accepted : bool; DeleteLimit : bool; UpdateLimit : option ContractAuthzLimitX }.

(** [authz.AcceptResponse]; the updated authorisation is of the same kind. *)
Record AcceptResponse := mkAccept { Accept : bool; Delete : bool; Updated : option (list ContractGrant) }.

Record MsgStoreCode := mkStoreCode { WASMByteCode : string; StorePermission : option AccessConfig }.

(** A nil message body is kept apart from an empty one. *)
Record MsgExecuteContract := mkExecute {
  ExecSender : string; ExecContract : string; ExecMsg : option string; ExecFunds : list Coin }.
Record MsgMigrateContract := mkMigrate {
  MigSender : string; MigContract : string; MigCodeID : Z; MigMsg : option string }.

(** [sdk.Msg], as far as the authorisations tell messages apart. *)
Inductive SdkMsg :=
| StoreCodeMsg (m : MsgStoreCode)
| ExecuteMsg (m : MsgExecuteContract)
| MigrateMsg (m : MsgMigrateContract)
| OtherMsg.

(** [AuthzableWasmMsg], with the type assertion from [sdk.Msg]. *)
Class AuthzableWasmMsg (T : Type) := {
  as_msg : SdkMsg -> option T;
  GetFunds : T -> res (list Coin);
  GetMsg : T -> option string;
  GetContract : T -> string;
  Msg_ValidateBasic : T -> res unit
}.

(** [cdctypes.NewAnyWithValue]. *)
Class AnyPacking := { NewAnyWithValue : ContractAuthzLimitX -> res AnyValue }.

(** Documented: the value packed is also cached; packing fails only when the
    value has no protobuf encoding, which every limit has. *)
Class AnyPackingLaws `{AnyPacking} : Prop := {
  NewAnyWithValue_ok l : NewAnyWithValue l = Ok (AnyLimit l)
}.

(** ** Messages *)

Section Model.
Context {G : Type} `{GasMeterOps G} `{SdkCoins} `{SdkCoinTests} `{Bech32} `{AuthzJson} `{UnicodeTables}
  `{AnyPacking} `{Checksums} `{CircuitVM}.

(** Every message is passed by reference, so that only its contents count. *)
Definition RawContractMessage_ValidateBasic (r : option string) : res unit :=
  ensure (json_Valid (default ""%string r)) "ErrInvalid".

Definition MsgExecuteContract_ValidateBasic (msg : MsgExecuteContract) : res unit :=
  AccAddressFromBech32 (ExecSender msg);;
  AccAddressFromBech32 (ExecContract msg);;
  Coins_Validate (ExecFunds msg);;
  RawContractMessage_ValidateBasic (ExecMsg msg).

Definition MsgMigrateContract_ValidateBasic (msg : MsgMigrateContract) : res unit :=
  refuse (MigCodeID msg =? 0) "ErrInvalidRequest";;
  AccAddressFromBech32 (MigSender msg);;
  AccAddressFromBech32 (MigContract msg);;
  RawContractMessage_ValidateBasic (MigMsg msg).

#[export] Instance execute_authzable : AuthzableWasmMsg MsgExecuteContract := {|
  as_msg m := match m with ExecuteMsg e => Some e | _ => None end;
  GetFunds msg := Ok (ExecFunds msg);
  GetMsg := ExecMsg;
  GetContract := ExecContract;
  Msg_ValidateBasic := MsgExecuteContract_ValidateBasic
|}.

#[export] Instance migrate_authzable : AuthzableWasmMsg MsgMigrateContract := {|
  as_msg m := match m with MigrateMsg e => Some e | _ => None end;
  GetFunds _ := NewCoins [];
  GetMsg := MigMsg;
  GetContract := MigContract;
  Msg_ValidateBasic := MsgMigrateContract_ValidateBasic
|}.

(** ** Limits *)

Definition NewCombinedLimit (maxCalls : Z) (maxAmounts : list Coin) : res ContractAuthzLimitX :=
  amounts ← NewCoins maxAmounts; Ok (CombinedLimit maxCalls amounts).

Definition not_applicable : ContractAuthzLimitAcceptResult := mkLimitResult false false None.

Definition MaxCallsLimit_Accept (n : Z) (funds : list Coin) : res ContractAuthzLimitAcceptResult :=
  if negb (Coins_Empty funds) then Ok not_applicable
  else if n =? 0 then Err "ErrUnauthorized"
  else if n =? 1 then Ok (mkLimitResult true true None)
  else Ok (mkLimitResult true false (Some (MaxCallsLimit (u64 (n - 1))))).

Definition MaxFundsLimit_Accept (amounts funds : list Coin) : res ContractAuthzLimitAcceptResult :=
  if Coins_Empty funds then Ok (mkLimitResult true false None)
  else if negb (is_all_lte funds amounts) then Ok not_applicable
  else
    newAmounts ← coins_sub amounts funds;
    if Coins_IsZero newAmounts then Ok (mkLimitResult true true None)
    else Ok (mkLimitResult true false (Some (MaxFundsLimit newAmounts))).

Definition CombinedLimit_Accept (n : Z) (amounts transferFunds : list Coin)
    : res ContractAuthzLimitAcceptResult :=
  if negb (is_all_lte transferFunds amounts) then Ok not_applicable
  else if n =? 0 then Err "ErrUnauthorized"
  else if n =? 1 then Ok (mkLimitResult true true None)
  else
    remainingAmounts ← coins_sub amounts transferFunds;
    if Coins_IsZero remainingAmounts then Ok (mkLimitResult true true None)
    else l ← NewCombinedLimit (u64 (n - 1)) remainingAmounts; Ok (mkLimitResult true false (Some l)).

(** [funds] is the call of the message's [GetFunds]. *)
Definition Limit_Accept (l : ContractAuthzLimitX) (funds : res (list Coin)) : res ContractAuthzLimitAcceptResult :=
  match l with
  | UndefinedLimit => Err "ErrNotFound"
  | MaxCallsLimit n => f ← funds; MaxCallsLimit_Accept n f
  | MaxFundsLimit amounts => f ← funds; MaxFundsLimit_Accept amounts f
  | CombinedLimit n amounts => f ← funds; CombinedLimit_Accept n amounts f
  end.

Definition Limit_ValidateBasic (l : ContractAuthzLimitX) : res unit :=
  match l with
  | UndefinedLimit => Err "ErrInvalidType"
  | MaxCallsLimit n => refuse (n =? 0) "ErrEmpty"
  | MaxFundsLimit amounts => Coins_Validate amounts;; refuse (Coins_IsZero amounts) "ErrEmpty"
  | CombinedLimit n amounts =>
      refuse (n =? 0) "ErrEmpty";; refuse (Coins_IsZero amounts) "ErrEmpty";; Coins_Validate amounts
  end.

(** ** Filters *)

Definition isJSONObjectWithTopLevelKey (jsonBytes : string) (allowedKeys : list string) : res bool :=
  RawContractMessage_ValidateBasic (Some jsonBytes);;
  match UnmarshalMap jsonBytes with
  | None => Ok false
  | Some document =>
      match elements document with
      | [topLevelKey] => Ok (bool_decide (topLevelKey ∈ allowedKeys))
      | _ => Ok false
      end
  end.

Definition gasDeserializationCostPerByte : Z := 1.

Definition AcceptedMessageKeysFilter_Accept (keys : list string) (msg : string) : M G bool :=
  ConsumeGas (u64 (gasDeserializationCostPerByte * u64 (slen msg)));;
  lift (wrap_err "ErrUnauthorized" (isJSONObjectWithTopLevelKey msg keys)).

Definition Filter_Accept (f : ContractAuthzFilterX) (msg : string) : M G bool :=
  match f with
  | UndefinedFilter => throw "ErrNotFound"
  | AllowAllMessagesFilter => lift (RawContractMessage_ValidateBasic (Some msg);; Ok true)
  | AcceptedMessageKeysFilter keys => AcceptedMessageKeysFilter_Accept keys msg
  | AcceptedMessagesFilter messages => mret (existsb (String.eqb msg) messages)
  end.

(** The loops of the two [ValidateBasic] with the index of what was seen. *)
Fixpoint validate_keys (idx : gset string) (l : list string) : res unit :=
  match l with
  | [] => Ok tt
  | m :: l =>
      refuse (String.eqb m "") "ErrEmpty";;
      ensure (is_trimmed m) "ErrInvalid";;
      refuse (bool_decide (m ∈ idx)) "ErrDuplicate";;
      validate_keys ({[m]} ∪ idx) l
  end.

Fixpoint validate_messages (idx : gset string) (l : list string) : res unit :=
  match l with
  | [] => Ok tt
  | m :: l =>
      refuse (String.eqb m "") "ErrEmpty";;
      RawContractMessage_ValidateBasic (Some m);;
      refuse (bool_decide (m ∈ idx)) "ErrDuplicate";;
      validate_messages ({[m]} ∪ idx) l
  end.

Definition Filter_ValidateBasic (f : ContractAuthzFilterX) : res unit :=
  match f with
  | UndefinedFilter => Err "ErrInvalidType"
  | AllowAllMessagesFilter => Ok tt
  | AcceptedMessageKeysFilter keys => refuse (length keys =? 0)%nat "ErrEmpty";; validate_keys ∅ keys
  | AcceptedMessagesFilter messages =>
      refuse (length messages =? 0)%nat "ErrEmpty";; validate_messages ∅ messages
  end.

(** ** Grants *)

Definition GetLimit (g : ContractGrant) : ContractAuthzLimitX :=
  match Limit g with Some (AnyLimit a) => a | _ => UndefinedLimit end.

Definition GetFilter (g : ContractGrant) : ContractAuthzFilterX :=
  match Filter g with Some (AnyFilter a) => a | _ => UndefinedFilter end.

(** [UndefinedLimit] is no protobuf message. *)
Definition WithNewLimits (g : ContractGrant) (limit : ContractAuthzLimitX) : res ContractGrant :=
  match limit with
  | UndefinedLimit => Err "ErrInvalidType"
  | _ => anyLimit ← NewAnyWithValue limit; Ok (mkGrant (Contract g) (Some anyLimit) (Filter g))
  end.

Definition ContractGrant_ValidateBasic (g : ContractGrant) : res unit :=
  AccAddressFromBech32 (Contract g);;
  Limit_ValidateBasic (GetLimit g);;
  Filter_ValidateBasic (GetFilter g).

Fixpoint validate_each (g : list ContractGrant) : res unit :=
  match g with
  | [] => Ok tt
  | v :: g => ContractGrant_ValidateBasic v;; validate_each g
  end.

Definition validateGrants (g : list ContractGrant) : res unit :=
  refuse (length g =? 0)%nat "ErrEmpty";; validate_each g.

(** What becomes of the grants when grant [g] between [before] and [after]
    applied with [result].  The source rebuilds the slice in place; the
    authorisation it belonged to is replaced by the updated one. *)
Definition update_grants (before : list ContractGrant) (g : ContractGrant) (after : list ContractGrant)
    (result : ContractAuthzLimitAcceptResult) : res AcceptResponse :=
  if DeleteLimit result then
    let updatedGrants := before ++ after in
    if (length updatedGrants =? 0)%nat then Ok (mkAccept true true None)
    else wrap_err "ErrInvalid" (validateGrants updatedGrants);; Ok (mkAccept true false (Some updatedGrants))
  else match UpdateLimit result with
  | Some limit =>
      obj ← WithNewLimits g limit;
      let newAuthz := before ++ obj :: after in
      wrap_err "ErrInvalid" (validateGrants newAuthz);; Ok (mkAccept true false (Some newAuthz))
  | None => Ok (mkAccept true false None)
  end.

(** The loop over the grants. *)
Fixpoint accept_from (contract body : string) (funds : res (list Coin)) (before grants : list ContractGrant)
    : M G AcceptResponse :=
  match grants with
  | [] => mret (mkAccept false false None)
  | g :: after =>
      let continue := accept_from contract body funds (before ++ [g]) after in
      if negb (String.eqb (Contract g) contract) then continue
      else
        result ← lift (Limit_Accept (GetLimit g) funds);
        if negb (Accepted result) then continue
        else
          ok ← Filter_Accept (GetFilter g) body;
          if negb ok then continue else lift (update_grants before g after result)
  end.

Definition AcceptGrantedMessage {T} `{AuthzableWasmMsg T} (grants : list ContractGrant) (msg : SdkMsg)
    : M G AcceptResponse :=
  match as_msg msg with
  | None => throw "ErrInvalidType"
  | Some exec =>
      match GetMsg exec with
      | None => throw "ErrInvalidType"
      | Some body =>
          lift (Msg_ValidateBasic exec);;
          accept_from (GetContract exec) body (GetFunds exec) [] grants
      end
  end.

Definition ContractExecutionAuthorization_Accept (grants : list ContractGrant) (msg : SdkMsg) : M G AcceptResponse :=
  AcceptGrantedMessage (T := MsgExecuteContract) grants msg.

Definition ContractMigrationAuthorization_Accept (grants : list ContractGrant) (msg : SdkMsg) : M G AcceptResponse :=
  AcceptGrantedMessage (T := MsgMigrateContract) grants msg.

(** ** Storing code *)

Definition CodehashWildcard : string := "*".

(** A nil permission of the message is dereferenced when the grant has one. *)
Definition CodeGrant_Accept (g : CodeGrant) (checksum : string) (permission : option AccessConfig) : res bool :=
  if negb (EqualFold (CodeHash g) CodehashWildcard) && negb (EqualFold (CodeHash g) checksum) then Ok false
  else match InstantiatePermission g with
  | None => Ok true
  | Some superSet =>
      match permission with
      | None => Panic "nil pointer dereference"
      | Some permission => Ok (IsSubset permission superSet)
      end
  end.

Definition CodeGrant_ValidateBasic (g : CodeGrant) : res unit :=
  refuse (String.length (CodeHash g) =? 0)%nat "ErrEmpty";;
  match InstantiatePermission g with
  | Some p => AccessConfig_ValidateBasic p
  | None => Ok tt
  end.

Fixpoint any_grant (grants : list CodeGrant) (checksum : string) (permission : option AccessConfig) : res bool :=
  match grants with
  | [] => Ok false
  | grant :: grants =>
      ok ← CodeGrant_Accept grant checksum permission;
      if (ok : bool) then Ok true else any_grant grants checksum permission
  end.

Fixpoint validate_code_grants (grants : list CodeGrant) (uniqueGrants : gset string) : res (gset string) :=
  match grants with
  | [] => Ok uniqueGrants
  | grant :: grants =>
      refuse (EqualFold (CodeHash grant) CodehashWildcard) "ErrInvalidRequest";;
      CodeGrant_ValidateBasic grant;;
      validate_code_grants grants ({[ToLower (CodeHash grant)]} ∪ uniqueGrants)
  end.

Definition StoreCodeAuthorization_ValidateBasic (grants : list CodeGrant) : res unit :=
  match grants with
  | [] => Err "ErrEmpty"
  | grant :: [] => CodeGrant_ValidateBasic grant
  | _ =>
      uniqueGrants ← validate_code_grants grants ∅;
      ensure (size uniqueGrants =? length grants)%nat "ErrInvalidRequest"
  end.

(** [register] is the gas register of the context, if any. *)
Definition StoreCodeAuthorization_Accept (register : option WasmGasRegisterConfig) (grants : list CodeGrant)
    (msg : SdkMsg) : M G AcceptResponse :=
  match msg with
  | StoreCodeMsg storeMsg =>
      let code := WASMByteCode storeMsg in
      code ← (if IsGzip code then
                match register with
                | None => throw "ErrInvalidRequest"
                | Some gasRegister =>
                    cost ← lift (UncompressCosts gasRegister (slen code));
                    ConsumeGas cost;;
                    lift (wrap_err "ErrInvalidRequest" (Uncompress code MaxWasmSize))
                end
              else mret code);
      checksum ← lift (wrap_err "ErrInvalidRequest" (CreateChecksum code));
      ok ← lift (any_grant grants checksum (StorePermission storeMsg));
      mret (mkAccept ok false None)
  | _ => throw "ErrInvalidRequest"
  end.

End Model.

(** ** What a grant permits *)

Section Spec.
Context `{AuthzJson}.

Definition covers (l : ContractAuthzLimitX) (funds : list Coin) : Prop :=
  match l with
  | UndefinedLimit => False
  | MaxCallsLimit _ => funds = []
  | MaxFundsLimit amounts | CombinedLimit _ amounts => forall d, amount_of funds d <= amount_of amounts d
  end.

Definition allows (f : ContractAuthzFilterX) (body : string) : Prop :=
  match f with
  | UndefinedFilter => False
  | AllowAllMessagesFilter => True
  | AcceptedMessageKeysFilter keys => exists k, UnmarshalMap body = Some {[k]} /\ k ∈ keys
  | AcceptedMessagesFilter messages => body ∈ messages
  end.

Definition applies (contract body : string) (funds : list Coin) (g : ContractGrant) : Prop :=
  Contract g = contract /\ covers (GetLimit g) funds /\ allows (GetFilter g) body.

Definition residue (amounts funds rest : list Coin) : Prop :=
  forall d, amount_of rest d = amount_of amounts d - amount_of funds d.

(** What is left of a limit after a message with [funds], [None] for nothing. *)
Definition spent (l : ContractAuthzLimitX) (funds : list Coin) (o : option ContractAuthzLimitX) : Prop :=
  match l, o with
  | MaxCallsLimit n, None => n = 1
  | MaxCallsLimit n, Some (MaxCallsLimit m) => 1 < n /\ m = n - 1
  | MaxFundsLimit a, None => funds <> [] /\ residue a funds []
  | MaxFundsLimit a, Some (MaxFundsLimit r) => residue a funds r
  | CombinedLimit n a, None => n = 1 \/ residue a funds []
  | CombinedLimit n a, Some (CombinedLimit m r) => 1 < n /\ m = n - 1 /\ residue a funds r
  | _, _ => False
  end.

(** The counters are 64-bit. *)
Definition limit_typed (l : ContractAuthzLimitX) : Prop :=
  match l with MaxCallsLimit n | CombinedLimit n _ => is_u64 n | _ => True end.

Definition with_limit (g : ContractGrant) (l : ContractAuthzLimitX) : ContractGrant :=
  mkGrant (Contract g) (Some (AnyLimit l)) (Filter g).

(** The grants [x/authz] keeps after a response: none when the authorisation
    is deleted, else the updated ones, else those it had. *)
Definition left_over (grants : list ContractGrant) (r : AcceptResponse) : list ContractGrant :=
  if Delete r then [] else default grants (Updated r).

(** The first applicable grant is charged and no other one touched. *)
Definition decided (grants : list ContractGrant) (contract body : string) (funds : list Coin)
    (r : AcceptResponse) : Prop :=
  if Accept r then
    exists before g after o, grants = before ++ g :: after /\
      Forall (fun x => ~ applies contract body funds x) before /\ applies contract body funds g /\
      spent (GetLimit g) funds o /\
      left_over grants r = before ++ option_list (with_limit g <$> o) ++ after
  else Forall (fun x => ~ applies contract body funds x) grants /\ left_over grants r = grants.

Definition limit_amounts (l : ContractAuthzLimitX) : list Coin :=
  match l with MaxFundsLimit a | CombinedLimit _ a => a | _ => [] end.

Definition limit_calls (l : ContractAuthzLimitX) : Z :=
  match l with MaxCallsLimit n | CombinedLimit n _ => n | _ => 0 end.

(** A sum over the grants for one contract. *)
Definition total (f : ContractAuthzLimitX -> Z) (contract : string) (grants : list ContractGrant) : Z :=
  foldr (fun g n => (if decide (Contract g = contract) then f (GetLimit g) else 0) + n) 0 grants.

Definition budget (d contract : string) : list ContractGrant -> Z :=
  total (fun l => amount_of (limit_amounts l) d) contract.

Definition calls : string -> list ContractGrant -> Z := total limit_calls.

(** Only a limit on funds alone leaves the number of calls open. *)
Definition calls_limited (contract : string) (grants : list ContractGrant) : Prop :=
  Forall (fun g => Contract g = contract -> forall a, GetLimit g <> MaxFundsLimit a) grants.

End Spec.

(** What the loop relies on of a validated message. *)
Class AuthzableLaws (T : Type) `{AuthzJson} `{AuthzableWasmMsg T} : Prop := {
  valid_funds m : Msg_ValidateBasic m = Ok tt -> exists f, GetFunds m = Ok f /\ coins_ok f;
  valid_body m body : Msg_ValidateBasic m = Ok tt -> GetMsg m = Some body -> json_Valid body = true
}.

Section Proofs.
Context {G : Type} `{GasMeterOps G} `{!GasMeterLaws G} `{!SdkCoins} `{!SdkCoinsLaws}
  `{!SdkCoinTests} `{!SdkCoinTestsLaws} `{!Bech32} `{!AuthzJson} `{!UnicodeTables}
  `{!AnyPacking} `{!AnyPackingLaws}.

Lemma coins_zero_nil c : coins_ok c -> (forall d, amount_of c d = 0) -> c = [].
Proof.
  intros [Hs Hp] Hz. destruct c as [|x c]; [done|]. exfalso.
  specialize (Hz (Denom x)). rewrite amount_of_in in Hz; [|by apply coin_lt_sorted_nodup|left].
  apply Forall_inv in Hp. lia.
Qed.

#[export] Instance execute_laws : AuthzableLaws MsgExecuteContract.
Proof.
  split.
  - intros m Hv. cbn in *. unfold MsgExecuteContract_ValidateBasic in Hv. go_inv. eexists. split; [done|].
    match goal with Hc : Coins_Validate _ = Ok ?u |- _ => destruct u; by apply Coins_Validate_spec in Hc as [? _] end.
  - intros m body Hv Hb. cbn in *. unfold MsgExecuteContract_ValidateBasic in Hv. rewrite Hb in Hv. go_inv.
    by unfold RawContractMessage_ValidateBasic in *; go_inv.
Qed.

#[export] Instance migrate_laws : AuthzableLaws MsgMigrateContract.
Proof.
  split.
  - intros m _. cbn. destruct (NewCoins_valid []) as [r Hr]; [constructor..|].
    exists r. split; [done|]. by apply NewCoins_ok in Hr as [? _].
  - intros m body Hv Hb. cbn in *. unfold MsgMigrateContract_ValidateBasic in Hv. rewrite Hb in Hv. go_inv.
    by unfold RawContractMessage_ValidateBasic in *; go_inv.
Qed.

(** *** Limits *)

Lemma IsZero_ok c : coins_ok c -> Coins_IsZero c = true <-> c = [].
Proof.
  intros [_ Hp]. rewrite Coins_IsZero_spec. split; [|by intros ->; constructor].
  destruct c as [|x c]; [done|]. intros Hz. apply Forall_inv in Hp, Hz. lia.
Qed.

Lemma Empty_false c : Coins_Empty c = false <-> c <> [].
Proof. rewrite <- not_true_iff_false, Coins_Empty_spec. done. Qed.

(** What remains of valid amounts is valid. *)
Lemma residue_denoms a b r : coins_ok b -> coins_ok r -> residue a b r ->
  Forall (fun x => ValidateDenom (Denom x) = true) a -> Forall (fun x => ValidateDenom (Denom x) = true) r.
Proof.
  intros [_ Hb] [Hs Hp] Hr Ha. rewrite Forall_forall in *. intros x Hx.
  specialize (Hr (Denom x)). rewrite amount_of_in in Hr by eauto using coin_lt_sorted_nodup.
  pose proof (amount_of_nonneg b (Denom x)) as Hnn. rewrite Forall_forall in Hnn. specialize (Hnn Hb).
  specialize (Hp x Hx). destruct (decide (Denom x ∈ denoms a)) as [(y&->&Hy)%list_elem_of_fmap|Hni]; [by apply Ha|].
  rewrite amount_of_not_in in Hr by done. lia.
Qed.

Lemma sub_residue a b : coins_ok a -> coins_ok b -> (forall d, amount_of b d <= amount_of a d) ->
  exists r, coins_sub a b = Ok r /\ coins_ok r /\ residue a b r.
Proof.
  intros Ha Hb Hle. destruct (coins_sub_total a b Ha Hb Hle) as [r Hr].
  exists r. split; [done|]. by apply coins_sub_ok.
Qed.

Definition next_limit (l : ContractAuthzLimitX) (r : ContractAuthzLimitAcceptResult) : option ContractAuthzLimitX :=
  if DeleteLimit r then None else Some (default l (UpdateLimit r)).

Definition good_limit (l : ContractAuthzLimitX) : Prop := Limit_ValidateBasic l = Ok tt /\ limit_typed l.

(** How a limit answers a message: it applies when it covers the funds, and
    then leaves what [spent] says, which is again a valid limit. *)
Definition limit_answer (l : ContractAuthzLimitX) (funds : list Coin) (r : ContractAuthzLimitAcceptResult) : Prop :=
  (Accepted r = true <-> covers l funds) /\
  (Accepted r = true -> spent l funds (next_limit l r)) /\
  (forall l', UpdateLimit r = Some l' -> good_limit l').

Lemma max_calls_answer n funds : good_limit (MaxCallsLimit n) ->
  exists r, Limit_Accept (MaxCallsLimit n) (Ok funds) = Ok r /\ limit_answer (MaxCallsLimit n) funds r.
Proof.
  intros [Hv Hu]. cbn in Hv, Hu. apply refuse_Ok, Z.eqb_neq in Hv. cbn. unfold MaxCallsLimit_Accept.
  destruct (Coins_Empty funds) eqn:He; cbn.
  - apply Coins_Empty_spec in He. rewrite (proj2 (Z.eqb_neq n 0)) by done.
    destruct (Z.eqb_spec n 1) as [->|Hn]; (eexists; split; [done|]).
    + split_and!; cbn; [done|by intros _|done].
    + unfold is_u64 in Hu. rewrite u64_small by (unfold is_u64; lia).
      split_and!; cbn; [done|lia|]. intros l' [= <-]. split; cbn; [|unfold is_u64; lia].
      apply refuse_Ok, Z.eqb_neq. lia.
  - apply Empty_false in He. eexists; split; [done|]. split_and!; cbn; done.
Qed.

Lemma max_funds_answer a funds : coins_ok funds -> good_limit (MaxFundsLimit a) ->
  exists r, Limit_Accept (MaxFundsLimit a) (Ok funds) = Ok r /\ limit_answer (MaxFundsLimit a) funds r.
Proof.
  intros Hf [Hv _]. cbn in Hv. apply res_bind_Ok in Hv as ([]&[Ha Hd]%Coins_Validate_spec&Hz).
  cbn. unfold MaxFundsLimit_Accept. destruct (Coins_Empty funds) eqn:He.
  { apply Coins_Empty_spec in He as ->. eexists; split; [done|]. split_and!; cbn; [|by intros _ d; cbn; lia|done].
    split; [|done]. intros _ d. pose proof (amount_of_nonneg a d (proj2 Ha)). cbn. lia. }
  apply Empty_false in He. destruct (is_all_lte funds a) eqn:Hle; cbn.
  - pose proof (proj1 (is_all_lte_spec funds a Hf Ha) Hle) as Hc.
    destruct (sub_residue a funds Ha Hf Hc) as (r & -> & Hr & Hres). cbn.
    destruct (Coins_IsZero r) eqn:Hr0; (eexists; split; [done|]); split_and!; cbn; try done.
    + apply IsZero_ok in Hr0 as ->; done.
    + intros l' [= <-]. split; [|done]. cbn. apply res_bind_Ok. exists tt. split; [|by rewrite Hr0].
      apply Coins_Validate_spec. split; [done|]. by apply (residue_denoms a funds).
  - eexists; split; [done|]. split_and!; cbn; [|done..]. split; [done|].
    intros Hc%(is_all_lte_spec funds a Hf Ha). congruence.
Qed.

Lemma combined_answer n a funds : coins_ok funds -> good_limit (CombinedLimit n a) ->
  exists r, Limit_Accept (CombinedLimit n a) (Ok funds) = Ok r /\ limit_answer (CombinedLimit n a) funds r.
Proof.
  intros Hf [Hv Hu]. cbn in Hv, Hu.
  apply res_bind_Ok in Hv as ([]&Hn%refuse_Ok%Z.eqb_neq&([]&_&[Ha Hd]%Coins_Validate_spec)%res_bind_Ok).
  cbn. unfold CombinedLimit_Accept. pose proof (is_all_lte_spec funds a Hf Ha) as Hle.
  destruct (is_all_lte funds a); cbn; cycle 1.
  { eexists; split; [done|]. split_and!; cbn; [|done..]. split; [done|]. intros Hc%Hle. done. }
  destruct Hle as [Hc _]. specialize (Hc eq_refl). rewrite (proj2 (Z.eqb_neq n 0)) by done.
  destruct (Z.eqb_spec n 1) as [->|Hn1]; [by eexists; split; [done|]; split_and!; cbn; auto|].
  destruct (sub_residue a funds Ha Hf Hc) as (r & -> & Hr & Hres). cbn.
  pose proof (residue_denoms a funds r Hf Hr Hres Hd) as Hdr.
  destruct (Coins_IsZero r) eqn:Hr0.
  { apply IsZero_ok in Hr0 as ->; [|done]. eexists; split; [done|]. split_and!; cbn; [done|by intros _; right|done]. }
  unfold is_u64 in Hu. rewrite u64_small by (unfold is_u64; lia).
  destruct (NewCoins_valid r) as [r' Hr'].
  { apply coin_lt_sorted_nodup, Hr. }
  { apply Forall_forall. intros x Hx. rewrite Forall_forall in Hdr. destruct Hr as [_ Hp].
    rewrite Forall_forall in Hp. split; [by apply Hdr|]. specialize (Hp x Hx). lia. }
  pose proof (NewCoins_ok _ _ Hr') as [Hok Ham]. unfold NewCombinedLimit. rewrite Hr'. cbn.
  eexists; split; [done|]. split_and!; cbn; [done|..].
  - intros _. split_and!; [lia|done|]. intros d. by rewrite Ham.
  - intros l' [= <-]. split; [|unfold limit_typed, is_u64; lia]. cbn. apply res_bind_Ok. exists tt.
    split; [apply refuse_Ok, Z.eqb_neq; lia|]. apply res_bind_Ok. exists tt. split.
    + apply refuse_Ok, not_true_iff_false. intros ->%IsZero_ok; [|done].
      apply not_true_iff_false in Hr0. apply Hr0. apply IsZero_ok; [done|]. apply coins_zero_nil; [done|].
      intros d. by rewrite <- Ham.
    + apply Coins_Validate_spec. split; [done|]. apply (residue_denoms a funds); [done..| |done].
      intros d. by rewrite Ham.
Qed.

(** A valid limit always answers. *)
Lemma limit_answers l funds : coins_ok funds -> good_limit l ->
  exists r, Limit_Accept l (Ok funds) = Ok r /\ limit_answer l funds r.
Proof.
  intros Hf Hl. destruct l; [by destruct Hl| | |].
  - by apply max_calls_answer.
  - by apply max_funds_answer.
  - by apply combined_answer.
Qed.


(** *** Filters *)

Lemma single_key (doc : gset string) (keys : list string) :
  match elements doc with [k] => bool_decide (k ∈ keys) | _ => false end = true <->
  exists k, doc = {[k]} /\ k ∈ keys.
Proof.
  split.
  - destruct (elements doc) as [|k [|]] eqn:E; [done| |done]. intros Hk%bool_decide_eq_true.
    exists k. split; [|done]. apply set_eq. intros x. rewrite <- elem_of_elements, E. set_solver.
  - intros (k&->&Hk). rewrite elements_singleton. by apply bool_decide_eq_true.
Qed.

Lemma top_level_key body keys : json_Valid body = true ->
  exists b, isJSONObjectWithTopLevelKey body keys = Ok b /\
    (b = true <-> allows (AcceptedMessageKeysFilter keys) body).
Proof.
  intros Hv. unfold isJSONObjectWithTopLevelKey, RawContractMessage_ValidateBasic. cbn. rewrite Hv. cbn.
  destruct (UnmarshalMap body) as [doc|].
  - exists (match elements doc with [k] => bool_decide (k ∈ keys) | _ => false end). split.
    + by destruct (elements doc) as [|? [|]].
    + rewrite single_key. naive_solver.
  - exists false. split; [done|]. naive_solver.
Qed.

Lemma filter_answer f body (m m' : G) b : json_Valid body = true ->
  Filter_Accept f body m = (Ok b, m') -> (b = true <-> allows f body).
Proof.
  intros Hv. destruct f as [| |keys|messages]; cbn.
  - done.
  - unfold RawContractMessage_ValidateBasic. cbn. rewrite Hv. intros [= <- _]. done.
  - unfold AcceptedMessageKeysFilter_Accept. intros E. go_inv.
    destruct (top_level_key body keys Hv) as (b'&Hb&Hiff). rewrite Hb in *. cbn in *. naive_solver.
  - intros [= <- _]. rewrite existsb_exists. setoid_rewrite String.eqb_eq. setoid_rewrite <- list_elem_of_In.
    naive_solver.
Qed.

Lemma filter_runs f body (m : G) : json_Valid body = true -> Filter_ValidateBasic f = Ok tt ->
  GasConsumed m + slen body <= GasLimit m <= u64_max -> 0 <= GasConsumed m ->
  exists b m', Filter_Accept f body m = (Ok b, m') /\ GasLimit m' = GasLimit m /\
    GasConsumed m <= GasConsumed m' <= GasConsumed m + slen body.
Proof.
  intros Hv Hf Hg Hp. assert (0 <= slen body) by (unfold slen; lia).
  destruct f as [| |keys|messages]; cbn in *; [done| | |do 2 eexists; split; [done|]; lia].
  - unfold RawContractMessage_ValidateBasic. cbn. rewrite Hv. do 2 eexists; split; [done|]. lia.
  - unfold AcceptedMessageKeysFilter_Accept, gasDeserializationCostPerByte.
    rewrite Z.mul_1_l, !u64_small by (repeat rewrite ?u64_small; unfold is_u64, u64_max in *; lia).
    destruct (ConsumeGas_ok (slen body) m) as (m'&E&Hc&Hl); [lia|].
    destruct (top_level_key body keys Hv) as (b&Hb&_).
    exists b, m'. unfold mbind, M_bind. rewrite E, Hb. split; [done|]. lia.
Qed.

(** *** Grants *)

Definition good_grant (g : ContractGrant) : Prop :=
  ContractGrant_ValidateBasic g = Ok tt /\ limit_typed (GetLimit g).

Lemma validate_each_ok l : validate_each l = Ok tt <-> Forall (fun g => ContractGrant_ValidateBasic g = Ok tt) l.
Proof.
  induction l as [|g l IH]; cbn; [by repeat constructor|]. rewrite res_bind_Ok, Forall_cons, <- IH.
  split; [by intros ([]&?&?)|naive_solver].
Qed.

Lemma validateGrants_ok l : l <> [] -> Forall good_grant l -> validateGrants l = Ok tt.
Proof.
  intros Hne Hl. unfold validateGrants. destruct l as [|g l]; [done|]. cbn [length Nat.eqb].
  apply res_bind_Ok. exists tt. split; [done|]. apply validate_each_ok.
  eapply Forall_impl; [exact Hl|]. by intros ? [].
Qed.

Lemma grant_limit g : good_grant g -> good_limit (GetLimit g) /\ Filter_ValidateBasic (GetFilter g) = Ok tt.
Proof. intros [Hv Ht]. unfold ContractGrant_ValidateBasic in Hv. go_inv. by repeat (match goal with u : unit |- _ => destruct u end). Qed.

Lemma with_limit_id g l : GetLimit g = l -> l <> UndefinedLimit -> with_limit g l = g.
Proof. destruct g as [c [[]|] f]; cbn; by intros <-. Qed.

Lemma with_limit_good g l : good_grant g -> good_limit l -> good_grant (with_limit g l).
Proof.
  intros Hg Hl. pose proof (grant_limit g Hg) as [_ Hf]. destruct Hg as [Hv _], Hl as [Hl Ht].
  split; [|done]. unfold ContractGrant_ValidateBasic in *. apply res_bind_Ok in Hv as (a&Ha&_).
  cbn [with_limit GetLimit GetFilter Contract Limit Filter] in *. rewrite Ha. cbn. rewrite Hl. cbn. exact Hf.
Qed.


Lemma WithNewLimits_ok g l : good_limit l -> WithNewLimits g l = Ok (with_limit g l).
Proof. intros [Hv _]. unfold WithNewLimits. destruct l; [done|..]; by rewrite NewAnyWithValue_ok. Qed.

(** The updated authorisation passes its own sanity check. *)
Lemma update_ok before g after funds r :
  Forall good_grant (before ++ g :: after) -> limit_answer (GetLimit g) funds r -> Accepted r = true ->
  let rest := before ++ option_list (with_limit g <$> next_limit (GetLimit g) r) ++ after in
  Forall good_grant rest /\
  exists resp, update_grants before g after r = Ok resp /\ Accept resp = true /\
    left_over (before ++ g :: after) resp = rest /\ (Delete resp = true <-> rest = []).
Proof.
  intros Hall (_&Hsp&Hup) Hacc. cbn zeta. pose proof Hall as [Hb [Hg Ha]%Forall_cons]%Forall_app.
  unfold next_limit, update_grants. destruct (DeleteLimit r) eqn:Hd; cbn [option_fmap option_map fmap option_list].
  - assert (Forall good_grant (before ++ after)) as Hba by (by apply Forall_app). split; [done|].
    destruct (before ++ after) as [|x l] eqn:E; [by eexists; split; [done|]|]. cbn [length Nat.eqb].
    rewrite validateGrants_ok by done. cbn. eexists; split; [done|]. rewrite E. by cbn.
  - destruct (UpdateLimit r) as [l'|] eqn:Hu; cbn [default option_fmap option_map fmap option_list from_option].
    + specialize (Hup l' eq_refl). pose proof (with_limit_good g l' Hg Hup) as Hg'.
      assert (Forall good_grant (before ++ with_limit g l' :: after)) as Hba.
      { apply Forall_app. split; [done|]. by constructor. }
      split; [done|]. rewrite WithNewLimits_ok by done. cbn [mbind res_bind].
      rewrite validateGrants_ok by (done || by destruct before). cbn. eexists; split; [done|].
      cbn. split_and!; try done. by destruct before.
    + assert (with_limit g (GetLimit g) = g) as Hid.
      { apply with_limit_id; [done|]. intros E. destruct (grant_limit g Hg) as [[Hl _] _]. by rewrite E in Hl. }
      cbn. rewrite Hid. split; [done|]. eexists; split; [done|]. cbn. split_and!; try done. by destruct before.
Qed.

(** The loop, when it returns. *)
Lemma accept_from_decides contract body funds before grants (m m' : G) resp :
  coins_ok funds -> json_Valid body = true -> Forall good_grant (before ++ grants) ->
  Forall (fun x => ~ applies contract body funds x) before ->
  accept_from contract body (Ok funds) before grants m = (Ok resp, m') ->
  decided (before ++ grants) contract body funds resp /\
  Forall good_grant (left_over (before ++ grants) resp) /\
  (Delete resp = true -> Accept resp = true /\ left_over (before ++ grants) resp = []).
Proof.
  intros Hf Hv. revert before m. induction grants as [|g after IH]; intros before m Hall Hno; cbn [accept_from].
  { intros [= <- <-]. rewrite app_nil_r in *. by cbn. }
  assert (Hskip : forall m, ~ applies contract body funds g ->
    accept_from contract body (Ok funds) (before ++ [g]) after m = (Ok resp, m') ->
    decided (before ++ g :: after) contract body funds resp /\
    Forall good_grant (left_over (before ++ g :: after) resp) /\
    (Delete resp = true -> Accept resp = true /\ left_over (before ++ g :: after) resp = [])).
  { intros m1 Hn E. apply IH in E; rewrite <- ?app_assoc in *; [done|done|].
    apply Forall_app. split; [done|]. by constructor. }
  destruct (String.eqb_spec (Contract g) contract) as [Hc|Hc]; cbn [negb]; cycle 1.
  { apply Hskip. by intros [? _]. }
  assert (good_grant g) as Hg by (apply Forall_app in Hall as [_ [? _]%Forall_cons]; done).
  destruct (limit_answers (GetLimit g) funds Hf (proj1 (grant_limit g Hg))) as (r&Hr&Hans).
  rewrite Hr. intros E. apply bind_Ok in E as (r'&m0&[[= <-] <-]%lift_Ok&E).
  destruct (Accepted r) eqn:Hacc; cbn [negb] in E; cycle 1.
  { eapply Hskip; [|exact E]. intros (_&Hcov&_). apply Hans in Hcov. congruence. }
  apply bind_Ok in E as (b&m1&Ef&E). pose proof (filter_answer _ _ _ _ _ Hv Ef) as Hfil.
  destruct b; cbn [negb] in E; cycle 1.
  { eapply Hskip; [|exact E]. intros (_&_&Hal). apply Hfil in Hal. done. }
  apply lift_Ok in E as [E _]. destruct (update_ok before g after funds r Hall Hans Hacc) as [Hgood (resp'&Eu&Ha&Hl&Hdel)].
  rewrite Eu in E. injection E as ->. rewrite Hl. split; [|split; [done|by intros ?%Hdel]].
  unfold decided. rewrite Ha. exists before, g, after, (next_limit (GetLimit g) r).
  split_and!; [done|done| |by apply Hans|done].
  split_and!; [done|by apply Hans|by apply Hfil].
Qed.


(** The loop returns when the gas suffices for reading the message once per
    grant. *)
Lemma accept_from_runs contract body funds before grants (m : G) :
  coins_ok funds -> json_Valid body = true -> Forall good_grant (before ++ grants) ->
  GasConsumed m + Z.of_nat (length grants) * slen body <= GasLimit m <= u64_max -> 0 <= GasConsumed m ->
  exists resp m', accept_from contract body (Ok funds) before grants m = (Ok resp, m') /\
    GasConsumed m' <= GasConsumed m + Z.of_nat (length grants) * slen body.
Proof.
  intros Hf Hv. assert (0 <= slen body) as Hlen by (unfold slen; lia).
  revert before m. induction grants as [|g after IH]; intros before m Hall Hgas Hp; cbn [accept_from].
  { do 2 eexists; split; [done|]. cbn. lia. }
  rewrite length_cons, Nat2Z.inj_succ, Z.mul_succ_l in *.
  assert (0 <= Z.of_nat (length after) * slen body) as Hprod by (apply Z.mul_nonneg_nonneg; lia).
  assert (Hskip : forall m', GasLimit m' = GasLimit m ->
    GasConsumed m <= GasConsumed m' <= GasConsumed m + slen body ->
    exists resp m'', accept_from contract body (Ok funds) (before ++ [g]) after m' = (Ok resp, m'') /\
      GasConsumed m'' <= GasConsumed m + (Z.of_nat (length after) * slen body + slen body)).
  { intros m' Hl Hc. destruct (IH (before ++ [g]) m') as (resp&m''&E&Hle);
      [by rewrite <- app_assoc|lia|lia|]. exists resp, m''. split; [done|lia]. }
  destruct (String.eqb (Contract g) contract); cbn [negb]; [|apply Hskip; lia].
  assert (good_grant g) as Hg by (apply Forall_app in Hall as [_ [? _]%Forall_cons]; done).
  destruct (grant_limit g Hg) as [Hgl Hgf].
  destruct (limit_answers (GetLimit g) funds Hf Hgl) as (r&Hr&Hans).
  rewrite Hr. change (lift (Ok r) ≫= ?k) with (k r). cbn beta.
  destruct (Accepted r) eqn:Hacc; cbn [negb]; [|apply Hskip; lia].
  destruct (filter_runs (GetFilter g) body m Hv Hgf) as (b&m1&E&Hl1&Hc1); [lia|lia|].
  unfold mbind, M_bind. rewrite E. destruct b; cbn [negb]; [|by apply Hskip].
  destruct (update_ok before g after funds r Hall Hans Hacc) as [_ (resp&Eu&_)].
  exists resp, m1. unfold lift. rewrite Eu. split; [done|lia].
Qed.

(** *** Budgets *)

Lemma total_app f c a b : total f c (a ++ b) = total f c a + total f c b.
Proof. unfold total. induction a as [|g a IH]; cbn [foldr app]; [by cbn|]. rewrite IH. lia. Qed.

Lemma total_option f c (g : ContractGrant) o :
  total f c (option_list (with_limit g <$> o)) =
  if decide (Contract g = c) then from_option f 0 o else 0.
Proof. destruct o; cbn; [|by case_decide]. case_decide; lia. Qed.

Lemma total_one f c g l : total f c (g :: l) = (if decide (Contract g = c) then f (GetLimit g) else 0) + total f c l.
Proof. done. Qed.

Lemma spent_budget l funds o d : spent l funds o -> covers l funds ->
  amount_of funds d + from_option (fun l => amount_of (limit_amounts l) d) 0 o <= amount_of (limit_amounts l) d.
Proof.
  destruct l as [|n|a|n a], o as [[|m|r|m r]|]; cbn; try done; intros Hs Hc.
  all: repeat match goal with
    | Hx : _ /\ _ |- _ => destruct Hx
    | Hx : residue _ _ _ |- _ => specialize (Hx d); cbn in Hx
    | Hx : forall _, _ <= _ |- _ => specialize (Hx d) end; subst; cbn in *; try lia.
Qed.

Lemma spent_calls l funds o : good_limit l -> (forall a, l <> MaxFundsLimit a) -> spent l funds o ->
  1 + from_option limit_calls 0 o <= limit_calls l.
Proof.
  intros [Hv Hu] Hl. destruct l as [|n|a|n a]; [done| |by destruct (Hl a)|].
  - cbn in *. apply refuse_Ok, Z.eqb_neq in Hv. destruct o as [[]|]; cbn; try done; lia.
  - cbn in Hv, Hu. apply res_bind_Ok in Hv as ([]&Hn%refuse_Ok%Z.eqb_neq&_). unfold is_u64 in Hu.
    destruct o as [[]|]; cbn; try done; lia.
Qed.

Lemma decided_budget grants contract body funds r :
  decided grants contract body funds r -> Accept r = true -> forall c d,
  (if decide (contract = c) then amount_of funds d else 0) + budget d c (left_over grants r) <= budget d c grants.
Proof.
  unfold decided. intros Hd Ha c d. rewrite Ha in Hd.
  destruct Hd as (before&g&after&o&->&_&(Hc&Hcov&_)&Hs&->).
  pose proof (spent_budget _ _ _ d Hs Hcov) as Hle. unfold budget.
  rewrite !total_app, total_one, total_option. subst contract. case_decide; lia.
Qed.

Lemma decided_calls grants contract body funds r :
  decided grants contract body funds r -> Accept r = true -> Forall good_grant grants -> forall c,
  calls_limited c grants ->
  (if decide (contract = c) then 1 else 0) + calls c (left_over grants r) <= calls c grants /\
  calls_limited c (left_over grants r).
Proof.
  unfold decided. intros Hd Ha Hg c Hcl. rewrite Ha in Hd.
  destruct Hd as (before&g&after&o&->&_&(Hc&Hcov&_)&Hs&->).
  apply Forall_app in Hcl as [Hb [Hx Haft]%Forall_cons], Hg as [_ [Hg _]%Forall_cons]. split.
  - unfold calls. rewrite !total_app, total_one, total_option. subst contract.
    case_decide; [|lia]. pose proof (spent_calls _ _ _ (proj1 (grant_limit g Hg)) (Hx ltac:(done)) Hs). lia.
  - apply Forall_app; split; [done|]. apply Forall_app; split; [|done].
    destruct o as [l|]; cbn; constructor; [|done]. cbn. intros E a ->.
    specialize (Hx E). destruct (GetLimit g); try done. by eapply Hx.
Qed.


(** *** The authorisation *)

Section Authorization.
Context {T : Type} `{!AuthzableWasmMsg T} `{!AuthzableLaws T}.

Lemma authz_inv grants msg (m m' : G) resp :
  AcceptGrantedMessage (T := T) grants msg m = (Ok resp, m') ->
  exists exec body funds, as_msg msg = Some exec /\ GetMsg exec = Some body /\ GetFunds exec = Ok funds /\
    coins_ok funds /\ json_Valid body = true /\
    accept_from (GetContract exec) body (Ok funds) [] grants m = (Ok resp, m').
Proof.
  unfold AcceptGrantedMessage. destruct (as_msg msg) as [exec|]; [|done].
  destruct (GetMsg exec) as [body|] eqn:Hb; [|done].
  intros ([]&m1&[Hv <-]%lift_Ok&E)%bind_Ok. destruct (valid_funds exec Hv) as (funds&Hf&Hok).
  exists exec, body, funds. rewrite Hf in E. split_and!; try done. by apply (valid_body exec).
Qed.

(** Using an authorisation for one message after another, the way [x/authz]
    does: each must be accepted, and what is left is kept for the next. *)
Fixpoint use_all (grants : list ContractGrant) (msgs : list SdkMsg) : M G (list ContractGrant) :=
  match msgs with
  | [] => mret grants
  | msg :: msgs =>
      resp ← AcceptGrantedMessage (T := T) grants msg;
      ensureM (Accept resp) "ErrUnauthorized";;
      use_all (left_over grants resp) msgs
  end.

(** The sum of [f] over the messages to one contract. *)
Definition over_msgs (f : list Coin -> Z) (c : string) (msgs : list SdkMsg) : Z :=
  foldr (fun msg n =>
    match as_msg (T := T) msg with
    | Some exec => if decide (GetContract exec = c)
                   then match GetFunds exec with Ok funds => f funds | _ => 0 end else 0
    | None => 0
    end + n) 0 msgs.

(** C7: However often an authorisation to execute or migrate contracts is used,
    the funds its messages send to a contract never exceed the amounts granted
    for it, whichever grants they fall under, and unless a grant limits funds
    only the number of messages never exceeds the calls granted. *)
Theorem authz_spending_bounded grants msgs (m m' : G) rest :
  Forall good_grant grants -> use_all grants msgs m = (Ok rest, m') ->
  Forall good_grant rest /\
  forall c,
    (forall d, over_msgs (fun funds => amount_of funds d) c msgs + budget d c rest <= budget d c grants) /\
    (calls_limited c grants -> over_msgs (fun _ => 1) c msgs + calls c rest <= calls c grants).
Proof.
  revert grants m. induction msgs as [|msg msgs IH]; intros grants m Hg E; cbn [use_all] in E.
  { go_inv. split; [done|]. intros c. split; [intros d|intros _]; cbn; lia. }
  apply bind_Ok in E as (resp&m1&Ea&([]&m2&[Hacc ->]%ensureM_Ok&E)%bind_Ok).
  apply authz_inv in Ea as (exec&body&funds&Hm&_&Hfu&Hf&Hv&Ea).
  apply (accept_from_decides _ _ _ [] grants) in Ea as (Hd&Hg'&_); [|done..|by constructor]. cbn [app] in *.
  destruct (IH _ _ Hg' E) as [Hr Hall]. split; [done|]. intros c. specialize (Hall c) as [Hb Hc].
  split.
  - intros d. specialize (Hb d). pose proof (decided_budget _ _ _ _ _ Hd Hacc c d).
    cbn [over_msgs foldr]. rewrite Hm, Hfu. unfold over_msgs in Hb. case_decide; lia.
  - intros Hl. destruct (decided_calls _ _ _ _ _ Hd Hacc Hg c Hl) as [Hle Hl']. specialize (Hc Hl').
    cbn [over_msgs foldr]. rewrite Hm, Hfu. unfold over_msgs in Hc. case_decide; lia.
Qed.

(** C14: A valid authorisation answers every valid message when the gas pays for
    reading the message once per grant.  It accepts exactly when some grant for
    the contract covers the funds and allows the message, charges the first
    such grant and no other, and leaves a valid authorisation; the sanity checks
    on the new state never fail. *)
Theorem authz_decides grants exec msg body (m : G) :
  Forall good_grant grants -> as_msg msg = Some exec -> GetMsg exec = Some body ->
  Msg_ValidateBasic exec = Ok tt ->
  GasConsumed m + Z.of_nat (length grants) * slen body <= GasLimit m <= u64_max -> 0 <= GasConsumed m ->
  exists funds resp m', GetFunds exec = Ok funds /\
    AcceptGrantedMessage (T := T) grants msg m = (Ok resp, m') /\
    decided grants (GetContract exec) body funds resp /\
    Forall good_grant (left_over grants resp) /\
    (Delete resp = true -> Accept resp = true /\ left_over grants resp = []).
Proof.
  intros Hg Hm Hb Hv Hgas Hp. destruct (valid_funds exec Hv) as (funds&Hfu&Hf).
  pose proof (valid_body exec body Hv Hb) as Hj.
  destruct (accept_from_runs (GetContract exec) body funds [] grants m) as (resp&m'&E&_); [done..|].
  exists funds, resp, m'. split; [done|]. split.
  - unfold AcceptGrantedMessage. rewrite Hm, Hb, Hfu. unfold mbind, M_bind, lift. by rewrite Hv.
  - apply (accept_from_decides _ _ _ [] grants) in E; [done..|by constructor].
Qed.

End Authorization.

(** *** Storing code *)

Context `{!Checksums} `{!CircuitVM}.

Lemma any_grant_true grants checksum permission :
  any_grant grants checksum permission = Ok true ->
  exists g, g ∈ grants /\ CodeGrant_Accept g checksum permission = Ok true.
Proof.
  induction grants as [|g grants IH]; cbn; [done|]. intros ([]&Hg&E)%res_bind_Ok; [set_solver|].
  apply IH in E as (g'&?&?). set_solver.
Qed.

(** An accepted upload falls under a grant for its checksum, up to the case of
    its text, or for any code, and the instantiate permission it asks for lets in
    nobody the grant's keeps out. *)
Lemma store_code_scope register grants storeMsg (m m' : G) resp :
  StoreCodeAuthorization_Accept register grants (StoreCodeMsg storeMsg) m = (Ok resp, m') -> Accept resp = true ->
  exists code checksum g, CreateChecksum code = Ok checksum /\ g ∈ grants /\
    (IsGzip (WASMByteCode storeMsg) = false -> code = WASMByteCode storeMsg) /\
    (EqualFold (CodeHash g) CodehashWildcard = true \/ EqualFold (CodeHash g) checksum = true) /\
    forall superSet, InstantiatePermission g = Some superSet ->
      exists permission, StorePermission storeMsg = Some permission /\ IsSubset permission superSet = true.
Proof.
  unfold StoreCodeAuthorization_Accept. intros (code&m1&Hcode&E)%bind_Ok Ha.
  apply bind_Ok in E as (checksum&m2&[Hsum <-]%lift_Ok&E).
  apply bind_Ok in E as (ok&m3&[Hok <-]%lift_Ok&[<- _]%ret_Ok). cbn in Ha. subst ok.
  apply any_grant_true in Hok as (g&Hg&Hacc). exists code, checksum, g.
  split_and!; [by destruct (CreateChecksum code); cbn in Hsum|done|..].
  - intros Hz. rewrite Hz in Hcode. by go_inv.
  - unfold CodeGrant_Accept in Hacc. destruct (EqualFold _ CodehashWildcard); [by left|].
    destruct (EqualFold (CodeHash g) checksum); [by right|done].
  - intros superSet Hs. unfold CodeGrant_Accept in Hacc. rewrite Hs in Hacc.
    destruct (_ && _); [done|]. destruct (StorePermission storeMsg) as [p|]; [|done].
    injection Hacc as Hacc. eauto.
Qed.


End Proofs.

(** ** Witnesses *)

Module AuthzWitness.
Import Ref RefLaws.

#[local] Instance coin_tests : SdkCoinTests := {|
  Coins_Empty c := (length c =? 0)%nat;
  Coins_IsZero c := forallb (fun x => Amount x =? 0) c
|}.

#[local] Instance coin_tests_laws : SdkCoinTestsLaws.
Proof.
  split; intros c; cbn.
  - rewrite Nat.eqb_eq. by destruct c.
  - rewrite forallb_forall, List.Forall_forall. by setoid_rewrite Z.eqb_eq.
Qed.

(** A text is valid unless empty; one that starts with a brace is an object
    with itself as its key. *)
#[local] Instance text_json : AuthzJson := {|
  json_Valid s := negb (String.eqb s "");
  UnmarshalMap s := if String.prefix "{" s then Some {[s]} else None
|}.

#[local] Instance packing : AnyPacking := {| NewAnyWithValue l := Ok (AnyLimit l) |}.
#[local] Instance packing_laws : AnyPackingLaws := {| NewAnyWithValue_ok l := eq_refl |}.

(** ASCII letters only. *)
#[local] Instance ascii_tables : UnicodeTables := {|
  SimpleFold x y := (Z.lor x 32 =? Z.lor y 32) && (97 <=? Z.lor x 32) && (Z.lor x 32 <=? 122);
  LowerRune x := if (65 <=? x) && (x <=? 90) then x + 32 else x
|}.

Definition ten : list Coin := [mkCoin "uterp" 10].
Definition grant (l : ContractAuthzLimitX) (f : ContractAuthzFilterX) : ContractGrant :=
  mkGrant (AccAddress_String "swap") (Some (AnyLimit l)) (Some (AnyFilter f)).
Definition grants : list ContractGrant :=
  [grant (MaxCallsLimit 1) (AcceptedMessageKeysFilter ["{sell}"%string]);
   grant (CombinedLimit 3 ten) AllowAllMessagesFilter].
Definition buy (n : Z) : MsgExecuteContract :=
  mkExecute (AccAddress_String "bob") (AccAddress_String "swap") (Some "{buy}"%string) [mkCoin "uterp" n].
Definition meter0 : meter := mkMeter 0 1000.

Lemma grants_good : Forall good_grant grants.
Proof. repeat constructor; vm_compute; congruence. Qed.

(** Two purchases for 4 leave 2 of the budget and one call. *)
Lemma authz_spending_bounded_witness :
  over_msgs (T := MsgExecuteContract) (fun funds => amount_of funds "uterp") (AccAddress_String "swap")
    [ExecuteMsg (buy 4); ExecuteMsg (buy 4)] + 2 <= 10.
Proof.
  destruct (use_all (T := MsgExecuteContract) grants [ExecuteMsg (buy 4); ExecuteMsg (buy 4)] meter0)
    as [r m'] eqn:E.
  vm_compute in E. injection E as <- <-.
  refine (proj1 (proj2 (authz_spending_bounded (T := MsgExecuteContract) grants
    [ExecuteMsg (buy 4); ExecuteMsg (buy 4)] meter0 _ _ grants_good eq_refl) (AccAddress_String "swap")) "uterp").
Defined.

Lemma authz_decides_witness : exists funds resp m',
  GetFunds (buy 11) = Ok funds /\
  AcceptGrantedMessage (T := MsgExecuteContract) grants (ExecuteMsg (buy 11)) meter0 = (Ok resp, m') /\
  decided grants (GetContract (buy 11)) "{buy}" funds resp /\
  Forall good_grant (left_over grants resp) /\
  (Delete resp = true -> Accept resp = true /\ left_over grants resp = []).
Proof.
  apply (authz_decides (T := MsgExecuteContract) grants (buy 11) (ExecuteMsg (buy 11)) "{buy}" meter0);
    [exact grants_good|reflexivity|reflexivity|reflexivity|vm_compute; split; discriminate|vm_compute; discriminate].
Defined.

(** Checksums are compared as text: bytes that are no valid encoding all count
    as the same character, so that a grant for one code can admit another. *)
Lemma checksum_bytes_confused :
  let hash := String.string_of_list_ascii [char_of 255] in
  let other := String.string_of_list_ascii [char_of 254] in
  hash <> other /\ CodeGrant_Accept (mkCodeGrant hash None) other None = Ok true.
Proof. split; [discriminate|reflexivity]. Qed.

(** A grant with a permission crashes on an upload without one. *)
Lemma missing_permission_panics :
  CodeGrant_Accept (mkCodeGrant "*" (Some AllowEverybody)) "hash" None = Panic "nil pointer dereference".
Proof. reflexivity. Qed.

End AuthzWitness.
