(* ===== verification/WasmCodec.v ===== *)
(** * x/wasm: the hand-written codec of the deposit query

    The request and the response of the circuit deposit query are encoded and
    decoded by code written by hand rather than generated.  The encoder fills
    its buffer from the end; the decoder walks over the bytes with an index. *)

From Stdlib Require Import ZArith Lia.
From stdpp Require Import base strings list.
From S2P Require Import Prelude Varint.

(** ** Slices *)

(** [dAtA[i] = v]. *)
Definition put (dAtA : list Z) (i v : Z) : res (list Z) :=
  if (0 <=? i) && (i <? len dAtA) then Ok (<[Z.to_nat i := v]> dAtA) else Panic "index out of range".

(** [copy(dAtA[i:], src)]. *)
Definition copy_at (dAtA : list Z) (i : Z) (src : list Z) : res (list Z) :=
  if (0 <=? i) && (i <=? len dAtA) then
    let k := Z.to_nat i in
    Ok (take k dAtA ++ take (length dAtA - k) src ++ drop (k + length src) dAtA)
  else Panic "slice bounds out of range".

(** [dAtA[i:]]. *)
Definition slice_from (dAtA : list Z) (i : Z) : res (list Z) :=
  if (0 <=? i) && (i <=? len dAtA) then Ok (drop (Z.to_nat i) dAtA) else Panic "slice bounds out of range".

(** ** Encoding *)

(** [bits.Len64]. *)
Definition Len64 (x : Z) : Z := if x =? 0 then 0 else Z.log2 x + 1.

Definition sovDeposit (x : Z) : Z := (Len64 (Z.lor x 1) + 6) / 7.

(** A 64-bit value has at most ten groups of seven bits. *)
Fixpoint varint_loop (fuel : nat) (dAtA : list Z) (offset v : Z) : res (list Z) :=
  match fuel with
  | O => Panic "out of fuel"
  | S fuel =>
      if 128 <=? v then
        dAtA ← put dAtA offset (Z.lor (Z.land v 127) 128);
        varint_loop fuel dAtA (offset + 1) (Z.shiftr v 7)
      else put dAtA offset v
  end.

Definition encodeVarintDeposit (dAtA : list Z) (offset v : Z) : res (list Z * Z) :=
  let base := offset - sovDeposit v in
  dAtA ← varint_loop 10 dAtA base v;
  Ok (dAtA, base).

Record QueryCircuitDepositRequest := mkRequest { ReqAddress : list Z }.

Record QueryCircuitDepositResponse := mkResponse { Address : list Z; PaidUntilUnix : Z; Covered : bool }.

(** A field of bytes, written before position [i]: the bytes, their number, the
    tag. *)
Definition put_bytes (tag : Z) (bs : list Z) (st : list Z * Z) : res (list Z * Z) :=
  let '(dAtA, i) := st in
  let i := i - len bs in
  dAtA ← copy_at dAtA i bs;
  st ← encodeVarintDeposit dAtA i (len bs);
  let i := snd st - 1 in
  dAtA ← put (fst st) i tag;
  Ok (dAtA, i).

Definition put_address (address : list Z) (st : list Z * Z) : res (list Z * Z) :=
  if 0 <? len address then put_bytes 10 address st else Ok st.

Definition Request_Marshal (m : QueryCircuitDepositRequest) : res (list Z) :=
  let l := len (ReqAddress m) in
  let size := if 0 <? l then 1 + l + sovDeposit l else 0 in
  let dAtA := replicate (Z.to_nat size) 0 in
  st ← put_address (ReqAddress m) (dAtA, len dAtA);
  slice_from (fst st) (snd st).

(** The covered flag and the paid time, each written before what is there. *)
Definition put_covered (c : bool) (dAtA : list Z) : res (list Z * Z) :=
  if c then
    let i := len dAtA - 1 in
    dAtA ← put dAtA i (if c then 1 else 0);
    let i := i - 1 in
    dAtA ← put dAtA i 24;
    Ok (dAtA, i)
  else Ok (dAtA, len dAtA).

Definition put_paid (p : Z) (st : list Z * Z) : res (list Z * Z) :=
  if negb (p =? 0) then
    st ← encodeVarintDeposit (fst st) (snd st) (u64 p);
    let i := snd st - 1 in
    dAtA ← put (fst st) i 16;
    Ok (dAtA, i)
  else Ok st.

Definition Response_Marshal (m : QueryCircuitDepositResponse) : res (list Z) :=
  let n := len (Address m) in
  let l := (if 0 <? n then 1 + n + sovDeposit n else 0)
           + (if negb (PaidUntilUnix m =? 0) then 1 + sovDeposit (u64 (PaidUntilUnix m)) else 0)
           + (if Covered m then 2 else 0) in
  st ← put_covered (Covered m) (replicate (Z.to_nat l) 0);
  st ← put_paid (PaidUntilUnix m) st;
  st ← put_address (Address m) st;
  slice_from (fst st) (snd st).

(** ** Decoding

    [rest] holds the bytes from the index to the end of the slice.  A slice
    expression may reach past the end of the slice, up to its capacity:
    [extra] holds the bytes of the backing array after the slice. *)

(** Reads a number into an accumulator that holds the bits read so far. *)
Fixpoint read_varint (rest : list Z) (shift acc : Z) : res (Z * list Z) :=
  match rest with
  | [] => Err "ErrUnexpectedEOF"
  | b :: rest =>
      let acc := Z.lor acc (shl64 (Z.land b 127) shift) in
      if b <? 128 then Ok (acc, rest) else read_varint rest (shift + 7) acc
  end.

(** [int32(x)]. *)
Definition i32 (x : Z) : Z := let w := x mod 2 ^ 32 in if w <? 2 ^ 31 then w else w - 2 ^ 32.

(** [string(dAtA[iNdEx : iNdEx+sl])] and what is left of the slice. *)
Definition read_bytes (extra rest : list Z) (sl : Z) : res (list Z * list Z) :=
  if (0 <=? sl) && (sl <=? len rest + len extra)
  then Ok (take (Z.to_nat sl) (rest ++ extra), drop (Z.to_nat sl) rest)
  else Panic "slice bounds out of range".

(** One field of the request. *)
Definition request_field (extra rest : list Z) (m : QueryCircuitDepositRequest)
    : res (QueryCircuitDepositRequest * list Z) :=
  wire ← read_varint rest 0 0;
  ensure (i32 (Z.shiftr (fst wire) 3) =? 1) "ErrUnexpectedEOF";;
  sl ← read_varint (snd wire) 0 0;
  s ← read_bytes extra (snd sl) (i64 (fst sl));
  Ok (mkRequest (fst s), snd s).

Definition response_field (extra rest : list Z) (m : QueryCircuitDepositResponse)
    : res (QueryCircuitDepositResponse * list Z) :=
  wire ← read_varint rest 0 0;
  let field := i32 (Z.shiftr (fst wire) 3) in
  if field =? 1 then
    sl ← read_varint (snd wire) 0 0;
    s ← read_bytes extra (snd sl) (i64 (fst sl));
    Ok (mkResponse (fst s) (PaidUntilUnix m) (Covered m), snd s)
  else if field =? 2 then
    v ← read_varint (snd wire) 0 (u64 (PaidUntilUnix m));
    Ok (mkResponse (Address m) (i64 (fst v)) (Covered m), snd v)
  else if field =? 3 then
    v ← read_varint (snd wire) 0 0;
    Ok (mkResponse (Address m) (PaidUntilUnix m) (negb (fst v =? 0)), snd v)
  else Err "ErrUnexpectedEOF".

(** The outer loop; every round consumes at least a byte, so that a fuel above
    the number of bytes is never used up. *)
Fixpoint fields {T} (field : list Z -> T -> res (T * list Z)) (fuel : nat) (rest : list Z) (m : T) : res T :=
  match fuel with
  | O => Panic "out of fuel"
  | S fuel =>
      match rest with
      | [] => Ok m
      | _ => r ← field rest m; fields field fuel (snd r) (fst r)
      end
  end.

Definition Request_Unmarshal (extra dAtA : list Z) (m : QueryCircuitDepositRequest)
    : res QueryCircuitDepositRequest :=
  fields (request_field extra) (S (length dAtA)) dAtA m.

Definition Response_Unmarshal (extra dAtA : list Z) (m : QueryCircuitDepositResponse)
    : res QueryCircuitDepositResponse :=
  fields (response_field extra) (S (length dAtA)) dAtA m.

(** ** Numbers *)

(** The size computed in advance is the number of groups. *)
Lemma sovDeposit_varint v : is_u64 v -> sovDeposit v = len (varint v).
Proof.
  intros Hv. unfold varint. rewrite groups_length by by apply u64_groups.
  unfold sovDeposit, Len64. unfold is_u64 in Hv.
  destruct (Z.eqb_spec (Z.lor v 1) 0) as [E|_]; [apply Z.lor_eq_0_iff in E; lia|].
  rewrite Z.log2_lor by lia. cbn [Z.log2]. rewrite Z.max_l by apply Z.log2_nonneg.
  replace (Z.log2 v + 1 + 6) with (Z.log2 v + 1 * 7) by lia. by rewrite Z.div_add.
Qed.

(** ** Writing *)

Lemma put_at a x t v : put (a ++ x :: t) (len a) v = Ok (a ++ v :: t).
Proof.
  unfold put. rewrite len_app. unfold len. cbn [length].
  destruct (Z.leb_spec 0 (Z.of_nat (length a))); [|lia].
  destruct (Z.ltb_spec (Z.of_nat (length a)) (Z.of_nat (length a) + Z.of_nat (S (length t)))); [|lia].
  cbn. rewrite Nat2Z.id. f_equal. rewrite insert_app_r_alt by lia. by rewrite Nat.sub_diag.
Qed.

Lemma copy_at_ok a j t src : length j = length src -> copy_at (a ++ j ++ t) (len a) src = Ok (a ++ src ++ t).
Proof.
  intros Hj. unfold copy_at. rewrite !len_app. unfold len.
  destruct (Z.leb_spec 0 (Z.of_nat (length a))); [|lia].
  destruct (Z.leb_spec (Z.of_nat (length a)) (Z.of_nat (length a) + (Z.of_nat (length j) + Z.of_nat (length t)))); [|lia].
  cbn. rewrite Nat2Z.id, take_app_length, !length_app. f_equal. f_equal. f_equal.
  - apply take_ge. lia.
  - rewrite app_assoc, <- Hj, <- length_app. apply drop_app_length.
Qed.

Lemma slice_from_ok a t : slice_from (a ++ t) (len a) = Ok t.
Proof.
  unfold slice_from. rewrite len_app. unfold len.
  destruct (Z.leb_spec 0 (Z.of_nat (length a))); [|lia].
  destruct (Z.leb_spec (Z.of_nat (length a)) (Z.of_nat (length a) + Z.of_nat (length t))); [|lia].
  cbn. by rewrite Nat2Z.id, drop_app_length.
Qed.

Lemma varint_loop_S fuel dAtA offset v :
  varint_loop (S fuel) dAtA offset v =
  if 128 <=? v then put dAtA offset (128 + v mod 128) ≫= fun dAtA => varint_loop fuel dAtA (offset + 1) (v / 128)
  else put dAtA offset v.
Proof. cbn [varint_loop]. by rewrite high_group, Z.shiftr_div_pow2. Qed.

Lemma varint_loop_ok fuel v a j t : 0 <= v < 128 ^ Z.of_nat (S fuel) -> length j = length (groups (S fuel) v) ->
  varint_loop (S fuel) (a ++ j ++ t) (len a) v = Ok (a ++ groups (S fuel) v ++ t).
Proof.
  revert v a j. induction fuel as [|fuel IH]; intros v a j Hv Hj; rewrite groups_S in Hj |- *;
    rewrite varint_loop_S; destruct (Z.leb_spec 128 v) as [Hle|Hlt].
  1: change (128 ^ Z.of_nat 1) with 128 in Hv; lia.
  1, 3: destruct j as [|x [|]]; [done| |done]; apply put_at.
  destruct j as [|x j]; [done|]. injection Hj as Hj. cbn [app]. rewrite put_at. cbn [mbind res_bind].
  specialize (IH (v / 128) (a ++ [128 + v mod 128]) j (group_div _ _ Hv) Hj).
  rewrite <- !app_assoc, len_app in IH. exact IH.
Qed.

Lemma encode_ok v a j t : is_u64 v -> length j = length (varint v) ->
  encodeVarintDeposit (a ++ j ++ t) (len a + len j) v = Ok (a ++ varint v ++ t, len a).
Proof.
  intros Hv Hj. unfold encodeVarintDeposit. rewrite sovDeposit_varint by done.
  replace (len a + len j - len (varint v)) with (len a) by (unfold len; lia).
  rewrite (varint_loop_ok 9 v a j t); [done|by apply u64_groups|done].
Qed.

(** The reference encodings of the fields. *)
Definition address_field (bs : list Z) : list Z :=
  match bs with [] => [] | _ => 10 :: varint (len bs) ++ bs end.

Definition paid_field (p : Z) : list Z := if p =? 0 then [] else 16 :: varint (u64 p).

Definition covered_field (c : bool) : list Z := if c then [24; 1] else [].

(** A block of the right length splits into the parts the fields fill. *)
Lemma split_length {A} (j : list A) n k : length j = (n + k)%nat ->
  exists a b, j = a ++ b /\ length a = n /\ length b = k.
Proof.
  intros Hj. exists (take n j), (drop n j).
  split_and!; [by rewrite take_drop|rewrite length_take; lia|rewrite length_drop; lia].
Qed.

Definition bytes_field (tag : Z) (bs : list Z) : list Z := tag :: varint (len bs) ++ bs.

Lemma put_bytes_ok tag bs a j t : len bs < 2 ^ 63 -> length j = length (bytes_field tag bs) ->
  put_bytes tag bs (a ++ j ++ t, len a + len j) = Ok (a ++ bytes_field tag bs ++ t, len a).
Proof.
  intros Hl Hj. unfold put_bytes.
  destruct j as [|x j]; [done|]. cbn [length bytes_field] in Hj. injection Hj as Hj. rewrite length_app in Hj.
  destruct (split_length j _ _ Hj) as (j1&j2&->&H1&H2).
  replace (len a + len (x :: j1 ++ j2) - len bs) with (len (a ++ x :: j1)).
  2: { unfold len. cbn. rewrite !length_app. cbn. lia. }
  replace (a ++ (x :: j1 ++ j2) ++ t) with ((a ++ x :: j1) ++ j2 ++ t).
  2: { rewrite <- !app_assoc. cbn. by rewrite <- !app_assoc. }
  rewrite copy_at_ok by done. cbn [mbind res_bind].
  replace ((a ++ x :: j1) ++ bs ++ t) with ((a ++ [x]) ++ j1 ++ bs ++ t) by (rewrite <- !app_assoc; done).
  replace (len (a ++ x :: j1)) with (len (a ++ [x]) + len j1) by (unfold len; rewrite !length_app; cbn; lia).
  rewrite encode_ok by (done || by apply len_u64). cbn [mbind res_bind fst snd].
  replace (len (a ++ [x]) - 1) with (len a) by (rewrite len_app; unfold len; cbn; lia).
  rewrite <- app_assoc. cbn [app]. rewrite put_at. cbn. by rewrite <- app_assoc.
Qed.

Lemma bytes_size tag bs : len bs < 2 ^ 63 -> 1 + len bs + sovDeposit (len bs) = len (bytes_field tag bs).
Proof.
  intros Hl. rewrite sovDeposit_varint by by apply len_u64.
  change (bytes_field tag bs) with ([tag] ++ varint (len bs) ++ bs). rewrite !len_app. replace (len [tag]) with 1 by done. lia.
Qed.

Lemma put_address_ok bs a j t : len bs < 2 ^ 63 -> length j = length (address_field bs) ->
  put_address bs (a ++ j ++ t, len a + len j) = Ok (a ++ address_field bs ++ t, len a).
Proof.
  intros Hl Hj. unfold put_address. destruct bs as [|b0 bs'] eqn:Eb.
  { destruct j; [|done]. cbn. unfold len. cbn. by rewrite Z.add_0_r. }
  rewrite <- Eb in *. replace (address_field bs) with (bytes_field 10 bs) in * by by rewrite Eb.
  destruct (Z.ltb_spec 0 (len bs)); [|subst; unfold len in *; cbn in *; lia]. by apply put_bytes_ok.
Qed.

Lemma address_size bs : len bs < 2 ^ 63 ->
  (if 0 <? len bs then 1 + len bs + sovDeposit (len bs) else 0) = len (address_field bs).
Proof.
  intros Hl. destruct (Z.ltb_spec 0 (len bs)); [|by destruct bs].
  rewrite (bytes_size 10) by done. by destruct bs.
Qed.

Lemma paid_size p : (if negb (p =? 0) then 1 + sovDeposit (u64 p) else 0) = len (paid_field p).
Proof.
  unfold paid_field. destruct (p =? 0); [done|]. cbn [negb]. rewrite sovDeposit_varint by apply u64_range.
  change (len (16 :: varint (u64 p))) with (len ([16] ++ varint (u64 p))). by rewrite len_app.
Qed.

Lemma request_marshals m : len (ReqAddress m) < 2 ^ 63 ->
  Request_Marshal m = Ok (address_field (ReqAddress m)).
Proof.
  intros Hl. unfold Request_Marshal. rewrite address_size by done. set (bs := ReqAddress m) in *.
  set (j := replicate _ 0). assert (length j = length (address_field bs)) as Hj.
  { unfold j. rewrite length_replicate. unfold len. lia. }
  pose proof (put_address_ok bs [] j [] Hl Hj) as Hp. cbn [app] in Hp. rewrite !app_nil_r in Hp.
  replace (len [] + len j) with (len j) in Hp by (unfold len; cbn; lia). rewrite Hp.
  exact (slice_from_ok [] (address_field bs)).
Qed.

Lemma put_covered_ok c a j : length j = length (covered_field c) ->
  put_covered c (a ++ j) = Ok (a ++ covered_field c, len a).
Proof.
  destruct c; cbn [covered_field length]; intros Hj.
  - destruct j as [|x [|y [|]]]; [done..| |done]. unfold put_covered.
    replace (len (a ++ [x; y]) - 1) with (len (a ++ [x])) by (rewrite !len_app; unfold len; cbn; lia).
    replace (a ++ [x; y]) with ((a ++ [x]) ++ [y]) by by rewrite <- app_assoc.
    rewrite put_at. cbn [mbind res_bind].
    replace (len (a ++ [x]) - 1) with (len a) by (rewrite len_app; unfold len; cbn; lia).
    rewrite <- app_assoc. cbn [app]. rewrite put_at. done.
  - destruct j; [|done]. cbn. by rewrite app_nil_r.
Qed.

Lemma put_paid_ok p a j t : length j = length (paid_field p) ->
  put_paid p (a ++ j ++ t, len a + len j) = Ok (a ++ paid_field p ++ t, len a).
Proof.
  unfold put_paid, paid_field. destruct (p =? 0); cbn [negb]; intros Hj.
  { destruct j; [|done]. unfold len at 2. cbn. by rewrite Z.add_0_r. }
  destruct j as [|x j]; [done|]. injection Hj as Hj. cbn [fst snd].
  replace (a ++ (x :: j) ++ t) with ((a ++ [x]) ++ j ++ t) by by rewrite <- app_assoc.
  replace (len a + len (x :: j)) with (len (a ++ [x]) + len j) by (rewrite len_app; unfold len; cbn; lia).
  rewrite encode_ok by (done || apply u64_range). cbn [mbind res_bind fst snd].
  replace (len (a ++ [x]) - 1) with (len a) by (rewrite len_app; unfold len; cbn; lia).
  rewrite <- app_assoc. cbn [app]. rewrite put_at. done.
Qed.

(** The reference encoding of a response: its fields in order. *)
Definition response_bytes (m : QueryCircuitDepositResponse) : list Z :=
  address_field (Address m) ++ paid_field (PaidUntilUnix m) ++ covered_field (Covered m).

Lemma response_marshals m : len (Address m) < 2 ^ 63 -> Response_Marshal m = Ok (response_bytes m).
Proof.
  intros Hl. unfold Response_Marshal. rewrite address_size, paid_size by done.
  set (ja := replicate (length (address_field (Address m))) 0).
  set (jp := replicate (length (paid_field (PaidUntilUnix m))) 0).
  set (jc := replicate (length (covered_field (Covered m))) 0).
  replace (replicate _ 0) with ((ja ++ jp) ++ jc); cycle 1.
  { unfold ja, jp, jc. rewrite <- !replicate_add. f_equal. unfold len.
    destruct (Covered m); cbn [covered_field length]; lia. }
  rewrite put_covered_ok by apply length_replicate. cbn [mbind res_bind].
  rewrite len_app, <- app_assoc, put_paid_ok by apply length_replicate. cbn [mbind res_bind].
  pose proof (put_address_ok (Address m) [] ja (paid_field (PaidUntilUnix m) ++ covered_field (Covered m)) Hl
    (length_replicate _ _)) as Hp.
  cbn [app] in Hp. replace (len [] + len ja) with (len ja) in Hp by (unfold len; cbn; lia). rewrite Hp.
  exact (slice_from_ok [] (response_bytes m)).
Qed.

(** ** Reading *)

Lemma read_groups fuel v shift acc rest :
  0 <= shift -> 0 <= acc < 2 ^ shift -> 0 <= v < 128 ^ Z.of_nat (S fuel) -> acc + v * 2 ^ shift < 2 ^ 64 ->
  read_varint (groups (S fuel) v ++ rest) shift acc = Ok (acc + v * 2 ^ shift, rest).
Proof.
  revert v shift acc. induction fuel as [|fuel IH]; intros v shift acc Hs Ha Hv Hb;
    rewrite groups_S; destruct (Z.leb_spec 128 v) as [Hle|Hlt]; cbn [app read_varint].
  1: change (128 ^ Z.of_nat 1) with 128 in Hv; lia.
  1, 3: rewrite low_group, Z.mod_small by lia; unfold shl64;
    rewrite u64_small by (rewrite Z.shiftl_mul_pow2 by lia; unfold is_u64; nia);
    rewrite lor_disjoint by done; destruct (Z.ltb_spec v 128); [done|lia].
  assert (0 <= v mod 128 < 128) as Hm by (apply Z.mod_pos_bound; lia).
  assert (v = 128 * (v / 128) + v mod 128) as Hdm by (apply Z.div_mod; lia).
  assert (2 ^ (shift + 7) = 2 ^ shift * 128) as Hpow by (rewrite Z.pow_add_r by lia; done).
  destruct (Z.ltb_spec (128 + v mod 128) 128); [lia|].
  rewrite low_group, <- Z.add_mod_idemp_l, Z_mod_same_full, Z.add_0_l, Z.mod_mod by lia.
  assert (0 <= v / 128) by (apply Z.div_pos; lia).
  assert (acc + v mod 128 * 2 ^ shift + v / 128 * 2 ^ (shift + 7) = acc + v * 2 ^ shift) as Heq by (rewrite Hpow; nia).
  unfold shl64. rewrite u64_small by (rewrite Z.shiftl_mul_pow2 by lia; unfold is_u64; nia).
  rewrite lor_disjoint, IH by (try apply group_div; try rewrite Hpow; nia). by rewrite Heq.
Qed.

Lemma read_varint_ok v rest : is_u64 v -> read_varint (varint v ++ rest) 0 0 = Ok (v, rest).
Proof.
  intros Hv. unfold varint. rewrite (read_groups 9) by (try apply u64_groups; unfold is_u64 in *; lia).
  f_equal. f_equal. lia.
Qed.

(** A tag of one byte. *)
Lemma read_tag b rest : 0 <= b < 128 -> read_varint (b :: rest) 0 0 = Ok (b, rest).
Proof.
  intros Hb. cbn. rewrite low_group, Z.mod_small by lia. unfold shl64. rewrite Z.shiftl_0_r.
  rewrite u64_small by (unfold is_u64; lia). destruct (Z.ltb_spec b 128); [done|lia].
Qed.

Lemma read_shorter rest shift acc v rest' : read_varint rest shift acc = Ok (v, rest') -> (length rest' < length rest)%nat.
Proof.
  revert shift acc. induction rest as [|b rest IH]; intros shift acc; cbn; [done|].
  destruct (b <? 128); [intros [= _ <-]; lia|]. intros E%IH. lia.
Qed.

(** Every field takes at least a byte. *)
Definition consumes {T} (field : list Z -> T -> res (T * list Z)) : Prop :=
  forall rest m m' rest', field rest m = Ok (m', rest') -> (length rest' < length rest)%nat.

Lemma read_bytes_shorter extra rest sl bs rest' :
  read_bytes extra rest sl = Ok (bs, rest') -> (length rest' <= length rest)%nat.
Proof. unfold read_bytes. destruct (_ && _); [|done]. intros [= _ <-]. rewrite length_drop. lia. Qed.

Ltac shorter :=
  repeat match goal with
  | E : read_varint ?r _ _ = Ok ?p |- _ => destruct p; apply read_shorter in E
  | E : read_bytes _ _ _ = Ok ?p |- _ => destruct p; apply read_bytes_shorter in E
  end; cbn in *; lia.

Lemma request_consumes extra : consumes (request_field extra).
Proof. intros rest m m' rest' E. unfold request_field in E. go_inv. shorter. Qed.

Lemma response_consumes extra : consumes (response_field extra).
Proof.
  intros rest m m' rest' E. unfold response_field in E. apply res_bind_Ok in E as (wire&Hw&E).
  repeat (destruct (_ =? _) in E; [go_inv; shorter|]). done.
Qed.

Lemma fields_fuel {T} (field : list Z -> T -> res (T * list Z)) fuel fuel' rest m : consumes field ->
  (length rest < fuel)%nat -> (length rest < fuel')%nat -> fields field fuel rest m = fields field fuel' rest m.
Proof.
  intros Hc. revert fuel' rest m. induction fuel as [|fuel IH]; intros [|fuel'] rest m H1 H2; [lia..|].
  cbn [fields]. destruct rest as [|b rest]; [done|].
  destruct (field (b :: rest) m) as [[m' rest']|e|p] eqn:E; cbn; [|done..].
  apply Hc in E. cbn in *. apply IH; lia.
Qed.

Lemma fields_step {T} (field : list Z -> T -> res (T * list Z)) rest m m' rest' : consumes field ->
  field rest m = Ok (m', rest') ->
  fields field (S (length rest)) rest m = fields field (S (length rest')) rest' m'.
Proof.
  intros Hc E. pose proof (Hc _ _ _ _ E) as Hl. destruct rest as [|b rest]; [cbn in Hl; lia|].
  change (fields field (S (length (b :: rest))) (b :: rest) m)
    with (field (b :: rest) m ≫= fun r => fields field (length (b :: rest)) (snd r) (fst r)).
  rewrite E. cbn [mbind res_bind fst snd]. apply fields_fuel; [done|cbn in *; lia|lia].
Qed.

Lemma read_address extra bs rest : len bs < 2 ^ 63 ->
  read_varint (varint (len bs) ++ bs ++ rest) 0 0 ≫= (fun sl => read_bytes extra (snd sl) (i64 (fst sl)))
  = Ok (bs, rest).
Proof.
  intros Hl. rewrite read_varint_ok by by apply len_u64. cbn [mbind res_bind fst snd].
  assert (0 <= len bs) by (unfold len; lia). rewrite i64_small by lia.
  unfold read_bytes. rewrite len_app.
  destruct (Z.leb_spec 0 (len bs)); [|lia].
  destruct (Z.leb_spec (len bs) (len bs + len rest + len extra)); [|unfold len in *; lia].
  cbn [andb]. unfold len. rewrite Nat2Z.id, <- app_assoc, take_app_length, drop_app_length. done.
Qed.

Lemma i64_u64 p : - 2 ^ 63 <= p < 2 ^ 63 -> i64 (u64 p) = p.
Proof.
  intros Hp. unfold i64, u64. rewrite Z.mod_mod by lia. destruct (Z.leb_spec 0 p).
  - rewrite Z.mod_small by lia. destruct (Z.ltb_spec p (2 ^ 63)); lia.
  - rewrite <- (Z.mod_add p 1), Z.mod_small by lia. destruct (Z.ltb_spec (p + 1 * 2 ^ 64) (2 ^ 63)); lia.
Qed.

Lemma response_reads extra m : len (Address m) < 2 ^ 63 -> - 2 ^ 63 <= PaidUntilUnix m < 2 ^ 63 ->
  Response_Unmarshal extra (response_bytes m) (mkResponse [] 0 false) = Ok m.
Proof.
  intros Hl Hp.
  unfold Response_Unmarshal, response_bytes. destruct m as [bs p c]; cbn [Address PaidUntilUnix Covered] in *.
  transitivity (fields (response_field extra) (S (length (paid_field p ++ covered_field c)))
    (paid_field p ++ covered_field c) (mkResponse bs 0 false)).
  { destruct bs as [|b bs']; [done|]. cbn [address_field]. set (bs := b :: bs') in *.
    apply fields_step; [apply response_consumes|]. unfold response_field. cbn [app].
    rewrite read_tag by lia. cbn [mbind res_bind fst snd].
    change (i32 (Z.shiftr 10 3) =? 1) with true. cbn iota. rewrite <- app_assoc.
    pose proof (read_address extra bs (paid_field p ++ covered_field c) Hl) as Hr.
    apply res_bind_Ok in Hr as (sl&->&Hr). cbn [mbind res_bind]. rewrite Hr. done. }
  transitivity (fields (response_field extra) (S (length (covered_field c))) (covered_field c) (mkResponse bs p false)).
  { unfold paid_field. destruct (Z.eqb_spec p 0) as [->|Hne]; [done|].
    apply fields_step; [apply response_consumes|]. unfold response_field. cbn [app].
    rewrite read_tag by lia. cbn [mbind res_bind fst snd].
    change (i32 (Z.shiftr 16 3)) with 2. cbn [Z.eqb]. cbn iota. cbn [PaidUntilUnix].
    change (u64 0) with 0. rewrite read_varint_ok by apply u64_range. cbn. by rewrite i64_u64. }
  by destruct c.
Qed.

Lemma request_reads extra rq : len (ReqAddress rq) < 2 ^ 63 ->
  Request_Unmarshal extra (address_field (ReqAddress rq)) (mkRequest []) = Ok rq.
Proof.
  intros Hrq.
  unfold Request_Unmarshal. destruct rq as [bs]; cbn [ReqAddress] in *.
  destruct bs as [|b bs'] eqn:Eb; [done|]. rewrite <- Eb in *.
  replace (address_field bs) with (10 :: varint (len bs) ++ bs ++ []) by (rewrite app_nil_r; by rewrite Eb).
  rewrite (fields_step _ _ _ (mkRequest bs) []); [done|apply request_consumes|]. unfold request_field.
  rewrite read_tag by lia. cbn [mbind res_bind fst snd]. change (i32 (Z.shiftr 10 3) =? 1) with true.
  cbn [ensure]. pose proof (read_address extra bs [] Hrq) as Hr.
  apply res_bind_Ok in Hr as (sl&Hsl&Hr). rewrite Hsl. cbn [mbind res_bind]. rewrite Hr. done.
Qed.

(** The hand-written encoders never fail or write outside their buffer, they
    produce the reference encoding field by field, and the decoders read it back,
    whatever bytes follow the message in memory. *)
Theorem codec_roundtrip extra m rq :
  len (Address m) < 2 ^ 63 -> - 2 ^ 63 <= PaidUntilUnix m < 2 ^ 63 -> len (ReqAddress rq) < 2 ^ 63 ->
  Response_Marshal m = Ok (response_bytes m) /\
  Response_Unmarshal extra (response_bytes m) (mkResponse [] 0 false) = Ok m /\
  Request_Marshal rq = Ok (address_field (ReqAddress rq)) /\
  Request_Unmarshal extra (address_field (ReqAddress rq)) (mkRequest []) = Ok rq.
Proof.
  intros Hl Hp Hrq.
  split_and!; [by apply response_marshals|by apply response_reads|by apply request_marshals|by apply request_reads].
Qed.

(** The ways a decoder can end. *)
Definition ends {T} (r : res T) : Prop :=
  match r with Ok _ => True | Err e => e = "ErrUnexpectedEOF"%string | Panic p => p = "slice bounds out of range"%string end.

Lemma ends_bind {A B} (m : res A) (f : A -> res B) : ends m -> (forall a, m = Ok a -> ends (f a)) -> ends (m ≫= f).
Proof. destruct m; cbn; auto. Qed.

Lemma read_varint_ends rest shift acc : ends (read_varint rest shift acc).
Proof. revert shift acc. induction rest as [|b rest IH]; intros; cbn; [done|]. by destruct (b <? 128). Qed.

Lemma read_bytes_ends extra rest sl : ends (read_bytes extra rest sl).
Proof. unfold read_bytes. by destruct (_ && _). Qed.

Lemma request_field_ends extra rest m : ends (request_field extra rest m).
Proof.
  apply ends_bind; [apply read_varint_ends|]. intros wire _. apply ends_bind; [by unfold ensure; destruct (_ =? _)|].
  intros _ _. apply ends_bind; [apply read_varint_ends|]. intros sl _. by apply ends_bind; [apply read_bytes_ends|].
Qed.

Lemma response_field_ends extra rest m : ends (response_field extra rest m).
Proof.
  apply ends_bind; [apply read_varint_ends|]. intros wire _. cbn zeta.
  repeat (destruct (_ =? _); [apply ends_bind; [apply read_varint_ends|]; intros v _;
    first [done|by apply ends_bind; [apply read_bytes_ends|]]|]). done.
Qed.

Lemma fields_end {T} (field : list Z -> T -> res (T * list Z)) fuel rest m : consumes field ->
  (forall rest m, ends (field rest m)) -> (length rest < fuel)%nat -> ends (fields field fuel rest m).
Proof.
  intros Hc He. revert rest m. induction fuel as [|fuel IH]; intros rest m Hl; [lia|]. cbn [fields].
  destruct rest as [|b rest]; [done|]. apply ends_bind; [apply He|]. intros [m' rest'] E%Hc.
  apply IH. cbn in *. lia.
Qed.

(** The decoders terminate on every input: a bound on the number of rounds
    above the number of bytes changes nothing, and the outcome is a message, the
    end-of-input error, or the run-time panic of a slice expression. *)
Theorem decoders_terminate extra dAtA m rq fuel : (length dAtA < fuel)%nat ->
  fields (response_field extra) fuel dAtA m = Response_Unmarshal extra dAtA m /\
  ends (Response_Unmarshal extra dAtA m) /\
  fields (request_field extra) fuel dAtA rq = Request_Unmarshal extra dAtA rq /\
  ends (Request_Unmarshal extra dAtA rq).
Proof.
  intros Hf. pose proof (request_consumes extra). pose proof (response_consumes extra). unfold Response_Unmarshal, Request_Unmarshal.
  split_and!; [apply fields_fuel; [done|done|lia]| |apply fields_fuel; [done|done|lia]|].
  - apply fields_end; [done| |lia]. apply response_field_ends.
  - apply fields_end; [done| |lia]. apply request_field_ends.
Qed.

Module CodecWitness.

Definition sample : QueryCircuitDepositResponse := mkResponse [116; 101; 114; 112] (-1) true.

Lemma codec_roundtrip_witness :
  Response_Marshal sample = Ok (response_bytes sample) /\
  Response_Unmarshal [7] (response_bytes sample) (mkResponse [] 0 false) = Ok sample /\
  Request_Marshal (mkRequest [116]) = Ok (address_field [116]) /\
  Request_Unmarshal [7] (address_field [116]) (mkRequest []) = Ok (mkRequest [116]).
Proof. apply (codec_roundtrip [7] sample (mkRequest [116])); vm_compute; repeat split; discriminate. Defined.

Lemma decoders_terminate_witness :
  fields (response_field []) 100 [8; 1] (mkResponse [] 0 false) = Panic "slice bounds out of range".
Proof.
  etransitivity; [apply (decoders_terminate [] [8; 1] (mkResponse [] 0 false) (mkRequest []) 100); cbn; lia|].
  reflexivity.
Defined.

(** A length that exceeds the buffer is not refused but panics. *)
Lemma malformed_length_panics :
  Request_Unmarshal [] [10; 5; 65] (mkRequest []) = Panic "slice bounds out of range".
Proof. reflexivity. Qed.

(** With spare capacity behind the slice, bytes that are not part of the message
    are read into the address. *)
Lemma reads_past_message :
  Request_Unmarshal [66; 67] [10; 3; 65] (mkRequest []) = Ok (mkRequest [65; 66; 67]).
Proof. reflexivity. Qed.

(** A repeated field does not replace the earlier value but is combined with it
    bit by bit. *)
Lemma repeated_field_combined :
  Response_Unmarshal [] [16; 1; 16; 2] (mkResponse [] 0 false) = Ok (mkResponse [] 3 false).
Proof. reflexivity. Qed.

End CodecWitness.
