(* ===== verification/WasmVkCodec.v ===== *)
(** * x/wasm: the hand-written codec of verification-key parameters

    Genesis states carry verification-key parameters, whose message is encoded
    and decoded by hand-written code in the style of the generated one.  Byte
    fields are slices that can be nil, which is not the same as empty. *)

From Stdlib Require Import ZArith Lia.
From stdpp Require Import base strings list.
From S2P Require Import Prelude Varint WasmCodec.

Record VkParam := mkVkParam {
  ParamID : Z; ParamKey : option (list Z); Creator : list Z; ParamBytes : option (list Z) }.

Definition zero : VkParam := mkVkParam 0 None [] None.

(** ** Encoding *)

Definition sovGenesis (x : Z) : Z := (Len64 (Z.lor x 1) + 6) / 7.

Definition encodeVarintGenesis (dAtA : list Z) (offset v : Z) : res (list Z * Z) :=
  let base := offset - sovGenesis v in
  dAtA ← varint_loop 10 dAtA base v;
  Ok (dAtA, base).

Definition field_size (l : Z) : Z := if 0 <? l then 1 + l + sovGenesis l else 0.

Definition Size (m : VkParam) : Z :=
  (if negb (ParamID m =? 0) then 1 + sovGenesis (ParamID m) else 0)
  + field_size (len (default [] (ParamKey m))) + field_size (len (Creator m))
  + field_size (len (default [] (ParamBytes m))).

(** The bytes, their number and the tag, each written before what is there. *)
Definition put_slice (tag : Z) (bs : list Z) (st : list Z * Z) : res (list Z * Z) :=
  let '(dAtA, i) := st in
  let i := i - len bs in
  dAtA ← copy_at dAtA i bs;
  st ← encodeVarintGenesis dAtA i (len bs);
  let i := snd st - 1 in
  dAtA ← put (fst st) i tag;
  Ok (dAtA, i).

Definition put_id (v : Z) (st : list Z * Z) : res (list Z * Z) :=
  st ← encodeVarintGenesis (fst st) (snd st) v;
  let i := snd st - 1 in
  dAtA ← put (fst st) i 8;
  Ok (dAtA, i).

(** The filled buffer and the number of bytes written at its end. *)
Definition MarshalToSizedBuffer (m : VkParam) (dAtA : list Z) : res (list Z * Z) :=
  let st := (dAtA, len dAtA) in
  st ← (match ParamBytes m with Some bs => put_slice 34 bs st | None => Ok st end);
  st ← (if 0 <? len (Creator m) then put_slice 26 (Creator m) st else Ok st);
  st ← (match ParamKey m with Some bs => put_slice 18 bs st | None => Ok st end);
  st ← (if negb (ParamID m =? 0) then put_id (ParamID m) st else Ok st);
  Ok (fst st, len (fst st) - snd st).

(** [dAtA[:n]]. *)
Definition slice_to (dAtA : list Z) (n : Z) : res (list Z) :=
  if (0 <=? n) && (n <=? len dAtA) then Ok (take (Z.to_nat n) dAtA) else Panic "slice bounds out of range".

Definition Marshal (m : VkParam) : res (list Z) :=
  r ← MarshalToSizedBuffer m (replicate (Z.to_nat (Size m)) 0);
  slice_to (fst r) (snd r).

(** ** Decoding *)

(** [dAtA[i]]. *)
Definition get_at (dAtA : list Z) (i : Z) : res Z :=
  if 0 <=? i then match dAtA !! Z.to_nat i with Some b => Ok b | None => Panic "index out of range" end
  else Panic "index out of range".

(** [dAtA[lo:hi]]. *)
Definition slice (dAtA : list Z) (lo hi : Z) : res (list Z) :=
  if (0 <=? lo) && (lo <=? hi) && (hi <=? len dAtA)
  then Ok (take (Z.to_nat (hi - lo)) (drop (Z.to_nat lo) dAtA)) else Panic "slice bounds out of range".

(** The loop over the groups of a number; it is left in the eleventh round at
    the latest. *)
Fixpoint varint_at (fuel : nat) (dAtA : list Z) (iNdEx shift acc : Z) : res (Z * Z) :=
  match fuel with
  | O => Panic "out of fuel"
  | S fuel =>
      if 64 <=? shift then Err "ErrIntOverflowGenesis"
      else if len dAtA <=? iNdEx then Err "ErrUnexpectedEOF"
      else
        b ← get_at dAtA iNdEx;
        let acc := Z.lor acc (shl64 (Z.land b 127) shift) in
        if b <? 128 then Ok (acc, iNdEx + 1) else varint_at fuel dAtA (iNdEx + 1) (shift + 7) acc
  end.

Definition read_at (dAtA : list Z) (iNdEx : Z) : res (Z * Z) := varint_at 11 dAtA iNdEx 0 0.

(** One value of wire type [wireType], as [skipGenesis] steps over it. *)
Definition skip_value (dAtA : list Z) (wireType iNdEx depth : Z) : res (Z * Z) :=
  if wireType =? 0 then v ← read_at dAtA iNdEx; Ok (snd v, depth)
  else if wireType =? 1 then Ok (i64 (iNdEx + 8), depth)
  else if wireType =? 2 then
    n ← read_at dAtA iNdEx;
    let length := i64 (fst n) in
    refuse (length <? 0) "ErrInvalidLengthGenesis";;
    Ok (i64 (snd n + length), depth)
  else if wireType =? 3 then Ok (iNdEx, depth + 1)
  else if wireType =? 4 then refuse (depth =? 0) "ErrUnexpectedEndOfGroupGenesis";; Ok (iNdEx, depth - 1)
  else if wireType =? 5 then Ok (i64 (iNdEx + 4), depth)
  else Err "illegal wireType".

Fixpoint skip_loop (fuel : nat) (dAtA : list Z) (iNdEx depth : Z) : res Z :=
  match fuel with
  | O => Panic "out of fuel"
  | S fuel =>
      if iNdEx <? len dAtA then
        wire ← read_at dAtA iNdEx;
        r ← skip_value dAtA (Z.land (fst wire) 7) (snd wire) depth;
        refuse (fst r <? 0) "ErrInvalidLengthGenesis";;
        if snd r =? 0 then Ok (fst r) else skip_loop fuel dAtA (fst r) (snd r)
      else Err "ErrUnexpectedEOF"
  end.

Definition skipGenesis (dAtA : list Z) : res Z := skip_loop (S (length dAtA)) dAtA 0 0.

(** A field of bytes: the slice and the index after it. *)
Definition read_slice (dAtA : list Z) (iNdEx : Z) : res (list Z * Z) :=
  n ← read_at dAtA iNdEx;
  let byteLen := i64 (fst n) in
  refuse (byteLen <? 0) "ErrInvalidLengthGenesis";;
  let postIndex := i64 (snd n + byteLen) in
  refuse ((postIndex <? 0) || (len dAtA <? postIndex)) "ErrUnexpectedEOF";;
  bs ← slice dAtA (snd n) postIndex;
  Ok (bs, postIndex).

(** [append(old[:0], bs...)]: nothing appended to nil is nil. *)
Definition append_to (old : option (list Z)) (bs : list Z) : option (list Z) :=
  match old, bs with None, [] => None | _, _ => Some bs end.

Definition skip_field (dAtA : list Z) (iNdEx : Z) : res Z :=
  rest ← slice_from dAtA iNdEx;
  skippy ← skipGenesis rest;
  refuse ((skippy <? 0) || (i64 (iNdEx + skippy) <? 0)) "ErrInvalidLengthGenesis";;
  refuse (len dAtA <? i64 (iNdEx + skippy)) "ErrUnexpectedEOF";;
  Ok (i64 (iNdEx + skippy)).

Definition vk_field (dAtA : list Z) (iNdEx : Z) (m : VkParam) : res (VkParam * Z) :=
  wire ← read_at dAtA iNdEx;
  let fieldNum := i32 (Z.shiftr (fst wire) 3) in
  let wireType := Z.land (fst wire) 7 in
  refuse (wireType =? 4) "wiretype end group for non-group";;
  refuse (fieldNum <=? 0) "illegal tag";;
  if fieldNum =? 1 then
    ensure (wireType =? 0) "wrong wireType";;
    v ← read_at dAtA (snd wire);
    Ok (mkVkParam (fst v) (ParamKey m) (Creator m) (ParamBytes m), snd v)
  else if fieldNum =? 2 then
    ensure (wireType =? 2) "wrong wireType";;
    s ← read_slice dAtA (snd wire);
    Ok (mkVkParam (ParamID m) (append_to (ParamKey m) (fst s)) (Creator m) (ParamBytes m), snd s)
  else if fieldNum =? 3 then
    ensure (wireType =? 2) "wrong wireType";;
    s ← read_slice dAtA (snd wire);
    Ok (mkVkParam (ParamID m) (ParamKey m) (fst s) (ParamBytes m), snd s)
  else if fieldNum =? 4 then
    ensure (wireType =? 2) "wrong wireType";;
    s ← read_slice dAtA (snd wire);
    Ok (mkVkParam (ParamID m) (ParamKey m) (Creator m) (append_to (ParamBytes m) (fst s)), snd s)
  else
    i ← skip_field dAtA iNdEx;
    Ok (m, i).

Fixpoint unmarshal_loop (fuel : nat) (dAtA : list Z) (iNdEx : Z) (m : VkParam) : res VkParam :=
  match fuel with
  | O => Panic "out of fuel"
  | S fuel =>
      if iNdEx <? len dAtA then r ← vk_field dAtA iNdEx m; unmarshal_loop fuel dAtA (snd r) (fst r)
      else refuse (len dAtA <? iNdEx) "ErrUnexpectedEOF";; Ok m
  end.

Definition Unmarshal (dAtA : list Z) (m : VkParam) : res VkParam := unmarshal_loop (S (length dAtA)) dAtA 0 m.

(** ** Decoding never panics *)

(** A read from index [i] fails with an error or stops past [i] at [j <= n]. *)
Definition advances {T} (i n : Z) (r : res (T * Z)) : Prop :=
  match r with Ok (_, j) => i < j <= n | Err _ => True | Panic _ => False end.

Definition returned {T} (r : res T) : Prop := match r with Panic _ => False | _ => True end.

Lemma get_at_ok dAtA i : 0 <= i < len dAtA -> exists b, get_at dAtA i = Ok b.
Proof.
  intros Hi. unfold get_at. rewrite (proj2 (Z.leb_le _ _)) by lia.
  destruct (lookup_lt_is_Some_2 dAtA (Z.to_nat i)) as [b Hb]; [unfold len in Hi; lia|]. rewrite Hb. by exists b.
Qed.

Lemma varint_at_total fuel dAtA i shift acc : 0 <= i -> 64 <= shift + 7 * (Z.of_nat fuel - 1) -> (0 < fuel)%nat ->
  is_u64 acc -> advances i (len dAtA) (varint_at fuel dAtA i shift acc) /\
  forall v j, varint_at fuel dAtA i shift acc = Ok (v, j) -> is_u64 v.
Proof.
  revert i shift acc. induction fuel as [|fuel IH]; intros i shift acc Hi Hf Hpos Hacc; [lia|]. cbn [varint_at].
  destruct (Z.leb_spec 64 shift); [done|]. destruct (Z.leb_spec (len dAtA) i); [done|].
  destruct (get_at_ok dAtA i) as [b ->]; [lia|]. cbn [mbind res_bind].
  assert (Hacc' : is_u64 (Z.lor acc (shl64 (Z.land b 127) shift))).
  { pose proof (u64_range (Z.shiftl (Z.land b 127) shift)) as Hs. unfold shl64, is_u64 in *.
    split; [apply Z.lor_nonneg; lia|]. destruct (Z.eq_dec (Z.lor acc (u64 (Z.shiftl (Z.land b 127) shift))) 0) as [->|Hne]; [lia|].
    apply Z.log2_lt_pow2; [pose proof (proj2 (Z.lor_nonneg acc (u64 (Z.shiftl (Z.land b 127) shift))) ltac:(lia)); lia|].
    rewrite Z.log2_lor by lia. apply Z.max_lub_lt.
    - destruct (Z.eq_dec acc 0) as [->|]; [done|]. apply Z.log2_lt_pow2; lia.
    - destruct (Z.eq_dec (u64 (Z.shiftl (Z.land b 127) shift)) 0) as [->|]; [done|]. apply Z.log2_lt_pow2; lia. }
  destruct (b <? 128).
  - split; [cbn; lia|]. by intros v j [= <- <-].
  - destruct (IH (i + 1) (shift + 7) _ ltac:(lia) ltac:(lia) ltac:(lia) Hacc') as [Ha Hv]. split; [|done].
    destruct (varint_at fuel _ _ _ _) as [[v j]| |]; cbn in *; [lia|done..].
Qed.

Lemma read_at_total dAtA i : 0 <= i ->
  (exists v j, read_at dAtA i = Ok (v, j) /\ is_u64 v /\ i < j <= len dAtA) \/ exists e, read_at dAtA i = Err e.
Proof.
  intros Hi. destruct (varint_at_total 11 dAtA i 0 0) as [Ha Hv]; [done|lia|lia|unfold is_u64; lia|]. unfold read_at.
  destruct (varint_at 11 dAtA i 0 0) as [[v j]|e|]; [left|right; by exists e|done].
  exists v, j. split; [done|]. split; [by apply (Hv v j)|done].
Qed.

(** A sum of two indexes either fits or is seen as negative. *)
Lemma i64_sum a b : 0 <= a < 2 ^ 63 -> 0 <= b < 2 ^ 63 -> i64 (a + b) < 0 \/ i64 (a + b) = a + b.
Proof.
  intros Ha Hb. destruct (Z.lt_ge_cases (a + b) (2 ^ 63)); [right; apply i64_small; lia|left].
  unfold i64. rewrite Z.mod_small by lia. destruct (Z.ltb_spec (a + b) (2 ^ 63)); lia.
Qed.

Lemma i64_below v : i64 v < 2 ^ 63.
Proof.
  unfold i64. pose proof (Z.mod_pos_bound v (2 ^ 64) ltac:(lia)). destruct (Z.ltb_spec (v mod 2 ^ 64) (2 ^ 63)); lia.
Qed.

(** Splits a read into its outcomes. *)
Ltac reading Hi v j Hv Hj :=
  match goal with |- context[read_at ?d ?i] =>
    let e := fresh "e" in let E := fresh "E" in
    destruct (read_at_total d i Hi) as [(v&j&E&Hv&Hj)|(e&E)]; rewrite E; cbn [mbind res_bind fst snd]; [|try done] end.

(** A step of [skipGenesis] does not go back, unless the index overflowed. *)
Lemma skip_value_total dAtA wireType i depth : len dAtA < 2 ^ 63 - 8 -> 0 <= i <= len dAtA ->
  match skip_value dAtA wireType i depth with
  | Ok (j, _) => j < 0 \/ i <= j < 2 ^ 63 | Err _ => True | Panic _ => False end.
Proof.
  intros Hl Hi. unfold skip_value. assert (Hi0 : 0 <= i) by lia.
  destruct (wireType =? 0); [reading Hi0 v j Hv Hj; lia|].
  destruct (wireType =? 1); [rewrite i64_small by lia; lia|].
  destruct (wireType =? 2).
  { reading Hi0 v j Hv Hj. unfold refuse. destruct (Z.ltb_spec (i64 v) 0); [done|]. cbn [mbind res_bind].
    pose proof (i64_below v). pose proof (i64_below (j + i64 v)). destruct (i64_sum j (i64 v)); lia. }
  destruct (wireType =? 3); [lia|]. destruct (wireType =? 4); [unfold refuse; destruct (depth =? 0); cbn; [done|lia]|].
  destruct (wireType =? 5); [rewrite i64_small by lia; lia|done].
Qed.

Lemma skip_loop_total fuel dAtA i depth : len dAtA < 2 ^ 63 - 8 -> 0 <= i -> len dAtA - i < Z.of_nat fuel ->
  (0 < fuel)%nat -> match skip_loop fuel dAtA i depth with Ok j => i < j < 2 ^ 63 | Err _ => True | Panic _ => False end.
Proof.
  intros Hl. revert i depth. induction fuel as [|fuel IH]; intros i depth Hi Hf Hpos; [lia|]. cbn [skip_loop].
  destruct (Z.ltb_spec i (len dAtA)); [|done]. reading Hi v j Hv Hj.
  pose proof (skip_value_total dAtA (Z.land v 7) j depth Hl ltac:(lia)) as Hs.
  destruct (skip_value _ _ _ _) as [[k d]| |]; cbn [mbind res_bind fst snd]; [|done..].
  unfold refuse. destruct (Z.ltb_spec k 0); [done|]. cbn [mbind res_bind].
  destruct (d =? 0); [lia|]. specialize (IH k d ltac:(lia)).
  destruct fuel as [|fuel]; [lia|]. specialize (IH ltac:(lia) ltac:(lia)). destruct (skip_loop _ _ _ _); lia || done.
Qed.

Lemma skip_field_total dAtA i : len dAtA < 2 ^ 63 - 8 -> 0 <= i < len dAtA ->
  match skip_field dAtA i with Ok j => i < j <= len dAtA | Err _ => True | Panic _ => False end.
Proof.
  intros Hl Hi. unfold skip_field, slice_from. rewrite (proj2 (Z.leb_le 0 i)), (proj2 (Z.leb_le i _)) by lia. cbn [andb mbind res_bind].
  set (rest := drop (Z.to_nat i) dAtA).
  assert (Hr : len rest = len dAtA - i) by (unfold len, rest in *; rewrite length_drop; lia).
  pose proof (skip_loop_total (S (length rest)) rest 0 0 ltac:(lia) ltac:(lia) ltac:(unfold len; lia) ltac:(lia)) as Hs.
  change (skip_loop (S (length rest)) rest 0 0) with (skipGenesis rest) in Hs.
  destruct (skipGenesis rest) as [n| |]; [|done..]. unfold refuse. cbn [mbind res_bind].
  destruct (Z.ltb_spec n 0); [done|]. cbn [orb].
  destruct (Z.ltb_spec (i64 (i + n)) 0); [done|]. cbn [mbind res_bind].
  destruct (Z.ltb_spec (len dAtA) (i64 (i + n))); [done|]. cbn [mbind res_bind].
  destruct (i64_sum i n); lia.
Qed.

Lemma read_slice_total dAtA i : len dAtA < 2 ^ 63 - 8 -> 0 <= i -> advances i (len dAtA) (read_slice dAtA i).
Proof.
  intros Hl Hi. unfold read_slice. reading Hi v j Hv Hj. unfold refuse.
  destruct (Z.ltb_spec (i64 v) 0); [done|]. cbn [mbind res_bind].
  destruct (Z.ltb_spec (i64 (j + i64 v)) 0); [done|]. cbn [orb].
  destruct (Z.ltb_spec (len dAtA) (i64 (j + i64 v))); [done|]. cbn [mbind res_bind].
  pose proof (i64_below v). destruct (i64_sum j (i64 v)) as [|Es]; [lia..|]. unfold slice.
  rewrite (proj2 (Z.leb_le 0 j)), (proj2 (Z.leb_le j _)), (proj2 (Z.leb_le _ (len dAtA))) by lia. cbn. lia.
Qed.

Lemma vk_field_total dAtA i m : len dAtA < 2 ^ 63 - 8 -> 0 <= i < len dAtA -> advances i (len dAtA) (vk_field dAtA i m).
Proof.
  intros Hl Hi. unfold vk_field. assert (Hi0 : 0 <= i) by lia. reading Hi0 v j Hv Hj. unfold refuse, ensure.
  set (f := i32 _). set (t := Z.land v 7).
  destruct (t =? 4); [done|]. cbn [mbind res_bind]. destruct (f <=? 0); [done|]. cbn [mbind res_bind].
  assert (Hj0 : 0 <= j) by lia. pose proof (read_slice_total dAtA j Hl Hj0) as Hs.
  destruct (f =? 1); [destruct (t =? 0); [|done]; cbn [mbind res_bind]; reading Hj0 u k Hu Hk; cbn; lia|].
  destruct (f =? 2); [|destruct (f =? 3); [|destruct (f =? 4)]].
  1-3: destruct (t =? 2); [|done]; cbn [mbind res_bind]; destruct (read_slice _ _) as [[] | |]; cbn in *; lia || done.
  pose proof (skip_field_total dAtA i Hl Hi). destruct (skip_field dAtA i); cbn in *; lia || done.
Qed.

(** C37: decoding arbitrary bytes into any message terminates and either succeeds
    or returns an error: it never reads outside the input, whatever lengths,
    groups and unknown fields the input declares. *)
Theorem vk_decoder_total dAtA m : len dAtA < 2 ^ 63 - 8 -> returned (Unmarshal dAtA m).
Proof.
  intros Hl. unfold Unmarshal.
  assert (Hloop : forall fuel i m, 0 <= i <= len dAtA -> len dAtA - i < Z.of_nat fuel -> returned (unmarshal_loop fuel dAtA i m)).
  { induction fuel as [|fuel IH]; intros i m' Hi Hf; [lia|]. cbn [unmarshal_loop].
    destruct (Z.ltb_spec i (len dAtA)); [|unfold refuse; by destruct (_ <? _)].
    pose proof (vk_field_total dAtA i m' Hl ltac:(lia)) as Hv. destruct (vk_field dAtA i m') as [[m1 j]| |]; [|done..].
    cbn in *. apply IH; lia. }
  apply Hloop; unfold len; lia.
Qed.

(** ** What the encoder writes *)

Definition id_field (v : Z) : list Z := if v =? 0 then [] else 8 :: varint v.
Definition slice_field (tag : Z) (o : option (list Z)) : list Z :=
  match o with Some bs => bytes_field tag bs | None => [] end.
Definition text_field (tag : Z) (bs : list Z) : list Z := match bs with [] => [] | _ => bytes_field tag bs end.

(** The reference encoding: the fields in the order of their tags. *)
Definition vk_bytes (m : VkParam) : list Z :=
  id_field (ParamID m) ++ slice_field 18 (ParamKey m) ++ text_field 26 (Creator m) ++ slice_field 34 (ParamBytes m).

(** Every number fits its type. *)
Record sized (m : VkParam) : Prop := {
  sized_id : is_u64 (ParamID m);
  sized_key : len (default [] (ParamKey m)) < 2 ^ 63;
  sized_creator : len (Creator m) < 2 ^ 63;
  sized_bytes : len (default [] (ParamBytes m)) < 2 ^ 63
}.

(** A slice that is there but holds nothing. *)
Definition hollow (o : option (list Z)) : bool := match o with Some [] => true | _ => false end.

(** Writing a field into [i] bytes of room. *)
Definition written (i : Z) (field : list Z) (w : list Z * Z -> res (list Z * Z)) : Prop :=
  (forall a j t, len (a ++ j) = i -> length j = length field -> w (a ++ j ++ t, i) = Ok (a ++ field ++ t, len a)) /\
  (forall dAtA, i <= len dAtA -> i < len field -> exists p, w (dAtA, i) = Panic p).

Lemma varint_length v : is_u64 v -> 0 < len (varint v).
Proof.
  intros Hv. unfold varint. rewrite groups_length by by apply u64_groups.
  pose proof (Z.div_pos (Z.log2 v) 7 (Z.log2_nonneg v) ltac:(lia)). lia.
Qed.

Lemma put_negative dAtA i v : i < 0 -> put dAtA i v = Panic "index out of range".
Proof. intros Hi. unfold put. by destruct (Z.leb_spec 0 i); [lia|]. Qed.

Lemma encode_negative dAtA i v : is_u64 v -> i < len (varint v) ->
  encodeVarintGenesis dAtA i v = Panic "index out of range".
Proof.
  intros Hv Hi. unfold encodeVarintGenesis. change (sovGenesis v) with (sovDeposit v). rewrite sovDeposit_varint by done.
  rewrite varint_loop_S. rewrite !put_negative by lia. by destruct (128 <=? v).
Qed.

(** Numbers and tags before the room begins are refused by the run-time check. *)
Lemma tag_overflow tag v dAtA i : is_u64 v -> 0 <= i <= len dAtA -> i <= len (varint v) ->
  exists p, (encodeVarintGenesis dAtA i v ≫= fun st => put (fst st) (snd st - 1) tag ≫= fun d => Ok (d, snd st - 1)) = Panic p.
Proof.
  intros Hv Hi Hlen. destruct (decide (i < len (varint v))) as [Hlt|Hge]; [by rewrite encode_negative by done; eexists|].
  assert (Ei : i = len (varint v)) by lia. set (j := take (Z.to_nat i) dAtA). set (t := drop (Z.to_nat i) dAtA).
  assert (Hj : length j = length (varint v)) by (unfold j, len in *; rewrite length_take; lia).
  pose proof (encode_ok v [] j t Hv Hj) as E. cbn [app] in E.
  replace (j ++ t) with dAtA in E by (symmetry; apply take_drop).
  replace (len [] + len j) with i in E by (unfold len in *; cbn; lia).
  change (encodeVarintGenesis dAtA i v) with (encodeVarintDeposit dAtA i v). rewrite E.
  cbn [mbind res_bind fst snd]. rewrite put_negative by (unfold len; cbn; lia). by eexists.
Qed.

Lemma put_slice_written tag bs i : len bs < 2 ^ 63 -> 0 <= i -> written i (bytes_field tag bs) (put_slice tag bs).
Proof.
  intros Hl Hi. split.
  - intros a j t Hlen Hj. rewrite <- Hlen, len_app. by apply put_bytes_ok.
  - intros dAtA Hd Hlt. rewrite <- bytes_size in Hlt by done. rewrite sovDeposit_varint in Hlt by by apply len_u64.
    unfold put_slice, copy_at. destruct (Z.leb_spec 0 (i - len bs)); [|by eexists].
    assert (0 <= len bs) by (unfold len; lia). rewrite (proj2 (Z.leb_le (i - len bs) (len dAtA))) by lia. cbn [andb mbind res_bind].
    apply (tag_overflow tag (len bs)); [by apply len_u64| |lia]. split; [done|].
    unfold len in *. rewrite !length_app, !length_take, length_drop. lia.
Qed.

Lemma put_id_written v i : is_u64 v -> v <> 0 -> 0 <= i -> written i (id_field v) (put_id v).
Proof.
  intros Hv Hne Hi. unfold id_field. rewrite (proj2 (Z.eqb_neq v 0)) by done. split.
  - intros a [|x j] t Hlen Hj; [done|]. injection Hj as Hj. unfold put_id. cbn [fst snd].
    replace (a ++ (x :: j) ++ t) with ((a ++ [x]) ++ j ++ t) by by rewrite <- app_assoc.
    replace i with (len (a ++ [x]) + len j) by (rewrite <- Hlen, !len_app; unfold len; cbn; lia).
    change (encodeVarintGenesis ?d ?o ?x) with (encodeVarintDeposit d o x). rewrite encode_ok by done. cbn [mbind res_bind fst snd].
    replace (len (a ++ [x]) - 1) with (len a) by (rewrite len_app; unfold len; cbn; lia).
    rewrite <- app_assoc. cbn [app]. by rewrite put_at.
  - intros dAtA Hd Hlt. unfold put_id. cbn [fst snd]. apply (tag_overflow 8 v); [done|lia|].
    change (8 :: varint v) with ([8] ++ varint v) in Hlt. rewrite len_app in Hlt. replace (len [8]) with 1 in Hlt by done. lia.
Qed.

Definition writes (field : list Z) (w : list Z * Z -> res (list Z * Z)) : Prop := forall i, 0 <= i -> written i field w.

Lemma writes_nothing : writes [] Ok.
Proof.
  intros i Hi. split; [|intros; unfold len in *; cbn in *; lia].
  intros a j t <- Hj. destruct j; [|done]. by rewrite app_nil_r.
Qed.

(** Fields are written one before the other. *)
Lemma writes_before f f' w w' : writes f w -> writes f' w' -> writes (f ++ f') (fun st => w' st ≫= w).
Proof.
  intros Hw Hw' i Hi. split.
  - intros a j t Hlen Hj. rewrite length_app in Hj. destruct (split_length j _ _ Hj) as (j1&j2&->&E1&E2).
    rewrite app_assoc in Hlen. destruct (Hw' i Hi) as [Hok _].
    replace (a ++ (j1 ++ j2) ++ t) with ((a ++ j1) ++ j2 ++ t) by by rewrite <- !app_assoc.
    rewrite Hok by done. cbn [mbind res_bind].
    destruct (Hw (len (a ++ j1))) as [Hok1 _]; [unfold len; lia|].
    rewrite <- app_assoc, (Hok1 a j1 (f' ++ t)) by done. by rewrite <- app_assoc.
  - intros dAtA Hd Hlt. rewrite len_app in Hlt. destruct (Hw' i Hi) as [Hok Hno].
    destruct (decide (i < len f')) as [Hs|Hs]; [destruct (Hno dAtA Hd Hs) as [p ->]; by exists p|].
    assert (exists n, Z.of_nat n = i - len f') as [n Hn] by (exists (Z.to_nat (i - len f')); lia).
    assert (Hsplit : dAtA = take n dAtA ++ take (length f') (drop n dAtA) ++ drop (length f') (drop n dAtA)) by by rewrite !take_drop.
    assert (Ha : len (take n dAtA) = i - len f') by (unfold len in *; rewrite length_take; lia).
    assert (Hj : length (take (length f') (drop n dAtA)) = length f').
    { rewrite length_take, length_drop. unfold len in *. lia. }
    rewrite Hsplit, Hok; [|rewrite len_app, Ha; unfold len in *; lia|done]. cbn [mbind res_bind].
    destruct (Hw (len (take n dAtA))) as [_ Hno1]; [lia|]. apply Hno1; [rewrite len_app; unfold len; lia|lia].
Qed.

Lemma writes_slice tag o : len (default [] o) < 2 ^ 63 ->
  writes (slice_field tag o) (fun st => match o with Some bs => put_slice tag bs st | None => Ok st end).
Proof. destruct o as [bs|]; intros Hl; [intros i Hi; by apply put_slice_written|apply writes_nothing]. Qed.

Lemma writes_text tag bs : len bs < 2 ^ 63 ->
  writes (text_field tag bs) (fun st => if 0 <? len bs then put_slice tag bs st else Ok st).
Proof.
  intros Hl. destruct bs as [|b bs]; [apply writes_nothing|]. intros i Hi. by apply put_slice_written.
Qed.

Lemma writes_id v : is_u64 v -> writes (id_field v) (fun st => if negb (v =? 0) then put_id v st else Ok st).
Proof.
  intros Hv. destruct (Z.eqb_spec v 0) as [->|Hne]; [apply writes_nothing|]. intros i Hi. by apply put_id_written.
Qed.

Definition fill (m : VkParam) (st : list Z * Z) : res (list Z * Z) :=
  (((match ParamBytes m with Some bs => put_slice 34 bs st | None => Ok st end)
    ≫= fun st => if 0 <? len (Creator m) then put_slice 26 (Creator m) st else Ok st)
   ≫= fun st => match ParamKey m with Some bs => put_slice 18 bs st | None => Ok st end)
  ≫= fun st => if negb (ParamID m =? 0) then put_id (ParamID m) st else Ok st.

Lemma writes_all m : sized m -> writes (vk_bytes m) (fill m).
Proof.
  intros [Hid Hk Hc Hb]. unfold vk_bytes, fill.
  apply (writes_before (id_field (ParamID m))); [by apply writes_id|].
  apply (writes_before (slice_field 18 (ParamKey m))); [by apply writes_slice|].
  apply (writes_before (text_field 26 (Creator m))); [by apply writes_text|]. by apply writes_slice.
Qed.

Lemma marshal_fill m dAtA :
  MarshalToSizedBuffer m dAtA = fill m (dAtA, len dAtA) ≫= fun st => Ok (fst st, len (fst st) - snd st).
Proof.
  unfold MarshalToSizedBuffer, fill, mbind, res_bind.
  destruct (match ParamBytes m with Some _ => _ | None => _ end) as [st| |]; [|done..].
  destruct (if 0 <? len (Creator m) then _ else _) as [st'| |]; [|done..].
  by destruct (match ParamKey m with Some _ => _ | None => _ end).
Qed.

(** The computed size leaves two bytes out for each hollow slice. *)
Definition missing (o : option (list Z)) : Z := if hollow o then 2 else 0.

Lemma slice_size tag o : len (default [] o) < 2 ^ 63 ->
  len (slice_field tag o) = field_size (len (default [] o)) + missing o.
Proof.
  intros Hl. destruct o as [[|b bs]|]; [done| |done]. cbn [slice_field]. rewrite <- bytes_size by done.
  unfold field_size, missing. rewrite (proj2 (Z.ltb_lt 0 _)) by (unfold len; cbn; lia).
  change (sovGenesis ?x) with (sovDeposit x). cbn [default hollow]. unfold len in *. cbn. lia.
Qed.

Lemma size_written m : sized m -> len (vk_bytes m) = Size m + missing (ParamKey m) + missing (ParamBytes m).
Proof.
  intros [Hid Hk Hc Hb]. unfold vk_bytes, Size. rewrite !len_app, !slice_size by done.
  assert (len (id_field (ParamID m)) = if negb (ParamID m =? 0) then 1 + sovGenesis (ParamID m) else 0) as ->.
  { unfold id_field. destruct (ParamID m =? 0); [done|]. cbn [negb]. change (sovGenesis ?x) with (sovDeposit x).
    rewrite sovDeposit_varint by done. change (8 :: varint (ParamID m)) with ([8] ++ varint (ParamID m)). by rewrite len_app. }
  assert (len (text_field 26 (Creator m)) = field_size (len (Creator m))) as ->; [|lia].
  destruct (Creator m) as [|b bs]; [done|]. pose proof (slice_size 26 (Some (b :: bs)) Hc) as E. cbn [slice_field default] in E.
  rewrite Z.add_0_r in E. exact E.
Qed.

Lemma size_nonneg m : 0 <= Size m.
Proof.
  assert (Hs : forall x, 0 <= sovGenesis x).
  { intros x. unfold sovGenesis, Len64. apply Z.div_pos; [|lia]. pose proof (Z.log2_nonneg (Z.lor x 1)). destruct (_ =? 0); lia. }
  assert (Hf : forall l, 0 <= field_size l).
  { intros l. unfold field_size. pose proof (Hs l). destruct (Z.ltb_spec 0 l); lia. }
  unfold Size. pose proof (Hs (ParamID m)). pose proof (Hf (len (default [] (ParamKey m)))). pose proof (Hf (len (Creator m))).
  pose proof (Hf (len (default [] (ParamBytes m)))). destruct (negb _); lia.
Qed.

Lemma marshal_ok m : sized m -> hollow (ParamKey m) = false -> hollow (ParamBytes m) = false -> Marshal m = Ok (vk_bytes m).
Proof.
  intros Hm Hk Hb. pose proof (size_written m Hm) as Hsz. unfold missing in Hsz. rewrite Hk, Hb in Hsz.
  destruct (writes_all m Hm (Size m) (size_nonneg m)) as [Hok _]. unfold Marshal. rewrite marshal_fill.
  set (d := replicate _ 0). pose proof (size_nonneg m).
  assert (Hd : len d = Size m) by (unfold d, len; rewrite length_replicate; lia). rewrite Hd.
  specialize (Hok [] d []). cbn [app] in Hok. rewrite !app_nil_r in Hok. rewrite Hok by (unfold len in *; done || lia).
  cbn [mbind res_bind fst snd]. unfold slice_to. replace (len (vk_bytes m) - len []) with (len (vk_bytes m)) by (unfold len; cbn; lia).
  rewrite (proj2 (Z.leb_le 0 _)), Z.leb_refl by (unfold len; lia). cbn. unfold len. rewrite Nat2Z.id. by rewrite firstn_all.
Qed.

Lemma marshal_hollow m : sized m -> hollow (ParamKey m) || hollow (ParamBytes m) = true -> exists p, Marshal m = Panic p.
Proof.
  intros Hm Hh. pose proof (size_written m Hm) as Hsz. pose proof (size_nonneg m).
  destruct (writes_all m Hm (Size m) (size_nonneg m)) as [_ Hno]. unfold Marshal. rewrite marshal_fill.
  set (d := replicate _ 0). assert (Hd : len d = Size m) by (unfold d, len; rewrite length_replicate; lia). rewrite Hd.
  destruct (Hno d) as [p ->]; [lia| |by exists p]. unfold missing in Hsz.
  destruct (hollow (ParamKey m)), (hollow (ParamBytes m)); done || lia.
Qed.

(** ** Reading back *)

Lemma get_at_app pre b rest : get_at (pre ++ b :: rest) (len pre) = Ok b.
Proof.
  unfold get_at, len. rewrite (proj2 (Z.leb_le 0 _)) by lia. rewrite Nat2Z.id.
  by rewrite lookup_app_r, Nat.sub_diag by lia.
Qed.

(** The loop over an index does what the loop over the remaining bytes does, for
    numbers of at most ten groups. *)
Lemma varint_at_read fuel pre rest shift acc v rest' k : read_varint rest shift acc = Ok (v, rest') ->
  shift = 7 * k -> k + (len rest - len rest') <= 10 -> 11 <= k + Z.of_nat fuel ->
  varint_at fuel (pre ++ rest) (len pre) shift acc = Ok (v, len (pre ++ rest) - len rest').
Proof.
  revert pre rest shift acc k. induction fuel as [|fuel IH]; intros pre rest shift acc k E Hs Hk Hf.
  { pose proof (read_shorter _ _ _ _ _ E). unfold len in *. lia. }
  pose proof (read_shorter _ _ _ _ _ E) as Hlt. destruct rest as [|b rest]; [done|]. cbn [read_varint] in E. cbn [varint_at].
  rewrite (proj2 (Z.leb_gt 64 shift)) by (unfold len in *; cbn in *; lia).
  rewrite (proj2 (Z.leb_gt _ _)) by (rewrite len_app; unfold len; cbn; lia). rewrite get_at_app. cbn [mbind res_bind].
  destruct (b <? 128); [injection E as <- <-; f_equal; f_equal; rewrite len_app; unfold len; cbn; lia|].
  specialize (IH (pre ++ [b]) rest (shift + 7) _ (k + 1) E).
  replace (len (pre ++ [b])) with (len pre + 1) in IH by (rewrite len_app; done). rewrite <- app_assoc in IH. cbn [app] in IH.
  apply IH; [lia| |lia]. unfold len in *. cbn in *. lia.
Qed.

Lemma read_at_varint pre v rest : is_u64 v ->
  read_at (pre ++ varint v ++ rest) (len pre) = Ok (v, len pre + len (varint v)).
Proof.
  intros Hv. unfold read_at.
  assert (Hl : len (varint v) <= 10).
  { unfold varint. rewrite groups_length by by apply u64_groups. unfold is_u64 in Hv.
    assert (Z.log2 v <= 63); [|pose proof (Z.div_le_mono (Z.log2 v) 63 7 ltac:(lia) ltac:(lia)); change (63 / 7) with 9 in *; lia].
    destruct (Z.eq_dec v 0) as [->|]; [done|]. apply Z.lt_succ_r, Z.log2_lt_pow2; lia. }
  rewrite (varint_at_read 11 pre (varint v ++ rest) 0 0 v rest 0); [f_equal; f_equal|by apply read_varint_ok|done| |lia];
    rewrite !len_app; lia.
Qed.

(** A tag of one byte. *)
Lemma read_at_tag pre b rest : 0 <= b < 128 -> read_at (pre ++ b :: rest) (len pre) = Ok (b, len pre + 1).
Proof.
  intros Hb. unfold read_at. rewrite (varint_at_read 11 pre (b :: rest) 0 0 b rest 0); [|by apply read_tag|done| |lia].
  - f_equal. f_equal. rewrite len_app. unfold len. cbn. lia.
  - unfold len. cbn. lia.
Qed.

Lemma read_slice_ok pre bs rest : len (pre ++ varint (len bs) ++ bs ++ rest) < 2 ^ 63 ->
  read_slice (pre ++ varint (len bs) ++ bs ++ rest) (len pre) = Ok (bs, len (pre ++ varint (len bs) ++ bs)).
Proof.
  intros Hl. assert (Hbs : len bs < 2 ^ 63) by (rewrite !len_app in Hl; unfold len in *; lia).
  unfold read_slice. rewrite read_at_varint by by apply len_u64. cbn [mbind res_bind fst snd].
  assert (0 <= len bs) by (unfold len; lia). rewrite !(i64_small (len bs)) by lia.
  unfold refuse. rewrite (proj2 (Z.ltb_ge (len bs) 0)) by lia. cbn [mbind res_bind].
  assert (E : len pre + len (varint (len bs)) + len bs = len (pre ++ varint (len bs) ++ bs)) by (rewrite !len_app; lia).
  rewrite !len_app in Hl. rewrite E. rewrite i64_small by (rewrite !len_app; unfold len in *; lia).
  rewrite (proj2 (Z.ltb_ge _ 0)), (proj2 (Z.ltb_ge (len (pre ++ varint (len bs) ++ bs ++ rest)) _))
    by (rewrite !len_app; unfold len; lia).
  cbn [orb mbind res_bind]. unfold slice. rewrite (proj2 (Z.leb_le 0 _)), !(proj2 (Z.leb_le _ _)) by (rewrite ?len_app; unfold len; lia).
  cbn [andb mbind res_bind]. do 2 f_equal. rewrite <- len_app.
  replace (Z.to_nat (len (pre ++ varint (len bs)))) with (length (pre ++ varint (len bs))) by (unfold len; lia).
  rewrite (app_assoc pre _ (bs ++ rest)), drop_app_length, (app_assoc pre _ bs), (len_app (pre ++ _)).
  replace (Z.to_nat _) with (length bs) by (unfold len; lia). apply take_app_length.
Qed.

Lemma loop_fuel fuel fuel' dAtA i m : len dAtA < 2 ^ 63 - 8 -> 0 <= i -> len dAtA - i < Z.of_nat fuel ->
  len dAtA - i < Z.of_nat fuel' -> (0 < fuel)%nat -> (0 < fuel')%nat ->
  unmarshal_loop fuel dAtA i m = unmarshal_loop fuel' dAtA i m.
Proof.
  intros Hl. revert fuel' i m. induction fuel as [|fuel IH]; intros [|fuel'] i m Hi Hf Hf' Hp Hp'; [lia..|].
  cbn [unmarshal_loop]. destruct (Z.ltb_spec i (len dAtA)); [|done].
  pose proof (vk_field_total dAtA i m Hl ltac:(lia)) as Hv. destruct (vk_field dAtA i m) as [[m' j]| |]; [|done..].
  cbn in *. apply IH; lia.
Qed.

Lemma loop_S fuel dAtA i m : unmarshal_loop (S fuel) dAtA i m =
  if i <? len dAtA then vk_field dAtA i m ≫= fun r => unmarshal_loop fuel dAtA (snd r) (fst r)
  else refuse (len dAtA <? i) "ErrUnexpectedEOF" ≫= fun _ => Ok m.
Proof. done. Qed.

(** Decoding the rest of a message whose first bytes have been read. *)
Definition decode (pre rest : list Z) (m : VkParam) : res VkParam :=
  unmarshal_loop (S (length rest)) (pre ++ rest) (len pre) m.

Lemma decode_step pre f rest m m' : len (pre ++ f ++ rest) < 2 ^ 63 - 8 -> f <> [] ->
  vk_field (pre ++ f ++ rest) (len pre) m = Ok (m', len (pre ++ f)) -> decode pre (f ++ rest) m = decode (pre ++ f) rest m'.
Proof.
  intros Hl Hf E. unfold decode. rewrite <- app_assoc. destruct f as [|b f]; [done|].
  remember (S (length rest)) as fuel'. rewrite loop_S. cbn [app].
  rewrite (proj2 (Z.ltb_lt _ _)) by (rewrite len_app; unfold len; cbn; lia).
  cbn [app] in E. rewrite E. cbn [mbind res_bind fst snd]. cbn [app] in Hl.
  apply loop_fuel; [done|unfold len; lia|..]; subst; unfold len; repeat (rewrite length_app; cbn [length]); cbn [length]; lia.
Qed.

Lemma read_field_tag pre tag bs rest : 0 <= tag < 128 ->
  read_at (pre ++ bytes_field tag bs ++ rest) (len pre) = Ok (tag, len pre + 1).
Proof. apply read_at_tag. Qed.

Lemma decode_id pre v rest m : len (pre ++ id_field v ++ rest) < 2 ^ 63 - 8 -> is_u64 v -> ParamID m = 0 ->
  decode pre (id_field v ++ rest) m = decode (pre ++ id_field v) rest (mkVkParam v (ParamKey m) (Creator m) (ParamBytes m)).
Proof.
  intros Hl Hv Hm. unfold id_field in *. destruct (Z.eqb_spec v 0) as [->|Hne].
  { rewrite app_nil_r. destruct m; cbn in *. by subst. }
  apply decode_step; [done|done|]. unfold vk_field. cbn [app].
  rewrite read_at_tag by lia. unfold refuse, ensure. cbn -[read_at varint len app].
  replace (pre ++ 8 :: varint v ++ rest) with ((pre ++ [8]) ++ varint v ++ rest) by by rewrite <- app_assoc.
  replace (len pre + 1) with (len (pre ++ [8])) by (rewrite len_app; done). rewrite read_at_varint by done.
  cbn [mbind res_bind fst snd]. change (8 :: varint v) with ([8] ++ varint v). by rewrite (app_assoc pre [8]), (len_app (pre ++ [8])).
Qed.

(** Fields of bytes with tags 18, 26 and 34. *)
Lemma read_field pre tag bs rest : len (pre ++ bytes_field tag bs ++ rest) < 2 ^ 63 - 8 ->
  read_slice (pre ++ bytes_field tag bs ++ rest) (len pre + 1) = Ok (bs, len (pre ++ bytes_field tag bs)).
Proof.
  intros Hl. unfold bytes_field in *. cbn [app] in *.
  replace (pre ++ tag :: (varint (len bs) ++ bs) ++ rest) with ((pre ++ [tag]) ++ varint (len bs) ++ bs ++ rest) in *
    by by rewrite <- !app_assoc.
  replace (len pre + 1) with (len (pre ++ [tag])) by (rewrite len_app; done). rewrite read_slice_ok by lia.
  by rewrite <- app_assoc.
Qed.

Lemma decode_key pre o rest m : len (pre ++ slice_field 18 o ++ rest) < 2 ^ 63 - 8 -> hollow o = false -> ParamKey m = None ->
  decode pre (slice_field 18 o ++ rest) m = decode (pre ++ slice_field 18 o) rest (mkVkParam (ParamID m) o (Creator m) (ParamBytes m)).
Proof.
  intros Hl Ho Hm. destruct o as [bs|]; cbn [slice_field] in *; [|rewrite app_nil_r; destruct m; cbn in *; by subst].
  apply decode_step; [done|done|]. unfold vk_field, refuse, ensure.
  rewrite read_field_tag by lia. cbn -[read_slice bytes_field varint len app].
  rewrite (read_field pre 18 bs rest) by done. cbn [mbind res_bind fst snd]. rewrite Hm. by destruct bs.
Qed.

Lemma decode_bytes pre o rest m : len (pre ++ slice_field 34 o ++ rest) < 2 ^ 63 - 8 -> hollow o = false -> ParamBytes m = None ->
  decode pre (slice_field 34 o ++ rest) m = decode (pre ++ slice_field 34 o) rest (mkVkParam (ParamID m) (ParamKey m) (Creator m) o).
Proof.
  intros Hl Ho Hm. destruct o as [bs|]; cbn [slice_field] in *; [|rewrite app_nil_r; destruct m; cbn in *; by subst].
  apply decode_step; [done|done|]. unfold vk_field, refuse, ensure.
  rewrite read_field_tag by lia. cbn -[read_slice bytes_field varint len app].
  rewrite (read_field pre 34 bs rest) by done. cbn [mbind res_bind fst snd]. rewrite Hm. by destruct bs.
Qed.

Lemma decode_creator pre bs rest m : len (pre ++ text_field 26 bs ++ rest) < 2 ^ 63 - 8 -> Creator m = [] ->
  decode pre (text_field 26 bs ++ rest) m = decode (pre ++ text_field 26 bs) rest (mkVkParam (ParamID m) (ParamKey m) bs (ParamBytes m)).
Proof.
  intros Hl Hm. destruct bs as [|b bs']; cbn [text_field] in *; [rewrite app_nil_r; destruct m; cbn in *; by subst|].
  set (bs := b :: bs') in *. apply decode_step; [done|done|]. unfold vk_field, refuse, ensure.
  rewrite read_field_tag by lia. cbn -[read_slice bytes_field varint len app bs].
  rewrite (read_field pre 26 bs rest) by done. done.
Qed.

Lemma vk_bytes_sized m : is_u64 (ParamID m) -> len (vk_bytes m) < 2 ^ 63 - 8 -> sized m.
Proof.
  assert (Hf : forall tag bs, len bs <= len (bytes_field tag bs)).
  { intros tag bs. unfold bytes_field, len. cbn [length]. rewrite length_app. lia. }
  assert (Hs : forall tag o, len (default [] o) <= len (slice_field tag o)) by (intros tag [bs|]; [apply Hf|done]).
  assert (Ht : forall tag bs, len bs <= len (text_field tag bs)) by (intros tag [|b bs]; [done|apply Hf]).
  intros Hid Hl. unfold vk_bytes in Hl. rewrite !len_app in Hl.
  pose proof (Hs 18 (ParamKey m)). pose proof (Ht 26 (Creator m)). pose proof (Hs 34 (ParamBytes m)).
  split; [done|..]; unfold len in *; lia.
Qed.

(** C36: the hand-written encoder and decoder of parameters.  A message without a
    slice that is empty but not nil is encoded without failing into the reference
    encoding, field by field, and decoding that into a fresh message gives the
    message back.  An empty slice that is not nil, which the computed size leaves
    out, always makes the encoder panic. *)
Theorem vk_codec_exact m : is_u64 (ParamID m) -> len (vk_bytes m) < 2 ^ 63 - 8 ->
  if hollow (ParamKey m) || hollow (ParamBytes m) then exists p, Marshal m = Panic p
  else Marshal m = Ok (vk_bytes m) /\ Unmarshal (vk_bytes m) zero = Ok m.
Proof.
  intros Hid Hl. pose proof (vk_bytes_sized m Hid Hl) as Hsz.
  destruct (_ || _) eqn:Eh; [by apply marshal_hollow|]. apply orb_false_iff in Eh as [Hk Hb].
  split; [by apply marshal_ok|]. change (Unmarshal (vk_bytes m) zero) with (decode [] (vk_bytes m) zero). unfold vk_bytes in *.
  assert (Hl' : forall pre f, pre ++ f = vk_bytes m -> len (pre ++ f) < 2 ^ 63 - 8) by by intros pre f ->.
  rewrite decode_id by done. rewrite decode_key; [|apply Hl'; unfold vk_bytes; by rewrite <- ?app_assoc|done..].
  rewrite decode_creator; [|apply Hl'; unfold vk_bytes; by rewrite <- ?app_assoc|done].
  rewrite <- (app_nil_r (slice_field 34 (ParamBytes m))).
  rewrite decode_bytes; [|rewrite app_nil_r; apply Hl'; unfold vk_bytes; by rewrite <- ?app_assoc|done..].
  unfold decode. cbn [unmarshal_loop length]. rewrite app_nil_r, Z.ltb_irrefl. by destruct m.
Qed.

Module VkCodecWitness.

Definition sample : VkParam := mkVkParam 300 (Some [107; 101; 121]) [97; 110; 110] (Some [1; 2; 255]).

Lemma vk_codec_exact_witness : Marshal sample = Ok (vk_bytes sample) /\ Unmarshal (vk_bytes sample) zero = Ok sample.
Proof. apply (vk_codec_exact sample); vm_compute; repeat split; discriminate. Defined.

(** A key given as an empty string rather than left out. *)
Lemma hollow_key_panics : exists p, Marshal (mkVkParam 1 (Some []) [] (Some [7])) = Panic p.
Proof. by eexists. Qed.

(** An unknown group that is never closed. *)
Lemma vk_decoder_total_witness : returned (Unmarshal [43; 8; 255] zero).
Proof. apply (vk_decoder_total [43; 8; 255] zero). reflexivity. Defined.

(** An unknown field, here a group around a number, is skipped. *)
Lemma unknown_field_skipped : Unmarshal [43; 8; 5; 44; 8; 9] zero = Ok (mkVkParam 9 None [] None).
Proof. reflexivity. Qed.

End VkCodecWitness.
