(* ===== verification/WasmAnte.v ===== *)
(** * x/wasm: ante decorators

    The decorators of the module in the ante chain: the transaction counter, the
    gas limit of simulations, and the two that put values into the context.  The
    counter gives contracts the position of their transaction in the block. *)

From Stdlib Require Import ZArith Lia.
From stdpp Require Import base gmap strings list sorting.
From S2P Require Import Prelude Sdk SdkRef Store GoLib WasmGas WasmCircuits WasmContracts.

(** The parts of the context the decorators read and write; [aMaxGas] is the
    block part of the consensus parameters, which can be absent. *)
Record AnteCtx (G : Type) := mkAnteCtx {
  aHeight : Z; aMaxGas : option Z; aMeter : G; aTxCounter : option Z;
  aGasRegister : option WasmGasRegisterConfig; aTxContracts : option (gset string) }.
Arguments mkAnteCtx {G}. Arguments aHeight {G}. Arguments aMaxGas {G}. Arguments aMeter {G}.
Arguments aTxCounter {G}. Arguments aGasRegister {G}. Arguments aTxContracts {G}.

Definition TXCounterPrefix : string := String (Ascii.ascii_of_nat 8) "".

Section Decorators.
Context {G T Y R : Type} `{GasMeterOps G}.

Abbreviation St := (gmap string string * Y)%type.
Abbreviation AnteHandler := (AnteCtx G -> T -> bool -> M St R).

Definition WithTXCounter (ctx : AnteCtx G) (counter : Z) : AnteCtx G :=
  mkAnteCtx (aHeight ctx) (aMaxGas ctx) (aMeter ctx) (Some counter) (aGasRegister ctx) (aTxContracts ctx).
Definition WithGasMeter (ctx : AnteCtx G) (m : G) : AnteCtx G :=
  mkAnteCtx (aHeight ctx) (aMaxGas ctx) m (aTxCounter ctx) (aGasRegister ctx) (aTxContracts ctx).
Definition WithGasRegister (ctx : AnteCtx G) (r : WasmGasRegisterConfig) : AnteCtx G :=
  mkAnteCtx (aHeight ctx) (aMaxGas ctx) (aMeter ctx) (aTxCounter ctx) (Some r) (aTxContracts ctx).
Definition WithTxContracts (ctx : AnteCtx G) (c : gset string) : AnteCtx G :=
  mkAnteCtx (aHeight ctx) (aMaxGas ctx) (aMeter ctx) (aTxCounter ctx) (aGasRegister ctx) (Some c).

(** *** The transaction counter *)

Definition encodeHeightCounter (height counter : Z) : string :=
  (be64s (u64 height) ++ bytes_to_string (be_encode 4 counter))%string.

(** [bz[0:8]] and [binary.BigEndian.Uint32(bz[8:])] panic on short values. *)
Definition decodeHeightCounter (bz : string) : res (Z * Z) :=
  must (8 <=? String.length bz)%nat "slice bounds out of range";;
  must (12 <=? String.length bz)%nat "index out of range";;
  mret (i64 (be64s_decode (String.substring 0 8 bz)), be_decode (string_to_bytes (String.substring 8 4 bz))).

Definition CountTX_AnteHandle (next : AnteHandler) (ctx : AnteCtx G) (tx : T) (simulate : bool) : M St R :=
  if simulate then next ctx tx simulate
  else
    let currentHeight := aHeight ctx in
    bz ← gets (fun s => s.1 !! TXCounterPrefix);
    txCounter ← lift (match bz with
                      | None => mret 0
                      | Some bz =>
                          v ← decodeHeightCounter bz;
                          mret (if currentHeight =? v.1 then v.2 else 0)
                      end);
    modify (fun s => (<[TXCounterPrefix := encodeHeightCounter currentHeight (u32 (txCounter + 1))]> s.1, s.2));;
    next (WithTXCounter ctx txCounter) tx simulate.

(** *** The gas of simulations *)

Definition NewLimitSimulationGasDecorator (gasLimit : option Z) : res (option Z) :=
  must (negb (bool_decide (gasLimit = Some 0))) "gas limit must not be zero";;
  mret gasLimit.

Definition LimitSimulationGas_AnteHandle (gasLimit : option Z) (next : AnteHandler) (ctx : AnteCtx G) (tx : T)
    (simulate : bool) : M St R :=
  if negb simulate then next ctx tx simulate
  else match gasLimit with
       | Some l => next (WithGasMeter ctx (NewGasMeter l)) tx simulate
       | None =>
           match aMaxGas ctx with
           | None => panic "nil pointer dereference"
           | Some maxGas =>
               if 0 <? maxGas then next (WithGasMeter ctx (NewGasMeter (u64 maxGas))) tx simulate
               else next ctx tx simulate
           end
       end.

(** *** Values in the context *)

Definition GasRegister_AnteHandle (gasRegister : WasmGasRegisterConfig) (next : AnteHandler) (ctx : AnteCtx G) (tx : T)
    (simulate : bool) : M St R :=
  next (WithGasRegister ctx gasRegister) tx simulate.

Definition TxContracts_AnteHandle (next : AnteHandler) (ctx : AnteCtx G) (tx : T) (simulate : bool) : M St R :=
  next (WithTxContracts ctx ∅) tx simulate.

(** The two decorators of the module that the application chains. *)
Definition wasm_ante (gasLimit : option Z) (next : AnteHandler) : AnteHandler :=
  LimitSimulationGas_AnteHandle gasLimit (CountTX_AnteHandle next).

End Decorators.

(** ** Transactions one after the other *)

Section Blocks.
Context {G T Y : Type} `{GasMeterOps G}.

Abbreviation St := (gmap string string * Y)%type.

(** A transaction, its context and whether it is simulated. *)
Record Arrival := mkArrival { arCtx : AnteCtx G; arTx : T; arSimulate : bool }.

(** The chain ends with a handler that returns the context it was given. *)
Fixpoint arrive (gasLimit : option Z) (l : list Arrival) : M St (list (AnteCtx G)) :=
  match l with
  | [] => mret []
  | a :: l =>
      ctx ← wasm_ante gasLimit (fun ctx _ _ => mret ctx) (arCtx a) (arTx a) (arSimulate a);
      rest ← arrive gasLimit l;
      mret (ctx :: rest)
  end.

(** How many of the transactions [seen] were counted in the block at [h]. *)
Definition counted_at (h : Z) (a : Arrival) : bool := negb (arSimulate a) && (aHeight (arCtx a) =? h).
Definition count (h : Z) (seen : list Arrival) : Z := Z.of_nat (length (List.filter (counted_at h) seen)).

(** The context a transaction should get after the ones [seen]: a simulation a
    limited meter and no number, any other the number of transactions counted
    before it in its block. *)
Definition expected (gasLimit : option Z) (seen : list Arrival) (a : Arrival) : AnteCtx G :=
  let ctx := arCtx a in
  if arSimulate a then
    match gasLimit, aMaxGas ctx with
    | Some l, _ => WithGasMeter ctx (NewGasMeter l)
    | None, Some m => if 0 <? m then WithGasMeter ctx (NewGasMeter (u64 m)) else ctx
    | None, None => ctx
    end
  else WithTXCounter ctx (count (aHeight ctx) seen).

Fixpoint all_expected (gasLimit : option Z) (seen l : list Arrival) : list (AnteCtx G) :=
  match l with [] => [] | a :: l => expected gasLimit seen a :: all_expected gasLimit (seen ++ [a]) l end.

Lemma counter_roundtrip h c : 0 <= h < 2 ^ 63 -> 0 <= c < 2 ^ 32 -> decodeHeightCounter (encodeHeightCounter h c) = Ok (h, c).
Proof.
  intros Hh Hc. unfold decodeHeightCounter, encodeHeightCounter.
  rewrite string_app_length, be64s_length, bytes_to_string_length, be_encode_length.
  cbn [must mbind res_bind Nat.leb Nat.add]. pose proof (substring_app_l (be64s (u64 h)) (bytes_to_string (be_encode 4 c))) as E1.
  pose proof (substring_app_r (be64s (u64 h)) (bytes_to_string (be_encode 4 c)) 4) as E2.
  pose proof (substring_full (bytes_to_string (be_encode 4 c))) as E3.
  rewrite bytes_to_string_length, be_encode_length in E3. rewrite be64s_length in E1, E2. rewrite E1, E2, E3.
  rewrite string_to_bytes_to_string by (apply Forall_rev, le_encode_bytes). rewrite be_decode_encode by (change (256 ^ Z.of_nat 4) with (2 ^ 32); done).
  rewrite be64s_roundtrip by apply u64_range. rewrite u64_small by (unfold is_u64; lia). by rewrite i64_small by lia.
Qed.

(** The stored counter belongs to the last block seen and counts its
    transactions. *)
Definition tracks (seen : list Arrival) (s : St) : Prop :=
  match s.1 !! TXCounterPrefix with
  | None => Forall (fun a => arSimulate a = true) seen
  | Some bz => exists h, bz = encodeHeightCounter h (count h seen) /\ 0 <= h < 2 ^ 63 /\
      Exists (fun a => arSimulate a = false /\ aHeight (arCtx a) = h) seen /\
      Forall (fun a => arSimulate a = false -> aHeight (arCtx a) <= h) seen
  end.

Lemma count_none h seen : Forall (fun a => arSimulate a = false -> aHeight (arCtx a) <> h) seen -> count h seen = 0.
Proof.
  unfold count. induction 1 as [|a seen Ha _ IH]; [done|]. cbn. unfold counted_at at 1.
  destruct (arSimulate a); [exact IH|]. cbn. destruct (Z.eqb_spec (aHeight (arCtx a)) h); [by destruct Ha|exact IH].
Qed.

Lemma count_snoc h seen a : count h (seen ++ [a]) = count h seen + if counted_at h a then 1 else 0.
Proof. unfold count. rewrite List.filter_app, length_app. cbn. destruct (counted_at h a); cbn; lia. Qed.

Lemma count_bound h seen : 0 <= count h seen <= Z.of_nat (length seen).
Proof. unfold count. pose proof (List.filter_length_le (counted_at h) seen). lia. Qed.

(** A counted transaction gets the number of those before it. *)
Lemma count_step seen (s : St) ctx (tx : T) : tracks seen s -> 0 <= aHeight ctx < 2 ^ 63 ->
  Forall (fun a => arSimulate a = false -> aHeight (arCtx a) <= aHeight ctx) seen -> Z.of_nat (length seen) < 2 ^ 32 - 1 ->
  exists s', CountTX_AnteHandle (fun ctx _ _ => mret ctx) ctx tx false s = (Ok (WithTXCounter ctx (count (aHeight ctx) seen)), s') /\
    tracks (seen ++ [mkArrival ctx tx false]) s' /\ s'.2 = s.2 /\ delete TXCounterPrefix s'.1 = delete TXCounterPrefix s.1.
Proof.
  intros Ht Hh Hle Hlen. pose proof (count_bound (aHeight ctx) seen) as Hb.
  set (n := count (aHeight ctx) seen) in *. set (s' := (<[TXCounterPrefix := encodeHeightCounter (aHeight ctx) (u32 (n + 1))]> s.1, s.2)).
  assert (Hn : match s.1 !! TXCounterPrefix with
               | None => mret 0
               | Some bz => v ← decodeHeightCounter bz; mret (if aHeight ctx =? v.1 then v.2 else 0) end = Ok n).
  { unfold tracks in Ht. destruct (s.1 !! TXCounterPrefix) as [bz|].
    - destruct Ht as (h&->&Hh0&Hex&Hall). pose proof (count_bound h seen). rewrite counter_roundtrip by lia.
      cbn. destruct (Z.eqb_spec (aHeight ctx) h) as [<-|Hne]; [done|]. f_equal. symmetry. apply count_none.
      apply Exists_exists in Hex as (b&Hb'&Hsb&<-). rewrite Forall_forall in Hle, Hall. specialize (Hle b Hb' Hsb).
      apply Forall_forall. intros a Ha Hs. specialize (Hall a Ha Hs). lia.
    - f_equal. symmetry. apply count_none. eapply Forall_impl; [exact Ht|]. cbn. congruence. }
  exists s'. unfold CountTX_AnteHandle. unfold mbind at 1, M_bind at 1, gets at 1. unfold mbind at 1, M_bind at 1, lift at 1.
  rewrite Hn. split; [done|].
  split; [|split; [done|cbn; by rewrite delete_insert_eq]]. unfold tracks, s'. cbn. rewrite lookup_insert_eq.
  exists (aHeight ctx). rewrite count_snoc. unfold counted_at. cbn. rewrite Z.eqb_refl. fold n.
  split; [by rewrite u32_small by lia|]. split; [done|]. split.
  - apply Exists_app. right. by constructor.
  - apply Forall_app. split; [done|]. constructor; [done|constructor].
Qed.

(** A simulation is not counted. *)
Lemma tracks_simulated seen (s : St) a : tracks seen s -> arSimulate a = true -> tracks (seen ++ [a]) s.
Proof.
  unfold tracks. intros Ht Ha. destruct (s.1 !! TXCounterPrefix) as [bz|].
  - destruct Ht as (h&->&Hh&Hex&Hall). exists h. rewrite count_snoc. unfold counted_at. rewrite Ha. cbn [negb andb]. rewrite Z.add_0_r.
    split; [done|]. split; [done|]. split; [apply Exists_app; by left|]. apply Forall_app. split; [done|]. constructor; [congruence|constructor].
  - apply Forall_app. split; [done|]. by constructor.
Qed.

(** Blocks follow one another, and a simulation without a limit of its own knows
    the limit of the block. *)
Definition in_blocks (l : list Arrival) : Prop :=
  StronglySorted (fun a b => arSimulate a = false -> arSimulate b = false -> aHeight (arCtx a) <= aHeight (arCtx b)) l.
Definition limited (gasLimit : option Z) (a : Arrival) : Prop :=
  arSimulate a = true -> is_Some gasLimit \/ is_Some (aMaxGas (arCtx a)).

Lemma arrive_all gasLimit l : forall seen (s : St), tracks seen s ->
  Forall (fun a => 0 <= aHeight (arCtx a) < 2 ^ 63) l -> Forall (limited gasLimit) l -> in_blocks (seen ++ l) ->
  Z.of_nat (length (seen ++ l)) < 2 ^ 32 ->
  exists s', arrive gasLimit l s = (Ok (all_expected gasLimit seen l), s') /\ s'.2 = s.2 /\
    delete TXCounterPrefix s'.1 = delete TXCounterPrefix s.1.
Proof.
  induction l as [|a l IH]; intros seen s Ht Hh Hlim Hs Hlen; [by exists s|].
  apply Forall_cons in Hh as [Ha Hh]. apply Forall_cons in Hlim as [Hla Hlim].
  rewrite length_app in Hlen. cbn in Hlen.
  assert (exists s1, wasm_ante gasLimit (fun ctx _ _ => mret ctx) (arCtx a) (arTx a) (arSimulate a) s
      = (Ok (expected gasLimit seen a), s1) /\ tracks (seen ++ [a]) s1 /\ s1.2 = s.2 /\
      delete TXCounterPrefix s1.1 = delete TXCounterPrefix s.1) as (s1&E&Ht1&Es1&Ed1).
  { unfold wasm_ante, LimitSimulationGas_AnteHandle, expected. destruct a as [ctx tx [|]]; cbn [arSimulate arCtx arTx negb] in *.
    - exists s. split; [|split; [by apply tracks_simulated|done]].
      destruct (Hla eq_refl) as [[g ->]|[m Hm]]; [done|]. cbn in Hm. rewrite Hm. destruct gasLimit; [done|]. by destruct (0 <? m).
    - apply count_step; [done|done| |lia]. unfold in_blocks in Hs. apply Forall_forall. intros b Hb Hsb.
      apply StronglySorted_app_1_elem_of with (x1 := b) (x2 := mkArrival ctx tx false) in Hs; [by apply Hs|done|by left]. }
  destruct (IH (seen ++ [a]) s1 Ht1 Hh Hlim) as (s'&E'&Es'&Ed').
  { by rewrite <- app_assoc. } { rewrite <- app_assoc, length_app. cbn. lia. }
  exists s'. rewrite Es', Ed'. split; [|done]. cbn [arrive all_expected]. unfold mbind, M_bind. rewrite E, E'. done.
Qed.

(** C38: transactions are numbered within their block.  Of any transactions that
    arrive in the order of their blocks, starting from a store without counter,
    each one gets the number of those counted before it in the same block;
    simulations get no number, do not count, and run on a meter limited by the
    node, or else by the block where its limit is positive, or else on the meter they
    came with; nothing else in the store changes. *)
Theorem transactions_numbered gasLimit l (s : St) : s.1 !! TXCounterPrefix = None ->
  Forall (fun a => 0 <= aHeight (arCtx a) < 2 ^ 63) l -> Forall (limited gasLimit) l -> in_blocks l ->
  Z.of_nat (length l) < 2 ^ 32 ->
  exists s', arrive gasLimit l s = (Ok (all_expected gasLimit [] l), s') /\ s'.2 = s.2 /\
    delete TXCounterPrefix s'.1 = delete TXCounterPrefix s.1.
Proof. intros Hn. apply (arrive_all gasLimit l []). unfold tracks. by rewrite Hn. Qed.

End Blocks.

Module AnteWitness.
Import Ref.

Definition at_height (h : Z) (sim : bool) : Arrival (G:=meter) (T:=unit) :=
  mkArrival (mkAnteCtx h (Some 1000) (mkMeter 0 70) None None None) tt sim.

(** Two transactions, a simulation and a third one in block 5, then one in
    block 6. *)
Lemma transactions_numbered_witness : exists s' : gmap string string * unit,
  arrive None [at_height 5 false; at_height 5 false; at_height 5 true; at_height 5 false; at_height 6 false] (∅, tt)
  = (Ok (all_expected None [] [at_height 5 false; at_height 5 false; at_height 5 true; at_height 5 false; at_height 6 false]), s') /\
  map aTxCounter (all_expected None [] [at_height 5 false; at_height 5 false; at_height 5 true; at_height 5 false; at_height 6 false])
  = [Some 0; Some 1; None; Some 2; Some 0].
Proof.
  edestruct (transactions_numbered (Y:=unit) None [at_height 5 false; at_height 5 false; at_height 5 true; at_height 5 false; at_height 6 false])
    as (s'&E&_); [..|by exists s'].
  - apply lookup_empty.
  - repeat constructor; cbn; lia.
  - apply Forall_forall. intros a Ha _. right.
    repeat (apply elem_of_cons in Ha as [->|Ha]; [by eexists|]). by apply not_elem_of_nil in Ha.
  - repeat constructor; cbn; lia.
  - done.
Defined.

End AnteWitness.
