(* ===== verification/WasmDeposits.v ===== *)
(** * x/wasm: circuit deposits

    Paying for a runway of years during which an account may upload circuits,
    the split of the payment, the daily distribution of the validator pool,
    and the bounded garbage collection of expired deposits at each end of
    block. *)

From Stdlib Require Import ZArith Lia Ascii.
From stdpp Require Import base gmap strings list sorting.
From S2P Require Import Prelude Sdk SdkRef Store GoLib Bank WasmAccess WasmGas WasmCircuits.

Definition CircuitDepositSecondsPerYear : Z := 365 * 24 * 3600.
Definition CircuitDepositMaxYears : Z := 10.
Definition CircuitDepositYearlyAmount : Z := 1000000.
Definition MaxCircuitDepositGCDepositees : Z := 8.
Definition MaxCircuitDepositGCCircuits : Z := 2.
Definition CircuitValPoolName : string := "circuit_val_pool".
Definition CircuitDevPoolName : string := "circuit_dev_pool".
Definition CircuitDistrEpochDay : string := "day".
Definition CircuitEpochDurationDefault : Z := 24 * 3600.
Definition DefaultBondDenom : string := "stake".

(** ** Paying *)

Section Payment.
Context `{SdkCoins}.

(** [amt.Add(sdk.NewCoin(denom, a))] when [a] is positive. *)
Definition add_positive (c : list Coin) (denom : string) (a : Z) : res (list Coin) :=
  if 0 <? a then x ← NewCoin denom a; mret (coins_add c [x]) else mret c.

Fixpoint split_runway (amt valPool devPool : list Coin) : res (list Coin * list Coin) :=
  match amt with
  | [] => mret (valPool, devPool)
  | c :: amt =>
      if negb (0 <? Amount c) then split_runway amt valPool devPool
      else
        let half := Amount c ÷ 2 in
        let rest := Amount c - half in
        valPool ← add_positive valPool (Denom c) half;
        devPool ← add_positive devPool (Denom c) rest;
        split_runway amt valPool devPool
  end.

Definition SplitCircuitRunway (amt : list Coin) : res (list Coin * list Coin) := split_runway amt [] [].

Definition CircuitDepositQuote (denom : string) (years : Z) : res (list Coin) :=
  refuse ((years =? 0) || (CircuitDepositMaxYears <? years)) "ErrLimit";;
  refuse (bool_decide (denom = ""%string)) "deposit denom empty";;
  c ← NewCoin denom (CircuitDepositYearlyAmount * years);
  NewCoins [c].

End Payment.

Section DepositOps.
Context {B G : Type} `{AddrPrefix} `{Bech32} `{SdkCoins} `{BankOps B}.
Context (ctx : BlockCtx).

Abbreviation K := (Keeper B G).

Definition on_bank {A} (m : M B A) : M K A := zoom bank set_bank m.

Definition set_depositees f (d : Deposits) : Deposits := mkDeposits (f (depositees d)) (expiry d) (gcq d).
Definition set_expiry f (d : Deposits) : Deposits := mkDeposits (depositees d) (f (expiry d)) (gcq d).
Definition set_gcq f (d : Deposits) : Deposits := mkDeposits (depositees d) (expiry d) (f (gcq d)).

Definition upd_dep (f : Deposits -> Deposits) : M K unit := modify (fun k => set_dep (f (dep k)) k).

Definition setCircuitDepositExpiry (until : Z) (addr : string) : M K unit :=
  key ← lift (GetCircuitDepositExpiryKey until addr); upd_dep (set_expiry <[key := tt]>).
Definition deleteCircuitDepositExpiry (until : Z) (addr : string) : M K unit :=
  key ← lift (GetCircuitDepositExpiryKey until addr); upd_dep (set_expiry (delete key)).
Definition setCircuitDepositGC (addr : string) : M K unit :=
  key ← lift (GetCircuitDepositGCKey addr); upd_dep (set_gcq <[key := tt]>).
Definition deleteCircuitDepositGC (addr : string) : M K unit :=
  key ← lift (GetCircuitDepositGCKey addr); upd_dep (set_gcq (delete key)).

Definition receiveCircuitRunwayPayment (payer : string) (amt : list Coin) : M K unit :=
  pools ← lift (SplitCircuitRunway amt);
  let '(valPool, devPool) := pools in
  (if bool_decide (valPool = []) then mret tt
   else on_bank (SendCoinsFromAccountToModule payer CircuitValPoolName valPool));;
  if bool_decide (devPool = []) then mret tt
  else
    dest ← gets (fun k => CircuitDevDestination (params k));
    if bool_decide (dest = ""%string)
    then on_bank (SendCoinsFromAccountToModule payer CircuitDevPoolName devPool)
    else addr ← lift (AccAddressFromBech32 dest); on_bank (SendCoins payer addr devPool).

Definition nowUnix : Z := clamp_now ctx.

(** The second half of [PayCircuitDeposit], once the payment is in: the runway
    starts where an unexpired one ends, the index entries follow. *)
Definition extendDeposit (payer : string) (years : Z) : M K Z :=
  existing ← gets (fun k => depositees (dep k) !! payer);
  match existing with
  | Some e => deleteCircuitDepositExpiry e payer
  | None => mret tt
  end;;
  let start := match existing with
               | Some e => if nowUnix <? e then e else nowUnix
               | None => nowUnix
               end in
  let until := u64 (start + u64 (years * CircuitDepositSecondsPerYear)) in
  upd_dep (set_depositees <[payer := until]>);;
  setCircuitDepositExpiry until payer;;
  deleteCircuitDepositGC payer;;
  mret (i64 until).

(** [yearly] is the keeper's configured fee, which counts when it is positive. *)
Definition PayCircuitDeposit (yearly : Coin) (payer : string) (years : Z) : M K Z :=
  refuseM ((years =? 0) || (CircuitDepositMaxYears <? years)) "ErrLimit";;
  let fee := if 0 <? Amount yearly then yearly else mkCoin DefaultBondDenom CircuitDepositYearlyAmount in
  c ← lift (NewCoin (Denom fee) (Amount fee * years));
  amt ← lift (NewCoins [c]);
  receiveCircuitRunwayPayment payer amt;;
  extendDeposit payer years.

Definition MsgPayCircuitDeposit_ValidateBasic (sender : string) (years : Z) : res unit :=
  match AccAddressFromBech32 sender with
  | Ok _ => refuse ((years =? 0) || (CircuitDepositMaxYears <? years)) "ErrLimit"
  | Err _ => Err "ErrInvalidAddress"
  | Panic p => Panic p
  end.

(** The message server's handler. *)
Definition msgServer_PayCircuitDeposit (yearly : Coin) (sender : string) (years : Z) : M K Z :=
  lift (MsgPayCircuitDeposit_ValidateBasic sender years);;
  payer ← lift (AccAddressFromBech32 sender);
  PayCircuitDeposit yearly payer years.

(** ** Garbage collection *)

(** The removals of one creator: an id whose removal fails only loses its
    index entry. *)
Fixpoint remove_ids (creator : string) (ids : list Z) : M Registry unit := fun r =>
  match ids with
  | [] => (Ok tt, r)
  | zkID :: ids =>
      match removeCircuit zkID r with
      | (Ok _, r) => remove_ids creator ids r
      | (Err _, r) => (deleteCircuitCreatorIndex creator zkID;; remove_ids creator ids) r
      | (Panic p, r) => (Panic p, r)
      end
  end.

Definition pruneCreatorCircuits (creator : string) (max : Z) : M Registry (Z * bool) :=
  if max <=? 0 then
    more ← hasCircuitCreatorIndex creator;
    mret (0, more)
  else
    r ← get;
    keys ← lift (iter_creator creator r);
    let all := map be64s_decode (List.filter (fun k => (String.length k =? 8)%nat) keys) in
    let more := max <? Z.of_nat (length all) in
    let ids := take (Z.to_nat max) all in
    remove_ids creator ids;;
    more ← (if more then mret true else hasCircuitCreatorIndex creator);
    mret (Z.of_nat (length ids), more).

(** The pending marks that parse, in key order.  Collecting them is bounded
    neither by the depositees nor by the circuits left, which do not change. *)
Definition gc_pending (k : K) : list string :=
  omap ParseCircuitDepositGCKey (map fst (iter_prefix "" (gcq (dep k)))).

(** The expired entries of the expiry index, oldest first. *)
Definition expired_hits (k : K) : list (Z * string) :=
  omap ParseCircuitDepositExpiryKey
    (List.filter (fun key => str_ltb key (be64s (u64 (nowUnix + 1)))) (map fst (iter_prefix "" (expiry (dep k))))).

(** Prunes a creator and marks it for the next block if circuits remain. *)
Definition prune_and_mark (addr : string) (circuitsLeft : Z) : M K Z :=
  r ← on_reg (pruneCreatorCircuits addr circuitsLeft);
  (if r.2 : bool then setCircuitDepositGC addr else deleteCircuitDepositGC addr);;
  mret r.1.

(** [None] is the early return once a budget is used up. *)
Fixpoint prune_pending (pending : list string) (depositeesLeft circuitsLeft : Z) : M K (option (Z * Z)) :=
  match pending with
  | [] => mret (Some (depositeesLeft, circuitsLeft))
  | addr :: pending =>
      if (depositeesLeft =? 0) || (circuitsLeft =? 0) then mret None
      else
        n ← prune_and_mark addr circuitsLeft;
        prune_pending pending (depositeesLeft - 1) (circuitsLeft - n)
  end.

Fixpoint prune_hits (hits : list (Z * string)) (depositeesLeft circuitsLeft : Z) : M K unit :=
  match hits with
  | [] => mret tt
  | (until, addr) :: hits =>
      if (depositeesLeft =? 0) || (circuitsLeft =? 0) then mret tt
      else
        cur ← gets (fun k => depositees (dep k) !! addr);
        if negb (bool_decide (cur = Some until)) || (i64 nowUnix <? i64 until) then
          deleteCircuitDepositExpiry until addr;;
          prune_hits hits depositeesLeft circuitsLeft
        else
          upd_dep (set_depositees (delete addr));;
          deleteCircuitDepositExpiry until addr;;
          p ← gets params;
          allowed ← lift (Allowed (getCircuitUploadAccessConfig p) addr);
          if allowed : bool then
            deleteCircuitDepositGC addr;;
            prune_hits hits (depositeesLeft - 1) circuitsLeft
          else
            n ← prune_and_mark addr circuitsLeft;
            prune_hits hits (depositeesLeft - 1) (circuitsLeft - n)
  end.

Definition PruneExpiredCircuitDeposits : M K unit :=
  pending ← gets gc_pending;
  left ← prune_pending pending MaxCircuitDepositGCDepositees MaxCircuitDepositGCCircuits;
  match left with
  | None => mret tt
  | Some (depositeesLeft, circuitsLeft) =>
      hits ← gets (fun k => take (Z.to_nat depositeesLeft) (expired_hits k));
      prune_hits hits depositeesLeft circuitsLeft
  end.

End DepositOps.

(** ** The deposit invariant *)

(** The expiry index has exactly one entry per deposit, at the time it is paid
    until, and accounts marked for collection have no deposit. *)
Record dep_ok (d : Deposits) : Prop := {
  do_expiry : forall key, is_Some (expiry d !! key) ->
    exists u a, is_u64 u /\ valid_addr a /\ key = (be64s u ++ lp a)%string /\ depositees d !! a = Some u;
  do_depositees : forall a u, depositees d !! a = Some u ->
    is_u64 u /\ valid_addr a /\ is_Some (expiry d !! (be64s u ++ lp a)%string);
  do_gc : forall key, is_Some (gcq d !! key) ->
    exists a, valid_addr a /\ key = lp a /\ depositees d !! a = None
}.

Lemma expiry_key_inj u v a b : is_u64 u -> is_u64 v ->
  (be64s u ++ lp a = be64s v ++ lp b)%string -> u = v /\ a = b.
Proof.
  intros Hu Hv E. apply (f_equal String.length) in E as Hl. rewrite !string_app_length, !be64s_length in Hl.
  apply string_app_inj_len in E as [E1 [= _ ->]]; [|lia]. split; [|done]. by apply be64s_inj.
Qed.

Lemma lp_inj a b : lp a = lp b -> a = b.
Proof. by intros [= _ ->]. Qed.

(** A new deposit replaces the entry of the one it extends and clears the mark. *)
Definition put_deposit (a : string) (u : Z) (d : Deposits) : Deposits :=
  mkDeposits (<[a := u]> (depositees d))
    (<[(be64s u ++ lp a)%string := tt]>
      (match depositees d !! a with
       | Some e => delete (be64s e ++ lp a)%string (expiry d)
       | None => expiry d
       end))
    (delete (lp a) (gcq d)).

Definition drop_deposit (a : string) (u : Z) (d : Deposits) : Deposits :=
  mkDeposits (delete a (depositees d)) (delete (be64s u ++ lp a)%string (expiry d)) (gcq d).

Definition mark (more : bool) (a : string) (d : Deposits) : Deposits :=
  mkDeposits (depositees d) (expiry d) (if more then <[lp a := tt]> (gcq d) else delete (lp a) (gcq d)).

Lemma put_deposit_ok a u d : dep_ok d -> valid_addr a -> is_u64 u -> dep_ok (put_deposit a u d).
Proof.
  intros [He Hd Hg] Ha Hu. split; cbn.
  - intros key Hk. destruct (decide (key = be64s u ++ lp a)%string) as [->|Hne].
    { exists u, a. by rewrite lookup_insert_eq. }
    rewrite lookup_insert_ne in Hk by done.
    assert (is_Some (expiry d !! key) /\ forall e, depositees d !! a = Some e -> key <> (be64s e ++ lp a)%string)
      as [Hk' Hne'].
    { destruct (depositees d !! a) as [e|]; [|naive_solver].
      destruct Hk as [x [? ?]%lookup_delete_Some]. split; [by exists x|]. naive_solver. }
    destruct (He key Hk') as (v&b&?&?&->&Hb). exists v, b. split_and!; [done..|].
    rewrite lookup_insert_ne; [done|]. intros ->. by apply (Hne' v).
  - intros b v Hb. destruct (decide (b = a)) as [->|Hne].
    { rewrite lookup_insert_eq in Hb. simplify_eq. rewrite lookup_insert_eq. by split_and!. }
    rewrite lookup_insert_ne in Hb by done. destruct (Hd b v Hb) as (Hv&?&Hx). split_and!; [done..|].
    destruct (decide (be64s v ++ lp b = be64s u ++ lp a)%string) as [E|E].
    { rewrite E, lookup_insert_eq. done. }
    rewrite lookup_insert_ne by done. destruct (depositees d !! a) as [e|] eqn:Ea; [|done].
    rewrite lookup_delete_ne; [done|]. intros E'%expiry_key_inj; [naive_solver|by apply (Hd a)|done].
  - intros key [x [Hne Hx]%lookup_delete_Some]. destruct (Hg key) as (b&?&->&?); [by exists x|].
    exists b. split_and!; [done..|]. rewrite lookup_insert_ne; [done|naive_solver].
Qed.

Lemma drop_deposit_ok a u d : dep_ok d -> depositees d !! a = Some u -> dep_ok (drop_deposit a u d).
Proof.
  intros [He Hd Hg] Ha. destruct (Hd a u Ha) as (Hu&Hv&_). split; cbn.
  - intros key [x [Hne Hx]%lookup_delete_Some]. destruct (He key) as (v&b&?&?&->&Hb); [by exists x|].
    exists v, b. split_and!; [done..|]. rewrite lookup_delete_ne; [done|]. intros ->. by simplify_eq.
  - intros b v [Hne Hb]%lookup_delete_Some. destruct (Hd b v Hb) as (?&?&?). split_and!; [done..|].
    rewrite lookup_delete_ne; [done|]. intros [_ ?]%expiry_key_inj; [|done..]. naive_solver.
  - intros key Hk. destruct (Hg key Hk) as (b&?&->&Hb). exists b. split_and!; [done..|].
    rewrite lookup_delete_ne; [done|]. naive_solver.
Qed.

Lemma mark_ok more a d : dep_ok d -> valid_addr a -> depositees d !! a = None -> dep_ok (mark more a d).
Proof.
  intros [He Hd Hg] Ha Hn. split; cbn; [done..|]. intros key Hk. destruct more.
  - destruct (decide (key = lp a)) as [->|Hne]; [by exists a|]. rewrite lookup_insert_ne in Hk by done. auto.
  - destruct Hk as [x [_ Hx]%lookup_delete_Some]. apply Hg. by exists x.
Qed.

#[export] Hint Resolve put_deposit_ok drop_deposit_ok mark_ok : terp.

(** ** Removing the circuits of a creator *)

Section PruneCreator.
Context `{AddrPrefixLaws} `{Bech32Laws}.

Definition del_circuits (a : string) (ids : list Z) (r : Registry) : Registry := foldl (del_circuit a) r ids.

Lemma del_circuits_owns a ids r b j : owns (del_circuits a ids r) b j <-> owns r b j /\ j ∉ ids.
Proof.
  revert r. induction ids as [|i ids IH]; intros r; cbn [del_circuits foldl].
  - set_solver.
  - fold (del_circuits a ids (del_circuit a r i)). rewrite IH, owns_del. set_solver.
Qed.

(** The ids are distinct circuits of the creator, with their index entries. *)
Definition prunable (a : string) (ids : list Z) (r : Registry) : Prop :=
  NoDup ids /\ forall id, id ∈ ids ->
    is_u64 id /\ owns r a id /\ is_Some (creator_ix r !! (lp a ++ be64s id)%string).

Lemma prunable_step a i ids r : valid_addr a -> prunable a (i :: ids) r ->
  is_u64 i /\ owns r a i /\ prunable a ids (del_circuit a r i).
Proof.
  intros Ha [[Hni Hnd]%NoDup_cons Hall]. destruct (Hall i ltac:(set_solver)) as (Hi&Hoi&_).
  split; [done|]. split; [done|]. split; [done|]. intros j Hj.
  destruct (Hall j ltac:(set_solver)) as (Hu&Ho&Hk).
  assert (j <> i) by set_solver. split; [done|]. split; [by apply owns_del|].
  cbn. rewrite lookup_delete_ne; [done|]. intros [_ ?]%circuit_key_inj; done.
Qed.

Lemma remove_ids_ok a ids r : valid_addr a -> reg_ok r -> prunable a ids r ->
  remove_ids a ids r = (Ok tt, del_circuits a ids r) /\ reg_ok (del_circuits a ids r).
Proof.
  intros Ha. revert r. induction ids as [|i ids IH]; intros r Hr Hp; [done|].
  apply prunable_step in Hp as (Hi&Ho&Hp); [|done]. cbn [remove_ids del_circuits foldl].
  rewrite (remove_circuit_ok r a i) by done. apply IH; [by apply del_circuit_ok|done].
Qed.

Lemma del_circuits_sizes a ids r : valid_addr a -> prunable a ids r ->
  size (infos r) = (size (infos (del_circuits a ids r)) + length ids)%nat /\
  size (creator_ix r) = (size (creator_ix (del_circuits a ids r)) + length ids)%nat.
Proof.
  intros Ha. revert r. induction ids as [|i ids IH]; intros r Hp; [cbn; lia|].
  destruct Hp as [Hnd Hall]. destruct (Hall i ltac:(set_solver)) as (_&(info&Hinfo&_)&[x Hx]).
  assert (prunable a (i :: ids) r) as Hp by done. apply prunable_step in Hp as (_&_&Hp); [|done].
  destruct (IH _ Hp) as [E1 E2]. cbn [infos creator_ix del_circuit] in E1, E2.
  rewrite map_size_delete_Some in E1 by (by exists info).
  rewrite map_size_delete_Some in E2 by (by exists x).
  assert (size (infos r) <> 0%nat) by (apply (map_size_ne_0_lookup_2 _ i); by exists info).
  assert (size (creator_ix r) <> 0%nat) by (eapply map_size_ne_0_lookup_2; by exists x).
  cbn [del_circuits foldl length]. fold (del_circuits a ids (del_circuit a r i)). lia.
Qed.

Lemma del_circuits_infos a ids r j :
  infos (del_circuits a ids r) !! j = if decide (j ∈ ids) then None else infos r !! j.
Proof.
  revert r. induction ids as [|i ids IH]; intros r; cbn [del_circuits foldl].
  - by rewrite decide_False by set_solver.
  - fold (del_circuits a ids (del_circuit a r i)). rewrite IH. cbn.
    destruct (decide (j = i)) as [->|Hne].
    + rewrite lookup_delete_eq. rewrite (decide_True (P := i ∈ i :: ids)) by set_solver. by case_decide.
    + rewrite lookup_delete_ne by done. repeat case_decide; set_solver.
Qed.

Lemma del_circuits_index a ids r key x :
  creator_ix (del_circuits a ids r) !! key = Some x -> creator_ix r !! key = Some x.
Proof.
  revert r. induction ids as [|i ids IH]; intros r Hk; [done|].
  cbn [del_circuits foldl] in Hk. apply IH in Hk. cbn in Hk. by apply lookup_delete_Some in Hk as [_ ?].
Qed.

Lemma prune_creator_spec a max r : valid_addr a -> reg_ok r -> 0 < max ->
  let ids := take (Z.to_nat max) (ids_of a r) in
  prunable a ids r /\
  pruneCreatorCircuits a max r =
    (Ok (Z.of_nat (length ids), max <? Z.of_nat (length (ids_of a r))), del_circuits a ids r).
Proof.
  intros Ha Hr Hmax ids. assert (Hp : prunable a ids r).
  { split; [apply (sublist_NoDup _ (ids_of a r)); [by apply ids_of_nodup|apply sublist_take]|].
    intros id Hid. apply elem_of_ids_of; [done..|]. eapply elem_of_take in Hid as (?&?&?).
    by eapply list_elem_of_lookup_2. }
  split; [done|]. unfold pruneCreatorCircuits. destruct (Z.leb_spec max 0); [lia|].
  destruct (remove_ids_ok a ids r Ha Hr Hp) as [Hrem Hok].
  unfold iter_creator, hasCircuitCreatorIndex, GetCircuitByCreatorIDPrefix.
  rewrite MustLengthPrefix_ok by done. go_run. rewrite creator_keys_all8 by done.
  fold (ids_of a r). fold ids. rewrite Hrem. destruct (Z.ltb_spec max (Z.of_nat (length (ids_of a r)))); [done|].
  do 3 f_equal. unfold iter_creator, GetCircuitByCreatorIDPrefix. rewrite MustLengthPrefix_ok by done. cbn.
  assert (map fst (iter_prefix (lp a) (creator_ix (del_circuits a ids r))) = []) as ->; [|done].
  apply elem_of_nil_inv. intros key Hk.
  destruct (creator_keys _ a key Hok Ha Hk) as (id&->&Hid&Ho&_).
  apply del_circuits_owns in Ho as [Ho Hni]. apply Hni. unfold ids. rewrite firstn_all2 by lia.
  apply list_elem_of_fmap. exists (be64s id). split; [by rewrite be64s_roundtrip|].
  apply list_elem_of_fmap in Hk as ([k []]&E&Hk). cbn in E. subst k.
  apply elem_of_iter_prefix in Hk. apply list_elem_of_fmap. exists (be64s id, tt). split; [done|].
  apply elem_of_iter_prefix. by eapply del_circuits_index.
Qed.

End PruneCreator.

(** ** One end of block *)

Section PruneProofs.
Context {B G : Type} `{AddrPrefixLaws} `{Bech32Laws}.
Context (ctx : BlockCtx).

Abbreviation K := (Keeper B G).

Record keeper_ok (k : K) : Prop := {
  ko_reg : reg_ok (reg k);
  ko_dep : dep_ok (dep k);
  ko_access : Permission (getCircuitUploadAccessConfig (params k)) <> AccessTypeUnspecified
}.

(** No deposit of [a] reaches beyond the current block. *)
Definition lapsed (a : string) (k : K) : Prop :=
  forall u, depositees (dep k) !! a = Some u -> u <= clamp_now ctx.

(** The work left to the collector: index entries, deposits and marks. *)
Definition backlog (k : K) : nat :=
  (size (creator_ix (reg k)) + size (depositees (dep k)) + size (gcq (dep k)))%nat.

(** What collecting [n] circuits may do: only circuits whose creator's deposit
    has lapsed disappear, only expired deposits are dropped, and the rest of
    the state is as before. *)
Record pruned (n : nat) (k k' : K) : Prop := {
  pr_frame : params k' = params k /\ bank k' = bank k /\ gas k' = gas k /\ epoch k' = epoch k;
  pr_ok : keeper_ok k';
  pr_infos : infos (reg k') ⊆ infos (reg k);
  pr_count : size (infos (reg k)) = (size (infos (reg k')) + n)%nat;
  pr_safe : forall id info, infos (reg k) !! id = Some info -> infos (reg k') !! id = None ->
    exists a, AccAddressFromBech32 (Creator info) = Ok a /\ lapsed a k;
  pr_deposits : depositees (dep k') ⊆ depositees (dep k);
  pr_expired : forall a u, depositees (dep k) !! a = Some u -> depositees (dep k') !! a = None ->
    u <= clamp_now ctx;
  pr_backlog : (backlog k' <= backlog k)%nat
}.

Lemma pruned_refl k : keeper_ok k -> pruned 0 k k.
Proof.
  intros Hk. split; try done; try lia.
  - intros id info Hi Hn. congruence.
  - intros a u Ha Hn. congruence.
Qed.

Lemma pruned_trans n m k1 k2 k3 : pruned n k1 k2 -> pruned m k2 k3 -> pruned (n + m) k1 k3.
Proof.
  intros [(?&?&?&?) ? Hi1 Hc1 Hs1 Hd1 He1 Hb1] [(?&?&?&?) ? Hi2 Hc2 Hs2 Hd2 He2 Hb2].
  split; try lia; [split_and!; congruence|done|by etransitivity| |by etransitivity|].
  - intros id info Hid Hn. destruct (infos (reg k2) !! id) as [info'|] eqn:E; [|by apply (Hs1 id)].
    assert (info' = info) as -> by (apply (lookup_weaken _ _ _ _ E) in Hi1; congruence).
    destruct (Hs2 id info E Hn) as (a&Ha&Hl). exists a. split; [done|]. intros u Hu.
    destruct (depositees (dep k2) !! a) as [u'|] eqn:E'; [|by apply (He1 a)].
    pose proof (lookup_weaken _ _ _ _ E' Hd1). apply Hl. congruence.
  - intros a u Ha Hn. destruct (depositees (dep k2) !! a) as [u'|] eqn:E'; [|by apply (He1 a)].
    pose proof (lookup_weaken _ _ _ _ E' Hd1). apply (He2 a); [congruence|done].
Qed.

Lemma delete_expiry_eq u a (k : K) : valid_addr a ->
  deleteCircuitDepositExpiry u a k =
    (Ok tt, set_dep (set_expiry (delete (be64s u ++ lp a)%string) (dep k)) k).
Proof.
  intros Ha. unfold deleteCircuitDepositExpiry, GetCircuitDepositExpiryKey.
  by rewrite MustLengthPrefix_ok.
Qed.

Lemma set_mark_eq more a (k : K) : valid_addr a ->
  (if more : bool then setCircuitDepositGC a else deleteCircuitDepositGC a) k =
    (Ok tt, set_dep (mark more a (dep k)) k).
Proof.
  intros Ha. destruct more; unfold setCircuitDepositGC, deleteCircuitDepositGC, GetCircuitDepositGCKey;
    by rewrite MustLengthPrefix_ok.
Qed.

Definition pick (a : string) (c : Z) (k : K) : list Z := take (Z.to_nat c) (ids_of a (reg k)).

Lemma prune_and_mark_eq a c (k : K) : valid_addr a -> reg_ok (reg k) -> 0 < c ->
  prune_and_mark a c k = (Ok (Z.of_nat (length (pick a c k))),
    set_dep (mark (c <? Z.of_nat (length (ids_of a (reg k)))) a (dep k))
      (set_reg (del_circuits a (pick a c k) (reg k)) k)).
Proof.
  intros Ha Hr Hc. destruct (prune_creator_spec a c (reg k) Ha Hr Hc) as [_ E].
  unfold prune_and_mark, on_reg, zoom. unfold mbind at 1, M_bind at 1. rewrite E. cbn [fst snd].
  unfold mbind at 1, M_bind at 1. by rewrite set_mark_eq.
Qed.

(** Collecting from a creator without a deposit makes progress, unless it was
    not marked before. *)
Lemma prune_and_mark_pruned a c (k : K) : keeper_ok k -> valid_addr a -> 0 < c ->
  depositees (dep k) !! a = None ->
  exists n k', prune_and_mark a c k = (Ok (Z.of_nat n), k') /\ (n <= Z.to_nat c)%nat /\ pruned n k k' /\
    depositees (dep k') = depositees (dep k) /\
    (is_Some (gcq (dep k) !! lp a) -> (backlog k' < backlog k)%nat).
Proof.
  intros [Hr Hd Hp] Ha Hc Hn. rewrite prune_and_mark_eq by done.
  destruct (prune_creator_spec a c (reg k) Ha Hr Hc) as [Hpr _]. fold (pick a c k) in Hpr.
  destruct (del_circuits_sizes a _ _ Ha Hpr) as [Hs1 Hs2].
  assert (Hlen : length (pick a c k) = (Z.to_nat c `min` length (ids_of a (reg k)))%nat) by apply length_take.
  set (more := c <? Z.of_nat (length (ids_of a (reg k)))).
  assert (Hg : (size (gcq (mark more a (dep k))) + (if decide (is_Some (gcq (dep k) !! lp a)) then 1 else 0)
    <= size (gcq (dep k)) + length (pick a c k) )%nat).
  { unfold more. cbn [mark gcq]. destruct (Z.ltb_spec c (Z.of_nat (length (ids_of a (reg k))))).
    - case_decide as Hm; [rewrite map_size_insert_Some by done; lia|].
      pose proof (map_size_insert (lp a) tt (gcq (dep k))) as E. rewrite E. destruct (gcq (dep k) !! lp a); cbn; lia.
    - case_decide as Hm; [|pose proof (map_size_delete (lp a) (gcq (dep k))) as E; rewrite E;
        destruct (gcq (dep k) !! lp a); cbn; lia].
      rewrite map_size_delete_Some by done.
      assert (size (gcq (dep k)) <> 0%nat) by (by eapply map_size_ne_0_lookup_2). lia. }
  eexists _, _. split; [done|]. split; [lia|]. split_and!; [|done|].
  - split; cbn; [done| |..|done| |]; try done.
    + split; [by apply remove_ids_ok|by apply mark_ok|done].
    + apply map_subseteq_spec. intros i x. rewrite del_circuits_infos. by destruct (decide (i ∈ _)).
    + intros id info Hi. rewrite del_circuits_infos. destruct (decide (id ∈ _)) as [Hid|_]; intros Hni; [|congruence].
      destruct Hpr as [_ Hall]. destruct (Hall id Hid) as (_&(info'&?&?)&_). simplify_eq.
      exists a. split; [done|]. intros u Hu. congruence.
    + intros b u Hb Hnb. congruence.
    + unfold backlog. cbn. cbn in Hg. case_decide; lia.
  - intros Hm. rewrite decide_True in Hg by done. unfold backlog. cbn. cbn in Hg. lia.
Qed.

Lemma prune_pending_pruned pending d c (k : K) : keeper_ok k -> 0 <= d -> 0 <= c ->
  Forall (fun a => valid_addr a /\ depositees (dep k) !! a = None) pending ->
  exists n o k', prune_pending pending d c k = (Ok o, k') /\ (n <= Z.to_nat c)%nat /\ pruned n k k' /\
    depositees (dep k') = depositees (dep k) /\
    (o = None \/ o = Some (d - Z.of_nat (length pending), c - Z.of_nat n) /\ Z.of_nat (length pending) <= d) /\
    (forall a, head pending = Some a -> 0 < d -> 0 < c -> is_Some (gcq (dep k) !! lp a) ->
       (backlog k' < backlog k)%nat).
Proof.
  revert d c k. induction pending as [|a pending IH]; intros d c k Hk Hd Hc Hall.
  { exists 0%nat, (Some (d, c)), k. split_and!; [done|lia|by apply pruned_refl|done| |done].
    right. cbn. rewrite !Z.sub_0_r. split; [done|lia]. }
  inversion_clear Hall as [|?? [Ha Hna] Hrest]. cbn [prune_pending].
  destruct (Z.eqb_spec d 0), (Z.eqb_spec c 0); cbn [orb];
    try (exists 0%nat, None, k; split_and!; [done|lia|by apply pruned_refl|done|by left|intros; lia]).
  destruct (prune_and_mark_pruned a c k Hk Ha ltac:(lia) Hna) as (n1&k1&E1&Hn1&Hp1&Hd1&Hb1).
  destruct (IH (d - 1) (c - Z.of_nat n1) k1 (pr_ok _ _ _ Hp1) ltac:(lia) ltac:(lia)) as
    (n2&o&k2&E2&Hn2&Hp2&Hd2&Ho&_). { by rewrite Hd1. }
  exists (n1 + n2)%nat, o, k2. split_and!.
  - unfold mbind at 1, M_bind at 1. by rewrite E1.
  - lia.
  - by apply (pruned_trans _ _ _ k1).
  - congruence.
  - destruct Ho as [->|[-> ?]]; [by left|right]. cbn [length]. split; [|lia]. f_equal. f_equal; lia.
  - intros b [= ->] _ _ Hm. specialize (Hb1 Hm). pose proof (pr_backlog _ _ _ Hp2). lia.
Qed.

Lemma unmark_pruned a (k : K) : keeper_ok k -> valid_addr a -> depositees (dep k) !! a = None ->
  pruned 0 k (set_dep (mark false a (dep k)) k).
Proof.
  intros [Hr Hd Hp] Ha Hn. split; cbn; try done; try lia; try congruence.
  - split; [done|by apply mark_ok|done].
  - unfold backlog. cbn. pose proof (map_size_delete (lp a) (gcq (dep k))) as E. rewrite E.
    destruct (gcq (dep k) !! lp a); cbn; lia.
Qed.

Lemma drop_pruned a u (k : K) : keeper_ok k -> depositees (dep k) !! a = Some u -> u <= clamp_now ctx ->
  pruned 0 k (set_dep (drop_deposit a u (dep k)) k) /\
  (backlog (set_dep (drop_deposit a u (dep k)) k) < backlog k)%nat.
Proof.
  intros [Hr Hd Hp] Ha Hu.
  assert (Hb : (backlog (set_dep (drop_deposit a u (dep k)) k) < backlog k)%nat).
  { unfold backlog. cbn. rewrite map_size_delete_Some by (by exists u).
    assert (size (depositees (dep k)) <> 0%nat) by (apply (map_size_ne_0_lookup_2 _ a); by exists u). lia. }
  split; [|done]. split; cbn; try done; try lia; try congruence.
  - split; [done|by apply drop_deposit_ok|done].
  - apply map_subseteq_spec. intros b v. by intros [_ ?]%lookup_delete_Some.
  - intros b v Hb' Hnb. destruct (decide (b = a)) as [->|]; [congruence|].
    rewrite lookup_delete_ne in Hnb by done. congruence.
Qed.

(** An entry of the expiry index that is not current is not in the index. *)
Lemma stale_entry u a (k : K) : keeper_ok k -> is_u64 u -> valid_addr a ->
  depositees (dep k) !! a <> Some u -> deleteCircuitDepositExpiry u a k = (Ok tt, k).
Proof.
  intros [_ Hd _] Hu Ha Hne. rewrite delete_expiry_eq by done. f_equal.
  destruct k as [p b g r [ds ex gc] e]. unfold set_dep, set_expiry. cbn in *. do 2 f_equal.
  apply delete_id. destruct (ex !! _) eqn:E; [|done].
  destruct (do_expiry _ Hd (be64s u ++ lp a)%string) as (v&b'&?&?&Ek&Hv); [by exists u0|].
  apply expiry_key_inj in Ek as [-> ->]; done.
Qed.

Lemma allowed_total a (k : K) : keeper_ok k ->
  exists b, Allowed (getCircuitUploadAccessConfig (params k)) a = Ok b.
Proof. intros [_ _ Hp]. unfold Allowed. destruct (Permission _); eauto; done. Qed.

(** One expired entry: the deposit is dropped, and unless its owner may upload
    anyway, its circuits are collected. *)
Lemma hit_step u a c (k : K) : keeper_ok k -> depositees (dep k) !! a = Some u -> u <= clamp_now ctx -> 0 < c ->
  exists n k', pruned n k k' /\ (n <= Z.to_nat c)%nat /\ (backlog k' < backlog k)%nat /\
    forall f : Z -> M K unit,
    (upd_dep (set_depositees (delete a));;
     deleteCircuitDepositExpiry u a;;
     p ← gets params;
     allowed ← lift (Allowed (getCircuitUploadAccessConfig p) a);
     if allowed : bool then deleteCircuitDepositGC a;; f 0
     else n ← prune_and_mark a c; f n) k = f (Z.of_nat n) k'.
Proof.
  intros Hk Ha Hu Hc. destruct (do_depositees _ (ko_dep _ Hk) a u Ha) as (_&Hv&_).
  destruct (drop_pruned a u k Hk Ha Hu) as [Hp1 Hb1]. set (k1 := set_dep (drop_deposit a u (dep k)) k) in *.
  assert (Hn : depositees (dep k1) !! a = None) by apply lookup_delete_eq.
  destruct (allowed_total a k Hk) as [[] Hall].
  - exists 0%nat, (set_dep (mark false a (dep k1)) k1).
    pose proof (unmark_pruned a k1 (pr_ok _ _ _ Hp1) Hv Hn) as Hp2. pose proof (pr_backlog _ _ _ Hp2).
    split_and!; [by apply (pruned_trans 0 0 _ k1)|lia|lia|].
    intros f. go_run. rewrite delete_expiry_eq by done. cbn. rewrite Hall.
    pose proof (set_mark_eq false a k1 Hv) as E. cbn beta iota in E.
    change (set_dep _ (set_dep _ k)) with k1. by rewrite E.
  - destruct (prune_and_mark_pruned a c k1 (pr_ok _ _ _ Hp1) Hv Hc Hn) as (n&k2&E2&Hn2&Hp2&_).
    pose proof (pr_backlog _ _ _ Hp2).
    exists n, k2. split_and!; [by apply (pruned_trans 0 n _ k1)|done|lia|].
    intros f. go_run. rewrite delete_expiry_eq by done. cbn. rewrite Hall.
    change (set_dep _ (set_dep _ k)) with k1. by rewrite E2.
Qed.

Context (Htime : BlockTime ctx < 2 ^ 63).

Lemma now_range : 0 <= clamp_now ctx < 2 ^ 63.
Proof. unfold clamp_now. destruct (Z.ltb_spec (BlockTime ctx) 0); lia. Qed.

Lemma prune_hits_pruned hits d c (k : K) : keeper_ok k -> 0 <= d -> 0 <= c ->
  Forall (fun h => is_u64 h.1 /\ valid_addr h.2 /\ h.1 <= clamp_now ctx) hits ->
  exists n k', prune_hits ctx hits d c k = (Ok tt, k') /\ (n <= Z.to_nat c)%nat /\ pruned n k k' /\
    (forall u a, head hits = Some (u, a) -> 0 < d -> 0 < c -> depositees (dep k) !! a = Some u ->
       (backlog k' < backlog k)%nat).
Proof.
  revert d c k. induction hits as [|[u a] hits IH]; intros d c k Hk Hd Hc Hall.
  { exists 0%nat, k. split_and!; [done|lia|by apply pruned_refl|done]. }
  inversion_clear Hall as [|?? (Hu&Ha&Hle) Hrest]. cbn [fst snd] in *. cbn [prune_hits].
  destruct (Z.eqb_spec d 0), (Z.eqb_spec c 0); cbn [orb];
    try (exists 0%nat, k; split_and!; [done|lia|by apply pruned_refl|intros; lia]).
  pose proof now_range. unfold mbind at 1, M_bind at 1, gets at 1.
  assert ((i64 (nowUnix ctx) <? i64 u) = false) as ->.
  { unfold nowUnix. destruct Hu. rewrite !i64_small by lia. apply Z.ltb_ge. lia. }
  rewrite orb_false_r. destruct (decide (depositees (dep k) !! a = Some u)) as [Hcur|Hst].
  - rewrite bool_decide_eq_true_2 by done. cbn [negb].
    destruct (hit_step u a c k Hk Hcur Hle ltac:(lia)) as (n1&k1&Hp1&Hn1&Hb1&E1).
    specialize (E1 (fun n => prune_hits ctx hits (d - 1) (c - n))). cbn beta in E1. rewrite Z.sub_0_r in E1.
    destruct (IH (d - 1) (c - Z.of_nat n1) k1 (pr_ok _ _ _ Hp1) ltac:(lia) ltac:(lia) Hrest) as
      (n2&k2&E2&Hn2&Hp2&_).
    exists (n1 + n2)%nat, k2. split_and!; [by rewrite E1|lia|by apply (pruned_trans _ _ _ k1)|].
    intros ?? [= -> ->] _ _ _. pose proof (pr_backlog _ _ _ Hp2). lia.
  - rewrite bool_decide_eq_false_2 by done. cbn [negb]. unfold mbind at 1, M_bind at 1.
    rewrite stale_entry by done.
    destruct (IH d c k Hk Hd Hc Hrest) as (n2&k2&E2&Hn2&Hp2&_).
    exists n2, k2. split_and!; [done..|]. intros ?? [= -> ->] _ _ ?. done.
Qed.

Lemma gc_pending_spec (k : K) : keeper_ok k ->
  Forall (fun a => valid_addr a /\ depositees (dep k) !! a = None /\ is_Some (gcq (dep k) !! lp a)) (gc_pending k) /\
  (gc_pending k = [] -> gcq (dep k) = ∅).
Proof.
  intros [_ Hd _].
  assert (Hin : forall key, key ∈ map fst (iter_prefix "" (gcq (dep k))) <-> is_Some (gcq (dep k) !! key)).
  { intros key. rewrite list_elem_of_fmap. split.
    - intros ([k' []]&->&Hk%elem_of_iter_prefix). rewrite string_app_nil in Hk. by exists tt.
    - intros [[] Hx]. exists (key, tt). split; [done|]. by apply elem_of_iter_prefix. }
  split.
  - apply Forall_forall. intros a (key&Hkey&Hp)%list_elem_of_omap. apply Hin in Hkey as Hk.
    destruct (do_gc _ Hd key Hk) as (b&Hb&->&Hn). rewrite parse_gc_roundtrip in Hp by done. by simplify_eq.
  - intros Hnil. apply map_empty. intros key. destruct (gcq (dep k) !! key) eqn:E; [|done].
    destruct (do_gc _ Hd key) as (b&Hb&->&_); [by rewrite E|].
    assert (b ∈ gc_pending k) as Hb'; [|rewrite Hnil in Hb'; set_solver].
    apply list_elem_of_omap. exists (lp b). split; [by apply Hin; rewrite E|by apply parse_gc_roundtrip].
Qed.

Lemma expired_hits_spec (k : K) : keeper_ok k ->
  Forall (fun h => is_u64 h.1 /\ valid_addr h.2 /\ h.1 <= clamp_now ctx /\
    depositees (dep k) !! h.2 = Some h.1) (expired_hits ctx k) /\
  (expired_hits ctx k = [] -> forall a u, depositees (dep k) !! a = Some u -> clamp_now ctx < u).
Proof.
  intros [_ Hd _]. pose proof now_range.
  assert (Hlt : forall u a, is_u64 u ->
    str_ltb (be64s u ++ lp a) (be64s (u64 (nowUnix ctx + 1))) = (u <? clamp_now ctx + 1)).
  { intros u a Hu. unfold nowUnix. rewrite u64_small by (unfold is_u64; lia).
    apply be64s_lt; unfold is_u64 in *; lia. }
  split.
  - apply Forall_forall. intros [u a] (key&Hkey&Hp)%list_elem_of_omap.
    apply list_elem_of_In, filter_In in Hkey as [Hkey Hf]. apply list_elem_of_In in Hkey.
    apply list_elem_of_fmap in Hkey as ([k' []]&->&Hk%elem_of_iter_prefix). rewrite string_app_nil in Hk.
    destruct (do_expiry _ Hd k') as (v&b&Hv&Hb&->&Hbv); [by exists tt|]. cbn [fst] in *.
    rewrite parse_expiry_roundtrip in Hp by done. simplify_eq. rewrite Hlt in Hf by done.
    cbn. split_and!; try done; try (destruct Hv; lia).
  - intros Hnil a u Ha. destruct (do_depositees _ Hd a u Ha) as (Hu&Hv&[[] Hx]).
    destruct (Z.le_gt_cases u (clamp_now ctx)); [|lia].
    assert ((u, a) ∈ expired_hits ctx k) as Hb'; [|rewrite Hnil in Hb'; set_solver].
    apply list_elem_of_omap. exists (be64s u ++ lp a)%string. split; [|by apply parse_expiry_roundtrip].
    apply list_elem_of_In, filter_In. rewrite Hlt by done. split; [|apply Z.ltb_lt; lia].
    apply list_elem_of_In, list_elem_of_fmap. exists ((be64s u ++ lp a)%string, tt). split; [done|].
    by apply elem_of_iter_prefix.
Qed.

(** Nothing to do: no marks and no expired deposits. *)
Definition settled (k : K) : Prop :=
  gcq (dep k) = ∅ /\ forall a u, depositees (dep k) !! a = Some u -> clamp_now ctx < u.

Lemma prune_pruned (k : K) : keeper_ok k ->
  exists n k', PruneExpiredCircuitDeposits ctx k = (Ok tt, k') /\ (n <= 2)%nat /\ pruned n k k' /\
    ((backlog k' < backlog k)%nat \/ settled k).
Proof.
  intros Hk. destruct (gc_pending_spec k Hk) as [Hpend Hempty].
  destruct (prune_pending_pruned (gc_pending k) 8 2 k Hk ltac:(lia) ltac:(lia)) as
    (n1&o&k1&E1&Hn1&Hp1&Hd1&Ho&Hb1).
  { eapply Forall_impl; [exact Hpend|]. naive_solver. }
  unfold PruneExpiredCircuitDeposits, mbind at 1, M_bind at 1, gets at 1.
  change MaxCircuitDepositGCDepositees with 8. change MaxCircuitDepositGCCircuits with 2.
  unfold mbind at 1, M_bind at 1. rewrite E1.
  assert (Hmark : gc_pending k <> [] -> (backlog k1 < backlog k)%nat).
  { intros Hne. destruct (gc_pending k) as [|a l]; [done|]. inversion_clear Hpend as [|?? (?&?&?) ?].
    apply (Hb1 a); done || lia. }
  destruct Ho as [->|[-> Hlen]].
  { exists n1, k1. split_and!; [done|lia|done|]. left. apply Hmark. intros E. rewrite E in E1. cbn in E1. done. }
  destruct (expired_hits_spec k1 (pr_ok _ _ _ Hp1)) as [Hhits Hnone].
  set (d := 8 - Z.of_nat (length (gc_pending k))) in *. set (c := 2 - Z.of_nat n1) in *.
  destruct (prune_hits_pruned (take (Z.to_nat d) (expired_hits ctx k1)) d c k1 (pr_ok _ _ _ Hp1))
    as (n2&k2&E2&Hn2&Hp2&Hb2); [lia|lia| |].
  { apply Forall_take. eapply Forall_impl; [exact Hhits|]. naive_solver. }
  exists (n1 + n2)%nat, k2. unfold mbind, M_bind, gets. rewrite E2.
  pose proof (pr_backlog _ _ _ Hp1). pose proof (pr_backlog _ _ _ Hp2).
  split_and!; [done|lia|by apply (pruned_trans _ _ _ k1)|].
  destruct (gc_pending k) as [|a l] eqn:Egc; [|left; specialize (Hmark ltac:(done)); lia].
  cbn in E1. injection E1 as Hc0 <-. destruct (expired_hits ctx k) as [|[u a] hits] eqn:Ehits.
  - right. split; [by apply Hempty|by apply Hnone].
  - left. inversion_clear Hhits as [|?? (?&?&?&?) ?]. apply (Hb2 u a); [done|done|lia|done].
Qed.

(** C8: at an end of block the collector never fails.  It removes at most two
    circuits and only circuits whose creator has no deposit reaching beyond the
    block, it drops only expired deposits, and it leaves the indexes exact and
    everything else alone. *)
Theorem prune_spares_covered (k : K) : keeper_ok k ->
  exists k', PruneExpiredCircuitDeposits ctx k = (Ok tt, k') /\ keeper_ok k' /\
    (size (infos (reg k)) <= size (infos (reg k')) + 2)%nat /\
    infos (reg k') ⊆ infos (reg k) /\ depositees (dep k') ⊆ depositees (dep k) /\
    (forall id info, infos (reg k) !! id = Some info -> infos (reg k') !! id = None ->
       exists a, AccAddressFromBech32 (Creator info) = Ok a /\ HasCircuitDeposit ctx a k = false) /\
    (forall a, HasCircuitDeposit ctx a k = true -> depositees (dep k') !! a = depositees (dep k) !! a) /\
    params k' = params k /\ bank k' = bank k /\ gas k' = gas k.
Proof.
  intros Hk. destruct (prune_pruned k Hk) as (n&k'&E&Hn&[(?&?&?&?) Hok Hsub Hcnt Hsafe Hdsub Hexp _]&_).
  assert (Hcov : forall a u, depositees (dep k) !! a = Some u -> u <= clamp_now ctx ->
    HasCircuitDeposit ctx a k = false).
  { intros a u Ha Hu. unfold HasCircuitDeposit. rewrite Ha. pose proof now_range.
    destruct (do_depositees _ (ko_dep _ Hk) a u Ha) as ([? ?]&_). rewrite i64_small by lia. apply Z.ltb_ge. lia. }
  exists k'. split_and!; [done|done|lia|done|done| | |done..].
  - intros id info Hi Hni. destruct (Hsafe id info Hi Hni) as (a&Ha&Hl). exists a. split; [done|].
    destruct (depositees (dep k) !! a) as [u|] eqn:Eu; [by apply (Hcov a u), Hl|].
    unfold HasCircuitDeposit. by rewrite Eu.
  - intros a Ha. destruct (depositees (dep k') !! a) as [u|] eqn:Eu; [by rewrite (lookup_weaken _ _ _ _ Eu Hdsub)|].
    destruct (depositees (dep k) !! a) as [u|] eqn:Eu'; [|done].
    rewrite (Hcov a u Eu') in Ha by (by apply (Hexp a)). done.
Qed.

(** The collector run at the end of [n] blocks. *)
Fixpoint prune_blocks (n : nat) : M K unit :=
  match n with
  | O => mret tt
  | S n => PruneExpiredCircuitDeposits ctx;; prune_blocks n
  end.

Lemma prune_catches_up_aux b : forall k : K, (backlog k <= b)%nat -> keeper_ok k ->
  exists n k', (n <= backlog k)%nat /\ prune_blocks n k = (Ok tt, k') /\ keeper_ok k' /\ settled k'.
Proof.
  induction b as [|b IH]; intros k Hb Hk; destruct (prune_pruned k Hk) as (m&k1&E&_&Hp&[Hlt|Hs]); try lia;
    try by (exists 0%nat, k; split_and!; [lia|done..]).
  destruct (IH k1 ltac:(lia) (pr_ok _ _ _ Hp)) as (n&k2&Hn&E2&Hk2&Hs2).
  exists (S n), k2. split_and!; [lia| |done..]. cbn [prune_blocks]. unfold mbind, M_bind. by rewrite E.
Qed.

(** The collector catches up.  As long as no time passes and nothing new
    arrives, after at most as many blocks as there are index entries, deposits
    and marks, no expired deposit and no marked account are left. *)
Theorem prune_catches_up (k : K) : keeper_ok k ->
  exists n k', (n <= backlog k)%nat /\ prune_blocks n k = (Ok tt, k') /\ keeper_ok k' /\
    gcq (dep k') = ∅ /\ forall a u, depositees (dep k') !! a = Some u -> clamp_now ctx < u.
Proof. exact (prune_catches_up_aux (backlog k) k (Nat.le_refl _)). Qed.

End PruneProofs.

(** ** Payments *)

Section PayProofs.
Context {B G : Type} `{AddrPrefixLaws} `{Bech32Laws} `{SdkCoinsLaws} `{BankLaws B}.
Context (ctx : BlockCtx).

Abbreviation K := (Keeper B G).

Lemma add_positive_ok c d a r : coins_ok c -> add_positive c d a = Ok r ->
  coins_ok r /\ forall d', amount_of r d' = amount_of c d' + if decide (d = d') then Z.max 0 a else 0.
Proof.
  intros Hc. unfold add_positive. destruct (Z.ltb_spec 0 a); intros E.
  - apply res_bind_Ok in E as (x&Hx&[= <-]). apply NewCoin_inv in Hx as [-> _].
    assert (Hs : coins_ok [mkCoin d a]) by (by apply coins_ok_single).
    split; [by apply (coins_add_spec c _ d)|]. intros d'.
    destruct (coins_add_spec c [mkCoin d a] d' Hc Hs) as [_ ->]. cbn. case_decide; lia.
  - injection E as <-. split; [done|]. intros d'. case_decide; lia.
Qed.

(** The payment is split without loss: the validators get half of each
    denomination rounded down, the developers the rest. *)
Lemma split_runway_ok amt v w v' w' : coins_ok amt -> coins_ok v -> coins_ok w ->
  split_runway amt v w = Ok (v', w') -> coins_ok v' /\ coins_ok w' /\ forall d,
    amount_of v' d = amount_of v d + amount_of amt d / 2 /\
    amount_of w' d = amount_of w d + (amount_of amt d - amount_of amt d / 2).
Proof.
  intros [Hs Hp]. revert v w. induction Hs as [|c amt Hs IH Hlt]; intros v w Hv Hw E.
  { injection E as <- <-. split_and!; try done; try apply Hv; try apply Hw. intros d. cbn.
    change (0 / 2) with 0. lia. }
  inversion_clear Hp as [|?? Hc Hp']. cbn [split_runway] in E.
  destruct (Z.ltb_spec 0 (Amount c)); [|lia]. cbn [negb] in E.
  apply res_bind_Ok in E as (v1&[Hv1 Ev]%add_positive_ok&E); [|done].
  apply res_bind_Ok in E as (w1&[Hw1 Ew]%add_positive_ok&E); [|done].
  destruct (IH Hp' v1 w1 Hv1 Hw1 E) as (?&?&Had). split; [done|]. split; [done|].
  intros d. destruct (Had d) as [-> ->]. rewrite Ev, Ew. cbn [amount_of].
  rewrite Z.quot_div_nonneg by lia.
  assert (0 <= Amount c / 2 <= Amount c).
  { pose proof (Z.div_pos (Amount c) 2). pose proof (Z.div_le_upper_bound (Amount c) 2 (Amount c)). lia. }
  case_decide as Hd; [|lia]. rewrite (amount_of_not_in amt d).
  { rewrite (Z.add_0_r (Amount c)). change (0 / 2) with 0. lia. }
  subst d. intros (x&Hx&Hin)%list_elem_of_fmap. rewrite Forall_forall in Hlt.
  apply Hlt, str_lt_ne in Hin. by rewrite Hx in Hin.
Qed.

Lemma kp_bank_Ok {A} (m : M B A) a (k k' : K) :
  on_bank m k = (Ok a, k') -> exists b, m (bank k) = (Ok a, b) /\ k' = set_bank b k.
Proof. unfold on_bank, zoom. destruct (m (bank k)) as [x r]. intros [= -> <-]. eauto. Qed.

(** Where the developers' half goes. *)
Definition dev_address (p : Params) : res string :=
  if bool_decide (CircuitDevDestination p = ""%string) then Ok (module_address CircuitDevPoolName)
  else AccAddressFromBech32 (CircuitDevDestination p).

Definition val_pool_address : string := module_address CircuitValPoolName.

Lemma flow_nil f t a d : flow f t [] a d = 0.
Proof. unfold flow. cbn. repeat case_decide; lia. Qed.

Lemma receive_payment_ok payer amt u (k k' : K) : coins_ok amt ->
  receiveCircuitRunwayPayment payer amt k = (Ok u, k') ->
  exists v w, coins_ok v /\ coins_ok w /\
    (forall d, amount_of v d = amount_of amt d / 2 /\ amount_of w d = amount_of amt d - amount_of amt d / 2) /\
    (w = [] \/ exists dev, dev_address (params k) = Ok dev) /\
    k' = set_bank (bank k') k /\
    forall dev, (w = [] \/ dev_address (params k) = Ok dev) -> forall a d,
      balance (bank k') a d = balance (bank k) a d + flow payer val_pool_address v a d + flow payer dev w a d.
Proof.
  intros Hamt E. destruct u. unfold receiveCircuitRunwayPayment in E.
  apply bind_Ok in E as ([v w]&k1&[Hsp <-]%lift_Ok&E).
  destruct (split_runway_ok amt [] [] v w Hamt coins_ok_nil coins_ok_nil Hsp) as (Hv&Hw&Ham).
  exists v, w. split; [done|]. split; [done|]. split; [intros d; destruct (Ham d); cbn in *; lia|].
  apply bind_Ok in E as ([]&k1&E1&E2).
  assert (Hk1 : k1 = set_bank (bank k1) k /\ forall a d, balance (bank k1) a d
    = balance (bank k) a d + flow payer val_pool_address v a d).
  { clear E2. case_bool_decide as Hv0.
    - apply ret_Ok in E1 as [_ <-]. split; [by destruct k|]. intros. rewrite Hv0, flow_nil. lia.
    - apply kp_bank_Ok in E1 as (b&Hb%SendToModule_ok&->). split; [done|]. apply Hb. }
  destruct Hk1 as [Hk1 Hb1]. case_bool_decide as Hw0.
  { apply ret_Ok in E2 as [_ <-]. split; [by left|]. split; [done|]. intros dev _ a d.
    rewrite Hw0, flow_nil, Hb1. lia. }
  apply bind_Ok in E2 as (dest&k2&[-> <-]%gets_Ok&E2).
  assert (Hp : params k1 = params k) by (by rewrite Hk1).
  assert (Hres : exists dev b, dev_address (params k) = Ok dev /\ k' = set_bank b k1 /\
    transferred (bank k1) b payer dev w).
  { unfold dev_address. rewrite Hp in E2. case_bool_decide.
    - apply kp_bank_Ok in E2 as (b&Hb%SendToModule_ok&->). eauto 10.
    - apply bind_Ok in E2 as (addr&k2&[Ha <-]%lift_Ok&E2).
      apply kp_bank_Ok in E2 as (b&Hb%SendCoins_ok&->). eauto 10. }
  destruct Hres as (dev&b&Hdev&->&Hb&_). split; [right; by exists dev|].
  split; [by rewrite Hk1|]. intros dev' [?|Hdev'] a d; [done|]. assert (dev' = dev) as -> by congruence.
  cbn. rewrite Hb, Hb1. lia.
Qed.

(** The yearly fee in force, and the time a payment of [years] reaches. *)
Definition fee_of (yearly : Coin) : Coin :=
  if 0 <? Amount yearly then yearly else mkCoin DefaultBondDenom CircuitDepositYearlyAmount.

Definition paid_until (payer : string) (years : Z) (k : K) : Z :=
  Z.max (clamp_now ctx) (default 0 (depositees (dep k) !! payer)) + years * CircuitDepositSecondsPerYear.

Lemma extend_deposit_ok payer years (k k' : K) ret : valid_addr payer -> 0 <= years ->
  0 <= clamp_now ctx -> paid_until payer years k < 2 ^ 63 ->
  extendDeposit ctx payer years k = (Ok ret, k') ->
  ret = paid_until payer years k /\ is_u64 ret /\ k' = set_dep (put_deposit payer ret (dep k)) k.
Proof.
  intros Hp Hy Hnow Hmax E. set (u := paid_until payer years k) in *.
  assert (Hu : 0 <= years * CircuitDepositSecondsPerYear <= u).
  { unfold u, paid_until, CircuitDepositSecondsPerYear in *. lia. }
  assert (Hst : u64 (match depositees (dep k) !! payer with
                | Some e => if nowUnix ctx <? e then e else nowUnix ctx
                | None => nowUnix ctx
                end + u64 (years * CircuitDepositSecondsPerYear)) = u).
  { rewrite (u64_small (years * _)) by (unfold is_u64; lia).
    rewrite u64_small; unfold u, paid_until, nowUnix, is_u64 in *;
      destruct (depositees (dep k) !! payer) as [e|]; cbn in *;
      try destruct (Z.ltb_spec (clamp_now ctx) e); lia. }
  unfold extendDeposit, setCircuitDepositExpiry, GetCircuitDepositExpiryKey,
    deleteCircuitDepositGC, GetCircuitDepositGCKey in E.
  rewrite MustLengthPrefix_ok in E by done. unfold mbind, M_bind, gets in E. cbv zeta in E. rewrite !Hst in E.
  assert (Hput : put_deposit payer u (dep k) = mkDeposits (<[payer := u]> (depositees (dep k)))
    (<[(be64s u ++ lp payer)%string := tt]> (match depositees (dep k) !! payer with
      | Some e => delete (be64s e ++ lp payer)%string (expiry (dep k)) | None => expiry (dep k) end))
    (delete (lp payer) (gcq (dep k)))) by done.
  destruct (depositees (dep k) !! payer) as [e|].
  - rewrite delete_expiry_eq in E by done. cbn in E. injection E as <- <-.
    rewrite i64_small by lia. split; [done|]. split; [unfold is_u64; lia|by rewrite Hput].
  - cbn in E. injection E as <- <-.
    rewrite i64_small by lia. split; [done|]. split; [unfold is_u64; lia|by rewrite Hput].
Qed.

(** A payment for one to ten years moves the yearly fee times the years out
    of the payer's account, half of it rounded down to the validators' pool and
    the rest to the developers' destination, and nothing else.  The runway is
    extended from where it ended, or from now, by that many years, during all
    of which the payer may upload; the indexes stay exact. *)
Theorem pay_deposit_effect yearly payer years (k k' : K) ret :
  keeper_ok k -> valid_addr payer -> 0 <= years -> paid_until payer years k < 2 ^ 63 ->
  PayCircuitDeposit ctx yearly payer years k = (Ok ret, k') ->
  let total := Amount (fee_of yearly) * years in
  1 <= years <= 10 /\ ret = paid_until payer years k /\ keeper_ok k' /\
  dep k' = put_deposit payer ret (dep k) /\ reg k' = reg k /\ params k' = params k /\
  (forall later, BlockTime later < ret -> HasCircuitDeposit later payer k' = true) /\
  exists dev, dev_address (params k) = Ok dev /\ forall a d,
    balance (bank k') a d = balance (bank k) a d +
      (if decide (d = Denom (fee_of yearly)) then
         (if decide (a = val_pool_address) then total / 2 else 0)
         + (if decide (a = dev) then total - total / 2 else 0)
         - (if decide (a = payer) then total else 0)
       else 0).
Proof.
  intros Hk Hp Hy Hmax E total. unfold PayCircuitDeposit in E.
  apply bind_Ok in E as ([]&k1&[Hyears <-]%refuseM_Ok&E). apply orb_false_iff in Hyears as [Hy0 Hy1].
  apply Z.eqb_neq in Hy0. apply Z.ltb_ge in Hy1. unfold CircuitDepositMaxYears in Hy1.
  fold (fee_of yearly) in E. apply bind_Ok in E as (c&k1&[Hc <-]%lift_Ok&E).
  apply NewCoin_inv in Hc as [-> Htot]. fold total in E, Htot.
  apply bind_Ok in E as (amt&k1&[Hamt <-]%lift_Ok&E). apply NewCoins_ok in Hamt as [Hok Ham].
  apply bind_Ok in E as ([]&k1&(v&w&Hv&Hw&Hvw&Hdev&Hk1&Hbal)%receive_payment_ok&E); [|done].
  assert (Hdep1 : dep k1 = dep k /\ params k1 = params k /\ reg k1 = reg k) by (by rewrite Hk1).
  destruct Hdep1 as (Hdep1&Hpar1&Hreg1).
  assert (Hpu : paid_until payer years k1 = paid_until payer years k) by (unfold paid_until; by rewrite Hdep1).
  assert (Hnow : 0 <= clamp_now ctx) by (unfold clamp_now; destruct (Z.ltb_spec (BlockTime ctx) 0); lia).
  rewrite <- Hpu in Hmax. apply extend_deposit_ok in E as (Hret&Hru&->); [|done..]. rewrite Hpu in Hret.
  assert (Hpos : 0 < total).
  { unfold total, fee_of. destruct (Z.ltb_spec 0 (Amount yearly)); [nia|].
    cbn. unfold CircuitDepositYearlyAmount. lia. }
  destruct Hk as [Hkr Hkd Hka].
  split; [lia|]. split; [done|]. split.
  { split; cbn; [by rewrite Hreg1|rewrite Hdep1; by apply put_deposit_ok|by rewrite Hpar1]. }
  cbn [dep reg params set_dep bank]. rewrite Hdep1. split; [done|]. split; [done|]. split; [done|]. split.
  { intros later Hl. unfold HasCircuitDeposit. cbn. rewrite lookup_insert_eq, i64_small by (destruct Hru; lia).
    unfold clamp_now. destruct (Z.ltb_spec (BlockTime later) 0); apply Z.ltb_lt; [|done].
    unfold paid_until, CircuitDepositSecondsPerYear in Hret. lia. }
  assert (Hamt : forall d, amount_of amt d = if decide (d = Denom (fee_of yearly)) then total else 0).
  { intros d. rewrite Ham. cbn. repeat case_decide; subst; try congruence; lia. }
  assert (Hhalf : 0 <= total / 2 < total) by (split; [apply Z.div_pos; lia|apply Z.div_lt; lia]).
  destruct Hdev as [->|[dev Hdev]].
  { exfalso. destruct (Hvw (Denom (fee_of yearly))) as [_ Hw0]. rewrite Hamt, decide_True in Hw0 by done.
    cbn in Hw0. lia. }
  exists dev. split; [done|]. intros a d. rewrite (Hbal dev) by auto. unfold flow.
  destruct (Hvw d) as [-> ->]. rewrite Hamt. change (0 / 2) with 0.
  repeat case_decide; subst; try congruence; change (0 / 2) with 0; lia.
Qed.

End PayProofs.
