(* ===== verification/WasmEpochs.v ===== *)
(** * x/wasm: the validators' share of circuit deposits

    The daily epoch the module counts at each end of block and the distribution
    of the validators' pool by operator weight when an epoch ends. *)

From Stdlib Require Import ZArith Lia Ascii.
From stdpp Require Import base gmap strings list sorting.
From S2P Require Import Prelude Sdk SdkRef Store GoLib Bank WasmAccess WasmGas WasmCircuits WasmDeposits.

Record Validator := mkValidator { OperatorAddress : string; Jailed : bool }.

(** The staking keeper, operator addresses and the balances of an account.
    [circuitWeight] is the keeper's optional weighting. *)
Class PoolOps (B : Type) := {
  GetBondedValidatorsByPower : res (list Validator);
  ValAddressFromBech32 : string -> res string;
  circuitWeight : option (Validator -> Z);
  GetAllBalances : B -> string -> list Coin
}.

(** ** [strconv.ParseInt(s, 10, 64)] *)

Definition digit (c : ascii) : option Z :=
  let n := Z.of_nat (nat_of_ascii c) in
  if (48 <=? n) && (n <=? 57) then Some (n - 48) else None.

Fixpoint parse_digits (acc : Z) (s : string) : option Z :=
  match s with
  | EmptyString => Some acc
  | String c s => match digit c with Some d => parse_digits (10 * acc + d) s | None => None end
  end.

Definition ParseInt (s : string) : option Z :=
  let '(neg, body) := match s with
                      | String "-"%char r => (true, r)
                      | String "+"%char r => (false, r)
                      | _ => (false, s)
                      end in
  match body with
  | EmptyString => None
  | _ => match parse_digits 0 body with
         | Some n => let v := if neg : bool then - n else n in
                     if (- 2 ^ 63 <=? v) && (v <? 2 ^ 63) then Some v else None
         | None => None
         end
  end.

Section EpochOps.
Context {B G : Type} `{SdkCoins} `{BankOps B} `{PoolOps B}.
Context (ctx : BlockCtx).

Abbreviation K := (Keeper B G).

Definition operatorWeight (v : Validator) : Z :=
  if Jailed v then 0
  else match circuitWeight with Some w => w v | None => 1 end.

(** The weight that counts, and the running sum in 64 bits. *)
Definition weight (v : Validator) : Z := let w := operatorWeight v in if w <? 0 then 0 else w.
Definition weight_sum (vals : list Validator) : Z := foldl (fun n v => i64 (n + weight v)) 0 vals.

Fixpoint share_of (bal : list Coin) (w weightSum : Z) (share : list Coin) : res (list Coin) :=
  match bal with
  | [] => mret share
  | c :: bal =>
      share ← add_positive share (Denom c) (Z.quot (Amount c * w) weightSum);
      share_of bal w weightSum share
  end.

(** A payout that fails is logged and skipped. *)
Definition attempt (m : M K unit) : M K unit := fun k =>
  match m k with
  | (Err _, k') => (Ok tt, k')
  | r => r
  end.

Definition pay_operator (bal : list Coin) (weightSum : Z) (v : Validator) : M K unit :=
  if weight v =? 0 then mret tt
  else match ValAddressFromBech32 (OperatorAddress v) with
       | Err _ => mret tt
       | Panic p => panic p
       | Ok op =>
           share ← lift (share_of bal (weight v) weightSum []);
           if bool_decide (share = []) then mret tt
           else attempt (on_bank (SendCoinsFromModuleToAccount CircuitValPoolName op share))
       end.

Definition settleCircuitValPool : M K unit :=
  match GetBondedValidatorsByPower with
  | Panic p => panic p
  | Err _ | Ok [] => mret tt
  | Ok vals =>
      bal ← gets (fun k => GetAllBalances (bank k) (module_address CircuitValPoolName));
      if bool_decide (bal = []) then mret tt
      else
        let weightSum := weight_sum vals in
        if weightSum =? 0 then mret tt else forM vals (pay_operator bal weightSum)
  end.

Definition DistributeCircuitValPool : M K unit := settleCircuitValPool.

Definition AfterEpochEnd (epochIdentifier : string) : M K unit :=
  if bool_decide (epochIdentifier <> CircuitDistrEpochDay) then mret tt else settleCircuitValPool.

(** [env] is the value of CIRCUIT_EPOCH_DURATION_SECONDS in the environment of
    the node, empty when it is not set. *)
Definition epoch_duration (env : string) : Z :=
  match ParseInt env with
  | Some n => if 0 <? n then n else CircuitEpochDurationDefault
  | None => CircuitEpochDurationDefault
  end.

Definition TickCircuitEpoch (env : string) : M K unit :=
  info ← gets epoch;
  match info with
  | None =>
      modify (set_epoch (Some (mkEpochInfo CircuitDistrEpochDay (epoch_duration env) 0
        (clamp_now ctx) (BlockHeight ctx))))
  | Some info =>
      if bool_decide (Identifier info = ""%string) then DistributeCircuitValPool
      else
        let dur := if DurationSeconds info <=? 0 then CircuitEpochDurationDefault else DurationSeconds info in
        if BlockTime ctx <? i64 (CurrentEpochStartUnix info + dur) then mret tt
        else
          AfterEpochEnd (Identifier info);;
          modify (set_epoch (Some (mkEpochInfo (Identifier info) dur (i64 (CurrentEpoch info + 1))
            (BlockTime ctx) (BlockHeight ctx))))
  end.

(** The module's end blocker. *)
Definition EndBlock `{AddrPrefix} `{Bech32} (env : string) : M K unit :=
  TickCircuitEpoch env;;
  PruneExpiredCircuitDeposits ctx.

End EpochOps.

(** An account as the bank keeps it: no debts, and only valid denominations. *)
Definition account_sound {B} `{SdkCoins} `{BankOps B} (b : B) (a : string) : Prop :=
  forall d, 0 <= balance b a d /\ (balance b a d <> 0 -> ValidateDenom d = true).

Class PoolLaws (B : Type) `{SdkCoins} `{BankOps B} `{PoolOps B} : Prop := {
  GetAllBalances_ok b a : account_sound b a -> coins_ok (GetAllBalances b a) /\
    (forall d, amount_of (GetAllBalances b a) d = balance b a d) /\
    Forall (fun c => ValidateDenom (Denom c) = true) (GetAllBalances b a);
  SendFromModule_funds m t c b : coins_ok c -> BlockedAddr t = false ->
    (forall d, amount_of c d <= balance b (module_address m) d) ->
    exists b', SendCoinsFromModuleToAccount m t c b = (Ok tt, b')
}.

(** ** The pool is shared out by weight *)

Section PoolProofs.
Context {B G : Type} `{SdkCoinsLaws} `{BankLaws B} `{PoolOps B} `{!PoolLaws B}.
Context (ctx : BlockCtx).

Abbreviation K := (Keeper B G).

Definition total_weight (vals : list Validator) : Z := foldr (fun v n => weight v + n) 0 vals.

Lemma weight_nonneg v : 0 <= weight v.
Proof. unfold weight. destruct (Z.ltb_spec (operatorWeight v) 0); lia. Qed.

Lemma total_weight_nonneg vals : 0 <= total_weight vals.
Proof.
  induction vals as [|v vals IH]; [done|]. cbn [total_weight foldr]. fold (total_weight vals).
  pose proof (weight_nonneg v). lia.
Qed.

Lemma weight_sum_total vals n : 0 <= n -> n + total_weight vals < 2 ^ 63 ->
  foldl (fun n v => i64 (n + weight v)) n vals = n + total_weight vals.
Proof.
  revert n. induction vals as [|v vals IH]; intros n Hn Hb; cbn [foldl total_weight foldr] in *; [lia|].
  fold (total_weight vals) in *. pose proof (weight_nonneg v). pose proof (total_weight_nonneg vals).
  rewrite i64_small by lia. rewrite IH by lia. lia.
Qed.

Lemma share_of_ok bal w W s : coins_ok bal -> Forall (fun c => ValidateDenom (Denom c) = true) bal ->
  0 <= w -> 0 < W -> coins_ok s ->
  exists r, share_of bal w W s = Ok r /\ coins_ok r /\
    forall d, amount_of r d = amount_of s d + amount_of bal d * w / W.
Proof.
  intros [Hs Hp] Hv Hw HW. revert s. induction Hs as [|c bal Hs IH Hlt]; intros s Hok.
  { exists s. split; [done|]. split; [done|]. intros d. cbn. rewrite Z.div_0_l by lia. lia. }
  inversion_clear Hp as [|?? Hc Hp']. inversion_clear Hv as [|?? Hvc Hv'].
  set (q := Z.quot (Amount c * w) W). cbn [share_of]. fold q.
  assert (Hq : q = Amount c * w / W /\ 0 <= q).
  { unfold q. rewrite Z.quot_div_nonneg by nia. split; [done|]. apply Z.div_pos; nia. }
  assert (exists s1, add_positive s (Denom c) q = Ok s1) as [s1 Es1].
  { unfold add_positive. destruct (0 <? q); [|by eexists]. rewrite NewCoin_ok by (done || lia). by eexists. }
  destruct (add_positive_ok s (Denom c) q s1 Hok Es1) as [Hok1 Ham1].
  destruct (IH Hp' Hv' s1 Hok1) as (r&Hr&Hrok&Hram). exists r. rewrite Es1. split; [done|]. split; [done|].
  intros d. rewrite Hram, Ham1. cbn [amount_of]. case_decide as Hd; [|lia].
  rewrite (amount_of_not_in bal d).
  { rewrite (Z.add_0_r (Amount c)), Z.mul_0_l, Z.div_0_l by lia. lia. }
  subst d. intros (x&Hx&Hin)%list_elem_of_fmap. rewrite Forall_forall in Hlt.
  apply Hlt, str_lt_ne in Hin. by rewrite Hx in Hin.
Qed.

(** What the operators behind address [a] receive out of [p], and what all
    receive, for a sum of weights [W]. *)
Definition payout (p W : Z) (vals : list Validator) (a : string) : Z :=
  foldr (fun v n => (if decide (ValAddressFromBech32 (OperatorAddress v) = Ok a)
                     then p * weight v / W else 0) + n) 0 vals.

Definition paid_out (p W : Z) (vals : list Validator) : Z :=
  foldr (fun v n => p * weight v / W + n) 0 vals.

(** The operators can be paid: their address parses and may receive. *)
Definition payable (vals : list Validator) : Prop :=
  Forall (fun v => exists op, ValAddressFromBech32 (OperatorAddress v) = Ok op /\
    BlockedAddr op = false /\ op <> val_pool_address) vals.

(** One payout: the operator gets its share of the balance at the start. *)
Lemma pay_operator_ok bal W v op (k : K) :
  coins_ok bal -> Forall (fun c => ValidateDenom (Denom c) = true) bal -> 0 < W ->
  ValAddressFromBech32 (OperatorAddress v) = Ok op -> BlockedAddr op = false ->
  (forall d, amount_of bal d * weight v <= W * balance (bank k) val_pool_address d) ->
  exists b s, pay_operator bal W v k = (Ok tt, set_bank b k) /\
    (forall d, amount_of s d = amount_of bal d * weight v / W) /\
    forall a d, balance b a d = balance (bank k) a d + flow val_pool_address op s a d.
Proof.
  intros Hbal Hval HW Hop Hblk Hfund.
  destruct (share_of_ok bal (weight v) W [] Hbal Hval (weight_nonneg v) HW coins_ok_nil) as (s&Es&Hs&Ham).
  cbn in Ham. unfold pay_operator. destruct (Z.eqb_spec (weight v) 0) as [E0|E0].
  { exists (bank k), s. split; [by destruct k|]. split; [done|]. intros a d. unfold flow.
    rewrite (Ham d), E0, Z.mul_0_r, Z.div_0_l by lia. repeat case_decide; lia. }
  rewrite Hop. unfold mbind, M_bind, lift. rewrite Es. case_bool_decide as Hnil.
  { exists (bank k), s. split; [by destruct k|]. split; [done|]. intros. rewrite Hnil, flow_nil. lia. }
  destruct (SendFromModule_funds CircuitValPoolName op s (bank k) Hs Hblk) as [b Eb].
  { intros d. rewrite (Ham d). specialize (Hfund d). unfold val_pool_address in *.
    apply Z.div_le_upper_bound; lia. }
  exists b, s. split; [unfold attempt, on_bank, zoom; by rewrite Eb|].
  split; [done|by apply SendFromModule_ok].
Qed.

Lemma pay_operators_ok bal W vals (k : K) :
  coins_ok bal -> Forall (fun c => ValidateDenom (Denom c) = true) bal -> 0 < W -> payable vals ->
  (forall d, 0 <= amount_of bal d) ->
  (forall d, amount_of bal d * total_weight vals <= W * balance (bank k) val_pool_address d) ->
  exists b, forM vals (pay_operator bal W) k = (Ok tt, set_bank b k) /\ forall a d,
    balance b a d = balance (bank k) a d + payout (amount_of bal d) W vals a
      - (if decide (a = val_pool_address) then paid_out (amount_of bal d) W vals else 0).
Proof.
  intros Hbal Hval HW Hpay Hnn. revert k. induction Hpay as [|v vals (op&Hop&Hblk&Hne) Hpay IH]; intros k Hfund.
  { exists (bank k). split; [by destruct k|]. intros a d. cbn. case_decide; lia. }
  cbn [total_weight foldr] in Hfund. fold (total_weight vals) in Hfund.
  pose proof (weight_nonneg v) as Hw. pose proof (total_weight_nonneg vals) as Htw.
  destruct (pay_operator_ok bal W v op k Hbal Hval HW Hop Hblk) as (b1&s&E1&Ham&Hb1).
  { intros d. specialize (Hfund d). specialize (Hnn d). nia. }
  destruct (IH (set_bank b1 k)) as (b2&E2&Hb2).
  { intros d. cbn. rewrite Hb1. unfold flow. rewrite decide_False, decide_True, Ham by done.
    specialize (Hfund d). pose proof (Z.mul_div_le (amount_of bal d * weight v) W HW). nia. }
  exists b2. split.
  { cbn [forM]. unfold mbind at 1, M_bind at 1. by rewrite E1. }
  intros a d. rewrite Hb2. cbn [bank set_bank]. rewrite Hb1. unfold flow, payout, paid_out. rewrite (Ham d).
  cbn [foldr]. rewrite Hop. repeat case_decide; subst; try congruence; lia.
Qed.

Lemma paid_out_bound p W vals : 0 <= p -> 0 < W ->
  0 <= paid_out p W vals /\ W * paid_out p W vals <= p * total_weight vals.
Proof.
  intros Hp HW. induction vals as [|v l IH]; [cbn; lia|]. cbn [paid_out total_weight foldr].
  fold (paid_out p W l) (total_weight l). pose proof (weight_nonneg v).
  pose proof (Z.mul_div_le (p * weight v) W HW). pose proof (Z.div_pos (p * weight v) W). nia.
Qed.

Lemma paid_out_zero W vals a : payout 0 W vals a = 0 /\ paid_out 0 W vals = 0.
Proof.
  induction vals as [|v l [IH1 IH2]]; [done|]. cbn [payout paid_out foldr].
  fold (payout 0 W l a) (paid_out 0 W l). rewrite IH1, IH2, Z.mul_0_l, Zdiv_0_l.
  split; [case_decide; lia|lia].
Qed.

(** When the validators' pool is settled, every bonded operator receives
    of each denomination the pool's balance times its weight over the sum of
    the weights, rounded down, and the pool keeps the dust: it is never
    overdrawn and no other balance moves. *)
Theorem settle_pays_shares vals (k : K) :
  GetBondedValidatorsByPower = Ok vals -> payable vals -> 0 < total_weight vals < 2 ^ 63 ->
  account_sound (bank k) val_pool_address ->
  let W := total_weight vals in
  exists b, settleCircuitValPool k = (Ok tt, set_bank b k) /\ forall a d,
    let p := balance (bank k) val_pool_address d in
    balance b a d = balance (bank k) a d + payout p W vals a
      - (if decide (a = val_pool_address) then paid_out p W vals else 0) /\
    0 <= paid_out p W vals <= p.
Proof.
  intros Hvals Hpay HW Hsound W.
  assert (Hnn : forall d, 0 <= balance (bank k) val_pool_address d) by apply Hsound.
  destruct (GetAllBalances_ok (bank k) val_pool_address Hsound) as (Hok&Ham&Hval).
  assert (Hfin : forall p, 0 <= p -> 0 <= paid_out p W vals <= p).
  { intros p Hp. destruct (paid_out_bound p W vals Hp) as [? Hle]; [lia|]. fold W in Hle. nia. }
  assert (Hset : settleCircuitValPool k =
    (if bool_decide (GetAllBalances (bank k) val_pool_address = []) then mret tt
     else if weight_sum vals =? 0 then mret tt
     else forM vals (pay_operator (GetAllBalances (bank k) val_pool_address) (weight_sum vals))) k).
  { unfold settleCircuitValPool. rewrite Hvals. destruct vals; [cbn in HW; lia|done]. }
  rewrite Hset. case_bool_decide as Hnil.
  { exists (bank k). split; [by destruct k|]. intros a d. split; [|by apply Hfin].
    assert (balance (bank k) val_pool_address d = 0) as -> by (rewrite <- Ham, Hnil; done).
    destruct (paid_out_zero W vals a) as [-> ->]. case_decide; lia. }
  assert (weight_sum vals = W) as -> by (unfold weight_sum; rewrite weight_sum_total by lia; lia).
  destruct (Z.eqb_spec W 0); [lia|].
  destruct (pay_operators_ok (GetAllBalances (bank k) val_pool_address) W vals k) as (b&E&Hb);
    [done|done|lia|done|intros d; by rewrite Ham|intros d; rewrite Ham; fold W; lia|].
  exists b. split; [done|]. intros a d. split; [|by apply Hfin]. by rewrite Hb, Ham.
Qed.

End PoolProofs.

(** ** Epochs *)

Section EpochProofs.
Context {B G : Type} `{SdkCoins} `{BankOps B} `{PoolOps B}.

Abbreviation K := (Keeper B G).

(** Within an epoch the tick changes nothing.  The first block at or past
    the end of the epoch settles the pool once and starts the next epoch at its
    own time, so that the pool is settled at most once per duration. *)
Theorem epoch_settles_once ctx env info (k : K) :
  epoch k = Some info -> Identifier info = CircuitDistrEpochDay -> 0 < DurationSeconds info ->
  0 <= CurrentEpochStartUnix info -> CurrentEpochStartUnix info + DurationSeconds info < 2 ^ 63 ->
  (BlockTime ctx < CurrentEpochStartUnix info + DurationSeconds info ->
   TickCircuitEpoch ctx env k = (Ok tt, k)) /\
  (CurrentEpochStartUnix info + DurationSeconds info <= BlockTime ctx ->
   forall k1, settleCircuitValPool k = (Ok tt, k1) ->
   TickCircuitEpoch ctx env k =
     (Ok tt, set_epoch (Some (mkEpochInfo CircuitDistrEpochDay (DurationSeconds info)
        (i64 (CurrentEpoch info + 1)) (BlockTime ctx) (BlockHeight ctx))) k1)).
Proof.
  intros He Hid Hdur Hst Hmax. unfold TickCircuitEpoch, AfterEpochEnd. unfold mbind at 1, M_bind at 1, gets at 1.
  unfold mbind at 2, M_bind at 2, gets at 1. rewrite He, Hid. rewrite bool_decide_eq_false_2 by done.
  destruct (Z.leb_spec (DurationSeconds info) 0); [lia|]. rewrite i64_small by lia.
  split.
  - intros Hlt. by destruct (Z.ltb_spec (BlockTime ctx) (CurrentEpochStartUnix info + DurationSeconds info)); [|lia].
  - intros Hge k1 Hk1.
    destruct (Z.ltb_spec (BlockTime ctx) (CurrentEpochStartUnix info + DurationSeconds info)); [lia|].
    rewrite bool_decide_eq_false_2 by (intros Hn; by apply Hn). unfold mbind, M_bind. by rewrite Hk1.
Qed.

(** The length of the epoch that the first end of block writes to the
    store is read from an environment variable of the node, so that two nodes
    with different environments compute different states from the same block. *)
Theorem epoch_depends_on_environment ctx (k : K) : epoch k = None ->
  exists e1 e2, TickCircuitEpoch ctx "" k = (Ok tt, set_epoch (Some e1) k) /\
    TickCircuitEpoch ctx "60" k = (Ok tt, set_epoch (Some e2) k) /\
    DurationSeconds e1 = 86400 /\ DurationSeconds e2 = 60.
Proof.
  intros He. unfold TickCircuitEpoch, mbind, M_bind, gets. rewrite He.
  eexists _, _. split; [reflexivity|]. split; [reflexivity|]. done.
Qed.

End EpochProofs.

(** ** Witnesses *)

Module DepositWitness.
Import Ref RefLaws RefBank RefBankLaws CircuitRef.
Local Open Scope string_scope.

(** Bob's deposit ran out at second 5; Bob has one circuit, and uploads are
    closed to all but depositors. *)
Definition closed : Params := mkParams AllowNobody AccessTypeEverybody AllowNobody "".
Definition bob_info : CircuitInfo := mkCircuitInfo "h" "addrbob" AllowEverybody 0 0 0 0.
Definition empty_reg : Registry := mkRegistry ∅ ∅ ∅ ∅ ∅ ∅ ∅ ∅ ∅.
Definition reg1 : Registry := add_circuit "bob" 1 7 bob_info "blob" empty_reg.
Definition dep1 : Deposits := put_deposit "bob" 5 (mkDeposits ∅ ∅ ∅).
Definition bank1 : ref_bank := mkBank {[("bob", "stake") := 9000000%Z]} ∅ ∅.
Definition k1 : Keeper ref_bank meter := mkKeeper closed bank1 (mkMeter 0 1000) reg1 dep1 None.
Definition block10 : BlockCtx := mkBlock 10 2 false.

Lemma k1_ok : keeper_ok k1.
Proof.
  split; [| |done].
  - apply add_circuit_ok; [|cbv; lia|done|done|done].
    split; [|by intros ? [? ?]]. exists 1%Z. by split_and!; try (intros ? [? ?]).
  - apply put_deposit_ok; [|cbv; lia|done]. split; [by intros ? [? ?]|done|by intros ? [? ?]].
Defined.

Lemma prune_spares_covered_witness : exists k', PruneExpiredCircuitDeposits block10 k1 = (Ok tt, k') /\
  (size (infos (reg k1)) <= size (infos (reg k')) + 2)%nat.
Proof.
  destruct (prune_spares_covered block10 eq_refl k1 k1_ok) as (k'&E&_&Hs&_).
  exists k'. split; [exact E|exact Hs].
Defined.

Lemma prune_catches_up_witness : exists n k', (n <= backlog k1)%nat /\
  prune_blocks block10 n k1 = (Ok tt, k') /\ gcq (dep k') = ∅.
Proof.
  destruct (prune_catches_up block10 eq_refl k1 k1_ok) as (n&k'&Hn&E&_&Hg&_).
  exists n, k'. split; [exact Hn|split; [exact E|exact Hg]].
Defined.

Lemma pay_deposit_effect_witness : exists k',
  PayCircuitDeposit block10 (mkCoin "" 0) "bob" 2 k1 = (Ok 63072010%Z, k') /\ keeper_ok k'.
Proof.
  destruct (PayCircuitDeposit block10 (mkCoin "" 0) "bob" 2 k1) as [r k'] eqn:E.
  assert (r = Ok 63072010%Z) as ->.
  { apply (f_equal fst) in E. cbn [fst] in E. rewrite <- E. vm_compute. reflexivity. }
  exists k'. split; [reflexivity|].
  destruct (pay_deposit_effect block10 (mkCoin "" 0) "bob" 2 k1 k' 63072010 k1_ok) as (_&_&Hk&_);
    [cbv; lia|done|vm_compute; done|exact E|exact Hk].
Defined.

(** The positive balances of an account, sorted by denomination. *)
Definition all_balances (b : ref_bank) (a : string) : list Coin :=
  coins_sort (map (fun kv => mkCoin kv.1.2 kv.2)
    (map_to_list (filter (fun kv => kv.1.1 = a /\ (0 < kv.2)%Z) (bal b)))).

#[local] Instance pool_ops : PoolOps ref_bank := {|
  GetBondedValidatorsByPower := Ok [mkValidator "v1" false; mkValidator "v2" false; mkValidator "v3" true];
  ValAddressFromBech32 s := Ok s;
  circuitWeight := None;
  GetAllBalances := all_balances |}.

Lemma all_balances_elem b a d n : mkCoin d n ∈ all_balances b a <-> bal b !! (a, d) = Some n /\ (0 < n)%Z.
Proof.
  unfold all_balances. rewrite coins_sort_perm, list_elem_of_fmap. split.
  - intros ([[a' d'] n']&[= -> ->]&Hin). apply elem_of_map_to_list, map_lookup_filter_Some in Hin as [Hb [Ha Hn]].
    cbn in *. by subst.
  - intros [Hb Hn]. exists ((a, d), n). split; [done|]. apply elem_of_map_to_list, map_lookup_filter_Some. done.
Qed.

Lemma all_balances_nodup b a : NoDup (denoms (all_balances b a)).
Proof.
  unfold all_balances, denoms. rewrite coins_sort_perm, map_map. cbn.
  set (m := filter _ (bal b)).
  assert (Hm : forall k z, (k, z) ∈ map_to_list m -> k.1 = a).
  { intros k z Hin. by apply elem_of_map_to_list, map_lookup_filter_Some in Hin as [_ [? _]]. }
  pose proof (NoDup_fst_map_to_list m) as Hnd. induction (map_to_list m) as [|[[a' d] z] l IH]; [constructor|].
  cbn in Hnd |- *. apply NoDup_cons in Hnd as [Hk Hnd]. constructor.
  - intros ([[a2 d2] z2]&E&Hin)%list_elem_of_fmap. cbn in E. subst d2. apply Hk, list_elem_of_fmap.
    exists ((a', d), z2). split; [done|]. pose proof (Hm (a', d) z ltac:(set_solver)) as Ha1.
    pose proof (Hm (a2, d) z2 ltac:(set_solver)) as Ha2. cbn in Ha1, Ha2. by subst.
  - apply IH; [|done]. intros k z' Hin. apply (Hm k z'). set_solver.
Qed.

#[local] Instance pool_laws : PoolLaws ref_bank.
Proof.
  split.
  - intros b a Hs. cbn [GetAllBalances pool_ops]. pose proof (all_balances_nodup b a) as Hnd.
    assert (Hel : forall x, x ∈ all_balances b a -> bal b !! (a, Denom x) = Some (Amount x) /\ (0 < Amount x)%Z).
    { intros [d n] Hx. by apply all_balances_elem in Hx. }
    split_and!.
    + split; [|apply Forall_forall; intros x Hx; by apply Hel].
      unfold all_balances in *. apply coins_sort_sorted. unfold denoms in *. by rewrite coins_sort_perm in Hnd.
    + intros d. destruct (Hs d) as [Hnn _]. cbn in *. unfold get_bal in *.
      destruct (bal b !! (a, d)) as [n|] eqn:E; cbn in *.
      * destruct (decide (0 < n)%Z) as [Hn|Hn].
        -- apply (amount_of_in _ (mkCoin d n)); [done|]. by apply all_balances_elem.
        -- rewrite amount_of_not_in; [lia|]. intros (x&->&Hx)%list_elem_of_fmap.
           apply Hel in Hx as [Hx ?]. rewrite E in Hx. injection Hx as ->. done.
      * apply amount_of_not_in. intros (x&->&Hx)%list_elem_of_fmap. apply Hel in Hx as [Hx _]. congruence.
    + apply Forall_forall. intros x Hx. apply Hel in Hx as [Hx Hpos]. destruct (Hs (Denom x)) as [_ Hv].
      apply Hv. cbn. unfold get_bal. rewrite Hx. cbn. lia.
  - intros m t c b _ _ Hfunds. cbn in *. unfold send. go_run.
    assert (has_funds b (mod_addr m) c = true) as ->; [|by eexists].
    apply forallb_forall. intros d _. apply Z.leb_le. auto.
Qed.

Definition k2 : Keeper ref_bank meter :=
  mkKeeper closed (mkBank {[(mod_addr CircuitValPoolName, "stake") := 7%Z]} ∅ ∅) (mkMeter 0 1000) reg1 dep1 None.

Lemma settle_pays_shares_witness : exists b,
  settleCircuitValPool k2 = (Ok tt, set_bank b k2) /\ balance b "v1" "stake" = 3%Z.
Proof.
  destruct (settle_pays_shares [mkValidator "v1" false; mkValidator "v2" false; mkValidator "v3" true] k2)
    as (b&E&Hb).
  - reflexivity.
  - repeat constructor; eexists; (split; [reflexivity|split; [reflexivity|discriminate]]).
  - cbv. split; reflexivity.
  - intros d. cbn. unfold get_bal. destruct (decide (d = "stake")) as [->|Hd].
    + rewrite lookup_singleton_eq. by split.
    + rewrite lookup_singleton_ne by congruence. by split.
  - exists b. split; [exact E|]. destruct (Hb "v1" "stake") as [-> _]. reflexivity.
Defined.

Lemma epoch_settles_once_witness :
  TickCircuitEpoch block10 "" (set_epoch (Some (mkEpochInfo "day" 86400 0 0 1)) k2)
  = (Ok tt, set_epoch (Some (mkEpochInfo "day" 86400 0 0 1)) k2).
Proof.
  apply (epoch_settles_once block10 "" (mkEpochInfo "day" 86400 0 0 1)
    (set_epoch (Some (mkEpochInfo "day" 86400 0 0 1)) k2)); reflexivity || discriminate.
Defined.

Lemma epoch_depends_on_environment_witness : exists e1 e2,
  TickCircuitEpoch block10 "" k2 = (Ok tt, set_epoch (Some e1) k2) /\
  TickCircuitEpoch block10 "60" k2 = (Ok tt, set_epoch (Some e2) k2) /\
  DurationSeconds e1 = 86400%Z /\ DurationSeconds e2 = 60%Z.
Proof. apply (epoch_depends_on_environment block10 k2). reflexivity. Defined.

End DepositWitness.
