(* ===== verification/WasmMsgs.v ===== *)
(** * x/wasm: messages

    The messages of the module and their basic validation, the messages a
    contract may return, and the encoders that turn those into messages signed
    by the contract. *)

From Stdlib Require Import ZArith Lia Ascii.
From stdpp Require Import base gmap strings list.
From S2P Require Import Prelude Sdk SdkRef Store GoLib Bank WasmAccess WasmGas WasmDispatch WasmCircuits.
From S2P Require Import WasmContracts WasmPackets WasmLifecycle WasmDeposits.

(** ** Messages of the module *)

(** The messages the message server handles; [auth] is the parameter K of the
    optional circuit authorisation. *)
Inductive TxMsg :=
| MsgStoreCode (Sender WASMByteCode : string) (InstantiatePermission : option AccessConfig)
| MsgInstantiateContract (Sender Admin : string) (CodeID : Z) (Label Msg : string) (Funds : list Coin)
| MsgInstantiateContract2 (Sender Admin : string) (CodeID : Z) (Label Msg : string) (Funds : list Coin)
    (Salt : string) (FixMsg : bool)
| MsgExecuteContract (Sender Contract Msg : string) (Funds : list Coin)
| MsgMigrateContract (Sender Contract : string) (CodeID : Z) (Msg : string)
| MsgUpdateAdmin (Sender NewAdmin Contract : string)
| MsgClearAdmin (Sender Contract : string)
| MsgUpdateInstantiateConfig (Sender : string) (CodeID : Z) (NewInstantiatePermission : option AccessConfig)
| MsgUpdateContractLabel (Sender NewLabel Contract : string)
| MsgUpdateParams (Authority : string) (Params : Params)
| MsgSudoContract (Authority Contract Msg : string)
| MsgPinCodes (Authority : string) (CodeIDs : list Z)
| MsgUnpinCodes (Authority : string) (CodeIDs : list Z)
| MsgUnpinCircuits (Authority : string) (ZkIDs : list Z)
| MsgStoreAndInstantiateContract (Authority WASMByteCode : string) (InstantiatePermission : option AccessConfig)
    (Admin Label Msg : string) (Funds : list Coin) (Source Builder : string) (CodeHash : option string)
| MsgStoreAndMigrateContract (Authority WASMByteCode : string) (InstantiatePermission : option AccessConfig)
    (Contract Msg : string)
| MsgAddCodeUploadParamsAddresses (Authority : string) (Addresses : list string)
| MsgRemoveCodeUploadParamsAddresses (Authority : string) (Addresses : list string)
| MsgAddCircuitUploadParamsAddresses (Authority : string) (Addresses : list string)
| MsgRemoveCircuitUploadParamsAddresses (Authority : string) (Addresses : list string)
| MsgStoreVkParam (Sender : string) (CircuitParamAuth : option Z) (CsParam : string)
| MsgStoreCircuit (Sender : string) (CircuitParamKey : Z) (CircuitBinaryFile : string)
    (InstantiatePermission : option AccessConfig)
| MsgStoreFullCircuit (Sender : string) (Auth : option Z) (CircuitParamBinaryFile CircuitVkBinaryFile : string)
| MsgPayCircuitDeposit (Sender : string) (Years : Z).

(** [net/url] and docker references. *)
Class TextOps := {
  ParseRequestURI : string -> res unit;
  ParseDockerRef : string -> res unit
}.

(** ** Validation *)

Section Validation.
Context `{Bech32} `{SdkCoins} `{JsonOps} `{TextOps} `{Unicode}.

Definition MaxLabelSize : nat := 128.
Definition maxCodeIDCount : nat := 50.

Definition validateWasmCode (s : string) (maxSize : Z) : res unit :=
  refuse (String.length s =? 0)%nat "ErrEmpty";;
  refuse (maxSize <? slen s) "ErrLimit".

Definition validateCircuitCode (s : string) (maxSize : Z) : res unit :=
  refuse (String.length s =? 0)%nat "ErrEmpty";;
  refuse (maxSize <? slen s) "ErrLimit";;
  refuse (String.length s <? 10)%nat "ErrLimit".

Definition ValidateLabel (label : string) : res unit :=
  refuse (bool_decide (label = ""%string)) "ErrEmpty";;
  refuse (MaxLabelSize <? String.length label)%nat "ErrLimit";;
  ensure (bool_decide (label = TrimSpace label)) "ErrInvalid";;
  ensure (bool_decide (label = printable_only label)) "ErrInvalid".

Definition ValidateVerificationInfo (source builder : string) (codeHash : option string) : res unit :=
  if bool_decide (source = ""%string) && bool_decide (builder = ""%string)
     && bool_decide (default ""%string codeHash = ""%string) then Ok tt
  else
    refuse (bool_decide (source = ""%string)) "source is required";;
    ParseRequestURI source;;
    refuse (bool_decide (builder = ""%string)) "builder is required";;
    ParseDockerRef builder;;
    ensure (bool_decide (is_Some codeHash)) "code hash is required".

(** [hasDuplicates], with the ids seen so far. *)
Fixpoint has_duplicates (index : gset Z) (s : list Z) : bool :=
  match s with
  | [] => false
  | v :: s => if bool_decide (v ∈ index) then true else has_duplicates ({[v]} ∪ index) s
  end.

Definition validateCodeIDs (codeIDs : list Z) : res unit :=
  refuse (length codeIDs =? 0)%nat "ErrInvalidRequest";;
  refuse (maxCodeIDCount <? length codeIDs)%nat "ErrInvalidRequest";;
  refuse (has_duplicates ∅ codeIDs) "ErrInvalidRequest".

Definition is_address (s : string) : res unit := AccAddressFromBech32 s;; Ok tt.

Definition optional_admin (admin : string) : res unit :=
  if (String.length admin =? 0)%nat then Ok tt else is_address admin.

Definition optional_permission (p : option AccessConfig) : res unit :=
  match p with Some a => AccessConfig_ValidateBasic a | None => Ok tt end.

(** [errorsmod.Wrapf(ErrInvalidRequest, ...)]. *)
Definition invalid_request {A} : res A -> res A := wrap_err "ErrInvalidRequest".

Definition validate_store_code (sender code : string) (perm : option AccessConfig) : res unit :=
  is_address sender;;
  invalid_request (validateWasmCode code MaxWasmSize);;
  optional_permission perm.

Definition validate_instantiate (sender admin : string) (codeID : Z) (label msg : string) (funds : list Coin)
    : res unit :=
  is_address sender;;
  refuse (codeID =? 0) "ErrInvalidRequest";;
  ValidateLabel label;;
  Coins_Validate funds;;
  optional_admin admin;;
  RawContractMessage_ValidateBasic msg.

Definition validate_instantiate2 (sender admin : string) (codeID : Z) (label msg : string) (funds : list Coin)
    (salt : string) : res unit :=
  is_address sender;;
  refuse (codeID =? 0) "ErrInvalidRequest";;
  ValidateLabel label;;
  Coins_Validate funds;;
  optional_admin admin;;
  RawContractMessage_ValidateBasic msg;;
  ValidateSalt salt.

Definition validate_execute (sender contract msg : string) (funds : list Coin) : res unit :=
  is_address sender;;
  is_address contract;;
  Coins_Validate funds;;
  RawContractMessage_ValidateBasic msg.

Definition validate_migrate (sender contract : string) (codeID : Z) (msg : string) : res unit :=
  refuse (codeID =? 0) "ErrInvalidRequest";;
  is_address sender;;
  is_address contract;;
  RawContractMessage_ValidateBasic msg.

(** [strings.EqualFold] on addresses, which are ASCII once they decode. *)
Definition validate_update_admin (sender newAdmin contract : string) : res unit :=
  is_address sender;;
  is_address contract;;
  is_address newAdmin;;
  refuse (String.eqb (to_upper sender) (to_upper newAdmin)) "ErrInvalid".

Definition validate_clear_admin (sender contract : string) : res unit :=
  is_address sender;;
  is_address contract.

Definition validate_update_config (sender : string) (codeID : Z) (perm : option AccessConfig) : res unit :=
  is_address sender;;
  refuse (codeID =? 0) "ErrInvalidRequest";;
  match perm with
  | None => Err "ErrInvalidRequest"
  | Some a => AccessConfig_ValidateBasic a
  end.

Definition validate_update_label (sender newLabel contract : string) : res unit :=
  is_address sender;;
  ValidateLabel newLabel;;
  is_address contract.

Definition validate_update_params (authority : string) (p : Params) : res unit :=
  is_address authority;;
  Params_ValidateBasic p.

Definition validate_pin (authority : string) (ids : list Z) : res unit :=
  is_address authority;;
  validateCodeIDs ids.

Definition validate_sudo (authority contract msg : string) : res unit :=
  is_address authority;;
  is_address contract;;
  RawContractMessage_ValidateBasic msg.

Definition validate_store_and_instantiate (authority code : string) (perm : option AccessConfig)
    (admin label msg : string) (funds : list Coin) (source builder : string) (codeHash : option string) : res unit :=
  is_address authority;;
  ValidateLabel label;;
  Coins_Validate funds;;
  optional_admin admin;;
  ValidateVerificationInfo source builder codeHash;;
  RawContractMessage_ValidateBasic msg;;
  invalid_request (validateWasmCode code MaxWasmSize);;
  optional_permission perm.

Definition validate_store_and_migrate (authority code : string) (perm : option AccessConfig)
    (contract msg : string) : res unit :=
  is_address authority;;
  is_address contract;;
  RawContractMessage_ValidateBasic msg;;
  invalid_request (validateWasmCode code MaxWasmSize);;
  optional_permission perm.

Definition validate_upload_addresses (authority : string) (addresses : list string) : res unit :=
  is_address authority;;
  validateBech32Addresses addresses.

Definition validate_store_vk_param (sender : string) (auth : option Z) (csParam : string) : res unit :=
  is_address sender;;
  match auth with
  | None => Err "ErrInvalidRequest"
  | Some k => refuse (k =? 0) "ErrInvalidRequest"
  end;;
  invalid_request (validateCircuitCode csParam MaxCircuitSize).

Definition validate_store_circuit (sender : string) (paramKey : Z) (binary : string) (perm : option AccessConfig)
    : res unit :=
  is_address sender;;
  refuse (paramKey =? 0) "ErrInvalidRequest";;
  invalid_request (validateCircuitCode binary MaxCircuitSize);;
  optional_permission perm.

Definition validate_store_full_circuit (sender : string) (auth : option Z) (param vk : string) : res unit :=
  is_address sender;;
  match auth with
  | None => Err "ErrInvalidRequest"
  | Some k => refuse (k =? 0) "ErrInvalidRequest"
  end;;
  invalid_request (validateCircuitCode param MaxCircuitSize);;
  invalid_request (validateCircuitCode vk MaxCircuitSize).

Definition TxMsg_ValidateBasic (m : TxMsg) : res unit :=
  match m with
  | MsgStoreCode s c p => validate_store_code s c p
  | MsgInstantiateContract s a id l m f => validate_instantiate s a id l m f
  | MsgInstantiateContract2 s a id l m f salt _ => validate_instantiate2 s a id l m f salt
  | MsgExecuteContract s c m f => validate_execute s c m f
  | MsgMigrateContract s c id m => validate_migrate s c id m
  | MsgUpdateAdmin s n c => validate_update_admin s n c
  | MsgClearAdmin s c => validate_clear_admin s c
  | MsgUpdateInstantiateConfig s id p => validate_update_config s id p
  | MsgUpdateContractLabel s l c => validate_update_label s l c
  | MsgUpdateParams a p => validate_update_params a p
  | MsgSudoContract a c m => validate_sudo a c m
  | MsgPinCodes a ids | MsgUnpinCodes a ids | MsgUnpinCircuits a ids => validate_pin a ids
  | MsgStoreAndInstantiateContract a c p ad l m f s b h => validate_store_and_instantiate a c p ad l m f s b h
  | MsgStoreAndMigrateContract a c p ct m => validate_store_and_migrate a c p ct m
  | MsgAddCodeUploadParamsAddresses a l | MsgRemoveCodeUploadParamsAddresses a l
  | MsgAddCircuitUploadParamsAddresses a l | MsgRemoveCircuitUploadParamsAddresses a l =>
      validate_upload_addresses a l
  | MsgStoreVkParam s a b => validate_store_vk_param s a b
  | MsgStoreCircuit s k b p => validate_store_circuit s k b p
  | MsgStoreFullCircuit s a p v => validate_store_full_circuit s a p v
  | MsgPayCircuitDeposit s y => MsgPayCircuitDeposit_ValidateBasic s y
  end.

End Validation.

(** ** Messages of a contract *)

(** A coin of the virtual machine, denomination and decimal amount. *)
Abbreviation WasmCoin := (string * string)%type.

(** The variants of a [CosmosMsg] are pointers: any number of them may be set,
    and so may the cases of a variant. *)
Record BankMsg := mkBankMsg { Send : option (string * list WasmCoin); Burn : option (list WasmCoin) }.

Record DistributionMsg := mkDistributionMsg {
  SetWithdrawAddress : option string; WithdrawDelegatorReward : option string;
  Distr_FundCommunityPool : option (list WasmCoin) }.

(** Validators and amount. *)
Record StakingMsg := mkStakingMsg {
  Delegate : option (string * WasmCoin); Undelegate : option (string * WasmCoin);
  Redelegate : option (string * string * WasmCoin) }.

Inductive VoteChoice := VoteYes | VoteNo | VoteNoWithVeto | VoteAbstain | VoteUnset.
Record GovMsg := mkGovMsg {
  Vote : option (Z * VoteChoice); VoteWeighted : option (Z * list (VoteChoice * string)) }.

Record TransferMsg := mkTransferMsg {
  TrChannel : string; TrTo : string; TrAmount : WasmCoin; TrTimeout : IBCTimeout; TrMemo : string }.
Record IBCMsg := mkIBCMsg {
  Transfer : option TransferMsg;
  SendPacket : option (string * string * IBCTimeout);
  WriteAcknowledgement : option (string * Z * string);
  CloseChannel : option string }.

Record IBC2Msg := mkIBC2Msg {
  SendPacketV2 : option (string * Z * list IBC2Payload);
  WriteAcknowledgementV2 : option (string * Z * string) }.

Record AnyMsg := mkAnyMsg { AnyTypeURL : string; AnyValue : string }.

(** Contract, message and funds; code, label, admin, message and funds; and so on. *)
Record WasmMsg := mkWasmMsg {
  Execute : option (string * string * list WasmCoin);
  Instantiate_ : option (Z * string * string * string * list WasmCoin);
  Instantiate2 : option (Z * string * string * string * list WasmCoin * string);
  Migrate : option (string * Z * string);
  UpdateAdmin : option (string * string);
  ClearAdmin : option string }.

Record CosmosMsg := mkCosmosMsg {
  cmBank : option BankMsg; cmCustom : option string; cmDistribution : option DistributionMsg; cmGov : option GovMsg;
  cmIBC : option IBCMsg; cmIBC2 : option IBC2Msg; cmStaking : option StakingMsg; cmAny : option AnyMsg;
  cmWasm : option WasmMsg }.

#[export] Instance cosmos_msg_ops : CosmosMsgOps CosmosMsg :=
  { isWasm m := match cmWasm m with Some _ => true | None => false end }.

(** ** Messages of the chain *)

Inductive VoteOption := OptionYes | OptionAbstain | OptionNo | OptionNoWithVeto.

(** The messages a contract's message is encoded to, by module; [OtherMsg] is
    any other message of the chain. *)
Inductive SdkMsg :=
| TxM (m : TxMsg)
| MsgSend (FromAddress ToAddress : string) (amount : list Coin)
| MsgSetWithdrawAddress (DelegatorAddress WithdrawAddress : string)
| MsgWithdrawDelegatorReward (DelegatorAddress ValidatorAddress : string)
| MsgFundCommunityPool (Depositor : string) (amount : list Coin)
| MsgDelegate (DelegatorAddress ValidatorAddress : string) (amount : Coin)
| MsgBeginRedelegate (DelegatorAddress ValidatorSrcAddress ValidatorDstAddress : string) (amount : Coin)
| MsgUndelegate (DelegatorAddress ValidatorAddress : string) (amount : Coin)
| MsgChannelCloseInit (PortId ChannelId Signer : string)
| MsgTransfer (SrcPort SrcChannel : string) (Token : Coin) (Sender Receiver : string) (Timeout_ : Height)
    (TimeoutStamp : Z) (Memo : string)
| MsgSendPacketV2 (SourceClient : string) (TimeoutStamp : Z) (Payloads : list IBC2Payload) (Signer : string)
| MsgVote (ProposalId : Z) (Voter : string) (Option_ : VoteOption)
| MsgVoteWeighted (ProposalId : Z) (Voter : string) (Options : list (VoteOption * string))
| OtherMsg (TypeUrl Value_ : string).

(** [NewIntFromString], a decimal in its canonical text, and the interface
    registry of the codec. *)
Class CodecOps := {
  NewIntFromString : string -> option Z;
  DecCanonical : string -> res string;
  UnpackAny : string -> string -> option SdkMsg;
  UnpackInterfaces : SdkMsg -> res unit
}.

(** ** Encoders *)

Section Encoders.
Context `{Bech32} `{SdkCoins} `{CodecOps} `{AddressOps}.

Definition ConvertWasmCoinToSdkCoin (coin : WasmCoin) : res Coin :=
  match NewIntFromString coin.2 with
  | None => Err "ErrInvalidCoins"
  | Some amount =>
      let r := mkCoin coin.1 amount in
      ensure (Coin_IsValid r) "invalid coin";;
      mret r
  end.

Fixpoint convert_coins (coins : list WasmCoin) (toSend : list Coin) : res (list Coin) :=
  match coins with
  | [] => mret (coins_sort toSend)
  | coin :: coins =>
      c ← ConvertWasmCoinToSdkCoin coin;
      convert_coins coins (coins_add toSend [c])
  end.

Definition ConvertWasmCoinsToSdkCoins (coins : list WasmCoin) : res (list Coin) := convert_coins coins [].

Definition unknown_msg {A} : res A := Err "ErrUnknownMsg".

Definition EncodeBankMsg (sender : string) (msg : BankMsg) : res (list SdkMsg) :=
  match Send msg with
  | None => unknown_msg
  | Some (to, amount) =>
      if (length amount =? 0)%nat then mret []
      else
        toSend ← ConvertWasmCoinsToSdkCoins amount;
        mret [MsgSend (address_text sender) to toSend]
  end.

Definition NoCustomMsg (sender msg : string) : res (list SdkMsg) := unknown_msg.

Definition EncodeDistributionMsg (sender : string) (msg : DistributionMsg) : res (list SdkMsg) :=
  match SetWithdrawAddress msg, WithdrawDelegatorReward msg, Distr_FundCommunityPool msg with
  | Some address, _, _ => mret [MsgSetWithdrawAddress (address_text sender) address]
  | _, Some validator, _ => mret [MsgWithdrawDelegatorReward (address_text sender) validator]
  | _, _, Some amount =>
      amt ← ConvertWasmCoinsToSdkCoins amount;
      mret [MsgFundCommunityPool (address_text sender) amt]
  | _, _, _ => unknown_msg
  end.

Definition EncodeStakingMsg (sender : string) (msg : StakingMsg) : res (list SdkMsg) :=
  match Delegate msg, Redelegate msg, Undelegate msg with
  | Some (validator, amount), _, _ =>
      coin ← ConvertWasmCoinToSdkCoin amount;
      mret [MsgDelegate (address_text sender) validator coin]
  | _, Some (src, dst, amount), _ =>
      coin ← ConvertWasmCoinToSdkCoin amount;
      mret [MsgBeginRedelegate (address_text sender) src dst coin]
  | _, _, Some (validator, amount) =>
      coin ← ConvertWasmCoinToSdkCoin amount;
      mret [MsgUndelegate (address_text sender) validator coin]
  | _, _, _ => unknown_msg
  end.

Definition EncodeWasmMsg (sender : string) (msg : WasmMsg) : res (list SdkMsg) :=
  match Execute msg, Instantiate_ msg, Instantiate2 msg with
  | Some (contract, m, funds), _, _ =>
      coins ← ConvertWasmCoinsToSdkCoins funds;
      mret [TxM (MsgExecuteContract (address_text sender) contract m coins)]
  | _, Some (codeID, label, m, admin, funds), _ =>
      coins ← ConvertWasmCoinsToSdkCoins funds;
      mret [TxM (MsgInstantiateContract (address_text sender) admin codeID label m coins)]
  | _, _, Some (codeID, label, m, admin, funds, salt) =>
      coins ← ConvertWasmCoinsToSdkCoins funds;
      mret [TxM (MsgInstantiateContract2 (address_text sender) admin codeID label m coins salt false)]
  | _, _, _ =>
      match Migrate msg, ClearAdmin msg, UpdateAdmin msg with
      | Some (contract, codeID, m), _, _ => mret [TxM (MsgMigrateContract (address_text sender) contract codeID m)]
      | _, Some contract, _ => mret [TxM (MsgClearAdmin (address_text sender) contract)]
      | _, _, Some (contract, admin) => mret [TxM (MsgUpdateAdmin (address_text sender) admin contract)]
      | _, _, _ => unknown_msg
      end
  end.

(** [transferPort] is the port of the transfer module. *)
Definition EncodeIBCMsg (transferPort sender : string) (msg : IBCMsg) : res (list SdkMsg) :=
  match CloseChannel msg, Transfer msg with
  | Some channel, _ => mret [MsgChannelCloseInit (PortIDForContract sender) channel (address_text sender)]
  | _, Some t =>
      amount ← ConvertWasmCoinToSdkCoin (TrAmount t);
      mret [MsgTransfer transferPort (TrChannel t) amount (address_text sender) (TrTo t)
              (ConvertWasmIBCTimeoutHeightToCosmosHeight (TimeoutBlock (TrTimeout t))) (Timestamp (TrTimeout t)) (TrMemo t)]
  | _, _ => unknown_msg
  end.

(** [time.Unix(0, int64(ns)).Unix()]: whole seconds, rounded down. *)
Definition unix_seconds (ns : Z) : Z := u64 (i64 ns / 10 ^ 9).

Definition EncodeIBCv2Msg (sender : string) (msg : IBC2Msg) : res (list SdkMsg) :=
  match SendPacketV2 msg with
  | Some (client, timeout, payloads) =>
      mret [MsgSendPacketV2 client (unix_seconds timeout) payloads (address_text sender)]
  | None => unknown_msg
  end.

Definition convertVoteOption (s : VoteChoice) : res VoteOption :=
  match s with
  | VoteYes => mret OptionYes
  | VoteNo => mret OptionNo
  | VoteNoWithVeto => mret OptionNoWithVeto
  | VoteAbstain => mret OptionAbstain
  | VoteUnset => Err "ErrInvalid"
  end.

Fixpoint convert_votes (l : list (VoteChoice * string)) : res (list (VoteOption * string)) :=
  match l with
  | [] => mret []
  | (c, w) :: l =>
      weight ← DecCanonical w;
      voteOption ← convertVoteOption c;
      r ← convert_votes l;
      mret ((voteOption, weight) :: r)
  end.

Definition EncodeGovMsg (sender : string) (msg : GovMsg) : res (list SdkMsg) :=
  match Vote msg, VoteWeighted msg with
  | Some (id, choice), _ =>
      voteOption ← convertVoteOption choice;
      mret [MsgVote id (address_text sender) voteOption]
  | _, Some (id, options) =>
      opts ← convert_votes options;
      mret [MsgVoteWeighted id (address_text sender) opts]
  | _, _ => unknown_msg
  end.

Definition MaxAnyMsgValueSize : Z := 512 * 1024.
Definition AnyMsgBaseGasCost : Z := 5.
Definition AnyMsgPerKBGasCost : Z := 1.

Section WithGas.
Context {S G : Type} `{GasMeterOps G}.

Definition EncodeAnyMsg (sender : string) (msg : AnyMsg) : M (World S G) (list SdkMsg) :=
  refuseM (MaxAnyMsgValueSize <? slen (AnyValue msg)) "ErrLimit";;
  charge (u64 (AnyMsgBaseGasCost + u64 (AnyMsgPerKBGasCost * slen (AnyValue msg)) / 1024));;
  match UnpackAny (AnyTypeURL msg) (AnyValue msg) with
  | None => throw "ErrInvalidMsg"
  | Some sdkMsg =>
      lift (wrap_err "ErrInvalidMsg" (UnpackInterfaces sdkMsg));;
      mret [sdkMsg]
  end.

(** [MessageEncoders.Encode] with the default encoders: the first variant set. *)
Definition MessageEncoders_Encode (transferPort contractAddr : string) (msg : CosmosMsg) : M (World S G) (list SdkMsg) :=
  match cmBank msg, cmCustom msg, cmDistribution msg with
  | Some m, _, _ => lift (EncodeBankMsg contractAddr m)
  | _, Some m, _ => lift (NoCustomMsg contractAddr m)
  | _, _, Some m => lift (EncodeDistributionMsg contractAddr m)
  | _, _, _ =>
      match cmIBC msg, cmIBC2 msg, cmStaking msg with
      | Some m, _, _ => lift (EncodeIBCMsg transferPort contractAddr m)
      | _, Some m, _ => lift (EncodeIBCv2Msg contractAddr m)
      | _, _, Some m => lift (EncodeStakingMsg contractAddr m)
      | _, _, _ =>
          match cmAny msg, cmWasm msg, cmGov msg with
          | Some m, _, _ => EncodeAnyMsg contractAddr m
          | _, Some m, _ => lift (EncodeWasmMsg contractAddr m)
          | _, _, Some m => lift (EncodeGovMsg contractAddr m)
          | _, _, _ => throw "ErrUnknownMsg"
          end
      end
  end.

End WithGas.
End Encoders.
