(* ===== verification/WasmServer.v ===== *)
(** * x/wasm: the message server and the dispatcher

    The handlers of the module's messages, the messenger that executes what a
    contract asks for, and the two tied together: the messages of a contract are
    handled by the same server, one call deeper. *)

From Stdlib Require Import ZArith Lia Ascii.
From stdpp Require Import base gmap strings list.
From S2P Require Import Prelude Sdk SdkRef Store GoLib Bank WasmAccess WasmGas WasmDispatch WasmCircuits.
From S2P Require Import WasmContracts WasmPackets WasmLifecycle WasmSteps WasmRefine WasmIBC WasmDeposits WasmMsgs.

(** ** Dependencies *)

(** [sdk.ValidateAuthority]: whether the second address is the authority of the
    chain, the first one unless the consensus parameters name another. *)
Class AuthorityOps := { ValidateAuthority : string -> string -> res unit }.

(** The channel keepers of both protocol versions, and the marshalled responses
    of packet messages with their type. *)
Class PacketOps (X : Type) := {
  ics4_SendPacket : string -> string -> Height -> Z -> string -> M X Z;
  ics4_WriteAcknowledgement : Packet -> string -> M X unit;
  GetAsyncPacket : string -> Z -> X -> option (list IBC2Payload);
  v2_WriteAcknowledgement : string -> Z -> string -> M X unit;
  MarshalSendResponse : Z -> res (string * MsgResponse);
  MarshalAckResponse : res (string * MsgResponse)
}.

(** ** Messages that are not SDK messages *)

Section RawHandlers.
Context {B A Acct X G : Type} `{BankOps B} `{SdkCoins} `{CodecOps} `{Bech32} `{AddressOps} `{PacketOps X}.

Abbreviation W := (World (Chain B A X) G).

Definition packet_result (r : res (string * MsgResponse)) : M W CallResult :=
  p ← lift r;
  mret (mkCall [] [p.1] [[p.2]]).

Definition IBCRawPacketHandler_DispatchMsg (contractAddr contractIBCPortID : string) (msg : CosmosMsg) : M W CallResult :=
  match cmIBC msg with
  | None => throw "ErrUnknownMsg"
  | Some ibc =>
      match SendPacket ibc, WriteAcknowledgement ibc with
      | Some (channel, data, timeout), _ =>
          refuseM (bool_decide (contractIBCPortID = ""%string)) "ErrUnsupportedForContract";;
          refuseM (bool_decide (channel = ""%string)) "ErrEmpty";;
          seq ← with_rest (ics4_SendPacket contractIBCPortID channel
                  (ConvertWasmIBCTimeoutHeightToCosmosHeight (TimeoutBlock timeout)) (Timestamp timeout) data);
          packet_result (MarshalSendResponse seq)
      | _, Some (channel, sequence, ack) =>
          refuseM (bool_decide (contractIBCPortID = ""%string)) "ErrUnsupportedForContract";;
          refuseM (bool_decide (channel = ""%string)) "ErrEmpty";;
          s ← gets (fun w => ch_async (store w));
          packet ← lift (wrap_err "ErrInvalid" (LoadAsyncAckPacket contractIBCPortID channel sequence s));
          with_rest (ics4_WriteAcknowledgement packet ack);;
          with_async (DeleteAsyncAckPacket contractIBCPortID channel sequence);;
          packet_result MarshalAckResponse
      | _, _ => throw "ErrUnknownMsg"
      end
  end.

Definition IBC2RawPacketHandler_DispatchMsg (contractAddr contractIBCPortID : string) (msg : CosmosMsg) : M W CallResult :=
  match cmIBC2 msg with
  | None => throw "ErrUnknownMsg"
  | Some ibc2 =>
      match WriteAcknowledgementV2 ibc2 with
      | Some (destinationClient, sequence, ack) =>
          refuseM (bool_decide (destinationClient = ""%string)) "ErrEmpty";;
          x ← gets (fun w => ch_rest (store w));
          match GetAsyncPacket destinationClient sequence x with
          | None => throw "ErrInvalid"
          | Some [payload] =>
              ensureM (bool_decide (PDestinationPort payload = PortIDForContractV2 contractAddr)) "ErrUnauthorized";;
              with_rest (v2_WriteAcknowledgement destinationClient sequence ack);;
              packet_result MarshalAckResponse
          | Some _ => throw "ErrInvalid"
          end
      | None => throw "ErrUnknownMsg"
      end
  end.

Definition BurnCoinMessageHandler (contractAddr contractIBCPortID : string) (msg : CosmosMsg) : M W CallResult :=
  match (m ← cmBank msg; Burn m) with
  | Some amount =>
      coins ← lift (ConvertWasmCoinsToSdkCoins amount);
      refuseM (Coins_IsZero coins) "ErrEmpty";;
      with_bank (SendCoinsFromAccountToModule contractAddr ModuleName coins);;
      with_bank (BurnCoins ModuleName coins);;
      mret (mkCall [] [] [])
  | None => throw "ErrUnknownMsg"
  end.

End RawHandlers.

(** ** The message server *)

(** The responses of the server. *)
Inductive TxResponse :=
| StoreCodeResponse (CodeID : Z) (Checksum : string)
| InstantiateResponse (Address : string) (Data : option string)
| DataResponse (Data : option string)
| EmptyResponse
| StoreVkParamResponse (CsParamID : Z) (Checksum : string)
| StoreCircuitResponse (ZkID : Z) (Checksum : string)
| StoreFullCircuitResponse (CsParamId ZkId : Z) (CsChecksum VkChecksum : string)
| StoreAndMigrateResponse (CodeID : Z) (Checksum : string) (Data : option string)
| PayCircuitDepositResponse (PaidUntilUnix : Z).

Section Server.
Context {B A Acct X G Msg : Type} `{BankOps B} `{BankSend B} `{AccountKeeper A Acct} `{GasMeterOps G}
  `{Bech32} `{AddrPrefix} `{CircuitVM} `{AddressOps} `{JsonOps} `{ExtensionOps} `{SdkCoins} `{TextOps} `{Unicode}
  `{AuthorityOps} `{WasmVM (World (Chain B A X) G) G Msg}.
Context (cfg : Config) (authority : string) (yearly : Coin).
Context (DispatchSubs : Ctx -> string -> string -> list (SubMsg Msg) -> M (World (Chain B A X) G) (option string)).

Abbreviation S := (Chain B A X).
Abbreviation W := (World S G).

(** The part of the world the circuit operations run on. *)
Definition keeper_of (w : W) : Keeper B G :=
  mkKeeper (ch_params (store w)) (ch_bank (store w)) (WasmDispatch.meter w) (ch_reg (store w)) (ch_dep (store w))
    (ch_epoch (store w)).
Definition set_keeper (k : Keeper B G) (w : W) : W :=
  mkWorld (mkChain (params k) (bank k) (ch_accts (store w)) (reg k) (dep k) (epoch k) (ch_con (store w))
             (ch_async (store w)) (ch_rest (store w))) (gas k) (evs w).
Definition with_keeper {T} (m : M (Keeper B G) T) : M W T := zoom keeper_of set_keeper m.

Definition selectAuthorizationPolicy (ctx : Ctx) (actor : string) : Policy :=
  match ValidateAuthority authority actor with
  | Ok _ => GovAuthorizationPolicy (propagateGovAuthorization cfg)
  | _ => default DefaultAuthorizationPolicy (cPolicy ctx)
  end.

Definition optional_address (text : string) : res string :=
  if bool_decide (text = ""%string) then mret ""%string else AccAddressFromBech32 text.

Definition is_some {T} (o : option T) : bool := match o with Some _ => true | None => false end.

(** *** Circuits *)

Definition server_StoreVkParam (ctx : Ctx) (sender : string) (auth : option Z) (csParam : string) : M W TxResponse :=
  lift (validate_store_vk_param sender auth csParam);;
  senderAddr ← lift (AccAddressFromBech32 sender);
  r ← with_keeper (store_vk_param (gasRegister cfg) (cBlock ctx) senderAddr (is_some auth) csParam
        (selectAuthorizationPolicy ctx sender));
  mret (StoreVkParamResponse r.1 r.2).

Definition server_StoreFullCircuit (ctx : Ctx) (sender : string) (auth : option Z) (param vk : string) : M W TxResponse :=
  lift (validate_store_full_circuit sender auth param vk);;
  senderAddr ← lift (AccAddressFromBech32 sender);
  r ← with_keeper (store_full_circuit (gasRegister cfg) (cBlock ctx) senderAddr (is_some auth) param vk
        (selectAuthorizationPolicy ctx sender));
  let '(paramID, zkID, paramChecksum, circuitChecksum) := r in
  mret (StoreFullCircuitResponse paramID zkID paramChecksum circuitChecksum).

Definition server_StoreCircuit (ctx : Ctx) (sender : string) (paramKey : Z) (binary : string)
    (perm : option AccessConfig) : M W TxResponse :=
  lift (validate_store_circuit sender paramKey binary perm);;
  senderAddr ← lift (AccAddressFromBech32 sender);
  r ← with_keeper (store_circuit (gasRegister cfg) (cBlock ctx) senderAddr paramKey binary perm
        (selectAuthorizationPolicy ctx sender));
  mret (StoreCircuitResponse r.1 r.2).

Definition server_PayCircuitDeposit (ctx : Ctx) (sender : string) (years : Z) : M W TxResponse :=
  until ← with_keeper (msgServer_PayCircuitDeposit (cBlock ctx) yearly sender years);
  mret (PayCircuitDepositResponse until).

(** *** Codes and contracts *)

Definition server_StoreCode (ctx : Ctx) (sender code : string) (perm : option AccessConfig) : M W TxResponse :=
  lift (validate_store_code sender code perm);;
  senderAddr ← lift (AccAddressFromBech32 sender);
  r ← create cfg ctx senderAddr code perm (selectAuthorizationPolicy ctx sender);
  mret (StoreCodeResponse r.1 r.2).

Definition server_InstantiateContract (ctx : Ctx) (sender admin : string) (codeID : Z) (label msg : string)
    (funds : list Coin) : M W TxResponse :=
  lift (validate_instantiate sender admin codeID label msg funds);;
  senderAddr ← lift (AccAddressFromBech32 sender);
  adminAddr ← lift (optional_address admin);
  r ← instantiate cfg DispatchSubs ctx codeID senderAddr adminAddr msg label funds ClassicAddressGenerator
        (selectAuthorizationPolicy ctx sender);
  mret (InstantiateResponse (address_text r.1) r.2).

Definition server_InstantiateContract2 (ctx : Ctx) (sender admin : string) (codeID : Z) (label msg : string)
    (funds : list Coin) (salt : string) (fixMsg : bool) : M W TxResponse :=
  lift (validate_instantiate2 sender admin codeID label msg funds salt);;
  senderAddr ← lift (AccAddressFromBech32 sender);
  adminAddr ← lift (optional_address admin);
  r ← instantiate cfg DispatchSubs ctx codeID senderAddr adminAddr msg label funds
        (PredictableAddressGenerator senderAddr salt msg fixMsg) (selectAuthorizationPolicy ctx sender);
  mret (InstantiateResponse (address_text r.1) r.2).

Definition server_ExecuteContract (ctx : Ctx) (sender contract msg : string) (funds : list Coin) : M W TxResponse :=
  lift (validate_execute sender contract msg funds);;
  senderAddr ← lift (AccAddressFromBech32 sender);
  contractAddr ← lift (AccAddressFromBech32 contract);
  data ← execute cfg DispatchSubs ctx contractAddr senderAddr msg funds;
  mret (DataResponse data).

Definition server_MigrateContract (ctx : Ctx) (sender contract : string) (codeID : Z) (msg : string) : M W TxResponse :=
  lift (validate_migrate sender contract codeID msg);;
  senderAddr ← lift (AccAddressFromBech32 sender);
  contractAddr ← lift (AccAddressFromBech32 contract);
  data ← migrate cfg DispatchSubs ctx contractAddr senderAddr codeID msg (selectAuthorizationPolicy ctx sender);
  mret (DataResponse data).

Definition server_UpdateAdmin (ctx : Ctx) (sender newAdmin contract : string) : M W TxResponse :=
  lift (validate_update_admin sender newAdmin contract);;
  senderAddr ← lift (AccAddressFromBech32 sender);
  contractAddr ← lift (AccAddressFromBech32 contract);
  newAdminAddr ← lift (AccAddressFromBech32 newAdmin);
  setContractAdmin contractAddr senderAddr newAdminAddr (selectAuthorizationPolicy ctx sender);;
  mret EmptyResponse.

Definition server_ClearAdmin (ctx : Ctx) (sender contract : string) : M W TxResponse :=
  lift (validate_clear_admin sender contract);;
  senderAddr ← lift (AccAddressFromBech32 sender);
  contractAddr ← lift (AccAddressFromBech32 contract);
  setContractAdmin contractAddr senderAddr "" (selectAuthorizationPolicy ctx sender);;
  mret EmptyResponse.

(** The handler dereferences the permission, which the validation requires. *)
Definition server_UpdateInstantiateConfig (ctx : Ctx) (sender : string) (codeID : Z) (perm : option AccessConfig)
    : M W TxResponse :=
  lift (validate_update_config sender codeID perm);;
  senderAddr ← lift (AccAddressFromBech32 sender);
  match perm with
  | None => panic "nil pointer dereference"
  | Some newConfig =>
      setAccessConfig codeID senderAddr newConfig (selectAuthorizationPolicy ctx sender);;
      mret EmptyResponse
  end.

Definition server_UpdateContractLabel (ctx : Ctx) (sender newLabel contract : string) : M W TxResponse :=
  lift (validate_update_label sender newLabel contract);;
  senderAddr ← lift (AccAddressFromBech32 sender);
  contractAddr ← lift (AccAddressFromBech32 contract);
  setContractLabel contractAddr senderAddr newLabel (selectAuthorizationPolicy ctx sender);;
  mret EmptyResponse.

Definition server_StoreAndInstantiateContract (ctx : Ctx) (sender code : string) (perm : option AccessConfig)
    (admin label msg : string) (funds : list Coin) (source builder : string) (codeHash : option string) : M W TxResponse :=
  lift (validate_store_and_instantiate sender code perm admin label msg funds source builder codeHash);;
  authorityAddr ← lift (AccAddressFromBech32 sender);
  adminAddr ← lift (optional_address admin);
  let policy := selectAuthorizationPolicy ctx sender in
  c ← create cfg ctx authorityAddr code perm policy;
  r ← instantiate cfg DispatchSubs ctx c.1 authorityAddr adminAddr msg label funds ClassicAddressGenerator policy;
  mret (InstantiateResponse (address_text r.1) r.2).

Definition server_StoreAndMigrateContract (ctx : Ctx) (sender code : string) (perm : option AccessConfig)
    (contract msg : string) : M W TxResponse :=
  authorityAddr ← lift (AccAddressFromBech32 sender);
  lift (validate_store_and_migrate sender code perm contract msg);;
  let policy := selectAuthorizationPolicy ctx sender in
  c ← create cfg ctx authorityAddr code perm policy;
  contractAddr ← lift (AccAddressFromBech32 contract);
  data ← migrate cfg DispatchSubs ctx contractAddr authorityAddr c.1 msg policy;
  mret (StoreAndMigrateResponse c.1 c.2 data).

(** *** Governance *)

Definition set_chparams (p : Params) : M W unit := modify (fun w => set_store (set_params p (store w)) w).

Definition server_UpdateParams (sender : string) (p : Params) : M W TxResponse :=
  lift (validate_update_params sender p);;
  lift (ValidateAuthority authority sender);;
  set_chparams p;;
  mret EmptyResponse.

Definition server_PinCodes (sender : string) (ids : list Z) : M W TxResponse :=
  lift (validate_pin sender ids);;
  lift (ValidateAuthority authority sender);;
  forM ids (fun id => with_keeper (pinCode (gasRegister cfg) id));;
  mret EmptyResponse.

Definition server_UnpinCodes (sender : string) (ids : list Z) : M W TxResponse :=
  lift (validate_pin sender ids);;
  lift (ValidateAuthority authority sender);;
  forM ids (fun id => with_keeper (unpinCode (gasRegister cfg) id));;
  mret EmptyResponse.

Definition server_UnpinCircuits (sender : string) (ids : list Z) : M W TxResponse :=
  lift (validate_pin sender ids);;
  ensureM (bool_decide (authority = sender)) "ErrInvalid";;
  forM ids (fun id => with_reg (unpinCircuit id));;
  mret EmptyResponse.

Definition server_SudoContract (ctx : Ctx) (sender contract msg : string) : M W TxResponse :=
  lift (validate_sudo sender contract msg);;
  lift (ValidateAuthority authority sender);;
  contractAddr ← lift (AccAddressFromBech32 contract);
  data ← Sudo cfg DispatchSubs ctx contractAddr msg;
  mret (DataResponse data).

(** The addresses that may upload code. *)
Definition set_upload_addresses (l : list string) (p : Params) : Params :=
  mkParams (mkAccess (Permission (CodeUploadAccess p)) l) (InstantiateDefaultPermission p) (CircuitUploadAccess p)
    (CircuitDevDestination p).

Definition add_addresses (addresses new : list string) : list string :=
  fold_left (fun l a => if bool_decide (a ∈ l) then l else l ++ [a]) new addresses.

Definition remove_addresses (addresses old : list string) : list string :=
  filter (fun a => a ∉ old) addresses.

(** The part the four handlers share. *)
Definition update_addresses (f : list string -> list string) : M W TxResponse :=
  p ← gets (fun w => ch_params (store w));
  ensureM (bool_decide (Permission (CodeUploadAccess p) = AccessTypeAnyOfAddresses)) "ErrInvalid";;
  set_chparams (set_upload_addresses (f (Addresses (CodeUploadAccess p))) p);;
  mret EmptyResponse.

Definition server_AddCodeUploadParamsAddresses (sender : string) (new : list string) : M W TxResponse :=
  lift (validate_upload_addresses sender new);;
  lift (ValidateAuthority authority sender);;
  update_addresses (fun l => add_addresses l new).

Definition server_RemoveCodeUploadParamsAddresses (sender : string) (old : list string) : M W TxResponse :=
  lift (validate_upload_addresses sender old);;
  lift (ValidateAuthority authority sender);;
  update_addresses (fun l => remove_addresses l old).

(** The handlers for circuits change the addresses that may upload code. *)
Definition server_AddCircuitUploadParamsAddresses (sender : string) (new : list string) : M W TxResponse :=
  lift (validate_upload_addresses sender new);;
  ensureM (bool_decide (authority = sender)) "ErrInvalid";;
  update_addresses (fun l => add_addresses l new).

Definition server_RemoveCircuitUploadParamsAddresses (sender : string) (old : list string) : M W TxResponse :=
  lift (validate_upload_addresses sender old);;
  ensureM (bool_decide (authority = sender)) "ErrInvalid";;
  update_addresses (fun l => remove_addresses l old).

Definition server (ctx : Ctx) (m : TxMsg) : M W TxResponse :=
  match m with
  | MsgStoreCode s c p => server_StoreCode ctx s c p
  | MsgInstantiateContract s a id l m f => server_InstantiateContract ctx s a id l m f
  | MsgInstantiateContract2 s a id l m f salt fix_ => server_InstantiateContract2 ctx s a id l m f salt fix_
  | MsgExecuteContract s c m f => server_ExecuteContract ctx s c m f
  | MsgMigrateContract s c id m => server_MigrateContract ctx s c id m
  | MsgUpdateAdmin s n c => server_UpdateAdmin ctx s n c
  | MsgClearAdmin s c => server_ClearAdmin ctx s c
  | MsgUpdateInstantiateConfig s id p => server_UpdateInstantiateConfig ctx s id p
  | MsgUpdateContractLabel s l c => server_UpdateContractLabel ctx s l c
  | MsgUpdateParams a p => server_UpdateParams a p
  | MsgSudoContract a c m => server_SudoContract ctx a c m
  | MsgPinCodes a ids => server_PinCodes a ids
  | MsgUnpinCodes a ids => server_UnpinCodes a ids
  | MsgUnpinCircuits a ids => server_UnpinCircuits a ids
  | MsgStoreAndInstantiateContract a c p ad l m f s b h => server_StoreAndInstantiateContract ctx a c p ad l m f s b h
  | MsgStoreAndMigrateContract a c p ct m => server_StoreAndMigrateContract ctx a c p ct m
  | MsgAddCodeUploadParamsAddresses a l => server_AddCodeUploadParamsAddresses a l
  | MsgRemoveCodeUploadParamsAddresses a l => server_RemoveCodeUploadParamsAddresses a l
  | MsgAddCircuitUploadParamsAddresses a l => server_AddCircuitUploadParamsAddresses a l
  | MsgRemoveCircuitUploadParamsAddresses a l => server_RemoveCircuitUploadParamsAddresses a l
  | MsgStoreVkParam s a b => server_StoreVkParam ctx s a b
  | MsgStoreCircuit s k b p => server_StoreCircuit ctx s k b p
  | MsgStoreFullCircuit s a p v => server_StoreFullCircuit ctx s a p v
  | MsgPayCircuitDeposit s y => server_PayCircuitDeposit ctx s y
  end.

End Server.

(** The account a message is signed by. *)
Definition actor (m : TxMsg) : string :=
  match m with
  | MsgStoreCode s _ _ | MsgInstantiateContract s _ _ _ _ _ | MsgInstantiateContract2 s _ _ _ _ _ _ _
  | MsgExecuteContract s _ _ _ | MsgMigrateContract s _ _ _ | MsgUpdateAdmin s _ _ | MsgClearAdmin s _
  | MsgUpdateInstantiateConfig s _ _ | MsgUpdateContractLabel s _ _ | MsgUpdateParams s _ | MsgSudoContract s _ _
  | MsgPinCodes s _ | MsgUnpinCodes s _ | MsgUnpinCircuits s _
  | MsgStoreAndInstantiateContract s _ _ _ _ _ _ _ _ _ | MsgStoreAndMigrateContract s _ _ _ _
  | MsgAddCodeUploadParamsAddresses s _ | MsgRemoveCodeUploadParamsAddresses s _
  | MsgAddCircuitUploadParamsAddresses s _ | MsgRemoveCircuitUploadParamsAddresses s _
  | MsgStoreVkParam s _ _ | MsgStoreCircuit s _ _ _ | MsgStoreFullCircuit s _ _ _ | MsgPayCircuitDeposit s _ => s
  end.

(** ** The server takes steps *)

Section ServerRefinement.
Context {B A Acct X G Msg : Type} `{BankOps B} `{BankSend B} `{AccountKeeper A Acct} `{GasMeterOps G}
  `{Bech32Laws} `{AddrPrefixLaws} `{CircuitVM} `{AddressOps} `{JsonOps} `{ExtensionOps} `{SdkCoins} `{TextOps} `{Unicode}
  `{AuthorityOps} `{WasmVM (World (Chain B A X) G) G Msg}.
Context (cfg : Config) (authority : string) (yearly : Coin).

Abbreviation W := (World (Chain B A X) G).
Abbreviation K := (Keeper B G).

Context (DispatchSubs : Ctx -> string -> string -> list (SubMsg Msg) -> M W (option string)) (gov : bool)
  (origin : string -> Prop).

Abbreviation Steps := (Steps (B:=B) (A:=A) (X:=X) (G:=G) gov origin).

Hypothesis subs_steps : forall ctx addr port msgs, ctx_ok gov ctx ->
  Steps (has_contract addr) (DispatchSubs ctx addr port msgs).

(** *** Circuits leave the codes alone *)

Definition kcodes (k : K) : gmap Z CodeInfo := codes (reg k).

Lemma Keeps_keeper {T} (m : M K T) : Preserves kcodes m -> Preserves wview (with_keeper (A:=A) (X:=X) m).
Proof.
  intros Hm. eapply Preserves_zoom; [exact Hm|]. intros w k E. unfold wview, view, kcodes in *. cbn in *. by rewrite E.
Qed.

Lemma kcodes_reg {T} (m : M Registry T) : Preserves codes m -> Preserves kcodes (on_reg (B:=B) (G:=G) m).
Proof. intros Hm. eapply Preserves_zoom; [exact Hm|]. done. Qed.

Lemma kcodes_gas {T} (m : M G T) : Preserves kcodes (on_gas (B:=B) m).
Proof. by apply Preserves_part. Qed.

Lemma kcodes_bank {T} (m : M B T) : Preserves kcodes (on_bank (G:=G) m).
Proof. by apply Preserves_part. Qed.

Lemma kcodes_dep f : Preserves kcodes (upd_dep (B:=B) (G:=G) f).
Proof. by apply Preserves_modify. Qed.

Lemma sequence_codes k : Preserves codes (mustAutoIncrementID k).
Proof. apply sequence_keeps_codes. Qed.

Lemma creator_index_codes c id : Preserves codes (setCircuitCreatorIndex c id).
Proof. unfold setCircuitCreatorIndex. preserves. Qed.

#[local] Hint Resolve kcodes_reg kcodes_gas kcodes_bank kcodes_dep sequence_codes creator_index_codes : quiet.

Lemma kcodes_authorize ctx c a p : Preserves kcodes (authorizeCircuitUpload (B:=B) (G:=G) ctx c a p).
Proof. unfold authorizeCircuitUpload. preserves. Qed.

Lemma kcodes_uncompress bz : Preserves kcodes (uncompress_upload (B:=B) (gasRegister cfg) bz).
Proof. unfold uncompress_upload. preserves. Qed.
#[local] Hint Resolve kcodes_authorize kcodes_uncompress : quiet.

Lemma kcodes_vk_param ctx c a b p : Preserves kcodes (store_vk_param (B:=B) (gasRegister cfg) ctx c a b p).
Proof. unfold store_vk_param. preserves. Qed.

Lemma kcodes_circuit ctx c id b a p : Preserves kcodes (store_circuit (B:=B) (gasRegister cfg) ctx c id b a p).
Proof. unfold store_circuit. preserves. Qed.
#[local] Hint Resolve kcodes_vk_param kcodes_circuit : quiet.

Lemma kcodes_full ctx c a b v p : Preserves kcodes (store_full_circuit (B:=B) (gasRegister cfg) ctx c a b v p).
Proof. unfold store_full_circuit. preserves. Qed.

Lemma kcodes_pin id : Preserves kcodes (pinCode (B:=B) (gasRegister cfg) id).
Proof. unfold pinCode. preserves. Qed.

Lemma kcodes_unpin id : Preserves kcodes (unpinCode (B:=B) (gasRegister cfg) id).
Proof. unfold unpinCode. preserves. Qed.

Lemma codes_unpin_circuit id : Preserves codes (unpinCircuit id).
Proof. unfold unpinCircuit. preserves. Qed.

Lemma kcodes_pay ctx s y : Preserves kcodes (msgServer_PayCircuitDeposit (G:=G) ctx yearly s y).
Proof.
  unfold msgServer_PayCircuitDeposit, PayCircuitDeposit, receiveCircuitRunwayPayment, extendDeposit,
    deleteCircuitDepositExpiry, setCircuitDepositExpiry, deleteCircuitDepositGC. preserves.
Qed.

#[local] Hint Resolve Keeps_keeper kcodes_full kcodes_pin kcodes_unpin codes_unpin_circuit kcodes_pay : quiet.

(** *** Messages *)

(** The governance policy is only for the authority. *)
Definition without_authority (s : string) : Prop :=
  gov = true \/ forall a, AccAddressFromBech32 s = Ok a -> is_ok (ValidateAuthority authority s) = false.

Lemma select_allowed ctx s a : AccAddressFromBech32 s = Ok a -> ctx_ok gov ctx -> without_authority s ->
  allowed gov (selectAuthorizationPolicy cfg authority ctx s).
Proof.
  intros Hs [Hp _] [Hg|Ha]; [by left|]. specialize (Ha a Hs). unfold selectAuthorizationPolicy.
  destruct (ValidateAuthority authority s); [done|..]; (destruct (cPolicy ctx) eqn:E; [by apply Hp|by right]).
Qed.

(** The signer of a message may act. *)
Definition signer_acts (m : TxMsg) (v : View) : Prop :=
  forall a, AccAddressFromBech32 (actor m) = Ok a -> v_may_act origin v a.

Lemma signer_stable m s s' : wsteps gov origin s s' -> signer_acts m (view (B:=B) (A:=A) (X:=X) s) -> signer_acts m (view s').
Proof. intros Hs Ha a E. eapply may_act_stable; [done|]. by apply Ha. Qed.

#[local] Hint Resolve classic_ok predictable_ok select_allowed : steps.

Lemma codes_steps ctx m : ctx_ok gov ctx -> without_authority (actor m) ->
  match m with
  | MsgStoreCode _ _ _ | MsgInstantiateContract _ _ _ _ _ _ | MsgInstantiateContract2 _ _ _ _ _ _ _ _
  | MsgExecuteContract _ _ _ _ | MsgSudoContract _ _ _ | MsgUpdateInstantiateConfig _ _ _
  | MsgStoreAndInstantiateContract _ _ _ _ _ _ _ _ _ _ =>
      Steps (fun _ => True) (server cfg authority yearly DispatchSubs ctx m)
  | _ => True
  end.
Proof.
  intros Hctx Hna. destruct m; try done; cbn [server actor] in *.
  - unfold server_StoreCode. do 2 quietly. apply Steps_last; [apply create_steps|preserves].
  - unfold server_InstantiateContract. quietly. apply Steps_lift. intros a Ha. quietly. apply Steps_last; [|preserves].
    apply instantiate_steps; eauto with steps.
  - unfold server_InstantiateContract2. quietly. apply Steps_lift. intros a Ha. quietly. apply Steps_last; [|preserves].
    apply instantiate_steps; eauto with steps.
  - unfold server_ExecuteContract. do 3 quietly. apply Steps_last; [by apply execute_steps|preserves].
  - unfold server_UpdateInstantiateConfig. do 2 quietly. destruct NewInstantiatePermission; [|stepwise].
    apply Steps_last; [apply set_access_steps|preserves].
  - unfold server_SudoContract. do 3 quietly. apply Steps_last; [by apply sudo_steps|preserves].
  - unfold server_StoreAndInstantiateContract. quietly. apply Steps_lift. intros a Ha. quietly. cbv zeta.
    apply Steps_stable; [apply create_steps|done|]. intros c. apply Steps_last; [|preserves].
    apply instantiate_steps; eauto with steps.
Qed.

Lemma admin_steps ctx m : ctx_ok gov ctx -> without_authority (actor m) ->
  match m with
  | MsgMigrateContract _ _ _ _ | MsgUpdateAdmin _ _ _ | MsgClearAdmin _ _ | MsgUpdateContractLabel _ _ _
  | MsgStoreAndMigrateContract _ _ _ _ _ => Steps (signer_acts m) (server cfg authority yearly DispatchSubs ctx m)
  | _ => True
  end.
Proof.
  intros Hctx Hna. destruct m; try done; cbn [server].
  - unfold server_MigrateContract. quietly. apply Steps_lift. intros a Ha. quietly. apply Steps_last; [|preserves].
    eapply Steps_weaken; [|apply migrate_steps; eauto with steps]. intros v Hv. by apply Hv.
  - unfold server_UpdateAdmin. quietly. apply Steps_lift. intros a Ha. do 2 quietly. apply Steps_last; [|preserves].
    eapply Steps_weaken; [|apply set_admin_steps; eauto with steps]. intros v Hv. by apply Hv.
  - unfold server_ClearAdmin. quietly. apply Steps_lift. intros a Ha. quietly. apply Steps_last; [|preserves].
    eapply Steps_weaken; [|apply set_admin_steps; eauto with steps]. intros v Hv. by apply Hv.
  - unfold server_UpdateContractLabel. quietly. apply Steps_lift. intros a Ha. quietly. apply Steps_last; [|preserves].
    eapply Steps_weaken; [|apply set_label_steps; eauto with steps]. intros v Hv. by apply Hv.
  - unfold server_StoreAndMigrateContract. apply Steps_lift. intros a Ha. quietly. cbv zeta.
    apply Steps_stable; [eapply Steps_weaken; [|apply create_steps]; done|intros; by eapply signer_stable|].
    intros c. quietly. apply Steps_last; [|preserves].
    eapply Steps_weaken; [|apply migrate_steps; eauto with steps]. intros v Hv. by apply Hv.
Qed.

(** Every message takes steps, its signer the only account that need act. *)
Lemma server_steps ctx m : ctx_ok gov ctx -> without_authority (actor m) ->
  Steps (signer_acts m) (server cfg authority yearly DispatchSubs ctx m).
Proof.
  intros Hctx Hna. pose proof (codes_steps ctx m Hctx Hna) as Hc. pose proof (admin_steps ctx m Hctx Hna) as Ha.
  destruct m; try (by eapply Steps_weaken; [|exact Hc]); try exact Ha; cbn [server]; apply Steps_Keeps; unfold Keeps.
  - unfold server_UpdateParams, set_chparams. preserves.
  - unfold server_PinCodes. preserves.
  - unfold server_UnpinCodes. preserves.
  - unfold server_UnpinCircuits. preserves.
  - unfold server_AddCodeUploadParamsAddresses, update_addresses, set_chparams. preserves.
  - unfold server_RemoveCodeUploadParamsAddresses, update_addresses, set_chparams. preserves.
  - unfold server_AddCircuitUploadParamsAddresses, update_addresses, set_chparams. preserves.
  - unfold server_RemoveCircuitUploadParamsAddresses, update_addresses, set_chparams. preserves.
  - unfold server_StoreVkParam. preserves.
  - unfold server_StoreCircuit. preserves.
  - unfold server_StoreFullCircuit. preserves.
  - unfold server_PayCircuitDeposit. preserves.
Qed.

End ServerRefinement.

(** ** Late acknowledgements *)

Section AsyncProofs.
Context {B A Acct X G : Type} `{BankOps B} `{SdkCoins} `{CodecOps} `{Bech32} `{AddressOps} `{PacketOps X}.

Abbreviation W := (World (Chain B A X) G).

(** The message that acknowledges a packet, and nothing else. *)
Definition ack_message (channel : string) (sequence : Z) (ack : string) : CosmosMsg :=
  mkCosmosMsg None None None None (Some (mkIBCMsg None None (Some (channel, sequence, ack)) None)) None None None None.

Definition async_of (w : W) : AsyncAcks := ch_async (store w).

Lemma ack_run port channel sequence ack addr p (w : W) : port <> ""%string -> channel <> ""%string ->
  async_of w !! async_key port channel sequence = Some p ->
  exists w', (IBCRawPacketHandler_DispatchMsg addr port (ack_message channel sequence ack) w).2 = w' /\
  match ics4_WriteAcknowledgement p ack (ch_rest (store w)) with
  | (Ok _, x) => async_of w' = delete (async_key port channel sequence) (async_of w) /\ ch_rest (store w') = x
  | (_, x) => async_of w' = async_of w /\ ch_rest (store w') = x
  end.
Proof.
  intros Hp Hc Hl. eexists. split; [reflexivity|]. cbn [IBCRawPacketHandler_DispatchMsg ack_message cmIBC SendPacket WriteAcknowledgement].
  rewrite !bool_decide_eq_false_2 by done. unfold LoadAsyncAckPacket, mbind, M_bind, refuseM, lift, refuse, gets.
  unfold async_of in Hl. rewrite Hl. cbn [wrap_err]. unfold with_rest, zoom.
  destruct (ics4_WriteAcknowledgement p ack _) as [[u|e|e] x]; cbn; [|done..].
  unfold packet_result, mbind, M_bind, lift. by destruct MarshalAckResponse.
Qed.

(** C16: a packet put aside on receipt is acknowledged once: the acknowledgement of
    the contract whose port it was sent to is written for the very packet that
    was received; if that succeeds the packet is no longer waiting, and a second
    acknowledgement is refused and changes nothing; packets of other ports,
    channels or sequences are not touched. *)
Theorem late_acknowledgement_once p ack ack' addr (w0 w w' : W) :
  packet_id_ok (DestinationPort p) (DestinationChannel p) (Sequence p) ->
  DestinationPort p <> ""%string -> DestinationChannel p <> ""%string ->
  with_async (StoreAsyncAckPacket (convertPacket (newIBCPacket p))) w0 = (Ok tt, w) ->
  (IBCRawPacketHandler_DispatchMsg addr (DestinationPort p) (ack_message (DestinationChannel p) (Sequence p) ack) w).2 = w' ->
  ch_rest (store w') = (ics4_WriteAcknowledgement p ack (ch_rest (store w0))).2 /\
  (is_ok (ics4_WriteAcknowledgement p ack (ch_rest (store w0))).1 = true ->
     IBCRawPacketHandler_DispatchMsg addr (DestinationPort p) (ack_message (DestinationChannel p) (Sequence p) ack') w' =
     (Err "ErrInvalid", w')) /\
  (forall port channel sequence, packet_id_ok port channel sequence ->
     (port, channel, sequence) <> (DestinationPort p, DestinationChannel p, Sequence p) ->
     async_of w' !! async_key port channel sequence = async_of w0 !! async_key port channel sequence).
Proof.
  intros Hid Hport Hchan Est Eack. rewrite convert_packet_roundtrip in Est. injection Est as <-.
  match type of Eack with (_ _ _ _ ?v).2 = _ => set (w := v) in * end.
  assert (Hl : async_of w !! async_key (DestinationPort p) (DestinationChannel p) (Sequence p) = Some p).
  { exact (lookup_insert_eq (async_of w0) _ p). }
  destruct (ack_run _ _ _ ack addr p w Hport Hchan Hl) as (w2&E2&Hrun). rewrite Eack in E2. subst w2.
  change (ch_rest (store w)) with (ch_rest (store w0)) in Hrun. split_and!.
  - by destruct (ics4_WriteAcknowledgement _ _ _) as [[u|e|e] x]; destruct Hrun as [_ ->].
  - destruct (ics4_WriteAcknowledgement _ _ _) as [[u|e|e] x]; [|done..]. intros _. destruct Hrun as [Hd _].
    cbn [IBCRawPacketHandler_DispatchMsg ack_message cmIBC SendPacket WriteAcknowledgement].
    rewrite !bool_decide_eq_false_2 by done. unfold LoadAsyncAckPacket, mbind, M_bind, refuseM, lift, refuse, gets.
    unfold async_of in Hd. rewrite Hd, lookup_delete_eq. done.
  - intros port channel sequence Hok Hne.
    assert (Hk : async_key port channel sequence <> async_key (DestinationPort p) (DestinationChannel p) (Sequence p)).
    { intros (->&->&->)%async_key_inj; done. }
    assert (Hw : async_of w !! async_key port channel sequence = async_of w0 !! async_key port channel sequence).
    { exact (lookup_insert_ne (async_of w0) _ _ p (not_eq_sym Hk)). }
    rewrite <- Hw. destruct (ics4_WriteAcknowledgement _ _ _) as [[u|e|e] x]; destruct Hrun as [-> _]; [|done..].
    by rewrite lookup_delete_ne.
Qed.

End AsyncProofs.

(** ** Governance *)

Section GovernanceProofs.
Context {B A Acct X G Msg : Type} `{BankOps B} `{BankSend B} `{AccountKeeper A Acct} `{GasMeterOps G}
  `{Bech32} `{AddrPrefix} `{CircuitVM} `{AddressOps} `{JsonOps} `{ExtensionOps} `{SdkCoins} `{TextOps} `{Unicode}
  `{AuthorityOps} `{WasmVM (World (Chain B A X) G) G Msg}.
Context (cfg : Config) (authority : string) (yearly : Coin).

Abbreviation W := (World (Chain B A X) G).

Context (D : Ctx -> string -> string -> list (SubMsg Msg) -> M W (option string)).

(** The messages that are for the authority of the chain. *)
Definition governance (m : TxMsg) : bool :=
  match m with
  | MsgUpdateParams _ _ | MsgSudoContract _ _ _ | MsgPinCodes _ _ | MsgUnpinCodes _ _ | MsgUnpinCircuits _ _
  | MsgAddCodeUploadParamsAddresses _ _ | MsgRemoveCodeUploadParamsAddresses _ _
  | MsgAddCircuitUploadParamsAddresses _ _ | MsgRemoveCircuitUploadParamsAddresses _ _ => true
  | _ => false
  end.

Lemma lift_guard {T U} (r : res T) (k : T -> M W U) w : is_ok r = false ->
  exists x, (lift r ≫= k) w = (x, w) /\ is_ok x = false.
Proof. intros Hr. unfold mbind, M_bind, lift. destruct r as [t|e|e]; [done|by exists (Err e)|by exists (Panic e)]. Qed.

Lemma after_guard {T U} (r : res T) (k : T -> M W U) w :
  (forall t, exists x, k t w = (x, w) /\ is_ok x = false) -> exists x, (lift r ≫= k) w = (x, w) /\ is_ok x = false.
Proof. intros Hk. unfold mbind, M_bind, lift. destruct r as [t|e|e]; [apply Hk|by exists (Err e)|by exists (Panic e)]. Qed.

(** Messages for the authority of the chain are refused when anyone else sends
    them, and change nothing. *)
Theorem governance_only ctx m (w : W) : governance m = true ->
  is_ok (ValidateAuthority authority (actor m)) = false -> actor m <> authority ->
  exists r, server cfg authority yearly D ctx m w = (r, w) /\ is_ok r = false.
Proof.
  intros Hm Ha Hne. destruct m; try done; cbn [server actor] in *.
  all: unfold server_UpdateParams, server_SudoContract, server_PinCodes, server_UnpinCodes, server_UnpinCircuits,
    server_AddCodeUploadParamsAddresses, server_RemoveCodeUploadParamsAddresses,
    server_AddCircuitUploadParamsAddresses, server_RemoveCircuitUploadParamsAddresses.
  all: apply after_guard; intros [].
  all: first [by apply lift_guard | rewrite bool_decide_eq_false_2 by congruence; by apply (lift_guard (ensure false _))].
Qed.

(** The uploaders a message adds and removes. *)
Definition upload_change (m : TxMsg) : option (list string * list string) :=
  match m with
  | MsgAddCodeUploadParamsAddresses _ l | MsgAddCircuitUploadParamsAddresses _ l => Some (l, [])
  | MsgRemoveCodeUploadParamsAddresses _ l | MsgRemoveCircuitUploadParamsAddresses _ l => Some ([], l)
  | _ => None
  end.

Lemma add_addresses_elem l new a : a ∈ add_addresses l new <-> a ∈ l \/ a ∈ new.
Proof.
  unfold add_addresses. revert l. induction new as [|x new IH]; intros l; cbn; [set_solver|]. rewrite IH.
  case_bool_decide; set_solver.
Qed.

Lemma update_addresses_Ok f (w : W) r w' : update_addresses f w = (Ok r, w') ->
  Permission (CodeUploadAccess (ch_params (store w))) = AccessTypeAnyOfAddresses /\
  w' = set_store (set_params (set_upload_addresses (f (Addresses (CodeUploadAccess (ch_params (store w))))) (ch_params (store w))) (store w)) w.
Proof.
  unfold update_addresses. intros E. apply bind_Ok in E as (p&w1&[-> <-]%gets_Ok&E).
  apply bind_Ok in E as (u&w1&[Hp%bool_decide_eq_true <-]%ensureM_Ok&E).
  by apply bind_Ok in E as (u2&w2&[= _ <-]&[_ <-]%ret_Ok).
Qed.

(** The messages that add or remove uploaders, those for circuits included,
    change exactly the list of accounts that may upload code: the access to
    circuit uploads stays as it was, and so does the rest of the state. *)
Theorem upload_lists_effect ctx m added removed (w : W) r w' :
  upload_change m = Some (added, removed) -> server cfg authority yearly D ctx m w = (Ok r, w') ->
  let p := ch_params (store w) in
  let p' := ch_params (store w') in
  (forall a, a ∈ Addresses (CodeUploadAccess p') <-> (a ∈ Addresses (CodeUploadAccess p) \/ a ∈ added) /\ a ∉ removed) /\
  Permission (CodeUploadAccess p) = AccessTypeAnyOfAddresses /\
  Permission (CodeUploadAccess p') = AccessTypeAnyOfAddresses /\
  CircuitUploadAccess p' = CircuitUploadAccess p /\
  InstantiateDefaultPermission p' = InstantiateDefaultPermission p /\
  CircuitDevDestination p' = CircuitDevDestination p /\
  w' = set_store (set_params p' (store w)) w.
Proof.
  intros Hm E. destruct m; try done; cbn [server upload_change] in *; injection Hm as <- <-.
  all: unfold server_AddCodeUploadParamsAddresses, server_RemoveCodeUploadParamsAddresses,
    server_AddCircuitUploadParamsAddresses, server_RemoveCircuitUploadParamsAddresses in E.
  all: apply bind_Ok in E as (u&w1&[_ <-]%lift_Ok&E); apply bind_Ok in E as (u2&w1&[_ <-]%lift_Ok&E).
  all: apply update_addresses_Ok in E as [Hp ->]; cbn; split_and!; try done; intros a.
  1, 3: rewrite add_addresses_elem; set_solver.
  all: unfold remove_addresses; rewrite list_elem_of_filter; set_solver.
Qed.

End GovernanceProofs.

(** ** Witnesses *)

(** The rest of a small chain: one account is the authority, and there are no
    channels. *)
Module ServerRef.
Import Ref RefLaws RefBank RefBankLaws CircuitRef ChainRef.

#[export] Instance text : TextOps := {| ParseRequestURI _ := Ok tt; ParseDockerRef _ := Ok tt |}.
#[export] Instance unicode : Unicode := {| IsPrintWide _ := true |}.
#[export] Instance authority_ops : AuthorityOps := {| ValidateAuthority a b := ensure (String.eqb a b) "unauthorized" |}.
#[export] Instance errors : GoErrors := {|
  ToSystemError _ := false; isDeterministicError _ := false; ErrorText e := e; ABCIInfo _ := ("wasm"%string, 5%N) |}.
#[export] Instance codec : CodecOps := {|
  NewIntFromString s := if String.eqb s "5" then Some 5 else None;
  DecCanonical s := Ok s; UnpackAny u v := Some (OtherMsg u v); UnpackInterfaces _ := Ok tt |}.
#[export] Instance ibc : IbcOps unit := {|
  GetChannel _ _ _ := None; GetAppVersion _ _ _ := None; ParseChannelSequence _ := Ok 0; GetPort := "transfer";
  UnmarshalPacketData _ _ := Err "no transfer"; Denom_HasPrefix _ _ _ := false; IBCDenom _ b := b;
  Ack_Bytes a := match a with ContractConfirmStateAck d => d | AckError e => e end;
  ErrorAckText e := e |}.
#[export] Instance packets : PacketOps unit := {|
  ics4_SendPacket _ _ _ _ _ := mret 1; ics4_WriteAcknowledgement _ _ := mret tt; GetAsyncPacket _ _ _ := None;
  v2_WriteAcknowledgement _ _ _ := mret tt;
  MarshalSendResponse n := Ok (be64s n, mkMsgResponse "send" (be64s n));
  MarshalAckResponse := Ok (""%string, mkMsgResponse "ack" "") |}.

End ServerRef.

Module ServerWitness.
Import Ref RefLaws RefBank RefBankLaws CircuitRef ChainRef ServerRef.

Abbreviation RW := (World (Chain ref_bank (gset string) unit) meter).
Definition start : RW := mkWorld chain0 (mkMeter 0 1000000000) [].
Definition silent (_ : Ctx) (_ _ : string) (_ : list (SubMsg CosmosMsg)) : M RW (option string) := mret None.

#[local] Instance idle : WasmVM RW meter CosmosMsg := {|
  WasmLifecycle.StoreCode _ _ := (Ok hash32, 1); SimulateStoreCode _ _ := (Ok hash32, 1);
  StoreCodeUnchecked _ := Ok hash32; AnalyzeCode _ := Ok (mkReport true "" None);
  VmRun _ _ _ _ _ := mret (inr (Some (mkResult (Some (mkResponse [] [] None [])) "")), 10) |}.

Abbreviation serve := (server cfg5 "addrgov" (mkCoin "uterp" 1) silent ctx0).

(** Somebody asks for a contract to be called as the chain. *)
Lemma governance_only_witness : exists r,
  serve (MsgSudoContract "addrbob" ("addr" ++ hash32)%string "{}") start = (r, start) /\ is_ok r = false.
Proof. apply (governance_only cfg5 "addrgov" (mkCoin "uterp" 1) silent ctx0); by vm_compute. Defined.

(** The authority adds an uploader of circuits where the uploaders of code are listed. *)
Definition listed : RW := set_store (set_params (mkParams (mkAccess AccessTypeAnyOfAddresses ["addrann"%string])
  AccessTypeEverybody AllowEverybody "") chain0) start.
Definition add_bob : TxMsg := MsgAddCircuitUploadParamsAddresses "addrgov" ["addrbob"%string].

Lemma upload_lists_effect_witness : is_ok (serve add_bob listed).1 = true /\
  "addrbob"%string ∈ Addresses (CodeUploadAccess (ch_params (store (serve add_bob listed).2))) /\
  CircuitUploadAccess (ch_params (store (serve add_bob listed).2)) = AllowEverybody.
Proof.
  split; [by vm_compute|].
  destruct (upload_lists_effect cfg5 "addrgov" (mkCoin "uterp" 1) silent ctx0 add_bob ["addrbob"%string] [] listed
    EmptyResponse (serve add_bob listed).2) as (Hin&_&_&Hc&_); [done|by vm_compute|].
  split; [|exact Hc]. apply Hin. split; [right|]; set_solver.
Defined.

(** A packet put aside and acknowledged. *)
Definition packet1 : Packet := mkPacket 3 "wasm.src" "channel-0" "wasm.dst" "channel-1" "ping" (mkHeight 0 0) 9.
Definition waiting : RW := (with_async (StoreAsyncAckPacket (convertPacket (newIBCPacket packet1))) start).2.
Definition acked : RW :=
  (IBCRawPacketHandler_DispatchMsg (DestinationPort packet1) (DestinationPort packet1) (ack_message "channel-1" 3 "pong") waiting).2.

Lemma late_acknowledgement_once_witness :
  IBCRawPacketHandler_DispatchMsg (DestinationPort packet1) (DestinationPort packet1) (ack_message "channel-1" 3 "again") acked =
  (Err "ErrInvalid", acked).
Proof.
  refine (proj1 (proj2 (late_acknowledgement_once packet1 "pong" "again" (DestinationPort packet1) start waiting acked _ _ _ _ _)) _).
  - by vm_compute.
  - done.
  - done.
  - by vm_compute.
  - done.
  - done.
Defined.

End ServerWitness.
