(* ===== verification/WasmApp.v ===== *)
(** * x/wasm: contracts calling contracts

    The dispatcher, the message server and the IBC module call each other: a
    message of a contract may run another contract, whose messages are handled
    in turn, up to the call depth of the keeper.  Recursion is bounded by fuel,
    which the call depth shows to be enough. *)

From Stdlib Require Import ZArith Lia Ascii FunctionalExtensionality.
From stdpp Require Import base gmap strings list sorting.
From S2P Require Import Prelude Sdk SdkRef Store GoLib Bank WasmAccess WasmGas WasmDispatch WasmCircuits.
From S2P Require Import WasmContracts WasmPackets WasmLifecycle WasmSteps WasmRefine WasmIBC WasmDeposits WasmMsgs.
From S2P Require Import WasmServer.

(** ** The router *)

(** What the rest of the chain may call in this module: its messages, its IBC
    callbacks, and [Sudo] of the keeper, which hooks and authenticators of other
    modules call without a message. *)
Inductive AppCall := AppTx (m : TxMsg) | AppIbc (c : IbcCall) | AppSudo (contract msg : string).
Inductive AppResult := AppTxResult (r : CallResult) | AppIbcResult (r : IbcResult) | AppSudoResult (data : option string).

(** The message router of the application: validation of the messages of other
    modules, the signers of a message, the wrapper around the handlers of this
    module, and the handlers of other modules, which may call this one. *)
Class MsgRouter (W : Type) := {
  Other_ValidateBasic : SdkMsg -> res unit;
  MsgSigners : SdkMsg -> res (list string);
  RouteTx : M W TxResponse -> M W CallResult;
  RouteOther : Ctx -> (AppCall -> M W AppResult) -> SdkMsg -> option (M W CallResult)
}.

(** ** The knot *)

Section App.
Context {B A Acct X G : Type} `{BankOps B} `{BankSend B} `{AccountKeeper A Acct} `{GasMeterOps G}
  `{Bech32} `{AddrPrefix} `{CircuitVM} `{AddressOps} `{JsonOps} `{ExtensionOps} `{SdkCoins} `{TextOps} `{Unicode}
  `{AuthorityOps} `{GoErrors} `{CodecOps} `{IbcOps X} `{PacketOps X}
  `{WasmVM (World (Chain B A X) G) G CosmosMsg} `{MsgRouter (World (Chain B A X) G)}.
Context (cfg : Config) (authority : string) (yearly : Coin).

Abbreviation S := (Chain B A X).
Abbreviation W := (World S G).
Abbreviation Dispatcher := (Ctx -> string -> string -> list (SubMsg CosmosMsg) -> M W (option string)).

(** A call of the module, for a given dispatcher. *)
Definition app (D : Dispatcher) (ctx : Ctx) (c : AppCall) : M W AppResult :=
  match c with
  | AppTx m => r ← RouteTx (server cfg authority yearly D ctx m); mret (AppTxResult r)
  | AppIbc c => r ← ibc_call cfg D ctx c; mret (AppIbcResult r)
  | AppSudo contract msg => data ← Sudo cfg D ctx contract msg; mret (AppSudoResult data)
  end.

Definition sdk_router (D : Dispatcher) (ctx : Ctx) : SdkRouter S G CosmosMsg SdkMsg := {|
  Encode addr port msg := MessageEncoders_Encode GetPort addr msg;
  ValidateBasic m := match m with TxM t => TxMsg_ValidateBasic t | _ => Other_ValidateBasic m end;
  GetMsgV1Signers m := MsgSigners m;
  Handler m := match m with
               | TxM t => Some (RouteTx (server cfg authority yearly D ctx t))
               | _ => RouteOther ctx (app D ctx) m
               end |}.

(** [NewDefaultMessageHandler]. *)
Definition messenger (D : Dispatcher) (ctx : Ctx) : Messenger S G CosmosMsg := {|
  DispatchMsg := MessageHandlerChain_DispatchMsg
    [SDKMessageHandler_DispatchMsg (H := sdk_router D ctx); IBCRawPacketHandler_DispatchMsg;
     IBC2RawPacketHandler_DispatchMsg; BurnCoinMessageHandler] |}.

Definition replyer (D : Dispatcher) (ctx : Ctx) : Replyer S G := {| reply := keeper_reply cfg D ctx |}.

(** The dispatcher of messages whose calls are dispatched by [D]. *)
Definition dispatch_with (D : Dispatcher) : Dispatcher := fun ctx addr port msgs =>
  DispatchSubmessages (H2 := messenger D ctx) (H3 := replyer D ctx) addr port msgs.

Fixpoint dispatcher (fuel : nat) : Dispatcher :=
  match fuel with
  | O => fun _ _ _ _ => panic "out of fuel"
  | Datatypes.S fuel => dispatch_with (dispatcher fuel)
  end.

(** The call depth of a context, and the fuel that is left at that depth. *)
Definition call_depth (ctx : Ctx) : Z := default 0 (cCallDepth ctx).
Definition fuel_for (ctx : Ctx) : nat := Datatypes.S (Z.to_nat (maxCallDepth cfg - call_depth ctx)).

Definition dispatch : Dispatcher := fun ctx => dispatcher (fuel_for ctx) ctx.

End App.

(** ** Calls return: the depth bounds the recursion *)

Lemma bind_ext {S A B} (m1 m2 : M S A) (f g : A -> M S B) : m1 = m2 -> (forall x, f x = g x) -> m1 ≫= f = m2 ≫= g.
Proof.
  intros -> Hfg. apply functional_extensionality. intros s. unfold mbind, M_bind.
  destruct (m2 s) as [[a|e|p] s1]; [by rewrite Hfg|done..].
Qed.

Section Termination.
Context {B A Acct X G : Type} `{BankOps B} `{BankSend B} `{AccountKeeper A Acct} `{GasMeterOps G}
  `{Bech32} `{AddrPrefix} `{CircuitVM} `{AddressOps} `{JsonOps} `{ExtensionOps} `{SdkCoins} `{TextOps} `{Unicode}
  `{AuthorityOps} `{GoErrors} `{CodecOps} `{IbcOps X} `{PacketOps X}
  `{WasmVM (World (Chain B A X) G) G CosmosMsg} `{MsgRouter (World (Chain B A X) G)}.
Context (cfg : Config) (authority : string) (yearly : Coin).

Abbreviation W := (World (Chain B A X) G).
Abbreviation Dispatcher := (Ctx -> string -> string -> list (SubMsg CosmosMsg) -> M W (option string)).

(** The dispatchers agree one call below the context. *)
Definition agree_below (d : Z) (D1 D2 : Dispatcher) : Prop :=
  forall ctx, call_depth ctx = u32 (d + 1) -> call_depth ctx <= maxCallDepth cfg -> D1 ctx = D2 ctx.

Section Agree.
Context (D1 D2 : Dispatcher) (d : Z) (Hagree : agree_below d D1 D2).

(** Equal without computing. *)
Ltac syntactic := match goal with |- ?x = ?x => reflexivity end.

Lemma response_ext ctx addr port r : call_depth ctx = d ->
  handleContractResponse cfg D1 ctx addr port r = handleContractResponse cfg D2 ctx addr port r.
Proof.
  intros Hd. unfold handleContractResponse. do 4 (apply bind_ext; [syntactic|intros ?]).
  apply functional_extensionality. intros w. unfold mbind, M_bind, lift.
  destruct (checkAndIncreaseCallDepth ctx (maxCallDepth cfg)) as [ctx'|e|e] eqn:E; [|done..].
  unfold checkAndIncreaseCallDepth in E. apply res_bind_Ok in E as ([]&Hle%refuse_Ok&[= <-]). apply Z.ltb_ge in Hle.
  unfold Handle. rewrite (Hagree (WithCallDepth ctx _)); [done|by cbn; rewrite <- Hd|done].
Qed.

(** [same] compares two bodies statement by statement. *)
Ltac same :=
  repeat first [ syntactic | by apply response_ext | apply bind_ext; [|intros ?]
               | match goal with |- (match ?x with _ => _ end) = _ => destruct x end ].

Lemma execute_ext ctx addr caller msg coins : call_depth ctx = d ->
  execute cfg D1 ctx addr caller msg coins = execute cfg D2 ctx addr caller msg coins.
Proof. intros Hd. unfold execute. same. Qed.

Lemma sudo_ext ctx addr msg : call_depth ctx = d -> Sudo cfg D1 ctx addr msg = Sudo cfg D2 ctx addr msg.
Proof. intros Hd. unfold Sudo. same. Qed.

Lemma reply_ext ctx addr r : call_depth ctx = d -> keeper_reply cfg D1 ctx addr r = keeper_reply cfg D2 ctx addr r.
Proof. intros Hd. unfold keeper_reply. same. Qed.

Lemma instantiate_ext ctx id creator admin msg label deposit gen pol : call_depth ctx = d ->
  instantiate cfg D1 ctx id creator admin msg label deposit gen pol =
  instantiate cfg D2 ctx id creator admin msg label deposit gen pol.
Proof. intros Hd. unfold instantiate. same. Qed.

Lemma migrate_ext ctx addr caller id msg pol : call_depth ctx = d ->
  migrate cfg D1 ctx addr caller id msg pol = migrate cfg D2 ctx addr caller id msg pol.
Proof. intros Hd. unfold migrate. same. Qed.

Lemma server_ext ctx m : call_depth ctx = d ->
  server cfg authority yearly D1 ctx m = server cfg authority yearly D2 ctx m.
Proof.
  intros Hd. destruct m; cbn [server]; try syntactic.
  - unfold server_InstantiateContract. same.
  - unfold server_InstantiateContract2. same.
  - unfold server_ExecuteContract. same.
  - unfold server_MigrateContract. same.
  - unfold server_SudoContract. same.
  - unfold server_StoreAndInstantiateContract. same.
  - unfold server_StoreAndMigrateContract. same.
Qed.

Lemma basic_ext ctx addr port r : call_depth ctx = d ->
  handleIBCBasicContractResponse cfg D1 ctx addr port r = handleIBCBasicContractResponse cfg D2 ctx addr port r.
Proof. intros Hd. unfold handleIBCBasicContractResponse. same. Qed.

Lemma ibc_basic_ext ctx addr msg : call_depth ctx = d -> ibc_basic cfg D1 ctx addr msg = ibc_basic cfg D2 ctx addr msg.
Proof. intros Hd. unfold ibc_basic. same. by apply basic_ext. Qed.

Lemma ibc2_basic_ext ctx addr msg : call_depth ctx = d -> ibc2_basic cfg D1 ctx addr msg = ibc2_basic cfg D2 ctx addr msg.
Proof. intros Hd. unfold ibc2_basic. same. by apply basic_ext. Qed.

Lemma recv_ext ctx addr p relayer : call_depth ctx = d ->
  keeper_OnRecvPacket cfg D1 ctx addr p relayer = keeper_OnRecvPacket cfg D2 ctx addr p relayer.
Proof. intros Hd. unfold keeper_OnRecvPacket. same. Qed.

Lemma recv2_ext ctx addr msg : call_depth ctx = d -> OnRecvIBC2Packet cfg D1 ctx addr msg = OnRecvIBC2Packet cfg D2 ctx addr msg.
Proof. intros Hd. unfold OnRecvIBC2Packet. apply (f_equal failed_result). same. Qed.

Lemma ibc_call_ext ctx c : call_depth ctx = d -> ibc_call cfg D1 ctx c = ibc_call cfg D2 ctx c.
Proof.
  intros Hd. destruct c; cbn [ibc_call];
    try syntactic; (apply bind_ext; [|intros ?; syntactic]).
  1-4: unfold OnChanOpenAck, OnChanOpenConfirm, OnChanCloseInit, OnChanCloseConfirm;
    (apply bind_ext; [syntactic|]); intros [[? ?] ?]; (apply bind_ext; [syntactic|intros ?]); by apply ibc_basic_ext.
  - unfold OnRecvPacket. apply bind_ext; [syntactic|intros ?]. apply (f_equal (report_receipt _)). by apply recv_ext.
  - unfold OnAcknowledgementPacket. apply bind_ext; [syntactic|intros ?]. by apply ibc_basic_ext.
  - unfold OnTimeoutPacket. apply bind_ext; [syntactic|intros ?]. by apply ibc_basic_ext.
  - unfold IBCOnAcknowledgementPacketCallback. apply bind_ext; [syntactic|intros ?]. by apply ibc_basic_ext.
  - unfold IBCOnTimeoutPacketCallback. apply bind_ext; [syntactic|intros ?]. by apply ibc_basic_ext.
  - unfold IBCReceivePacketCallback. do 2 (apply bind_ext; [syntactic|intros ?]). by apply ibc_basic_ext.
  - unfold IBC2_OnSendPacket. do 2 (apply bind_ext; [syntactic|intros ?]). by apply ibc2_basic_ext.
  - unfold IBC2_OnRecvPacket. apply bind_ext; [syntactic|intros ?]. apply (f_equal (report_receipt2 _)). by apply recv2_ext.
  - unfold IBC2_OnTimeoutPacket. apply bind_ext; [syntactic|intros ?]. by apply ibc2_basic_ext.
  - unfold IBC2_OnAcknowledgementPacket. apply bind_ext; [syntactic|intros ?]. by apply ibc2_basic_ext.
Qed.

Lemma app_ext ctx : call_depth ctx = d -> app cfg authority yearly D1 ctx = app cfg authority yearly D2 ctx.
Proof.
  intros Hd. apply functional_extensionality. intros [m|c|a m]; cbn [app].
  - by rewrite (server_ext ctx m Hd).
  - by rewrite (ibc_call_ext ctx c Hd).
  - by rewrite (sudo_ext ctx a m Hd).
Qed.

Lemma router_ext ctx : call_depth ctx = d ->
  sdk_router cfg authority yearly D1 ctx = sdk_router cfg authority yearly D2 ctx.
Proof.
  intros Hd. unfold sdk_router. rewrite (app_ext ctx Hd).
  assert (server cfg authority yearly D1 ctx = server cfg authority yearly D2 ctx) as ->; [|syntactic].
  apply functional_extensionality. intros m. by apply server_ext.
Qed.

Lemma dispatch_with_ext ctx : call_depth ctx = d ->
  dispatch_with cfg authority yearly D1 ctx = dispatch_with cfg authority yearly D2 ctx.
Proof.
  intros Hd. unfold dispatch_with, messenger, replyer. rewrite (router_ext ctx Hd).
  assert (keeper_reply cfg D1 ctx = keeper_reply cfg D2 ctx) as ->; [|syntactic].
  do 2 (apply functional_extensionality; intros ?). by apply reply_ext.
Qed.

End Agree.

Lemma dispatcher_stable n m ctx : maxCallDepth cfg < 2 ^ 32 - 1 -> 0 <= call_depth ctx <= maxCallDepth cfg ->
  (fuel_for cfg ctx <= n)%nat -> (fuel_for cfg ctx <= m)%nat ->
  dispatcher cfg authority yearly n ctx = dispatcher cfg authority yearly m ctx.
Proof.
  intros Hmax. revert m ctx. induction n as [|n IH]; intros [|m] ctx Hd Hn Hm; unfold fuel_for in *; try lia.
  cbn [dispatcher]. apply (dispatch_with_ext _ _ (call_depth ctx)); [|done].
  intros ctx' E Hle. rewrite E in *. unfold u32 in *. rewrite Z.mod_small in * by lia.
  apply IH; rewrite ?E; lia.
Qed.

(** C5: contracts calling contracts always come to an end: within the call depth
    of the keeper, the bounded dispatcher satisfies the unbounded equation in
    which a contract's messages are handled by the whole module again, and more
    fuel than the depth that is left changes nothing; whatever contracts return
    and whatever handlers other modules have. *)
Theorem nested_calls_return ctx : maxCallDepth cfg < 2 ^ 32 - 1 -> 0 <= call_depth ctx <= maxCallDepth cfg ->
  dispatch cfg authority yearly ctx = dispatch_with cfg authority yearly (dispatch cfg authority yearly) ctx /\
  forall n, (fuel_for cfg ctx <= n)%nat ->
    dispatcher cfg authority yearly n ctx = dispatch cfg authority yearly ctx.
Proof.
  intros Hmax Hd. split.
  - unfold dispatch at 1. cbn [fuel_for dispatcher]. apply (dispatch_with_ext _ _ (call_depth ctx)); [|done].
    intros ctx' E Hle. unfold u32 in E. rewrite Z.mod_small in E by lia.
    apply dispatcher_stable; [done|lia| |done]. unfold fuel_for. lia.
  - intros n Hn. by apply dispatcher_stable.
Qed.

End Termination.

(** ** Calls take steps *)

(** Documented of the router: it runs a handler of this module on a fresh event
    manager and commits nothing of its own, and the signer of a message is the
    account its message names. *)
Class MsgRouterLaws {B A X G : Type} `{Bech32} `{MsgRouter (World (Chain B A X) G)} : Prop := {
  route_tx_store h w r w' : RouteTx h w = (r, w') -> returns r ->
    exists x w1, h (set_evs [] w) = (x, w1) /\ returns x /\ store w' = store w1;
  tx_signers m l a : MsgSigners (TxM m) = Ok l -> AccAddressFromBech32 (actor m) = Ok a -> l = [a]
}.

(** The part of a call that is made in the name of an account is made for one that
    consents. *)
Definition made_for `{Bech32} (consents : string -> Prop) (c : AppCall) : Prop :=
  match c with AppTx t => forall a, AccAddressFromBech32 (actor t) = Ok a -> consents a | _ => True end.

(** Documented of other modules: they reach codes and contracts only through
    this module, by its IBC callbacks, by [Sudo] on any contract (x/cw-hooks in the
    hooks of staking and governance, x/hashmerchant and x/smart-account), and by
    messages of accounts that have consented to that, through a grant or as a
    proposal. *)
Class OtherModules {B A X G : Type} `{Bech32} `{MsgRouter (World (Chain B A X) G)} (consents : string -> Prop) : Prop := {
  other_reaches (R : Chain B A X -> Chain B A X -> Prop) `{PreOrder _ R} ctx (call : AppCall -> M (World (Chain B A X) G) AppResult)
      m h w r w' :
    (forall s s', quiet s s' -> R s s') ->
    (forall c w r w', made_for consents c ->
       call c w = (r, w') -> returns r -> R (store w) (store w')) ->
    RouteOther ctx call m = Some h -> h w = (r, w') -> returns r -> R (store w) (store w')
}.

Section AppSteps.
Context {B A Acct X G : Type} `{BankOps B} `{BankSend B} `{AccountKeeper A Acct} `{GasMeterOps G}
  `{Bech32Laws} `{AddrPrefixLaws} `{CircuitVM} `{AddressOps} `{JsonOps} `{ExtensionOps} `{SdkCoins} `{TextOps} `{Unicode}
  `{AuthorityOps} `{GoErrors} `{CodecOps} `{IbcOps X} `{PacketOps X}
  `{WasmVM (World (Chain B A X) G) G CosmosMsg} `{MsgRouter (World (Chain B A X) G)} `{!MsgRouterLaws}.
Context (cfg : Config) (authority : string) (yearly : Coin).

Abbreviation W := (World (Chain B A X) G).
Abbreviation Dispatcher := (Ctx -> string -> string -> list (SubMsg CosmosMsg) -> M W (option string)).

Context (gov : bool) (origin : string -> Prop) `{!OtherModules origin}.

(** Without governance, neither an origin nor a contract is the authority. *)
Hypothesis origin_no_authority : gov = true \/ forall s a, AccAddressFromBech32 s = Ok a ->
  origin a \/ String.length a = ContractAddrLen -> is_ok (ValidateAuthority authority s) = false.

Abbreviation Steps := (Steps (B:=B) (A:=A) (X:=X) (G:=G) gov origin).

Lemma contract_stable addr s s' : wsteps gov origin s s' ->
  has_contract addr (view (B:=B) (A:=A) (X:=X) s) -> has_contract addr (view s').
Proof. intros Hs Hc. exact (wsteps_keep _ _ _ _ _ Hs Hc). Qed.

(** *** A messenger and a replyer that take steps *)

Section Submessages.
Context `{Messenger (Chain B A X) G CosmosMsg} `{Replyer (Chain B A X) G}.
Context (addr port : string).
Hypothesis msg_steps : forall msg, Steps (has_contract addr) (DispatchMsg addr port msg).
Hypothesis reply_steps_ : forall r, Steps (fun _ => True) (reply addr r).

Lemma charged_store n (w : W) x w' : charge n w = (x, w') -> store w' = store w.
Proof. unfold charge, zoom. destruct (ConsumeGas n _). by intros [= _ <-]. Qed.

Lemma call_sub_store msg (w : W) c w' : callSubMsg addr port msg w = (Ok c, w') ->
  exists w0 w1, store w0 = store w /\ DispatchMsg addr port (SubMsg_Msg msg) w0 = (Ok c, w1) /\ store w1 = store w'.
Proof.
  unfold callSubMsg, dispatchMsgWithGasLimit. intros E.
  destruct (SubGasLimit msg) as [l|]; [destruct (l <? _)|]; [|by exists w, w'..].
  destruct (DispatchMsg _ _ _ _) as [r sub] eqn:E1. exists (set_meter (NewGasMeter l) w), sub. split; [done|].
  assert (Hrec : forall a b p v, recovered a b p v <> (Ok c, w')).
  { intros a b p v. unfold recovered. case_decide; intros (?&?&_&E')%bind_Ok; done. }
  destruct r as [c'|e|p]; [|..].
  - destruct (charge _ _) as [[x|e|p] back] eqn:E2; [| |by apply Hrec in E].
    + injection E as -> <-. split; [done|]. by apply charged_store in E2.
    + injection E as -> <-. split; [done|]. by apply charged_store in E2.
  - destruct (charge _ _) as [[x|e'|p] back]; [done..|]. by apply Hrec in E.
  - by apply Hrec in E.
Qed.

Lemma sandbox_steps msg : Steps (has_contract addr) (sandbox addr port msg).
Proof.
  intros w r w' HP Hsz E Hr. unfold sandbox in E. destruct (callSubMsg _ _ _ _) as [[c|e|p] sub] eqn:E1.
  - injection E as <- <-. cbn [store set_evs]. apply call_sub_store in E1 as (w0&w1&E0&E1&E2). cbn in E0.
    rewrite <- E2, <- E0. rewrite <- E0 in HP, Hsz. by eapply msg_steps.
  - injection E as <- <-. done.
  - by injection E as <- <-.
Qed.

Lemma submessages_steps msgs rsp : Steps (has_contract addr) (DispatchSubmessages_from addr port msgs rsp).
Proof.
  revert rsp. induction msgs as [|msg msgs IH]; intros rsp; cbn [DispatchSubmessages_from]; [stepwise|].
  apply Steps_refuse. intros _. apply Steps_stable; [apply sandbox_steps|intros; by eapply contract_stable|].
  intros x. cbv zeta. quietly. destruct (_ || _); [apply IH|].
  apply Steps_stable; [eapply Steps_weaken; [|apply reply_steps_]; done|intros; by eapply contract_stable|auto].
Qed.

End Submessages.

(** *** The messenger of the module *)

Lemma chain_steps (handlers : list (string -> string -> CosmosMsg -> M W CallResult)) addr port msg :
  Forall (fun h => Steps (has_contract addr) (h addr port msg)) handlers ->
  Steps (has_contract addr) (MessageHandlerChain_DispatchMsg handlers addr port msg).
Proof.
  induction 1 as [|h l Hh _ IH]; cbn [MessageHandlerChain_DispatchMsg]; [stepwise|].
  intros w r w' HP Hsz E Hr. destruct (h addr port msg w) as [[c|e|p] w1] eqn:E1.
  - injection E as <- <-. by eapply Hh.
  - assert (Hs : wsteps gov origin (store w) (store w1)) by by eapply Hh.
    case_decide; [|by injection E as <- <-]. transitivity (store w1); [done|].
    eapply IH; [by eapply contract_stable|by eapply wsteps_sized|done..].
  - by injection E as <- <-.
Qed.

Lemma Keeps_packet_result r : Preserves wview (packet_result (B:=B) (A:=A) (X:=X) (G:=G) r).
Proof. unfold packet_result. preserves. Qed.
#[local] Hint Resolve Keeps_packet_result : quiet.

Lemma Keeps_raw addr port msg : Preserves wview (IBCRawPacketHandler_DispatchMsg (B:=B) (A:=A) (G:=G) addr port msg).
Proof. unfold IBCRawPacketHandler_DispatchMsg. preserves. Qed.

Lemma Keeps_raw2 addr port msg : Preserves wview (IBC2RawPacketHandler_DispatchMsg (B:=B) (A:=A) (G:=G) addr port msg).
Proof. unfold IBC2RawPacketHandler_DispatchMsg. preserves. Qed.

Lemma Keeps_burn addr port msg : Preserves wview (BurnCoinMessageHandler (A:=A) (X:=X) (G:=G) addr port msg).
Proof. unfold BurnCoinMessageHandler. preserves. Qed.

Lemma Keeps_encode port addr msg : Preserves wview (MessageEncoders_Encode (S:=Chain B A X) (G:=G) port addr msg).
Proof. unfold MessageEncoders_Encode, EncodeAnyMsg. preserves. Qed.

Section Messages.
Context (D : Dispatcher).
Hypothesis subs_steps : forall ctx addr port msgs, ctx_ok gov ctx -> Steps (has_contract addr) (D ctx addr port msgs).

(** A message of the module, for a signer that may act. *)
Lemma tx_steps ctx m : ctx_ok gov ctx -> without_authority authority gov (actor m) ->
  Steps (signer_acts origin m) (RouteTx (server cfg authority yearly D ctx m)).
Proof.
  intros Hctx Hna w r w' HP Hsz E Hr. destruct (route_tx_store _ _ _ _ E Hr) as (x&w1&E1&Hx&->).
  exact (server_steps cfg authority yearly D gov origin subs_steps ctx m Hctx Hna (set_evs [] w) x w1 HP Hsz E1 Hx).
Qed.

(** A call by another module. *)
Lemma app_steps ctx c : ctx_ok gov ctx -> made_for origin c ->
  Steps (fun _ => True) (app cfg authority yearly D ctx c).
Proof.
  intros Hctx Hc. destruct c as [m|c|a m]; cbn [app]; (apply Steps_last; [|preserves]).
  - eapply Steps_weaken; [|apply tx_steps; [done|]].
    + intros v _ a Ha. left. auto.
    + destruct origin_no_authority as [Hg|Hno]; [by left|right]. intros a Ha. apply (Hno _ a Ha). auto.
  - by apply ibc_call_steps.
  - by apply sudo_steps.
Qed.

Lemma other_steps ctx m h P : ctx_ok gov ctx -> RouteOther ctx (app cfg authority yearly D ctx) m = Some h -> Steps P h.
Proof.
  intros Hctx Hh w r w' _ Hsz E Hr.
  assert (HR : PreOrder (fun s s' : Chain B A X => sized s -> wsteps gov origin s s')).
  { split; [by intros s|]. intros s1 s2 s3 Hab Hbc Hs. transitivity s2; [by apply Hab|].
    apply Hbc. eapply wsteps_sized; [|done]. by apply Hab. }
  revert Hsz. refine (other_reaches (fun s s' => sized s -> wsteps gov origin s s') ctx _ m h w r w' _ _ Hh E Hr).
  - intros s s' Hq _. by apply quiet_steps.
  - intros c v x v' Hc Ec Hx Hv. by eapply (app_steps ctx c Hctx Hc v x v' I).
Qed.

Lemma sdk_message_steps ctx addr m : ctx_ok gov ctx ->
  Steps (has_contract addr) (handleSdkMessage (H := sdk_router cfg authority yearly D ctx) addr m).
Proof.
  intros Hctx. apply (Steps_fact _ _ _ (String.length addr = ContractAddrLen)); [auto|]. intros Hlen.
  unfold handleSdkMessage. quietly. apply Steps_lift. intros signers Hsg. apply Steps_ensure. intros Hall.
  cbn [Handler sdk_router]. destruct m; try (destruct (RouteOther _ _ _) eqn:Eh; [by eapply other_steps|stepwise]).
  assert (Hsame : forall a, AccAddressFromBech32 (actor m) = Ok a -> a = addr).
  { intros a Ha. rewrite (tx_signers _ _ _ Hsg Ha) in Hall. cbn in Hall. rewrite andb_true_r in Hall.
    by apply String.eqb_eq in Hall. }
  eapply Steps_weaken; [|apply tx_steps; [done|]].
  - intros v Hv a Ha. right. by rewrite (Hsame a Ha).
  - destruct origin_no_authority as [Hg|Hno]; [by left|right]. intros a Ha. apply (Hno _ a Ha). right. by rewrite (Hsame a Ha).
Qed.

Lemma sdk_messages_steps ctx addr msgs acc : ctx_ok gov ctx ->
  Steps (has_contract addr) (handleSdkMessages (H := sdk_router cfg authority yearly D ctx) addr msgs acc).
Proof.
  intros Hctx. revert acc. induction msgs as [|m msgs IH]; intros acc; cbn [handleSdkMessages]; [stepwise|].
  apply Steps_stable; [by apply sdk_message_steps|intros; by eapply contract_stable|auto].
Qed.

Lemma dispatch_with_steps ctx addr port msgs : ctx_ok gov ctx ->
  Steps (has_contract addr) (dispatch_with cfg authority yearly D ctx addr port msgs).
Proof.
  intros Hctx. apply submessages_steps.
  - intros msg. cbn [DispatchMsg messenger]. apply chain_steps. repeat constructor.
    + unfold SDKMessageHandler_DispatchMsg. apply Steps_quiet; [apply Keeps_encode|]. intros x. by apply sdk_messages_steps.
    + apply Steps_Keeps, Keeps_raw.
    + apply Steps_Keeps, Keeps_raw2.
    + apply Steps_Keeps, Keeps_burn.
  - intros r. cbn [reply replyer]. by apply reply_steps.
Qed.

End Messages.

Lemma dispatcher_steps fuel ctx addr port msgs : ctx_ok gov ctx ->
  Steps (has_contract addr) (dispatcher cfg authority yearly fuel ctx addr port msgs).
Proof.
  revert ctx addr port msgs. induction fuel as [|fuel IH]; intros ctx addr port msgs Hctx; cbn [dispatcher].
  - by intros w r w' _ _ [= <- <-] [].
  - by apply dispatch_with_steps.
Qed.

Lemma call_steps ctx c : ctx_ok gov ctx -> made_for origin c ->
  Steps (fun _ => True) (app cfg authority yearly (dispatch cfg authority yearly) ctx c).
Proof. apply app_steps. intros. by apply dispatcher_steps. Qed.

End AppSteps.

(** ** What holds of every call *)

Section Theorems.
Context {B A Acct X G : Type} `{BankOps B} `{BankSend B} `{AccountKeeper A Acct} `{GasMeterOps G}
  `{Bech32Laws} `{AddrPrefixLaws} `{CircuitVM} `{AddressOps} `{JsonOps} `{ExtensionOps} `{SdkCoins} `{TextOps} `{Unicode}
  `{AuthorityOps} `{GoErrors} `{CodecOps} `{IbcOps X} `{PacketOps X}
  `{WasmVM (World (Chain B A X) G) G CosmosMsg} `{MsgRouter (World (Chain B A X) G)} `{!MsgRouterLaws}.
Context (cfg : Config) (authority : string) (yearly : Coin).

Abbreviation S := (Chain B A X).
Abbreviation W := (World S G).
Abbreviation run := (app (B:=B) (A:=A) (X:=X) (G:=G) cfg authority yearly (dispatch cfg authority yearly)).

(** C4: the registry of contracts stays consistent: whatever message, IBC call
    or hook the module handles, whatever the contracts return and however deep they call
    each other, a call that returns, with or without an error, leaves the infos,
    the histories and both secondary indexes describing the same contracts, each
    on a stored code, if they did before. *)
Theorem calls_keep_registry `{!OtherModules (fun _ => True)} ctx c (w : W) r w' :
  is_u64 (cBlockGas ctx) -> consistent (store w) -> run ctx c w = (r, w') -> returns r ->
  history_fits (store w') -> consistent (store w').
Proof.
  intros Hg Hc E Hr Hfit. eapply (wsteps_consistent true (fun _ => True)); [done| |done].
  eapply (call_steps cfg authority yearly true (fun _ => True) (or_introl eq_refl) ctx c); [| |done|..|done|done].
  - split; [|done]. intros p _. by left.
  - by destruct c.
  - by destruct Hc as [a [_ ? _]].
Qed.

(** C1: nobody but its admin changes a contract.  A call is made for some
    accounts: the signer, and those that have consented to messages of other
    modules in their name.  If none of them has the authority of the chain, nor
    has a contract, then a contract whose admin is not one of these accounts and
    not a contract keeps its code, its admin and its label, whatever contracts
    the call reaches, be it through messages, IBC callbacks or the hooks by which
    other modules call contracts on their own. *)
Theorem only_admin_changes (origin : string -> Prop) `{!OtherModules origin} ctx c (w : W) r w' addr info admin :
  (forall s a, AccAddressFromBech32 s = Ok a -> origin a \/ String.length a = ContractAddrLen ->
     is_ok (ValidateAuthority authority s) = false) ->
  made_for origin c ->
  cPolicy ctx = None -> is_u64 (cBlockGas ctx) -> sized (store w) ->
  run ctx c w = (r, w') -> returns r ->
  cinfos (ch_con (store w)) !! addr = Some info -> AdminAddr info = Ok admin ->
  ~ origin admin -> cinfos (ch_con (store w')) !! admin = None ->
  exists info', cinfos (ch_con (store w')) !! addr = Some info' /\
    CodeID info' = CodeID info /\ Admin info' = Admin info /\ Label info' = Label info.
Proof.
  intros Hauth Hc Hpol Hg Hsz E Hr Hi Had Hno Hna.
  assert (Hs : wsteps false origin (store w) (store w')).
  { eapply (call_steps cfg authority yearly false origin (or_intror Hauth) ctx c); [|done|exact I|done..].
    split; [|done]. by rewrite Hpol. }
  destruct (wsteps_protected _ _ _ _ _ _ Hs Hi Had Hno Hna) as (info'&Hi'&[= ? ? ?]). eauto.
Qed.

End Theorems.

(** ** Witnesses *)

(** The chain of [ChainRef] and [ServerRef] with contracts that attack each other
    and an account that has granted the chain to execute contracts in its name. *)
Module AppRef.
Import Ref RefLaws RefBank RefBankLaws CircuitRef ChainRef ServerRef.

Abbreviation RW := (World (Chain ref_bank (gset string) unit) meter).

(** The addresses of the first two instances of code 1. *)
Definition victim : string := match BuildContractAddressClassic 1 1 with Ok a => a | _ => ""%string end.
Definition attacker : string := match BuildContractAddressClassic 1 2 with Ok a => a | _ => ""%string end.

(** An executed contract asks to become the admin of the victim, and carries on
    when that is refused. *)
Definition take_over : SubMsg CosmosMsg :=
  mkSubMsg 1 (mkCosmosMsg None None None None None None None None
    (Some (mkWasmMsg None None None None (Some (("addr" ++ victim)%string, ("addr" ++ attacker)%string)) None))) "" None ReplyError.

#[export] Instance machine : WasmVM RW meter CosmosMsg := {|
  WasmLifecycle.StoreCode _ _ := (Ok hash32, 1); SimulateStoreCode _ _ := (Ok hash32, 1);
  StoreCodeUnchecked _ := Ok hash32;
  AnalyzeCode _ := Ok (mkReport true "" None);
  VmRun _ _ call _ _ := mret (inr (Some (mkResult (Some (mkResponse
    (match call with VmExecute _ _ | VmSudo _ => [take_over] | _ => [] end) [] (Some "done"%string) [])) "")), 10) |}.

(** The other modules know one message, which executes a contract in the name of
    an account that has granted it, after a hook has called the same contract. *)
#[export] Instance router : MsgRouter RW := {|
  Other_ValidateBasic _ := Ok tt;
  MsgSigners m := match m with TxM t => a ← AccAddressFromBech32 (actor t); mret [a] | _ => Ok [] end;
  RouteTx h w := match h (set_evs [] w) with
                 | (Ok _, w') => (Ok (mkCall (evs w') [""%string] [[]]), set_evs (evs w) w')
                 | (Err e, w') => (Err e, set_evs (evs w) w')
                 | (Panic p, w') => (Panic p, set_evs (evs w) w')
                 end;
  RouteOther _ call m := match m with
                         | OtherMsg _ v => Some (call (AppSudo v "{}");; call (AppTx (MsgExecuteContract "addrgranter" v "{}" []));;
                                                 mret (mkCall [] [] []))
                         | _ => None
                         end |}.

#[export] Instance router_laws : MsgRouterLaws (B:=ref_bank) (A:=gset string) (X:=unit) (G:=meter).
Proof.
  split.
  - intros h w r w' E Hr. cbn in E. destruct (h (set_evs [] w)) as [[x|e|e] w1] eqn:Eh; injection E as <- <-;
      [by exists (Ok x), w1|by exists (Err e), w1|done].
  - intros m l a Hl Ha. cbn -[AccAddressFromBech32] in Hl. rewrite Ha in Hl. by injection Hl as <-.
Qed.

Lemma other_modules (P : string -> Prop) : P "granter"%string ->
  OtherModules (B:=ref_bank) (A:=gset string) (X:=unit) (G:=meter) P.
Proof.
  intros HP. split. intros R HR ctx call m h w r w' _ Hcall Hh E Hr. destruct m; try done. injection Hh as <-.
  unfold mbind, M_bind in E. destruct (call (AppSudo _ _) w) as [x w1] eqn:Es.
  assert (HR1 : returns x -> R (store w) (store w1)) by by intros Hx; eapply Hcall; [|exact Es|].
  destruct x as [x|e|p]; [|by injection E as <- <-; apply HR1..]. transitivity (store w1); [by apply HR1|].
  destruct (call (AppTx _) w1) as [y w2] eqn:Et.
  assert (HR2 : returns y -> R (store w1) (store w2)) by (intros Hy; eapply Hcall; [|exact Et|done]; by intros a [= <-]).
  destruct y as [y|e|p]; injection E as <- <-; by apply HR2.
Qed.

Abbreviation run := (app (B:=ref_bank) (A:=gset string) (X:=unit) (G:=meter) cfg5 "addrgov" (mkCoin "uterp" 1)
  (dispatch cfg5 "addrgov" (mkCoin "uterp" 1))).

(** One code, no contracts. *)
Definition world0 : RW := mkWorld chain0 (mkMeter 0 1000000000) [].

Lemma chain0_consistent : consistent chain0.
Proof.
  exists ∅. split; [|by intros a [i Hi]|apply empty_rep].
  intros id Hid. cbn in Hid. apply lookup_singleton_is_Some in Hid as <-. unfold is_u64. lia.
Qed.

(** A code is instantiated twice; only the first contract has an admin. *)
Definition instantiate_with (admin : string) : AppCall := AppTx (MsgInstantiateContract "addrbob" admin 1 "label" "{}" []).
Definition world1 : RW := (run ctx0 (instantiate_with "addrcarol") world0).2.
Definition world2 : RW := (run ctx0 (instantiate_with "") world1).2.

Lemma world1_consistent : consistent (store world1).
Proof.
  apply (wsteps_consistent true (fun _ => True) (store world0)); [exact chain0_consistent| |].
  - pose proof (other_modules (fun _ => True) I).
    refine (call_steps cfg5 "addrgov" (mkCoin "uterp" 1) true (fun _ => True) (or_introl eq_refl) ctx0
      (instantiate_with "addrcarol") _ _ world0 (run ctx0 (instantiate_with "addrcarol") world0).1 _ I _ _ _).
    + split; [done|]. unfold is_u64. cbn. lia.
    + done.
    + intros a [i Hi]. done.
    + apply surjective_pairing.
    + by vm_compute.
  - by vm_compute.
Qed.

End AppRef.

Module AppWitness.
Import Ref RefLaws RefBank RefBankLaws CircuitRef ChainRef ServerRef AppRef.

(** A contract that calls at depth two of five. *)
Lemma nested_calls_return_witness :
  dispatch (B:=ref_bank) (A:=gset string) (X:=unit) (G:=meter) cfg5 "addrgov" (mkCoin "uterp" 1) (WithCallDepth ctx0 2) =
  dispatch_with cfg5 "addrgov" (mkCoin "uterp" 1) (dispatch cfg5 "addrgov" (mkCoin "uterp" 1)) (WithCallDepth ctx0 2).
Proof.
  assert (Hd : 0 <= call_depth (WithCallDepth ctx0 2) <= maxCallDepth cfg5) by (cbn; lia).
  exact (proj1 (nested_calls_return cfg5 "addrgov" (mkCoin "uterp" 1) (WithCallDepth ctx0 2) eq_refl Hd)).
Defined.

(** A second contract is instantiated next to the first. *)
Lemma calls_keep_registry_witness : is_ok (run ctx0 (instantiate_with "") world1).1 = true /\ consistent (store world2).
Proof.
  split; [by vm_compute|]. pose proof (other_modules (fun _ => True) I).
  apply (calls_keep_registry cfg5 "addrgov" (mkCoin "uterp" 1) ctx0 (instantiate_with "") world1
    (run ctx0 (instantiate_with "") world1).1 world2).
  - unfold is_u64. cbn. lia.
  - exact world1_consistent.
  - apply surjective_pairing.
  - by vm_compute.
  - by vm_compute.
Defined.

(** The second contract is executed, or called by a hook of another module, tries
    to become the admin of the first one, and fails; the call succeeds. *)
Definition execute_attacker : AppCall := AppTx (MsgExecuteContract "addrbob" ("addr" ++ attacker)%string "{}" []).
Definition hook_attacker : AppCall := AppSudo attacker "{}".
Definition info1 : ContractInfo :=
  default (mkContractInfo 0 "" "" "" None "" None "") (cinfos (ch_con (store world2)) !! victim).

Lemma only_admin_changes_witness : Forall (fun c => is_ok (run ctx0 c world2).1 = true /\
  exists info', cinfos (ch_con (store (run ctx0 c world2).2)) !! victim = Some info' /\
    CodeID info' = 1 /\ Admin info' = "addrcarol"%string /\ Label info' = "label"%string) [execute_attacker; hook_attacker].
Proof.
  apply Forall_forall. intros c Hc%elem_of_cons. rewrite list_elem_of_singleton in Hc. split; [by destruct Hc as [-> | ->]; vm_compute|]. set (origin := fun a => a = "bob"%string \/ a = "granter"%string).
  pose proof (other_modules origin (or_intror eq_refl)).
  apply (only_admin_changes cfg5 "addrgov" (mkCoin "uterp" 1) origin ctx0 c world2
    (run ctx0 c world2).1 _ victim info1 "carol").
  - intros x a Ha Ho. unfold ValidateAuthority, authority_ops, ensure. destruct (String.eqb_spec "addrgov" x) as [<-|]; [|done]. injection Ha as <-.
    by destruct Ho as [[?|?]|?].
  - destruct Hc as [-> | ->]; [|done]. intros a [= <-]. by left.
  - done.
  - unfold is_u64. cbn. lia.
  - intros a [i Hi].
    assert (Hall : map_Forall (fun a (_ : ContractInfo) => String.length a = ContractAddrLen) (cinfos (ch_con (store world2)))).
    { refine (bool_decide_unpack _ _). by vm_compute. }
    exact (Hall a i Hi).
  - apply surjective_pairing.
  - by destruct Hc as [-> | ->]; vm_compute.
  - by vm_compute.
  - by vm_compute.
  - by intros [?|?].
  - by destruct Hc as [-> | ->]; vm_compute.
Defined.

(** The chain with one contract. *)
Lemma listings_are_exact_witness : exists l : list string,
  IterateContractsByCode 1 (ch_con (store world1)) = Ok l /\ NoDup l /\ victim ∈ l.
Proof.
  destruct (listings_are_exact (store world1) world1_consistent) as [Hcode _].
  destruct (Hcode 1 ltac:(unfold is_u64; lia)) as (l&Hl&Hnd&Hmem&_). exists l.*2. split_and!; [done..|].
  apply Hmem. eexists. split; by vm_compute.
Defined.

End AppWitness.
