(* ===== verification/WasmGenesis.v ===== *)
(** * x/wasm: genesis

    Validation, import and export of the module's state: codes, parameters and
    circuits with the checks that tie them together, contracts with their
    histories and stores, and the sequences. *)

From Stdlib Require Import ZArith Lia Ascii.
From stdpp Require Import base gmap strings list sorting.
From S2P Require Import Prelude Sdk SdkRef Store GoLib Bank WasmAccess WasmGas WasmDispatch WasmCircuits.
From S2P Require Import WasmContracts WasmPackets WasmLifecycle WasmSteps WasmMsgs WasmServer WasmApp.

(** ** Data *)

Record Code := mkCode { GCodeID : Z; GCodeInfo : CodeInfo; CodeBytes : string; CodePinned : bool }.
Record Circuit := mkCircuit { ZkID : Z; ZkInfo : CircuitInfo; ZkBytes : string; ZkPinned : bool }.
Record VkParam := mkVkParam { ParamID : Z; ParamKey : string; ParamCreator : string; ParamBytes : string }.
Record Contract := mkContract {
  ContractAddress : string; GContractInfo : ContractInfo; ContractState : list Model;
  ContractCodeHistory : list HistoryEntry }.
(** Sequence keys are kept without their common prefix. *)
Record Sequence := mkSequence { IDKey : string; SeqValue : Z }.
Record GenesisState := mkGenesis {
  GParams : Params; Codes : list Code; Circuits : list Circuit; VkParams : list VkParam;
  GContracts : list Contract; Sequences : list Sequence }.

(** ** Dependencies *)

(** The rest of the virtual machine: reading code and circuits back, and storing
    a circuit without checking it. *)
Class GenesisVM := {
  GetCode : string -> res string;
  vm_GetCircuit : string -> res (option string);
  StoreCircuitUnchecked : string -> res string
}.

(** ** Validation *)

(** A check of every element, in order. *)
Fixpoint each {T} (f : T -> res unit) (l : list T) : res unit :=
  match l with [] => mret tt | x :: l => f x;; each f l end.

Section Validation.
Context `{Bech32} `{JsonOps} `{ExtensionOps} `{Unicode}.

Definition MaxProposalWasmSize : Z := 3 * 1024 * 1024.

Definition Sequence_ValidateBasic (s : Sequence) : res unit :=
  refuse (String.length (IDKey s) =? 0)%nat "ErrEmpty".

Definition Model_ValidateBasic (m : Model) : res unit :=
  refuse (String.length (ModelKey m) =? 0)%nat "ErrEmpty".

Definition CodeInfo_ValidateBasic (c : CodeInfo) : res unit :=
  refuse (String.length (CodeHash c) =? 0)%nat "ErrEmpty";;
  AccAddressFromBech32 (CodeCreator c);;
  AccessConfig_ValidateBasic (CodeConfig c).

Definition CircuitInfo_ValidateBasic (z : CircuitInfo) : res unit :=
  refuse (String.length (CircuitHash z) =? 0)%nat "ErrEmpty";;
  AccAddressFromBech32 (Creator z);;
  AccessConfig_ValidateBasic (InstantiateConfig z).

(** An extension is validated when it has the method. *)
Definition ContractInfo_ValidateBasic (c : ContractInfo) : res unit :=
  refuse (CodeID c =? 0) "ErrEmpty";;
  AccAddressFromBech32 (ContractCreator c);;
  optional_admin (Admin c);;
  ValidateLabel (Label c);;
  match Extension c with None => mret tt | Some e => ext_ValidateBasic e end.

(** The operation is one of those a history may hold. *)
Definition history_type (o : HistoryOperation) : bool :=
  match o with HistoryUnspecified => false | _ => true end.

Definition HistoryEntry_ValidateBasic (c : HistoryEntry) : res unit :=
  ensure (history_type (Operation c)) "ErrInvalid";;
  refuse (HCodeID c =? 0) "ErrEmpty";;
  refuse (bool_decide (Updated c = None)) "ErrEmpty";;
  RawContractMessage_ValidateBasic (HMsg c).

Definition Code_ValidateBasic (c : Code) : res unit :=
  refuse (GCodeID c =? 0) "ErrEmpty";;
  CodeInfo_ValidateBasic (GCodeInfo c);;
  validateWasmCode (CodeBytes c) MaxProposalWasmSize.

Definition Circuit_ValidateBasic (c : Circuit) : res unit :=
  refuse (ZkID c =? 0) "ErrEmpty";;
  CircuitInfo_ValidateBasic (ZkInfo c);;
  validateCircuitCode (ZkBytes c) MaxProposalWasmSize.

Definition Contract_ValidateBasic (c : Contract) : res unit :=
  AccAddressFromBech32 (ContractAddress c);;
  ContractInfo_ValidateBasic (GContractInfo c);;
  refuse (bool_decide (Created (GContractInfo c) = None)) "ErrInvalid";;
  each Model_ValidateBasic (ContractState c);;
  refuse (bool_decide (ContractCodeHistory c = [])) "ErrEmpty";;
  each HistoryEntry_ValidateBasic (ContractCodeHistory c).

(** Parameters of circuits are not looked at. *)
Definition GenesisState_ValidateBasic (s : GenesisState) : res unit :=
  Params_ValidateBasic (GParams s);;
  each Code_ValidateBasic (Codes s);;
  each Circuit_ValidateBasic (Circuits s);;
  each Contract_ValidateBasic (GContracts s);;
  each Sequence_ValidateBasic (Sequences s).

End Validation.

(** ** Parameters and circuits *)

Definition cosmwasmFooterLength : nat := 80.

(** [b[i:j]]. *)
Definition slice (i j : nat) (b : string) : string := String.substring i (j - i) b.

(** The footer of a blob that is long enough to have one, and the length of the
    parameters it declares. *)
Definition footer_of (zkBinary : string) : string :=
  slice (String.length zkBinary - cosmwasmFooterLength) (String.length zkBinary) zkBinary.
Definition footer_param_len (zkBinary : string) : Z :=
  le_decode (string_to_bytes (slice 4 8 (footer_of zkBinary))).
Definition has_footer (zkBinary : string) : bool := (cosmwasmFooterLength <=? String.length zkBinary)%nat.

Definition circuitParamBytes (zkBinary : string) (zkInfo : CircuitInfo) : option string :=
  let paramLen := i64 (VkpLen zkInfo) in
  let paramLen := if (paramLen =? 0) && has_footer zkBinary then footer_param_len zkBinary else paramLen in
  if (paramLen <=? 0) || (slen zkBinary <=? paramLen) then None
  else Some (slice 0 (Z.to_nat paramLen) zkBinary).

Section Checks.
Context `{CircuitVM}.

Definition validateCircuitParamAlignment (zkBinary : string) (zkInfo : CircuitInfo) : res unit :=
  match circuitParamBytes zkBinary zkInfo with
  | None => mret tt
  | Some paramBytes =>
      let sum := sha256 paramBytes in
      (if has_footer zkBinary then
         ensure (String.eqb sum (slice 16 48 (footer_of zkBinary))) "footer.param_checksum";;
         ensure (footer_param_len zkBinary =? slen paramBytes) "footer.param_len"
       else mret tt);;
      if (36 <=? String.length (CircuitHash zkInfo))%nat then
        ensure (String.eqb sum (slice 4 36 (CircuitHash zkInfo))) "circuit_key param_checksum"
      else mret tt
  end.

Definition assertParamKeyMatchesCircuit (paramKey circuitHash : string) : res unit :=
  ensure (String.length paramKey =? 36)%nat "param_key length";;
  if (String.length circuitHash <? 36)%nat then mret tt
  else ensure (String.eqb paramKey (slice 0 36 circuitHash)) "StoreParam key".

(** The declared parameters by their keys. *)
Fixpoint params_by_key (l : list VkParam) (byKey : gmap string VkParam) : res (gmap string VkParam) :=
  match l with
  | [] => mret byKey
  | p :: l =>
      ensure (String.length (ParamKey p) =? 36)%nat "param_key length";;
      refuse (String.length (ParamBytes p) =? 0)%nat "empty param_bytes";;
      ensure (String.eqb (sha256 (ParamBytes p)) (slice 4 36 (ParamKey p))) "param_key checksum";;
      refuse (bool_decide (is_Some (byKey !! ParamKey p))) "duplicate param_key";;
      params_by_key l (<[ParamKey p := p]> byKey)
  end.

Definition check_circuit (byKey : gmap string VkParam) (c : Circuit) : res unit :=
  validateCircuitParamAlignment (ZkBytes c) (ZkInfo c);;
  if (String.length (CircuitHash (ZkInfo c)) <? 36)%nat then mret tt
  else match byKey !! slice 0 36 (CircuitHash (ZkInfo c)) with
       | None => Err "no matching vk_params entry"
       | Some vp =>
           match circuitParamBytes (ZkBytes c) (ZkInfo c) with
           | Some paramBytes => ensure (String.eqb paramBytes (ParamBytes vp)) "embedded params"
           | None => mret tt
           end
       end.

Definition validateGenesisParamCircuitCrossRefs (data : GenesisState) : res unit :=
  byKey ← params_by_key (VkParams data) ∅;
  each (check_circuit byKey) (Circuits data).

End Checks.

(** ** Import *)

Section Importing.
Context {B A X G Msg : Type} `{GasMeterOps G} `{Bech32} `{AddrPrefix} `{CircuitVM} `{AddressOps} `{GenesisVM}
  `{WasmVM (World (Chain B A X) G) G Msg}.
Context (gasRegister : WasmGasRegisterConfig).

Abbreviation S := (Chain B A X).
Abbreviation W := (World S G).

(** [math.MaxInt64]. *)
Definition MaxInt64 : Z := 2 ^ 63 - 1.

Definition unzip (b : string) : res string :=
  if IsGzip b then create_failed (Uncompress b MaxInt64) else Ok b.

Definition importCode (codeID : Z) (codeInfo : CodeInfo) (wasmCode : string) : M Registry unit :=
  wasmCode ← lift (unzip wasmCode);
  newCodeHash ← lift (create_failed (StoreCodeUnchecked wasmCode));
  ensureM (String.eqb (CodeHash codeInfo) newCodeHash) "ErrInvalid";;
  has ← gets (fun r => bool_decide (is_Some (codes r !! codeID)));
  refuseM has "ErrDuplicate";;
  modify (set_codes <[codeID := codeInfo]>).

(** The parameters in the blob are stored in the machine when their length is
    known. *)
Definition warm_params (zkBinary : string) (zkInfo : CircuitInfo) : res unit :=
  match circuitParamBytes zkBinary zkInfo with
  | None => mret tt
  | Some paramBytes =>
      paramKey ← create_failed (StoreParam paramBytes);
      assertParamKeyMatchesCircuit paramKey (CircuitHash zkInfo)
  end.

Definition importCircuit (zkID : Z) (zkInfo : CircuitInfo) (zkBinary : string) : M Registry unit :=
  zkBinary ← lift (unzip zkBinary);
  lift (validateCircuitParamAlignment zkBinary zkInfo);;
  lift (warm_params zkBinary zkInfo);;
  newCircuitHash ← lift (create_failed (StoreCircuitUnchecked zkBinary));
  ensureM (String.eqb (CircuitHash zkInfo) newCircuitHash) "ErrInvalid";;
  has ← gets (fun r => bool_decide (is_Some (infos r !! zkID)));
  refuseM has "ErrDuplicate";;
  modify (set_infos <[zkID := zkInfo]>);;
  modify (set_blobs <[zkID := zkBinary]>).

Definition importVkParam (paramID : Z) (info : VkParamInfoResponse) (paramBytes : string) : M Registry unit :=
  refuseM (String.length paramBytes =? 0)%nat "ErrInvalid";;
  paramKey ← lift (create_failed (StoreParam paramBytes));
  ensureM (String.length paramKey =? 36)%nat "ErrInvalid";;
  dataHash ← lift (if (String.length (DataHash info) =? 0)%nat then Ok paramKey
                   else ensure (String.eqb paramKey (DataHash info)) "ErrInvalid";; Ok (DataHash info));
  modify (set_vk_infos <[paramID := mkVkParamInfo paramID (VkCreator info) dataHash]>);;
  modify (set_vk_bytes <[paramID := paramBytes]>).

(** The elements of each kind, in order. *)
Definition init_code (c : Code) : M W unit :=
  with_reg (importCode (GCodeID c) (GCodeInfo c) (CodeBytes c));;
  if CodePinned c then with_keeper (pinCode gasRegister (GCodeID c)) else mret tt.

Definition init_param (p : VkParam) : M W unit :=
  with_reg (importVkParam (ParamID p) (mkVkParamInfo (ParamID p) (ParamCreator p) (ParamKey p)) (ParamBytes p)).

(** [PermissionedKeeper.PinCircuit] pins the code with the circuit's number. *)
Definition init_circuit (c : Circuit) : M W unit :=
  with_reg (importCircuit (ZkID c) (ZkInfo c) (ZkBytes c));;
  if ZkPinned c then with_keeper (pinCode gasRegister (ZkID c)) else mret tt.

Definition init_contract (c : Contract) : M W unit :=
  contractAddr ← lift (AccAddressFromBech32 (ContractAddress c));
  r ← gets (fun w => codes (ch_reg (store w)));
  with_con (importContract r contractAddr (GContractInfo c) (ContractState c) (ContractCodeHistory c)).

Definition init_sequence (s : Sequence) : M W unit := with_reg (importAutoIncrementID (IDKey s) (SeqValue s)).

Definition max_of {T} (f : T -> Z) (l : list T) : Z := fold_left (fun m x => Z.max m (f x)) l 0.

(** The sequences must be past the ids in use; the next address is computed with
    the number of the next instance as the id of its code. *)
Definition check_sequences (data : GenesisState) (s : S) : res unit :=
  seqVal ← PeekAutoIncrementID KeySequenceCodeID (ch_reg s);
  refuse (seqVal <=? max_of GCodeID (Codes data)) "ErrInvalid";;
  circuitSeqVal ← PeekAutoIncrementID KeySequenceCircuitID (ch_reg s);
  refuse (circuitSeqVal <=? max_of ZkID (Circuits data)) "ErrInvalid";;
  seqVal ← PeekAutoIncrementID KeySequenceInstanceID (ch_reg s);
  addr ← (ClassicAddressGenerator seqVal "" (ch_reg s)).1;
  refuse (HasContractInfo addr (ch_con s)) "ErrInvalid".

Definition InitGenesis (data : GenesisState) : M W unit :=
  modify (fun w => set_store (set_params (GParams data) (store w)) w);;
  lift (wrap_err "ErrInvalid" (validateGenesisParamCircuitCrossRefs data));;
  forM (Codes data) init_code;;
  forM (VkParams data) init_param;;
  forM (Circuits data) init_circuit;;
  forM (GContracts data) init_contract;;
  forM (Sequences data) init_sequence;;
  s ← gets store;
  lift (check_sequences data s).

End Importing.

(** ** Export *)

(** The entries of a map in the order of their big-endian keys. *)
Definition id_le {V} (x y : Z * V) : Prop := x.1 <= y.1.
#[export] Instance id_le_dec {V} : RelDecision (@id_le V).
Proof. intros x y. unfold id_le. apply _. Defined.
Definition in_order {V} (m : gmap Z V) : list (Z * V) := merge_sort id_le (map_to_list m).

Section Exporting.
Context {B A X G : Type} `{Bech32} `{CircuitVM} `{GenesisVM}.

Abbreviation S := (Chain B A X).
Abbreviation W := (World S G).

Definition getVkParamBytes (paramID : Z) (r : Registry) : res string :=
  match vk_bytes r !! paramID with Some b => Ok b | None => Err "ErrNotFound" end.

(** The blob in the store, or the one of the machine, which is then stored. *)
Definition GetCircuit (zkID : Z) : M Registry (option string) :=
  r ← get;
  match blobs r !! zkID, infos r !! zkID with
  | Some blob, _ => mret (Some blob)
  | None, None => mret None
  | None, Some info =>
      blob ← lift (vm_GetCircuit (CircuitHash info));
      match blob with
      | Some b => modify (set_blobs <[zkID := b]>);; mret (Some b)
      | None => mret None
      end
  end.

Definition GetByteCode (codeID : Z) (r : Registry) : res string :=
  match codes r !! codeID with Some i => GetCode (CodeHash i) | None => Ok ""%string end.

Definition IsPinnedCircuit (zkID : Z) (r : Registry) : bool := bool_decide (zkID ∈ pinned r).

Fixpoint export_codes (r : Registry) (l : list (Z * CodeInfo)) : res (list Code) :=
  match l with
  | [] => mret []
  | (id, info) :: l =>
      bytecode ← must_ok (GetByteCode id r);
      rest ← export_codes r l;
      mret (mkCode id info bytecode (IsPinnedCode id r) :: rest)
  end.

Fixpoint export_params (r : Registry) (l : list (Z * VkParamInfoResponse)) : res (list VkParam) :=
  match l with
  | [] => mret []
  | (id, info) :: l =>
      blob ← must_ok (getVkParamBytes id r);
      rest ← export_params r l;
      mret (mkVkParam id (DataHash info) (VkCreator info) blob :: rest)
  end.

(** What the loop over the circuits adds: the circuits, the parameters that were
    not exported yet under new ids, the keys exported, the last id given. *)
Record Exported := mkExported {
  ex_circuits : list Circuit; ex_params : list VkParam; ex_keys : gset string; ex_next : Z }.

Definition backfill_param (blob : string) (info : CircuitInfo) (e : Exported) : Exported :=
  if (String.length (CircuitHash info) <? 36)%nat then e
  else
    let paramHalf := slice 0 36 (CircuitHash info) in
    if bool_decide (paramHalf ∈ ex_keys e) then e
    else match circuitParamBytes blob info with
         | None => e
         | Some paramBytes =>
             let next := u64 (ex_next e + 1) in
             mkExported (ex_circuits e) (ex_params e ++ [mkVkParam next paramHalf (Creator info) paramBytes])
               (ex_keys e ∪ {[paramHalf]}) next
         end.

(** [if err != nil { panic(err) }]. *)
Definition mustM {St T} (m : M St T) : M St T := fun s => let '(r, s') := m s in (must_ok r, s').

Fixpoint export_circuits (l : list (Z * CircuitInfo)) (e : Exported) : M Registry Exported :=
  match l with
  | [] => mret e
  | (id, info) :: l =>
      blob ← mustM (GetCircuit id);
      isPinned ← gets (IsPinnedCircuit id);
      let blob := default ""%string blob in
      let e := mkExported (ex_circuits e ++ [mkCircuit id info blob isPinned]) (ex_params e) (ex_keys e) (ex_next e) in
      export_circuits l (backfill_param blob info e)
  end.

Definition export_contract (c : Contracts) (x : string * ContractInfo) : Contract :=
  mkContract (address_text x.1) x.2
    (map (fun kv => mkModel kv.1 kv.2) (iter_prefix ""%string (contract_state x.1 c)))
    (GetContractHistory x.1 c).

Definition sequence_keys : list string :=
  [KeySequenceCodeID; KeySequenceInstanceID; KeySequenceCircuitID; KeySequenceVkParamID].

Fixpoint export_sequences (r : Registry) (l : list string) : res (list Sequence) :=
  match l with
  | [] => mret []
  | k :: l =>
      if bool_decide (is_Some (seqs r !! k)) then
        id ← must_ok (PeekAutoIncrementID k r);
        rest ← export_sequences r l;
        mret (mkSequence k id :: rest)
      else export_sequences r l
  end.

Definition ExportGenesis : M W GenesisState :=
  s ← gets store;
  let r := ch_reg s in
  codes ← lift (export_codes r (in_order (codes r)));
  vkParams ← lift (export_params r (in_order (vk_infos r)));
  let keys := list_to_set (filter (fun k => String.length k = 36%nat) (map ParamKey vkParams)) in
  e ← with_reg (export_circuits (in_order (infos r)) (mkExported [] vkParams keys (max_of ParamID vkParams)));
  sequences ← lift (export_sequences r sequence_keys);
  mret (mkGenesis (ch_params s) codes (ex_circuits e) (ex_params e)
          (map (export_contract (ch_con s)) (iter_prefix ""%string (cinfos (ch_con s)))) sequences).

End Exporting.

(** ** Rebuilding maps from their entries *)

Definition rebuild {K V T} `{Countable K} (key : T -> K) (val : T -> V) (l : list T) (m : gmap K V) : gmap K V :=
  fold_left (fun m x => <[key x := val x]> m) l m.

Section Rebuild.
Context {K V T : Type} `{Countable K} (key : T -> K) (val : T -> V).

Lemma rebuild_lookup l m k : NoDup (key <$> l) ->
  rebuild key val l m !! k = match list_find (fun x => key x = k) l with Some (_, x) => Some (val x) | None => m !! k end.
Proof.
  revert m. induction l as [|x l IH]; intros m Hnd; [done|]. cbn in Hnd. apply NoDup_cons in Hnd as [Hx Hnd].
  cbn [rebuild fold_left]. change (rebuild key val l (<[key x := val x]> m) !! k = match list_find (fun x => key x = k) (x :: l) with Some (_, x) => Some (val x) | None => m !! k end).
  rewrite (IH _ Hnd). cbn. destruct (decide (key x = k)) as [<-|Hne].
  - destruct (list_find _ l) as [[i y]|] eqn:E; [|by rewrite lookup_insert_eq].
    apply list_find_Some in E as (Hy&Ey&_). exfalso. apply Hx. rewrite <- Ey.
    apply list_elem_of_fmap_2. by eapply list_elem_of_lookup_2.
  - destruct (list_find _ l) as [[i y]|]; cbn; [done|]. by rewrite lookup_insert_ne.
Qed.

Lemma rebuild_fresh l m k : k ∉ key <$> l -> rebuild key val l m !! k = m !! k.
Proof.
  revert m. induction l as [|x l IH]; intros m Hk; [done|]. cbn in Hk. apply not_elem_of_cons in Hk as [Hne Hk].
  cbn [rebuild fold_left]. etransitivity; [apply (IH _ Hk)|]. by rewrite lookup_insert_ne by congruence.
Qed.

(** Inserting the entries of a map into the empty map gives the map back. *)
Lemma rebuild_entries l (m : gmap K V) : NoDup (key <$> l) ->
  (forall k v, m !! k = Some v <-> exists x, x ∈ l /\ key x = k /\ val x = v) -> rebuild key val l ∅ = m.
Proof.
  intros Hnd Hm. apply map_eq. intros k. rewrite (rebuild_lookup _ _ _ Hnd).
  destruct (list_find _ l) as [[i x]|] eqn:E.
  - apply list_find_Some in E as (Hx&Ek&_). symmetry. apply Hm. exists x. split; [|done]. by eapply list_elem_of_lookup_2.
  - rewrite lookup_empty. destruct (m !! k) as [v|] eqn:Ev; [|done].
    apply Hm in Ev as (x&Hx&Ek&_). apply list_find_None in E. rewrite Forall_forall in E. exfalso. by apply (E x Hx).
Qed.

End Rebuild.

Lemma in_order_elem {V} (m : gmap Z V) id v : (id, v) ∈ in_order m <-> m !! id = Some v.
Proof. unfold in_order. rewrite merge_sort_Permutation. apply elem_of_map_to_list. Qed.

Lemma in_order_nodup {V} (m : gmap Z V) : NoDup (in_order m).*1.
Proof. unfold in_order. rewrite merge_sort_Permutation. apply NoDup_fst_map_to_list. Qed.

(** ** What an export holds *)

Section ExportProofs.
Context {B A X G Msg : Type} `{GasMeterOps G} `{Bech32Laws} `{AddrPrefixLaws} `{CircuitVM} `{AddressOps} `{GenesisVM}
  `{WasmVM (World (Chain B A X) G) G Msg}.

Abbreviation S := (Chain B A X).
Abbreviation W := (World S G).

(** The machine returns the code it was given and recognises it. *)
Definition code_intact (i : CodeInfo) : Prop :=
  exists b, GetCode (CodeHash i) = Ok b /\ IsGzip b = false /\ StoreCodeUnchecked b = Ok (CodeHash i).

(** Parameters are stored with their key, whose second part is their hash. *)
Definition vk_intact (r : Registry) (id : Z) (i : VkParamInfoResponse) : Prop :=
  VkID i = id /\ exists b, vk_bytes r !! id = Some b /\ b <> ""%string /\ StoreParam b = Ok (DataHash i) /\
    String.length (DataHash i) = 36%nat /\ sha256 b = slice 4 36 (DataHash i).

(** A circuit is stored with a blob that the machine recognises. *)
Definition circuit_intact (r : Registry) (id : Z) (i : CircuitInfo) : Prop :=
  exists b, blobs r !! id = Some b /\ IsGzip b = false /\ StoreCircuitUnchecked b = Ok (CircuitHash i) /\
    (36 <= String.length (CircuitHash i))%nat /\ validateCircuitParamAlignment b i = Ok tt /\ warm_params b i = Ok tt.

(** The key of the parameters of a circuit. *)
Definition param_key (i : CircuitInfo) : string := slice 0 36 (CircuitHash i).

(** The parameters [q] of the key [h] are stored on their own, or part of the blob of
    a circuit. *)
Definition stored_params (r : Registry) (h q : string) : Prop :=
  exists id p, vk_infos r !! id = Some p /\ DataHash p = h /\ vk_bytes r !! id = Some q.
Definition embedded_params (r : Registry) (h q : string) : Prop :=
  exists id i b, infos r !! id = Some i /\ blobs r !! id = Some b /\ param_key i = h /\ circuitParamBytes b i = Some q.
Definition available (r : Registry) (h q : string) : Prop := stored_params r h q \/ embedded_params r h q.

(** A sequence holds eight bytes and is past the ids in use. *)
Definition seq_past (k : string) (ids : Z -> Prop) (r : Registry) : Prop :=
  exists v, PeekAutoIncrementID k r = Ok v /\ 0 < v /\ forall id, ids id -> id < v.

Record registry_intact (r : Registry) : Prop := {
  in_codes : map_Forall (fun _ i => code_intact i) (codes r);
  in_pinned : forall id, id ∈ pinned r -> is_Some (codes r !! id);
  in_params : map_Forall (vk_intact r) (vk_infos r);
  in_bytes : forall id, is_Some (vk_bytes r !! id) -> is_Some (vk_infos r !! id);
  in_keys : forall i j p q, vk_infos r !! i = Some p -> vk_infos r !! j = Some q -> DataHash p = DataHash q -> i = j;
  in_circuits : map_Forall (circuit_intact r) (infos r);
  in_available : map_Forall (fun _ i => exists q, available r (param_key i) q) (infos r);
  in_agree : forall h q q', available r h q -> available r h q' -> q = q';
  in_room : exists m, 0 <= m /\ (forall id, is_Some (vk_infos r !! id) -> id <= m) /\ m + Z.of_nat (size (infos r)) < 2 ^ 64;
  in_blobs : forall id, is_Some (blobs r !! id) -> is_Some (infos r !! id);
  in_seqs : forall k bz, seqs r !! k = Some bz -> k ∈ sequence_keys /\ exists n, is_u64 n /\ bz = be64s n;
  in_code_seq : seq_past KeySequenceCodeID (fun id => is_Some (codes r !! id)) r;
  in_circuit_seq : seq_past KeySequenceCircuitID (fun id => is_Some (infos r !! id)) r
}.

Definition code_of (r : Registry) (x : Z * CodeInfo) : Code :=
  mkCode x.1 x.2 (match GetCode (CodeHash x.2) with Ok b => b | _ => ""%string end) (IsPinnedCode x.1 r).
Definition param_of (r : Registry) (x : Z * VkParamInfoResponse) : VkParam :=
  mkVkParam x.1 (DataHash x.2) (VkCreator x.2) (default ""%string (vk_bytes r !! x.1)).
Definition circuit_of (r : Registry) (x : Z * CircuitInfo) : Circuit :=
  mkCircuit x.1 x.2 (default ""%string (blobs r !! x.1)) (IsPinnedCircuit x.1 r).

Lemma export_codes_ok r l : registry_intact r -> (forall x, x ∈ l -> codes r !! x.1 = Some x.2) ->
  export_codes r l = Ok (map (code_of r) l).
Proof.
  intros Hr. induction l as [|[id i] l IH]; intros Hl; [done|]. cbn [export_codes map].
  pose proof (Hl (id, i) ltac:(left)) as Hi. cbn in Hi.
  destruct (in_codes _ Hr id i Hi) as (b&Hb&_). unfold GetByteCode. rewrite Hi, Hb. cbn.
  rewrite IH by (intros; apply Hl; by right). cbn. unfold code_of. cbn. by rewrite Hb.
Qed.

Lemma export_params_ok r l : registry_intact r -> (forall x, x ∈ l -> vk_infos r !! x.1 = Some x.2) ->
  export_params r l = Ok (map (param_of r) l).
Proof.
  intros Hr. induction l as [|[id i] l IH]; intros Hl; [done|]. cbn [export_params map].
  pose proof (Hl (id, i) ltac:(left)) as Hi. cbn in Hi.
  destruct (in_params _ Hr id i Hi) as (_&b&Hb&_). unfold getVkParamBytes. rewrite Hb. cbn.
  rewrite IH by (intros; apply Hl; by right). cbn. unfold param_of. cbn. by rewrite Hb.
Qed.

(** What one circuit adds to an export. *)
Definition export_step (r : Registry) (e : Exported) (x : Z * CircuitInfo) : Exported :=
  backfill_param (default ""%string (blobs r !! x.1)) x.2
    (mkExported (ex_circuits e ++ [circuit_of r x]) (ex_params e) (ex_keys e) (ex_next e)).
Definition params_first (r : Registry) : Exported :=
  let ps := map (param_of r) (in_order (vk_infos r)) in
  mkExported [] ps (list_to_set (filter (fun k => String.length k = 36%nat) (map ParamKey ps))) (max_of ParamID ps).
Definition exported (r : Registry) : Exported := fold_left (export_step r) (in_order (infos r)) (params_first r).

Lemma export_circuits_ok r l e : registry_intact r -> (forall x, x ∈ l -> infos r !! x.1 = Some x.2) ->
  export_circuits l e r = (Ok (fold_left (export_step r) l e), r).
Proof.
  intros Hr. revert e. induction l as [|[id i] l IH]; intros e Hl; [done|].
  pose proof (Hl (id, i) ltac:(left)) as Hi. cbn in Hi. destruct (in_circuits _ Hr id i Hi) as (b&Hb&_).
  cbn [export_circuits fold_left].
  assert (E : mustM (GetCircuit id) r = (Ok (Some b), r)).
  { unfold mustM, GetCircuit, get, mbind, M_bind. by rewrite Hb. }
  unfold mbind at 1, M_bind at 1. rewrite E. unfold mbind at 1, M_bind at 1, gets at 1.
  rewrite IH by (intros; apply Hl; by right). unfold export_step at 3, circuit_of at 1. cbn [fst snd]. by rewrite Hb.
Qed.

Lemma step_circuits r e x : ex_circuits (export_step r e x) = ex_circuits e ++ [circuit_of r x].
Proof. unfold export_step, backfill_param. by repeat case_match. Qed.

Lemma exported_circuits r : ex_circuits (exported r) = map (circuit_of r) (in_order (infos r)).
Proof.
  unfold exported. change (map (circuit_of r) (in_order (infos r))) with (ex_circuits (params_first r) ++ map (circuit_of r) (in_order (infos r))).
  generalize (params_first r). induction (in_order (infos r)) as [|x l IH]; intros e; cbn; [by rewrite app_nil_r|].
  by rewrite IH, step_circuits, <- app_assoc.
Qed.

(** Exported parameters are the stored ones, or those in the blob of a circuit none are
    stored for, under a new id. *)
Definition param_sound (r : Registry) (p : VkParam) : Prop :=
  (exists i, vk_infos r !! ParamID p = Some i /\ p = param_of r (ParamID p, i)) \/
  (vk_infos r !! ParamID p = None /\ (forall id i, vk_infos r !! id = Some i -> DataHash i <> ParamKey p) /\
   exists z i b, infos r !! z = Some i /\ blobs r !! z = Some b /\ ParamKey p = param_key i /\
     ParamCreator p = Creator i /\ circuitParamBytes b i = Some (ParamBytes p)).

Definition param_importable (p : VkParam) : Prop :=
  ParamBytes p <> ""%string /\ StoreParam (ParamBytes p) = Ok (ParamKey p) /\ String.length (ParamKey p) = 36%nat.

Lemma embedded_nonempty b i q : circuitParamBytes b i = Some q -> q <> ""%string.
Proof.
  unfold circuitParamBytes. set (n := if _ : bool then footer_param_len b else _). clearbody n.
  destruct (Z.leb_spec n 0); [done|]. destruct (Z.leb_spec (slen b) n); [done|]. cbn [orb]. intros [= <-].
  unfold slice. destruct b as [|c b]; [unfold slen in *; cbn in *; lia|]. rewrite Nat.sub_0_r. by destruct (Z.to_nat n) eqn:E; [lia|].
Qed.

Lemma substring_substring n m k (h : string) : (n + m <= k)%nat ->
  String.substring n m (String.substring 0 k h) = String.substring n m h.
Proof.
  revert n m k. induction h as [|c h IH]; intros [|n] [|m] [|k] Hk; cbn; try done; try lia.
  - f_equal. apply IH. lia.
  - apply IH. lia.
  - apply IH. lia.
Qed.

(** Embedded parameters have the key the circuit names. *)
Lemma embedded_key b i q : (36 <= String.length (CircuitHash i))%nat -> validateCircuitParamAlignment b i = Ok tt ->
  warm_params b i = Ok tt -> circuitParamBytes b i = Some q ->
  StoreParam q = Ok (param_key i) /\ String.length (param_key i) = 36%nat /\ sha256 q = slice 4 36 (param_key i).
Proof.
  intros Hlen Ha Hw Hq. unfold validateCircuitParamAlignment, warm_params in *. rewrite Hq in Ha, Hw.
  apply res_bind_Ok in Ha as (u&_&Ha). rewrite (proj2 (Nat.leb_le _ _) Hlen) in Ha.
  apply ensure_Ok in Ha. apply String.eqb_eq in Ha.
  apply res_bind_Ok in Hw as (k&Hk&Hw). unfold assertParamKeyMatchesCircuit in Hw.
  apply res_bind_Ok in Hw as ([]&Hl%ensure_Ok%Nat.eqb_eq&Hw). rewrite (proj2 (Nat.ltb_ge _ _) Hlen) in Hw.
  apply ensure_Ok, String.eqb_eq in Hw. fold (param_key i) in Hw. subst k. split_and!; [|done|].
  - unfold create_failed, wrap_err in Hk. destruct (StoreParam q); congruence.
  - rewrite Ha. unfold param_key, slice. by rewrite substring_substring by lia.
Qed.

Lemma sound_param r p : registry_intact r -> param_sound r p ->
  param_importable p /\ sha256 (ParamBytes p) = slice 4 36 (ParamKey p) /\ available r (ParamKey p) (ParamBytes p).
Proof.
  intros Hr [(i&Hi&->)|(_&_&z&i&b&Hz&Hb&Hk&_&Hq)].
  - destruct (in_params _ Hr _ i Hi) as (_&b&Hb&Hne&Hs&Hlen&Hsum). unfold param_importable, param_of. cbn in *. rewrite Hb. cbn.
    split_and!; [done..|]. left. by eexists _, i.
  - destruct (in_circuits _ Hr z i Hz) as (b'&Hb'&_&_&Hlen&Ha&Hw). assert (b' = b) as -> by congruence.
    destruct (embedded_key b i _ Hlen Ha Hw Hq) as (?&?&?). unfold param_importable. rewrite Hk.
    split_and!; [by eapply embedded_nonempty|done..|]. right. by exists z, i, b.
Qed.

(** What holds after the circuits [l] have been exported, [m] being the largest id of
    stored parameters. *)
Record export_inv (r : Registry) (m : Z) (l : list (Z * CircuitInfo)) (e : Exported) : Prop := {
  ei_sound p : p ∈ ex_params e -> param_sound r p;
  ei_stored id i : vk_infos r !! id = Some i -> param_of r (id, i) ∈ ex_params e;
  ei_keys : NoDup (ParamKey <$> ex_params e);
  ei_ids : NoDup (ParamID <$> ex_params e);
  ei_known k : k ∈ ex_keys e <-> k ∈ ParamKey <$> ex_params e;
  ei_below p : p ∈ ex_params e -> ParamID p <= ex_next e;
  ei_next : 0 <= ex_next e <= m + Z.of_nat (length l);
  ei_done x b : x ∈ l -> blobs r !! x.1 = Some b -> is_Some (circuitParamBytes b x.2) -> param_key x.2 ∈ ex_keys e
}.

Lemma param_key_nodup r : registry_intact r -> NoDup (ParamKey <$> map (param_of r) (in_order (vk_infos r))).
Proof.
  intros Hr. pose proof (in_order_nodup (vk_infos r)) as Hnd.
  assert (Hin : forall x, x ∈ in_order (vk_infos r) -> vk_infos r !! x.1 = Some x.2) by (intros []; apply in_order_elem).
  induction (in_order (vk_infos r)) as [|x l IH]; [constructor|]. cbn in Hnd |- *. apply NoDup_cons in Hnd as [Hx Hnd].
  constructor; [|apply IH; [done|intros; apply Hin; by right]].
  intros (y&Ey&(z&->&Hz)%list_elem_of_fmap)%list_elem_of_fmap. cbn in Ey. apply Hx.
  rewrite (in_keys _ Hr x.1 z.1 x.2 z.2); [by apply list_elem_of_fmap_2|apply Hin; by left|apply Hin; by right|done].
Qed.

Lemma exported_nodup {V T} (m : gmap Z V) (f : Z * V -> T) (key : T -> Z) : (forall x, key (f x) = x.1) ->
  NoDup (key <$> map f (in_order m)).
Proof.
  intros Hkey. assert (key <$> map f (in_order m) = (in_order m).*1) as ->; [|apply in_order_nodup].
  change (key <$> (f <$> in_order m) = fst <$> in_order m). rewrite <- list_fmap_compose. apply list_fmap_ext. intros. apply Hkey.
Qed.

Lemma max_from {T} (f : T -> Z) l z : let m := fold_left (fun m x => Z.max m (f x)) l z in
  z <= m /\ (forall x, x ∈ l -> f x <= m) /\ forall b, z <= b -> (forall x, x ∈ l -> f x <= b) -> m <= b.
Proof.
  revert z. induction l as [|x l IH]; intros z; cbn; [split_and!; [lia|by intros ? []%not_elem_of_nil|done]|].
  destruct (IH (Z.max z (f x))) as (Hz&Hl&Hb). split_and!; [lia| |].
  - intros y [->|Hy]%elem_of_cons; [lia|by apply Hl].
  - intros b Hzb Hall. pose proof (Hall x ltac:(left)). apply Hb; [lia|]. intros y Hy. apply Hall. by right.
Qed.

Lemma first_inv r m : registry_intact r -> 0 <= m -> (forall id, is_Some (vk_infos r !! id) -> id <= m) ->
  export_inv r m [] (params_first r).
Proof.
  intros Hr Hm Hmax. destruct (max_from ParamID (map (param_of r) (in_order (vk_infos r))) 0) as (Hz&Hl&Hb).
  split; cbn [params_first ex_params ex_keys ex_next ex_circuits].
  - intros p ([id i]&->&Hi%in_order_elem)%list_elem_of_fmap. left. by exists i.
  - intros id i Hi. apply list_elem_of_fmap_2. by apply in_order_elem.
  - by apply param_key_nodup.
  - by apply exported_nodup.
  - intros k. rewrite elem_of_list_to_set, list_elem_of_filter. split; [by intros [_ ?]|]. intros Hk. split; [|done].
    apply list_elem_of_fmap in Hk as (p&->&([id i]&->&Hi%in_order_elem)%list_elem_of_fmap).
    by destruct (in_params _ Hr id i Hi) as (_&?&_&_&_&Hlen&_).
  - exact Hl.
  - split; [exact Hz|]. cbn. rewrite Z.add_0_r. apply Hb; [done|].
    intros p ([id i]&->&Hi%in_order_elem)%list_elem_of_fmap. apply Hmax. by eexists.
  - by intros ? ? []%not_elem_of_nil.
Qed.

(** Parameters of a blob are added under the id after the last. *)
Lemma add_inv r m l e z i b q : export_inv r m l e -> infos r !! z = Some i -> blobs r !! z = Some b ->
  circuitParamBytes b i = Some q -> param_key i ∉ ex_keys e -> m + Z.of_nat (length l) + 1 < 2 ^ 64 ->
  export_inv r m (l ++ [(z, i)]) (mkExported (ex_circuits e ++ [circuit_of r (z, i)])
    (ex_params e ++ [mkVkParam (u64 (ex_next e + 1)) (param_key i) (Creator i) q]) (ex_keys e ∪ {[param_key i]}) (u64 (ex_next e + 1))).
Proof.
  intros [Hs Hst Hk Hi Hkn Hb Hn Hd] Hz Hbl Hq Hnew Hroom. rewrite u64_small by (unfold is_u64; lia).
  split; cbn [ex_params ex_keys ex_next ex_circuits].
  - intros p [Hp| ->%list_elem_of_singleton]%elem_of_app; [by apply Hs|]. right. cbn. split_and!.
    + destruct (vk_infos r !! (ex_next e + 1)) as [j|] eqn:Ej; [|done]. specialize (Hb _ (Hst _ _ Ej)). cbn in Hb. lia.
    + intros id j Hj Ek. apply Hnew, Hkn. rewrite <- Ek. exact (list_elem_of_fmap_2 ParamKey _ _ (Hst _ _ Hj)).
    + by exists z, i, b.
  - intros id j Hj. apply elem_of_app. left. by apply Hst.
  - rewrite fmap_app. apply NoDup_app. split_and!; [done| |apply NoDup_singleton].
    intros k Hin%Hkn ->%list_elem_of_singleton. done.
  - rewrite fmap_app. apply NoDup_app. split_and!; [done| |apply NoDup_singleton].
    intros k (p&->&Hp)%list_elem_of_fmap Ek%list_elem_of_singleton. specialize (Hb p Hp). cbn in Ek. lia.
  - intros k. rewrite fmap_app, elem_of_app, elem_of_union, elem_of_singleton, Hkn. cbn. by rewrite list_elem_of_singleton.
  - intros p [Hp| ->%list_elem_of_singleton]%elem_of_app; [specialize (Hb p Hp); lia|cbn; lia].
  - rewrite length_app. cbn. lia.
  - intros x b' [Hx| ->%list_elem_of_singleton]%elem_of_app; intros; apply elem_of_union.
    + left. by eapply Hd.
    + right. by apply elem_of_singleton.
Qed.

Lemma step_inv r m l e x : registry_intact r -> export_inv r m l e -> infos r !! x.1 = Some x.2 ->
  m + Z.of_nat (length l) + 1 < 2 ^ 64 -> export_inv r m (l ++ [x]) (export_step r e x).
Proof.
  destruct x as [z i]. intros Hr He Hz Hroom. cbn in Hz.
  destruct (in_circuits _ Hr z i Hz) as (b&Hb&_&_&Hlen&_). unfold export_step, backfill_param.
  cbn [fst snd ex_keys ex_params ex_next ex_circuits]. rewrite Hb, (proj2 (Nat.ltb_ge _ _) Hlen). fold (param_key i).
  change (default ""%string (Some b)) with b.
  assert (Hsame : (is_Some (circuitParamBytes b i) -> param_key i ∈ ex_keys e) ->
    export_inv r m (l ++ [(z, i)]) (mkExported (ex_circuits e ++ [circuit_of r (z, i)]) (ex_params e) (ex_keys e) (ex_next e))).
  { intros Hin. destruct He as [Hs Hst Hk Hi Hkn Hbe Hn Hd]. split; cbn [ex_params ex_keys ex_next ex_circuits]; [done..| |].
    - rewrite length_app. cbn. lia.
    - intros x b' [Hx| ->%list_elem_of_singleton]%elem_of_app Hb' Hq; [by eapply Hd|]. cbn in *. apply Hin. congruence. }
  case_bool_decide as Hk; [by apply Hsame|].
  destruct (circuitParamBytes b i) as [q|] eqn:Eq; [|apply Hsame; by intros [? ?]]. by eapply add_inv.
Qed.

(** The whole export. *)
Lemma exported_inv r : registry_intact r -> exists m, export_inv r m (in_order (infos r)) (exported r).
Proof.
  intros Hr. destruct (in_room _ Hr) as (m&Hm&Hmax&Hsize). exists m.
  assert (Hlen : m + Z.of_nat (length (in_order (infos r))) < 2 ^ 64).
  { unfold in_order. by rewrite merge_sort_Permutation, length_map_to_list. }
  assert (Hin : forall x, x ∈ in_order (infos r) -> infos r !! x.1 = Some x.2) by (intros []; apply in_order_elem).
  unfold exported. rewrite <- (app_nil_l (in_order (infos r))) at 1. pose proof (first_inv r m Hr Hm Hmax) as He.
  revert He Hlen Hin. generalize (params_first r). change (Z.of_nat (length (in_order (infos r)))) with
    (Z.of_nat (length (@nil (Z * CircuitInfo)) + length (in_order (infos r)))). generalize (@nil (Z * CircuitInfo)).
  induction (in_order (infos r)) as [|x l IH]; intros d e He Hlen Hin; cbn; [by rewrite app_nil_r|].
  rewrite (cons_middle x d l), app_assoc. apply IH.
  - apply step_inv; [done|done|apply Hin; left|]. cbn in Hlen. lia.
  - rewrite length_app. cbn in *. lia.
  - intros. apply Hin. by right.
Qed.

Definition sequences_of (r : Registry) (l : list string) : list Sequence :=
  omap (fun k => (fun bz => mkSequence k (be64s_decode bz)) <$> seqs r !! k) l.

Lemma export_sequences_ok r l : registry_intact r -> export_sequences r l = Ok (sequences_of r l).
Proof.
  intros Hr. induction l as [|k l IH]; [done|]. cbn [export_sequences sequences_of omap list_omap].
  destruct (seqs r !! k) as [bz|] eqn:Ek; cbn [fmap option_fmap option_map].
  - destruct (in_seqs _ Hr k bz Ek) as (_&n&Hn&->). rewrite bool_decide_eq_true_2 by done.
    rewrite (peek_after _ _ _ Hn Ek). cbn [must_ok]. unfold mbind, res_bind. rewrite IH. cbn.
    by rewrite be64s_roundtrip.
  - rewrite bool_decide_eq_false_2 by (by intros [? ?]). exact IH.
Qed.

Definition genesis_of (s : S) : GenesisState :=
  let r := ch_reg s in
  mkGenesis (ch_params s) (map (code_of r) (in_order (codes r))) (map (circuit_of r) (in_order (infos r)))
    (ex_params (exported r))
    (map (export_contract (ch_con s)) (iter_prefix ""%string (cinfos (ch_con s)))) (sequences_of r sequence_keys).

Lemma chain_eta (s : S) : set_chreg (ch_reg s) s = s.
Proof. by destruct s. Qed.

Lemma export_ok (w : W) : registry_intact (ch_reg (store w)) -> ExportGenesis w = (Ok (genesis_of (store w)), w).
Proof.
  intros Hr. unfold ExportGenesis. unfold mbind at 1, M_bind at 1, gets at 1. set (r := ch_reg (store w)) in *.
  rewrite (export_codes_ok r) by (done || intros []; apply in_order_elem). unfold mbind at 1, M_bind at 1, lift at 1.
  rewrite (export_params_ok r) by (done || intros []; apply in_order_elem). unfold mbind at 1, M_bind at 1, lift at 1.
  unfold mbind at 1, M_bind at 1, with_reg at 1, zoom. fold r.
  change (mkExported [] _ _ _) with (params_first r).
  rewrite (export_circuits_ok r) by (done || intros []; apply in_order_elem).
  cbn [fst snd]. rewrite (export_sequences_ok r) by done. unfold mbind, M_bind, lift, r. rewrite chain_eta.
  fold (exported (ch_reg (store w))). rewrite exported_circuits. by destruct w.
Qed.

End ExportProofs.

(** ** What an import writes *)

Section ImportProofs.
Context {B A X G Msg : Type} `{GasMeterOps G} `{Bech32Laws} `{AddrPrefixLaws} `{CircuitVM} `{AddressOps} `{GenesisVM}
  `{WasmVM (World (Chain B A X) G) G Msg}.
Context (gasRegister : WasmGasRegisterConfig).

Abbreviation S := (Chain B A X).
Abbreviation W := (World S G).

(** The machine pins the codes it has stored. *)
Definition vm_stored (hash : string) : Prop := exists code, StoreCodeUnchecked code = Ok hash.
Hypothesis sync_ok : forall l, Forall vm_stored l -> SyncPinnedCodes l = Ok tt.

(** The meter lets [n] codes be pinned. *)
Fixpoint affords (n : nat) (g : G) : Prop :=
  match n with
  | O => True
  | Datatypes.S n => exists g', ConsumeGas (PinCodeCost gasRegister) g = (Ok tt, g') /\ affords n g'
  end.

(** [m] succeeds on [w], leaves the store [s] and charges nothing. *)
Definition acts {T} (m : M W T) (w : W) (x : T) (s : S) : Prop :=
  exists w', m w = (Ok x, w') /\ store w' = s /\ WasmDispatch.meter w' = WasmDispatch.meter w.

(** [m] succeeds on [w] where [n] pins are affordable, and leaves the store [s]. *)
Definition pays {T} (n : nat) (m : M W T) (w : W) (x : T) (s : S) : Prop :=
  forall k, affords (n + k) (WasmDispatch.meter w) ->
  exists w', m w = (Ok x, w') /\ store w' = s /\ affords k (WasmDispatch.meter w').

Lemma acts_pays {T} (m : M W T) w x s : acts m w x s -> pays 0 m w x s.
Proof. intros (w'&E&Es&Em) k Hk. exists w'. by rewrite Em. Qed.

Lemma pays_bind {T U} n n' (m : M W T) (k : T -> M W U) w x s y s' : pays n m w x s ->
  (forall w', store w' = s -> pays n' (k x) w' y s') -> pays (n + n') (m ≫= k) w y s'.
Proof.
  intros Hm Hk j Hj. rewrite <- Nat.add_assoc in Hj. destruct (Hm _ Hj) as (w1&E&Es&Hj').
  destruct (Hk w1 Es j Hj') as (w2&E2&?). exists w2. unfold mbind, M_bind. by rewrite E.
Qed.

Lemma pays_forM {T} (f : T -> M W unit) (c : T -> nat) (step : S -> T -> S) (P : list T -> S -> Prop) l :
  (forall x l w, P (x :: l) (store w) -> pays (c x) (f x) w tt (step (store w) x) /\ P l (step (store w) x)) ->
  forall w, P l (store w) -> pays (sum_list_with c l) (forM l f) w tt (fold_left step l (store w)).
Proof.
  intros Hf. induction l as [|x l IH]; intros w HP; [by intros k Hk; exists w|]. destruct (Hf x l w HP) as [Hx HP'].
  cbn [forM fold_left sum_list_with]. eapply pays_bind; [exact Hx|]. intros w' Hw'. rewrite <- Hw' in HP' |- *. by apply IH.
Qed.

Lemma acts_bind {T U} (m : M W T) (k : T -> M W U) w x s y s' : acts m w x s ->
  (forall w', store w' = s -> acts (k x) w' y s') -> acts (m ≫= k) w y s'.
Proof.
  intros (w1&E&Es&Em) Hk. destruct (Hk w1 Es) as (w2&E2&Es2&Em2). exists w2. unfold mbind, M_bind. rewrite E, Em2. done.
Qed.

Lemma acts_forM {T} (f : T -> M W unit) (step : S -> T -> S) (P : list T -> S -> Prop) l :
  (forall x l w, P (x :: l) (store w) -> acts (f x) w tt (step (store w) x) /\ P l (step (store w) x)) ->
  forall w, P l (store w) -> acts (forM l f) w tt (fold_left step l (store w)).
Proof.
  intros Hf. induction l as [|x l IH]; intros w HP; [by exists w|]. destruct (Hf x l w HP) as [Hx HP'].
  cbn [forM fold_left]. eapply acts_bind; [exact Hx|]. intros w' Hw'. rewrite <- Hw' in HP' |- *. by apply IH.
Qed.

(** Steps of the registry. *)
Lemma acts_reg (m : M Registry unit) (w : W) r' : m (ch_reg (store w)) = (Ok tt, r') ->
  acts (with_reg m) w tt (set_chreg r' (store w)).
Proof. intros E. unfold acts, with_reg, zoom. rewrite E. by eexists. Qed.

Lemma fold_chreg {T} (f : Registry -> T -> Registry) l (s : S) :
  fold_left (fun s x => set_chreg (f (ch_reg s) x) s) l s = set_chreg (fold_left f l (ch_reg s)) s.
Proof. revert s. induction l as [|x l IH]; intros s; cbn; [by rewrite chain_eta|]. by rewrite IH. Qed.

(** Pinned codes are stored, in the registry and in the machine. *)
Definition pins_known (r : Registry) : Prop :=
  forall id, id ∈ pinned r -> exists i, codes r !! id = Some i /\ vm_stored (CodeHash i).

Lemma collect_ok r : pins_known r -> exists l, collectPinnedChecksums None r = Ok l /\ Forall vm_stored l.
Proof.
  intros Hp. unfold collectPinnedChecksums.
  assert (Hall : forall id, id ∈ pinned_ids r -> exists i, codes r !! id = Some i /\ vm_stored (CodeHash i)).
  { intros id Hid. apply Hp. unfold pinned_ids in Hid. rewrite merge_sort_Permutation in Hid. by apply elem_of_elements. }
  induction (pinned_ids r) as [|id ids IH]; [by exists []|].
  destruct (Hall id ltac:(left)) as (i&Hi&Hs). destruct IH as (l&Hl&Hf); [intros; apply Hall; by right|].
  cbn. rewrite Hi. cbn. rewrite Hl. exists (CodeHash i :: l). split; [done|]. by constructor.
Qed.

Lemma pays_pin id i (w : W) : codes (ch_reg (store w)) !! id = Some i -> vm_stored (CodeHash i) -> pins_known (ch_reg (store w)) ->
  pays 1 (with_keeper (pinCode gasRegister id)) w tt (set_chreg (set_pinned (.∪ {[id]}) (ch_reg (store w))) (store w)).
Proof.
  intros Hi Hst Hp k (g'&Hg&Hk). destruct (collect_ok _ Hp) as (l&Hl&Hf).
  unfold with_keeper, zoom, pinCode, mbind, M_bind, get. cbn. rewrite Hi.
  unfold on_gas, on_reg, zoom, lift. cbn. rewrite Hg, Hl, sync_ok by (apply Forall_app; auto). cbn. eexists. split; [done|].
  split; [|done]. by destruct w as [[] ? ?].
Qed.

(** *** Codes *)

Definition pin_if (b : bool) (id : Z) (p : gset Z) : gset Z := if b then p ∪ {[id]} else p.

Definition add_code (r : Registry) (c : Code) : Registry :=
  set_pinned (pin_if (CodePinned c) (GCodeID c)) (set_codes <[GCodeID c := GCodeInfo c]> r).

Definition code_importable (c : Code) : Prop :=
  IsGzip (CodeBytes c) = false /\ StoreCodeUnchecked (CodeBytes c) = Ok (CodeHash (GCodeInfo c)).

Lemma add_code_known r c : code_importable c -> codes r !! GCodeID c = None -> pins_known r -> pins_known (add_code r c).
Proof.
  intros [_ Hc] Hn Hp id Hid. cbn in *. destruct (decide (id = GCodeID c)) as [->|Hne].
  - exists (GCodeInfo c). rewrite lookup_insert_eq. split; [done|]. by eexists.
  - rewrite lookup_insert_ne by done. apply Hp. unfold pin_if in Hid. destruct (CodePinned c); [|done].
    by apply elem_of_union in Hid as [Hid|Hid%elem_of_singleton].
Qed.

Lemma pays_code c (w : W) : code_importable c -> codes (ch_reg (store w)) !! GCodeID c = None ->
  pins_known (ch_reg (store w)) ->
  pays (Nat.b2n (CodePinned c)) (init_code gasRegister c) w tt (set_chreg (add_code (ch_reg (store w)) c) (store w)).
Proof.
  intros Hc Hn Hp. pose proof (add_code_known _ (mkCode (GCodeID c) (GCodeInfo c) (CodeBytes c) false) Hc Hn Hp) as Hp1.
  destruct Hc as [Hz Hs]. unfold init_code. change (Nat.b2n (CodePinned c)) with (0 + Nat.b2n (CodePinned c))%nat.
  eapply pays_bind.
  - apply acts_pays, acts_reg. unfold importCode, unzip. rewrite Hz. unfold mbind, M_bind, lift, ensureM, refuseM, gets, lift.
    rewrite Hs. cbn. rewrite String.eqb_refl, Hn. cbn. reflexivity.
  - intros w' Hw. unfold add_code, pin_if. destruct (CodePinned c).
    + replace (set_chreg _ _) with (set_chreg (set_pinned (.∪ {[GCodeID c]}) (ch_reg (store w'))) (store w'))
        by (rewrite Hw; by destruct (store w)).
      apply (pays_pin _ (GCodeInfo c)); rewrite ?Hw; cbn; [apply lookup_insert_eq|by eexists|].
      unfold add_code, pin_if in Hp1. cbn in Hp1. by destruct (ch_reg (store w)).
    + intros k Hk. exists w'. split; [done|]. split; [|done]. rewrite Hw. by destruct (store w) as [? ? ? [] ? ? ? ? ?].
Qed.

Lemma pays_codes l (w : W) : NoDup (GCodeID <$> l) -> Forall code_importable l ->
  (forall c, c ∈ l -> codes (ch_reg (store w)) !! GCodeID c = None) -> pins_known (ch_reg (store w)) ->
  pays (sum_list_with (fun c => Nat.b2n (CodePinned c)) l) (forM l (init_code gasRegister)) w tt
    (set_chreg (fold_left add_code l (ch_reg (store w))) (store w)).
Proof.
  intros Hnd Hall Hn Hp. rewrite <- fold_chreg.
  apply (pays_forM _ _ _ (fun l s => NoDup (GCodeID <$> l) /\ Forall code_importable l /\
    (forall c, c ∈ l -> codes (ch_reg s) !! GCodeID c = None) /\ pins_known (ch_reg s))); [|done].
  intros x l' w' (Hnd'&Hall'&Hn'&Hp'). cbn in Hnd'. apply NoDup_cons in Hnd' as [Hx Hnd']. apply Forall_cons in Hall' as [Hc Hall'].
  assert (Hxn : codes (ch_reg (store w')) !! GCodeID x = None) by (apply Hn'; left).
  split; [by apply pays_code|]. split_and!; [done..| |by apply add_code_known].
  intros c Hc'. cbn. rewrite lookup_insert_ne; [apply Hn'; by right|].
  intros E. apply Hx. rewrite E. by apply list_elem_of_fmap_2.
Qed.

(** *** Parameters *)

Definition add_param (r : Registry) (p : VkParam) : Registry :=
  set_vk_bytes <[ParamID p := ParamBytes p]>
    (set_vk_infos <[ParamID p := mkVkParamInfo (ParamID p) (ParamCreator p) (ParamKey p)]> r).

Lemma acts_params l (w : W) : Forall param_importable l ->
  acts (forM l init_param) w tt (set_chreg (fold_left add_param l (ch_reg (store w))) (store w)).
Proof.
  intros Hall. rewrite <- fold_chreg. apply (acts_forM _ _ (fun l s => Forall param_importable l)); [|done].
  intros p l' w' [(Hne&Hs&Hlen) Hall']%Forall_cons. split; [|done]. apply acts_reg. unfold importVkParam.
  unfold mbind, M_bind, lift, ensureM, refuseM, gets, lift. cbn.
  destruct (String.length (ParamBytes p) =? 0)%nat eqn:E0; [apply Nat.eqb_eq in E0; by destruct (ParamBytes p)|].
  cbn. rewrite Hs. cbn. rewrite Hlen. cbn. rewrite String.eqb_refl. reflexivity.
Qed.

(** *** Circuits *)

Definition add_zk (r : Registry) (c : Circuit) : Registry :=
  set_pinned (pin_if (ZkPinned c) (ZkID c)) (set_blobs <[ZkID c := ZkBytes c]> (set_infos <[ZkID c := ZkInfo c]> r)).

Definition circuit_importable (c : Circuit) : Prop :=
  IsGzip (ZkBytes c) = false /\ validateCircuitParamAlignment (ZkBytes c) (ZkInfo c) = Ok tt /\
  warm_params (ZkBytes c) (ZkInfo c) = Ok tt /\ StoreCircuitUnchecked (ZkBytes c) = Ok (CircuitHash (ZkInfo c)).

Definition pinnable (r : Registry) (c : Circuit) : Prop :=
  ZkPinned c = true -> exists i, codes r !! ZkID c = Some i /\ vm_stored (CodeHash i).

Lemma add_zk_known r c : pinnable r c -> pins_known r -> pins_known (add_zk r c).
Proof.
  intros Hc Hp id Hid. cbn in *. unfold pin_if in Hid. destruct (ZkPinned c) eqn:Ec; [|by apply Hp].
  apply elem_of_union in Hid as [Hid| ->%elem_of_singleton]; [by apply Hp|by apply Hc].
Qed.

Lemma pays_circuit c (w : W) : circuit_importable c -> infos (ch_reg (store w)) !! ZkID c = None ->
  pins_known (ch_reg (store w)) -> pinnable (ch_reg (store w)) c ->
  pays (Nat.b2n (ZkPinned c)) (init_circuit gasRegister c) w tt (set_chreg (add_zk (ch_reg (store w)) c) (store w)).
Proof.
  intros (Hz&Ha&Hw&Hs) Hn Hp Hk. unfold init_circuit. change (Nat.b2n (ZkPinned c)) with (0 + Nat.b2n (ZkPinned c))%nat.
  eapply pays_bind.
  - apply acts_pays, acts_reg. unfold importCircuit, unzip. rewrite Hz. unfold mbind, M_bind, lift, ensureM, refuseM, gets, lift.
    rewrite Ha, Hw, Hs. cbn. rewrite String.eqb_refl, Hn. cbn. reflexivity.
  - intros w1 Hw1. unfold add_zk, pin_if. destruct (ZkPinned c) eqn:Ex.
    + destruct (Hk Ex) as (i&Hi&Hst).
      replace (set_chreg _ _) with (set_chreg (set_pinned (.∪ {[ZkID c]}) (ch_reg (store w1))) (store w1))
        by (rewrite Hw1; by destruct (store w)).
      apply (pays_pin _ i); rewrite ?Hw1; done.
    + intros k Haf. exists w1. split; [done|]. split; [|done]. rewrite Hw1. by destruct (store w) as [? ? ? [] ? ? ? ? ?].
Qed.

Lemma pays_circuits l (w : W) : NoDup (ZkID <$> l) -> Forall circuit_importable l ->
  (forall c, c ∈ l -> infos (ch_reg (store w)) !! ZkID c = None) -> pins_known (ch_reg (store w)) ->
  (forall c, c ∈ l -> pinnable (ch_reg (store w)) c) ->
  pays (sum_list_with (fun c => Nat.b2n (ZkPinned c)) l) (forM l (init_circuit gasRegister)) w tt
    (set_chreg (fold_left add_zk l (ch_reg (store w))) (store w)).
Proof.
  intros Hnd Hall Hn Hp Hk. rewrite <- fold_chreg.
  apply (pays_forM _ _ _ (fun l s => NoDup (ZkID <$> l) /\ Forall circuit_importable l /\
    (forall c, c ∈ l -> infos (ch_reg s) !! ZkID c = None) /\ pins_known (ch_reg s) /\
    (forall c, c ∈ l -> pinnable (ch_reg s) c))); [|done].
  intros x l' w' (Hnd'&Hall'&Hn'&Hp'&Hk'). cbn in Hnd'. apply NoDup_cons in Hnd' as [Hx Hnd'].
  apply Forall_cons in Hall' as [Hi Hall'].
  assert (Hxn : infos (ch_reg (store w')) !! ZkID x = None) by (apply Hn'; left).
  assert (Hxk : pinnable (ch_reg (store w')) x) by (apply Hk'; left).
  split; [by apply pays_circuit|]. split_and!; [done..| |by apply add_zk_known|].
  - intros c Hc'. cbn. rewrite lookup_insert_ne; [apply Hn'; by right|].
    intros E. apply Hx. rewrite E. by apply list_elem_of_fmap_2.
  - intros c Hc. apply Hk'. by right.
Qed.

(** *** Contracts *)

Lemma import_models_ok l m : NoDup (ModelKey <$> l) -> Forall (fun x => ModelKey x <> ""%string) l ->
  (forall x, x ∈ l -> m !! ModelKey x = None) -> import_models l m = (Ok tt, rebuild ModelKey ModelValue l m).
Proof.
  revert m. induction l as [|x l IH]; intros m Hnd Hne Hn; [done|]. cbn in Hnd. apply NoDup_cons in Hnd as [Hx Hnd].
  apply Forall_cons in Hne as [Hx0 Hne]. cbn [import_models]. rewrite (Hn x) by left.
  rewrite bool_decide_eq_false_2 by (by intros [? ?]). rewrite bool_decide_eq_false_2 by done.
  apply IH; [done..|]. intros y Hy. rewrite lookup_insert_ne; [apply Hn; by right|].
  intros E. apply Hx. rewrite E. by apply list_elem_of_fmap_2.
Qed.

(** A contract that is not there yet is added with its history and its store. *)
Lemma import_contract_ok codes a c addr info st es : Rep codes a c -> a !! addr = None -> cstates c !! addr = None ->
  contract_wf codes (info, es) -> NoDup (ModelKey <$> st) -> Forall (fun x => ModelKey x <> ""%string) st ->
  exists c', importContract codes addr info st es c = (Ok tt, c') /\ Rep codes (<[addr := (info, es)]> a) c' /\
    cstates c' = <[addr := rebuild ModelKey ModelValue st ∅]> (cstates c).
Proof.
  intros R Ha Hcs Hwf Hnd Hne.
  destruct (wf_last _ _ Hwf) as (e'&He'&Hid), (wf_creator _ _ Hwf) as (creator&Hcr&Hv). cbn in He', Hid, Hcr.
  assert (exists e es', es = e :: es') as (e&es'&Ees) by (destruct es; [done|eauto]).
  pose proof (wf_entries _ _ Hwf) as Hes. cbn in Hes.
  assert (Hok : forall x, x ∈ es -> entry_ok x) by (by apply Forall_forall).
  destruct (Hok e) as (_&p&Hp&_); [subst es; left|].
  destruct (Hok e') as (_&p'&Hp'&_); [rewrite last_lookup in He'; by eapply list_elem_of_lookup_2|].
  assert (Hci : cinfos c !! addr = None) by (rewrite (rep_infos _ _ _ R), lookup_fmap, Ha; done).
  pose proof (rep_new _ _ _ addr creator info es e e' p p' R Hci Hwf ltac:(by subst) Hp He' Hp' Hcr) as RN.
  set (c1 := add_contract addr creator info es p p' (last_position addr c) c) in *.
  exists (set_cstates <[addr := rebuild ModelKey ModelValue st ∅]> c1).
  split; [|split; [by apply rep_states|done]].
  pose proof (append_entries_frame addr es (last_position addr c) c) as (F1&F2&F3&F4).
  unfold importContract, mbind, M_bind, ensureM, refuseM, lift, gets, HasContractInfo. cbn.
  rewrite bool_decide_eq_true_2 by apply (wf_code _ _ Hwf). cbn. rewrite Hci. cbn. subst es.
  rewrite He', Hcr. unfold addToContractCodeSecondaryIndex, addToContractCreatorSecondaryIndex, mbind, M_bind, lift.
  rewrite (code_index_key _ _ _ Hp'), Hp. cbn [Position_Bytes]. rewrite (creator_index_key _ _ _ Hv). cbn in *.
  unfold importContractState, contract_state. cbn. rewrite F4, Hcs. cbn.
  rewrite import_models_ok by (done || intros; apply lookup_empty). unfold c1, add_contract, set_cstates. cbn.
  by rewrite F1, F2, F3, F4, Hid.
Qed.

(** The registry determines the stored contracts, but not their stores. *)
Lemma unit_map_eq (m m' : gmap string unit) : (forall k, is_Some (m !! k) <-> is_Some (m' !! k)) -> m = m'.
Proof.
  intros Hk. apply map_eq. intros k. specialize (Hk k).
  destruct (m !! k) as [[]|], (m' !! k) as [[]|]; [done|exfalso..|done].
  - by destruct (proj1 Hk (mk_is_Some _ _ eq_refl)).
  - by destruct (proj2 Hk (mk_is_Some _ _ eq_refl)).
Qed.

Lemma rep_unique codes a c c' : Rep codes a c -> Rep codes a c' ->
  cinfos c' = cinfos c /\ chist c' = chist c /\ code_ix c' = code_ix c /\ ccreator_ix c' = ccreator_ix c.
Proof.
  intros [I1 E1 C1 K1 _] [I2 E2 C2 K2 _]. split_and!; [congruence|..].
  - apply map_eq. intros k. apply option_eq. intros e. by rewrite (E1 k e), (E2 k e).
  - apply unit_map_eq. intros k. by rewrite (C1 k), (C2 k).
  - apply unit_map_eq. intros k. by rewrite (K1 k), (K2 k).
Qed.

Definition state_keys_ok (c : Contracts) (addr : string) : Prop :=
  forall k, is_Some (contract_state addr c !! k) -> k <> ""%string.

Lemma models_ok (c : Contracts) addr : state_keys_ok c addr ->
  let st := map (fun kv => mkModel kv.1 kv.2) (iter_prefix ""%string (contract_state addr c)) in
  NoDup (ModelKey <$> st) /\ Forall (fun x => ModelKey x <> ""%string) st /\
  rebuild ModelKey ModelValue st ∅ = contract_state addr c.
Proof.
  intros Hk st.
  assert (Hkeys : ModelKey <$> st = (iter_prefix ""%string (contract_state addr c)).*1).
  { unfold st. by rewrite <- (map_map (fun kv => mkModel kv.1 kv.2) ModelKey). }
  assert (Hin : forall x, x ∈ st <-> contract_state addr c !! ModelKey x = Some (ModelValue x)).
  { intros [k v]. unfold st. rewrite list_elem_of_fmap. cbn. split.
    - intros ([k' v']&[= -> ->]&Hkv). by apply elem_of_iter_prefix in Hkv.
    - intros Hkv. exists (k, v). split; [done|]. by apply elem_of_iter_prefix. }
  assert (Hnd : NoDup (ModelKey <$> st)) by (rewrite Hkeys; apply iter_prefix_keys_nodup).
  split_and!; [done|..].
  - apply Forall_forall. intros x Hx%Hin. apply Hk. by eexists.
  - apply rebuild_entries; [done|]. intros k v. split.
    + intros Hkv. exists (mkModel k v). split; [by apply Hin|done].
    + intros (x&Hx%Hin&<-&<-). done.
Qed.

Lemma acts_contracts (c0 : Contracts) l : forall (w : W) a,
  Rep (codes (ch_reg (store w))) a (ch_con (store w)) -> NoDup l.*1 ->
  (forall x, x ∈ l -> a !! x.1 = None /\ cstates (ch_con (store w)) !! x.1 = None /\ x.1 <> ""%string /\
    contract_wf (codes (ch_reg (store w))) (x.2, GetContractHistory x.1 c0) /\ state_keys_ok c0 x.1) ->
  exists c', acts (forM (map (export_contract c0) l) init_contract) w tt (set_con c' (store w)) /\
    Rep (codes (ch_reg (store w))) (rebuild fst (fun x => (x.2, GetContractHistory x.1 c0)) l a) c' /\
    cstates c' = rebuild fst (fun x => contract_state x.1 c0) l (cstates (ch_con (store w))).
Proof.
  induction l as [|[addr info] l IH]; intros w a R Hnd Hl.
  - exists (ch_con (store w)). split; [|done]. exists w. split; [done|]. split; [by destruct (store w)|done].
  - cbn in Hnd. apply NoDup_cons in Hnd as [Hx Hnd].
    destruct (Hl (addr, info)) as (Ha&Hcs&Hne&Hwf&Hk); [left|]. cbn in Ha, Hcs, Hne, Hwf, Hk.
    destruct (models_ok _ _ Hk) as (Hnd'&Hne'&Hreb).
    destruct (import_contract_ok _ _ _ addr info _ _ R Ha Hcs Hwf Hnd' Hne') as (c1&E1&R1&S1). rewrite Hreb in S1.
    assert (HA : acts (init_contract (export_contract c0 (addr, info))) w tt (set_con c1 (store w))).
    { unfold acts, init_contract. unfold mbind at 1, M_bind at 1, lift at 1. cbn [export_contract ContractAddress fst snd].
      unfold address_text. rewrite decide_False by done. rewrite bech32_roundtrip by done.
      unfold mbind at 1, M_bind at 1, gets at 1, with_con, zoom. cbn -[importContract]. rewrite E1. by eexists. }
    assert (Hnext : forall w1 : W, store w1 = set_con c1 (store w) -> exists c',
      acts (forM (map (export_contract c0) l) init_contract) w1 tt (set_con c' (store w)) /\
      Rep (codes (ch_reg (store w))) (rebuild fst (fun x => (x.2, GetContractHistory x.1 c0)) ((addr, info) :: l) a) c' /\
      cstates c' = rebuild fst (fun x => contract_state x.1 c0) ((addr, info) :: l) (cstates (ch_con (store w)))).
    { intros w1 Hw1. destruct (IH w1 (<[addr := (info, GetContractHistory addr c0)]> a)) as (c'&HA'&R'&S').
      - by rewrite Hw1.
      - done.
      - intros x Hxl. destruct (Hl x) as (?&?&?&?&?); [by right|]. assert (addr <> x.1).
        { intros ->. apply Hx. by apply list_elem_of_fmap_2. }
        rewrite Hw1. cbn. rewrite S1, !lookup_insert_ne by done. done.
      - exists c'. rewrite Hw1 in HA', R', S'. cbn in *. by rewrite S1 in S'. }
    destruct HA as (w1&E&Hw1&Hm1). destruct (Hnext w1 Hw1) as (c'&(w2&E2&Hw2&Hm2)&R'&S'). exists c'. split; [|done].
    exists w2. split; [|by rewrite Hm2, Hm1]. cbn [map forM]. unfold mbind, M_bind. by rewrite E.
Qed.

(** *** Sequences *)

Definition add_seq (r : Registry) (s : Sequence) : Registry := set_seq (IDKey s) (be64s (SeqValue s)) r.

Lemma acts_sequences l (w : W) : NoDup (IDKey <$> l) -> (forall x, x ∈ l -> seqs (ch_reg (store w)) !! IDKey x = None) ->
  acts (forM l init_sequence) w tt (set_chreg (fold_left add_seq l (ch_reg (store w))) (store w)).
Proof.
  intros Hnd Hn. rewrite <- fold_chreg.
  apply (acts_forM _ _ (fun l s => NoDup (IDKey <$> l) /\ forall x, x ∈ l -> seqs (ch_reg s) !! IDKey x = None)); [|done].
  intros x l' w' [Hnd' Hn']. cbn in Hnd'. apply NoDup_cons in Hnd' as [Hx Hnd']. split.
  - apply acts_reg. unfold importAutoIncrementID, mbind, M_bind, gets, refuseM, lift. rewrite (Hn' x) by left.
    by rewrite bool_decide_eq_false_2 by (by intros [? ?]).
  - split; [done|]. intros y Hy. cbn. rewrite lookup_insert_ne; [apply Hn'; by right|].
    intros E. apply Hx. rewrite E. by apply list_elem_of_fmap_2.
Qed.

(** *** The registry after an import *)

Definition pins {T} (b : T -> bool) (k : T -> Z) (l : list T) (p : gset Z) : gset Z :=
  fold_left (fun p x => pin_if (b x) (k x) p) l p.

Lemma elem_of_pins {T} (b : T -> bool) (k : T -> Z) l p id :
  id ∈ pins b k l p <-> id ∈ p \/ exists x, x ∈ l /\ b x = true /\ k x = id.
Proof.
  unfold pins. revert p. induction l as [|x l IH]; intros p; cbn.
  - split; [by left|]. by intros [?|(x&[]%not_elem_of_nil&_)].
  - rewrite IH. unfold pin_if. split.
    + intros [Hp|(y&Hy&Hb)]; [|right; exists y; split; [by right|done]].
      destruct (b x) eqn:Eb; [|by left]. apply elem_of_union in Hp as [Hp| ->%elem_of_singleton]; [by left|].
      right. exists x. split; [left|done].
    + intros [Hp|(y&Hy&Hb&<-)]; [left; destruct (b x); [apply elem_of_union; by left|done]|].
      apply elem_of_cons in Hy as [->|Hy]; [|right; by exists y]. left. rewrite Hb.
      apply elem_of_union. right. by apply elem_of_singleton.
Qed.

Lemma fold_add_code l r : fold_left add_code l r =
  mkRegistry (seqs r) (rebuild GCodeID GCodeInfo l (codes r)) (infos r) (blobs r) (param_refs r) (creator_ix r)
    (vk_infos r) (vk_bytes r) (pins CodePinned GCodeID l (pinned r)).
Proof. revert r. induction l as [|c l IH]; intros r; [by destruct r|]. cbn [fold_left]. by rewrite IH. Qed.

Lemma fold_add_param l r : fold_left add_param l r =
  mkRegistry (seqs r) (codes r) (infos r) (blobs r) (param_refs r) (creator_ix r)
    (rebuild ParamID (fun p => mkVkParamInfo (ParamID p) (ParamCreator p) (ParamKey p)) l (vk_infos r))
    (rebuild ParamID ParamBytes l (vk_bytes r)) (pinned r).
Proof. revert r. induction l as [|c l IH]; intros r; [by destruct r|]. cbn [fold_left]. by rewrite IH. Qed.

Lemma fold_add_zk l r : fold_left add_zk l r =
  mkRegistry (seqs r) (codes r) (rebuild ZkID ZkInfo l (infos r)) (rebuild ZkID ZkBytes l (blobs r)) (param_refs r)
    (creator_ix r) (vk_infos r) (vk_bytes r) (pins ZkPinned ZkID l (pinned r)).
Proof. revert r. induction l as [|c l IH]; intros r; [by destruct r|]. cbn [fold_left]. by rewrite IH. Qed.

Lemma fold_add_seq l r : fold_left add_seq l r =
  mkRegistry (rebuild IDKey (fun s => be64s (SeqValue s)) l (seqs r)) (codes r) (infos r) (blobs r) (param_refs r)
    (creator_ix r) (vk_infos r) (vk_bytes r) (pinned r).
Proof. revert r. induction l as [|c l IH]; intros r; [by destruct r|]. cbn [fold_left]. by rewrite IH. Qed.

(** The entries exported from a map rebuild it. *)
Lemma rebuild_in_order {V U T} (m : gmap Z V) (m' : gmap Z U) (f : Z * V -> T) (key : T -> Z) (val : T -> U) :
  (forall x, key (f x) = x.1) -> (forall id v, m !! id = Some v -> m' !! id = Some (val (f (id, v)))) ->
  (forall id, is_Some (m' !! id) -> is_Some (m !! id)) -> rebuild key val (map f (in_order m)) ∅ = m'.
Proof.
  intros Hkey Hval Hdom. apply rebuild_entries.
  - assert (key <$> map f (in_order m) = (in_order m).*1) as ->; [|apply in_order_nodup].
    change (key <$> (f <$> in_order m) = fst <$> in_order m). rewrite <- list_fmap_compose. apply list_fmap_ext. intros. apply Hkey.
  - intros id u. split.
    + intros Hu. destruct (Hdom id) as [v Hv]; [by eexists|]. exists (f (id, v)). rewrite Hkey.
      split; [|split; [done|]; rewrite (Hval id v Hv) in Hu; congruence].
      apply list_elem_of_fmap_2. by apply in_order_elem.
    + intros (x&([id' v]&->&Hx%in_order_elem)%list_elem_of_fmap&<-&<-). rewrite Hkey. by apply Hval.
Qed.

Lemma sequences_elem r l x : x ∈ sequences_of r l <-> IDKey x ∈ l /\ exists bz, seqs r !! IDKey x = Some bz /\ SeqValue x = be64s_decode bz.
Proof.
  unfold sequences_of. rewrite list_elem_of_omap. split.
  - intros (k&Hk&Ek). destruct (seqs r !! k) as [bz|] eqn:E; [|done]. injection Ek as <-. cbn. eauto.
  - intros (Hk&bz&E&Ev). exists (IDKey x). split; [done|]. rewrite E. cbn. destruct x; cbn in *. by rewrite Ev.
Qed.

Lemma sequences_nodup r l : NoDup l -> NoDup (IDKey <$> sequences_of r l).
Proof.
  induction 1 as [|k l Hk Hnd IH]; [constructor|]. unfold sequences_of. cbn.
  destruct (seqs r !! k) as [bz|]; [|exact IH]. cbn. constructor; [|exact IH].
  intros (x&->&[Hx _]%sequences_elem)%list_elem_of_fmap. done.
Qed.

Lemma sequence_keys_nodup : NoDup sequence_keys.
Proof. refine (bool_decide_unpack _ _). by vm_compute. Qed.

(** *** The checks pass *)

Lemma rebuild_elem {K V T} `{Countable K} (key : T -> K) (val : T -> V) l m x :
  NoDup (key <$> l) -> x ∈ l -> rebuild key val l m !! key x = Some (val x).
Proof.
  intros Hnd Hx. rewrite (rebuild_lookup _ _ _ _ _ Hnd). destruct (list_find _ l) as [[i y]|] eqn:E.
  - apply list_find_Some in E as (Hy&Ey&_). f_equal. f_equal.
    apply list_elem_of_lookup_1 in Hx as [j Hj].
    assert (Hi : (key <$> l) !! i = Some (key x)) by (by rewrite list_lookup_fmap, Hy, <- Ey).
    assert (Hj' : (key <$> l) !! j = Some (key x)) by (by rewrite list_lookup_fmap, Hj).
    rewrite (NoDup_lookup _ _ _ _ Hnd Hi Hj') in Hy. congruence.
  - apply list_find_None in E. rewrite Forall_forall in E. exfalso. by apply (E x Hx).
Qed.

Lemma params_by_key_ok l m : NoDup (ParamKey <$> l) -> (forall p, p ∈ l -> m !! ParamKey p = None) ->
  Forall (fun p => String.length (ParamKey p) = 36%nat /\ ParamBytes p <> ""%string /\
                   sha256 (ParamBytes p) = slice 4 36 (ParamKey p)) l ->
  params_by_key l m = Ok (rebuild ParamKey (fun p => p) l m).
Proof.
  revert m. induction l as [|p l IH]; intros m Hnd Hn Hall; [done|]. cbn in Hnd. apply NoDup_cons in Hnd as [Hp Hnd].
  apply Forall_cons in Hall as [(Hlen&Hne&Hsum) Hall]. cbn [params_by_key]. rewrite Hlen.
  destruct (String.length (ParamBytes p) =? 0)%nat eqn:E0; [apply Nat.eqb_eq in E0; by destruct (ParamBytes p)|].
  rewrite Hsum, String.eqb_refl, (Hn p) by left. rewrite bool_decide_eq_false_2 by (by intros [? ?]).
  apply IH; [done| |done]. intros q Hq. rewrite lookup_insert_ne; [apply Hn; by right|].
  intros E. apply Hp. rewrite E. by apply list_elem_of_fmap_2.
Qed.

Lemma each_ok {T} (f : T -> res unit) l : (forall x, x ∈ l -> f x = Ok tt) -> each f l = Ok tt.
Proof.
  induction l as [|x l IH]; intros Hf; [done|]. cbn. rewrite (Hf x) by left. apply IH. intros. apply Hf. by right.
Qed.

(** Every circuit finds its parameters in the export. *)
Lemma circuit_params r m z i : registry_intact r -> export_inv r m (in_order (infos r)) (exported r) -> infos r !! z = Some i ->
  exists p, p ∈ ex_params (exported r) /\ ParamKey p = param_key i.
Proof.
  intros Hr He Hz. destruct (in_available _ Hr z i Hz) as (q&[(id&p&Hp&Hk&_)|(z'&i'&b&Hz'&Hb&Hk&Hq)]).
  - exists (param_of r (id, p)). split; [by apply (ei_stored _ _ _ _ He)|done].
  - rewrite <- Hk. assert (Hin : param_key i' ∈ ex_keys (exported r)).
    { apply (ei_done _ _ _ _ He (z', i') b); [by apply in_order_elem|done|by eexists]. }
    apply (ei_known _ _ _ _ He), list_elem_of_fmap in Hin as (p&->&Hp). by exists p.
Qed.

Lemma cross_refs_ok (s : S) : registry_intact (ch_reg s) -> validateGenesisParamCircuitCrossRefs (genesis_of s) = Ok tt.
Proof.
  intros Hr. unfold validateGenesisParamCircuitCrossRefs, genesis_of. cbn [VkParams Circuits].
  destruct (exported_inv _ Hr) as [m He]. pose proof (ei_keys _ _ _ _ He) as Hnd.
  rewrite params_by_key_ok; [|done|intros; apply lookup_empty|].
  - apply each_ok. intros c ([id i]&->&Hi%in_order_elem)%list_elem_of_fmap.
    destruct (in_circuits _ Hr id i Hi) as (b&Hb&_&_&Hlen&Ha&_). destruct (circuit_params _ m id i Hr He Hi) as (p&Hp&Hk).
    unfold check_circuit, circuit_of. cbn [ZkBytes ZkInfo fst snd]. rewrite Hb. change (default ""%string (Some b)) with b.
    rewrite Ha. cbn [mbind res_bind]. rewrite (proj2 (Nat.ltb_ge _ _) Hlen). fold (param_key i). rewrite <- Hk.
    rewrite (rebuild_elem ParamKey (fun p => p) _ (∅ : gmap string VkParam) p Hnd Hp).
    destruct (circuitParamBytes b i) as [q|] eqn:Eq; [|done].
    destruct (sound_param _ p Hr (ei_sound _ _ _ _ He p Hp)) as (_&_&Hav).
    rewrite (in_agree _ Hr (ParamKey p) q (ParamBytes p)); [by rewrite String.eqb_refl| |done].
    right. by exists id, i, b.
  - apply Forall_forall. intros p Hp. by destruct (sound_param _ p Hr (ei_sound _ _ _ _ He p Hp)) as ((?&?&?)&?&_).
Qed.

Lemma max_of_lt {T} (f : T -> Z) l v : 0 < v -> (forall x, x ∈ l -> f x < v) -> max_of f l < v.
Proof.
  unfold max_of. generalize 0. induction l as [|x l IH]; intros z Hz Hl; cbn; [done|].
  apply IH; [|intros; apply Hl; by right]. pose proof (Hl x ltac:(left)). lia.
Qed.

(** *** Round trip *)

(** The chain as its operations leave it: the registry is intact, the contracts
    are consistent, stores have no empty keys, and the next address of an
    instance is free. *)
Record chain_intact (s : S) : Prop := {
  ci_reg : registry_intact (ch_reg s);
  ci_con : consistent s;
  ci_states : forall addr, state_keys_ok (ch_con s) addr;
  ci_next : exists n addr, PeekAutoIncrementID KeySequenceInstanceID (ch_reg s) = Ok n /\
    BuildContractAddressClassic n n = Ok addr /\ cinfos (ch_con s) !! addr = None
}.

Definition empty_registry : Registry := mkRegistry ∅ ∅ ∅ ∅ ∅ ∅ ∅ ∅ ∅.

(** What an import keeps of a registry: neither the parameters a circuit refers
    to nor the index of circuits by creator. *)
Definition imported (r : Registry) (vks : gmap Z VkParamInfoResponse) (bs : gmap Z string) : Registry :=
  mkRegistry (seqs r) (codes r) (infos r) (blobs r) ∅ ∅ vks bs (pinned r).

(** The verification-key parameters after an import: those of [r] and, under new ids,
    the parameters in blobs of circuits that had none stored under their key; every
    circuit has one set of parameters then. *)
Record backfilled (r : Registry) (vks : gmap Z VkParamInfoResponse) (bs : gmap Z string) : Prop := {
  bf_keeps id i : vk_infos r !! id = Some i -> vks !! id = Some i /\ bs !! id = vk_bytes r !! id;
  bf_new id i : vks !! id = Some i -> vk_infos r !! id = Some i \/
    (vk_infos r !! id = None /\ VkID i = id /\ (forall id' j, vk_infos r !! id' = Some j -> DataHash j <> DataHash i) /\
     exists z c b, infos r !! z = Some c /\ blobs r !! z = Some b /\ DataHash i = param_key c /\ VkCreator i = Creator c /\
       is_Some (bs !! id) /\ circuitParamBytes b c = bs !! id);
  bf_bytes id : is_Some (bs !! id) <-> is_Some (vks !! id);
  bf_keys id id' i j : vks !! id = Some i -> vks !! id' = Some j -> DataHash i = DataHash j -> id = id';
  bf_circuits z c : infos r !! z = Some c -> exists id i, vks !! id = Some i /\ DataHash i = param_key c
}.

Definition info_of (p : VkParam) : VkParamInfoResponse := mkVkParamInfo (ParamID p) (ParamCreator p) (ParamKey p).
Definition vks_of (r : Registry) : gmap Z VkParamInfoResponse := rebuild ParamID info_of (ex_params (exported r)) ∅.
Definition bytes_of (r : Registry) : gmap Z string := rebuild ParamID ParamBytes (ex_params (exported r)) ∅.

Lemma rebuild_some {K V T} `{Countable K} (key : T -> K) (val : T -> V) l k v : NoDup (key <$> l) ->
  rebuild key val l ∅ !! k = Some v <-> exists x, x ∈ l /\ key x = k /\ val x = v.
Proof.
  intros Hnd. split; [|intros (x&Hx&<-&<-); by apply rebuild_elem].
  rewrite (rebuild_lookup _ _ _ _ _ Hnd). destruct (list_find _ l) as [[i x]|] eqn:E; [|by rewrite lookup_empty].
  apply list_find_Some in E as (Hx&Ek&_). intros [= <-]. exists x. split; [|done]. by eapply list_elem_of_lookup_2.
Qed.

Lemma backfilled_ok r : registry_intact r -> backfilled r (vks_of r) (bytes_of r).
Proof.
  intros Hr. destruct (exported_inv _ Hr) as [m He]. pose proof (ei_ids _ _ _ _ He) as Hnd. split.
  - intros id i Hi. pose proof (ei_stored _ _ _ _ He id i Hi) as Hp. destruct (in_params _ Hr id i Hi) as (Hid&b&Hb&_).
    split; [|rewrite Hb]; apply rebuild_some; try done; exists (param_of r (id, i)).
    + split_and!; [done..|]. unfold info_of. cbn. destruct i; cbn in *. by rewrite Hid.
    + split_and!; [done..|]. cbn. by rewrite Hb.
  - intros id i (p&Hp&<-&<-)%(rebuild_some _ _ _ _ _ Hnd).
    assert (Hbp : bytes_of r !! ParamID p = Some (ParamBytes p)) by (apply rebuild_some; eauto).
    destruct (ei_sound _ _ _ _ He p Hp) as [(i&Hi&Ep)|(Hn&Hk&z&c&b&Hz&Hb&?&?&Hq)]; [left|right].
    + rewrite Hi. destruct (in_params _ Hr _ i Hi) as (Hid&_). destruct p as [pid k c bz]; cbn in *.
      injection Ep as -> -> _. destruct i; cbn in *. by subst.
    + split_and!; [done..|]. exists z, c, b. rewrite Hbp. split_and!; [done..|by eexists|done].
  - intros id. split; intros [x (p&Hp&<-&_)%(rebuild_some _ _ _ _ _ Hnd)]; eexists; apply rebuild_some; eauto.
  - intros id id' i j (p&Hp&<-&<-)%(rebuild_some _ _ _ _ _ Hnd) (q&Hq&<-&<-)%(rebuild_some _ _ _ _ _ Hnd) E. cbn in E.
    apply list_elem_of_lookup in Hp as [a Ha], Hq as [b Hb]. assert (a = b) as ->; [|congruence].
    eapply (NoDup_lookup _ _ _ (ParamKey p) (ei_keys _ _ _ _ He)); rewrite list_lookup_fmap; [by rewrite Ha|by rewrite Hb, E].
  - intros z c Hz. destruct (circuit_params _ m z c Hr He Hz) as (p&Hp&Hk). exists (ParamID p), (info_of p).
    split; [|done]. apply rebuild_some; eauto.
Qed.

Lemma imported_registry r : registry_intact r ->
  fold_left add_seq (sequences_of r sequence_keys)
    (fold_left add_zk (map (circuit_of r) (in_order (infos r)))
      (fold_left add_param (ex_params (exported r))
        (fold_left add_code (map (code_of r) (in_order (codes r))) empty_registry))) = imported r (vks_of r) (bytes_of r).
Proof.
  intros Hr. rewrite fold_add_code, fold_add_param, fold_add_zk, fold_add_seq. cbn [seqs codes infos blobs param_refs creator_ix vk_infos vk_bytes pinned empty_registry].
  unfold imported. f_equal.
  - apply rebuild_entries; [apply sequences_nodup, sequence_keys_nodup|]. intros k bz. split.
    + intros Hk. destruct (in_seqs _ Hr k bz Hk) as (Hin&n&Hn&->). exists (mkSequence k n).
      split; [|done]. apply sequences_elem. split; [done|]. exists (be64s n). by rewrite be64s_roundtrip.
    + intros (x&(Hin&bz'&Hbz&Hv)%sequences_elem&<-&<-). destruct (in_seqs _ Hr _ _ Hbz) as (_&n&Hn&->).
      by rewrite Hv, be64s_roundtrip.
  - apply (rebuild_in_order (codes r)); [done|by intros|done].
  - apply (rebuild_in_order (infos r)); [done|by intros|done].
  - apply (rebuild_in_order (infos r)); [done| |apply (in_blobs _ Hr)].
    intros id i Hi. destruct (in_circuits _ Hr id i Hi) as (b&Hb&_). unfold circuit_of. cbn. by rewrite Hb.
  - apply set_eq. intros id. rewrite !elem_of_pins. split.
    + intros [[[]%elem_of_empty|(x&([i ?]&->&_)%list_elem_of_fmap&Hp&<-)]|(x&([i ?]&->&_)%list_elem_of_fmap&Hp&<-)];
        by apply bool_decide_eq_true in Hp.
    + intros Hid. left. right. destruct (in_pinned _ Hr id Hid) as [i Hi]. exists (code_of r (id, i)).
      split; [apply list_elem_of_fmap_2; by apply in_order_elem|]. split; [by apply bool_decide_eq_true|done].
Qed.

Lemma check_sequences_ok (s s' : S) : chain_intact s -> seqs (ch_reg s') = seqs (ch_reg s) ->
  cinfos (ch_con s') = cinfos (ch_con s) -> check_sequences (genesis_of s) s' = Ok tt.
Proof.
  intros Hs Eseq Einf. pose proof (ci_reg _ Hs) as Hr. unfold check_sequences.
  assert (Hpeek : forall k, PeekAutoIncrementID k (ch_reg s') = PeekAutoIncrementID k (ch_reg s)).
  { intros k. unfold PeekAutoIncrementID. by rewrite Eseq. }
  destruct (in_code_seq _ Hr) as (v&Hv&Hpos&Hlt), (in_circuit_seq _ Hr) as (v2&Hv2&Hpos2&Hlt2),
    (ci_next _ Hs) as (n&addr&Hn&Haddr&Hfree).
  rewrite !Hpeek, Hv, Hv2, Hn. cbn [mbind res_bind]. unfold mbind, res_bind, refuse.
  rewrite (proj2 (Z.leb_gt _ _)).
  2: { apply max_of_lt; [done|]. intros c ([id i]&->&Hi%in_order_elem)%list_elem_of_fmap. apply Hlt. by eexists. }
  rewrite (proj2 (Z.leb_gt _ _)).
  2: { apply max_of_lt; [done|]. intros c ([id i]&->&Hi%in_order_elem)%list_elem_of_fmap. apply Hlt2. by eexists. }
  unfold ClassicAddressGenerator, mustAutoIncrementID, mbind, M_bind, gets, lift.
  unfold PeekAutoIncrementID in Hn. rewrite Eseq, Hn. cbn. rewrite Haddr. unfold HasContractInfo. by rewrite Einf, Hfree.
Qed.

Lemma exported_contract_ok (s : S) a : Rep (codes (ch_reg s)) a (ch_con s) ->
  rebuild fst (fun x => (x.2, GetContractHistory x.1 (ch_con s))) (iter_prefix ""%string (cinfos (ch_con s))) ∅ = a.
Proof.
  intros R. apply rebuild_entries; [apply iter_prefix_keys_nodup|]. intros addr [info es]. split.
  - intros Ha. exists (addr, info). cbn. rewrite (history_rep _ _ _ _ _ _ R Ha). split; [|done].
    apply elem_of_iter_prefix. rewrite string_app_nil. by rewrite (rep_infos _ _ _ R), lookup_fmap, Ha.
  - intros ([addr' info']&Hx%elem_of_iter_prefix&<-&[= <- <-]). rewrite string_app_nil in Hx. cbn in *.
    destruct (rep_lookup _ _ _ _ _ R Hx) as (es&Ha&_). by rewrite (history_rep _ _ _ _ _ _ R Ha).
Qed.

Lemma acts_lift {T} (r : res T) x (w : W) : r = Ok x -> acts (lift r) w x (store w).
Proof. intros ->. by exists w. Qed.

(** The contracts of an intact chain can be imported where its codes are. *)
Lemma acts_all_contracts (s : S) (w : W) : chain_intact s ->
  codes (ch_reg (store w)) = codes (ch_reg s) -> ch_con (store w) = empty_contracts ->
  exists c', acts (forM (GContracts (genesis_of s)) init_contract) w tt (set_con c' (store w)) /\
    cinfos c' = cinfos (ch_con s) /\ chist c' = chist (ch_con s) /\ code_ix c' = code_ix (ch_con s) /\
    ccreator_ix c' = ccreator_ix (ch_con s) /\
    forall addr, is_Some (cinfos (ch_con s) !! addr) -> contract_state addr c' = contract_state addr (ch_con s).
Proof.
  intros Hs Hc He. destruct (ci_con _ Hs) as (a&[_ Hsz R]).
  set (l := iter_prefix ""%string (cinfos (ch_con s))).
  assert (Hin : forall x, x ∈ l <-> cinfos (ch_con s) !! x.1 = Some x.2).
  { intros []. unfold l. rewrite elem_of_iter_prefix. by rewrite string_app_nil. }
  destruct (acts_contracts (ch_con s) l w ∅) as (c'&HA&R'&S').
  - rewrite He. apply empty_rep.
  - apply iter_prefix_keys_nodup.
  - intros [addr info] Hx%Hin. cbn in *. rewrite He, Hc. cbn. destruct (rep_lookup _ _ _ _ _ R Hx) as (es&Ha&Hwf).
    rewrite (history_rep _ _ _ _ _ _ R Ha). split_and!; [apply lookup_empty..| |done|apply (ci_states _ Hs)].
    intros ->. assert (String.length "" = ContractAddrLen) by (apply Hsz; by eexists). done.
  - rewrite Hc in R'. unfold l in R'. rewrite (exported_contract_ok _ _ R) in R'. exists c'. split; [exact HA|].
    destruct (rep_unique _ _ _ _ R R') as (?&?&?&?). split_and!; [done..|].
    intros addr [info Hi]. unfold contract_state at 1. rewrite S', He.
    pose proof (rebuild_elem fst (fun x => contract_state x.1 (ch_con s)) l (∅ : gmap string (gmap string string)) (addr, info)
      (iter_prefix_keys_nodup _ _)) as HL. cbn in HL |- *. rewrite HL by (by apply Hin). done.
Qed.

(** Each kind of element of an intact registry can be imported. *)
Lemma codes_importable (s : S) : registry_intact (ch_reg s) -> Forall code_importable (Codes (genesis_of s)).
Proof.
  intros Hr. apply Forall_forall. intros x ([id i]&->&Hi%in_order_elem)%list_elem_of_fmap.
  destruct (in_codes _ Hr id i Hi) as (b&Hb&Hz&Hs). unfold code_importable, code_of. cbn. by rewrite Hb.
Qed.

Lemma params_importable (s : S) : registry_intact (ch_reg s) -> Forall param_importable (VkParams (genesis_of s)).
Proof.
  intros Hr. destruct (exported_inv _ Hr) as [m He]. apply Forall_forall. intros p Hp.
  by destruct (sound_param _ p Hr (ei_sound _ _ _ _ He p Hp)) as (?&_).
Qed.

Lemma circuits_importable (s : S) : registry_intact (ch_reg s) -> Forall circuit_importable (Circuits (genesis_of s)).
Proof.
  intros Hr. apply Forall_forall. intros x ([id i]&->&Hi%in_order_elem)%list_elem_of_fmap.
  destruct (in_circuits _ Hr id i Hi) as (b&Hb&Hz&Hs&_&Ha&Hw). unfold circuit_importable, circuit_of. cbn. by rewrite Hb.
Qed.

(** The registry part of an import into an empty registry, contracts left out. *)
Lemma rebuild_codes r : rebuild GCodeID GCodeInfo (map (code_of r) (in_order (codes r))) ∅ = codes r.
Proof. apply (rebuild_in_order (codes r)); [done|by intros|done]. Qed.

(** How many pins an import of [g] makes. *)
Definition pin_count (g : GenesisState) : nat :=
  sum_list_with (fun c => Nat.b2n (CodePinned c)) (Codes g) + sum_list_with (fun c => Nat.b2n (ZkPinned c)) (Circuits g).

Lemma pays_registry (s : S) (w : W) : registry_intact (ch_reg s) -> ch_reg (store w) = empty_registry ->
  pays (pin_count (genesis_of s)) (forM (Codes (genesis_of s)) (init_code gasRegister);; forM (VkParams (genesis_of s)) init_param;;
        forM (Circuits (genesis_of s)) (init_circuit gasRegister)) w tt
    (set_chreg (fold_left add_zk (Circuits (genesis_of s)) (fold_left add_param (VkParams (genesis_of s))
      (fold_left add_code (Codes (genesis_of s)) empty_registry))) (store w)).
Proof.
  intros Hr He. unfold pin_count. eapply pays_bind; [apply pays_codes|].
  { by apply exported_nodup. } { by apply codes_importable. }
  { intros. rewrite He. apply lookup_empty. } { intros id. rewrite He. by intros []%elem_of_empty. }
  intros w1 E1. rewrite He in E1. rewrite <- (Nat.add_0_l (sum_list_with _ _)).
  eapply pays_bind; [apply acts_pays, acts_params; by apply params_importable|].
  intros w2 E2. rewrite E1 in E2. cbn in E2. rewrite fold_add_code, fold_add_param in E2.
  assert (Hpin : forall id, id ∈ pinned (ch_reg s) ->
    exists i, codes (ch_reg (store w2)) !! id = Some i /\ vm_stored (CodeHash i)).
  { intros id Hid. destruct (in_pinned _ Hr id Hid) as [i Hi]. exists i. rewrite E2. cbn. rewrite rebuild_codes.
    split; [done|]. destruct (in_codes _ Hr id i Hi) as (b&_&_&Hb). by exists b. }
  replace (set_chreg _ (store w)) with (set_chreg (fold_left add_zk (Circuits (genesis_of s)) (ch_reg (store w2))) (store w2)).
  - apply pays_circuits; [by apply exported_nodup|by apply circuits_importable| | |].
    + intros. rewrite E2. apply lookup_empty.
    + intros id Hid. apply Hpin. rewrite E2 in Hid. cbn in Hid. apply elem_of_pins in Hid
        as [[]%elem_of_empty|(x&([i ?]&->&_)%list_elem_of_fmap&Hp%bool_decide_eq_true&<-)]. done.
    + intros c ([i ?]&->&_)%list_elem_of_fmap Hp%bool_decide_eq_true. by apply Hpin.
  - rewrite E2. cbn. by rewrite fold_add_code, fold_add_param.
Qed.

(** An import whose stages succeed. *)
Lemma init_steps g (w w1 w2 w3 : W) : validateGenesisParamCircuitCrossRefs g = Ok tt ->
  (forM (Codes g) (init_code gasRegister);; forM (VkParams g) init_param;; forM (Circuits g) (init_circuit gasRegister))
    (set_store (set_params (GParams g) (store w)) w) = (Ok tt, w1) ->
  forM (GContracts g) init_contract w1 = (Ok tt, w2) -> forM (Sequences g) init_sequence w2 = (Ok tt, w3) ->
  check_sequences g (store w3) = Ok tt -> InitGenesis gasRegister g w = (Ok tt, w3).
Proof.
  intros Hx X1 X2 X3 Hc. unfold InitGenesis, modify, lift, gets. unfold mbind, M_bind in *. rewrite Hx. cbn [wrap_err].
  destruct (forM (Codes g) _ _) as [[[]| |] wa]; [|done..]. destruct (forM (VkParams g) _ _) as [[[]| |] wb]; [|done..].
  rewrite X1, X2, X3, Hc. done.
Qed.

(** C17: an intact chain survives export and import; intact means that the machine
    recognises what is stored, that no parameters are stored twice and all agree with
    those in blobs, and that sequences are past the ids in use.  Exporting does not
    fail and changes nothing; importing the export into an empty store, with gas for
    the pins, succeeds and gives
    back parameters, sequences, codes, pins and circuits, and the contracts with their
    histories, both indexes and their stores.  Verification-key parameters are kept as
    well, and for each key of a circuit under which none were stored those in a blob
    are added.  Lost are the links from circuits to their parameters, the index of
    circuits by creator, deposits, epochs and packets that await acknowledgement: the
    last three are as they were in the store imported into. *)
Theorem wasm_genesis_roundtrip (w w0 : W) : chain_intact (store w) ->
  ch_reg (store w0) = empty_registry -> ch_con (store w0) = empty_contracts ->
  affords (pin_count (genesis_of (store w))) (WasmDispatch.meter w0) ->
  exists g w' vks bs, ExportGenesis w = (Ok g, w) /\ InitGenesis gasRegister g w0 = (Ok tt, w') /\
    ch_params (store w') = ch_params (store w) /\
    ch_reg (store w') = imported (ch_reg (store w)) vks bs /\ backfilled (ch_reg (store w)) vks bs /\
    cinfos (ch_con (store w')) = cinfos (ch_con (store w)) /\ chist (ch_con (store w')) = chist (ch_con (store w)) /\
    code_ix (ch_con (store w')) = code_ix (ch_con (store w)) /\
    ccreator_ix (ch_con (store w')) = ccreator_ix (ch_con (store w)) /\
    (forall addr, is_Some (cinfos (ch_con (store w)) !! addr) ->
       contract_state addr (ch_con (store w')) = contract_state addr (ch_con (store w))) /\
    ch_dep (store w') = ch_dep (store w0) /\ ch_epoch (store w') = ch_epoch (store w0) /\
    ch_async (store w') = ch_async (store w0).
Proof.
  intros Hs Hr0 Hc0 Hg. pose proof (ci_reg _ Hs) as Hr. exists (genesis_of (store w)).
  set (s0 := set_params (ch_params (store w)) (store w0)).
  set (r3 := fold_left add_zk (Circuits (genesis_of (store w))) (fold_left add_param (VkParams (genesis_of (store w)))
      (fold_left add_code (Codes (genesis_of (store w))) empty_registry))).
  assert (Hcodes : codes r3 = codes (ch_reg (store w))).
  { unfold r3. rewrite fold_add_code, fold_add_param, fold_add_zk. apply rebuild_codes. }
  assert (Hseqs : seqs r3 = ∅) by (unfold r3; by rewrite fold_add_code, fold_add_param, fold_add_zk).
  assert (HR : fold_left add_seq (Sequences (genesis_of (store w))) r3 = imported (ch_reg (store w)) (vks_of (ch_reg (store w))) (bytes_of (ch_reg (store w)))) by (by apply imported_registry).
  destruct (pays_registry (store w) (set_store s0 w0) Hr Hr0 0%nat) as (w1&X1&E1&_); [by rewrite Nat.add_0_r|]. fold r3 in E1. clearbody r3. cbn in E1.
  destruct (acts_all_contracts (store w) w1 Hs) as (c'&(w2&X2&E2&_)&Hinf&?&?&?&?); [by rewrite E1..|].
  destruct (acts_sequences (Sequences (genesis_of (store w))) w2) as (w3&X3&E3&_).
  { apply sequences_nodup, sequence_keys_nodup. } { intros. rewrite E2, E1. cbn. rewrite Hseqs. apply lookup_empty. }
  rewrite E2, E1 in E3. cbn [ch_reg set_con set_chreg] in E3. rewrite HR in E3. exists w3, (vks_of (ch_reg (store w))), (bytes_of (ch_reg (store w))). rewrite E3. split; [by apply export_ok|].
  split; [|split_and!; try done; by apply backfilled_ok]. apply init_steps with (w1 := w1) (w2 := w2) (w3 := w3); [by apply cross_refs_ok|done..|].
  rewrite E3. by apply check_sequences_ok.
Qed.

(** *** Repeated parameters *)

(** Parameters that pass the check have different keys. *)
Lemma params_by_key_nodup l m m' : params_by_key l m = Ok m' ->
  NoDup (ParamKey <$> l) /\ forall p, p ∈ l -> m !! ParamKey p = None.
Proof.
  revert m. induction l as [|p l IH]; intros m E; [split; [constructor|by intros ? []%not_elem_of_nil]|].
  cbn [params_by_key] in E. unfold mbind, res_bind, ensure, refuse in E.
  destruct (_ =? 36)%nat; [|done]. destruct (_ =? 0)%nat; [done|]. destruct (String.eqb _ _); [|done].
  destruct (m !! ParamKey p) as [|] eqn:Hp; [done|]. destruct (IH _ E) as [Hnd Hn].
  assert (Hfresh : forall q, q ∈ l -> ParamKey p <> ParamKey q).
  { intros q Hq Eq. specialize (Hn q Hq). by rewrite <- Eq, lookup_insert_eq in Hn. }
  split.
  - cbn. constructor; [|done]. intros (q&Eq&Hq)%list_elem_of_fmap. by apply (Hfresh q).
  - intros q [->|Hq]%elem_of_cons; [done|]. specialize (Hn q Hq). by rewrite lookup_insert_ne in Hn by auto.
Qed.

Lemma params_by_key_total l m : (exists m', params_by_key l m = Ok m') \/ exists e, params_by_key l m = Err e.
Proof.
  revert m. induction l as [|p l IH]; intros m; [by left; eexists|].
  cbn [params_by_key]. unfold mbind, res_bind, ensure, refuse.
  destruct (_ =? 36)%nat; [|by right; eexists]. destruct (_ =? 0)%nat; [by right; eexists|].
  destruct (String.eqb _ _); [|by right; eexists]. destruct (m !! ParamKey p); [by right; eexists|apply IH].
Qed.

(** A genesis state with a repeated key is refused before anything but the
    parameters of the module is written. *)
Lemma init_refuses g (w : W) : ~ NoDup (ParamKey <$> VkParams g) -> (InitGenesis gasRegister g w).1 = Err "ErrInvalid".
Proof.
  intros Hd. unfold InitGenesis, validateGenesisParamCircuitCrossRefs, modify, lift.
  unfold mbind, M_bind, res_bind. destruct (params_by_key_total (VkParams g) ∅) as [[m E]|[e E]]; rewrite E; [|done].
  exfalso. apply Hd. by apply params_by_key_nodup in E as [? _].
Qed.

(** An export lists the stored parameters first. *)
Lemma export_params_shape r l ps : export_params r l = Ok ps -> ParamKey <$> ps = (fun x => DataHash x.2) <$> l.
Proof.
  revert ps. induction l as [|[id i] l IH]; intros ps E; [by injection E as <-|]. cbn [export_params] in E.
  unfold mbind, res_bind in E. destruct (must_ok _) as [b| |]; [|done..].
  destruct (export_params r l) as [rest| |]; [|done..]. injection E as <-. cbn. by rewrite <- (IH rest).
Qed.

Lemma export_circuits_params l : forall e e' r r', export_circuits l e r = (Ok e', r') -> exists ps, ex_params e' = ex_params e ++ ps.
Proof.
  induction l as [|[id i] l IH]; intros e e' r r' E.
  - injection E as <- _. exists []. by rewrite app_nil_r.
  - cbn [export_circuits] in E. apply bind_Ok in E as (b&r1&_&E). apply bind_Ok in E as (p&r2&_&E).
    apply IH in E as [ps Hps]. rewrite Hps. unfold backfill_param.
    repeat case_match; cbn; rewrite <- ?app_assoc; eauto.
Qed.

Lemma export_lists (w w' : W) g : ExportGenesis w = (Ok g, w') ->
  exists ps, ParamKey <$> VkParams g = ((fun x => DataHash x.2) <$> in_order (vk_infos (ch_reg (store w)))) ++ ps.
Proof.
  intros E. unfold ExportGenesis in E. apply bind_Ok in E as (s&w1&[-> <-]%gets_Ok&E).
  apply bind_Ok in E as (cs&w1&[_ <-]%lift_Ok&E). apply bind_Ok in E as (vs&w1&[Hvs <-]%lift_Ok&E).
  apply bind_Ok in E as (e&w1&He&E). apply bind_Ok in E as (sq&w2&_&E). apply ret_Ok in E as [<- _].
  unfold with_reg, zoom in He. destruct (export_circuits _ _ _) as [r1 r2] eqn:Ec. injection He as -> _.
  apply export_circuits_params in Ec as [ps Hps]. cbn in *. exists (ParamKey <$> ps).
  by rewrite Hps, fmap_app, (export_params_shape _ _ _ Hvs).
Qed.

Lemma shared_key_repeats {V} (f : V -> string) (m : gmap Z V) i j p q l : m !! i = Some p -> m !! j = Some q -> i <> j ->
  f p = f q -> ~ NoDup (((fun x => f x.2) <$> in_order m) ++ l).
Proof.
  intros Hi Hj Hij Hf [Hnd _]%NoDup_app. apply in_order_elem, list_elem_of_lookup in Hi as [a Ha].
  apply in_order_elem, list_elem_of_lookup in Hj as [b Hb].
  assert (a = b) as ->; [|rewrite Ha in Hb; congruence].
  eapply (NoDup_lookup _ _ _ (f p)); [exact Hnd|..]; rewrite list_lookup_fmap; [by rewrite Ha|by rewrite Hb, Hf].
Qed.

(** Uploading parameters adds them under the next id, whatever is stored. *)
Lemma with_vk_param ctx creator auth bz authZ (w w' : W) id key :
  with_keeper (store_vk_param gasRegister ctx creator auth bz authZ) w = (Ok (id, key), w') ->
  exists pb, unpacked bz = Ok pb /\ StoreParam pb = Ok key /\
    PeekAutoIncrementID KeySequenceVkParamID (ch_reg (store w)) = Ok id /\
    ch_reg (store w') = add_vk_param id creator key pb (ch_reg (store w)).
Proof.
  unfold with_keeper, zoom. destruct (store_vk_param _ _ _ _ _ _ _) as [x k'] eqn:E. intros [= -> <-].
  apply store_vk_param_Ok in E as (pb&?&_&?&_&?&Hr&_). exists pb. split_and!; [done..|]. exact Hr.
Qed.

Lemma next_differs id : u64 (id + 1) <> id.
Proof.
  unfold u64. intros E. pose proof (Z.mod_pos_bound (id + 1) (2 ^ 64) ltac:(lia)).
  destruct (decide (id = 2 ^ 64 - 1)) as [->|]; [done|]. rewrite Z.mod_small in E by lia. lia.
Qed.

(** Storing the same verification-key parameters twice makes the exported
    state unusable: both uploads succeed and get their own id, and whatever
    genesis state is exported from there, an import of it into any store is
    refused. *)
Theorem repeated_params_unimportable ctx creator creator' auth auth' bz authZ authZ' (w w1 w2 w3 : W) r r' g :
  with_keeper (store_vk_param gasRegister ctx creator auth bz authZ) w = (Ok r, w1) ->
  with_keeper (store_vk_param gasRegister ctx creator' auth' bz authZ') w1 = (Ok r', w2) ->
  ExportGenesis w2 = (Ok g, w3) ->
  r'.1 <> r.1 /\ forall w0, (InitGenesis gasRegister g w0).1 = Err "ErrInvalid".
Proof.
  destruct r as [id key], r' as [id' key'].
  intros (pb&Hpb&Hk&Hid&Hr1)%with_vk_param (pb'&Hpb'&Hk'&Hid'&Hr2)%with_vk_param Hx. cbn.
  assert (pb' = pb) as -> by congruence. assert (key' = key) as -> by congruence.
  rewrite Hr1 in Hid'. erewrite peek_after in Hid'; [|apply u64_range|apply lookup_insert_eq]. injection Hid' as <-.
  split; [apply next_differs|]. intros w0. apply init_refuses. apply export_lists in Hx as [ps ->].
  eapply (shared_key_repeats DataHash _ (u64 (id + 1)) id); [..|apply next_differs|].
  - rewrite Hr2. apply lookup_insert_eq.
  - rewrite Hr2, Hr1. cbn. rewrite lookup_insert_ne by apply next_differs. apply lookup_insert_eq.
  - done.
Qed.

End ImportProofs.

(** ** Witnesses *)

Module GenesisWitness.
Import Ref RefLaws RefBank RefBankLaws CircuitRef ChainRef ServerRef AppRef.

Definition circuit_key : string := ("key." ++ hash32 ++ "vk")%string.

#[local] Instance genesis_vm : GenesisVM := {|
  GetCode _ := Ok "wasm"%string; vm_GetCircuit _ := Ok None; StoreCircuitUnchecked _ := Ok circuit_key |}.

(** A chain with a pinned code, an instance of it that has stored something, and
    a circuit whose parameters are stored on their own or only part of its blob. *)
Definition zk1 : CircuitInfo := mkCircuitInfo circuit_key "addrann" AllowEverybody 0 2 0 4.
Definition vk1 : VkParamInfoResponse := mkVkParamInfo 1 "addrann" ("key." ++ hash32)%string.
Definition registry1 (stored : bool) : Registry :=
  mkRegistry {[KeySequenceCodeID := be64s 2; KeySequenceInstanceID := be64s 2; KeySequenceCircuitID := be64s 2;
               KeySequenceVkParamID := be64s 2]}
    {[1 := code1]} {[1 := zk1]} {[1 := "ppbody"%string]} {[1 := 1]} {[(lp "ann" ++ be64s 1)%string := tt]}
    (if stored then {[1 := vk1]} else ∅) (if stored then {[1 := "pp"%string]} else ∅) {[1]}.
Definition grown (stored : bool) : RW :=
  mkWorld (set_con (set_cstates (fun _ => {[victim := {["count"%string := "7"%string]}]}) (ch_con (store world1)))
             (set_chreg (registry1 stored) (store world1))) (mkMeter 0 1000000000) [].

(** A store before genesis, and a meter that is not limited. *)
Definition blank : RW :=
  mkWorld (mkChain params0 RefBank.empty ∅ empty_registry (mkDeposits ∅ ∅ ∅) None empty_contracts ∅ tt)
    (mkMeter 0 u64_max) [].

Lemma seq_past_one {V} k (m : gmap Z V) v r : PeekAutoIncrementID k r = Ok 2 -> m = {[1 := v]} ->
  seq_past k (fun id => is_Some (m !! id)) r.
Proof. intros Hk ->. exists 2. split_and!; [done|lia|]. intros id Hid%lookup_singleton_is_Some. lia. Qed.

Lemma registry1_vk (stored : bool) id i : vk_infos (registry1 stored) !! id = Some i -> stored = true /\ id = 1 /\ i = vk1.
Proof. destruct stored; cbn; [by intros [<- <-]%lookup_singleton_Some|done]. Qed.

Lemma registry1_bytes (stored : bool) id q : vk_bytes (registry1 stored) !! id = Some q -> stored = true /\ id = 1 /\ q = "pp"%string.
Proof. destruct stored; cbn; [by intros [<- <-]%lookup_singleton_Some|done]. Qed.

Lemma registry1_available stored h q : available (registry1 stored) h q -> q = "pp"%string.
Proof.
  intros [(id&p&_&_&(_&_&->)%registry1_bytes)|(id&i&b&Hi&Hb&_&Hq)]; [done|]. cbn in Hi, Hb.
  apply lookup_singleton_Some in Hi as [<- <-]. apply lookup_singleton_Some in Hb as [_ <-]. by injection Hq as <-.
Qed.

Lemma registry1_intact stored : registry_intact (registry1 stored).
Proof.
  split; unfold map_Forall.
  - intros id i Hi. cbn [registry1 codes infos] in Hi. apply lookup_singleton_Some in Hi as [<- <-]. by exists "wasm"%string.
  - cbn [registry1 pinned codes]. intros id Hid%elem_of_singleton. subst id. by eexists.
  - intros id i (->&->&->)%registry1_vk. split; [done|]. by exists "pp"%string.
  - intros id [q (->&->&->)%registry1_bytes]. by eexists.
  - intros i j p q (_&->&_)%registry1_vk (_&->&_)%registry1_vk. done.
  - intros id i Hi. cbn [registry1 codes infos] in Hi. apply lookup_singleton_Some in Hi as [<- <-]. exists "ppbody"%string.
    split_and!; [done|done|done|by vm_compute; lia|done|done].
  - intros id i Hi. cbn [registry1 codes infos] in Hi. apply lookup_singleton_Some in Hi as [<- <-]. exists "pp"%string. right. by exists 1, zk1, "ppbody"%string.
  - intros h q q' ->%registry1_available ->%registry1_available. done.
  - exists 1. split; [done|]. split; [|done]. intros id [i (_&->&_)%registry1_vk]. done.
  - intros id Hid. cbn [registry1 blobs] in Hid. apply lookup_singleton_is_Some in Hid as <-. by eexists.
  - intros k bz Hk. cbn in Hk.
    repeat (apply lookup_insert_Some in Hk as [[<- <-]|[_ Hk]]; [split; [by vm_compute; repeat constructor|];
      exists 2; split; [unfold is_u64; lia|done]|]).
    done.
  - by eapply seq_past_one.
  - by eapply seq_past_one.
Qed.

Lemma world1_codes : codes (ch_reg (store world1)) = {[1 := code1]}.
Proof. by vm_compute. Qed.

Lemma grown_intact stored : chain_intact (store (grown stored)).
Proof.
  split.
  - exact (registry1_intact stored).
  - destruct world1_consistent as (a&[Hid Hsz R]). exists a. split; [|exact Hsz|].
    + intros id Hi. apply Hid. by rewrite world1_codes.
    + apply rep_states. rewrite world1_codes in R. exact R.
  - intros addr k. unfold contract_state. cbn. destruct (decide (addr = victim)) as [->|Hne].
    + rewrite lookup_singleton_eq. cbn. intros Hk%lookup_singleton_is_Some. by subst k.
    + rewrite lookup_singleton_ne by done. cbn. by intros [].
  - exists 2. eexists. split; [done|]. split; [done|]. by vm_compute.
Qed.

Lemma wasm_genesis_roundtrip_witness : Forall (fun stored => exists g w' vks bs,
  ExportGenesis (grown stored) = (Ok g, grown stored) /\ InitGenesis DefaultGasRegisterConfig g blank = (Ok tt, w') /\
  ch_reg (store w') = imported (registry1 stored) vks bs /\ backfilled (registry1 stored) vks bs /\
  contract_state victim (ch_con (store w')) = {["count"%string := "7"%string]}) [true; false].
Proof.
  assert (Hsync : forall l, Forall vm_stored l -> SyncPinnedCodes l = Ok tt) by done.
  repeat constructor.
  1: pose proof (wasm_genesis_roundtrip DefaultGasRegisterConfig Hsync (grown true) blank (grown_intact true) eq_refl eq_refl) as H.
  2: pose proof (wasm_genesis_roundtrip DefaultGasRegisterConfig Hsync (grown false) blank (grown_intact false) eq_refl eq_refl) as H.
  all: destruct H as (g&w'&vks&bs&Hx&Hi&_&Hr&Hb&_&_&_&_&Hst&_);
    [eexists; split; [by vm_compute|]; eexists; split; [by vm_compute|]; done|].
  all: exists g, w', vks, bs; split_and!; [exact Hx|exact Hi|exact Hr|exact Hb|];
    rewrite Hst; [by vm_compute|]; refine (bool_decide_unpack _ _); by vm_compute.
Defined.

(** Two accounts upload the same parameters. *)
Definition upload (creator : string) : M RW (Z * string) :=
  with_keeper (store_vk_param DefaultGasRegisterConfig (cBlock ctx0) creator true "pp" DefaultAuthorizationPolicy).
Definition twice : RW := (upload "bob" (upload "ann" blank).2).2.

Lemma repeated_params_unimportable_witness : exists g, (ExportGenesis twice).1 = Ok g /\ length (VkParams g) = 2%nat /\
  forall w0 : RW, (InitGenesis DefaultGasRegisterConfig g w0).1 = Err "ErrInvalid".
Proof.
  destruct (ExportGenesis twice) as [x w3] eqn:Ex.
  assert (is_ok (ExportGenesis twice).1 = true) as Hx by (by vm_compute).
  rewrite Ex in Hx. destruct x as [g| |]; [|done..]. exists g. split; [done|]. split.
  - assert (match (ExportGenesis twice).1 with Ok g => length (VkParams g) | _ => 0%nat end = 2%nat) as Hl by (by vm_compute).
    by rewrite Ex in Hl.
  - apply (repeated_params_unimportable DefaultGasRegisterConfig (cBlock ctx0) "ann" "bob" true true "pp"
      DefaultAuthorizationPolicy DefaultAuthorizationPolicy blank (upload "ann" blank).2 twice w3
      (1, ("key." ++ hash32)%string) (2, ("key." ++ hash32)%string) g); [by vm_compute..|exact Ex].
Defined.

(** An export gives ids to the parameters it takes from blobs, but does not move the
    sequence past them: on a chain that has numbered none before the next upload
    replaces imported ones. *)
Definition unnumbered : RW :=
  set_store (set_chreg (set_seq KeySequenceVkParamID (be64s 1) (registry1 false)) (store (grown false))) (grown false).
Definition reimported : RW :=
  match (ExportGenesis unnumbered).1 with Ok g => (InitGenesis DefaultGasRegisterConfig g blank).2 | _ => blank end.

Lemma backfilled_id_reused :
  VkCreator <$> vk_infos (ch_reg (store reimported)) !! 1 = Some "addrann"%string /\
  (upload "bob" reimported).1 = Ok (1, ("key." ++ hash32)%string) /\
  VkCreator <$> vk_infos (ch_reg (store (upload "bob" reimported).2)) !! 1 = Some "addrbob"%string.
Proof. split_and!; by vm_compute. Qed.

End GenesisWitness.
