(* ===== verification/WasmQueryTypes.v ===== *)
(** * x/wasm: what contracts ask and are told

    The requests a contract can make of the chain, the answers with their JSON
    encoding, and the errors on the way back to the contract: which are passed on
    as they are and which are redacted. *)

From Stdlib Require Import ZArith Lia.
From stdpp Require Import base gmap strings list pretty.
From S2P Require Import Prelude GoLib WasmGas WasmDispatch WasmPackets WasmJson.

(** ** Errors

    Errors keep their structure here, since it decides what a contract sees. *)

(** [wasmvmtypes.SystemError], one field of which is set. *)
Inductive SystemError :=
| InvalidRequest (err request : string)
| InvalidResponse (err response : string)
| NoSuchContract (addr : string)
| NoSuchCode (codeID : Z)
| Unknown
| UnsupportedRequest (kind : string).

(** Go errors by how they are built: a registered or foreign error with the name
    of its sentinel, the system errors and [NoSuchCircuit] of wasmvm, a
    [WasmVMFlavouredError], an error wrapped by errorsmod, a [DeterministicError],
    and a plain error ([fmt.Errorf]), such as the replacement of a redacted one. *)
Inductive GoErr :=
| Sentinel (name : string)
| System (e : SystemError)
| NoSuchCircuit (zkID : Z)
| Flavoured (sdkErr : string) (wasmVMErr : GoErr)
| Wrapped (e : GoErr) (desc : string)
| Deterministic (e : GoErr)
| Redacted (text : string).

#[export] Instance SystemError_eq_dec : EqDecision SystemError.
Proof. solve_decision. Defined.
#[export] Instance GoErr_eq_dec : EqDecision GoErr.
Proof. solve_decision. Defined.

(** The factories of types/errors.go. *)
Definition ErrNoSuchContractFn (addr : string) : GoErr :=
  Flavoured "ErrNoSuchContract" (System (NoSuchContract addr)).
Definition ErrNoSuchCodeFn (id : Z) : GoErr := Flavoured "ErrNoSuchCode" (System (NoSuchCode id)).
Definition ErrNoSuchCircuitFn (id : Z) : GoErr := Flavoured "ErrNoSuchCircuit" (NoSuchCircuit id).

(** [errors.As(err, &wasmvmErr)]: the outermost flavoured error of the chain. *)
Fixpoint as_flavoured (e : GoErr) : option GoErr :=
  match e with
  | Flavoured _ vm => Some vm
  | Wrapped e _ | Deterministic e => as_flavoured e
  | _ => None
  end.

(** [wasmvmtypes.ToSystemError]. *)
Definition to_system_error (e : GoErr) : option SystemError := match e with System s => Some s | _ => None end.

(** The registered error at the end of the chain of causes. *)
Fixpoint cause (e : GoErr) : string :=
  match e with
  | Sentinel n => n
  | System _ | NoSuchCircuit _ | Redacted _ => "unregistered"
  | Flavoured n _ => n
  | Wrapped e _ | Deterministic e => cause e
  end.

Section Redaction.
Context `{GoErrors}.

(** [redactError] on structured errors. *)
Definition redact (err : GoErr) : GoErr :=
  match to_system_error err, err with
  | Some _, _ => err
  | None, Deterministic _ => err
  | None, _ => let '(codespace, code) := ABCIInfo (cause err) in
               Redacted ("codespace: " ++ codespace ++ ", code: " ++ pretty code)
  end.

(** The end of [QueryHandler.Query] on an error. *)
Definition report (err : GoErr) : GoErr := redact (default err (as_flavoured err)).

End Redaction.

(** [wasmvmtypes.QuerierResult], the two-level result a contract gets. *)
Inductive QuerierResult := Answered (data : option string) | Refused (err : GoErr) | SystemFailed (err : SystemError).

Definition ToQuerierResult (r : GoErr + option string) : QuerierResult :=
  match r with
  | inr response => Answered response
  | inl err => match to_system_error err with Some s => SystemFailed s | None => Refused err end
  end.

(** ** Requests *)

(** [wasmvmtypes.PageRequest]. *)
Record VmPageRequest := mkVmPage { VmPageKey : option string; VmPageLimit : Z; VmPageReverse : bool }.

Record BankQuery := mkBankQuery {
  BqSupply : option string; BqBalance : option (string * string); BqAllBalances : option string;
  BqDenomMetadata : option string; BqAllDenomMetadata : option (option VmPageRequest) }.

Record IBCQuery := mkIBCQuery {
  IqPortID : bool; IqListChannels : option string; IqChannel : option (string * string) }.

Record StakingQuery := mkStakingQuery {
  SqAllValidators : bool; SqValidator : option string; SqAllDelegations : option string;
  SqDelegation : option (string * string); SqBondedDenom : bool }.

Record DistributionQuery := mkDistributionQuery {
  DqWithdrawAddress : option string; DqRewards : option (string * string); DqTotalRewards : option string;
  DqValidators : option string }.

(** [StargateQuery] and [GrpcQuery]. *)
Record PathQuery := mkPathQuery { PqData : string; PqPath : string }.

Record RawRangeQuery := mkRawRangeQuery {
  RrContract : string; RrStart : option string; RrEnd : option string; RrLimit : Z; RrOrder : string }.

Record WasmQuery := mkWasmQuery {
  WqSmart : option (string * string); WqRaw : option (string * option string); WqContractInfo : option string;
  WqCodeInfo : option Z; WqRawRange : option RawRangeQuery; WqCircuit : option Z; WqCircuitInfo : option Z }.

Record QueryRequest := mkQueryRequest {
  QBank : option BankQuery; QCustom : option string; QIBC : option IBCQuery; QStaking : option StakingQuery;
  QDistribution : option DistributionQuery; QStargate : option PathQuery; QGrpc : option PathQuery;
  QWasm : option WasmQuery }.

(** ** Answers *)

Definition VmCoin : Type := string * string.

Record VmDenomUnit := mkVmUnit { VuDenom : string; VuExponent : Z; VuAliases : list string }.
Record VmDenomMetadata := mkVmMetadata {
  VmDescription : string; VmDenomUnits : list VmDenomUnit; VmBase : string; VmDisplay : string;
  VmName : string; VmSymbol : string; VmURI : string; VmURIHash : string }.

Record VmValidator := mkVmValidator {
  VvAddress : string; VvCommission : string; VvMaxCommission : string; VvMaxChangeRate : string }.
Record VmDelegation := mkVmDelegation { VdDelegator : string; VdValidator : string; VdAmount : VmCoin }.
Record FullDelegation := mkFullDelegation {
  FdDelegator : string; FdValidator : string; FdAmount : VmCoin; FdRewards : list VmCoin; FdCanRedelegate : VmCoin }.
Record VmDecCoin := mkVmDecCoin { VcAmount : string; VcDenom : string }.
Record VmDelegatorReward := mkVmReward { VrReward : list VmDecCoin; VrValidator : string }.

Record RawRangeEntry := mkEntry { EntryKey : string; EntryValue : string }.

Inductive Answer :=
| AllBalancesResponse (amount : list VmCoin)
| BalanceResponse (amount : VmCoin)
| SupplyResponse (amount : VmCoin)
| DenomMetadataResponse (metadata : VmDenomMetadata)
| AllDenomMetadataResponse (metadata : list VmDenomMetadata) (nextKey : option string)
| PortIDResponse (portID : string)
| ListChannelsResponse (channels : list IBCChannel)
| ChannelResponse (channel : option IBCChannel)
| BondedDenomResponse (denom : string)
| AllValidatorsResponse (validators : list VmValidator)
| ValidatorResponse (validator : option VmValidator)
| AllDelegationsResponse (delegations : list VmDelegation)
| DelegationResponse (delegation : option FullDelegation)
| DelegatorWithdrawAddressResponse (address : string)
| DelegationRewardsResponse (rewards : list VmDecCoin)
| DelegationTotalRewardsResponse (rewards : list VmDelegatorReward) (total : list VmDecCoin)
| DelegatorValidatorsResponse (validators : option (list string))
| ContractInfoResponse (codeID : Z) (creator admin : string) (isPinned : bool) (ibcPort ibc2Port : string)
| CodeInfoResponse (codeID : Z) (creator checksum : string)
| RawRangeResponse (data : list RawRangeEntry) (nextKey : option string)
| CircuitResponse (data : string)
| CircuitInfoResponse (zkID : Z) (creator circuitKey : string).

(** *** JSON *)

Definition string_field (name value : string) : list Z := json_field name (json_string value).
(** A string field with [omitempty]. *)
Definition string_unless_empty (name value : string) : list (list Z) :=
  if bool_decide (value = ""%string) then [] else [string_field name value].
Definition json_strings (l : list string) : list Z := json_array json_string l.

Definition json_unit (u : VmDenomUnit) : list Z :=
  json_object [string_field "denom" (VuDenom u); json_field "exponent" (json_number (VuExponent u));
    json_field "aliases" (json_strings (VuAliases u))].
Definition json_metadata (m : VmDenomMetadata) : list Z :=
  json_object [string_field "description" (VmDescription m); json_field "denom_units" (json_array json_unit (VmDenomUnits m));
    string_field "base" (VmBase m); string_field "display" (VmDisplay m); string_field "name" (VmName m);
    string_field "symbol" (VmSymbol m); string_field "uri" (VmURI m); string_field "uri_hash" (VmURIHash m)].
Definition json_validator (v : VmValidator) : list Z :=
  json_object [string_field "address" (VvAddress v); string_field "commission" (VvCommission v);
    string_field "max_commission" (VvMaxCommission v); string_field "max_change_rate" (VvMaxChangeRate v)].
Definition json_delegation (d : VmDelegation) : list Z :=
  json_object [string_field "delegator" (VdDelegator d); string_field "validator" (VdValidator d);
    json_field "amount" (json_coin (VdAmount d))].
Definition json_full_delegation (d : FullDelegation) : list Z :=
  json_object [string_field "delegator" (FdDelegator d); string_field "validator" (FdValidator d);
    json_field "amount" (json_coin (FdAmount d)); json_field "accumulated_rewards" (json_array json_coin (FdRewards d));
    json_field "can_redelegate" (json_coin (FdCanRedelegate d))].
Definition json_dec_coin (c : VmDecCoin) : list Z :=
  json_object [string_field "amount" (VcAmount c); string_field "denom" (VcDenom c)].
Definition json_reward (r : VmDelegatorReward) : list Z :=
  json_object [json_field "reward" (json_array json_dec_coin (VrReward r)); string_field "validator_address" (VrValidator r)].
Definition json_entry (e : RawRangeEntry) : list Z :=
  json_array json_binary [Some (EntryKey e); Some (EntryValue e)].

(** [json.Marshal] of the responses. *)
Definition json_answer (a : Answer) : list Z :=
  match a with
  | AllBalancesResponse amount => json_object [json_field "amount" (json_array json_coin amount)]
  | BalanceResponse amount | SupplyResponse amount => json_object [json_field "amount" (json_coin amount)]
  | DenomMetadataResponse metadata => json_object [json_field "metadata" (json_metadata metadata)]
  | AllDenomMetadataResponse metadata nextKey =>
      json_object (json_field "metadata" (json_array json_metadata metadata) ::
        match nextKey with
        | None | Some ""%string => []
        | Some _ => [json_field "next_key" (json_binary nextKey)]
        end)
  | PortIDResponse portID => json_object [string_field "port_id" portID]
  | ListChannelsResponse channels => json_object [json_field "channels" (json_array json_channel channels)]
  | ChannelResponse channel =>
      json_object (match channel with Some c => [json_field "channel" (json_channel c)] | None => [] end)
  | BondedDenomResponse denom => json_object [string_field "denom" denom]
  | AllValidatorsResponse validators => json_object [json_field "validators" (json_array json_validator validators)]
  | ValidatorResponse validator =>
      json_object [json_field "validator" (match validator with Some v => json_validator v | None => json_null end)]
  | AllDelegationsResponse delegations => json_object [json_field "delegations" (json_array json_delegation delegations)]
  | DelegationResponse delegation =>
      json_object (match delegation with Some d => [json_field "delegation" (json_full_delegation d)] | None => [] end)
  | DelegatorWithdrawAddressResponse address => json_object [string_field "withdraw_address" address]
  | DelegationRewardsResponse rewards => json_object [json_field "rewards" (json_array json_dec_coin rewards)]
  | DelegationTotalRewardsResponse rewards total =>
      json_object [json_field "rewards" (json_array json_reward rewards); json_field "total" (json_array json_dec_coin total)]
  | DelegatorValidatorsResponse validators =>
      json_object [json_field "validators" (match validators with Some l => json_strings l | None => json_null end)]
  | ContractInfoResponse codeID creator admin isPinned ibcPort ibc2Port =>
      json_object ([json_field "code_id" (json_number codeID); string_field "creator" creator]
        ++ string_unless_empty "admin" admin ++ [json_field "pinned" (json_bool isPinned)]
        ++ string_unless_empty "ibc_port" ibcPort ++ string_unless_empty "ibc2_port" ibc2Port)
  | CodeInfoResponse codeID creator checksum =>
      json_object [json_field "code_id" (json_number codeID); string_field "creator" creator;
        string_field "checksum" (hex_encode checksum)]
  | RawRangeResponse data nextKey =>
      json_object [json_field "data" (json_array json_entry data); json_field "next_key" (json_binary nextKey)]
  | CircuitResponse data => json_object [json_field "data" (json_binary (Some data))]
  | CircuitInfoResponse zkID creator circuitKey =>
      json_object [json_field "zk_id" (json_number zkID); string_field "creator" creator;
        json_field "circuit_key" (json_binary (nilable circuitKey))]
  end.

Definition json_Marshal (a : Answer) : string := bytes_to_string (json_answer a).
