(* ===== verification/WasmQuery.v ===== *)
(** * x/wasm: queries of contracts

    The querier handed to a running contract (keeper/query_plugins.go) and the
    queries of contracts themselves (keeper/keeper.go): a contract asks the chain,
    which may run the query of another contract, which may ask again.  Every
    sub-query runs on a cached context with a gas limit of its own. *)

From Stdlib Require Import ZArith Lia.
From stdpp Require Import base gmap strings list sorting relations pretty.
From S2P Require Import Prelude Sdk SdkRef Store GoLib Bank WasmAccess WasmGas WasmDispatch WasmCircuits.
From S2P Require Import WasmContracts WasmPackets WasmJson WasmLifecycle WasmServer WasmGenesis WasmQueryTypes.

(** ** Fallible queries

    A query returns an error with its structure, or an answer; panics stay
    panics. *)
Definition Q (W A : Type) : Type := M W (GoErr + A).

Definition qret {W A} (a : A) : Q W A := mret (inr a).
Definition qfail {W A} (e : GoErr) : Q W A := mret (inl e).
Definition qbind {W A C} (m : Q W A) (k : A -> Q W C) : Q W C :=
  r ← m;
  match r with inl e => mret (inl e) | inr a => k a end.
(** The error of a call to another component, named by its sentinel. *)
Definition qcall {W A} (m : M W A) : Q W A := fun w =>
  match m w with
  | (Ok a, w') => (Ok (inr a), w')
  | (Err e, w') => (Ok (inl (Sentinel e)), w')
  | (Panic p, w') => (Panic p, w')
  end.
Definition qlift {W A} (r : res A) : Q W A := qcall (lift r).
(** The error replaced by the caller. *)
Definition qwrap {W A} (f : GoErr -> GoErr) (m : Q W A) : Q W A :=
  r ← m;
  mret (match r with inl e => inl (f e) | inr a => inr a end).

Declare Scope query_scope.
Delimit Scope query_scope with query.
Notation "x <~ y ; z" := (qbind y (fun x => z)) (at level 20, y at level 100, z at level 200, only parsing) : query_scope.
#[local] Open Scope query_scope.

Fixpoint qmap {W A C} (f : A -> Q W C) (l : list A) : Q W (list C) :=
  match l with
  | [] => qret []
  | x :: l => y <~ f x; r <~ qmap f l; qret (y :: r)
  end.

(** ** Dependencies *)

(** [query.PageRequest]. *)
Record PageRequest := mkPage {
  PageKey : option string; PageOffset : Z; PageLimit : Z; CountTotal : bool; PageReverse : bool }.

(** [banktypes.Metadata]; the aliases of a unit may be nil. *)
Record BankUnit := mkBankUnit { BuDenom : string; BuExponent : Z; BuAliases : option (list string) }.
Record BankMetadata := mkBankMetadata {
  BmDescription : string; BmUnits : list BankUnit; BmBase : string; BmDisplay : string;
  BmName : string; BmSymbol : string; BmURI : string; BmURIHash : string }.

(** The read side of the bank keeper. *)
Class BankView (B : Type) := {
  GetAllBalances : B -> string -> list Coin;
  GetBalance : B -> string -> string -> Coin;
  GetSupply : B -> string -> Coin;
  bank_GetDenomMetaData : B -> string -> option BankMetadata;
  DenomsMetadata : B -> option PageRequest -> res (list BankMetadata * option string)
}.

Record SdkValidator := mkSdkValidator {
  OperatorAddress : string; Rate : Z; MaxRate : Z; MaxChangeRate : Z; ValTokens : Z; ValShares : Z }.
Record SdkDelegation := mkSdkDelegation { DelegatorAddress : string; ValidatorAddress : string; Shares : Z }.

(** The staking keeper, reading the rest of the state. *)
Class StakingView (X : Type) := {
  BondDenom : X -> res string;
  GetBondedValidatorsByPower : X -> res (list SdkValidator);
  GetValidator : X -> string -> res SdkValidator;
  GetAllDelegatorDelegations : X -> string -> res (list SdkDelegation);
  GetDelegation : X -> string -> string -> res SdkDelegation;
  HasReceivingRedelegation : X -> string -> string -> res bool;
  TokensFromShares : SdkValidator -> Z -> Z;
  ValAddressFromBech32 : string -> res string;
  ValAddress_String : string -> string;
  Dec_String : Z -> string
}.

(** The distribution keeper, whose queries may write. *)
Class DistributionView (X : Type) := {
  DelegatorWithdrawAddress : string -> M X string;
  DelegationRewards : string -> string -> M X (list DecCoin);
  DelegationTotalRewards : string -> M X (list (string * list DecCoin) * list DecCoin);
  DelegatorValidators : string -> M X (option (list string))
}.

(** Channels of IBC: port, channel, whether it is open, the other end, and the
    rest of what a contract is told. *)
Record IdentifiedChannel := mkIdentified {
  ChPort : string; ChChannel : string; ChOpen : bool; ChCounterparty : IBCEndpoint;
  ChOrdering : string; ChVersion : string; ChHops : list string }.

Class ChannelView (X : Type) := {
  GetAllChannelsWithPortPrefix : X -> string -> list IdentifiedChannel;
  GetChannel : X -> string -> string -> option IdentifiedChannel
}.

(** Protobuf messages and their codecs. *)
Class ProtoOps (P : Type) := {
  proto_Marshal : P -> res string;
  codec_Unmarshal : string -> P -> res P;
  codec_MarshalJSON : P -> res string
}.

(** What a contract does when it is queried: it reads its store, asks the chain
    and finally returns.  A request that made the host panic comes back as
    [HostFailed], with whether the cause was gas; every answer comes with the gas
    it cost in units of the machine.  The result is nil, data or an error.  That a
    contract cannot write while it is queried is a property of the machine, which runs
    queries in read-only mode (the keeper relies on it, keeper/keeper.go QuerySmart);
    here it shows in that a run has no step that writes. *)
Inductive Reported := Returned (r : QuerierResult) | HostFailed (outOfGas : bool).

Record QueryResult := mkQueryResult { QrOk : option string; QrErr : string }.

Inductive QueryRun :=
| QDone (r : string + option QueryResult) (gasUsed : Z)
| QRead (key : string) (k : option string -> QueryRun)
| QScan (start : string) (end_ : option string) (reverse : bool) (k : list (string * string) -> QueryRun)
| QAsk (request : QueryRequest) (gasLimit : Z) (k : Reported -> res Z -> QueryRun).

Class QueryVM := { VmQuery : string -> Env -> string -> Z -> QueryRun }.

(** ** Context *)

(** The context of a query: an ordinary one and the depth of nested queries. *)
Record QCtx := mkQCtx { q_ctx : Ctx; q_stack : option Z }.
Definition WithQueryStackSize (ctx : QCtx) (n : Z) : QCtx := mkQCtx (q_ctx ctx) (Some n).

Definition checkAndIncreaseQueryStackSize (ctx : QCtx) (maxQueryStackSize : Z) : GoErr + QCtx :=
  let queryStackSize := u32 (default 0 (q_stack ctx) + 1) in
  if maxQueryStackSize <? queryStackSize then inl (Sentinel "ErrExceedMaxQueryStackSize")
  else inr (WithQueryStackSize ctx queryStackSize).

Definition DefaultMaxQueryStackSize : Z := 10.

(** ** The store of a contract *)

(** [prefixStore.Iterator(start, end)] and [ReverseIterator]. *)
Definition in_range (start : string) (end_ : option string) (k : string) : bool :=
  negb (str_ltb k start) && match end_ with Some e => str_ltb k e | None => true end.

Definition ordered {V} (m : gmap string V) : list (string * V) := merge_sort key_le (map_to_list m).

Definition iterate {V} (start : string) (end_ : option string) (reverse : bool) (m : gmap string V)
    : list (string * V) :=
  let l := List.filter (fun kv => in_range start end_ kv.1) (ordered m) in
  if reverse then rev l else l.

Definition QueryRaw (contractAddress : string) (key : option string) (c : Contracts) : option string :=
  match key with None => None | Some k => contract_state contractAddress c !! k end.

Definition u16 (z : Z) : Z := z mod 2 ^ 16.

(** The loop over the iterator: what was collected, and what is left. *)
Fixpoint take_entries (count limit : Z) (l : list (string * string)) : list RawRangeEntry * list (string * string) :=
  match l with
  | [] => ([], [])
  | (k, v) :: rest =>
      if count =? limit then ([], l)
      else let '(results, remaining) := take_entries (u16 (count + 1)) limit rest in (mkEntry k v :: results, remaining)
  end.

Definition QueryRawRange (contractAddress : string) (start end_ : option string) (limit : Z) (reverse : bool)
    (c : Contracts) : list RawRangeEntry * option string :=
  let '(results, remaining) := take_entries 0 limit
    (iterate (default ""%string start) end_ reverse (contract_state contractAddress c)) in
  (results, match remaining with (key, _) :: _ => Some key | [] => None end).

(** ** Conversions *)

Section Conversions.
Context {X : Type} `{AddressOps} `{StakingView X}.

Definition ConvertSdkCoinToWasmCoin (c : Coin) : VmCoin := (Denom c, Int_String (Amount c)).
Definition ConvertSdkCoinsToWasmCoins (coins : list Coin) : list VmCoin := map ConvertSdkCoinToWasmCoin coins.

Definition ConvertSDKDecCoinsToWasmDecCoins (src : list DecCoin) : list VmDecCoin :=
  map (fun v => mkVmDecCoin (Dec_String (DAmount v)) (DDenom v)) src.
Definition ConvertSDKDelegatorRewardsToWasmRewards (rewards : list (string * list DecCoin)) : list VmDelegatorReward :=
  map (fun v => mkVmReward (ConvertSDKDecCoinsToWasmDecCoins v.2) v.1) rewards.

Definition ConvertToDenomsMetadataRequest (wasmRequest : option VmPageRequest) : option PageRequest :=
  match wasmRequest with
  | None => None
  | Some p => Some (mkPage (VmPageKey p) 0 (VmPageLimit p) false (VmPageReverse p))
  end.

(** Nil aliases become the empty list. *)
Definition ConvertSdkDenomUnitsToWasmDenomUnits (l : list BankUnit) : list VmDenomUnit :=
  map (fun u => mkVmUnit (BuDenom u) (BuExponent u) (default [] (BuAliases u))) l.
Definition ConvertSdkDenomMetadataToWasmDenomMetadata (m : BankMetadata) : VmDenomMetadata :=
  mkVmMetadata (BmDescription m) (ConvertSdkDenomUnitsToWasmDenomUnits (BmUnits m)) (BmBase m) (BmDisplay m)
    (BmName m) (BmSymbol m) (BmURI m) (BmURIHash m).
Definition ConvertSdkDenomMetadatasToWasmDenomMetadatas (l : list BankMetadata) : list VmDenomMetadata :=
  map ConvertSdkDenomMetadataToWasmDenomMetadata l.

Definition convert_validator (v : SdkValidator) : VmValidator :=
  mkVmValidator (OperatorAddress v) (Dec_String (Rate v)) (Dec_String (MaxRate v)) (Dec_String (MaxChangeRate v)).

End Conversions.

(** ** Query plugins *)

Section Plugins.
Context {B A X G P : Type} `{BankView B} `{StakingView X} `{DistributionView X} `{ChannelView X} `{GasMeterOps G}
  `{Bech32} `{AddressOps} `{JsonOps} `{SdkCoins} `{SdkMath} `{CircuitVM} `{GenesisVM} `{ProtoOps P}.

Abbreviation S := (Chain B A X).
Abbreviation W := (World S G).

(** An answer encoded as JSON. *)
Definition answer (a : Answer) : Q W (option string) := qret (Some (json_Marshal a)).

(** [sdk.AccAddressFromBech32] with the error of the plugins. *)
Definition query_address (text : string) : Q W string :=
  qwrap (fun _ => Wrapped (Sentinel "ErrInvalidAddress") text) (qlift (AccAddressFromBech32 text)).

Definition unsupported {T} (kind : string) : Q W T := qfail (System (UnsupportedRequest kind)).

(** A cached context that is never written: only the gas remains. *)
Definition discarded {T} (m : M W T) : M W T := fun w =>
  let '(r, sub) := m (set_evs [] w) in (r, set_meter (meter sub) w).

(** The rest of the state. *)
Definition rest : Q W X := qcall (gets (fun w => ch_rest (store w))).
Definition in_rest {T} (m : M X T) : M W T := with_rest m.

Definition BankQuerier (request : BankQuery) : Q W (option string) :=
  b <~ qcall (gets (fun w => ch_bank (store w)));
  match request with
  | mkBankQuery _ _ (Some address) _ _ =>
      addr <~ query_address address;
      answer (AllBalancesResponse (ConvertSdkCoinsToWasmCoins (GetAllBalances b addr)))
  | mkBankQuery _ (Some (address, denom)) None _ _ =>
      addr <~ query_address address;
      answer (BalanceResponse (ConvertSdkCoinToWasmCoin (GetBalance b addr denom)))
  | mkBankQuery (Some denom) None None _ _ =>
      answer (SupplyResponse (ConvertSdkCoinToWasmCoin (GetSupply b denom)))
  | mkBankQuery None None None (Some denom) _ =>
      match bank_GetDenomMetaData b denom with
      | None => qfail (Wrapped (Sentinel "ErrNotFound") denom)
      | Some m => answer (DenomMetadataResponse (ConvertSdkDenomMetadataToWasmDenomMetadata m))
      end
  | mkBankQuery None None None None (Some page) =>
      bankQueryRes <~ qwrap (fun _ => Sentinel "ErrInvalidRequest")
                        (qlift (DenomsMetadata b (ConvertToDenomsMetadataRequest page)));
      answer (AllDenomMetadataResponse (ConvertSdkDenomMetadatasToWasmDenomMetadatas bankQueryRes.1) bankQueryRes.2)
  | mkBankQuery None None None None None => unsupported "unknown BankQuery variant"
  end.

Definition NoCustomQuerier (request : string) : Q W (option string) := unsupported "custom".

(** The port of the contract that asks; a contract that is not registered yet
    has no info and the access panics. *)
Definition caller_port (caller : string) : Q W string :=
  info <~ qcall (gets (fun w => GetContractInfo caller (ch_con (store w))));
  match info with Some i => qret (IBCPortID i) | None => panic "nil pointer dereference" end.

(** [ch.ConnectionHops[0]]. *)
Definition first_hop (hops : list string) : Q W string :=
  match hops with h :: _ => qret h | [] => panic "index out of range" end.

Definition vm_channel (ch : IdentifiedChannel) : Q W IBCChannel :=
  hop <~ first_hop (ChHops ch);
  qret (mkIBCChannel (mkEndpoint (ChPort ch) (ChChannel ch)) (ChCounterparty ch) (ChOrdering ch) (ChVersion ch) hop).

Definition IBCQuerier (caller : string) (request : IBCQuery) : Q W (option string) :=
  x <~ rest;
  match request with
  | mkIBCQuery true _ _ => port <~ caller_port caller; answer (PortIDResponse port)
  | mkIBCQuery false (Some portID) _ =>
      portID <~ (if bool_decide (portID = ""%string) then caller_port caller else qret portID);
      channels <~ (if bool_decide (portID = ""%string) then qret []
                   else qmap vm_channel (List.filter ChOpen (GetAllChannelsWithPortPrefix x portID)));
      answer (ListChannelsResponse channels)
  | mkIBCQuery false None (Some (portID, channelID)) =>
      portID <~ (if bool_decide (portID = ""%string) then caller_port caller else qret portID);
      channel <~ (match GetChannel x portID channelID with
                  | Some got =>
                      if ChOpen got then
                        hop <~ first_hop (ChHops got);
                        qret (Some (mkIBCChannel (mkEndpoint portID channelID) (ChCounterparty got) (ChOrdering got)
                                      (ChVersion got) hop))
                      else qret None
                  | None => qret None
                  end);
      answer (ChannelResponse channel)
  | mkIBCQuery false None None => unsupported "unknown IBCQuery variant"
  end.

(** *** Staking *)

Definition bond_denom (x : X) : Q W string := qwrap (fun e => Wrapped e "bond denom") (qlift (BondDenom x)).

(** The tokens behind the shares of a delegation. *)
Definition delegated (bondDenom : string) (val : SdkValidator) (shares : Z) : Q W VmCoin :=
  amount <~ qlift (NewCoin bondDenom (dec_truncate_int (TokensFromShares val shares)));
  qret (ConvertSdkCoinToWasmCoin amount).

(** The addresses and the validator of a delegation. *)
Definition delegation_parties (x : X) (d : SdkDelegation) : Q W (string * string * SdkValidator) :=
  delAddr <~ qwrap (fun e => Wrapped e "delegator address") (qlift (AccAddressFromBech32 (DelegatorAddress d)));
  valAddr <~ qwrap (fun e => Wrapped e "validator address") (qlift (ValAddressFromBech32 (ValidatorAddress d)));
  val <~ qwrap (fun e => Wrapped e "can't load validator for delegation") (qlift (GetValidator x valAddr));
  qret (delAddr, valAddr, val).

Definition sdkToDelegations (x : X) (delegations : list SdkDelegation) : Q W (list VmDelegation) :=
  bondDenom <~ bond_denom x;
  qmap (fun d =>
    parties <~ delegation_parties x d;
    let '(delAddr, valAddr, val) := parties in
    amount <~ delegated bondDenom val (Shares d);
    qret (mkVmDelegation (address_text delAddr) (ValAddress_String valAddr) amount)) delegations.

(** [wasmvmtypes.NewCoin(0, denom)]. *)
Definition zero_coin (denom : string) : VmCoin := (denom, itoa 0).

Definition getAccumulatedRewards (d : SdkDelegation) : Q W (list VmCoin) :=
  rewards <~ qcall (discarded (in_rest (DelegationRewards (DelegatorAddress d) (ValidatorAddress d))));
  qret (map (fun r => (DDenom r, Int_String (dec_truncate_int (DAmount r)))) rewards).

Definition sdkToFullDelegation (x : X) (d : SdkDelegation) : Q W FullDelegation :=
  parties <~ delegation_parties x d;
  let '(delAddr, valAddr, val) := parties in
  bondDenom <~ bond_denom x;
  delegationCoins <~ delegated bondDenom val (Shares d);
  found <~ qlift (HasReceivingRedelegation x delAddr valAddr);
  let redelegateCoins := if (found : bool) then zero_coin bondDenom else delegationCoins in
  accRewards <~ getAccumulatedRewards d;
  qret (mkFullDelegation (address_text delAddr) (ValAddress_String valAddr) delegationCoins accRewards redelegateCoins).

(** An error of the staking keeper that means there is nothing. *)
Definition unless_missing {T} (missing : string) (r : res T) : Q W (option T) :=
  match r with
  | Ok a => qret (Some a)
  | Err e => if bool_decide (e = missing) then qret None else qfail (Sentinel e)
  | Panic p => panic p
  end.

Definition StakingQuerier (request : StakingQuery) : Q W (option string) :=
  x <~ rest;
  match request with
  | mkStakingQuery _ _ _ _ true => denom <~ bond_denom x; answer (BondedDenomResponse denom)
  | mkStakingQuery true _ _ _ false =>
      validators <~ qlift (GetBondedValidatorsByPower x);
      answer (AllValidatorsResponse (map convert_validator validators))
  | mkStakingQuery false (Some address) _ _ false =>
      valAddr <~ qlift (ValAddressFromBech32 address);
      v <~ unless_missing "ErrNoValidatorFound" (GetValidator x valAddr);
      answer (ValidatorResponse (option_map convert_validator v))
  | mkStakingQuery false None (Some delegator) _ false =>
      addr <~ query_address delegator;
      sdkDels <~ qlift (GetAllDelegatorDelegations x addr);
      delegations <~ sdkToDelegations x sdkDels;
      answer (AllDelegationsResponse delegations)
  | mkStakingQuery false None None (Some (delegator, validator)) false =>
      del <~ query_address delegator;
      val <~ qwrap (fun _ => Wrapped (Sentinel "ErrInvalidAddress") validator) (qlift (ValAddressFromBech32 validator));
      d <~ unless_missing "ErrNoDelegation" (GetDelegation x del val);
      match d with
      | None => answer (DelegationResponse None)
      | Some d => full <~ sdkToFullDelegation x d; answer (DelegationResponse (Some full))
      end
  | mkStakingQuery false None None None false => unsupported "unknown Staking variant"
  end.

Definition DistributionQuerier (req : DistributionQuery) : Q W (option string) :=
  match req with
  | mkDistributionQuery (Some delegator) _ _ _ =>
      got <~ qcall (in_rest (DelegatorWithdrawAddress delegator));
      answer (DelegatorWithdrawAddressResponse got)
  | mkDistributionQuery None (Some (delegator, validator)) _ _ =>
      got <~ qcall (in_rest (DelegationRewards delegator validator));
      answer (DelegationRewardsResponse (ConvertSDKDecCoinsToWasmDecCoins got))
  | mkDistributionQuery None None (Some delegator) _ =>
      got <~ qcall (in_rest (DelegationTotalRewards delegator));
      answer (DelegationTotalRewardsResponse (ConvertSDKDelegatorRewardsToWasmRewards got.1)
                (ConvertSDKDecCoinsToWasmDecCoins got.2))
  | mkDistributionQuery None None None (Some delegator) =>
      got <~ qcall (in_rest (DelegatorValidators delegator));
      answer (DelegatorValidatorsResponse got)
  | mkDistributionQuery None None None None => unsupported "unknown distribution query"
  end.

(** *** Stargate and gRPC *)

Definition RejectGrpcQuerier (request : PathQuery) : Q W P := unsupported "gRPC queries are disabled on this chain".
Definition RejectStargateQuerier (request : PathQuery) : Q W (option string) :=
  unsupported "Stargate queries are disabled on this chain".

(** The paths that are accepted, with the empty response of each, and the router
    of the application: a handler takes the data and the path. *)
Definition AcceptedQueries : Type := gmap string P.
Definition GRPCQueryRouter : Type := string -> option (QCtx -> string -> string -> M W string).

(** The part the two accept-list queriers share. *)
Definition accepted_response (acceptList : AcceptedQueries) (queryRouter : GRPCQueryRouter) (ctx : QCtx)
    (request : PathQuery) : Q W (P * string) :=
  match acceptList !! PqPath request with
  | None => unsupported ("'" ++ PqPath request ++ "' path is not allowed from the contract")
  | Some protoResponse =>
      match queryRouter (PqPath request) with
      | None => unsupported ("No route to query '" ++ PqPath request ++ "'")
      | Some handler =>
          value <~ qcall (handler ctx (PqData request) (PqPath request));
          qret (protoResponse, value)
      end
  end.

Definition AcceptListGrpcQuerier (acceptList : AcceptedQueries) (queryRouter : GRPCQueryRouter) (ctx : QCtx)
    (request : PathQuery) : Q W P :=
  r <~ accepted_response acceptList queryRouter ctx request;
  qlift (codec_Unmarshal r.2 r.1).

Definition ConvertProtoToJSONMarshal (protoResponse : P) (bz : string) : Q W string :=
  m <~ qwrap (fun e => Wrapped e "to proto") (qlift (codec_Unmarshal bz protoResponse));
  qwrap (fun e => Wrapped e "to json") (qlift (codec_MarshalJSON m)).

Definition AcceptListStargateQuerier (acceptList : AcceptedQueries) (queryRouter : GRPCQueryRouter) (ctx : QCtx)
    (request : PathQuery) : Q W (option string) :=
  r <~ accepted_response acceptList queryRouter ctx request;
  bz <~ ConvertProtoToJSONMarshal r.1 r.2;
  qret (Some bz).

(** *** Wasm *)

(** [sdk.Context]-indexed queries of contracts, the recursive part. *)
Context (QuerySmart : QCtx -> string -> string -> Q W (option string)).

Definition range_order (order : string) : Q W bool :=
  if bool_decide (order = "ascending"%string) then qret false
  else if bool_decide (order = "descending"%string) then qret true
  else qfail (Wrapped (Sentinel "ErrInvalidRequest") ("unknown order " ++ order)).

Definition WasmQuerier (ctx : QCtx) (request : WasmQuery) : Q W (option string) :=
  match request with
  | mkWasmQuery (Some (contractAddr, msg)) _ _ _ _ _ _ =>
      addr <~ query_address contractAddr;
      _ <~ qwrap (fun e => Wrapped e "json msg") (qlift (RawContractMessage_ValidateBasic msg));
      QuerySmart ctx addr msg
  | mkWasmQuery None (Some (contractAddr, key)) _ _ _ _ _ =>
      addr <~ query_address contractAddr;
      qcall (gets (fun w => QueryRaw addr key (ch_con (store w))))
  | mkWasmQuery None None (Some contractAddr) _ _ _ _ =>
      addr <~ query_address contractAddr;
      s <~ qcall (gets store);
      match GetContractInfo addr (ch_con s) with
      | None => qfail (Wrapped (ErrNoSuchContractFn contractAddr) contractAddr)
      | Some info =>
          answer (ContractInfoResponse (CodeID info) (ContractCreator info) (Admin info)
                    (IsPinnedCode (CodeID info) (ch_reg s)) (IBCPortID info) (IBC2PortID info))
      end
  | mkWasmQuery None None None (Some codeID) _ _ _ =>
      if codeID =? 0 then qfail (Wrapped (Sentinel "ErrEmpty") "code id")
      else
        s <~ qcall (gets store);
        match GetCodeInfo codeID s with
        | None => qfail (Wrapped (ErrNoSuchCodeFn codeID) (itoa codeID))
        | Some info => answer (CodeInfoResponse codeID (CodeCreator info) (CodeHash info))
        end
  | mkWasmQuery None None None None (Some range) _ _ =>
      addr <~ query_address (RrContract range);
      reverse <~ range_order (RrOrder range);
      page <~ qcall (gets (fun w => QueryRawRange addr (RrStart range) (RrEnd range) (RrLimit range) reverse
                                      (ch_con (store w))));
      answer (RawRangeResponse page.1 page.2)
  | mkWasmQuery None None None None None (Some zkID) _ =>
      if zkID =? 0 then qfail (Wrapped (Sentinel "ErrEmpty") "zk id")
      else
        data <~ qwrap (fun _ => Wrapped (ErrNoSuchCircuitFn zkID) (itoa zkID)) (qcall (with_reg (GetCircuit zkID)));
        match data with
        | None => qfail (Wrapped (ErrNoSuchCircuitFn zkID) (itoa zkID))
        | Some data => answer (CircuitResponse data)
        end
  | mkWasmQuery None None None None None None (Some zkID) =>
      if zkID =? 0 then qfail (Wrapped (Sentinel "ErrEmpty") "zk id")
      else
        s <~ qcall (gets store);
        match infos (ch_reg s) !! zkID with
        | None => qfail (Wrapped (ErrNoSuchCodeFn zkID) (itoa zkID))
        | Some info => answer (CircuitInfoResponse zkID (Creator info) (CircuitHash info))
        end
  | mkWasmQuery None None None None None None None => unsupported "unknown WasmQuery variant"
  end.
(** *** The set of plugins *)

Record QueryPlugins := mkPlugins {
  PBank : QCtx -> BankQuery -> Q W (option string);
  PCustom : QCtx -> string -> Q W (option string);
  PIBC : QCtx -> string -> IBCQuery -> Q W (option string);
  PStaking : QCtx -> StakingQuery -> Q W (option string);
  PStargate : QCtx -> PathQuery -> Q W (option string);
  PGrpc : QCtx -> PathQuery -> Q W P;
  PWasm : QCtx -> WasmQuery -> Q W (option string);
  PDistribution : QCtx -> DistributionQuery -> Q W (option string) }.

(** Plugins given as options, nil where the default stays. *)
Record PluginOptions := mkOptions {
  OBank : option (QCtx -> BankQuery -> Q W (option string));
  OCustom : option (QCtx -> string -> Q W (option string));
  OIBC : option (QCtx -> string -> IBCQuery -> Q W (option string));
  OStaking : option (QCtx -> StakingQuery -> Q W (option string));
  OStargate : option (QCtx -> PathQuery -> Q W (option string));
  OGrpc : option (QCtx -> PathQuery -> Q W P);
  OWasm : option (QCtx -> WasmQuery -> Q W (option string));
  ODistribution : option (QCtx -> DistributionQuery -> Q W (option string)) }.

Definition DefaultQueryPlugins : QueryPlugins := {|
  PBank := fun _ => BankQuerier;
  PCustom := fun _ => NoCustomQuerier;
  PIBC := fun _ => IBCQuerier;
  PStaking := fun _ => StakingQuerier;
  PStargate := fun _ => RejectStargateQuerier;
  PGrpc := fun _ => RejectGrpcQuerier;
  PWasm := WasmQuerier;
  PDistribution := fun _ => DistributionQuerier |}.

Definition Merge (e : QueryPlugins) (o : option PluginOptions) : QueryPlugins :=
  match o with
  | None => e
  | Some o =>
      mkPlugins (default (PBank e) (OBank o)) (default (PCustom e) (OCustom o)) (default (PIBC e) (OIBC o))
        (default (PStaking e) (OStaking o)) (default (PStargate e) (OStargate o)) (default (PGrpc e) (OGrpc o))
        (default (PWasm e) (OWasm o)) (default (PDistribution e) (ODistribution o))
  end.

Definition HandleQuery (e : QueryPlugins) (ctx : QCtx) (caller : string) (req : QueryRequest) : Q W (option string) :=
  match req with
  | mkQueryRequest (Some q) _ _ _ _ _ _ _ => PBank e ctx q
  | mkQueryRequest None (Some q) _ _ _ _ _ _ => PCustom e ctx q
  | mkQueryRequest None None (Some q) _ _ _ _ _ => PIBC e ctx caller q
  | mkQueryRequest None None None (Some q) _ _ _ _ => PStaking e ctx q
  | mkQueryRequest None None None None _ (Some q) _ _ => PStargate e ctx q
  | mkQueryRequest None None None None _ None (Some q) _ =>
      resp <~ PGrpc e ctx q;
      bz <~ qlift (proto_Marshal resp);
      qret (Some bz)
  | mkQueryRequest None None None None _ None None (Some q) => PWasm e ctx q
  | mkQueryRequest None None None None (Some q) None None None => PDistribution e ctx q
  | mkQueryRequest None None None None None None None None => qfail (System Unknown)
  end.

End Plugins.

Arguments QueryPlugins : clear implicits.
Arguments PluginOptions : clear implicits.

(** ** Queries of contracts *)

Section Smart.
Context {B A X G P : Type} `{BankView B} `{StakingView X} `{DistributionView X} `{ChannelView X} `{GasMeterOps G}
  `{Bech32} `{AddressOps} `{JsonOps} `{SdkCoins} `{SdkMath} `{CircuitVM} `{GenesisVM} `{ProtoOps P} `{GoErrors}
  `{QueryVM}.
Context (cfg : Config) (maxQueryStackSize : Z) (options : option (PluginOptions B A X G P)).

Abbreviation S := (Chain B A X).
Abbreviation W := (World S G).

(** [QueryHandler.Query]: the query runs on a cached context with a meter of its
    own; the context is dropped and the gas charged to the caller, even if the
    query panicked. *)
Definition QueryHandler_Query (plugins : QueryPlugins B A X G P) (ctx : QCtx) (caller : string) (request : QueryRequest)
    (gasLimit : Z) : Q W (option string) := fun w =>
  match FromWasmVMGas (gasRegister cfg) gasLimit with
  | Ok sdkGas =>
      let '(r, sub) := HandleQuery plugins ctx caller request (mkWorld (store w) (NewGasMeter sdkGas) []) in
      let '(charged, g) := ConsumeGas (GasConsumed (meter sub)) (meter w) in
      let w := set_meter g w in
      match charged with
      | Ok _ =>
          match r with
          | Ok (inr res) => (Ok (inr res), w)
          | Ok (inl err) => (Ok (inl (report err)), w)
          | Err e => (Err e, w)
          | Panic p => (Panic p, w)
          end
      | Err e => (Err e, w)
      | Panic p => (Panic p, w)
      end
  | Err e => (Err e, w)
  | Panic p => (Panic p, w)
  end.

(** [QueryHandler.GasConsumed]. *)
Definition QueryHandler_GasConsumed (w : W) : res Z := ToWasmVMGas (gasRegister cfg) (GasConsumed (meter w)).

(** The panics of gas meters, which the machine is told apart from others. *)
Definition gas_panic (p : string) : bool :=
  bool_decide (p ∈ ["ErrorOutOfGas"; "ErrorGasOverflow"; "ErrorNegativeGasConsumed"]).

(** What the machine learns of a request: its result, or that the host panicked. *)
Definition reported (r : res (GoErr + option string)) : Reported :=
  match r with
  | Ok r => Returned (ToQuerierResult r)
  | Err e => HostFailed false
  | Panic p => HostFailed (gas_panic p)
  end.

(** Gas used by a request: the difference of two readings, 0 if it went down. *)
Definition used_gas (before after : res Z) : res Z :=
  b ← before; a ← after; mret (if b <=? a then a - b else 0).

(** A contract running on its store and on a querier. *)
Fixpoint run_query (querier : QueryRequest -> Z -> Q W (option string)) (cs : gmap string string) (t : QueryRun)
    : M W ((string + option QueryResult) * Z) :=
  match t with
  | QDone r gasUsed => mret (r, gasUsed)
  | QRead key k => run_query querier cs (k (cs !! key))
  | QScan start end_ reverse k => run_query querier cs (k (iterate start end_ reverse cs))
  | QAsk request gasLimit k => fun w =>
      let '(r, w') := querier request gasLimit w in
      run_query querier cs (k (reported r) (used_gas (QueryHandler_GasConsumed w) (QueryHandler_GasConsumed w'))) w'
  end.

(** [contractInstance] with the structure of its errors. *)
Definition query_instance (contractAddress : string) : Q W (ContractInfo * CodeInfo) :=
  s <~ qcall (gets store);
  match GetContractInfo contractAddress (ch_con s) with
  | None => qfail (Wrapped (ErrNoSuchContractFn (address_text contractAddress)) (address_text contractAddress))
  | Some contractInfo =>
      match GetCodeInfo (CodeID contractInfo) s with
      | None => qfail (Wrapped (ErrNoSuchCodeFn (CodeID contractInfo)) (itoa (CodeID contractInfo)))
      | Some codeInfo => qret (contractInfo, codeInfo)
      end
  end.

(** What the keeper makes of the result of the machine. *)
Definition smart_result (r : string + option QueryResult) : Q W (option string) :=
  match r with
  | inl qErr => qfail (Wrapped (Sentinel "ErrVMError") qErr)
  | inr None => panic "nil pointer dereference"
  | inr (Some queryResult) =>
      if bool_decide (QrErr queryResult = ""%string) then qret (QrOk queryResult)
      else qfail (Deterministic (Wrapped (Sentinel "ErrQueryFailed") (QrErr queryResult)))
  end.

(** One level of [QuerySmart], given the next. *)
Definition smart_level (next : QCtx -> string -> string -> Q W (option string)) (ctx : QCtx) (contractAddr req : string)
    : Q W (option string) :=
  match checkAndIncreaseQueryStackSize ctx maxQueryStackSize with
  | inl e => qfail e
  | inr ctx =>
      inst <~ query_instance contractAddr;
      let '(contractInfo, codeInfo) := inst in
      _ <~ qcall (charge_setup cfg (CodeID contractInfo) (CodeHash codeInfo) req);
      env <~ qlift (NewEnv (q_ctx ctx) contractAddr);
      gasLeft <~ qcall (runtime_gas cfg);
      cs <~ qcall (gets (fun w => contract_state contractAddr (ch_con (store w))));
      out <~ qcall (run_query (QueryHandler_Query (Merge (DefaultQueryPlugins next) options) ctx contractAddr) cs
                      (VmQuery (CodeHash codeInfo) env req gasLeft));
      _ <~ qcall (consume_runtime cfg out.2);
      smart_result out.1
  end.

(** [QuerySmart] to a given depth; [beyond] is what happens below it. *)
Fixpoint QuerySmart (beyond : QCtx -> string -> string -> Q W (option string)) (fuel : nat)
    : QCtx -> string -> string -> Q W (option string) :=
  match fuel with
  | O => beyond
  | Datatypes.S fuel => smart_level (QuerySmart beyond fuel)
  end.

End Smart.

(** ** Nested queries come to an end *)

Section Depth.
Context {B A X G P : Type} `{BankView B} `{StakingView X} `{DistributionView X} `{ChannelView X} `{GasMeterOps G}
  `{Bech32} `{AddressOps} `{JsonOps} `{SdkCoins} `{SdkMath} `{CircuitVM} `{GenesisVM} `{ProtoOps P} `{GoErrors}
  `{QueryVM}.
Context (cfg : Config) (max : Z) (options : option (PluginOptions B A X G P)).

Abbreviation S := (Chain B A X).
Abbreviation W := (World S G).
Abbreviation Smart := (QCtx -> string -> string -> Q W (option string)).

Lemma qbind_ext {T U} (m m' : Q W T) (k k' : T -> Q W U) w :
  m w = m' w -> (forall a w', k a w' = k' a w') -> qbind m k w = qbind m' k' w.
Proof.
  intros E Hk. unfold qbind, mbind, M_bind. rewrite E. destruct (m' w) as [[[e|a]|e|p] w']; [done|apply Hk|done..].
Qed.

(** Requests do not depend on queries of contracts in other contexts. *)
Lemma handle_ext (f g : Smart) ctx caller req w : (forall addr msg v, f ctx addr msg v = g ctx addr msg v) ->
  HandleQuery (Merge (DefaultQueryPlugins f) options) ctx caller req w =
  HandleQuery (Merge (DefaultQueryPlugins g) options) ctx caller req w.
Proof.
  intros E. assert (Ew : forall q v, WasmQuerier f ctx q v = WasmQuerier g ctx q v).
  { intros [[[addr msg]|] ? ? ? ? ? ?] v; [|done]. unfold WasmQuerier.
    do 2 (apply qbind_ext; [done|intros]). apply E. }
  destruct req as [[q|] [q1|] [q2|] [q3|] [q4|] [q5|] [q6|] [q7|]], options as [o|]; try done; cbn.
  all: try (destruct (OWasm o)); cbn; auto.
Qed.

Lemma run_query_ext (f g : QueryRequest -> Z -> Q W (option string)) cs t w : (forall req limit v, f req limit v = g req limit v) ->
  run_query cfg f cs t w = run_query cfg g cs t w.
Proof.
  intros E. revert w. induction t as [r n|key k IH|a e rev k IH|req limit k IH]; intros w; cbn; auto.
  rewrite E. destruct (g req limit w) as [r w']. apply IH.
Qed.

Lemma level_ext (f g : Smart) ctx addr req w : u32 (default 0 (q_stack ctx) + 1) = default 0 (q_stack ctx) + 1 ->
  (default 0 (q_stack ctx) < max -> forall addr msg v,
     f (WithQueryStackSize ctx (default 0 (q_stack ctx) + 1)) addr msg v =
     g (WithQueryStackSize ctx (default 0 (q_stack ctx) + 1)) addr msg v) ->
  smart_level cfg max options f ctx addr req w = smart_level cfg max options g ctx addr req w.
Proof.
  intros Hu E. unfold smart_level, checkAndIncreaseQueryStackSize. rewrite Hu.
  destruct (Z.ltb_spec max (default 0 (q_stack ctx) + 1)); [done|]. specialize (E ltac:(lia)).
  apply qbind_ext; [done|]. intros [info code] v1. do 4 (apply qbind_ext; [done|]; intros ? ?).
  apply qbind_ext; [|done]. unfold qcall. rewrite (run_query_ext _ (QueryHandler_Query cfg
    (Merge (DefaultQueryPlugins g) options) (WithQueryStackSize ctx (default 0 (q_stack ctx) + 1)) addr)); [done|].
  intros r limit v. unfold QueryHandler_Query. destruct (FromWasmVMGas _ _); [|done..].
  by rewrite (handle_ext f g).
Qed.

(** C25: queries of contracts that query contracts always come to an end: within
    the stack size of the keeper the result does not depend on what would happen
    below [maxQueryStackSize] levels, nor on how much deeper one would look,
    whatever the contracts and the plugins do. *)
Theorem nested_queries_return (beyond beyond' : Smart) (n m : nat) ctx addr req (w : W) : max < 2 ^ 32 - 1 ->
  0 <= default 0 (q_stack ctx) <= max -> (Z.to_nat (max - default 0 (q_stack ctx))%Z < n)%nat -> (n <= m)%nat ->
  QuerySmart cfg max options beyond n ctx addr req w = QuerySmart cfg max options beyond' m ctx addr req w.
Proof.
  intros Hmax. revert m ctx addr req w. induction n as [|n IH]; intros [|m] ctx addr req w Hs Hn Hm; try lia.
  cbn [QuerySmart]. apply level_ext; [apply u32_small; lia|]. intros Hlt addr' msg v. apply IH; cbn; lia.
Qed.

End Depth.

(** ** Queries leave no trace *)

(** [Within R m]: whatever it returns, [m] only takes [R] steps. *)
Definition Within {St T} (R : St -> St -> Prop) (m : M St T) : Prop := forall s r s', m s = (r, s') -> R s s'.

Section NoTrace.
Context {B A X G P : Type} `{BankView B} `{StakingView X} `{DistributionView X} `{ChannelView X} `{GasMeterOps G}
  `{Bech32} `{AddressOps} `{JsonOps} `{SdkCoins} `{SdkMath} `{CircuitVM} `{GenesisVM} `{ProtoOps P} `{GoErrors}
  `{QueryVM}.
Context (cfg : Config) (max : Z) (options : option (PluginOptions B A X G P)).

Abbreviation S := (Chain B A X).
Abbreviation W := (World S G).

(** One meter comes from another by charges alone. *)
Definition charged : G -> G -> Prop := rtc (fun g g' => exists n, (ConsumeGas n g).2 = g').

(** Nothing happened but charges. *)
Definition traceless (w w' : W) : Prop := store w' = store w /\ evs w' = evs w /\ charged (meter w) (meter w').

#[local] Instance traceless_pre : PreOrder traceless.
Proof.
  split; [intros w; split_and!; done || constructor|].
  intros u v w (?&?&?) (?&?&?). split_and!; [congruence..|]. unfold charged in *. by etrans.
Qed.

Lemma within_id {T} (m : M W T) : (forall w, (m w).2 = w) -> Within traceless m.
Proof. intros Hm w r w' E. replace w' with w; [reflexivity|]. rewrite <- (Hm w). by rewrite E. Qed.

Lemma within_bind {T U} (m : M W T) (k : T -> M W U) : Within traceless m -> (forall a, Within traceless (k a)) ->
  Within traceless (m ≫= k).
Proof.
  intros Hm Hk w r w'. unfold mbind, M_bind. destruct (m w) as [[a|e|p] w1] eqn:E.
  - intros E'. etrans; [by eapply Hm|by eapply Hk].
  - intros [= _ <-]. by eapply Hm.
  - intros [= _ <-]. by eapply Hm.
Qed.

Lemma within_qcall {T} (m : M W T) : Within traceless m -> Within traceless (qcall m).
Proof.
  intros Hm w r w'. unfold qcall. destruct (m w) as [[a|e|p] w1] eqn:E; intros [= _ <-]; by eapply Hm.
Qed.

Lemma within_qbind {T U} (m : Q W T) (k : T -> Q W U) : Within traceless m -> (forall a, Within traceless (k a)) ->
  Within traceless (qbind m k).
Proof. intros Hm Hk. apply within_bind; [done|]. intros [e|a]; [by apply within_id|apply Hk]. Qed.

Lemma within_charge n : Within traceless (charge n : M W unit).
Proof.
  intros w r w'. unfold charge, zoom. destruct (ConsumeGas n (meter w)) as [x g] eqn:E. intros [= _ <-].
  split_and!; [done..|]. apply rtc_once. exists n. by rewrite E.
Qed.

Lemma within_setup id h msg : Within traceless (charge_setup cfg id h msg : M W unit).
Proof.
  apply within_bind; [by apply within_id|]. intros pinned. destruct (checkDiscountEligibility _ _ _) as [? d].
  apply within_bind; [by apply within_id|]. intros cost. apply within_charge.
Qed.

Lemma within_runtime gas : Within traceless (consume_runtime cfg gas : M W unit).
Proof.
  intros w r w'. unfold consume_runtime, zoom, consumeRuntimeGas, mbind, M_bind, lift, gets.
  destruct (FromWasmVMGas _ gas) as [n|e|p]; [|by intros [= _ <-]; destruct w; reflexivity..].
  destruct (ConsumeGas n (meter w)) as [x g] eqn:E. intros Ew.
  assert (w' = set_meter g w) as ->.
  { destruct x as [u|?|?]; cbn in Ew; [destruct (IsOutOfGas g)|..]; cbn in Ew; by injection Ew. }
  split_and!; [done..|]. apply rtc_once. exists n. by rewrite E.
Qed.

(** The query handler drops what the plugins wrote. *)
Lemma within_handler plugins ctx caller req limit :
  Within traceless (QueryHandler_Query cfg plugins ctx caller req limit : Q W (option string)).
Proof.
  intros w r w'. unfold QueryHandler_Query. destruct (FromWasmVMGas _ limit) as [n|e|p]; [|by intros [= _ <-]..].
  destruct (HandleQuery _ _ _ _ _) as [x sub]. destruct (ConsumeGas _ (meter w)) as [c g] eqn:E. intros Ew.
  assert (w' = set_meter g w) as ->.
  { destruct c as [u|?|?]; [destruct x as [[?|?]|?|?]|..]; by injection Ew. }
  split_and!; [done..|]. apply rtc_once. eexists. by rewrite E.
Qed.

Lemma within_run (querier : QueryRequest -> Z -> Q W (option string)) cs t :
  (forall req limit, Within traceless (querier req limit)) -> Within traceless (run_query cfg querier cs t).
Proof.
  intros Hq. induction t as [r n|key k IH|a e rv k IH|req limit k IH]; cbn; auto.
  - by apply within_id.
  - intros w r w'. destruct (querier req limit w) as [x w1] eqn:E. intros E'. etrans; [by eapply Hq|by eapply IH].
Qed.

Lemma within_level next ctx addr req : Within traceless (smart_level cfg max options next ctx addr req).
Proof.
  unfold smart_level. destruct (checkAndIncreaseQueryStackSize _ _) as [e|ctx']; [by apply within_id|].
  apply within_qbind.
  { apply within_id. intros w. unfold query_instance, qbind, mbind, M_bind, qcall, gets.
    destruct (GetContractInfo _ _) as [i|]; [destruct (GetCodeInfo _ _)|]; done. }
  intros [info code]. apply within_qbind; [apply within_qcall, within_setup|]. intros _.
  apply within_qbind. { apply within_id. intros w. unfold qlift, qcall, lift. by destruct (NewEnv _ _). } intros env.
  apply within_qbind.
  { apply within_qcall, within_id. intros w. unfold runtime_gas, mbind, M_bind, gets, lift.
    by destruct (runtimeGasForContract _ _). } intros gasLeft.
  apply within_qbind; [by apply within_id|]. intros cs.
  apply within_qbind; [apply within_qcall, within_run; intros; apply within_handler|]. intros out.
  apply within_qbind; [apply within_qcall, within_runtime|]. intros _. apply within_id. intros w. unfold smart_result.
  destruct out.1 as [?|[q|]]; [done| |done]. by case_bool_decide.
Qed.

(** C24: the query of a contract, which the machine runs without write access to its
    own store, whatever it asks of the chain or of other contracts and however it ends,
    leaves the state and the events of the chain
    as they were, even where a plugin writes, as the query for a circuit and the
    calculation of rewards do; all that happens is that the caller's gas meter is
    charged. *)
Theorem queries_leave_no_trace beyond n ctx addr req (w : W) r w' : (0 < n)%nat ->
  QuerySmart cfg max options beyond n ctx addr req w = (r, w') ->
  store w' = store w /\ evs w' = evs w /\ charged (meter w) (meter w').
Proof. destruct n as [|n]; [lia|]. intros _. apply within_level. Qed.

End NoTrace.

(** ** Reading a contract's store page by page *)

Definition before {V} (x y : string * V) : Prop := str_lt x.1 y.1.

Lemma ordered_sorted {V} (m : gmap string V) : StronglySorted before (ordered m).
Proof.
  assert (Hs : StronglySorted key_le (ordered m)) by (apply StronglySorted_merge_sort; apply _).
  assert (Hn : NoDup (ordered m).*1).
  { unfold ordered. rewrite merge_sort_Permutation. apply NoDup_fst_map_to_list. }
  induction Hs as [|x l Hs IH Hx]; constructor; cbn in Hn; apply NoDup_cons in Hn as [Hk Hn]; [auto|].
  rewrite Forall_forall in *. intros y Hy. specialize (Hx y Hy). unfold before.
  destruct (str_trichotomy x.1 y.1) as [E|[E|E]]; [done| |].
  - exfalso. apply Hk. rewrite E. by apply list_elem_of_fmap_2.
  - exfalso. revert Hx. unfold key_le, str_le, str_leb. by rewrite E.
Qed.

Lemma elem_of_ordered {V} (m : gmap string V) k v : (k, v) ∈ ordered m <-> m !! k = Some v.
Proof. unfold ordered. rewrite merge_sort_Permutation. apply elem_of_map_to_list. Qed.

Lemma ordered_length {V} (m : gmap string V) : length (ordered m) = size m.
Proof. unfold ordered. rewrite merge_sort_Permutation, length_map_to_list. done. Qed.

Section SortedKeys.
Context {V : Type}.

Lemma sorted_app_before (l1 l2 : list (string * V)) x y :
  StronglySorted before (l1 ++ l2) -> x ∈ l1 -> y ∈ l2 -> str_lt x.1 y.1.
Proof.
  induction l1 as [|z l1 IH]; cbn; [set_solver|]. intros Hs Hx Hy. apply StronglySorted_inv in Hs as [Hs Hz].
  apply elem_of_cons in Hx as [->|Hx]; [|auto]. rewrite Forall_forall in Hz. apply Hz. set_solver.
Qed.

Lemma filter_all (f : string * V -> bool) l : (forall x, x ∈ l -> f x = true) -> List.filter f l = l.
Proof.
  induction l as [|x l IH]; cbn; [done|]. intros Hf. rewrite (Hf x) by set_solver. rewrite IH; [done|set_solver].
Qed.

Lemma filter_none (f : string * V -> bool) l : (forall x, x ∈ l -> f x = false) -> List.filter f l = [].
Proof.
  induction l as [|x l IH]; cbn; [done|]. intros Hf. rewrite (Hf x) by set_solver. apply IH. set_solver.
Qed.

Lemma filter_twice (f g h : string * V -> bool) l : (forall x, h x = f x && g x) ->
  List.filter h l = List.filter f (List.filter g l).
Proof.
  intros E. induction l as [|x l IH]; cbn; [done|]. rewrite E, IH. destruct (g x); cbn; destruct (f x); done.
Qed.

Lemma str_ltb_false_trans a b c : str_ltb b a = false -> str_ltb c b = false -> str_ltb c a = false.
Proof.
  intros Hab Hbc. destruct (str_ltb c a) eqn:E; [|done]. destruct (str_trichotomy b c) as [Hl|[->|Hl]].
  - rewrite (str_lt_trans b c a Hl E) in Hab. done.
  - congruence.
  - unfold str_lt in Hl. congruence.
Qed.

(** Where a page ends, the next one starts. *)
Lemma range_resumes start end_ (m : gmap string V) l1 k v l2 :
  iterate start end_ false m = l1 ++ (k, v) :: l2 -> iterate k end_ false m = (k, v) :: l2.
Proof.
  unfold iterate. intros E. pose proof (StronglySorted_filter before (fun kv => in_range start end_ kv.1) _ (ordered_sorted m)) as Hs.
  assert (Hk : in_range start end_ k = true).
  { assert (Hin : (k, v) ∈ l1 ++ (k, v) :: l2) by set_solver. rewrite <- E in Hin.
    by apply list_elem_of_In, filter_In in Hin as [_ ?]. }
  rewrite (filter_twice (fun x => negb (str_ltb x.1 k)) (fun kv => in_range start end_ kv.1)).
  - rewrite E in *. rewrite List.filter_app, filter_none; [cbn; rewrite str_ltb_irrefl; cbn; f_equal; apply filter_all|].
    + intros x Hx. assert (str_lt k x.1) as Hlt.
      { apply (sorted_app_before (l1 ++ [(k, v)]) l2 (k, v) x); [|set_solver..]. by rewrite <- app_assoc. }
      by rewrite (str_lt_asym k x.1).
    + intros x Hx. pose proof (sorted_app_before l1 ((k, v) :: l2) x (k, v) Hs Hx ltac:(set_solver)) as Hlt.
      unfold str_lt in Hlt. cbn in Hlt. by rewrite Hlt.
  - intros x. unfold in_range in *. apply andb_prop in Hk as [Hk _]. apply negb_true_iff in Hk.
    destruct (str_ltb x.1 k) eqn:Exk; cbn; [done|].
    rewrite (str_ltb_false_trans start k x.1) by done. cbn. by destruct end_.
Qed.

End SortedKeys.

Lemma take_entries_split count limit l : 0 <= count < limit -> limit < 2 ^ 16 ->
  take_entries count limit l = (map (fun x => mkEntry x.1 x.2) (take (Z.to_nat (limit - count)) l), drop (Z.to_nat (limit - count)) l).
Proof.
  revert count. induction l as [|[k v] l IH]; intros count Hc Hl; [by rewrite take_nil, drop_nil|].
  cbn [take_entries]. destruct (Z.eqb_spec count limit); [lia|].
  replace (Z.to_nat (limit - count)) with (S (Z.to_nat (limit - (count + 1)))) by lia.
  unfold u16. rewrite Z.mod_small by lia. cbn.
  destruct (Z.eq_dec (count + 1) limit) as [E|E].
  - replace (Z.to_nat (limit - (count + 1))) with 0%nat by lia. cbn.
    destruct l as [|[k' v'] l']; [done|]. cbn. by rewrite E, Z.eqb_refl.
  - by rewrite IH by lia.
Qed.

(** Asking for page after page: ascending from the key after the page,
    descending up to that key, which is the one just above it. *)
Definition above (k : string) : string := (k ++ String (Ascii.ascii_of_nat 0) "")%string.

Fixpoint read_pages (fuel : nat) (addr : string) (start end_ : option string) (limit : Z) (reverse : bool) (c : Contracts)
    : list RawRangeEntry :=
  let '(page, next) := QueryRawRange addr start end_ limit reverse c in
  page ++ match next, fuel with
          | Some k, S fuel =>
              if reverse then read_pages fuel addr start (Some (above k)) limit reverse c
              else read_pages fuel addr (Some k) end_ limit reverse c
          | _, _ => []
          end.

(** Nothing lies between a key and the one just above it. *)
Lemma str_ltb_above x k : str_ltb x (above k) = negb (str_ltb k x).
Proof.
  unfold str_ltb, above. revert k. induction x as [|a x IH]; intros [|b k]; try done.
  - rewrite string_app_nil. cbn. unfold Ascii.compare. change (Ascii.N_of_ascii (Ascii.ascii_of_nat 0)) with 0%N.
    destruct (N.compare_spec (Ascii.N_of_ascii a) 0); [by destruct x|lia|done].
  - rewrite string_app_cons. cbn. unfold Ascii.compare. rewrite (N.compare_antisym (Ascii.N_of_ascii a)).
    destruct (Ascii.N_of_ascii a ?= Ascii.N_of_ascii b)%N; cbn; [apply IH|done..].
Qed.

Lemma range_resumes_down {V} start end_ (m : gmap string V) l1 k v l2 :
  iterate start end_ true m = l1 ++ (k, v) :: l2 -> iterate start (Some (above k)) true m = (k, v) :: l2.
Proof.
  unfold iterate. set (L := List.filter _ (ordered m)). intros E.
  assert (EL : L = rev l2 ++ (k, v) :: rev l1).
  { rewrite <- (rev_involutive L), E, rev_app_distr. cbn. by rewrite <- app_assoc. }
  pose proof (StronglySorted_filter before (fun kv => in_range start end_ kv.1) _ (ordered_sorted m)) as Hs.
  fold L in Hs. rewrite EL in Hs.
  assert (Hk : in_range start end_ k = true).
  { assert (Hin : (k, v) ∈ L) by (rewrite EL; set_solver). by apply list_elem_of_In, filter_In in Hin as [_ ?]. }
  rewrite (filter_twice (fun x => negb (str_ltb k x.1)) (fun kv => in_range start end_ kv.1)).
  - fold L. rewrite EL, List.filter_app. cbn. rewrite str_ltb_irrefl. cbn. rewrite filter_all, filter_none.
    + rewrite rev_app_distr. cbn. by rewrite rev_involutive.
    + intros x Hx. assert (str_lt k x.1) as Hlt; [|unfold str_lt in Hlt; by rewrite Hlt].
      apply (sorted_app_before (rev l2 ++ [(k, v)]) (rev l1) (k, v) x); [|set_solver..]. by rewrite <- app_assoc.
    + intros x Hx. by rewrite (str_lt_asym x.1 k) by (apply (sorted_app_before _ _ x (k, v) Hs Hx); set_solver).
  - intros x. unfold in_range in *. rewrite str_ltb_above. destruct (str_ltb k x.1) eqn:Ekx; cbn; [by rewrite andb_comm|].
    rewrite andb_true_r. apply andb_prop in Hk as [_ Hk]. destruct (str_ltb x.1 start); cbn; [done|].
    destruct end_ as [e|]; [|done]. destruct (str_trichotomy x.1 k) as [Hl|[->|Hl]]; [|done|unfold str_lt in Hl; congruence].
    by rewrite (str_lt_trans _ _ e Hl Hk).
Qed.

Definition entry (x : string * string) : RawRangeEntry := mkEntry x.1 x.2.

(** One page: the first entries of the range, and the key of the one after them. *)
Lemma page_split addr start end_ limit reverse c : 0 < limit < 2 ^ 16 ->
  QueryRawRange addr start end_ limit reverse c =
    let l := iterate (default ""%string start) end_ reverse (contract_state addr c) in
    (map entry (take (Z.to_nat limit) l), option_map fst (head (drop (Z.to_nat limit) l))).
Proof.
  intros Hl. unfold QueryRawRange. rewrite take_entries_split by lia. rewrite Z.sub_0_r. cbn.
  by destruct (drop _ _) as [|[k v] r].
Qed.

(** C27: a contract's store can be read in pages: for every limit from 1 to
    65535, asking for page after page, from the next key when ascending, up to and
    including the next key when descending, returns every entry of the range
    exactly once and in order, and stops after at most as many requests as there
    are entries. *)
Theorem raw_range_pages fuel addr start end_ limit reverse c : 0 < limit < 2 ^ 16 ->
  (length (iterate (default ""%string start) end_ reverse (contract_state addr c)) <= fuel)%nat ->
  read_pages fuel addr start end_ limit reverse c =
    map entry (iterate (default ""%string start) end_ reverse (contract_state addr c)).
Proof.
  intros Hl. revert start end_. induction fuel as [|fuel IH]; intros start end_; cbn [read_pages]; rewrite page_split by done.
  all: set (l := iterate (default ""%string start) end_ reverse (contract_state addr c)); intros Hf; cbn.
  { destruct l as [|x l']; [|cbn in Hf; lia]. by rewrite take_nil, drop_nil. }
  set (n := Z.to_nat limit). rewrite <- (take_drop n l) at 3. rewrite map_app. f_equal.
  destruct (drop n l) as [|[k v] r] eqn:E; cbn; [done|].
  assert (El : l = take n l ++ (k, v) :: r) by (by rewrite <- E, take_drop).
  assert (Hr : (length ((k, v) :: r) <= fuel)%nat).
  { pose proof (f_equal length El) as Hlen. rewrite length_app in Hlen. destruct l as [|y l']; [destruct n; discriminate|].
    assert (0 < length (take n (y :: l')))%nat by (unfold n; destruct (Z.to_nat limit) eqn:En; [lia|cbn; lia]). cbn in *. lia. }
  destruct reverse.
  - pose proof (range_resumes_down _ _ _ _ _ _ _ El) as Er. rewrite IH; unfold default, id in *; by rewrite Er.
  - pose proof (range_resumes _ _ _ _ _ _ _ El) as Er. rewrite IH; change (default ""%string (Some k)) with k; by rewrite Er.
Qed.

(** ** What a contract is told of what does not exist *)

Section Missing.
Context {B A X G P : Type} `{BankView B} `{StakingView X} `{DistributionView X} `{ChannelView X} `{GasMeterLaws G}
  `{Bech32} `{AddressOps} `{JsonOps} `{SdkCoins} `{SdkMath} `{CircuitVM} `{GenesisVM} `{ProtoOps P} `{GoErrors}
  `{QueryVM}.
Context (cfg : Config) (next : QCtx -> string -> string -> Q (World (Chain B A X) G) (option string)).

Abbreviation S := (Chain B A X).
Abbreviation W := (World S G).

Definition no_wasm : WasmQuery := mkWasmQuery None None None None None None None.
Definition ask_wasm (q : WasmQuery) : QueryRequest := mkQueryRequest None None None None None None None (Some q).
Definition ask_contract (text : string) : QueryRequest := ask_wasm (mkWasmQuery None None (Some text) None None None None).
Definition ask_code (id : Z) : QueryRequest := ask_wasm (mkWasmQuery None None None (Some id) None None None).
Definition ask_circuit (id : Z) : QueryRequest := ask_wasm (mkWasmQuery None None None None None (Some id) None).
Definition ask_circuit_info (id : Z) : QueryRequest := ask_wasm (mkWasmQuery None None None None None None (Some id)).

(** What the default plugins make of a request, as the contract sees it. *)
Definition told (ctx : QCtx) (caller : string) (req : QueryRequest) (limit : Z) (w : W) : Reported :=
  reported (QueryHandler_Query cfg (DefaultQueryPlugins next : QueryPlugins B A X G P) ctx caller req limit w).1.

(** A query that fails without charging gas is reported. *)
Lemma told_failure ctx caller req limit (w : W) e n : FromWasmVMGas (gasRegister cfg) limit = Ok n ->
  GasConsumed (meter w) <= GasLimit (meter w) ->
  (exists s l, HandleQuery (DefaultQueryPlugins next : QueryPlugins B A X G P) ctx caller req
     (mkWorld (store w) (NewGasMeter n) []) = (Ok (inl e), mkWorld s (NewGasMeter n) l)) ->
  told ctx caller req limit w = Returned (ToQuerierResult (inl (report e))).
Proof.
  intros Hn Hg (s&l&E). unfold told, QueryHandler_Query. rewrite Hn, E. cbn [meter]. rewrite NewGasMeter_consumed.
  destruct (ConsumeGas_ok 0 (meter w)) as (g'&->&_); [lia|]. done.
Qed.

(** C29: a contract that asks for a contract or a code that does not exist is
    told so by a typed error with the address or the number it asked for.  Asked for
    information on a circuit that does not exist, it is told that the code of that
    number is missing; asked for the circuit itself, it only gets the codespace and
    code of unregistered errors, the text every plain error is reported with. *)
Theorem missing_reported ctx caller limit n (w : W) : FromWasmVMGas (gasRegister cfg) limit = Ok n ->
  GasConsumed (meter w) <= GasLimit (meter w) ->
  (forall text addr, AccAddressFromBech32 text = Ok addr -> cinfos (ch_con (store w)) !! addr = None ->
     told ctx caller (ask_contract text) limit w = Returned (SystemFailed (NoSuchContract text))) /\
  (forall id, id <> 0 -> codes (ch_reg (store w)) !! id = None ->
     told ctx caller (ask_code id) limit w = Returned (SystemFailed (NoSuchCode id))) /\
  (forall id, id <> 0 -> infos (ch_reg (store w)) !! id = None ->
     told ctx caller (ask_circuit_info id) limit w = Returned (SystemFailed (NoSuchCode id))) /\
  (forall id, id <> 0 -> blobs (ch_reg (store w)) !! id = None -> infos (ch_reg (store w)) !! id = None ->
     let '(codespace, code) := ABCIInfo "unregistered" in
     let text := ("codespace: " ++ codespace ++ ", code: " ++ pretty code)%string in
     told ctx caller (ask_circuit id) limit w = Returned (Refused (Redacted text)) /\
     forall plain, ToQuerierResult (inl (report (Redacted plain))) = Refused (Redacted text)).
Proof.
  intros Hn Hg. split_and!.
  - intros text addr Ha Hc. rewrite (told_failure _ _ _ _ _ (Wrapped (ErrNoSuchContractFn text) text) n Hn Hg); [done|].
    do 2 eexists. cbn. unfold qbind, query_address, qwrap, qlift, qcall, mbind, M_bind, lift, gets. rewrite Ha. cbn.
    unfold GetContractInfo. rewrite Hc. reflexivity.
  - intros id Hid Hc. rewrite (told_failure _ _ _ _ _ (Wrapped (ErrNoSuchCodeFn id) (itoa id)) n Hn Hg); [done|].
    do 2 eexists. cbn. destruct (Z.eqb_spec id 0); [done|]. unfold qbind, qcall, mbind, M_bind, gets. cbn.
    unfold GetCodeInfo. cbn. rewrite Hc. reflexivity.
  - intros id Hid Hi. rewrite (told_failure _ _ _ _ _ (Wrapped (ErrNoSuchCodeFn id) (itoa id)) n Hn Hg); [done|].
    do 2 eexists. cbn. destruct (Z.eqb_spec id 0); [done|]. unfold qbind, qcall, mbind, M_bind, gets. cbn.
    rewrite Hi. reflexivity.
  - intros id Hid Hb Hi. rewrite (told_failure _ _ _ _ _ (Wrapped (ErrNoSuchCircuitFn id) (itoa id)) n Hn Hg).
    + unfold report, redact. cbn. by destruct (ABCIInfo "unregistered").
    + do 2 eexists. cbn. destruct (Z.eqb_spec id 0); [done|].
      unfold qbind, qwrap, qcall, with_reg, zoom, GetCircuit, mbind, M_bind, get. cbn. rewrite Hb, Hi. reflexivity.
Qed.

End Missing.

(** ** Reference dependencies and witnesses *)

Module QueryRef.
Import Ref RefBank.

#[export] Instance bank_view : BankView ref_bank := {|
  GetAllBalances _ _ := []; GetBalance b a d := mkCoin d (balance b a d); GetSupply b d := mkCoin d (supply b d);
  bank_GetDenomMetaData _ _ := None; DenomsMetadata _ _ := Err "ErrNotFound" |}.
#[export] Instance staking_view : StakingView unit := {|
  BondDenom _ := Ok "uterp"%string; GetBondedValidatorsByPower _ := Ok []; GetValidator _ _ := Err "ErrNoValidatorFound";
  GetAllDelegatorDelegations _ _ := Ok []; GetDelegation _ _ _ := Err "ErrNoDelegation";
  HasReceivingRedelegation _ _ _ := Ok false; TokensFromShares _ s := s; ValAddressFromBech32 s := Ok s;
  ValAddress_String s := s; Dec_String z := itoa z |}.
#[export] Instance distribution_view : DistributionView unit := {|
  DelegatorWithdrawAddress a := mret a; DelegationRewards _ _ := mret []; DelegationTotalRewards _ := mret ([], []);
  DelegatorValidators _ := mret None |}.
#[export] Instance channel_view : ChannelView unit := {|
  GetAllChannelsWithPortPrefix _ _ := []; GetChannel _ _ _ := None |}.
#[export] Instance proto : ProtoOps string := {|
  proto_Marshal := Ok; codec_Unmarshal bz _ := Ok bz; codec_MarshalJSON := Ok |}.

(** The machine has a circuit that the store does not have. *)
#[export] Instance lazy_vm : GenesisVM := {|
  GetCode _ := Ok "wasm"%string; vm_GetCircuit _ := Ok (Some "blob"%string); StoreCircuitUnchecked b := Ok b |}.

(** A contract that queries itself without end, one that asks for a circuit, and
    one that reads its store. *)
#[export] Instance asker : QueryVM := {|
  VmQuery _ env req _ :=
    if String.eqb req "loop" then
      QAsk (ask_wasm (mkWasmQuery (Some (EnvContract env, "loop"%string)) None None None None None None)) 10000000000000
        (fun r _ => QDone (match r with Returned (Answered d) => inr (Some (mkQueryResult d ""))
                                   | _ => inr (Some (mkQueryResult None "stop")) end) 0)
    else if String.eqb req "zk" then QAsk (ask_circuit 1) 10000000000000
      (fun r _ => QDone (match r with Returned (Answered d) => inr (Some (mkQueryResult d "")) | _ => inl "failed"%string end) 1000)
    else QRead req (fun v => QDone (inr (Some (mkQueryResult v ""))) 1000) |}.

End QueryRef.

Module QueryWitness.
Import Ref RefLaws RefBank RefBankLaws CircuitRef ChainRef ServerRef QueryRef.

Definition counter : string := hash32.
Definition counter_info : ContractInfo := mkContractInfo 1 "addrann" "" "counter" None "" None "".
Definition counter_state : gmap string string :=
  {["a"%string := "1"%string; "b"%string := "2"%string; "c"%string := "3"%string; "d"%string := "4"%string]}.
Definition counters : Contracts := mkContracts {[counter := counter_info]} ∅ ∅ ∅ {[counter := counter_state]}.
Definition with_circuit : Registry :=
  set_infos <[1 := mkCircuitInfo "key" "addrann" AllowEverybody 0 2 0 4]> (set_codes <[1 := code1]> empty_registry).
Definition asked : World (Chain ref_bank (gset string) unit) meter :=
  mkWorld (set_con counters (set_chreg with_circuit chain0)) (mkMeter 0 1000000000000) [].
Definition qctx : QCtx := mkQCtx ctx0 None.

Definition deep (n : nat) : QCtx -> string -> string -> Q (World (Chain ref_bank (gset string) unit) meter) (option string) :=
  QuerySmart (P:=string) cfg5 3 None (fun _ _ _ => panic "below") n.

(** Four levels are enough for a stack of three. *)
Lemma nested_queries_return_witness : deep 4 qctx counter "loop" asked = deep 9 qctx counter "loop" asked /\
  is_ok (deep 9 qctx counter "loop" asked).1 = true.
Proof.
  split; [|by vm_compute].
  apply (nested_queries_return (P:=string) cfg5 3 None (fun _ _ _ => panic "below") (fun _ _ _ => panic "below") 4 9); cbn; lia.
Defined.

(** The query for a circuit that only the machine has is answered, and the copy
    it stores is dropped. *)
Lemma queries_leave_no_trace_witness : exists w',
  deep 4 qctx counter "zk" asked = (Ok (inr (Some (json_Marshal (CircuitResponse "blob")))), w') /\
  blobs (ch_reg (store w')) = ∅ /\ GasConsumed (WasmDispatch.meter w') <> 0.
Proof.
  destruct (deep 4 qctx counter "zk" asked) as [r w'] eqn:E. exists w'.
  pose proof (queries_leave_no_trace (P:=string) cfg5 3 None (fun _ _ _ => panic "below") 4 qctx counter "zk" asked r w' ltac:(lia) E) as (Hs&_&_).
  rewrite Hs. clear Hs. split_and!; [|done|].
  - f_equal. transitivity (deep 4 qctx counter "zk" asked).1; [by rewrite E|by vm_compute].
  - replace w' with (deep 4 qctx counter "zk" asked).2 by (by rewrite E). by vm_compute.
Defined.

(** Four entries in pages of two, downwards. *)
Lemma raw_range_pages_witness :
  map EntryKey (read_pages 4 counter None None 2 true counters) = ["d"; "c"; "b"; "a"]%string.
Proof.
  rewrite (raw_range_pages 4 counter None None 2 true counters); [by vm_compute|lia|by vm_compute; lia].
Defined.

Lemma missing_reported_witness :
  let asks q := told (P:=string) cfg5 (fun _ _ _ => qret None) qctx counter q 1000000 asked in
  asks (ask_code 5) = Returned (SystemFailed (NoSuchCode 5)) /\
  asks (ask_circuit_info 5) = Returned (SystemFailed (NoSuchCode 5)) /\
  asks (ask_circuit 5) = Returned (Refused (Redacted "codespace: wasm, code: 5")).
Proof.
  assert (Hg : GasConsumed (WasmDispatch.meter asked) <= GasLimit (WasmDispatch.meter asked)) by (vm_compute; discriminate).
  destruct (missing_reported (P:=string) cfg5 (fun _ _ _ => qret None) qctx counter 1000000 7 asked eq_refl Hg) as (_&Hc&Hi&Hz).
  cbv zeta. split_and!; [apply Hc; [done|by vm_compute]|apply Hi; [done|by vm_compute]|].
  exact (proj1 (Hz 5 ltac:(done) ltac:(by vm_compute) ltac:(by vm_compute))).
Defined.

End QueryWitness.
