(* ===== verification/WasmGrpc.v ===== *)
(** * x/wasm: the gRPC query service

    The queries of keeper/querier.go: single contracts, codes, circuits and
    verifying keys, smart queries with a gas limit, the prediction of an address,
    and the paginated listings, which never return more than a hundred entries. *)

From Stdlib Require Import ZArith Lia.
From stdpp Require Import base gmap strings list sorting.
From S2P Require Import Prelude Sdk SdkRef Store GoLib Bank WasmAccess WasmGas WasmDispatch WasmCircuits.
From S2P Require Import WasmContracts WasmPackets WasmLifecycle WasmSteps WasmServer WasmApp WasmGenesis WasmQueryTypes WasmQuery.

(** ** Pagination *)

(** [query.DefaultLimit] and the limit of this module. *)
Definition DefaultLimit : Z := 100.
Definition maxResultEntries : Z := 100.

Definition ensurePaginationParams (req : option PageRequest) : res PageRequest :=
  match req with
  | None => Ok (mkPage None 0 DefaultLimit false false)
  | Some req =>
      refuse (negb (PageOffset req =? 0) || CountTotal req) "errLegacyPaginationUnsupported";;
      mret (if (maxResultEntries <? PageLimit req) || (PageLimit req <=? 0)
            then mkPage (PageKey req) (PageOffset req) maxResultEntries (CountTotal req) (PageReverse req)
            else req)
  end.

(** [query.FilteredPaginate] over the entries of a prefix store in key order:
    the callback is called with a key, a value and whether to collect it, and
    says whether the entry counts; the result is the key after the page. *)
Class Pagination := {
  FilteredPaginate : forall (V R : Type), list (string * V) -> PageRequest -> (string -> V -> bool -> M R bool) ->
    M R (option string)
}.

(** The entries a key request goes through. *)
Fixpoint skip_to {V} (key : string) (l : list (string * V)) : list (string * V) :=
  match l with
  | [] => []
  | (k, v) :: l' => if bool_decide (k = key) then l else skip_to key l'
  end.
Definition page_from {V} (req : PageRequest) (l : list (string * V)) : list (string * V) :=
  let l := if PageReverse req then rev l else l in
  match PageKey req with
  | None | Some ""%string => l
  | Some key => skip_to key l
  end.

(** Documented, for requests by key without counting, a positive limit, a key
    that came from a page, and callbacks that count every entry and do nothing
    else unless told to collect: the entries from the key on are collected in
    order up to the limit, an error ends the run, and the next key is that of the
    entry after the page. *)
Class PaginationLaws `{Pagination} : Prop := {
  paginate_by_key (V R : Type) (l : list (string * V)) req (f : string -> V -> bool -> M R bool) (r : R) :
    PageOffset req = 0 -> CountTotal req = false -> 0 < PageLimit req ->
    (forall k, PageKey req = Some k -> k <> ""%string -> k ∈ l.*1) ->
    (forall k v r, f k v false r = (Ok true, r)) -> (forall k v r b r', f k v true r = (Ok b, r') -> b = true) ->
    FilteredPaginate V R l req f r =
      (forM (take (Z.to_nat (PageLimit req)) (page_from req l)) (fun kv => f kv.1 kv.2 true;; mret tt);;
       mret (option_map fst (head (drop (Z.to_nat (PageLimit req)) (page_from req l))))) r
}.

(** ** Responses *)

Record InfoResponse := mkInfoResponse {
  RespID : Z; RespCreator : string; RespHash : string; RespPermission : AccessConfig }.
Record VkInfoResponse := mkVkInfo {
  VkiID : Z; VkiCSId : Z; VkiCreator : string; VkiHash : string; VkiPermission : option AccessConfig }.

Section Service.
Context {B A X G P : Type} `{BankView B} `{StakingView X} `{DistributionView X} `{ChannelView X} `{GasMeterOps G}
  `{Bech32} `{AddrPrefix} `{AddressOps} `{JsonOps} `{SdkCoins} `{SdkMath} `{CircuitVM} `{GenesisVM} `{ProtoOps P} `{GoErrors}
  `{QueryVM} `{Pagination}.
Context (cfg : Config) (maxQueryStackSize : Z) (options : option (PluginOptions B A X G P)).

Abbreviation S := (Chain B A X).
Abbreviation W := (World S G).

(** A nil request. *)
Definition given {T} (req : option T) : res T := match req with Some r => Ok r | None => Err "InvalidArgument" end.
Definition nonzero (id : Z) : res unit := refuse (id =? 0) "ErrInvalid".

(** *** Listings *)

(** The loop all listings share: an entry is read when it is collected. *)
Definition listing {V T} (entries : list (string * V)) (read : string -> V -> res T) (pagination : option PageRequest)
    : res (list T * option string) :=
  paginationParams ← ensurePaginationParams pagination;
  match FilteredPaginate V (list T) entries paginationParams (fun key value accumulate =>
          if (accumulate : bool) then (x ← lift (read key value); modify (fun r => r ++ [x]);; mret true) else mret true) [] with
  | (Ok next, r) => Ok (r, next)
  | (Err e, _) => Err e
  | (Panic p, _) => Panic p
  end.

(** The address in an index key, and the number in a key. *)
Definition indexed_address (key : string) : res string :=
  must (AbsoluteTxPositionLen <=? String.length key)%nat "slice bounds out of range";;
  mret (address_text (String.substring AbsoluteTxPositionLen (String.length key - AbsoluteTxPositionLen) key)).
(** [binary.BigEndian.Uint64]. *)
Definition key_number (key : string) : res Z :=
  must (8 <=? String.length key)%nat "index out of range";;
  mret (be64s_decode (String.substring 0 8 key)).
(** [sdk.BigEndianToUint64]. *)
Definition BigEndianToUint64 (key : string) : res Z :=
  if (String.length key =? 0)%nat then Ok 0 else key_number key.

Definition ContractHistory (s : S) (address : string) (pagination : option PageRequest)
    : res (list HistoryEntry * option string) :=
  contractAddr ← AccAddressFromBech32 address;
  listing (iter_prefix (GetContractCodeHistoryElementPrefix contractAddr) (chist (ch_con s))) (fun _ e => Ok e) pagination.

Definition ContractsByCode (s : S) (codeId : Z) (pagination : option PageRequest) : res (list string * option string) :=
  nonzero codeId;;
  listing (iter_prefix (GetContractByCodeIDSecondaryIndexPrefix codeId) (code_ix (ch_con s)))
    (fun key _ => indexed_address key) pagination.

Definition ContractsByCreator (s : S) (creatorAddress : string) (pagination : option PageRequest)
    : res (list string * option string) :=
  ensurePaginationParams pagination;;
  creator ← AccAddressFromBech32 creatorAddress;
  prefix ← GetContractsByCreatorPrefix creator;
  listing (iter_prefix prefix (ccreator_ix (ch_con s))) (fun key _ => indexed_address key) pagination.

Definition AllContractState (s : S) (address : string) (pagination : option PageRequest)
    : res (list Model * option string) :=
  contractAddr ← AccAddressFromBech32 address;
  ensurePaginationParams pagination;;
  ensure (HasContractInfo contractAddr (ch_con s)) "ErrNoSuchContract";;
  listing (ordered (contract_state contractAddr (ch_con s))) (fun key value => Ok (mkModel key value)) pagination.

(** A map by numbers as a prefix store. *)
Definition numbered_store {V} (m : gmap Z V) : list (string * V) := map (fun kv => (be64s kv.1, kv.2)) (in_order m).

Definition Codes (s : S) (pagination : option PageRequest) : res (list InfoResponse * option string) :=
  listing (numbered_store (codes (ch_reg s))) (fun key c =>
    id ← key_number key; mret (mkInfoResponse id (CodeCreator c) (CodeHash c) (CodeConfig c))) pagination.

Definition pinned_store (s : S) : list (string * unit) := numbered_store (gset_to_gmap tt (pinned (ch_reg s))).
Definition PinnedCodes (s : S) (pagination : option PageRequest) : res (list Z * option string) :=
  listing (pinned_store s) (fun key _ => BigEndianToUint64 key) pagination.
Definition PinnedCircuits (s : S) (pagination : option PageRequest) : res (list Z * option string) :=
  listing (pinned_store s) (fun key _ => BigEndianToUint64 key) pagination.

(** *** Single entries *)

Definition queryContractInfo (s : S) (addr : string) : res (string * ContractInfo) :=
  match GetContractInfo addr (ch_con s) with
  | None => Err "ErrNoSuchContract"
  | Some info => Ok (address_text addr, info)
  end.

Definition ContractInfo_ (s : S) (address : string) : res (string * ContractInfo) :=
  contractAddr ← AccAddressFromBech32 address;
  queryContractInfo s contractAddr.

Definition RawContractState (s : S) (address : string) (queryData : option string) : res (option string) :=
  contractAddr ← AccAddressFromBech32 address;
  ensure (HasContractInfo contractAddr (ch_con s)) "ErrNoSuchContract";;
  mret (QueryRaw contractAddr queryData (ch_con s)).

Definition queryCodeInfo (s : S) (codeID : Z) : option InfoResponse :=
  if codeID =? 0 then None
  else res ← GetCodeInfo codeID s; Some (mkInfoResponse codeID (CodeCreator res) (CodeHash res) (CodeConfig res)).

(** The bytes of a code, which may be nil. *)
Definition queryCode (s : S) (codeID : Z) : res (option (InfoResponse * string)) :=
  match queryCodeInfo s codeID with
  | None => Ok None
  | Some info => code ← GetByteCode codeID (ch_reg s); Ok (Some (info, code))
  end.

Definition found {T} (missing : string) (o : option T) : res T := match o with Some x => Ok x | None => Err missing end.

Definition Code_ (s : S) (codeId : Z) : res (InfoResponse * string) :=
  nonzero codeId;;
  rsp ← queryCode s codeId;
  found "ErrNoSuchCode" rsp.

Definition CodeInfo_ (s : S) (codeId : Z) : res InfoResponse :=
  nonzero codeId;;
  found "ErrNoSuchCode" (queryCodeInfo s codeId).

Definition queryCircuitInfo (s : S) (zkID : Z) : option InfoResponse :=
  if zkID =? 0 then None
  else res ← infos (ch_reg s) !! zkID; Some (mkInfoResponse zkID (Creator res) (CircuitHash res) (InstantiateConfig res)).

Definition queryCircuit (zkID : Z) : M W (option (InfoResponse * string)) :=
  s ← gets store;
  match queryCircuitInfo s zkID with
  | None => mret None
  | Some info =>
      code ← with_reg (GetCircuit zkID);
      match code with
      | None => throw "ErrNoSuchCircuit"
      | Some code => mret (Some (info, code))
      end
  end.

Definition Circuit_ (zkId : Z) : M W (InfoResponse * string) :=
  lift (nonzero zkId);;
  rsp ← queryCircuit zkId;
  lift (found "ErrNoSuchCircuit" rsp).

Definition CircuitInfo_ (s : S) (zkId : Z) : res InfoResponse :=
  nonzero zkId;;
  found "ErrNoSuchCode" (queryCircuitInfo s zkId).

Definition Vk (vkId : Z) : M W (VkInfoResponse * string) :=
  lift (nonzero vkId);;
  rsp ← queryCircuit vkId;
  r ← lift (found "ErrNoSuchCircuit" rsp);
  mret (mkVkInfo vkId 0 (RespCreator r.1) (RespHash r.1) (Some (RespPermission r.1)), r.2).

Definition circuitParamID (s : S) (zkID : Z) : Z := default 0 (param_refs (ch_reg s) !! zkID).

Definition VkInfo (s : S) (vkId : Z) : res VkInfoResponse :=
  nonzero vkId;;
  info ← found "ErrNoSuchCircuit" (queryCircuitInfo s vkId);
  mret (mkVkInfo vkId (circuitParamID s vkId) (RespCreator info) (RespHash info) (Some (RespPermission info))).

Definition queryVkParamInfo (s : S) (paramID : Z) : option VkInfoResponse :=
  if paramID =? 0 then None
  else res ← vk_infos (ch_reg s) !! paramID; Some (mkVkInfo (VkID res) (VkID res) (VkCreator res) (DataHash res) None).

(** The data of the response is always nil. *)
Definition VkParam_ (s : S) (paramId : Z) : res (VkInfoResponse * option string) :=
  nonzero paramId;;
  info ← found "ErrNotFound" (queryVkParamInfo s paramId);
  mret (info, None).

Definition VkParamInfo (s : S) (paramId : Z) : res VkInfoResponse :=
  nonzero paramId;;
  found "ErrNotFound" (queryVkParamInfo s paramId).

Definition Params_ (s : S) : Params := ch_params s.

(** *** Predicting an address *)

Record BuildAddressRequest := mkBuildAddress {
  BaCodeHash : string; BaCreator : string; BaSalt : string; BaInitArgs : option string }.

Definition BuildAddressPredictable (req : BuildAddressRequest) : res string :=
  codeHash ← wrap_err "invalid code hash" (hex_decode (BaCodeHash req));
  creator ← wrap_err "invalid creator address" (AccAddressFromBech32 (BaCreator req));
  salt ← wrap_err "invalid salt" (hex_decode (BaSalt req));
  refuse (String.length salt =? 0)%nat "InvalidArgument";;
  match BaInitArgs req with
  | None => a ← BuildContractAddressPredictable codeHash creator salt ""; mret (address_text a)
  | Some initMsg =>
      RawContractMessage_ValidateBasic initMsg;;
      a ← BuildContractAddressPredictable codeHash creator salt initMsg; mret (address_text a)
  end.

Definition DefaultGasCostBuildAddress : Z := 10.

(** The gas is charged when the call ends, however it ends. *)
Definition BuildAddress (req : BuildAddressRequest) : M W string := fun w =>
  match charge DefaultGasCostBuildAddress w with
  | (Ok _, w') => (BuildAddressPredictable req, w')
  | (Err e, w') => (Err e, w')
  | (Panic p, w') => (Panic p, w')
  end.

(** *** Smart queries *)

Context (GasRemaining : G -> Z) (queryGasLimit : Z).

(** The error of a query as the service returns it. *)
Definition service_error {T} (r : res (GoErr + T)) : res T :=
  match r with
  | Ok (inr a) => Ok a
  | Ok (inl e) => Err (cause e)
  | Err e => Err e
  | Panic p => if bool_decide (p = "ErrorOutOfGas"%string) then Err "ErrOutOfGas" else Err "ErrPanic"
  end.

(** [k.QuerySmart] with the depth it needs. *)
Definition keeper_QuerySmart : QCtx -> string -> string -> Q W (option string) :=
  QuerySmart cfg maxQueryStackSize options (fun _ _ _ => panic "unreachable") (Datatypes.S (Z.to_nat maxQueryStackSize)).

Definition SmartContractState (ctx : QCtx) (address queryData : string) : M W string := fun w =>
  match RawContractMessage_ValidateBasic queryData, AccAddressFromBech32 address with
  | Ok _, Ok contractAddr =>
      let gasLimit := Z.min (GasRemaining (meter w)) queryGasLimit in
      let '(r, w') := keeper_QuerySmart ctx contractAddr queryData (set_meter (NewGasMeter gasLimit) w) in
      (bz ← service_error r; found "ErrNoSuchContract" bz, set_meter (meter w) w')
  | Ok _, Err e => (Err e, w)
  | Ok _, Panic p => (Panic p, w)
  | Err _, _ => (Err "InvalidArgument", w)
  | Panic p, _ => (Panic p, w)
  end.

End Service.

(** ** Listings go through everything once *)

Section Listings.
Context `{PaginationLaws}.
Context {V T : Type} (entries : list (string * V)) (read : string -> V -> res T) (g : string * V -> T).
Hypothesis reads : forall k v, (k, v) ∈ entries -> read k v = Ok (g (k, v)).

Definition collect (kv : string * V) : M (list T) unit :=
  (x ← lift (read kv.1 kv.2); modify (fun r => r ++ [x]);; mret true);; mret tt.

Lemma collect_one kv r : kv ∈ entries -> collect kv r = (Ok tt, r ++ [g kv]).
Proof. destruct kv as [k v]. intros Hin. unfold collect, mbind, M_bind, lift. cbn. by rewrite (reads k v). Qed.

Lemma collect_all l r : (forall kv, kv ∈ l -> kv ∈ entries) -> forM l collect r = (Ok tt, r ++ map g l).
Proof.
  revert r. induction l as [|kv l IH]; intros r Hl; cbn [forM map]; [by rewrite app_nil_r|].
  unfold mbind, M_bind. rewrite collect_one by set_solver. rewrite IH by set_solver. by rewrite <- app_assoc.
Qed.

(** The limit that is used. *)
Definition effective (limit : Z) : Z := if (maxResultEntries <? limit) || (limit <=? 0) then maxResultEntries else limit.

Lemma effective_range limit : 0 < effective limit <= 100.
Proof. unfold effective, maxResultEntries. destruct (Z.ltb_spec 100 limit), (Z.leb_spec limit 0); cbn; lia. Qed.

Lemma elem_of_page_from {A} (req : PageRequest) (l : list (string * A)) x : x ∈ page_from req l -> x ∈ l.
Proof.
  assert (Hs : forall key (m : list (string * A)), x ∈ skip_to key m -> x ∈ m).
  { intros key m. induction m as [|[k v] m IH]; cbn; [done|]. case_bool_decide; set_solver. }
  assert (Hr : x ∈ (if PageReverse req then rev l else l) -> x ∈ l).
  { destruct (PageReverse req); [|done]. by rewrite !list_elem_of_In, <- in_rev. }
  unfold page_from. destruct (PageKey req) as [[|a k]|]; eauto.
Qed.

(** One request by key. *)
Lemma listing_page key limit reverse : (forall k, key = Some k -> k <> ""%string -> k ∈ entries.*1) ->
  let l := page_from (mkPage key 0 limit false reverse) entries in
  listing entries read (Some (mkPage key 0 limit false reverse)) =
    Ok (map g (take (Z.to_nat (effective limit)) l), option_map fst (head (drop (Z.to_nat (effective limit)) l))).
Proof.
  intros Hk l. unfold listing. cbn -[FilteredPaginate].
  set (req := if (_ <? _) || _ then _ else _).
  assert (Er : req = mkPage key 0 (effective limit) false reverse).
  { unfold req, effective. by destruct (_ || _). }
  rewrite Er. pose proof (effective_range limit). rewrite paginate_by_key; cbn [PageOffset CountTotal PageLimit PageKey]; [|done|done|lia|done|done|].
  2:{ intros k v r b r'. unfold mbind, M_bind, lift. destruct (read k v); cbn; [|done..]. by intros [= <- _]. }
  change (page_from (mkPage key 0 (effective limit) false reverse) entries) with l.
  unfold mbind at 1, M_bind at 1. fold (@collect). rewrite (collect_all (take (Z.to_nat (effective limit)) l)); [done|].
  intros kv Hin. apply (elem_of_page_from (mkPage key 0 limit false reverse)). fold l.
  rewrite <- (take_drop (Z.to_nat (effective limit)) l). apply elem_of_app. by left.
Qed.

(** Following the next keys, without a limit or with one. *)
Fixpoint list_all (fuel : nat) (q : option PageRequest -> res (list T * option string)) (limit : Z) (key : option string)
    : res (list T) :=
  r ← q (Some (mkPage key 0 limit false false));
  match r.2, fuel with
  | Some k, S fuel => rest ← list_all fuel q limit (Some k); mret (r.1 ++ rest)
  | _, _ => mret r.1
  end.

Lemma skip_to_suffix (pre suf : list (string * V)) k v : k ∉ pre.*1 -> skip_to k (pre ++ (k, v) :: suf) = (k, v) :: suf.
Proof.
  induction pre as [|[k' v'] pre IH]; cbn; [by rewrite bool_decide_eq_true_2|].
  rewrite not_elem_of_cons. intros [? ?]. rewrite bool_decide_eq_false_2 by congruence. auto.
Qed.

(** The listing resumed anywhere gives the rest. *)
Lemma list_rest fuel limit pre suf key : NoDup entries.*1 -> Forall (fun kv => kv.1 <> ""%string) (tail entries) ->
  entries = pre ++ suf -> (length suf <= fuel)%nat ->
  match pre, suf with [], _ => key = None | _, (k, _) :: _ => key = Some k | _, _ => False end ->
  list_all fuel (listing entries read) limit key = Ok (map g suf).
Proof.
  intros Hnd Hne. revert pre suf key. induction fuel as [|fuel IH]; intros pre suf key E Hf Hk; cbn [list_all].
  all: assert (Hpage : page_from (mkPage key 0 limit false false) entries = suf).
  1,3: unfold page_from; cbn; destruct pre as [|x pre]; [by subst key|]; destruct suf as [|[k v] suf]; [done|];
    subst key; destruct k as [|a k]; [exfalso; rewrite E in Hne; cbn in Hne; apply Forall_app in Hne as [_ Hne];
      by inversion Hne|]; rewrite E in Hnd |- *; rewrite fmap_app in Hnd; apply NoDup_app in Hnd as (_&Hd&_);
    apply (skip_to_suffix (x :: pre) suf); intros Hin; apply (Hd _ Hin); cbn; set_solver.
  all: rewrite listing_page by
    (intros k -> _; destruct pre; [done|]; destruct suf as [|[k' v] suf]; [done|]; injection Hk as ->; rewrite E, fmap_app; set_solver).
  all: cbn zeta; rewrite Hpage; set (n := Z.to_nat (effective limit)); cbn.
  { destruct suf; [|cbn in Hf; lia]. by rewrite take_nil, drop_nil. }
  destruct (drop n suf) as [|[k v] r] eqn:Ed; cbn.
  { rewrite <- (take_drop n suf) at 2. by rewrite Ed, app_nil_r. }
  assert (El : suf = take n suf ++ (k, v) :: r) by (by rewrite <- Ed, take_drop).
  rewrite (IH (pre ++ take n suf) ((k, v) :: r)); [|by rewrite <- app_assoc, <- El| |].
  - cbn. f_equal. rewrite El at 2. by rewrite map_app.
  - pose proof (f_equal length El) as Hl. rewrite length_app in Hl. pose proof (effective_range limit).
    destruct suf as [|y suf]; [destruct n; discriminate|].
    assert (0 < length (take n (y :: suf)))%nat by (unfold n; destruct (Z.to_nat (effective limit)) eqn:En; [lia|cbn; lia]).
    cbn in *. lia.
  - destruct suf as [|y suf]; [destruct n; discriminate|]. pose proof (effective_range limit).
    destruct (pre ++ take n (y :: suf)) eqn:Ep; [|done]. apply app_eq_nil in Ep as [_ Ep]. unfold n in Ep.
    destruct (Z.to_nat (effective limit)) eqn:En; [lia|done].
Qed.

End Listings.

Definition key_address (key : string) : string :=
  String.substring AbsoluteTxPositionLen (String.length key - AbsoluteTxPositionLen) key.

Lemma addresses_of_Ok keys l : addresses_of keys = Ok l ->
  l = map key_address keys /\ forall k, k ∈ keys -> (AbsoluteTxPositionLen <= String.length k)%nat.
Proof.
  revert l. induction keys as [|k keys IH]; intros l; [intros [= <-]; split; [done|set_solver]|]. cbn [addresses_of].
  intros E. apply res_bind_Ok in E as ([]&Hk&E). apply res_bind_Ok in E as (r&Hr&[= <-]).
  destruct (IH r Hr) as [-> Hlen]. split; [done|]. intros k' [->|Hin]%elem_of_cons; [|auto].
  apply Nat.leb_le. unfold must in Hk. by destruct (_ <=? _)%nat.
Qed.

Lemma list_all_ext {T} fuel (q q' : option PageRequest -> res (list T * option string)) limit key :
  (forall p, q p = q' p) -> list_all fuel q limit key = list_all fuel q' limit key.
Proof.
  intros E. revert key. induction fuel as [|fuel IH]; intros key; cbn; rewrite E; [done|].
  destruct (q' _) as [[l [k|]]|e|p]; cbn; [by rewrite IH|done..].
Qed.

Section ContractPages.
Context {B A X : Type} `{Bech32Laws} `{AddrPrefixLaws} `{PaginationLaws}.

(** Paging through an index gives the addresses it holds. *)
Lemma index_pages (ix : gmap string unit) pre l fuel limit : addresses_of (iter_prefix pre ix).*1 = Ok l ->
  (length l <= fuel)%nat ->
  list_all fuel (listing (iter_prefix pre ix) (fun key _ => indexed_address key)) limit None = Ok (map address_text l).
Proof.
  intros E Hf. apply addresses_of_Ok in E as [-> Hlen].
  assert (Hr : forall k (v : unit), (k, v) ∈ iter_prefix pre ix ->
    indexed_address k = Ok ((fun kv : string * unit => address_text (key_address kv.1)) (k, v))).
  { intros k v Hin. unfold indexed_address, must. rewrite (proj2 (Nat.leb_le _ _)); [done|].
    apply Hlen. apply list_elem_of_fmap. by exists (k, v). }
  rewrite (list_rest _ (fun key _ => indexed_address key) _ Hr fuel limit [] (iter_prefix pre ix)).
  - f_equal. rewrite !map_map. done.
  - apply iter_prefix_keys_nodup.
  - apply Forall_forall. intros kv Hin Ek.
    assert (Hin' : kv.1 ∈ (iter_prefix pre ix).*1).
    { apply list_elem_of_fmap_2. destruct (iter_prefix pre ix); [done|]. cbn in Hin. set_solver. }
    apply Hlen in Hin'. rewrite Ek in Hin'. unfold AbsoluteTxPositionLen in Hin'. cbn in Hin'. lia.
  - done.
  - by rewrite !length_map in Hf.
  - done.
Qed.

(** C28: paging through the contracts of a code or of a creator, whatever limit a
    client asks for, lists exactly the contracts that run the code, or that the
    creator made, each once, in a consistent registry, after at most as many
    requests as there are contracts.  The contracts of a code come in the order in
    which they took it, those of a creator in the order in which they were created. *)
Theorem contract_pages_exact (s : Chain B A X) limit fuel : consistent s -> (size (cinfos (ch_con s)) <= fuel)%nat ->
  (forall id, is_u64 id -> id <> 0 -> exists l, list_all fuel (ContractsByCode s id) limit None = Ok (map address_text l.*2) /\
     NoDup l.*2 /\ (forall addr, addr ∈ l.*2 <-> exists info, cinfos (ch_con s) !! addr = Some info /\ CodeID info = id) /\
     (forall p addr, (p, addr) ∈ l -> Updated <$> last (GetContractHistory addr (ch_con s)) = Some (Some p)) /\
     StronglySorted (fun x y => LessThan (Some y.1) (Some x.1) = false) l) /\
  (forall text creator, AccAddressFromBech32 text = Ok creator -> valid_addr creator -> exists l,
     list_all fuel (ContractsByCreator s text) limit None = Ok (map address_text l.*2) /\
     NoDup l.*2 /\ (forall addr, addr ∈ l.*2 <-> exists info, cinfos (ch_con s) !! addr = Some info /\
       AccAddressFromBech32 (ContractCreator info) = Ok creator) /\
     (forall p addr, (p, addr) ∈ l -> Updated <$> head (GetContractHistory addr (ch_con s)) = Some (Some p)) /\
     StronglySorted (fun x y => LessThan (Some y.1) (Some x.1) = false) l).
Proof.
  intros Hc Hf.
  assert (Hlen : forall l, NoDup l -> (forall addr, addr ∈ l -> is_Some (cinfos (ch_con s) !! addr)) -> (length l <= fuel)%nat).
  { intros l Hnd Hin. etrans; [|exact Hf]. rewrite <- size_dom, <- (size_list_to_set (C:=gset string) l) by done.
    apply subseteq_size. intros a. rewrite elem_of_list_to_set, elem_of_dom. apply Hin. }
  split.
  - intros id Hid Hnz. destruct (code_listing s id Hc Hid) as (l&Hl&Hnd&Hmem&Hpos&Hs). exists l. split_and!; [|done..].
    rewrite <- (index_pages (code_ix (ch_con s)) _ l.*2 fuel limit Hl); [|apply Hlen; [done|]; intros a (i&?&_)%Hmem; eauto].
    apply list_all_ext. intros p. unfold ContractsByCode, nonzero. destruct (Z.eqb_spec id 0); done.
  - intros text creator Ht Hv. destruct (creator_listing s creator Hc Hv) as (l&Hl&Hnd&Hmem&Hpos&Hs). exists l. split_and!; [|done..].
    unfold IterateContractsByCreator in Hl. apply res_bind_Ok in Hl as (pre&Hp&Hl).
    rewrite <- (index_pages (ccreator_ix (ch_con s)) pre l.*2 fuel limit Hl); [|apply Hlen; [done|]; intros a (i&?&_)%Hmem; eauto].
    apply list_all_ext. intros p. unfold ContractsByCreator. rewrite Ht. cbn. rewrite Hp. cbn.
    unfold listing. by destruct (ensurePaginationParams p).
Qed.

End ContractPages.

(** ** Predicted addresses *)

Section Predictions.
Context {B A X G : Type} `{GasMeterOps G} `{Bech32Laws} `{AddressOps} `{JsonOps}.

(** What a prediction gives for the hexadecimal code hash and salt. *)
Lemma build_address_run checksum creator salt init : creator <> ""%string -> salt <> ""%string ->
  (forall msg, init = Some msg -> json_Valid msg = true) ->
  BuildAddressPredictable (mkBuildAddress (hex_encode checksum) (AccAddress_String creator) (hex_encode salt) init) =
    (a ← BuildContractAddressPredictable checksum creator salt (default ""%string init); mret (address_text a)).
Proof.
  intros Hc Hs Hj. unfold BuildAddressPredictable. cbn [BaCodeHash BaCreator BaSalt BaInitArgs].
  rewrite !hex_decode_encode, bech32_roundtrip by done. cbn [wrap_err mbind res_bind]. destruct salt as [|c salt]; [done|].
  cbn [String.length Nat.eqb refuse mbind res_bind]. destruct init as [msg|]; [|done]. unfold RawContractMessage_ValidateBasic.
  by rewrite (Hj msg eq_refl).
Qed.

(** The address a client is told in advance is the address the contract gets:
    the query and the address generator of [Instantiate2] agree on every code
    hash, creator and salt, with the message when it is to be fixed and without
    it otherwise, and on failing: both panic on a code hash that does not have 32
    bytes or a salt that is too long. *)
Theorem build_address_predicts checksum creator salt msg (fixMsg : bool) codeID (r : Registry) :
  creator <> ""%string -> salt <> ""%string -> (fixMsg = true -> json_Valid msg = true) ->
  BuildAddressPredictable (mkBuildAddress (hex_encode checksum) (AccAddress_String creator) (hex_encode salt)
      (if fixMsg then Some msg else None)) =
    match PredictableAddressGenerator creator salt msg fixMsg codeID checksum r with
    | (Ok a, _) => Ok (address_text a)
    | (Err e, _) => Err e
    | (Panic p, _) => Panic p
    end.
Proof.
  intros Hc Hs Hj. rewrite build_address_run; [|done..|destruct fixMsg; [by intros ? [= <-]; apply Hj|done]].
  unfold PredictableAddressGenerator, lift. destruct fixMsg; cbn [default]; unfold default, id;
    by destruct (BuildContractAddressPredictable _ _ _ _).
Qed.

(** A code hash of another length makes the query panic. *)
Lemma build_address_panics checksum creator salt init : creator <> ""%string -> salt <> ""%string ->
  (forall msg, init = Some msg -> json_Valid msg = true) -> String.length checksum <> 32%nat ->
  BuildAddressPredictable (mkBuildAddress (hex_encode checksum) (AccAddress_String creator) (hex_encode salt) init) =
    Panic "invalid checksum".
Proof.
  intros Hc Hs Hj Hl. rewrite build_address_run by done. unfold BuildContractAddressPredictable, must.
  by rewrite (proj2 (Nat.eqb_neq _ _) Hl).
Qed.

End Predictions.

(** ** Smart queries from outside *)

Section Outside.
Context {B A X G P : Type} `{BankView B} `{StakingView X} `{DistributionView X} `{ChannelView X} `{GasMeterLaws G}
  `{Bech32Laws} `{AddressOps} `{JsonOps} `{SdkCoins} `{SdkMath} `{CircuitVM} `{GenesisVM} `{ProtoOps P} `{GoErrors}
  `{QueryVM}.
Context (cfg : Config) (max : Z) (options : option (PluginOptions B A X G P)).
Context (GasRemaining : G -> Z) (queryGasLimit : Z).

Abbreviation S := (Chain B A X).
Abbreviation W := (World S G).

(** A smart query of a client always returns: it never panics, whatever the
    contract does and whatever the gas limit, and leaves state, events and the
    gas of the caller untouched. *)
Theorem smart_query_isolated ctx address queryData (w : W) r w' :
  SmartContractState cfg max options GasRemaining queryGasLimit ctx address queryData w = (r, w') ->
  returns r /\ store w' = store w /\ evs w' = evs w /\ meter w' = meter w.
Proof.
  unfold SmartContractState. destruct (RawContractMessage_ValidateBasic queryData) as [u|e|p] eqn:Ev.
  2: by intros [= <- <-].
  2: { exfalso. revert Ev. unfold RawContractMessage_ValidateBasic, ensure. by destruct (json_Valid _). }
  destruct (AccAddressFromBech32 address) as [a|e|p] eqn:Ea; [|by intros [= <- <-]|].
  2: { exfalso. by eapply bech32_no_panic. }
  destruct (keeper_QuerySmart _ _ _ _ _ _ _) as [x w1] eqn:E. intros [= <- <-]. unfold keeper_QuerySmart in E.
  cbn [QuerySmart] in E. apply within_level in E as (Hs&He&_). cbn. split_and!; [|done..].
  destruct x as [[?|[?|]]|?|?]; cbn; try done. by case_bool_decide.
Qed.

End Outside.

(** ** Witnesses *)

Module GrpcRef.

(** Pages cut from the list. *)
#[export] Instance pagination : Pagination := {|
  FilteredPaginate V R l req f :=
    forM (take (Z.to_nat (PageLimit req)) (page_from req l)) (fun kv => f kv.1 kv.2 true;; mret tt);;
    mret (option_map fst (head (drop (Z.to_nat (PageLimit req)) (page_from req l)))) |}.
#[export] Instance pagination_laws : PaginationLaws.
Proof. by split. Qed.

End GrpcRef.

Module GrpcWitness.
Import Ref RefLaws RefBank RefBankLaws CircuitRef ChainRef ServerRef AppRef QueryRef GrpcRef QueryWitness.

(** The one contract of a chain is listed under its code. *)
Lemma contract_pages_exact_witness : exists l,
  list_all 1 (ContractsByCode (store world1) 1) 1 None = Ok (map address_text l) /\ NoDup l /\ victim ∈ l.
Proof.
  assert (Hsz : (size (cinfos (ch_con (store world1))) <= 1)%nat) by (by vm_compute; lia).
  destruct (proj1 (contract_pages_exact (store world1) 1 1 world1_consistent Hsz) 1) as (l&Hl&Hnd&Hmem&_); [unfold is_u64; lia|done|].
  exists l.*2. split_and!; [done..|]. apply Hmem.
  assert (H : exists i, cinfos (ch_con (store world1)) !! victim = Some i /\ CodeID i = 1); [|exact H].
  refine (ex_intro _ (default (mkContractInfo 0 "" "" "" None "" None "") (cinfos (ch_con (store world1)) !! victim)) _).
  split; by vm_compute.
Defined.

Lemma build_address_predicts_witness :
  BuildAddressPredictable (mkBuildAddress (hex_encode hash32) "addrbob" (hex_encode "salt") None) =
    match PredictableAddressGenerator "bob" "salt" "{}" false 1 hash32 empty_registry with
    | (Ok a, _) => Ok (address_text a) | (Err e, _) => Err e | (Panic p, _) => Panic p end /\
  is_ok (BuildAddressPredictable (mkBuildAddress (hex_encode hash32) "addrbob" (hex_encode "salt") None)) = true.
Proof.
  split; [|by vm_compute].
  exact (build_address_predicts hash32 "bob" "salt" "{}" false 1 empty_registry ltac:(done) ltac:(done) ltac:(done)).
Defined.

(** A contract that queries itself is answered with the gas it may use. *)
Lemma smart_query_isolated_witness : exists r w',
  SmartContractState (P:=string) cfg5 3 None (fun m => limit m - consumed m) 3000000 qctx ("addr" ++ counter) "loop" asked = (r, w') /\
  returns r /\ store w' = store asked.
Proof.
  destruct (SmartContractState (P:=string) cfg5 3 None (fun m => limit m - consumed m) 3000000 qctx ("addr" ++ counter) "loop" asked)
    as [r w'] eqn:E. exists r, w'. split; [done|].
  destruct (smart_query_isolated (P:=string) cfg5 3 None (fun m => limit m - consumed m) 3000000 qctx _ _ _ _ _ E) as (?&?&_). done.
Defined.

End GrpcWitness.
