(* ===== verification/VmHost.v ===== *)
(** * wasmvm: the host side of the virtual machine

    What a running contract can call (wasmvm/internal/api): the store, iterators
    over it, addresses and queries.  Arguments and results cross the boundary to
    the machine in memory described by pointers and lengths, which are checked;
    panics of the host become error codes; iterators live in frames, one for each
    call of a contract, and are closed when the call ends.  The machine itself, the
    store and the memory allocator are parameters. *)

From Stdlib Require Import ZArith Lia.
From stdpp Require Import base gmap strings list pretty.
From S2P Require Import Prelude Sdk GoLib Varint WasmGas WasmLifecycle WasmQueryTypes.

Abbreviation bytes := (list Z).

(** ** Memory shared with the machine

    A pointer is nil or leads to the bytes that follow it. *)

Record UnmanagedVector := mkVec { is_none : bool; v_ptr : option bytes; v_len : Z; v_cap : Z }.
Record U8SliceView := mkView { view_none : bool; view_ptr : option bytes; view_len : Z }.
Record ByteSliceView := mkByteView { is_nil : bool; b_ptr : option bytes; b_len : Z }.

Definition MaxInt32 : Z := 2 ^ 31 - 1.

(** A panic with a value of type [ffiBoundError]. *)
Definition ffiBoundError : string := "ffiBoundError".

(** [C.GoBytes]. *)
Definition GoBytes (ptr : option bytes) (n : Z) : bytes := take (Z.to_nat n) (default [] ptr).

Definition makeView (s : option bytes) : ByteSliceView :=
  match s with
  | None => mkByteView true None 0
  | Some s => if len s =? 0 then mkByteView false None 0 else mkByteView false (Some s) (len s)
  end.

Definition uninitializedUnmanagedVector : UnmanagedVector := mkVec false None 0 0.

Definition copyAndDestroyUnmanagedVector (v : UnmanagedVector) : res (option bytes) :=
  if is_none v then Ok None
  else if v_cap v =? 0 then
    must (v_len v =? 0) ffiBoundError;;
    mret (Some [])
  else
    must (negb (bool_decide (v_ptr v = None) && negb (v_len v =? 0))) ffiBoundError;;
    must (negb (v_cap v <? v_len v)) ffiBoundError;;
    must (negb (MaxInt32 <? v_len v)) ffiBoundError;;
    mret (Some (GoBytes (v_ptr v) (v_len v))).

Definition copyU8Slice (view : U8SliceView) : res (option bytes) :=
  if view_none view then Ok None
  else if view_len view =? 0 then Ok (Some [])
  else
    must (negb (bool_decide (view_ptr view = None))) ffiBoundError;;
    must (negb (MaxInt32 <? view_len view)) ffiBoundError;;
    mret (Some (GoBytes (view_ptr view) (view_len view))).

(** [C.new_unmanaged_vector(nil, ptr, length)] copies into memory of the machine. *)
Class VectorOps := { new_unmanaged_vector : bool -> option bytes -> Z -> UnmanagedVector }.

Class VectorLaws `{VectorOps} : Prop := {
  new_vector_none : is_none (new_unmanaged_vector true None 0) = true;
  new_vector_some ptr n : (ptr = None -> n = 0) -> 0 <= n -> n <= len (default [] ptr) ->
    let v := new_unmanaged_vector false ptr n in
    is_none v = false /\ v_len v = n /\ v_len v <= v_cap v
    /\ (0 < n -> exists memory, v_ptr v = Some memory /\ take (Z.to_nat n) memory = take (Z.to_nat n) (default [] ptr)) }.

Definition newUnmanagedVector `{VectorOps} (data : option bytes) : UnmanagedVector :=
  match data with
  | None => new_unmanaged_vector true None 0
  | Some d => if len d =? 0 then new_unmanaged_vector false None 0 else new_unmanaged_vector false (Some d) (len d)
  end.

(** ** Error codes *)

Inductive GoError :=
| GoError_None | GoError_Panic | GoError_BadArgument | GoError_OutOfGas | GoError_CannotSerialize | GoError_User.

#[export] Instance GoError_eq_dec : EqDecision GoError.
Proof. solve_decision. Defined.

Definition recoverPanic (rec : string) : GoError :=
  if bool_decide (rec = ffiBoundError) then GoError_BadArgument
  else if bool_decide (rec ∈ ["ErrorOutOfGas"; "ErrorGasOverflow"; "ErrorNegativeGasConsumed"]%string) then GoError_OutOfGas
  else GoError_Panic.

(** ** The store of the chain

    [H] is the state behind the interfaces [KVStore], [Iterator] and [GasMeter];
    [K] are stores and [I] iterators, which are references into [H]. *)
Class HostOps (H K I : Type) := {
  gm_GasConsumed : H -> Z;
  querier_GasConsumed : H -> Z;
  kv_Get : K -> option bytes -> M H (option bytes);
  kv_Set : K -> option bytes -> option bytes -> M H unit;
  kv_Delete : K -> option bytes -> M H unit;
  kv_Iterator : K -> option bytes -> option bytes -> M H I;
  kv_ReverseIterator : K -> option bytes -> option bytes -> M H I;
  it_Valid : I -> H -> bool;
  it_Key : I -> H -> res (option bytes);
  it_Value : I -> H -> res (option bytes);
  it_Error : I -> H -> option string;
  it_Next : I -> M H unit;
  it_Close : I -> M H unit }.

(** [types.GoAPI]: a result, its cost and an error. *)
Record GoAPI := mkGoAPI {
  HumanizeAddress : option (option bytes -> string * Z * option string);
  CanonicalizeAddress : option (string -> option bytes * Z * option string);
  ValidateAddress : option (string -> Z * option string) }.

(** The package: the chain, the frames of the calls in progress and the counter
    that numbers calls. *)
Record Api (H I : Type) := mkApi { host : H; iteratorFrames : gmap Z (list I); latestCallID : Z }.
Arguments mkApi {H I}. Arguments host {H I}. Arguments iteratorFrames {H I}. Arguments latestCallID {H I}.

Definition frameLenLimit : Z := 32768.

Record DBState (K : Type) := mkDB { Store : K; CallID : Z }.
Arguments mkDB {K}. Arguments Store {K}. Arguments CallID {K}.

Record IteratorReference := mkRef { call_id : Z; iterator_id : Z }.

(** Where a callback writes its results; a nil pointer is [None]. *)
Record Outs := mkOuts {
  o_used : option Z; o_key : option UnmanagedVector; o_val : option UnmanagedVector;
  o_iter : option (option IteratorReference); o_err : option UnmanagedVector }.

Definition iteratorIdToIndex (id : Z) : Z * bool :=
  if (id <? 1) || (MaxInt32 <? id) then (777777777, false) else (id - 1, true).

Definition indexToIteratorID (index : Z) : Z * bool :=
  if (index <? 0) || (MaxInt32 <? index) then (888888888, false) else (index + 1, true).

Section Host.
Context {H K I : Type} `{HostOps H K I} `{VectorOps}.
Abbreviation A := (Api H I).

(** *** Frames *)

Definition in_host {T} (m : M H T) : M A T := zoom host (fun h a => mkApi h (iteratorFrames a) (latestCallID a)) m.
Definition frame_of (callID : Z) (a : A) : list I := default [] (iteratorFrames a !! callID).
Definition set_frames (f : gmap Z (list I) -> gmap Z (list I)) : M A unit :=
  modify (fun a => mkApi (host a) (f (iteratorFrames a)) (latestCallID a)).

Definition startCall : M A Z :=
  modify (fun a => mkApi (host a) (iteratorFrames a) (u64 (latestCallID a + 1)));;
  gets latestCallID.

Definition removeFrame (callID : Z) : M A (list I) :=
  remove ← gets (frame_of callID);
  set_frames (delete callID);;
  mret remove.

(** The error [Close] returns is ignored. *)
Definition close (iter : I) : M A unit := fun a =>
  match in_host (it_Close iter) a with (Err _, a') => (Ok tt, a') | r => r end.

Definition endCall (callID : Z) : M A unit :=
  remove ← removeFrame callID;
  forM remove close.

(** [callID := startCall(); defer endCall(callID)]. *)
Definition deferred_end {T} (callID : Z) (body : M A T) : M A T := fun a =>
  let '(r, a') := body a in
  match endCall callID a' with (Panic p, a'') => (Panic p, a'') | (_, a'') => (r, a'') end.
Definition in_call {T} (body : Z -> M A T) : M A T :=
  callID ← startCall;
  deferred_end callID (body callID).

Definition storeIterator (callID : Z) (it : I) (limit : Z) : M A Z :=
  frame ← gets (frame_of callID);
  let new_index := len frame in
  refuseM (limit <=? new_index) "reached iterator limit";;
  set_frames (insert callID (frame ++ [it]));;
  let '(iterator_id, ok) := indexToIteratorID new_index in
  ensureM ok "could not convert index to iterator ID";;
  mret iterator_id.

Definition retrieveIterator (callID iteratorID : Z) (a : A) : option I :=
  let '(indexInFrame, ok) := iteratorIdToIndex iteratorID in
  if negb ok then None else frame_of callID a !! Z.to_nat indexInFrame.

Definition buildIterator (callID : Z) (it : I) : M A IteratorReference :=
  iteratorID ← storeIterator callID it frameLenLimit;
  mret (mkRef callID iteratorID).

(** *** Reading an iterator *)

(** The current part, then one step forward. *)
Definition readIteratorPart {T} (iter : I) (part : I -> H -> res T) : M H (string + option T) :=
  valid ← gets (it_Valid iter);
  if negb valid then mret (inr None)
  else
    h ← get;
    out ← lift (part iter h);
    err ← gets (it_Error iter);
    match err with
    | Some e => mret (inl e)
    | None =>
        it_Next iter;;
        valid ← gets (it_Valid iter);
        if negb valid then mret (inr (Some out))
        else
          err ← gets (it_Error iter);
          match err with Some e => mret (inl e) | None => mret (inr (Some out)) end
    end.

Definition readIteratorItem (iter : I) : M H (string + option (option bytes * option bytes)) :=
  readIteratorPart iter (fun iter h => k ← it_Key iter h; v ← it_Value iter h; mret (k, v)).

(** *** Callbacks

    A callback runs on the package and the places for its results. *)

Definition Callback : Type := A * Outs -> GoError * (A * Outs).

(** [defer recoverPanic(&ret)]. *)
Definition recovered (m : M (A * Outs) GoError) : Callback := fun s =>
  match m s with
  | (Ok ret, s') => (ret, s')
  | (Err _, s') => (GoError_Panic, s')
  | (Panic rec, s') => (recoverPanic rec, s')
  end.

Definition on_api {T} (m : M A T) : M (A * Outs) T := zoom fst (fun a s => (a, snd s)) m.
Definition write (f : Outs -> Outs) : M (A * Outs) unit := modify (fun s => (fst s, f (snd s))).
Definition write_used (n : Z) (o : Outs) : Outs := mkOuts (option_map (fun _ => n) (o_used o)) (o_key o) (o_val o) (o_iter o) (o_err o).
Definition write_key (v : UnmanagedVector) (o : Outs) : Outs := mkOuts (o_used o) (option_map (fun _ => v) (o_key o)) (o_val o) (o_iter o) (o_err o).
Definition write_val (v : UnmanagedVector) (o : Outs) : Outs := mkOuts (o_used o) (o_key o) (option_map (fun _ => v) (o_val o)) (o_iter o) (o_err o).
Definition write_iter (r : IteratorReference) (o : Outs) : Outs := mkOuts (o_used o) (o_key o) (o_val o) (option_map (fun _ => Some r) (o_iter o)) (o_err o).
Definition write_err (v : UnmanagedVector) (o : Outs) : Outs := mkOuts (o_used o) (o_key o) (o_val o) (o_iter o) (option_map (fun _ => v) (o_err o)).

(** [accountUsedGas], deferred: it also runs when the rest panics. *)
Definition accountUsedGas (GasConsumed : H -> Z) (rest : M (A * Outs) GoError) : M (A * Outs) GoError := fun s =>
  let gasBefore := GasConsumed (host (fst s)) in
  let '(r, s') := rest s in
  let after := GasConsumed (host (fst s')) in
  (r, (fst s', write_used (if gasBefore <=? after then after - gasBefore else 0) (snd s'))).

Definition given {T} (p : option T) : bool := bool_decide (is_Some p).
(** A place that would be overwritten although it holds something. *)
Definition fresh_place (p : option UnmanagedVector) : bool := match p with Some v => is_none v | None => true end.
Definition override : string := "Got a non-none UnmanagedVector we're about to override.".
Definition mustM (b : bool) (p : string) : M (A * Outs) unit := lift (must b p).

(** A check of pointers, then the body. *)
Definition with_pointers (ok : Outs -> bool) (body : M (A * Outs) GoError) : Callback := recovered (
  outs ← gets snd;
  if negb (ok outs) then mret GoError_BadArgument else body).

Definition user_error (err : string) : M (A * Outs) GoError :=
  write (write_err (newUnmanagedVector (Some (string_to_bytes err))));;
  mret GoError_User.

Definition cGet (ptr : option (DBState K)) (gasMeter : bool) (key : U8SliceView) : Callback :=
  with_pointers (fun o => given ptr && gasMeter && given (o_used o) && given (o_val o) && given (o_err o)) (
    outs ← gets snd;
    mustM (fresh_place (o_val outs)) override;;
    k ← lift (copyU8Slice key);
    accountUsedGas gm_GasConsumed (
      match ptr with
      | None => panic "nil pointer dereference"
      | Some state =>
          v ← on_api (in_host (kv_Get (Store state) k));
          write (write_val (newUnmanagedVector v));;
          mret GoError_None
      end)).

Definition cSet (ptr : option (DBState K)) (gasMeter : bool) (key val : U8SliceView) : Callback :=
  with_pointers (fun o => given ptr && gasMeter && given (o_used o) && given (o_err o)) (
    k ← lift (copyU8Slice key);
    v ← lift (copyU8Slice val);
    accountUsedGas gm_GasConsumed (
      match ptr with
      | None => panic "nil pointer dereference"
      | Some state => on_api (in_host (kv_Set (Store state) k v));; mret GoError_None
      end)).

Definition cDelete (ptr : option (DBState K)) (gasMeter : bool) (key : U8SliceView) : Callback :=
  with_pointers (fun o => given ptr && gasMeter && given (o_used o) && given (o_err o)) (
    k ← lift (copyU8Slice key);
    accountUsedGas gm_GasConsumed (
      match ptr with
      | None => panic "nil pointer dereference"
      | Some state => on_api (in_host (kv_Delete (Store state) k));; mret GoError_None
      end)).

(** An error of [buildIterator] is reported to the contract. *)
Definition keep_iterator (callID : Z) (iter : I) : M (A * Outs) GoError := fun s =>
  match on_api (buildIterator callID iter) s with
  | (Ok ref, s') => (write (write_iter ref);; mret GoError_None) s'
  | (Err e, s') => user_error e s'
  | (Panic p, s') => (Panic p, s')
  end.

Definition cScan (ptr : option (DBState K)) (gasMeter : bool) (start end_ : U8SliceView) (order : Z) : Callback :=
  with_pointers (fun o => given ptr && gasMeter && given (o_used o) && given (o_iter o) && given (o_err o)) (
    outs ← gets snd;
    mustM (fresh_place (o_err outs)) override;;
    match ptr with
    | None => panic "nil pointer dereference"
    | Some state =>
        s ← lift (copyU8Slice start);
        e ← lift (copyU8Slice end_);
        accountUsedGas gm_GasConsumed (
          if order =? 1 then iter ← on_api (in_host (kv_Iterator (Store state) s e)); keep_iterator (CallID state) iter
          else if order =? 2 then iter ← on_api (in_host (kv_ReverseIterator (Store state) s e)); keep_iterator (CallID state) iter
          else mret GoError_BadArgument)
    end).

Definition cNext (ref : IteratorReference) (gasMeter : bool) : Callback :=
  with_pointers (fun o => negb (call_id ref =? 0) && gasMeter && given (o_used o) && given (o_key o) && given (o_val o) && given (o_err o)) (
    outs ← gets snd;
    mustM (fresh_place (o_key outs) && fresh_place (o_val outs)) override;;
    found ← on_api (gets (retrieveIterator (call_id ref) (iterator_id ref)));
    match found with
    | None => mret GoError_BadArgument
    | Some iter =>
        accountUsedGas gm_GasConsumed (
          item ← on_api (in_host (readIteratorItem iter));
          match item with
          | inl err => user_error err
          | inr None => mret GoError_None
          | inr (Some (k, v)) =>
              write (write_key (newUnmanagedVector k));;
              write (write_val (newUnmanagedVector v));;
              mret GoError_None
          end)
    end).

(** The place for the part read is that of [o_key] or of [o_val]. *)
Definition nextPart (ref : IteratorReference) (gasMeter : bool) (output : Outs -> option UnmanagedVector)
    (put : UnmanagedVector -> Outs -> Outs) (valFn : I -> H -> res (option bytes)) : Callback :=
  with_pointers (fun o => negb (call_id ref =? 0) && gasMeter && given (o_used o) && given (output o) && given (o_err o)) (
    outs ← gets snd;
    mustM (fresh_place (output outs)) override;;
    found ← on_api (gets (retrieveIterator (call_id ref) (iterator_id ref)));
    match found with
    | None => mret GoError_BadArgument
    | Some iter =>
        accountUsedGas gm_GasConsumed (
          item ← on_api (in_host (readIteratorPart iter valFn));
          match item with
          | inl err => user_error err
          | inr None => mret GoError_None
          | inr (Some out) => write (put (newUnmanagedVector out));; mret GoError_None
          end)
    end).

Definition cNextKey (ref : IteratorReference) (gasMeter : bool) : Callback := nextPart ref gasMeter o_key write_key it_Key.
Definition cNextValue (ref : IteratorReference) (gasMeter : bool) : Callback := nextPart ref gasMeter o_val write_val it_Value.

(** [*used_gas = cost] through a pointer that was not checked. *)
Definition store_cost (cost : Z) : M (A * Outs) unit :=
  outs ← gets snd;
  mustM (given (o_used outs)) "nil pointer dereference";;
  write (write_used cost).

(** A function of the API through pointers that were not checked. *)
Definition api_function {T} (ptr : option GoAPI) (f : GoAPI -> option T) : M (A * Outs) T :=
  match ptr ≫= f with Some g => mret g | None => panic "nil pointer dereference" end.

Definition cHumanizeAddress (ptr : option GoAPI) (src : U8SliceView) : Callback :=
  with_pointers (fun o => given (o_val o) && given (o_err o)) (
    outs ← gets snd;
    mustM (fresh_place (o_val outs) && fresh_place (o_err outs)) override;;
    s ← lift (copyU8Slice src);
    f ← api_function ptr HumanizeAddress;
    let '(h, cost, err) := f s in
    store_cost cost;;
    match err with
    | Some e => user_error e
    | None =>
        mustM (negb (String.length h =? 0)%nat) "`api.HumanizeAddress()` returned an empty string";;
        write (write_val (newUnmanagedVector (Some (string_to_bytes h))));;
        mret GoError_None
    end).

Definition cCanonicalizeAddress (ptr : option GoAPI) (src : U8SliceView) : Callback :=
  with_pointers (fun o => given (o_val o) && given (o_err o)) (
    outs ← gets snd;
    mustM (fresh_place (o_val outs) && fresh_place (o_err outs)) override;;
    s ← lift (copyU8Slice src);
    f ← api_function ptr CanonicalizeAddress;
    let '(c, cost, err) := f (bytes_to_string (default [] s)) in
    store_cost cost;;
    match err with
    | Some e => user_error e
    | None =>
        mustM (negb (len (default [] c) =? 0)) "`api.CanonicalizeAddress()` returned an empty string";;
        write (write_val (newUnmanagedVector c));;
        mret GoError_None
    end).

Definition cValidateAddress (ptr : option GoAPI) (src : U8SliceView) : Callback :=
  with_pointers (fun o => given (o_err o)) (
    outs ← gets snd;
    mustM (fresh_place (o_err outs)) override;;
    s ← lift (copyU8Slice src);
    f ← api_function ptr ValidateAddress;
    let '(cost, err) := f (bytes_to_string (default [] s)) in
    store_cost cost;;
    match err with Some e => user_error e | None => mret GoError_None end).

(** *** Queries *)

(** A querier works on the package, since a query may run a contract.  Requests and
    results are converted by [encoding/json]. *)
Definition Querier : Type := QueryRequest -> Z -> M A (GoErr + option string).

Class QueryJson := {
  json_Unmarshal_request : bytes -> string + QueryRequest;
  json_Marshal_result : QuerierResult -> string + bytes }.
Context `{QueryJson}.

Definition RustQuery (querier : Querier) (binRequest : option bytes) (gasLimit : Z) : M A QuerierResult :=
  match json_Unmarshal_request (default [] binRequest) with
  | inl err => mret (SystemFailed (InvalidRequest err (bytes_to_string (default [] binRequest))))
  | inr request => r ← querier request gasLimit; mret (ToQuerierResult r)
  end.

Definition cQueryExternal (ptr : option Querier) (gasLimit : Z) (request : U8SliceView) : Callback :=
  with_pointers (fun o => given ptr && given (o_used o) && given (o_val o) && given (o_err o)) (
    outs ← gets snd;
    mustM (fresh_place (o_val outs) && fresh_place (o_err outs)) override;;
    req ← lift (copyU8Slice request);
    accountUsedGas querier_GasConsumed (
      match ptr with
      | None => panic "nil pointer dereference"
      | Some querier =>
          result ← on_api (RustQuery querier req gasLimit);
          match json_Marshal_result result with
          | inl err =>
              write (write_err (newUnmanagedVector (Some (string_to_bytes err))));;
              mret GoError_CannotSerialize
          | inr bz => write (write_val (newUnmanagedVector (Some bz)));; mret GoError_None
          end
      end)).

(** *** A contract in the machine

    What the machine does during a call is a tree of callbacks: each is answered by
    a code and by what was written to the places the machine has provided. *)

Inductive Request :=
| Get_ (key : U8SliceView) | Set_ (key val : U8SliceView) | Delete_ (key : U8SliceView)
| Scan_ (start end_ : U8SliceView) (order : Z)
| Next_ (ref : IteratorReference) | NextKey_ (ref : IteratorReference) | NextValue_ (ref : IteratorReference)
| Humanize_ (src : U8SliceView) | Canonicalize_ (src : U8SliceView) | Validate_ (src : U8SliceView)
| Query_ (gasLimit : Z) (request : U8SliceView).

Inductive Run (R : Type) := Done (r : R) | Call (rq : Request) (state meter : bool) (outs : Outs) (k : GoError -> Outs -> Run R).

Section Calls.
Context (db : DBState K) (api : GoAPI) (querier : Querier).

(** The callbacks as the machine has them in its tables; [state] and [meter] say
    whether it passes the pointers it was given or nil. *)
Definition callback (rq : Request) (state meter : bool) : Callback :=
  let on {T} (x : T) := if state then Some x else None in
  match rq with
  | Get_ key => cGet (on db) meter key
  | Set_ key val => cSet (on db) meter key val
  | Delete_ key => cDelete (on db) meter key
  | Scan_ start end_ order => cScan (on db) meter start end_ order
  | Next_ ref => cNext ref meter
  | NextKey_ ref => cNextKey ref meter
  | NextValue_ ref => cNextValue ref meter
  | Humanize_ src => cHumanizeAddress (on api) src
  | Canonicalize_ src => cCanonicalizeAddress (on api) src
  | Validate_ src => cValidateAddress (on api) src
  | Query_ gasLimit request => cQueryExternal (on querier) gasLimit request
  end.

Fixpoint run {R} (t : Run R) : M A R :=
  match t with
  | Done _ r => mret r
  | Call _ rq state meter outs k => fun a =>
      let '(code, (a', outs')) := callback rq state meter (a, outs) in
      run (k code outs') a'
  end.

End Calls.

End Host.

Arguments Done {R}. Arguments Call {R}.

(** ** Bytes across the boundary *)

(** The view of a slice of Go, as the machine makes one of its own slices. *)
Definition u8ViewFromBytes (s : option bytes) : U8SliceView :=
  match s with
  | None => mkView true None 0
  | Some s => if len s =? 0 then mkView false None 0 else mkView false (Some s) (len s)
  end.

Lemma take_all {T} (l : list T) : take (Z.to_nat (len l)) l = l.
Proof. unfold len. rewrite Nat2Z.id. by apply take_ge. Qed.

Lemma len_zero {T} (l : list T) : len l = 0 -> l = [].
Proof. destruct l; [done|]. unfold len. cbn. lia. Qed.

Lemma copy_view s : len (default [] s) <= MaxInt32 -> copyU8Slice (u8ViewFromBytes s) = Ok s.
Proof.
  destruct s as [s|]; [|done]. cbn. intros Hl. destruct (Z.eqb_spec (len s) 0) as [E|]; [by rewrite (len_zero s E)|].
  unfold copyU8Slice. cbn. destruct (Z.eqb_spec (len s) 0); [done|]. destruct (Z.ltb_spec MaxInt32 (len s)); [lia|].
  cbn [negb must mbind res_bind]. unfold GoBytes. cbn [default]. by rewrite take_all.
Qed.

Lemma copy_vector `{VectorLaws} d : len (default [] d) <= MaxInt32 -> copyAndDestroyUnmanagedVector (newUnmanagedVector d) = Ok d.
Proof.
  unfold newUnmanagedVector. destruct d as [d|]; cbn; intros Hl; unfold copyAndDestroyUnmanagedVector; [|by rewrite new_vector_none].
  assert (0 <= len d) by (unfold len; lia). destruct (Z.eqb_spec (len d) 0) as [E|].
  - destruct (new_vector_some None 0) as (-> & -> & Hc & _); [done|lia|done|]. rewrite (len_zero d E).
    destruct (v_cap _ =? 0); [done|]. destruct (Z.ltb_spec (v_cap (new_unmanaged_vector false None 0)) 0); [lia|].
    by rewrite andb_false_r.
  - destruct (new_vector_some (Some d) (len d)) as (-> & -> & Hc & Hm); [done|lia|cbn; lia|]. cbn in Hm.
    destruct (Hm ltac:(lia)) as (memory & -> & Ht). destruct (Z.eqb_spec (v_cap (new_unmanaged_vector false (Some d) (len d))) 0); [lia|].
    destruct (Z.ltb_spec (v_cap (new_unmanaged_vector false (Some d) (len d))) (len d)); [lia|].
    destruct (Z.ltb_spec MaxInt32 (len d)); [lia|]. cbn. unfold GoBytes. cbn. by rewrite Ht, take_all.
Qed.

(** What is read lies within what was announced, and anything else is refused. *)
Definition within_bounds (r : res (option bytes)) (n : Z) : Prop :=
  match r with
  | Ok (Some b) => len b <= Z.max n 0 /\ n <= MaxInt32
  | Ok None => True
  | Err _ => False
  | Panic p => p = ffiBoundError
  end.

Lemma GoBytes_len p n : len (GoBytes p n) <= Z.max n 0.
Proof. unfold GoBytes, len. rewrite length_take. lia. Qed.

(** Slices of up to 2^31-1 bytes cross the boundary in both directions
    unchanged, with nil and empty kept apart; whatever lengths and pointers the
    machine passes, not more than the announced bytes are read, nothing beyond the
    capacity of a vector or 2^31-1 bytes is accepted, and a refusal is reported as a
    bad argument. *)
Theorem bytes_cross `{VectorLaws} d view v : len (default [] d) <= MaxInt32 ->
  copyAndDestroyUnmanagedVector (newUnmanagedVector d) = Ok d /\ copyU8Slice (u8ViewFromBytes d) = Ok d
  /\ within_bounds (copyU8Slice view) (view_len view)
  /\ within_bounds (copyAndDestroyUnmanagedVector v) (v_len v)
  /\ (v_cap v < v_len v -> is_none v = false -> copyAndDestroyUnmanagedVector v = Panic ffiBoundError)
  /\ recoverPanic ffiBoundError = GoError_BadArgument.
Proof.
  intros Hd. split_and!; [by apply copy_vector|by apply copy_view| | | |done].
  - unfold copyU8Slice. destruct (view_none view); [done|]. destruct (Z.eqb_spec (view_len view) 0) as [E|].
    { rewrite E. by split; vm_compute. }
    destruct (negb (bool_decide _)); [|done]. cbn. destruct (Z.ltb_spec MaxInt32 (view_len view)); [done|].
    split; [apply GoBytes_len|lia].
  - unfold copyAndDestroyUnmanagedVector. destruct (is_none v); [done|]. destruct (v_cap v =? 0).
    { destruct (Z.eqb_spec (v_len v) 0) as [E|]; [|done]. rewrite E. by split; vm_compute. }
    destruct (negb (_ && _)); [|done]. destruct (Z.ltb_spec (v_cap v) (v_len v)); [done|].
    destruct (Z.ltb_spec MaxInt32 (v_len v)); [done|]. split; [apply GoBytes_len|lia].
  - intros Hc Hn. unfold copyAndDestroyUnmanagedVector. rewrite Hn. destruct (Z.eqb_spec (v_cap v) 0) as [E|].
    { by destruct (Z.eqb_spec (v_len v) 0); [lia|]. }
    destruct (negb (_ && _)); [|done]. by destruct (Z.ltb_spec (v_cap v) (v_len v)); [|lia].
Qed.

(** ** Iterators live as long as their call *)

(** The iterators the store has handed out to this package and that are not closed. *)
Class HandedOut (H I : Type) `{Countable I} := { handed_out : H -> gset I }.

(** A call of [Iterator] or [ReverseIterator] that returns hands out a new iterator,
    closing takes it back, and nothing else hands out or takes back any.  A call that
    panics hands out none: what a store opens internally before it panics (the gas
    store opens the iterator of its parent before it charges for the seek) is out of
    reach of this package and not counted here. *)
Class IteratorLaws (H K I : Type) `{HostOps H K I} `{HandedOut H I} : Prop := {
  Get_open k key : Preserves handed_out (kv_Get k key);
  Set_open k key v : Preserves handed_out (kv_Set k key v);
  Delete_open k key : Preserves handed_out (kv_Delete k key);
  Next_open i : Preserves handed_out (it_Next i);
  Iterator_open k s e h r h' : kv_Iterator k s e h = (r, h') ->
    match r with Ok i => (i ∉ handed_out h) /\ handed_out h' = {[i]} ∪ handed_out h | _ => handed_out h' = handed_out h end;
  ReverseIterator_open k s e h r h' : kv_ReverseIterator k s e h = (r, h') ->
    match r with Ok i => (i ∉ handed_out h) /\ handed_out h' = {[i]} ∪ handed_out h | _ => handed_out h' = handed_out h end;
  Close_open i h r h' : it_Close i h = (r, h') -> returns r /\ handed_out h' = handed_out h ∖ {[i]} }.

Section Lifetimes.
Context {H K I : Type} `{IteratorLaws H K I} `{VectorOps} `{QueryJson}.
Abbreviation A := (Api H I).

(** Everything of the package but the data of the chain. *)
Definition view (a : A) : gmap Z (list I) * Z * gset I := (iteratorFrames a, latestCallID a, handed_out (host a)).

Lemma in_host_quiet {T} (m : M H T) : Preserves handed_out m -> Preserves view (in_host m).
Proof. intros Hm. apply (Preserves_zoom view _ _ handed_out m Hm). intros s t E. unfold view. cbn. by rewrite E. Qed.

Lemma on_api_quiet {T} (m : M A T) : Preserves view m -> Preserves (fun s : A * Outs => view (fst s)) (on_api m).
Proof. intros Hm. by apply (Preserves_zoom _ _ _ view m Hm). Qed.

Lemma account_quiet g m : Preserves (fun s : A * Outs => view (fst s)) m ->
  Preserves (fun s : A * Outs => view (fst s)) (accountUsedGas (H := H) (I := I) g m).
Proof. intros Hm s r s'. unfold accountUsedGas. destruct (m s) as [x t] eqn:E. intros [= _ <-]. cbn. by apply Hm in E. Qed.

(** A callback that leaves the view alone. *)
Definition silent (c : Callback (H := H) (I := I)) : Prop := forall s, view (fst (c s).2) = view (fst s).

Lemma pointers_silent ok body : Preserves (fun s : A * Outs => view (fst s)) body -> silent (with_pointers ok body).
Proof.
  intros Hb s. unfold with_pointers, recovered. destruct ((outs ← gets snd; if negb (ok outs) then mret GoError_BadArgument else body) s)
    as [r s'] eqn:E.
  assert (view (fst s') = view (fst s)) as Hv; [|by destruct r].
  assert (Preserves (fun s : A * Outs => view (fst s)) (outs ← gets snd; if negb (ok outs) then mret GoError_BadArgument else body)) as Hp
    by preserves. by apply Hp in E.
Qed.

Lemma read_quiet {T} i (part : I -> H -> res T) : Preserves handed_out (readIteratorPart i part).
Proof. pose proof (Next_open i). unfold readIteratorPart. preserves. Qed.

#[local] Hint Resolve Get_open Set_open Delete_open Next_open in_host_quiet on_api_quiet account_quiet read_quiet : quiet.
#[local] Hint Extern 3 (Preserves _ (write _)) => apply Preserves_modify; reflexivity : quiet.

Lemma user_error_quiet e : Preserves (fun s : A * Outs => view (fst s)) (user_error e).
Proof. unfold user_error. preserves. Qed.
#[local] Hint Resolve user_error_quiet : quiet.

(** Through a callback statement by statement. *)
Ltac quietly := apply pointers_silent; unfold mustM, store_cost, api_function; preserves; repeat (apply account_quiet; preserves).

Lemma get_silent ptr gm key : silent (cGet ptr gm key).
Proof. quietly. Qed.

Lemma set_silent ptr gm key v : silent (cSet ptr gm key v).
Proof. quietly. Qed.

Lemma delete_silent ptr gm key : silent (cDelete ptr gm key).
Proof. quietly. Qed.

Lemma next_silent ref gm : silent (cNext ref gm).
Proof. quietly. Qed.

Lemma next_part_silent ref gm out put f : silent (nextPart ref gm out put f).
Proof. quietly. Qed.

Lemma humanize_silent p src : silent (cHumanizeAddress p src).
Proof. quietly. Qed.

Lemma canonicalize_silent p src : silent (cCanonicalizeAddress p src).
Proof. quietly. Qed.

Lemma validate_silent p src : silent (cValidateAddress p src).
Proof. quietly. Qed.

(** No frame has the number of a call that has not begun. *)
Definition unused (a : A) : Prop := 0 <= latestCallID a /\ forall id, latestCallID a < id -> iteratorFrames a !! id = None.

(** A computation that begins at most [n] calls and leaves frames and iterators as
    they were; numbers do not wrap around. *)
Definition Quiet {T} (n : Z) (m : M A T) : Prop := forall a r a', unused a -> latestCallID a + n < 2 ^ 64 -> m a = (r, a') ->
  iteratorFrames a' = iteratorFrames a /\ handed_out (host a') = handed_out (host a)
  /\ latestCallID a <= latestCallID a' <= latestCallID a + n.

(** During call [c], which began in [a0], with the iterators [fr]. *)
Record inside (c : Z) (a0 a : A) (fr : list I) : Prop := mkInside {
  in_frames : delete c (iteratorFrames a) = iteratorFrames a0;
  in_frame : frame_of c a = fr;
  in_open : handed_out (host a) = handed_out (host a0) ∪ list_to_set fr;
  in_new : list_to_set fr ## handed_out (host a0);
  in_last : c <= latestCallID a;
  in_unused : unused a }.

Lemma inside_view c a0 a a' fr : view a' = view a -> inside c a0 a fr -> inside c a0 a' fr.
Proof.
  unfold view. intros [= Hf Hl Ho] []. split; try done.
  all: unfold frame_of, unused in *; by rewrite ?Hf, ?Hl, ?Ho.
Qed.

Lemma inside_later c a0 a a' fr : iteratorFrames a' = iteratorFrames a -> handed_out (host a') = handed_out (host a) ->
  latestCallID a <= latestCallID a' -> inside c a0 a fr -> inside c a0 a' fr.
Proof.
  intros Hf Ho Hl [? Hfr ? ? Hla [Hn Hu]]. split; [by rewrite Hf| |by rewrite Ho|done|lia|].
  - unfold frame_of in *. by rewrite Hf.
  - split; [lia|]. intros id Hid. rewrite Hf. apply Hu. lia.
Qed.

(** A new iterator joins the frame. *)
Lemma build_inside c (a : A) fr i : frame_of c a = fr -> len fr < frameLenLimit ->
  buildIterator c i a = (Ok (mkRef c (len fr + 1)), mkApi (host a) (<[c := fr ++ [i]]> (iteratorFrames a)) (latestCallID a)).
Proof.
  intros Hin Hl. assert (indexToIteratorID (len fr) = (len fr + 1, true)) as Hid.
  { unfold indexToIteratorID, MaxInt32, frameLenLimit, len in *.
    by destruct (Z.ltb_spec (Z.of_nat (length fr)) 0), (Z.ltb_spec (2 ^ 31 - 1) (Z.of_nat (length fr))); try lia. }
  unfold buildIterator, storeIterator, mbind, M_bind, gets. rewrite Hin, Hid.
  unfold refuseM, lift, refuse. by destruct (Z.leb_spec frameLenLimit (len fr)); [lia|].
Qed.

Lemma inside_open c a0 a fr i h : inside c a0 a fr -> i ∉ handed_out (host a) -> handed_out h = {[i]} ∪ handed_out (host a) ->
  inside c a0 (mkApi h (<[c := fr ++ [i]]> (iteratorFrames a)) (latestCallID a)) (fr ++ [i]).
Proof.
  intros [Hf Hfr Ho Hn Hl [Hz Hu]] Hi Hh. split; cbn.
  - by rewrite delete_insert_eq.
  - unfold frame_of. cbn. by rewrite lookup_insert_eq.
  - rewrite Hh, Ho, list_to_set_app_L. set_solver.
  - rewrite list_to_set_app_L. rewrite Ho in Hi. set_solver.
  - done.
  - split; [done|]. intros id Hid. cbn in *. rewrite lookup_insert_ne by lia. by apply Hu.
Qed.

(** Code that adds at most one iterator to the frame of call [c]. *)
Definition Adds {T} (c : Z) (a0 : A) (m : M (A * Outs) T) : Prop := forall s fr r s',
  inside c a0 (fst s) fr -> len fr < frameLenLimit -> m s = (r, s') ->
  exists fr', inside c a0 (fst s') fr' /\ latestCallID (fst s') = latestCallID (fst s) /\ len fr' <= len fr + 1.

Lemma Adds_quiet {T} c a0 (m : M (A * Outs) T) : Preserves (fun s : A * Outs => view (fst s)) m -> Adds c a0 m.
Proof.
  intros Hm s fr r s' Hin _ E. apply Hm in E. exists fr. split; [by eapply inside_view|]. split; [|lia].
  unfold view in E. by injection E.
Qed.

Lemma Adds_bind {T U} c a0 (m : M (A * Outs) T) (k : T -> M (A * Outs) U) :
  Preserves (fun s : A * Outs => view (fst s)) m -> (forall x, Adds c a0 (k x)) -> Adds c a0 (m ≫= k).
Proof.
  intros Hm Hk s fr r s' Hin Hl. unfold mbind, M_bind. destruct (m s) as [x s1] eqn:E. pose proof E as Hv%Hm.
  pose proof (inside_view _ _ _ _ _ Hv Hin) as Hin1. assert (latestCallID (fst s1) = latestCallID (fst s)) as Hlast
    by (unfold view in Hv; by injection Hv).
  destruct x as [x|e|p]; [|intros [= _ <-]..]; [|exists fr; by split_and!; [..|lia]|exists fr; by split_and!; [..|lia]].
  intros Ek. rewrite <- Hlast. by eapply Hk.
Qed.

Lemma Adds_open c a0 (op : M H I) :
  (forall h r h', op h = (r, h') -> match r with
     | Ok i => (i ∉ handed_out h) /\ handed_out h' = {[i]} ∪ handed_out h
     | _ => handed_out h' = handed_out h end) ->
  Adds c a0 (iter ← on_api (in_host op); keep_iterator c iter).
Proof.
  intros Hop [a o] fr r s' Hin Hl. unfold mbind, M_bind, on_api, in_host, zoom. cbn [fst snd].
  destruct (op (host a)) as [x h] eqn:E. apply Hop in E. destruct x as [i|e|p].
  2, 3: intros [= _ <-]; exists fr; split; [|by split; [|lia]]; eapply inside_view, Hin; unfold view; cbn; by rewrite E.
  destruct E as [Hi Ho]. unfold keep_iterator, on_api, zoom. cbn [fst snd].
  rewrite (build_inside c (mkApi h (iteratorFrames a) (latestCallID a)) fr i); [|by destruct Hin|done].
  intros [= _ <-]. exists (fr ++ [i]). cbn [fst host iteratorFrames latestCallID]. split; [by apply inside_open|].
  split; [done|]. unfold len. rewrite length_app. cbn. lia.
Qed.

Lemma Adds_account c a0 g m : Adds c a0 m -> Adds c a0 (accountUsedGas g m).
Proof.
  intros Hm s fr r s' Hin Hl. unfold accountUsedGas. destruct (m s) as [x t] eqn:E. intros [= _ <-]. cbn. by eapply Hm.
Qed.

Lemma recovered_Adds c a0 m a o fr : Adds c a0 m -> inside c a0 a fr -> len fr < frameLenLimit ->
  exists fr', inside c a0 (fst (recovered m (a, o)).2) fr' /\ latestCallID (fst (recovered m (a, o)).2) = latestCallID a
    /\ len fr' <= len fr + 1.
Proof.
  intros Hm Hin Hl. unfold recovered. destruct (m (a, o)) as [r s'] eqn:E.
  destruct (Hm (a, o) fr r s' Hin Hl E) as (fr' & Hf & Hla & Hle). exists fr'. by destruct r.
Qed.

Lemma scan_inside c a0 store state gm start end_ order a o fr : inside c a0 a fr -> len fr < frameLenLimit ->
  let a' := fst (cScan (if state : bool then Some (mkDB store c) else None) gm start end_ order (a, o)).2 in
  exists fr', inside c a0 a' fr' /\ latestCallID a' = latestCallID a /\ len fr' <= len fr + 1.
Proof.
  intros Hin Hl. apply recovered_Adds; [|done..].
  apply Adds_bind; [preserves|]. intros outs. destruct (negb _); [apply Adds_quiet; preserves|].
  apply Adds_bind; [preserves|]. intros outs'. apply Adds_bind; [unfold mustM; preserves|]. intros _.
  destruct state; [|apply Adds_quiet; preserves]. apply Adds_bind; [preserves|]. intros k. apply Adds_bind; [preserves|]. intros e.
  apply Adds_account. destruct (order =? 1); [apply Adds_open; apply Iterator_open|].
  destruct (order =? 2); [apply Adds_open; apply ReverseIterator_open|apply Adds_quiet; preserves].
Qed.

(** Code around one query. *)
Definition Asks {T} (n : Z) (m : M (A * Outs) T) : Prop := forall s r s', unused (fst s) -> latestCallID (fst s) + n < 2 ^ 64 -> m s = (r, s') ->
  iteratorFrames (fst s') = iteratorFrames (fst s) /\ handed_out (host (fst s')) = handed_out (host (fst s))
  /\ latestCallID (fst s) <= latestCallID (fst s') <= latestCallID (fst s) + n.

Lemma Asks_quiet {T} n (m : M (A * Outs) T) : 0 <= n -> Preserves (fun s : A * Outs => view (fst s)) m -> Asks n m.
Proof. intros Hn Hm s r s' _ _ E. apply Hm in E. unfold view in E. injection E as -> -> ->. split_and!; [done..|lia|lia]. Qed.

Lemma Asks_before {T U} n (m : M (A * Outs) T) (k : T -> M (A * Outs) U) :
  Preserves (fun s : A * Outs => view (fst s)) m -> 0 <= n -> (forall x, Asks n (k x)) -> Asks n (m ≫= k).
Proof.
  intros Hm Hn Hk s r s' Hu Hl. unfold mbind, M_bind. destruct (m s) as [x s1] eqn:E. apply Hm in E. unfold view in E.
  injection E as Hf Hla Ho. destruct x as [x|e|p]; [|intros [= _ <-]; rewrite Hf, Ho, Hla; split_and!; [done..|lia|lia]..].
  intros Ek. apply Hk in Ek; [by rewrite Hf, Ho, Hla in Ek| |by rewrite Hla]. unfold unused in *. by rewrite Hf, Hla.
Qed.

Lemma Asks_after {T U} n (m : M (A * Outs) T) (k : T -> M (A * Outs) U) :
  Asks n m -> (forall x, Preserves (fun s : A * Outs => view (fst s)) (k x)) -> Asks n (m ≫= k).
Proof.
  intros Hm Hk s r s' Hu Hl. unfold mbind, M_bind. destruct (m s) as [x s1] eqn:E. apply Hm in E; [|done..].
  destruct x as [x|e|p]; [|by intros [= _ <-]..]. intros Ek. apply Hk in Ek. unfold view in Ek. by injection Ek as -> -> ->.
Qed.

Lemma Asks_account {n} g m : Asks n m -> Asks n (accountUsedGas g m).
Proof.
  intros Hm s r s' Hu Hl. unfold accountUsedGas. destruct (m s) as [x t] eqn:E. intros [= _ <-]. cbn [fst]. by apply Hm in E.
Qed.

Lemma Asks_query n (querier : Querier) req limit : 0 <= n -> (forall rq g, Quiet n (querier rq g)) ->
  Asks n (on_api (RustQuery querier req limit)).
Proof.
  intros Hn Hq [a o] r s' Hu Hl. unfold on_api, zoom. cbn [fst snd]. destruct (RustQuery querier req limit a) as [x a'] eqn:E.
  intros [= _ <-]. cbn [fst]. revert E. unfold RustQuery. destruct (json_Unmarshal_request _) as [e|rq].
  - intros [= _ <-]. split_and!; [done..|lia|lia].
  - unfold mbind, M_bind. destruct (querier rq limit a) as [y a1] eqn:E. apply Hq in E; [|done..].
    destruct y; by intros [= _ <-].
Qed.

Lemma query_asks n (querier : Querier) (state : bool) limit req a o : 0 <= n -> (forall rq g, Quiet n (querier rq g)) ->
  unused a -> latestCallID a + n < 2 ^ 64 ->
  let a' := fst (cQueryExternal (if state then Some querier else None) limit req (a, o)).2 in
  iteratorFrames a' = iteratorFrames a /\ handed_out (host a') = handed_out (host a)
  /\ latestCallID a <= latestCallID a' <= latestCallID a + n.
Proof.
  intros Hn Hq Hu Hl. unfold cQueryExternal, with_pointers, recovered.
  set (m := outs ← gets snd; _). assert (Asks n m) as Hm.
  - apply Asks_before; [preserves|done|]. intros outs. destruct (negb _); [apply Asks_quiet; [done|preserves]|].
    apply Asks_before; [preserves|done|]. intros outs'. apply Asks_before; [unfold mustM; preserves|done|]. intros _.
    apply Asks_before; [preserves|done|]. intros rq. apply Asks_account. destruct state; [|apply Asks_quiet; [done|preserves]].
    apply Asks_after; [by apply Asks_query|]. intros result. preserves.
  - cbn. destruct (m (a, o)) as [r s'] eqn:E. apply Hm in E; [|done..]. by destruct r.
Qed.

(** A run that scans and queries at most so many times, whatever it is answered. *)
Fixpoint bounded {R} (scans queries : nat) (t : Run R) : Prop :=
  match t with
  | Done _ => True
  | Call (Scan_ _ _ _) _ _ _ k => match scans with O => False | S scans => forall code outs, bounded scans queries (k code outs) end
  | Call (Query_ _ _) _ _ _ k => match queries with O => False | S queries => forall code outs, bounded scans queries (k code outs) end
  | Call _ _ _ _ k => forall code outs, bounded scans queries (k code outs)
  end.

Section OneCall.
Context (n c : Z) (a0 : A) (store : K) (api : GoAPI) (querier : Querier (H := H) (I := I)).
Hypothesis n_nonneg : 0 <= n.
Hypothesis quiet_querier : forall rq g, Quiet n (querier rq g).

(** The calls that neither scan nor query. *)
Lemma callback_silent rq state meter :
  match rq with Scan_ _ _ _ | Query_ _ _ => False | _ => True end -> silent (callback (mkDB store c) api querier rq state meter).
Proof.
  destruct rq; intros Hrq; try done; cbn [callback]; auto using get_silent, set_silent, delete_silent, next_silent, next_part_silent,
    humanize_silent, canonicalize_silent, validate_silent; apply next_part_silent.
Qed.

Lemma run_inside {R} (t : Run R) : forall scans queries a fr r a', bounded scans queries t -> inside c a0 a fr ->
  len fr + Z.of_nat scans <= frameLenLimit -> latestCallID a + Z.of_nat queries * n < 2 ^ 64 ->
  run (mkDB store c) api querier t a = (r, a') ->
  exists fr', inside c a0 a' fr' /\ latestCallID a <= latestCallID a' <= latestCallID a + Z.of_nat queries * n.
Proof.
  induction t as [o|rq state meter outs k IH]; intros scans queries a fr r a' Hb Hin Hs Hq; cbn [run].
  { intros [= _ <-]. exists fr. split; [done|nia]. }
  destruct (callback _ _ _ rq state meter (a, outs)) as [code [a1 outs']] eqn:E.
  assert (match rq with Scan_ _ _ _ | Query_ _ _ => False | _ => True end -> view a1 = view a) as Hsil.
  { intros Hrq. pose proof (callback_silent rq state meter Hrq (a, outs)) as Hv. by rewrite E in Hv. }
  destruct rq; cbn [bounded] in Hb.
  all: try (specialize (Hsil Logic.I); pose proof (inside_view _ _ _ _ _ Hsil Hin) as Hin1; unfold view in Hsil; injection Hsil as _ Hl _;
    intros Hr; rewrite <- Hl in Hq |- *; by eapply (IH code outs')).
  - destruct scans as [|scans]; [done|]. cbn [callback] in E.
    pose proof (scan_inside c a0 store state meter start end_ order a outs fr Hin ltac:(lia)) as Hsc. rewrite E in Hsc.
    destruct Hsc as (fr1 & Hin1 & Hl & Hle). cbn [fst snd] in *. intros Hr. rewrite <- Hl in Hq |- *.
    eapply (IH code outs'); [apply Hb|done|lia|done|done].
  - destruct queries as [|queries]; [done|]. cbn [callback] in E.
    pose proof (query_asks n querier state gasLimit request a outs n_nonneg quiet_querier (in_unused _ _ _ _ Hin) ltac:(nia)) as Hqa.
    rewrite E in Hqa. cbn [fst snd] in Hqa. destruct Hqa as (Hf & Ho & Hl). intros Hr.
    assert (inside c a0 a1 fr) as Hin1 by (eapply inside_later; [done..|lia|done]).
    destruct (IH code outs' scans queries a1 fr r a') as (fr' & Hin' & Hl'); [apply Hb|done|done|nia|done|].
    exists fr'. split; [done|nia].
Qed.

End OneCall.

Lemma close_all fr (a : A) r a' : forM fr close a = (r, a') ->
  r = Ok tt /\ iteratorFrames a' = iteratorFrames a /\ latestCallID a' = latestCallID a
  /\ handed_out (host a') = handed_out (host a) ∖ list_to_set fr.
Proof.
  revert a. induction fr as [|i fr IH]; intros a; cbn [forM].
  { intros [= <- <-]. split_and!; [done..|]. set_solver. }
  unfold mbind, M_bind. destruct (close i a) as [x a1] eqn:E. revert E. unfold close, in_host, zoom.
  destruct (it_Close i (host a)) as [y h] eqn:E. apply Close_open in E as [Hr Ho].
  assert (forall z, (z, mkApi h (iteratorFrames a) (latestCallID a)) = (x, a1) -> z = Ok tt -> forM fr close a1 = (r, a') ->
    r = Ok tt /\ iteratorFrames a' = iteratorFrames a /\ latestCallID a' = latestCallID a
    /\ handed_out (host a') = handed_out (host a) ∖ list_to_set (i :: fr)) as Hgo.
  { intros z [= <- <-] -> Hf. apply IH in Hf as (-> & -> & -> & ->). cbn. split_and!; [done..|]. rewrite Ho. set_solver. }
  destruct y as [[]|e|p]; [| |done]; intros [= <- <-]; by apply (Hgo (Ok tt)).
Qed.

Lemma end_inside c a0 a fr r a' : inside c a0 a fr -> iteratorFrames a0 !! c = None -> endCall c a = (r, a') ->
  r = Ok tt /\ iteratorFrames a' = iteratorFrames a0 /\ handed_out (host a') = handed_out (host a0)
  /\ latestCallID a' = latestCallID a.
Proof.
  intros [Hf Hfr Ho Hn _ _] Hc. unfold endCall, removeFrame, mbind, M_bind, gets, set_frames, modify. rewrite Hfr. cbn.
  intros (-> & -> & -> & ->)%close_all. cbn. split_and!; [done..| |done]. rewrite Ho. set_solver.
Qed.

(** What runs in a call, with at most [n] calls in turn. *)
Definition Frames {T} (n : Z) (body : Z -> M A T) : Prop := forall c a0 a r a', inside c a0 a [] -> latestCallID a + n < 2 ^ 64 ->
  body c a = (r, a') -> exists fr, inside c a0 a' fr /\ latestCallID a <= latestCallID a' <= latestCallID a + n.

Lemma call_quiet {T} n (body : Z -> M A T) : 0 <= n -> Frames n body -> Quiet (1 + n) (in_call body).
Proof.
  intros Hn Hb a r a' Hu Hl. unfold in_call, startCall, mbind, M_bind, modify, gets. cbn [latestCallID].
  assert (u64 (latestCallID a + 1) = latestCallID a + 1) as Ew by (apply u64_small; destruct Hu; unfold is_u64; nia). rewrite Ew.
  set (c := latestCallID a + 1). set (a1 := mkApi (host a) (iteratorFrames a) c). unfold deferred_end.
  destruct (body c a1) as [x a2] eqn:E.
  assert (iteratorFrames a !! c = None) as Hc by (apply Hu; unfold c; lia).
  assert (inside c a a1 []) as Hin.
  { destruct Hu as [Hz Hu]. split; cbn; [by apply delete_id|unfold frame_of; cbn; by rewrite Hc|set_solver|set_solver|lia|].
    split; cbn; [unfold c; lia|]. intros id Hid. apply Hu. unfold c in Hid. lia. }
  destruct (Hb c a a1 x a2) as (fr & Hin2 & Hl2); [done|cbn; unfold c; lia|done|].
  destruct (endCall c a2) as [y a3] eqn:Ee. apply (end_inside c a a2 fr) in Ee as (-> & Hf & Ho & Hl3); [|done..].
  intros [= _ <-]. cbn in Hl2. unfold c in *. split_and!; [done..| |]; rewrite Hl3; lia.
Qed.

Lemma run_frames {R} n scans queries (store : K) api (querier : Querier) (t : Run R) : 0 <= n -> (forall rq g, Quiet n (querier rq g)) ->
  bounded scans queries t -> Z.of_nat scans <= frameLenLimit ->
  Frames (Z.of_nat queries * n) (fun callID => run (mkDB store callID) api querier t).
Proof.
  intros Hn Hq Hb Hs c a0 a r a' Hin Hl E.
  eapply (run_inside n c a0 store api querier Hn Hq t scans queries a []); [done|done|change (len (@nil I)) with 0; lia|done|done].
Qed.

(** C22: a call of a contract that scans at most 32768 times leaves no frame behind and
    no iterator the store has handed out: when it ends, for whatever reason, exactly
    the iterators that were handed out for it are closed and those of the calls around
    it are as they were; this holds for calls made by queries of the contract in turn,
    as long as calls are not numbered beyond 64 bits.  With more scans than that the
    iterators handed out for the refused ones stay open ([refused_scan_leaks]). *)
Theorem calls_close_iterators {R} n scans queries (store : K) api (querier : Querier) (t : Run R) a r a' :
  0 <= n -> (forall rq g, Quiet n (querier rq g)) -> bounded scans queries t -> Z.of_nat scans <= frameLenLimit ->
  unused a -> latestCallID a + 1 + Z.of_nat queries * n < 2 ^ 64 ->
  in_call (fun callID => run (mkDB store callID) api querier t) a = (r, a') ->
  iteratorFrames a' = iteratorFrames a /\ handed_out (host a') = handed_out (host a) /\ unused a'
  /\ Quiet (1 + Z.of_nat queries * n) (in_call (fun callID => run (mkDB store callID) api querier t)).
Proof.
  intros Hn Hq Hb Hs Hu Hl E. pose proof (call_quiet (Z.of_nat queries * n) _ ltac:(lia) (run_frames n scans queries store api querier t Hn Hq Hb Hs)) as Hc.
  pose proof (Hc a r a' Hu ltac:(lia) E) as (Hf & Ho & Hl'). split_and!; [done..| |done].
  destruct Hu as [Hz Hu]. split; [lia|]. intros id Hid. rewrite Hf. apply Hu. lia.
Qed.

(** Over the limit the iterator that was opened is in no frame, and stays open. *)
Lemma refused_scan_leaks c store a o start end_ s e i h : frameLenLimit <= len (frame_of c a) ->
  copyU8Slice start = Ok s -> copyU8Slice end_ = Ok e -> kv_Iterator store s e (host a) = (Ok i, h) ->
  given (o_used o) && given (o_iter o) && given (o_err o) = true -> fresh_place (o_err o) = true ->
  let '(code, (a', _)) := cScan (Some (mkDB store c)) true start end_ 1 (a, o) in
  code = GoError_User /\ iteratorFrames a' = iteratorFrames a /\ handed_out (host a') = {[i]} ∪ handed_out (host a).
Proof.
  intros Hl Hs He Hi Hg Hf. apply Iterator_open in Hi as Ho. destruct Ho as [_ Ho].
  unfold cScan, with_pointers, recovered, mbind, M_bind, gets. destruct o as [[?|] ? ? [?|] [?|]]; try done. cbn in Hf |- *.
  unfold mustM, lift. rewrite Hf. cbn. rewrite Hs, He. unfold accountUsedGas, on_api, in_host, zoom. cbn. rewrite Hi.
  unfold keep_iterator, on_api, zoom. cbn. unfold buildIterator, storeIterator, mbind, M_bind, gets, refuseM, lift, refuse.
  unfold frame_of in *. cbn. destruct (Z.leb_spec frameLenLimit (len (default [] (iteratorFrames a !! c)))); [|lia]. done.
Qed.

End Lifetimes.

(** ** Reading an iterator to its end *)

(** What an iterator has still to give. *)
Class Contents (H I : Type) := { remaining : I -> H -> list (bytes * bytes) }.

(** A valid iterator has a key and a value and no error; stepping forward drops an
    entry or runs out of gas.  Nothing is said of an invalid iterator, which may
    well report an error. *)
Class ContentsLaws (H K I : Type) `{HostOps H K I} `{Contents H I} : Prop := {
  Valid_law i h : it_Valid i h = negb (bool_decide (remaining i h = []));
  Entry_law i h k v l : remaining i h = (k, v) :: l ->
    it_Key i h = Ok (Some k) /\ it_Value i h = Ok (Some v) /\ it_Error i h = None;
  Next_law i h x l r h' : remaining i h = x :: l -> it_Next i h = (r, h') ->
    match r with Ok _ => remaining i h' = l | Err _ => False | Panic p => recoverPanic p = GoError_OutOfGas end }.

Section Scanning.
Context {H K I : Type} `{ContentsLaws H K I} `{VectorLaws}.
Abbreviation A := (Api H I).

Lemma read_end {T} i (part : I -> H -> res T) h : remaining i h = [] -> readIteratorPart i part h = (Ok (inr None), h).
Proof. intros E. unfold readIteratorPart, mbind, M_bind, gets. rewrite Valid_law, E. done. Qed.

Lemma read_entry {T} i (part : I -> H -> res T) h x l y : remaining i h = x :: l -> part i h = Ok y ->
  (exists h', readIteratorPart i part h = (Ok (inr (Some y)), h') /\ remaining i h' = l)
  \/ exists p h', readIteratorPart i part h = (Panic p, h') /\ recoverPanic p = GoError_OutOfGas.
Proof.
  intros E Hp. destruct x as [k v]. destruct (Entry_law i h k v l E) as (_ & _ & He).
  unfold readIteratorPart, mbind, M_bind, gets, get, lift. rewrite Valid_law, E. cbn. rewrite Hp, He.
  destruct (it_Next i h) as [r h'] eqn:En. pose proof (Next_law i h (k, v) l r h' E En) as Hn.
  destruct r as [u|e|p]; [|done|by right; exists p, h']. left. exists h'. rewrite Valid_law, Hn.
  destruct l as [|[k' v'] l]; [done|]. cbn. destruct (Entry_law i h' k' v' l Hn) as (_ & _ & ->). done.
Qed.

(** Places the machine provides for one entry. *)
Definition places : Outs :=
  let none := newUnmanagedVector None in mkOuts (Some 0) (Some none) (Some none) None (Some none).

Definition taken (v : option UnmanagedVector) : option bytes :=
  match v with Some v => match copyAndDestroyUnmanagedVector v with Ok b => b | _ => None end | None => None end.

(** Calls of [next] until nothing is written or an error is returned. *)
Fixpoint drain {T} (next : Callback (H := H) (I := I)) (read : Outs -> option T) (fuel : nat) (a : A) : list T * GoError * A :=
  match fuel with
  | O => ([], GoError_None, a)
  | S fuel =>
      match next (a, places) with
      | (GoError_None, (a', o)) =>
          match read o with
          | Some x => let '(l, code, a'') := drain next read fuel a' in (x :: l, code, a'')
          | None => ([], GoError_None, a')
          end
      | (code, (a', _)) => ([], code, a')
      end
  end.

(** One call either ends, gives the next entry, or runs out of gas. *)
Definition steps {T} (next : Callback (H := H) (I := I)) (read : Outs -> option T) (part : bytes * bytes -> T) (ref : IteratorReference) (i : I) : Prop :=
  forall a, retrieveIterator (call_id ref) (iterator_id ref) a = Some i ->
  match remaining i (host a) with
  | [] => exists o, next (a, places) = (GoError_None, (a, o)) /\ read o = None
  | x :: l =>
      len x.1 <= MaxInt32 -> len x.2 <= MaxInt32 ->
      (exists a' o, next (a, places) = (GoError_None, (a', o)) /\ read o = Some (part x) /\ remaining i (host a') = l
         /\ iteratorFrames a' = iteratorFrames a)
      \/ exists a' o, next (a, places) = (GoError_OutOfGas, (a', o))
  end.

Lemma drain_steps {T} next read (part : bytes * bytes -> T) ref i l : steps next read part ref i -> forall fuel a,
  retrieveIterator (call_id ref) (iterator_id ref) a = Some i -> remaining i (host a) = l -> (length l < fuel)%nat ->
  Forall (fun x => len x.1 <= MaxInt32 /\ len x.2 <= MaxInt32) l ->
  exists got code a', drain next read fuel a = (got, code, a')
    /\ ((code = GoError_None /\ got = map part l /\ remaining i (host a') = [])
        \/ (code = GoError_OutOfGas /\ exists done rest, l = done ++ rest /\ rest <> [] /\ got = map part done)).
Proof.
  intros Hst. induction l as [|x l IH]; intros [|fuel] a Hi Hr Hl Hf; try (cbn in Hl; lia); specialize (Hst a Hi); rewrite Hr in Hst; cbn [drain].
  - destruct Hst as (o & -> & ->). exists [], GoError_None, a. split; [done|]. by left.
  - apply Forall_cons in Hf as [[Hk Hv] Hf]. destruct (Hst Hk Hv) as [(a' & o & -> & -> & Hr' & Hfr)|(a' & o & ->)].
    + destruct (IH fuel a') as (got & code & a'' & -> & Hc); [by unfold retrieveIterator, frame_of in *; rewrite Hfr|done|cbn in Hl; lia|done|].
      exists (part x :: got), code, a''. split; [done|]. destruct Hc as [(-> & -> & Hd)|(-> & d & rest & -> & Hne & ->)]; [by left|].
      right. split; [done|]. by exists (x :: d), rest.
    + exists [], GoError_OutOfGas, a'. split; [done|]. right. split; [done|]. by exists [], (x :: l).
Qed.

Definition entry_read (o : Outs) : option (bytes * bytes) :=
  match taken (o_key o), taken (o_val o) with Some k, Some v => Some (k, v) | _, _ => None end.

Lemma none_fresh : fresh_place (Some (newUnmanagedVector None)) = true.
Proof. apply new_vector_none. Qed.

Lemma taken_none : taken (Some (newUnmanagedVector None)) = None.
Proof. unfold taken. by rewrite copy_vector by by vm_compute. Qed.

Lemma taken_some b : len b <= MaxInt32 -> taken (Some (newUnmanagedVector (Some b))) = Some b.
Proof. intros Hb. unfold taken. by rewrite copy_vector. Qed.

(** What is read from an iterator is reported to the machine. *)
Lemma reported_read {T} i (part : I -> H -> res T) (k : string + option T -> M (A * Outs) GoError) a o :
  accountUsedGas gm_GasConsumed (item ← on_api (in_host (readIteratorPart i part)); k item) (a, o)
  = let '(r, h) := readIteratorPart i part (host a) in
    let a' := mkApi h (iteratorFrames a) (latestCallID a) in
    let '(x, s') := match r with Ok item => k item (a', o) | Err e => (Err e, (a', o)) | Panic p => (Panic p, (a', o)) end in
    (x, (fst s', write_used (if gm_GasConsumed (host a) <=? gm_GasConsumed (host (fst s'))
                             then gm_GasConsumed (host (fst s')) - gm_GasConsumed (host a) else 0) (snd s'))).
Proof.
  unfold accountUsedGas, mbind, M_bind, on_api, in_host, zoom. cbn [fst snd].
  destruct (readIteratorPart i part (host a)) as [[item|e|p] h]; done.
Qed.

(** With valid arguments the checks pass. *)
Lemma checks_pass ok test (ref : IteratorReference) i (found : option I -> M (A * Outs) GoError) (a : A) :
  ok places = true -> test places = true -> retrieveIterator (call_id ref) (iterator_id ref) a = Some i ->
  with_pointers ok (outs ← gets snd; mustM (test outs) override;;
    f ← on_api (gets (retrieveIterator (call_id ref) (iterator_id ref))); found f) (a, places)
  = recovered (found (Some i)) (a, places).
Proof.
  intros Hok Ht Hi. unfold with_pointers, recovered, mbind, M_bind, gets, mustM, lift, on_api, zoom. cbn [fst snd].
  rewrite Hok. cbn. rewrite Ht. cbn. by rewrite Hi.
Qed.

Lemma reading_steps {U T} (part : I -> H -> res U) (k : string + option U -> M (A * Outs) GoError) put (next : Callback)
    (read : Outs -> option T) pt ref i :
  (forall a, retrieveIterator (call_id ref) (iterator_id ref) a = Some i -> next (a, places)
     = recovered (accountUsedGas gm_GasConsumed (item ← on_api (in_host (readIteratorPart i part)); k item)) (a, places)) ->
  (forall s, k (inr None) s = (Ok GoError_None, s)) ->
  (forall y s, k (inr (Some y)) s = (Ok GoError_None, (fst s, put y (snd s)))) ->
  (forall n, read (write_used n places) = None) ->
  (forall h x l, remaining i h = x :: l -> len x.1 <= MaxInt32 -> len x.2 <= MaxInt32 ->
     exists y, part i h = Ok y /\ forall n, read (write_used n (put y places)) = Some (pt x)) ->
  steps next read pt ref i.
Proof.
  intros Hn Hk0 Hk Hr0 Hr a Hi. rewrite (Hn a Hi). unfold recovered. rewrite reported_read.
  destruct (remaining i (host a)) as [|x l] eqn:E.
  - rewrite (read_end _ _ _ E). destruct a as [h f n]. cbn -[places]. rewrite Hk0. cbn -[places]. eexists. split; [done|apply Hr0].
  - intros H1' H2'. destruct (Hr _ x l E H1' H2') as (y & Hp & Hy).
    destruct (read_entry i part (host a) x l y E Hp) as [(h' & -> & Hl)|(p & h' & -> & Hg)]; [left|right].
    + cbn -[places]. rewrite Hk. do 2 eexists. split_and!; [done|apply Hy|done..].
    + cbn. rewrite Hg. by do 2 eexists.
Qed.

Lemma call_id_given ref : call_id ref <> 0 -> negb (call_id ref =? 0) = true.
Proof. by destruct (Z.eqb_spec (call_id ref) 0). Qed.

Lemma cNext_steps ref i : call_id ref <> 0 -> steps (cNext ref true) entry_read (fun x => x) ref i.
Proof.
  intros Hc. eapply (reading_steps _ _ (fun y o => write_val (newUnmanagedVector y.2) (write_key (newUnmanagedVector y.1) o))).
  - intros a Hi. unfold cNext. rewrite (checks_pass _ (fun o => fresh_place (o_key o) && fresh_place (o_val o)) ref i); [done| | |done].
    + by rewrite call_id_given.
    + cbn [places o_key o_val]. by rewrite none_fresh.
  - done.
  - by intros [k v] [a o].
  - intros n. unfold entry_read. cbn [o_key o_val write_used places]. by rewrite taken_none.
  - intros h [k v] l E Hk Hv. destruct (Entry_law i h k v l E) as (-> & -> & _). eexists. split; [done|].
    intros n. unfold entry_read. cbn [o_key o_val write_used write_val write_key places option_map fst snd]. by rewrite !taken_some.
Qed.

Lemma nextPart_steps ref i output put valFn pt : call_id ref <> 0 ->
  output places = Some (newUnmanagedVector None) ->
  (forall n o, output (write_used n o) = output o) ->
  (forall v, output (put v places) = Some v) ->
  (forall h k v l, remaining i h = (k, v) :: l -> valFn i h = Ok (Some (pt (k, v)))) ->
  (forall x, len x.1 <= MaxInt32 -> len x.2 <= MaxInt32 -> len (pt x) <= MaxInt32) ->
  steps (nextPart ref true output put valFn) (fun o => taken (output o)) pt ref i.
Proof.
  intros Hc Ho Hu Hp Hv Hpt. eapply (reading_steps _ _ (fun y o => put (newUnmanagedVector y) o)).
  - intros a Hi. unfold nextPart. rewrite (checks_pass _ (fun o => fresh_place (output o)) ref i); [done| | |done].
    + by rewrite call_id_given, Ho.
    + rewrite Ho. apply none_fresh.
  - done.
  - by intros y [a o].
  - intros n. by rewrite Hu, Ho, taken_none.
  - intros h [k v] l E Hk Hv'. eexists. split; [by eapply Hv|]. intros n. rewrite Hu, Hp. apply taken_some. by apply Hpt.
Qed.

(** What a scan yields: all the entries, or a beginning of them and then no gas. *)
Definition yields {T} (pt : bytes * bytes -> T) (i : I) (l : list (bytes * bytes)) (r : list T * GoError * A) : Prop :=
  let '(got, code, a') := r in
  (code = GoError_None /\ got = map pt l /\ remaining i (host a') = [])
  \/ (code = GoError_OutOfGas /\ exists done rest, l = done ++ rest /\ rest <> [] /\ got = map pt done).

(** C23: a contract that calls one of the three functions for stepping through an
    iterator until nothing is written obtains exactly the entries the iterator
    still had, in their order (with [next_key] their keys, with [next_value] their
    values), and then a regular end, even when an iterator past its end reports an
    error; only by running out of gas can it end earlier, and then it is told so. *)
Theorem scan_lists_entries ref i fuel a l : call_id ref <> 0 ->
  retrieveIterator (call_id ref) (iterator_id ref) a = Some i -> remaining i (host a) = l -> (length l < fuel)%nat ->
  Forall (fun x => len x.1 <= MaxInt32 /\ len x.2 <= MaxInt32) l ->
  yields (fun x => x) i l (drain (cNext ref true) entry_read fuel a)
  /\ yields fst i l (drain (cNextKey ref true) (fun o => taken (o_key o)) fuel a)
  /\ yields snd i l (drain (cNextValue ref true) (fun o => taken (o_val o)) fuel a).
Proof.
  intros Hc Hi Hr Hl Hf. split_and!.
  - destruct (drain_steps _ _ _ ref i l (cNext_steps ref i Hc) fuel a Hi Hr Hl Hf) as (got & code & a' & -> & Hd). exact Hd.
  - destruct (drain_steps (cNextKey ref true) (fun o => taken (o_key o)) fst ref i l) with fuel a as (got & code & a' & -> & Hd); [|done..].
    apply nextPart_steps; try done. intros h k v l' E. by destruct (Entry_law i h k v l' E).
  - destruct (drain_steps (cNextValue ref true) (fun o => taken (o_val o)) snd ref i l) with fuel a as (got & code & a' & -> & Hd); [|done..].
    apply nextPart_steps; try done. intros h k v l' E. by destruct (Entry_law i h k v l' E) as (_ & ? & _).
Qed.

End Scanning.
