(* ===== verification/LibBackend.v ===== *)
(** * libwasmvm: what a contract sees of the chain

    The Rust side of the boundary (wasmvm/libwasmvm/src): memory passed to and from
    Go (memory.rs), the error codes of Go (error/go.rs), and the storage, iterators,
    addresses and queries offered to the virtual machine (storage.rs, iterator.rs,
    api.rs, querier.rs), each of which calls back into Go (VmHost).  The main result
    is that a request of a contract has exactly the effect of the operation of the
    chain it stands for, with the gas that took and with panics as errors. *)

From Stdlib Require Import ZArith Lia.
From stdpp Require Import base gmap strings list pretty.
From S2P Require Import Prelude Sdk GoLib Varint WasmGas WasmLifecycle WasmQueryTypes VmHost.

(** ** Memory *)

(** [Vec<u8>]: bytes in an allocation of some size; an empty one has none. *)
Record Vec := mkVec8 { v_bytes : bytes; v_capacity : Z }.

(** How much is allocated is up to the allocator, but it is enough. *)
Class Allocator := { capacity_for : bytes -> Z }.
Class AllocatorLaws `{Allocator} : Prop := { capacity_enough b : len b <= capacity_for b }.

Definition Vec_new : Vec := mkVec8 [] 0.
Definition Vec_from `{Allocator} (b : bytes) : Vec := mkVec8 b (capacity_for b).

Definition UnmanagedVector_new (source : option Vec) : UnmanagedVector :=
  match source with
  | Some data =>
      if v_capacity data =? 0 then mkVec false None 0 0
      else mkVec false (Some (v_bytes data)) (len (v_bytes data)) (v_capacity data)
  | None => mkVec true None 0 0
  end.
Definition UnmanagedVector_default : UnmanagedVector := UnmanagedVector_new None.

Definition consume (v : UnmanagedVector) : option Vec :=
  if is_none v then None
  else if v_cap v =? 0 then Some Vec_new
  else Some (mkVec8 (GoBytes (v_ptr v) (v_len v)) (v_cap v)).

(** The function Go calls to copy bytes to this side. *)
Definition copy_in `{Allocator} (nil : bool) (ptr : option bytes) (length : Z) : UnmanagedVector :=
  if nil then UnmanagedVector_new None
  else if length =? 0 then UnmanagedVector_new (Some Vec_new)
  else UnmanagedVector_new (Some (Vec_from (GoBytes ptr length))).

#[export] Instance rust_vectors `{Allocator} : VectorOps := {| new_unmanaged_vector := copy_in |}.

Definition U8SliceView_new (source : option bytes) : U8SliceView :=
  match source with
  | Some data => mkView false (if len data =? 0 then None else Some data) (len data)
  | None => mkView true None 0
  end.

Definition ByteSliceView_read (v : ByteSliceView) : option bytes :=
  if is_nil v then None else Some (if b_len v =? 0 then [] else GoBytes (b_ptr v) (b_len v)).

(** ** Text *)

(** [String::from_utf8]. *)
Fixpoint utf8_valid (fuel : nat) (l : bytes) : bool :=
  match fuel, l with
  | _, [] => true
  | O, _ => false
  | S fuel, _ => match DecodeRune l with Some (_, n) => utf8_valid fuel (drop n l) | None => false end
  end.
Definition from_utf8 (l : bytes) : option string := if utf8_valid (length l) l then Some (bytes_to_string l) else None.

(** The length of the beginning of a character that is not continued. *)
Definition broken_width (l : bytes) : nat :=
  match l with
  | b0 :: b1 :: l =>
      if (224 <=? b0) && (b0 <=? 239) && ((if b0 =? 224 then 160 else 128) <=? b1) && (b1 <=? (if b0 =? 237 then 159 else 191)) then 2%nat
      else if (240 <=? b0) && (b0 <=? 244) && ((if b0 =? 240 then 144 else 128) <=? b1) && (b1 <=? (if b0 =? 244 then 143 else 191))
      then match l with b2 :: _ => if cont_byte b2 then 3%nat else 2%nat | [] => 2%nat end
      else 1%nat
  | _ => 1%nat
  end.

(** [String::from_utf8_lossy]. *)
Fixpoint lossy (fuel : nat) (l : bytes) : bytes :=
  match fuel, l with
  | S fuel, _ :: _ =>
      match DecodeRune l with
      | Some (_, n) => take n l ++ lossy fuel (drop n l)
      | None => [239; 191; 189] ++ lossy fuel (drop (broken_width l) l)
      end
  | _, _ => []
  end.
Definition from_utf8_lossy (l : bytes) : string := bytes_to_string (lossy (length l) l).

(** Output formats that are left open by the libraries. *)
Class RustFormat := { debug_str : option string -> string; encode_upper : bytes -> string }.

(** ** Errors *)

(** The numbers of the error codes, as Go returns them. *)
Definition GoError_code (e : GoError) : Z :=
  match e with
  | GoError_None => 0 | GoError_Panic => 1 | GoError_BadArgument => 2 | GoError_OutOfGas => 3
  | GoError_CannotSerialize => 4 | GoError_User => 5
  end.

Inductive RGoError := R_None | R_Panic | R_BadArgument | R_OutOfGas | R_CannotSerialize | R_User | R_Other.

(** [From<i32>]. *)
Definition GoError_from (n : Z) : RGoError :=
  match n with
  | 0 => R_None | 1 => R_Panic | 2 => R_BadArgument | 3 => R_OutOfGas | 4 => R_CannotSerialize | 5 => R_User
  | _ => R_Other
  end.

(** [cosmwasm_vm::BackendError]. *)
Inductive BackendError :=
| ForeignPanic | BadArgument | OutOfGas | UserErr (msg : string) | Unknown_ (msg : string)
| InvalidUtf8 | IteratorDoesNotExist (id : Z).

Definition MAX_ERROR_LEN : nat := Z.to_nat 8192.

Definition build_error_msg (error_msg : option Vec) (default_error_msg : string) : string :=
  match error_msg with Some data => from_utf8_lossy (take MAX_ERROR_LEN (v_bytes data)) | None => default_error_msg end.

Definition into_result (self : RGoError) (error_msg : UnmanagedVector) (default_error_msg : string) : option BackendError :=
  let error_msg := consume error_msg in
  match self with
  | R_None => None
  | R_Panic => Some ForeignPanic
  | R_BadArgument => Some BadArgument
  | R_OutOfGas => Some OutOfGas
  | R_User => Some (UserErr (build_error_msg error_msg default_error_msg))
  | R_CannotSerialize | R_Other => Some (Unknown_ (build_error_msg error_msg default_error_msg))
  end.

(** [cosmwasm_vm::GasInfo]. *)
Record GasInfo := mkGasInfo { cost : Z; externally_used : Z }.
Definition with_externally_used (n : Z) : GasInfo := mkGasInfo 0 n.
Definition with_cost (n : Z) : GasInfo := mkGasInfo n 0.
Definition free : GasInfo := mkGasInfo 0 0.

Definition BackendResult (T : Type) : Type := (BackendError + T) * GasInfo.

(** ** Calls back into Go *)

Fixpoint Run_bind {R S} (k : R -> Run S) (t : Run R) : Run S :=
  match t with
  | Done r => k r
  | Call rq state meter outs k' => Call rq state meter outs (fun code o => Run_bind k (k' code o))
  end.
#[export] Instance Run_mret : MRet Run := fun A x => Done x.
#[export] Instance Run_mbind : MBind Run := fun A B k t => Run_bind k t.

(** The tables of functions that Go passes are complete, and so are the pointers. *)
Definition ffi (rq : Request) (outs : Outs) : Run (GoError * Outs) := Call rq true true outs (fun code o => Done (code, o)).

Definition none : option UnmanagedVector := Some UnmanagedVector_default.
Definition used_gas (o : Outs) : Z := default 0 (o_used o).
Definition vector (p : option UnmanagedVector) : UnmanagedVector := default UnmanagedVector_default p.
Definition output (p : option UnmanagedVector) : option bytes := v_bytes <$> consume (vector p).

(** The result of a call: an error by its code and message, or what [ok] makes of it. *)
Definition concluded {T} (code : GoError) (o : Outs) (default_msg : string) (gas_info : GasInfo) (ok : BackendError + T) : BackendResult T :=
  match into_result (GoError_from (GoError_code code)) (vector (o_err o)) default_msg with
  | Some err => (inl err, gas_info)
  | None => (ok, gas_info)
  end.

Definition GoStorage_get (key : bytes) : Run (BackendResult (option bytes)) :=
  co ← ffi (Get_ (U8SliceView_new (Some key))) (mkOuts (Some 0) None none None none);
  let '(code, o) := co in
  mret (concluded code o ("Failed to read a key in the db: " ++ from_utf8_lossy key) (with_externally_used (used_gas o))
          (inr (output (o_val o)))).

Definition GoStorage_set (key value : bytes) : Run (BackendResult unit) :=
  co ← ffi (Set_ (U8SliceView_new (Some key)) (U8SliceView_new (Some value))) (mkOuts (Some 0) None None None none);
  let '(code, o) := co in
  mret (concluded code o ("Failed to set a key in the db: " ++ from_utf8_lossy key) (with_externally_used (used_gas o)) (inr tt)).

Definition GoStorage_remove (key : bytes) : Run (BackendResult unit) :=
  co ← ffi (Delete_ (U8SliceView_new (Some key))) (mkOuts (Some 0) None None None none);
  let '(code, o) := co in
  mret (concluded code o ("Failed to delete a key in the db: " ++ from_utf8_lossy key) (with_externally_used (used_gas o)) (inr tt)).

(** [GoIter]: a stub until Go has filled in the reference, the meter and the table. *)
Definition GoIter : Type := option IteratorReference.
Definition GoIter_stub : GoIter := None.
Definition GoStorage : Type := gmap Z GoIter.

Inductive Order := Ascending | Descending.
Definition order_code (o : Order) : Z := match o with Ascending => 1 | Descending => 2 end.

Section Storage.
Context `{RustFormat}.

Definition GoStorage_scan (start end_ : option bytes) (order : Order) (self : GoStorage) : Run (res (BackendResult Z) * GoStorage) :=
  co ← ffi (Scan_ (U8SliceView_new start) (U8SliceView_new end_) (order_code order)) (mkOuts (Some 0) None None (Some GoIter_stub) none);
  let '(code, o) := co in
  let default_msg := ("Failed to read the next key between " ++ debug_str (from_utf8_lossy <$> start) ++ " and "
                      ++ debug_str (from_utf8_lossy <$> end_))%string in
  let next_id := Z.of_nat (size self) in
  match concluded code o default_msg (with_externally_used (used_gas o)) (inr tt) with
  | (inl err, gas_info) => mret (Ok (inl err, gas_info), self)
  | (inr _, gas_info) =>
      if 2 ^ 32 <=? next_id then mret (Panic "Iterator count exceeded uint32 range. This is a bug.", self)
      else mret (Ok (inr next_id, gas_info), <[next_id := default GoIter_stub (o_iter o)]> self)
  end.

End Storage.

(** What the reference of an iterator is passed to. *)
Definition with_iterator {T} (self : GoStorage) (iterator_id : Z) (function : string) (f : IteratorReference -> Run (BackendResult T)) :
    Run (res (BackendResult T)) :=
  match self !! iterator_id with
  | None => mret (Ok (inl (IteratorDoesNotExist iterator_id), free))
  | Some None => mret (Panic ("iterator vtable function '" ++ function ++ "' not set"))
  | Some (Some reference) => r ← f reference; mret (Ok r)
  end.

Definition GoIter_next (reference : IteratorReference) : Run (BackendResult (option (bytes * bytes))) :=
  co ← ffi (Next_ reference) (mkOuts (Some 0) none none None none);
  let '(code, o) := co in
  mret (concluded code o "Failed to fetch next item from iterator" (with_externally_used (used_gas o))
    match output (o_key o), output (o_val o) with
    | Some key, Some value => inr (Some (key, value))
    | Some _, None => inl (Unknown_ "Failed to read value while reading the next key in the db")
    | None, _ => inr None
    end).

Definition next_key_or_val (rq : Request) (outs : Outs) (out : Outs -> option UnmanagedVector) : Run (BackendResult (option bytes)) :=
  co ← ffi rq outs;
  let '(code, o) := co in
  mret (concluded code o "Failed to fetch next item from iterator" (with_externally_used (used_gas o)) (inr (output (out o)))).

Definition GoStorage_next (iterator_id : Z) (self : GoStorage) : Run (res (BackendResult (option (bytes * bytes)))) :=
  with_iterator self iterator_id "next" GoIter_next.
Definition GoStorage_next_key (iterator_id : Z) (self : GoStorage) : Run (res (BackendResult (option bytes))) :=
  with_iterator self iterator_id "next_key" (fun ref => next_key_or_val (NextKey_ ref) (mkOuts (Some 0) none None None none) o_key).
Definition GoStorage_next_value (iterator_id : Z) (self : GoStorage) : Run (res (BackendResult (option bytes))) :=
  with_iterator self iterator_id "next_value" (fun ref => next_key_or_val (NextValue_ ref) (mkOuts (Some 0) None none None none) o_val).

Definition addr_canonicalize (human : string) : Run (BackendResult bytes) :=
  co ← ffi (Canonicalize_ (U8SliceView_new (Some (string_to_bytes human)))) (mkOuts (Some 0) None none None none);
  let '(code, o) := co in
  mret (concluded code o ("Failed to canonicalize the address: " ++ human) (with_cost (used_gas o))
    match output (o_val o) with Some b => inr b | None => inl (Unknown_ "Unset output") end).

Definition addr_humanize `{RustFormat} (canonical : bytes) : Run (BackendResult string) :=
  co ← ffi (Humanize_ (U8SliceView_new (Some canonical))) (mkOuts (Some 0) None none None none);
  let '(code, o) := co in
  mret (concluded code o ("Failed to humanize the address: " ++ encode_upper canonical) (with_cost (used_gas o))
    match output (o_val o) with
    | Some human_data => match from_utf8 human_data with Some s => inr s | None => inl InvalidUtf8 end
    | None => inl (Unknown_ "Unset output")
    end).

Definition addr_validate (input : string) : Run (BackendResult unit) :=
  co ← ffi (Validate_ (U8SliceView_new (Some (string_to_bytes input)))) (mkOuts (Some 0) None None None none);
  let '(code, o) := co in
  mret (concluded code o ("Failed to validate the address: " ++ input) (with_cost (used_gas o)) (inr tt)).

(** [SystemResult<ContractResult<Binary>>], parsed by serde_json. *)
Inductive SystemResult := SystemOk (r : string + bytes) | SystemErr (e : SystemError).
Class ResultJson := { from_slice : bytes -> string + SystemResult }.

(** What is made of the answer to a query. *)
Definition parsed `{ResultJson} (bin_result : bytes) : SystemResult :=
  match from_slice bin_result with
  | inr r => r
  | inl e => SystemErr (InvalidResponse ("Parsing Go response: " ++ e) (bytes_to_string bin_result))
  end.

Definition query_raw `{ResultJson} (request : bytes) (gas_limit : Z) : Run (BackendResult SystemResult) :=
  co ← ffi (Query_ gas_limit (U8SliceView_new (Some request))) (mkOuts (Some 0) None none None none);
  let '(code, o) := co in
  mret (concluded code o ("Failed to query another contract with this request: " ++ from_utf8_lossy request) (with_externally_used (used_gas o))
    (inr (parsed (default [] (output (o_val o)))))).

(** ** What a contract can ask for *)

Inductive BackendCall :=
| BGet (key : bytes) | BSet (key value : bytes) | BRemove (key : bytes)
| BScan (start end_ : option bytes) (order : Order) | BNext (id : Z) | BNextKey (id : Z) | BNextValue (id : Z)
| BCanonicalize (human : string) | BHumanize (canonical : bytes) | BValidate (input : string)
| BQuery (request : bytes) (gas_limit : Z).

Inductive BackendAnswer :=
| AUnit | AValue (v : option bytes) | AId (id : Z) | ARecord (r : option (bytes * bytes))
| ABytes (b : bytes) | AString (s : string) | AResult (r : SystemResult).

Definition answered {T} (f : T -> BackendAnswer) (r : BackendResult T) : BackendResult BackendAnswer :=
  match r with (inr x, g) => (inr (f x), g) | (inl e, g) => (inl e, g) end.

Section Backend.
Context `{RustFormat} `{ResultJson}.

Definition res_map {A B} (f : A -> B) (r : res A) : res B := x ← r; Ok (f x).

(** The answer and the storage after it. *)
Definition Answering : Type := Run (res (BackendResult BackendAnswer) * GoStorage).
Definition plain {T} (self : GoStorage) (f : T -> BackendAnswer) (t : Run (BackendResult T)) : Answering :=
  r ← t; mret (Ok (answered f r), self).
Definition iterating {T} (self : GoStorage) (f : T -> BackendAnswer) (t : Run (res (BackendResult T))) : Answering :=
  r ← t; mret (res_map (answered f) r, self).

Definition backend (c : BackendCall) (self : GoStorage) : Answering :=
  match c with
  | BGet key => plain self AValue (GoStorage_get key)
  | BSet key value => plain self (fun _ => AUnit) (GoStorage_set key value)
  | BRemove key => plain self (fun _ => AUnit) (GoStorage_remove key)
  | BScan start end_ order => r ← GoStorage_scan start end_ order self; mret (res_map (answered AId) (fst r), snd r)
  | BNext id => iterating self ARecord (GoStorage_next id self)
  | BNextKey id => iterating self AValue (GoStorage_next_key id self)
  | BNextValue id => iterating self AValue (GoStorage_next_value id self)
  | BCanonicalize human => plain self ABytes (addr_canonicalize human)
  | BHumanize canonical => plain self AString (addr_humanize canonical)
  | BValidate input => plain self (fun _ => AUnit) (addr_validate input)
  | BQuery request gas_limit => plain self AResult (query_raw request gas_limit)
  end.

End Backend.

(** ** What the requests mean

    The same requests directly on the chain: without memory, codes and messages in
    between. *)

Section Meaning.
Context {H K I : Type} `{HostOps H K I} `{QueryJson} `{ResultJson}.
Abbreviation A := (Api H I).
Context (store : K) (callID : Z).
Context (human : option bytes -> string * Z * option string) (canon : string -> option bytes * Z * option string)
  (valid : string -> Z * option string) (querier : Querier (H := H) (I := I)).

Definition panic_error (p : string) : BackendError :=
  match recoverPanic p with GoError_OutOfGas => OutOfGas | GoError_BadArgument => BadArgument | _ => ForeignPanic end.

(** The first 8 KiB of an error, as text. *)
Definition user_message (e : string) : string := from_utf8_lossy (take MAX_ERROR_LEN (string_to_bytes e)).

(** An operation of the chain with the gas it takes, also when it panics. *)
Definition charged {T} (GasConsumed : H -> Z) (m : M A T) : M A (BackendResult T) := fun a =>
  let '(r, a') := m a in
  let before := GasConsumed (host a) in
  let after := GasConsumed (host a') in
  (Ok (match r with Ok x => inr x | Panic p => inl (panic_error p) | Err _ => inl ForeignPanic end,
       with_externally_used (if before <=? after then after - before else 0)), a').

Definition finished {T U} (f : T -> BackendError + U) (r : BackendResult T) : BackendResult U :=
  match r with (inr x, g) => (f x, g) | (inl e, g) => (inl e, g) end.

(** Nothing longer than 2^31-1 bytes is taken. *)
Definition too_long (b : bytes) : bool := MaxInt32 <? len b.
Definition guarded {T} (refuse : bool) (m : M A (BackendResult T)) : M A (BackendResult T) :=
  if refuse then mret (inl BadArgument, free) else m.

Definition attempt {T} (m : M A T) : M A (string + T) := fun a =>
  match m a with (Ok x, a') => (Ok (inr x), a') | (Err e, a') => (Ok (inl e), a') | (Panic p, a') => (Panic p, a') end.

Definition user {T} (r : string + T) : BackendError + T := match r with inl e => inl (UserErr (user_message e)) | inr x => inr x end.

(** The iterator with a number, if there is one; the part of its entry is read and
    finished by [f]. *)
Definition iterated {T U} (self : GoStorage) (id : Z) (function : string) (part : I -> M H T) (f : T -> BackendError + U) : M A (res (BackendResult U)) :=
  match self !! id with
  | None => mret (Ok (inl (IteratorDoesNotExist id), free))
  | Some None => mret (Panic ("iterator vtable function '" ++ function ++ "' not set"))
  | Some (Some ref) => fun a =>
      match retrieveIterator (call_id ref) (iterator_id ref) a with
      | Some i =>
          if call_id ref =? 0 then (Ok (Ok (inl BadArgument, free)), a)
          else (r ← charged gm_GasConsumed (in_host (part i)); mret (Ok (finished f r))) a
      | None => (Ok (Ok (inl BadArgument, free)), a)
      end
  end.

Definition entry_of (r : string + option (option bytes * option bytes)) : BackendError + option (bytes * bytes) :=
  match r with
  | inl e => inl (UserErr (user_message e))
  | inr (Some (Some k, Some v)) => inr (Some (k, v))
  | inr (Some (Some _, None)) => inl (Unknown_ "Failed to read value while reading the next key in the db")
  | inr _ => inr None
  end.
Definition part_of (r : string + option (option bytes)) : BackendError + option bytes :=
  match r with inl e => inl (UserErr (user_message e)) | inr x => inr (default None x) end.

(** An address function with its price. *)
Definition priced {T} (cost : Z) (err : option string) (ok : BackendError + T) : BackendResult T :=
  (match err with Some e => inl (UserErr (user_message e)) | None => ok end, with_cost cost).

Definition marshalled (r : QuerierResult) : BackendError + SystemResult :=
  match json_Marshal_result r with inl e => inl (Unknown_ (user_message e)) | inr bz => inr (parsed bz) end.

Definition meaning (c : BackendCall) (self : GoStorage) : M A (res (BackendResult BackendAnswer) * GoStorage) :=
  let plain {T} (f : T -> BackendAnswer) (m : M A (BackendResult T)) : M A (res (BackendResult BackendAnswer) * GoStorage) :=
    r ← m; mret (Ok (answered f r), self) in
  let iterating {T} (f : T -> BackendAnswer) (m : M A (res (BackendResult T))) : M A (res (BackendResult BackendAnswer) * GoStorage) :=
    r ← m; mret (res_map (answered f) r, self) in
  match c with
  | BGet key => plain AValue (guarded (too_long key) (charged gm_GasConsumed (in_host (kv_Get store (Some key)))))
  | BSet key value =>
      plain (fun _ => AUnit) (guarded (too_long key || too_long value) (charged gm_GasConsumed (in_host (kv_Set store (Some key) (Some value)))))
  | BRemove key => plain (fun _ => AUnit) (guarded (too_long key) (charged gm_GasConsumed (in_host (kv_Delete store (Some key)))))
  | BScan start end_ order =>
      let open := match order with Ascending => kv_Iterator | Descending => kv_ReverseIterator end in
      r ← guarded (too_long (default [] start) || too_long (default [] end_))
            (charged gm_GasConsumed (i ← in_host (open store start end_); attempt (buildIterator callID i)));
      match finished user r with
      | (inl e, g) => mret (Ok (inl e, g), self)
      | (inr ref, g) =>
          let next_id := Z.of_nat (size self) in
          if 2 ^ 32 <=? next_id then mret (Panic "Iterator count exceeded uint32 range. This is a bug.", self)
          else mret (Ok (inr (AId next_id), g), <[next_id := Some ref]> self)
      end
  | BNext id => iterating ARecord (iterated self id "next" readIteratorItem entry_of)
  | BNextKey id => iterating AValue (iterated self id "next_key" (fun i => readIteratorPart i it_Key) part_of)
  | BNextValue id => iterating AValue (iterated self id "next_value" (fun i => readIteratorPart i it_Value) part_of)
  | BCanonicalize addr =>
      plain ABytes (guarded (too_long (string_to_bytes addr)) (mret (
        let '(b, cost, err) := canon addr in
        priced cost err match b with Some b => if len b =? 0 then inl ForeignPanic else inr b | None => inl ForeignPanic end)))
  | BHumanize b =>
      plain AString (guarded (too_long b) (mret (
        let '(s, cost, err) := human (Some b) in
        priced cost err (if (String.length s =? 0)%nat then inl ForeignPanic
                         else if utf8_valid (String.length s) (string_to_bytes s) then inr s else inl InvalidUtf8))))
  | BValidate addr =>
      plain (fun _ => AUnit) (guarded (too_long (string_to_bytes addr)) (mret (
        let '(cost, err) := valid addr in priced cost err (inr tt))))
  | BQuery request gas_limit =>
      plain AResult (guarded (too_long request) (
        r ← charged querier_GasConsumed (RustQuery querier (Some request) gas_limit); mret (finished marshalled r)))
  end.

End Meaning.

(** ** Requests have the effect they mean *)

Section Refinement.
Context `{AllocatorLaws}.

Lemma GoBytes_all d : GoBytes (Some d) (len d) = d.
Proof. apply take_all. Qed.

Lemma output_new d : output (Some (newUnmanagedVector d)) = d.
Proof.
  destruct d as [d|]; [|done]. unfold newUnmanagedVector. destruct (Z.eqb_spec (len d) 0) as [E|E].
  { by rewrite (len_zero d E). }
  cbn. unfold copy_in. apply Z.eqb_neq in E as E'. rewrite E', GoBytes_all. unfold output, vector, UnmanagedVector_new, Vec_from.
  cbn. pose proof (capacity_enough d). assert (0 <= len d) by (unfold len; lia). destruct (Z.eqb_spec (capacity_for d) 0); [lia|].
  unfold consume. cbn. destruct (Z.eqb_spec (capacity_for d) 0); [lia|]. cbn. by rewrite GoBytes_all.
Qed.

#[export] Instance rust_vector_laws : VectorLaws.
Proof.
  split; [done|]. intros ptr n _ Hn Hl. cbn. unfold copy_in. destruct (Z.eqb_spec n 0) as [->|Hz].
  { cbn. split_and!; [done|done|lia|lia]. }
  assert (len (GoBytes ptr n) = n) as Hlen by (unfold GoBytes, len in *; rewrite length_take; lia).
  pose proof (capacity_enough (GoBytes ptr n)). unfold UnmanagedVector_new, Vec_from. cbn.
  destruct (Z.eqb_spec (capacity_for (GoBytes ptr n)) 0); [lia|]. cbn. rewrite Hlen. split_and!; [done|done|lia|].
  intros _. eexists. split; [done|]. unfold GoBytes. by rewrite take_take, Nat.min_id.
Qed.

Lemma copy_slice s : copyU8Slice (U8SliceView_new s) = if too_long (default [] s) then Panic ffiBoundError else Ok s.
Proof.
  unfold too_long. destruct s as [s|]; [|done]. cbn [default from_option id]. destruct (Z.eqb_spec (len s) 0) as [E|E].
  { by rewrite (len_zero s E). }
  unfold U8SliceView_new, copyU8Slice. cbn [view_none view_len view_ptr]. apply Z.eqb_neq in E. rewrite E. cbn. destruct (MaxInt32 <? len s); [done|].
  cbn. by rewrite GoBytes_all.
Qed.

Lemma concluded_panic {T} p o d g (ok : BackendError + T) : concluded (recoverPanic p) o d g ok = (inl (panic_error p), g).
Proof. unfold concluded, panic_error, recoverPanic. by repeat case_bool_decide. Qed.

Lemma error_text e d : build_error_msg (consume (vector (Some (newUnmanagedVector (Some (string_to_bytes e)))))) d = user_message e.
Proof.
  pose proof (output_new (Some (string_to_bytes e))) as Ho. unfold output in Ho. destruct (consume _) as [v|]; [|done].
  cbn in Ho. injection Ho as Ho. cbn. by rewrite Ho.
Qed.

Lemma concluded_user {T} e o d g (ok : BackendError + T) : o_err o = Some (newUnmanagedVector (Some (string_to_bytes e))) ->
  concluded GoError_User o d g ok = (inl (UserErr (user_message e)), g).
Proof. intros E. unfold concluded, into_result. rewrite E. cbn [GoError_code GoError_from]. by rewrite error_text. Qed.

Lemma concluded_unserialized {T} e o d g (ok : BackendError + T) : o_err o = Some (newUnmanagedVector (Some (string_to_bytes e))) ->
  concluded GoError_CannotSerialize o d g ok = (inl (Unknown_ (user_message e)), g).
Proof. intros E. unfold concluded, into_result. rewrite E. cbn [GoError_code GoError_from]. by rewrite error_text. Qed.

Lemma from_utf8_string s : from_utf8 (string_to_bytes s)
  = if utf8_valid (String.length s) (string_to_bytes s) then Some s else None.
Proof.
  unfold from_utf8. rewrite bytes_of_string. by rewrite <- (bytes_to_string_length (string_to_bytes s)), bytes_of_string.
Qed.

Context {H' K I : Type} `{HostOps H' K I} `{QueryJson} `{ResultJson} `{RustFormat}.
Abbreviation A := (Api H' I).

(** What is accounted for in Go is what is charged. *)
Lemma charged_run {T U} g (m : M A T) k code put (a : A) o d (read : Outs -> BackendError + U) (fin : T -> BackendError + U) :
  (forall x s, k x s = (Ok (code x), (fst s, put x (snd s)))) -> is_Some (o_used o) ->
  (forall x n, let o' := write_used n (put x o) in
     concluded (code x) o' d (with_externally_used (used_gas o')) (read o') = (fin x, with_externally_used n)) ->
  (let '(c, (a1, o')) := recovered (accountUsedGas g (x ← on_api m; k x)) (a, o) in
   (Ok (concluded c o' d (with_externally_used (used_gas o')) (read o')), a1)) = (r ← charged g m; mret (finished fin r)) a.
Proof.
  intros Hk Hu Hc. unfold charged, recovered, accountUsedGas, mbind, M_bind, on_api, zoom. cbn [fst snd].
  destruct (m a) as [r a1]. destruct r as [x|e|p]; cbn [fst snd].
  - rewrite Hk. cbn [fst snd]. by rewrite (Hc x).
  - destruct o as [[u|] ? ? ? ?]; [|by apply is_Some_None in Hu]. done.
  - rewrite concluded_panic. destruct o as [[u|] ? ? ? ?]; [|by apply is_Some_None in Hu]. done.
Qed.

Lemma pointers_given ok body (s : A * Outs) : ok (snd s) = true -> with_pointers ok body s = recovered body s.
Proof. intros Hok. unfold with_pointers, recovered, mbind, M_bind, gets. by rewrite Hok. Qed.

Lemma places_fresh test p body (s : A * Outs) : test (snd s) = true ->
  recovered (outs ← gets snd; mustM (test outs) p;; body) s = recovered body s.
Proof. intros Ht. unfold recovered, mbind, M_bind, gets, mustM, lift. by rewrite Ht. Qed.

Lemma bytes_copied b (k : option bytes -> M (A * Outs) GoError) s :
  recovered (x ← lift (copyU8Slice (U8SliceView_new b)); k x) s
  = if too_long (default [] b) then (GoError_BadArgument, s) else recovered (k b) s.
Proof. unfold recovered, mbind, M_bind, lift. rewrite copy_slice. by destruct (too_long _). Qed.

Lemma finished_inr {T} (r : BackendResult T) : finished inr r = r.
Proof. by destruct r as [[]]. Qed.

Lemma charged_all {T} g (m : M A T) a : (r ← charged g m; mret (finished inr r)) a = charged g m a.
Proof. unfold mbind, M_bind, charged. destruct (m a) as [r a']. cbn. by destruct r. Qed.

Context (store : K) (callID : Z).
Context (human : option bytes -> string * Z * option string) (canon : string -> option bytes * Z * option string)
  (valid : string -> Z * option string) (querier : Querier (H := H') (I := I)).
Abbreviation exec := (run (mkDB store callID) (mkGoAPI (Some human) (Some canon) (Some valid)) querier).

Lemma exec_bind {R S} (t : Run R) (k : R -> Run S) a : exec (t ≫= k) a = (r ← exec t; exec (k r)) a.
Proof.
  revert a. induction t as [r|rq st mt outs k' IH]; intros a; [done|]. unfold mbind, M_bind, Run_mbind in *.
  cbn [Run_bind run]. destruct (callback _ _ _ rq st mt (a, outs)) as [code [a' o]]. apply IH.
Qed.

Lemma exec_plain {T} self (f : T -> BackendAnswer) t (m : M A (BackendResult T)) a : exec t a = m a ->
  exec (plain self f t) a = (r ← m; mret (Ok (answered f r), self)) a.
Proof. intros E. unfold plain. rewrite exec_bind. unfold mbind, M_bind. rewrite E. by destruct (m a) as [[]]. Qed.

(** A callback after its checks. *)
Ltac callback_checks :=
  unfold ffi; cbn [run mbind Run_mbind Run_bind callback];
  unfold cGet, cSet, cDelete, cScan, cHumanizeAddress, cCanonicalizeAddress, cValidateAddress, cQueryExternal;
  rewrite pointers_given by done; rewrite ?places_fresh by done; rewrite ?bytes_copied; cbn [default from_option id].

Ltac api_steps :=
  unfold store_cost, user_error, mbind, M_bind, gets, mustM, lift, write, modify;
  cbn -[output newUnmanagedVector concluded String.length].

Lemma get_means key a : exec (GoStorage_get key) a = guarded (too_long key) (charged gm_GasConsumed (in_host (kv_Get store (Some key)))) a.
Proof.
  unfold GoStorage_get. callback_checks. unfold guarded. destruct (too_long key); [done|]. rewrite <- charged_all.
  apply (charged_run _ _ _ (fun _ => GoError_None) (fun v => write_val (newUnmanagedVector v))); [done|done|].
  intros x n. cbn -[output newUnmanagedVector]. by rewrite output_new.
Qed.

Lemma set_means key value a : exec (GoStorage_set key value) a
  = guarded (too_long key || too_long value) (charged gm_GasConsumed (in_host (kv_Set store (Some key) (Some value)))) a.
Proof.
  unfold GoStorage_set. callback_checks. unfold guarded. destruct (too_long key); [done|]. destruct (too_long value); [done|]. cbn [orb].
  rewrite <- charged_all. apply (charged_run _ _ _ (fun _ => GoError_None) (fun _ o => o)); [by intros [] []|done|by intros []].
Qed.

Lemma remove_means key a : exec (GoStorage_remove key) a
  = guarded (too_long key) (charged gm_GasConsumed (in_host (kv_Delete store (Some key)))) a.
Proof.
  unfold GoStorage_remove. callback_checks. unfold guarded. destruct (too_long key); [done|].
  rewrite <- charged_all. apply (charged_run _ _ _ (fun _ => GoError_None) (fun _ o => o)); [by intros [] []|done|by intros []].
Qed.

Lemma query_means request gas_limit a : exec (query_raw request gas_limit) a
  = guarded (too_long request) (r ← charged querier_GasConsumed (RustQuery querier (Some request) gas_limit); mret (finished marshalled r)) a.
Proof.
  unfold query_raw. callback_checks. unfold guarded. destruct (too_long request); [done|].
  apply (charged_run _ _ _ (fun r => match json_Marshal_result r with inl _ => GoError_CannotSerialize | inr _ => GoError_None end)
    (fun r => match json_Marshal_result r with
              | inl e => write_err (newUnmanagedVector (Some (string_to_bytes e)))
              | inr bz => write_val (newUnmanagedVector (Some bz))
              end)); [|done|].
  - intros r s. by destruct (json_Marshal_result r).
  - intros r n. unfold marshalled. destruct (json_Marshal_result r) as [e|bz]; cbv zeta; [by rewrite (concluded_unserialized e)|].
    cbn -[output newUnmanagedVector]. by rewrite output_new.
Qed.

Lemma canonicalize_means addr a : exec (addr_canonicalize addr) a
  = guarded (too_long (string_to_bytes addr)) (mret (
      let '(b, cost, err) := canon addr in
      priced cost err match b with Some b => if len b =? 0 then inl ForeignPanic else inr b | None => inl ForeignPanic end)) a.
Proof.
  unfold addr_canonicalize. callback_checks. unfold guarded. destruct (too_long _); [done|]. unfold recovered, mbind, M_bind, api_function, mret, M_ret.
  cbn [mbind option_bind CanonicalizeAddress default from_option id]. rewrite bytes_of_string.
  destruct (canon addr) as [[b cost] [e|]].
  - api_steps. by rewrite (concluded_user e).
  - destruct b as [b|]; [|done]. cbn [default from_option id]. destruct (len b =? 0); [done|]. api_steps.
    by rewrite output_new.
Qed.

Lemma humanize_means b a : exec (addr_humanize b) a
  = guarded (too_long b) (mret (
      let '(s, cost, err) := human (Some b) in
      priced cost err (if (String.length s =? 0)%nat then inl ForeignPanic
                       else if utf8_valid (String.length s) (string_to_bytes s) then inr s else inl InvalidUtf8))) a.
Proof.
  unfold addr_humanize. callback_checks. unfold guarded. destruct (too_long b); [done|]. unfold recovered, mbind, M_bind, api_function, mret, M_ret.
  cbn [mbind option_bind HumanizeAddress default from_option id].
  destruct (human (Some b)) as [[s cost] [e|]].
  - api_steps. by rewrite (concluded_user e).
  - destruct (String.length s =? 0)%nat eqn:E; api_steps; [done|].
    cbn -[output newUnmanagedVector String.length]. rewrite output_new, from_utf8_string. by destruct (utf8_valid _ _).
Qed.

Lemma validate_means addr a : exec (addr_validate addr) a
  = guarded (too_long (string_to_bytes addr)) (mret (let '(cost, err) := valid addr in priced cost err (inr tt))) a.
Proof.
  unfold addr_validate. callback_checks. unfold guarded. destruct (too_long _); [done|]. unfold recovered, mbind, M_bind, api_function, mret, M_ret.
  cbn [mbind option_bind ValidateAddress default from_option id]. rewrite bytes_of_string.
  destruct (valid addr) as [cost [e|]]; [|done]. api_steps. by rewrite (concluded_user e).
Qed.

Lemma pointers_missing ok body (s : A * Outs) : ok (snd s) = false -> with_pointers ok body s = (GoError_BadArgument, s).
Proof. intros Hok. unfold with_pointers, recovered, mbind, M_bind, gets. by rewrite Hok. Qed.

Lemma read_state {T} (g : A -> T) (k : T -> M (A * Outs) GoError) s : recovered (f ← on_api (gets g); k f) s = recovered (k (g (fst s))) s.
Proof. by destruct s. Qed.

(** What is found for a reference, read and reported. *)
Definition by_reference {T U} (ref : IteratorReference) (part : I -> M H' T) (f : T -> BackendError + U) : M A (BackendResult U) := fun a =>
  match retrieveIterator (call_id ref) (iterator_id ref) a with
  | Some i =>
      if call_id ref =? 0 then (Ok (inl BadArgument, free), a)
      else (r ← charged gm_GasConsumed (in_host (part i)); mret (finished f r)) a
  | None => (Ok (inl BadArgument, free), a)
  end.

Lemma next_means ref a : exec (GoIter_next ref) a = by_reference ref readIteratorItem entry_of a.
Proof.
  unfold GoIter_next, ffi, by_reference. cbn [run mbind Run_mbind Run_bind callback]. unfold cNext.
  destruct (Z.eqb_spec (call_id ref) 0) as [E|E].
  { rewrite pointers_missing by done. by destruct (retrieveIterator _ _ a). }
  rewrite pointers_given, places_fresh, read_state by done. cbn [fst]. destruct (retrieveIterator _ _ a) as [i|]; [|done].
  apply (charged_run _ _ _ (fun r => match r with inl _ => GoError_User | inr _ => GoError_None end)
    (fun r => match r with
              | inl e => write_err (newUnmanagedVector (Some (string_to_bytes e)))
              | inr (Some (k, v)) => fun o => write_val (newUnmanagedVector v) (write_key (newUnmanagedVector k) o)
              | inr None => fun o => o
              end)); [|done|].
  - by intros [e|[[k v]|]] [].
  - intros [e|[[k v]|]] n; cbv zeta; [by rewrite (concluded_user e)| |done]. cbn -[output newUnmanagedVector]. rewrite !output_new.
    by destruct k, v.
Qed.

(** The two functions for a part of the entry, which is written by [put]. *)
Ltac next_part put ref :=
  unfold next_key_or_val, ffi, by_reference; cbn [run mbind Run_mbind Run_bind callback]; unfold cNextKey, cNextValue, nextPart;
  destruct (Z.eqb_spec (call_id ref) 0);
  [rewrite pointers_missing by done; by destruct (retrieveIterator _ _ _)|];
  rewrite pointers_given, places_fresh, read_state by done; cbn [fst]; destruct (retrieveIterator _ _ _) as [i|]; [|done];
  apply (charged_run _ _ _ (fun r => match r with inl _ => GoError_User | inr _ => GoError_None end)
    (fun r => match r with
              | inl e => write_err (newUnmanagedVector (Some (string_to_bytes e)))
              | inr (Some v) => put (newUnmanagedVector v)
              | inr None => fun o => o
              end));
  [by intros [e|[v|]] []|done|];
  intros [e|[v|]] used; cbv zeta; [by rewrite (concluded_user e)| |done]; cbn -[output newUnmanagedVector]; by rewrite output_new.

Lemma next_key_means ref a : exec (next_key_or_val (NextKey_ ref) (mkOuts (Some 0) none None None none) o_key) a
  = by_reference ref (fun i => readIteratorPart i it_Key) part_of a.
Proof. next_part write_key ref. Qed.

Lemma next_value_means ref a : exec (next_key_or_val (NextValue_ ref) (mkOuts (Some 0) None none None none) o_val) a
  = by_reference ref (fun i => readIteratorPart i it_Value) part_of a.
Proof. next_part write_val ref. Qed.

Lemma exec_iterator {T U} self id function (t : IteratorReference -> Run (BackendResult U)) (part : I -> M H' T) f a :
  (forall ref a, exec (t ref) a = by_reference ref part f a) ->
  exec (with_iterator self id function t) a = iterated self id function part f a.
Proof.
  intros Ht. unfold with_iterator, iterated. destruct (self !! id) as [[ref|]|]; [|done..]. rewrite exec_bind.
  unfold mbind, M_bind. rewrite Ht. unfold by_reference. destruct (retrieveIterator _ _ a) as [i|]; [|done]. destruct (call_id ref =? 0); [done|].
  unfold mbind, M_bind, charged. by destruct (in_host (part i) a).
Qed.

Lemma exec_iterating {T} self (f : T -> BackendAnswer) t (m : M A (res (BackendResult T))) a : exec t a = m a ->
  exec (iterating self f t) a = (r ← m; mret (res_map (answered f) r, self)) a.
Proof. intros E. unfold iterating. rewrite exec_bind. unfold mbind, M_bind. rewrite E. by destruct (m a) as [[]]. Qed.

Lemma accounted_ext g (m m' : M (A * Outs) GoError) s : m s = m' s -> recovered (accountUsedGas g m) s = recovered (accountUsedGas g m') s.
Proof. intros E. unfold recovered, accountUsedGas. by rewrite E. Qed.

(** An iterator is opened and kept, or the contract is told why not. *)
Definition kept (r : string + IteratorReference) : M (A * Outs) GoError :=
  match r with inl e => user_error e | inr ref => write (write_iter ref);; mret GoError_None end.

Lemma keep_attempt (open : M A I) s :
  (i ← on_api open; keep_iterator callID i) s = (r ← on_api (i ← open; attempt (buildIterator callID i)); kept r) s.
Proof.
  unfold mbind, M_bind, on_api, zoom, keep_iterator, attempt. destruct s as [a o]. cbn [fst snd]. destruct (open a) as [[i|e|p] a']; [|done..].
  unfold on_api, zoom. cbn [fst snd]. by destruct (buildIterator callID i a') as [[ref|e|p] a''].
Qed.

(** What is made of a scan: the iterator gets the next number. *)
Definition numbered (self : GoStorage) (r : BackendResult GoIter) : res (BackendResult Z) * GoStorage :=
  let next_id := Z.of_nat (size self) in
  match r with
  | (inl e, g) => (Ok (inl e, g), self)
  | (inr it, g) =>
      if 2 ^ 32 <=? next_id then (Panic "Iterator count exceeded uint32 range. This is a bug.", self)
      else (Ok (inr next_id, g), <[next_id := it]> self)
  end.

Definition filled (r : string + IteratorReference) : BackendError + GoIter :=
  match user r with inl e => inl e | inr ref => inr (Some ref) end.

Lemma scan_numbers start end_ order self a :
  exec (GoStorage_scan start end_ order self) a
  = let '(code, (a', o)) := callback (mkDB store callID) (mkGoAPI (Some human) (Some canon) (Some valid)) querier
      (Scan_ (U8SliceView_new start) (U8SliceView_new end_) (order_code order)) true true (a, mkOuts (Some 0) None None (Some GoIter_stub) none) in
    (Ok (numbered self (concluded code o ("Failed to read the next key between " ++ debug_str (from_utf8_lossy <$> start) ++ " and "
      ++ debug_str (from_utf8_lossy <$> end_)) (with_externally_used (used_gas o)) (inr (default GoIter_stub (o_iter o))))), a').
Proof.
  unfold GoStorage_scan, ffi. cbn [run mbind Run_mbind Run_bind]. destruct (callback _ _ _ _ _ _ _) as [code [a' o]]. unfold numbered, concluded.
  destruct (into_result _ _ _); [done|]. by destruct (2 ^ 32 <=? _).
Qed.

Lemma scan_means start end_ order self a :
  let open := match order with Ascending => kv_Iterator | Descending => kv_ReverseIterator end in
  exec (GoStorage_scan start end_ order self) a
  = (r ← guarded (too_long (default [] start) || too_long (default [] end_))
          (charged gm_GasConsumed (i ← in_host (open store start end_); attempt (buildIterator callID i)));
     mret (numbered self (finished filled r))) a.
Proof.
  cbv zeta. rewrite scan_numbers. cbn [callback]. unfold cScan. rewrite pointers_given, places_fresh by done. rewrite bytes_copied.
  unfold guarded. destruct (too_long (default [] start)); [done|]. rewrite bytes_copied. destruct (too_long (default [] end_)); [done|]. cbn [orb].
  set (open := match order with Ascending => kv_Iterator | Descending => kv_ReverseIterator end).
  rewrite (accounted_ext _ _ (r ← on_api (i ← in_host (open store start end_); attempt (buildIterator callID i)); kept r))
    by (destruct order; apply keep_attempt).
  set (m := i ← in_host _; _).
  pose proof (charged_run gm_GasConsumed m kept (fun r => match r with inl _ => GoError_User | inr _ => GoError_None end)
    (fun r => match r with inl e => write_err (newUnmanagedVector (Some (string_to_bytes e))) | inr ref => write_iter ref end)
    a (mkOuts (Some 0) None None (Some GoIter_stub) none)
    ("Failed to read the next key between " ++ debug_str (from_utf8_lossy <$> start) ++ " and " ++ debug_str (from_utf8_lossy <$> end_))
    (fun o => inr (default GoIter_stub (o_iter o))) filled) as Hc.
  specialize (Hc ltac:(by intros [] []) ltac:(done) ltac:(intros [e|ref] n; cbv zeta; [by rewrite (concluded_user e)|done])).
  destruct (recovered _ _) as [c [a1 o']]. unfold mbind, M_bind in Hc |- *.
  destruct (charged gm_GasConsumed m a) as [[r|e|p] a2]; [|done..]. by injection Hc as -> ->.
Qed.

Lemma backend_means c self a :
  exec (backend c self) a = meaning store callID human canon valid querier c self a.
Proof.
  destruct c; cbn [backend meaning].
  - apply exec_plain, get_means.
  - apply exec_plain, set_means.
  - apply exec_plain, remove_means.
  - rewrite exec_bind. unfold mbind at 1, M_bind at 1. rewrite scan_means. set (m := guarded _ _). clearbody m.
    unfold mbind, M_bind. destruct (m a) as [[[[e|[e|ref]] g]|e|p] a']; try done. cbn -[Z.pow]. by destruct (2 ^ 32 <=? Z.of_nat (size self)).
  - apply exec_iterating, exec_iterator, next_means.
  - apply exec_iterating, exec_iterator, next_key_means.
  - apply exec_iterating, exec_iterator, next_value_means.
  - apply exec_plain, canonicalize_means.
  - apply exec_plain, humanize_means.
  - apply exec_plain, validate_means.
  - apply exec_plain, query_means.
Qed.

(** C18: what a contract asks of the chain through the virtual machine, across two
    languages and memory shared by pointers, has exactly the effect it means:
    reading, writing and removing an entry, opening an iterator and stepping through
    it, converting and checking addresses, and queries do the one operation of the
    chain they stand for, return its result unchanged, report the gas it took even
    when it panics, and turn panics, refusals and messages into the errors meant for
    them; arguments longer than 2^31-1 bytes are refused without any effect. *)
Theorem requests_mean_operations c self a :
  exec (backend c self) a = meaning store callID human canon valid querier c self a.
Proof. apply backend_means. Qed.

End Refinement.
