(* ===== verification/LibCalls.v ===== *)
(** * libwasmvm: the functions exported to Go

    The entry points of contracts (wasmvm/libwasmvm/src/calls.rs), the operations on
    the cache of compiled code and circuits (cache.rs), and the way their errors are
    reported: a number in errno and a message (error/rust.rs).  The cache and the
    machine are those of the crate cosmwasm-vm and are parameters: a contract that
    runs is a tree of requests to the chain (LibBackend). *)

From Stdlib Require Import ZArith Lia.
From stdpp Require Import base gmap strings list.
From S2P Require Import Prelude GoLib Varint WasmQueryTypes VmHost LibBackend.

(** ** Errors *)

Inductive RustError :=
| EmptyArg (name : string) | InvalidText (msg : string) | MessagePack (msg : string) | Json (msg : string)
| RanOut | Panicked | UnsetArg (name : string) | ChecksumError | VmErr (msg : string).

(** The text of an error. *)
Definition RustError_to_string (e : RustError) : string :=
  match e with
  | EmptyArg name => "Empty argument: " ++ name
  | InvalidText msg => "Cannot decode UTF8 bytes into string: " ++ msg
  | MessagePack msg => "Cannot deserialize from MessagePack: " ++ msg
  | Json msg => "Cannot serialize to / deserialize from JSON: " ++ msg
  | RanOut => "Ran out of gas"
  | Panicked => "Caught panic"
  | UnsetArg name => "Null/Nil argument: " ++ name
  | ChecksumError => "Checksum not of length 32"
  | VmErr msg => "Error calling the VM: " ++ msg
  end.

(** [cosmwasm_vm::VmError]: the one that is told apart and the others, with their
    texts. *)
Inductive VmError := GasDepletion (msg : string) | OtherVmError (msg : string).
Definition vm_text (e : VmError) : string := match e with GasDepletion msg | OtherVmError msg => msg end.

Definition from_vm (source : VmError) : RustError := match source with GasDepletion _ => RanOut | OtherVmError msg => VmErr msg end.

(** [ErrnoValue]. *)
Definition errno_Success : Z := 0.
Definition errno_Other : Z := 1.
Definition errno_OutOfGas : Z := 2.

Section Errors.
Context `{Allocator}.

(** errno and the message, which is only written if there is a place for it. *)
Definition set_error (err : RustError) (error_msg : option UnmanagedVector) : Z * option UnmanagedVector :=
  (match err with RanOut => errno_OutOfGas | _ => errno_Other end,
   option_map (fun _ => UnmanagedVector_new (Some (Vec_from (string_to_bytes (RustError_to_string err))))) error_msg).

(** What a C function leaves behind: its value, errno and the message. *)
Definition Returned (T : Type) : Type := T * Z * option UnmanagedVector.

Definition handle_c_error_default {T} (default_ : T) (result : RustError + T) (error_msg : option UnmanagedVector) : Returned T :=
  match result with
  | inr value => (value, errno_Success, error_msg)
  | inl error => let '(errno, msg) := set_error error error_msg in (default_, errno, msg)
  end.

Definition handle_c_error_binary (result : RustError + bytes) (error_msg : option UnmanagedVector) : Returned Vec :=
  match result with
  | inr value => (Vec_from value, errno_Success, error_msg)
  | inl error => let '(errno, msg) := set_error error error_msg in (Vec_new, errno, msg)
  end.

(** [UnmanagedVector::new(Some(data))] on the value. *)
Definition binary (result : RustError + bytes) (error_msg : option UnmanagedVector) : Returned UnmanagedVector :=
  let '(data, errno, msg) := handle_c_error_binary result error_msg in (UnmanagedVector_new (Some data), errno, msg).

End Errors.

(** ** The machine *)

(** [GasReport]. *)
Record GasReport := mkReport { Limit : Z; Remaining : Z; UsedExternally : Z; UsedInternally : Z }.
Definition no_report : GasReport := mkReport 0 0 0 0.

Record VmAnalysis := mkVmAnalysis {
  va_ibc : bool; va_capabilities : list string; va_entrypoints : list string; va_migrate_version : option Z }.

(** The cache; sets are listed in their order. *)
Class CacheOps (H Inst : Type) := {
  cache_store_code : bytes -> bool -> bool -> M H (VmError + bytes);
  cache_store_circuit : bytes -> bool -> M H (VmError + bytes);
  cache_store_param : bytes -> M H (VmError + bytes);
  cache_remove_wasm : bytes -> M H (VmError + unit);
  cache_remove_circuit : bytes -> M H (VmError + unit);
  cache_load_wasm : bytes -> M H (VmError + bytes);
  cache_load_circuit : bytes -> M H (VmError + option (string + bytes));
  cache_pin : bytes -> M H (VmError + unit);
  cache_unpin : bytes -> M H (VmError + unit);
  cache_pin_circuit : bytes -> M H (VmError + unit);
  cache_unpin_circuit : bytes -> M H (VmError + unit);
  cache_sync_pinned_codes : list bytes -> M H (VmError + unit);
  cache_sync_pinned_circuits : list bytes -> M H (VmError + unit);
  cache_analyze : bytes -> M H (VmError + VmAnalysis);
  cache_get_instance : bytes -> Z -> M H (VmError + Inst) }.

(** What a contract does: it asks, and in the end returns or panics; then the gas
    is reported. *)
Inductive Contract :=
| Finished (r : res (VmError + bytes)) (report : GasReport)
| Asks (c : BackendCall) (k : BackendResult BackendAnswer -> Contract).

Class Machine (Inst : Type) := { call_raw : string -> Inst -> list bytes -> Contract }.

Section Perform.
Context `{RustFormat} `{ResultJson}.

(** The requests of a contract, with the storage it got. *)
Fixpoint perform (t : Contract) (self : GoStorage) : Run (res ((VmError + bytes) * GasReport)) :=
  match t with
  | Finished r report => mret (x ← r; mret (x, report))
  | Asks c k =>
      r ← backend c self;
      match r with
      | (Ok x, self') => perform (k x) self'
      | (Err e, _) => mret (Err e)
      | (Panic p, _) => mret (Panic p)
      end
  end.

End Perform.

(** ** Exported functions

    [cache] says whether the pointer to the cache is not null, and [error_msg] and
    [gas_report] are the places for these results. *)

(** [as_chunks]: the complete chunks of a slice. *)
Fixpoint chunks (fuel n : nat) (l : bytes) : list bytes :=
  match fuel with
  | O => []
  | S fuel => if (length l <? n)%nat then [] else take n l :: chunks fuel n (drop n l)
  end.
Definition as_chunks (n : nat) (l : bytes) : list bytes := chunks (length l) n l.

(** [AnalysisReport] with the [OptionalU64] for the version. *)
Record CAnalysisReport := mkCReport {
  has_ibc_entry_points : bool; entrypoints : UnmanagedVector; required_capabilities : UnmanagedVector;
  contract_migrate_version : bool * Z }.

Definition OptionalU64_from (opt : option Z) : bool * Z := match opt with None => (false, 0) | Some value => (true, value) end.
Definition set_to_csv (set : list string) : string := String.concat "," set.

Definition CAnalysisReport_from `{Allocator} (report : VmAnalysis) : CAnalysisReport :=
  let csv l := UnmanagedVector_new (Some (Vec_from (string_to_bytes (set_to_csv l)))) in
  mkCReport (va_ibc report) (csv (va_entrypoints report)) (csv (va_capabilities report)) (OptionalU64_from (va_migrate_version report)).
Definition CAnalysisReport_default : CAnalysisReport := mkCReport false UnmanagedVector_default UnmanagedVector_default (false, 0).

Module C.

Declare Scope rust_scope.
Open Scope rust_scope.

Section Exported.
Context {H K I Inst : Type} `{HostOps H K I} `{QueryJson} `{ResultJson} `{RustFormat} `{Allocator} `{CacheOps H Inst} `{Machine Inst}.
Abbreviation A := (Api H I).

(** Rust functions that return a [Result]. *)
Definition R (T : Type) : Type := M A (RustError + T).
Definition ok {T} (x : T) : R T := mret (inr x).
Definition fails {T} (e : RustError) : R T := mret (inl e).
Definition rbind {T U} (m : R T) (k : T -> R U) : R U := fun a =>
  match m a with
  | (Ok (inr x), a') => k x a'
  | (Ok (inl e), a') => (Ok (inl e), a')
  | (Err e, a') => (Err e, a')
  | (Panic p, a') => (Panic p, a')
  end.
Local Notation "x <~ y ; z" := (rbind y (fun x => z)) (at level 20, y at level 100, z at level 200, only parsing) : rust_scope.

(** An operation of the cache with [?]. *)
Definition cached {T} (m : M H (VmError + T)) : R T := fun a =>
  match in_host m a with
  | (Ok (inr x), a') => (Ok (inr x), a')
  | (Ok (inl e), a') => (Ok (inl (from_vm e)), a')
  | (Err e, a') => (Err e, a')
  | (Panic p, a') => (Panic p, a')
  end.

Definition ok_or {T} (o : option T) (e : RustError) : R T := match o with Some x => ok x | None => fails e end.

Definition catch_unwind {T} (m : R T) : R T := fun a => match m a with (Ok r, a') => (Ok r, a') | (_, a') => (Ok (inl Panicked), a') end.

(** [to_cache] and [catch_unwind] around a function. *)
Definition with_cache {T} (cache : bool) (m : R T) : R T := if cache then catch_unwind m else fails (UnsetArg "cache").

(** The end of an exported function. *)
Definition exported {T U} (handle : RustError + T -> option UnmanagedVector -> Returned U) (m : R T) (error_msg : option UnmanagedVector) :
    M A (Returned U) := r ← m; mret (handle r error_msg).
Definition in_binary := exported binary.
Definition in_unit := exported (handle_c_error_default tt).

(** [Checksum::try_from] and the arrays of 72 bytes. *)
Definition checksum_arg (checksum : ByteSliceView) : R bytes :=
  b <~ ok_or (ByteSliceView_read checksum) (UnsetArg "checksum");
  if len b =? 32 then ok b else fails ChecksumError.
Definition circuit_key_arg (checksum : ByteSliceView) : R bytes :=
  b <~ ok_or (ByteSliceView_read checksum) (UnsetArg "checksum");
  if len b =? 72 then ok b else fails (VmErr "circuit key must be 72 bytes").

(** *** The cache *)

Definition do_store_code (wasm : ByteSliceView) (checked persist : bool) : R bytes :=
  wasm <~ ok_or (ByteSliceView_read wasm) (UnsetArg "wasm");
  cached (cache_store_code wasm checked persist).
Definition store_code (cache : bool) (wasm : ByteSliceView) (checked persist : bool) : option UnmanagedVector -> M A (Returned UnmanagedVector) :=
  in_binary (with_cache cache (do_store_code wasm checked persist)).

Definition do_store_circuit (zk : ByteSliceView) (persist : bool) : R bytes :=
  vk <~ ok_or (ByteSliceView_read zk) (UnsetArg "wasm");
  cached (cache_store_circuit vk persist).
Definition store_circuit (cache : bool) (wasm : ByteSliceView) (persist : bool) : option UnmanagedVector -> M A (Returned UnmanagedVector) :=
  in_binary (with_cache cache (do_store_circuit wasm persist)).

Definition do_store_code_with_circuit (wasm vk : ByteSliceView) (persist unchecked : bool) : R bytes :=
  wasm <~ ok_or (ByteSliceView_read wasm) (UnsetArg "wasm");
  vk <~ ok_or (ByteSliceView_read vk) (UnsetArg "wasm");
  let checked := negb unchecked in
  code_checksum <~ cached (cache_store_code wasm checked persist);
  circuit_key <~ cached (cache_store_circuit vk persist);
  ok (code_checksum ++ circuit_key).
Definition store_code_with_circuit (cache : bool) (wasm vk : ByteSliceView) (persist unchecked : bool) :
    option UnmanagedVector -> M A (Returned UnmanagedVector) :=
  in_binary (with_cache cache (do_store_code_with_circuit wasm vk persist unchecked)).

Definition do_store_param (param : ByteSliceView) : R bytes :=
  p <~ ok_or (ByteSliceView_read param) (UnsetArg "wasm");
  cached (cache_store_param p).
Definition store_param (cache : bool) (param : ByteSliceView) : option UnmanagedVector -> M A (Returned UnmanagedVector) :=
  in_binary (with_cache cache (do_store_param param)).

Definition remove_wasm (cache : bool) (checksum : ByteSliceView) : option UnmanagedVector -> M A (Returned unit) :=
  in_unit (with_cache cache (checksum <~ checksum_arg checksum; cached (cache_remove_wasm checksum))).
Definition load_wasm (cache : bool) (checksum : ByteSliceView) : option UnmanagedVector -> M A (Returned UnmanagedVector) :=
  in_binary (with_cache cache (checksum <~ checksum_arg checksum; cached (cache_load_wasm checksum))).
Definition pin (cache : bool) (checksum : ByteSliceView) : option UnmanagedVector -> M A (Returned unit) :=
  in_unit (with_cache cache (checksum <~ checksum_arg checksum; cached (cache_pin checksum))).
Definition unpin (cache : bool) (checksum : ByteSliceView) : option UnmanagedVector -> M A (Returned unit) :=
  in_unit (with_cache cache (checksum <~ checksum_arg checksum; cached (cache_unpin checksum))).

Definition remove_circuit (cache : bool) (checksum : ByteSliceView) : option UnmanagedVector -> M A (Returned unit) :=
  in_unit (with_cache cache (key <~ circuit_key_arg checksum; cached (cache_remove_circuit key))).
Definition pin_circuit (cache : bool) (checksum : ByteSliceView) : option UnmanagedVector -> M A (Returned unit) :=
  in_unit (with_cache cache (key <~ circuit_key_arg checksum; cached (cache_pin_circuit key))).
Definition unpin_circuit (cache : bool) (checksum : ByteSliceView) : option UnmanagedVector -> M A (Returned unit) :=
  in_unit (with_cache cache (key <~ circuit_key_arg checksum; cached (cache_unpin_circuit key))).

(** An error of the cache becomes a text before it is an error of the machine. *)
Definition do_load_circuit (checksum : ByteSliceView) : R bytes :=
  key <~ circuit_key_arg checksum;
  vk_data <~ (r ← in_host (cache_load_circuit key); mret (inr r) : M A _);
  match vk_data with
  | inl e => fails (VmErr ("Failed to load circuit from cache: " ++ vm_text e))
  | inr (Some (inr b)) => ok b
  | inr (Some (inl e)) => fails (VmErr e)
  | inr None => fails (VmErr "Circuit not found in cache for given checksum")
  end.
Definition load_circuit (cache : bool) (checksum : ByteSliceView) : option UnmanagedVector -> M A (Returned UnmanagedVector) :=
  in_binary (with_cache cache (do_load_circuit checksum)).

(** Each chunk has the length of a checksum. *)
Definition do_sync_pinned_codes (checksums : ByteSliceView) : R unit :=
  checksums <~ ok_or (ByteSliceView_read checksums) (UnsetArg "checksums");
  cached (cache_sync_pinned_codes (as_chunks 32 checksums)).
Definition sync_pinned_codes (cache : bool) (checksums : ByteSliceView) : option UnmanagedVector -> M A (Returned unit) :=
  in_unit (with_cache cache (do_sync_pinned_codes checksums)).

Definition do_sync_pinned_circuits (circuit_keys : ByteSliceView) : R unit :=
  raw <~ ok_or (ByteSliceView_read circuit_keys) (UnsetArg "checksums");
  if negb (len raw mod 72 =? 0) then fails (InvalidText "circuit keys length must be multiple of 72")
  else cached (cache_sync_pinned_circuits (as_chunks 72 raw)).
Definition sync_pinned_circuits (cache : bool) (circuit_keys : ByteSliceView) : option UnmanagedVector -> M A (Returned unit) :=
  in_unit (with_cache cache (do_sync_pinned_circuits circuit_keys)).

Definition do_analyze_code (checksum : ByteSliceView) : R CAnalysisReport :=
  checksum <~ checksum_arg checksum;
  report <~ cached (cache_analyze checksum);
  ok (CAnalysisReport_from report).
Definition analyze_code (cache : bool) (checksum : ByteSliceView) : option UnmanagedVector -> M A (Returned CAnalysisReport) :=
  exported (handle_c_error_default CAnalysisReport_default) (with_cache cache (do_analyze_code checksum)).

(** *** Contracts *)

Section Calls.
Context (db : DBState K) (api : GoAPI) (querier : Querier (H := H) (I := I)).

Fixpoint read_args (args : list (string * ByteSliceView)) : R (list bytes) :=
  match args with
  | [] => ok []
  | (name, v) :: args => b <~ ok_or (ByteSliceView_read v) (UnsetArg name); l <~ read_args args; ok (b :: l)
  end.

(** The result, and the report as it is written. *)
Definition do_call (vm_fn : string) (checksum : ByteSliceView) (args : list (string * ByteSliceView)) (gas_limit : Z)
    (gas_report : option GasReport) : R ((VmError + bytes) * GasReport) :=
  gas_report <~ ok_or gas_report (EmptyArg "gas_report");
  checksum <~ checksum_arg checksum;
  args <~ read_args args;
  instance <~ cached (cache_get_instance checksum gas_limit);
  fun a =>
    match run db api querier (perform (call_raw vm_fn instance args) ∅) a with
    | (Ok (Ok x), a') => (Ok (inr x), a')
    | (Ok (Err e), a') | (Err e, a') => (Err e, a')
    | (Ok (Panic p), a') | (Panic p, a') => (Panic p, a')
    end.

Definition call_args (vm_fn : string) (cache : bool) (checksum : ByteSliceView) (args : list (string * ByteSliceView)) (gas_limit : Z)
    (gas_report : option GasReport) (error_msg : option UnmanagedVector) : M A (Returned UnmanagedVector * option GasReport) :=
  r ← with_cache cache (do_call vm_fn checksum args gas_limit gas_report);
  mret (match r with
        | inl e => (binary (inl e) error_msg, gas_report)
        | inr (inl e, report) => (binary (inl (from_vm e)) error_msg, option_map (fun _ => report) gas_report)
        | inr (inr data, report) => (binary (inr data) error_msg, option_map (fun _ => report) gas_report)
        end).

Definition call_2_args (vm_fn : string) (cache : bool) (checksum arg1 arg2 : ByteSliceView) (gas_limit : Z) :=
  call_args vm_fn cache checksum [("arg1"%string, arg1); ("arg2"%string, arg2)] gas_limit.
Definition call_3_args (vm_fn : string) (cache : bool) (checksum arg1 arg2 arg3 : ByteSliceView) (gas_limit : Z) :=
  call_args vm_fn cache checksum [("arg1"%string, arg1); ("arg2"%string, arg2); ("arg3"%string, arg3)] gas_limit.

Definition instantiate := call_3_args "call_instantiate_raw".
Definition execute := call_3_args "call_execute_raw".
Definition migrate := call_2_args "call_migrate_raw".
Definition migrate_with_info := call_3_args "call_migrate_with_info_raw".
Definition sudo := call_2_args "call_sudo_raw".
Definition reply := call_2_args "call_reply_raw".
Definition query := call_2_args "call_query_raw".
Definition ibc_channel_open := call_2_args "call_ibc_channel_open_raw".
Definition ibc_channel_connect := call_2_args "call_ibc_channel_connect_raw".
Definition ibc_channel_close := call_2_args "call_ibc_channel_close_raw".
Definition ibc_packet_receive := call_2_args "call_ibc_packet_receive_raw".
Definition ibc_packet_ack := call_2_args "call_ibc_packet_ack_raw".
Definition ibc_packet_timeout := call_2_args "call_ibc_packet_timeout_raw".
Definition ibc_source_callback := call_2_args "call_ibc_source_callback_raw".
Definition ibc_destination_callback := call_2_args "call_ibc_destination_callback_raw".
Definition ibc2_packet_receive := call_2_args "call_ibc2_packet_receive_raw".
Definition ibc2_packet_ack := call_2_args "call_ibc2_packet_ack_raw".
Definition ibc2_packet_timeout := call_2_args "call_ibc2_packet_timeout_raw".
Definition ibc2_packet_send := call_2_args "call_ibc2_packet_send_raw".

End Calls.

End Exported.

End C.

(** ** What a call means

    A contract directly on the chain, with the meaning of its requests. *)

Section Conduct.
Context {H K I Inst : Type} `{HostOps H K I} `{QueryJson} `{ResultJson}.
Abbreviation A := (Api H I).
Context (store : K) (callID : Z).
Context (human : option bytes -> string * Z * option string) (canon : string -> option bytes * Z * option string)
  (valid : string -> Z * option string) (querier : Querier (H := H) (I := I)).

Fixpoint conduct (t : Contract) (self : GoStorage) : M A (res ((VmError + bytes) * GasReport)) :=
  match t with
  | Finished r report => mret (x ← r; mret (x, report))
  | Asks c k => fun a =>
      match meaning store callID human canon valid querier c self a with
      | (Ok (Ok x, self'), a') => conduct (k x) self' a'
      | (Ok (Err e, _), a') => (Ok (Err e), a')
      | (Ok (Panic p, _), a') => (Ok (Panic p), a')
      | (Err e, a') => (Err e, a')
      | (Panic p, a') => (Panic p, a')
      end
  end.

Context `{AllocatorLaws} `{RustFormat}.

Lemma perform_means t self a :
  run (mkDB store callID) (mkGoAPI (Some human) (Some canon) (Some valid)) querier (perform t self) a = conduct t self a.
Proof.
  revert self a. induction t as [r report|c k IH]; intros self a; [done|]. cbn [perform conduct].
  rewrite exec_bind. unfold mbind, M_bind. rewrite backend_means.
  destruct (meaning _ _ _ _ _ _ c self a) as [[[[x|e|p] self']|e|p] a']; [apply IH|done..].
Qed.

End Conduct.
