(* ===== verification/VmCalls.v ===== *)
(** * wasmvm: calling the virtual machine

    The Go side of the calls into libwasmvm: the functions of
    wasmvm/internal/api/lib.go (module [api]), which pass bytes across the boundary
    and turn errno into errors, and the methods of [VM] in wasmvm/lib_libwasmvm.go
    (module [VM]), which convert to and from JSON and account for gas.  The results
    say what an entry point does in terms of the contract and the chain alone, what
    gas is reported, and that stored code is read back. *)

From Stdlib Require Import ZArith Lia.
From stdpp Require Import base gmap strings list pretty.
From S2P Require Import Prelude Sdk GoLib Varint WasmGas WasmQueryTypes VmHost LibBackend LibCalls.

(** [types.OutOfGasError], an error with a text, and [syscall.Errno]. *)
Inductive GoLibError := OutOfGasError | Message (s : string) | Errno (n : Z).

Definition errorWithMessage (errno : Z) (b : UnmanagedVector) : res GoLibError :=
  msg ← copyAndDestroyUnmanagedVector b;
  mret (if errno =? 2 then OutOfGasError
        else match msg with None => Errno errno | Some msg => Message (bytes_to_string msg) end).

(** [strings.Split(s, ",")]. *)
Fixpoint split_commas (s : string) : list string :=
  match s with
  | EmptyString => [""%string]
  | String c s =>
      match split_commas s with
      | w :: l => if Ascii.eqb c (Ascii.ascii_of_nat 44) then ""%string :: w :: l else String c w :: l
      | [] => []
      end
  end.

Definition optionalU64ToPtr (val : bool * Z) : option Z := if fst val then Some (snd val) else None.

(** [types.AnalysisReport]. *)
Record AnalysisReport := mkAnalysis {
  HasIBCEntryPoints : bool; RequiredCapabilities : string; Entrypoints : list string; ContractMigrateVersion : option Z }.

Definition checkAndPinAPI (api : option GoAPI) : res GoAPI :=
  match api with
  | None => Panic "API must not be nil."
  | Some api =>
      must (bool_decide (is_Some (HumanizeAddress api))) "HumanizeAddress in API must not be nil.";;
      must (bool_decide (is_Some (CanonicalizeAddress api))) "CanonicalizeAddress in API must not be nil.";;
      must (bool_decide (is_Some (ValidateAddress api))) "ValidateAddress in API must not be nil.";;
      mret api
  end.

Definition checkAndPinQuerier {H I : Type} (querier : option (Querier (H := H) (I := I))) : res (Querier (H := H) (I := I)) :=
  match querier with None => Panic "Querier must not be nil." | Some q => Ok q end.

Module api.

Section Api.
Context {H K I Inst : Type} `{HostOps H K I} `{QueryJson} `{ResultJson} `{RustFormat} `{Allocator} `{CacheOps H Inst} `{Machine Inst}.
Abbreviation A := (Api H I).
Context (cache : bool).

(** The result of a C function, or its error. *)
Definition checked {T U} (f : option UnmanagedVector -> M A (Returned T)) (copy : T -> res U) : M A (option U * option GoLibError) :=
  r ← f (Some uninitializedUnmanagedVector);
  let '(value, errno, errmsg) := r in
  if negb (errno =? 0) then err ← lift (errorWithMessage errno (vector errmsg)); mret (None, Some err)
  else x ← lift (copy value); mret (Some x, None).

(** A slice is nil with an error. *)
Definition slice (r : option (option bytes) * option GoLibError) : option bytes * option GoLibError := (default None (fst r), snd r).
Definition bytes_of (f : option UnmanagedVector -> M A (Returned UnmanagedVector)) : M A (option bytes * option GoLibError) :=
  r ← checked f copyAndDestroyUnmanagedVector; mret (slice r).
Definition error_of (f : option UnmanagedVector -> M A (Returned unit)) : M A (option GoLibError) :=
  r ← checked f Ok; mret (snd r).

Definition StoreCodeWithCircuit (wasm vk : option bytes) (persist unchecked : bool) : M A (option bytes * option GoLibError) :=
  bytes_of (C.store_code_with_circuit cache (makeView wasm) (makeView vk) persist unchecked).
Definition StoreCode (wasm : option bytes) (persist : bool) : M A (option bytes * option GoLibError) :=
  bytes_of (C.store_code cache (makeView wasm) true persist).
Definition StoreCircuit (vk : option bytes) (persist : bool) : M A (option bytes * option GoLibError) :=
  bytes_of (C.store_circuit cache (makeView vk) persist).
Definition StoreCircuitUnchecked (zk : option bytes) : M A (option bytes * option GoLibError) :=
  bytes_of (C.store_circuit cache (makeView zk) true).
Definition StoreParam (param : option bytes) : M A (option bytes * option GoLibError) := bytes_of (C.store_param cache (makeView param)).
Definition StoreCodeUnchecked (wasm : option bytes) : M A (option bytes * option GoLibError) :=
  bytes_of (C.store_code cache (makeView wasm) false true).
Definition RemoveCode (checksum : option bytes) : M A (option GoLibError) := error_of (C.remove_wasm cache (makeView checksum)).
Definition RemoveCircuit (checksum : option bytes) : M A (option GoLibError) := error_of (C.remove_circuit cache (makeView checksum)).
Definition GetCode (checksum : option bytes) : M A (option bytes * option GoLibError) := bytes_of (C.load_wasm cache (makeView checksum)).
Definition GetCircuit (checksum : option bytes) : M A (option bytes * option GoLibError) := bytes_of (C.load_circuit cache (makeView checksum)).
Definition Pin (checksum : option bytes) : M A (option GoLibError) := error_of (C.pin cache (makeView checksum)).
Definition PinCircuit (checksum : option bytes) : M A (option GoLibError) := error_of (C.pin_circuit cache (makeView checksum)).
Definition Unpin (checksum : option bytes) : M A (option GoLibError) := error_of (C.unpin cache (makeView checksum)).
Definition UnpinCircuit (checksum : option bytes) : M A (option GoLibError) := error_of (C.unpin_circuit cache (makeView checksum)).
Definition SyncPinnedCodes (checksums : option bytes) : M A (option GoLibError) := error_of (C.sync_pinned_codes cache (makeView checksums)).
Definition SyncPinnedCircuits (circuitKeys : option bytes) : M A (option GoLibError) := error_of (C.sync_pinned_circuits cache (makeView circuitKeys)).

Definition AnalyzeCode (checksum : option bytes) : M A (option AnalysisReport * option GoLibError) :=
  checked (C.analyze_code cache (makeView checksum)) (fun report =>
    requiredCapabilities ← copyAndDestroyUnmanagedVector (required_capabilities report);
    entrypoints_ ← copyAndDestroyUnmanagedVector (entrypoints report);
    mret (mkAnalysis (has_ibc_entry_points report) (bytes_to_string (default [] requiredCapabilities))
            (split_commas (bytes_to_string (default [] entrypoints_))) (optionalU64ToPtr (contract_migrate_version report)))).

(** *** Entry points *)

Definition Called : Type := option bytes * GasReport * option GoLibError.
Definition Entry : Type := K -> option GoAPI -> option (Querier (H := H) (I := I)) -> Z -> M A Called.

Definition entry (f : DBState K -> GoAPI -> Querier (H := H) (I := I) -> Z -> option GasReport -> option UnmanagedVector ->
    M A (Returned UnmanagedVector * option GasReport)) : Entry := fun store api querier gasLimit =>
  api ← lift (checkAndPinAPI api);
  querier ← lift (checkAndPinQuerier querier);
  in_call (fun callID =>
    r ← f (mkDB store callID) api querier gasLimit (Some no_report) (Some uninitializedUnmanagedVector);
    let '((value, errno, errmsg), gasReport) := r in
    let gasReport := default no_report gasReport in
    if negb (errno =? 0) then err ← lift (errorWithMessage errno (vector errmsg)); mret (None, gasReport, Some err)
    else data ← lift (copyAndDestroyUnmanagedVector value); mret (data, gasReport, None)).

Definition Instantiate (checksum env info msg : option bytes) : Entry :=
  entry (fun db api querier => C.instantiate db api querier cache (makeView checksum) (makeView env) (makeView info) (makeView msg)).
Definition Execute (checksum env info msg : option bytes) : Entry :=
  entry (fun db api querier => C.execute db api querier cache (makeView checksum) (makeView env) (makeView info) (makeView msg)).
Definition MigrateWithInfo (checksum env msg migrateInfo : option bytes) : Entry :=
  entry (fun db api querier => C.migrate_with_info db api querier cache (makeView checksum) (makeView env) (makeView msg) (makeView migrateInfo)).
Definition Migrate (checksum env msg : option bytes) : Entry :=
  entry (fun db api querier => C.migrate db api querier cache (makeView checksum) (makeView env) (makeView msg)).
Definition Sudo (checksum env msg : option bytes) : Entry :=
  entry (fun db api querier => C.sudo db api querier cache (makeView checksum) (makeView env) (makeView msg)).
Definition Reply (checksum env reply : option bytes) : Entry :=
  entry (fun db api querier => C.reply db api querier cache (makeView checksum) (makeView env) (makeView reply)).
Definition Query (checksum env msg : option bytes) : Entry :=
  entry (fun db api querier => C.query db api querier cache (makeView checksum) (makeView env) (makeView msg)).
Definition IBCChannelOpen (checksum env msg : option bytes) : Entry :=
  entry (fun db api querier => C.ibc_channel_open db api querier cache (makeView checksum) (makeView env) (makeView msg)).
Definition IBCChannelConnect (checksum env msg : option bytes) : Entry :=
  entry (fun db api querier => C.ibc_channel_connect db api querier cache (makeView checksum) (makeView env) (makeView msg)).
Definition IBCChannelClose (checksum env msg : option bytes) : Entry :=
  entry (fun db api querier => C.ibc_channel_close db api querier cache (makeView checksum) (makeView env) (makeView msg)).
Definition IBCPacketReceive (checksum env packet : option bytes) : Entry :=
  entry (fun db api querier => C.ibc_packet_receive db api querier cache (makeView checksum) (makeView env) (makeView packet)).
Definition IBC2PacketReceive (checksum env payload : option bytes) : Entry :=
  entry (fun db api querier => C.ibc2_packet_receive db api querier cache (makeView checksum) (makeView env) (makeView payload)).
Definition IBC2PacketAck (checksum env payload : option bytes) : Entry :=
  entry (fun db api querier => C.ibc2_packet_ack db api querier cache (makeView checksum) (makeView env) (makeView payload)).
Definition IBC2PacketTimeout (checksum env payload : option bytes) : Entry :=
  entry (fun db api querier => C.ibc2_packet_timeout db api querier cache (makeView checksum) (makeView env) (makeView payload)).
Definition IBC2PacketSend (checksum env payload : option bytes) : Entry :=
  entry (fun db api querier => C.ibc2_packet_send db api querier cache (makeView checksum) (makeView env) (makeView payload)).
Definition IBCPacketAck (checksum env ack : option bytes) : Entry :=
  entry (fun db api querier => C.ibc_packet_ack db api querier cache (makeView checksum) (makeView env) (makeView ack)).
Definition IBCPacketTimeout (checksum env packet : option bytes) : Entry :=
  entry (fun db api querier => C.ibc_packet_timeout db api querier cache (makeView checksum) (makeView env) (makeView packet)).
Definition IBCSourceCallback (checksum env msg : option bytes) : Entry :=
  entry (fun db api querier => C.ibc_source_callback db api querier cache (makeView checksum) (makeView env) (makeView msg)).
Definition IBCDestinationCallback (checksum env msg : option bytes) : Entry :=
  entry (fun db api querier => C.ibc_destination_callback db api querier cache (makeView checksum) (makeView env) (makeView msg)).

End Api.

End api.

(** ** The methods of [VM] *)

Definition compileCost (code : option bytes) : Z := u64 (3 * 140000 * len (default [] code)).

Definition ChecksumLen : Z := 32.
Definition CircuitKeyLen : Z := 72.
Definition CombinedStoreIDLen : Z := ChecksumLen + CircuitKeyLen.

Definition SplitCombinedStoreIDs (combined : option bytes) : GoLibError + bytes * bytes :=
  let combined := default [] combined in
  if negb (len combined =? CombinedStoreIDLen) then
    inl (Message ("invalid combined store id length: expected 104 (wasm 32 + circuit 72), got " ++ pretty (len combined)))
  else inr (take 32 combined, drop 32 combined).

(** Conversion to JSON of what is passed, and from JSON of what comes back; a
    response with submessages has their payloads. *)
Class Marshal (E : Type) := { json_Marshal : E -> string + bytes }.
Class Response (T : Type) := { json_Unmarshal : bytes -> string + T; SubMessages : T -> option (list bytes) }.

Definition ReplyPayloadMaxBytes : Z := 128 * 1024.

(** The first payload that is too large, with its index. *)
Fixpoint large_payload (i : Z) (l : list bytes) : option (Z * Z) :=
  match l with
  | [] => None
  | p :: l => if ReplyPayloadMaxBytes <? len p then Some (i, len p) else large_payload (i + 1) l
  end.

(** The report as it is changed, and the response. *)
Definition DeserializeResponse {T} `{Response T} (gasLimit : Z) (deserCost : UFraction) (gasReport : GasReport) (data : option bytes) :
    res (GasReport * (GoLibError + T)) :=
  let data := default [] data in
  gasForDeserialization ← UFraction_Floor (UFraction_Mul deserCost (len data));
  if gasLimit <? u64 (gasForDeserialization + UsedInternally gasReport) then
    mret (gasReport, inl (Message ("insufficient gas left to deserialize contract execution result (" ++ pretty (len data) ++ " bytes)")))
  else
    let gasReport := mkReport (Limit gasReport) (u64 (Remaining gasReport - gasForDeserialization)) (UsedExternally gasReport)
                       (u64 (UsedInternally gasReport + gasForDeserialization)) in
    mret (gasReport,
      match json_Unmarshal data with
      | inl err => inl (Message err)
      | inr response =>
          match large_payload 0 (default [] (SubMessages response)) with
          | Some (i, n) => inl (Message ("reply contains submessage at index " ++ pretty i ++ " with payload larger than 131072 bytes: " ++ pretty n ++ " bytes"))
          | None => inr response
          end
      end).

Module VM.

Section Vm.
Context {H K I Inst : Type} `{HostOps H K I} `{QueryJson} `{ResultJson} `{RustFormat} `{Allocator} `{CacheOps H Inst} `{Machine Inst}.
Abbreviation A := (Api H I).
Context (cache : bool).

(** Storing costs gas, which is also reported if it does not suffice. *)
Definition Stored (T : Type) : Type := T * Z * option GoLibError.
Definition charged_store {T} (gasCost gasLimit : Z) (none : T) (store : M A (T * option GoLibError)) : M A (Stored T) :=
  if gasLimit <? gasCost then mret (none, gasCost, Some OutOfGasError)
  else r ← store; mret (fst r, gasCost, snd r).

Definition both (r : option bytes * option GoLibError) : list bytes * option GoLibError :=
  match r with
  | (_, Some err) => ([], Some err)
  | (combined, None) => match SplitCombinedStoreIDs combined with inl err => ([], Some err) | inr (code, circuit) => ([code; circuit], None) end
  end.

Definition StoreCircuit (zk : option bytes) (gasLimit : Z) : M A (Stored (option bytes)) :=
  charged_store (compileCost zk) gasLimit None (api.StoreCircuit cache zk true).
Definition StoreCodeWithCircuit (wasm vk : option bytes) (gasLimit : Z) : M A (Stored (list bytes)) :=
  charged_store (u64 (compileCost wasm + compileCost vk)) gasLimit []
    (r ← api.StoreCodeWithCircuit cache wasm vk true false; mret (both r)).
Definition StoreCode (code : option bytes) (gasLimit : Z) : M A (Stored (option bytes)) :=
  charged_store (compileCost code) gasLimit None (api.StoreCode cache code true).
Definition SimulateStoreCodeWithCircuit (code zk : option bytes) (gasLimit : Z) : M A (Stored (list bytes)) :=
  charged_store (u64 (compileCost code + compileCost zk)) gasLimit []
    (r ← api.StoreCodeWithCircuit cache code zk false false; mret (both r)).
Definition SimulateStoreCircuit (zk : option bytes) (gasLimit : Z) : M A (Stored (option bytes)) :=
  charged_store (compileCost zk) gasLimit None (api.StoreCircuit cache zk false).
Definition SimulateStoreCode (code : option bytes) (gasLimit : Z) : M A (Stored (option bytes)) :=
  charged_store (compileCost code) gasLimit None (api.StoreCode cache code false).
Definition StoreCodeUnchecked (code : option bytes) : M A (option bytes * option GoLibError) := api.StoreCodeUnchecked cache code.
Definition StoreCircuitUnchecked (code : option bytes) : M A (option bytes * option GoLibError) := api.StoreCircuitUnchecked cache code.
Definition GetCode (checksum : option bytes) : M A (option bytes * option GoLibError) := api.GetCode cache checksum.
Definition GetCircuit (checksum : option bytes) : M A (option bytes * option GoLibError) := api.GetCircuit cache checksum.
Definition StoreParam (param : option bytes) : M A (option bytes * option GoLibError) := api.StoreParam cache param.
Definition AnalyzeCode (checksum : option bytes) : M A (option AnalysisReport * option GoLibError) := api.AnalyzeCode cache checksum.
Definition RemoveCode (checksum : option bytes) : M A (option GoLibError) := api.RemoveCode cache checksum.
Definition RemoveCircuit (checksum : option bytes) : M A (option GoLibError) := api.RemoveCircuit cache checksum.
Definition Pin (checksum : option bytes) : M A (option GoLibError) := api.Pin cache checksum.
Definition PinCircuit (checksum : option bytes) : M A (option GoLibError) := api.PinCircuit cache checksum.
Definition Unpin (checksum : option bytes) : M A (option GoLibError) := api.Unpin cache checksum.
Definition UnpinCircuit (checksum : option bytes) : M A (option GoLibError) := api.UnpinCircuit cache checksum.
Definition SyncPinnedCodes (checksums : list bytes) : M A (option GoLibError) := api.SyncPinnedCodes cache (Some (concat checksums)).
Definition SyncPinnedCircuits (circuitKeys : list bytes) : M A (option GoLibError) := api.SyncPinnedCircuits cache (Some (concat circuitKeys)).

(** *** Entry points *)

Definition Responded (T : Type) : Type := option T * Z * option GoLibError.
(** Store, API, querier, limit and price of deserialisation. *)
Definition VmEntry (T : Type) : Type := K -> GoAPI -> Querier (H := H) (I := I) -> Z -> UFraction -> M A (Responded T).

Definition marshal {E T} `{Marshal E} (x : E) (k : option bytes -> VmEntry T) : VmEntry T := fun store goapi querier gasLimit deserCost =>
  match json_Marshal x with
  | inl err => mret (None, 0, Some (Message err))
  | inr b => k (Some b) store goapi querier gasLimit deserCost
  end.

Definition respond {T} `{Response T} (call : api.Entry (H := H) (K := K) (I := I)) : VmEntry T := fun store goapi querier gasLimit deserCost =>
  r ← call store (Some goapi) (Some querier) gasLimit;
  let '(data, gasReport, err) := r in
  match err with
  | Some err => mret (None, UsedInternally gasReport, Some err)
  | None =>
      d ← lift (DeserializeResponse gasLimit deserCost gasReport data);
      match d with
      | (gasReport, inl err) => mret (None, UsedInternally gasReport, Some err)
      | (gasReport, inr result) => mret (Some result, UsedInternally gasReport, None)
      end
  end.

Context {ContractResult QueryResult IBCChannelOpenResult IBCBasicResult IBCReceiveResult : Type}.
Context `{Response ContractResult} `{Response QueryResult} `{Response IBCChannelOpenResult} `{Response IBCBasicResult} `{Response IBCReceiveResult}.

Definition Instantiate {E F} `{Marshal E} `{Marshal F} (checksum : option bytes) (env : E) (info : F) (initMsg : option bytes) : VmEntry ContractResult :=
  marshal env (fun envBin => marshal info (fun infoBin => respond (api.Instantiate cache checksum envBin infoBin initMsg))).
Definition Execute {E F} `{Marshal E} `{Marshal F} (checksum : option bytes) (env : E) (info : F) (executeMsg : option bytes) : VmEntry ContractResult :=
  marshal env (fun envBin => marshal info (fun infoBin => respond (api.Execute cache checksum envBin infoBin executeMsg))).
Definition MigrateWithInfo {E F} `{Marshal E} `{Marshal F} (checksum : option bytes) (env : E) (migrateMsg : option bytes) (migrateInfo : F) : VmEntry ContractResult :=
  marshal env (fun envBin => marshal migrateInfo (fun migrateBin => respond (api.MigrateWithInfo cache checksum envBin migrateMsg migrateBin))).
Definition Query {E} `{Marshal E} (checksum : option bytes) (env : E) (msg : option bytes) : VmEntry QueryResult :=
  marshal env (fun envBin => respond (api.Query cache checksum envBin msg)).
Definition Migrate {E} `{Marshal E} (checksum : option bytes) (env : E) (msg : option bytes) : VmEntry ContractResult :=
  marshal env (fun envBin => respond (api.Migrate cache checksum envBin msg)).
Definition Sudo {E} `{Marshal E} (checksum : option bytes) (env : E) (msg : option bytes) : VmEntry ContractResult :=
  marshal env (fun envBin => respond (api.Sudo cache checksum envBin msg)).
Definition Reply {E F} `{Marshal E} `{Marshal F} (checksum : option bytes) (env : E) (msg : F) : VmEntry ContractResult :=
  marshal env (fun envBin => marshal msg (fun msgBin => respond (api.Reply cache checksum envBin msgBin))).
Definition IBCChannelOpen {E F} `{Marshal E} `{Marshal F} (checksum : option bytes) (env : E) (msg : F) : VmEntry IBCChannelOpenResult :=
  marshal env (fun envBin => marshal msg (fun msgBin => respond (api.IBCChannelOpen cache checksum envBin msgBin))).
Definition IBCChannelConnect {E F} `{Marshal E} `{Marshal F} (checksum : option bytes) (env : E) (msg : F) : VmEntry IBCBasicResult :=
  marshal env (fun envBin => marshal msg (fun msgBin => respond (api.IBCChannelConnect cache checksum envBin msgBin))).
Definition IBCChannelClose {E F} `{Marshal E} `{Marshal F} (checksum : option bytes) (env : E) (msg : F) : VmEntry IBCBasicResult :=
  marshal env (fun envBin => marshal msg (fun msgBin => respond (api.IBCChannelClose cache checksum envBin msgBin))).
Definition IBCPacketReceive {E F} `{Marshal E} `{Marshal F} (checksum : option bytes) (env : E) (msg : F) : VmEntry IBCReceiveResult :=
  marshal env (fun envBin => marshal msg (fun msgBin => respond (api.IBCPacketReceive cache checksum envBin msgBin))).
Definition IBC2PacketReceive {E F} `{Marshal E} `{Marshal F} (checksum : option bytes) (env : E) (msg : F) : VmEntry IBCReceiveResult :=
  marshal env (fun envBin => marshal msg (fun msgBin => respond (api.IBC2PacketReceive cache checksum envBin msgBin))).
Definition IBC2PacketAck {E F} `{Marshal E} `{Marshal F} (checksum : option bytes) (env : E) (msg : F) : VmEntry IBCBasicResult :=
  marshal env (fun envBin => marshal msg (fun msgBin => respond (api.IBC2PacketAck cache checksum envBin msgBin))).
Definition IBC2PacketTimeout {E F} `{Marshal E} `{Marshal F} (checksum : option bytes) (env : E) (msg : F) : VmEntry IBCBasicResult :=
  marshal env (fun envBin => marshal msg (fun msgBin => respond (api.IBC2PacketTimeout cache checksum envBin msgBin))).
Definition IBC2PacketSend {E F} `{Marshal E} `{Marshal F} (checksum : option bytes) (env : E) (msg : F) : VmEntry IBCBasicResult :=
  marshal env (fun envBin => marshal msg (fun msgBin => respond (api.IBC2PacketSend cache checksum envBin msgBin))).
Definition IBCPacketAck {E F} `{Marshal E} `{Marshal F} (checksum : option bytes) (env : E) (msg : F) : VmEntry IBCBasicResult :=
  marshal env (fun envBin => marshal msg (fun msgBin => respond (api.IBCPacketAck cache checksum envBin msgBin))).
Definition IBCPacketTimeout {E F} `{Marshal E} `{Marshal F} (checksum : option bytes) (env : E) (msg : F) : VmEntry IBCBasicResult :=
  marshal env (fun envBin => marshal msg (fun msgBin => respond (api.IBCPacketTimeout cache checksum envBin msgBin))).
Definition IBCSourceCallback {E F} `{Marshal E} `{Marshal F} (checksum : option bytes) (env : E) (msg : F) : VmEntry IBCBasicResult :=
  marshal env (fun envBin => marshal msg (fun msgBin => respond (api.IBCSourceCallback cache checksum envBin msgBin))).
Definition IBCDestinationCallback {E F} `{Marshal E} `{Marshal F} (checksum : option bytes) (env : E) (msg : F) : VmEntry IBCBasicResult :=
  marshal env (fun envBin => marshal msg (fun msgBin => respond (api.IBCDestinationCallback cache checksum envBin msgBin))).

End Vm.

End VM.

(** ** What an entry point does *)

Section Meaning.
Context {H K I Inst : Type} `{HostOps H K I} `{QueryJson} `{ResultJson} `{RustFormat} `{AllocatorLaws} `{CacheOps H Inst} `{Machine Inst}.
Abbreviation A := (Api H I).
Context (store : K).
Context (human : option bytes -> string * Z * option string) (canon : string -> option bytes * Z * option string)
  (valid : string -> Z * option string) (querier : Querier (H := H) (I := I)).
Abbreviation goapi := (mkGoAPI (Some human) (Some canon) (Some valid)).

(** The error of a failed call, by its text unless gas ran out. *)
Definition reported (e : RustError) : GoLibError := match e with RanOut => OutOfGasError | _ => Message (RustError_to_string e) end.
Definition failed_call (e : RustError) (report : GasReport) : M A api.Called :=
  if too_long (string_to_bytes (RustError_to_string e)) then panic ffiBoundError else mret (None, report, Some (reported e)).

(** The first thing missing of the arguments. *)
Fixpoint all_given (i : Z) (args : list (option bytes)) : RustError + list bytes :=
  match args with
  | [] => inr []
  | None :: _ => inl (UnsetArg ("arg" ++ pretty i))
  | Some b :: args => match all_given (i + 1) args with inl e => inl e | inr l => inr (b :: l) end
  end.
Definition arguments (checksum : option bytes) (args : list (option bytes)) : RustError + bytes * list bytes :=
  match checksum with
  | None => inl (UnsetArg "checksum")
  | Some c => if len c =? 32 then match all_given 1 args with inl e => inl e | inr l => inr (c, l) end else inl ChecksumError
  end.

(** The contract itself: loaded, run on the chain, and its data or error with the
    gas it reports; a panic is an error without a report. *)
Definition contract_call (vm_fn : string) (checksum : option bytes) (args : list (option bytes)) (gasLimit callID : Z) : M A api.Called :=
  match arguments checksum args with
  | inl e => failed_call e no_report
  | inr (c, args) => fun a =>
      match in_host (cache_get_instance c gasLimit) a with
      | (Ok (inr instance), a) =>
          match conduct store callID human canon valid querier (call_raw vm_fn instance args) ∅ a with
          | (Ok (Ok (inr data, report)), a) => if too_long data then (Panic ffiBoundError, a) else (Ok (Some data, report, None), a)
          | (Ok (Ok (inl e, report)), a) => failed_call (from_vm e) report a
          | (_, a) => failed_call Panicked no_report a
          end
      | (Ok (inl e), a) => failed_call (from_vm e) no_report a
      | (_, a) => failed_call Panicked no_report a
      end
  end.

Lemma view_read s : ByteSliceView_read (makeView s) = s.
Proof.
  destruct s as [s|]; [|done]. unfold makeView. destruct (Z.eqb_spec (len s) 0) as [E|E]; [by rewrite (len_zero s E)|].
  unfold ByteSliceView_read. cbn. apply Z.eqb_neq in E. by rewrite E, GoBytes_all.
Qed.

(** Bytes that Rust returns. *)
Lemma copy_returned b : copyAndDestroyUnmanagedVector (UnmanagedVector_new (Some (Vec_from b)))
  = if too_long b then Panic ffiBoundError else Ok (Some b).
Proof.
  unfold UnmanagedVector_new, Vec_from, too_long. cbn. pose proof (capacity_enough b). assert (0 <= len b) by (unfold len; lia).
  destruct (Z.eqb_spec (capacity_for b) 0) as [E|E].
  { assert (len b = 0) as El by lia. by rewrite (len_zero b El). }
  unfold copyAndDestroyUnmanagedVector. cbn. apply Z.eqb_neq in E as ->. destruct (Z.ltb_spec (capacity_for b) (len b)); [lia|].
  destruct (MaxInt32 <? len b); [done|]. cbn. by rewrite GoBytes_all.
Qed.

Lemma error_returned e : let '(errno, msg) := set_error e (Some uninitializedUnmanagedVector) in
  (errno =? 0) = false /\ errorWithMessage errno (vector msg)
    = if too_long (string_to_bytes (RustError_to_string e)) then Panic ffiBoundError else Ok (reported e).
Proof.
  unfold set_error. split; [by destruct e|]. unfold errorWithMessage. cbn [option_map vector default from_option id]. rewrite copy_returned.
  destruct (too_long _); [done|]. cbn. rewrite bytes_of_string. by destruct e.
Qed.

Fixpoint named (i : Z) (args : list (option bytes)) : list (string * ByteSliceView) :=
  match args with [] => [] | x :: args => (("arg" ++ pretty i)%string, makeView x) :: named (i + 1) args end.

Lemma read_given i args (a : A) : C.read_args (named i args) a = (Ok (all_given i args), a).
Proof.
  revert i. induction args as [|x args IH]; intros i; [done|]. cbn [named C.read_args all_given]. unfold C.rbind, C.ok_or. rewrite view_read.
  destruct x as [b|]; [|done]. cbn. rewrite IH. by destruct (all_given (i + 1) args).
Qed.

Lemma checksum_given checksum (a : A) : C.checksum_arg (makeView checksum) a
  = (Ok (match checksum with None => inl (UnsetArg "checksum") | Some c => if len c =? 32 then inr c else inl ChecksumError end), a).
Proof. unfold C.checksum_arg, C.rbind, C.ok_or. rewrite view_read. destruct checksum as [c|]; [|done]. cbn. by destruct (len c =? 32). Qed.

(** The end of a call in Go. *)
Definition returned (r : Returned UnmanagedVector * option GasReport) : M A api.Called :=
  let '((value, errno, errmsg), gasReport) := r in
  let gasReport := default no_report gasReport in
  if negb (errno =? 0) then err ← lift (errorWithMessage errno (vector errmsg)); mret (None, gasReport, Some err)
  else data ← lift (copyAndDestroyUnmanagedVector value); mret (data, gasReport, None).

Lemma returned_error e report a : returned (binary (inl e) (Some uninitializedUnmanagedVector), report) a = failed_call e (default no_report report) a.
Proof.
  unfold returned, binary, handle_c_error_binary. pose proof (error_returned e) as He. destruct (set_error e _) as [errno msg].
  destruct He as [-> He]. cbn [negb]. unfold mbind, M_bind, lift. rewrite He. unfold failed_call. by destruct (too_long _).
Qed.

Lemma returned_data data report a : returned (binary (inr data) (Some uninitializedUnmanagedVector), report) a
  = if too_long data then (Panic ffiBoundError, a) else (Ok (Some data, default no_report report, None), a).
Proof.
  unfold returned, binary, handle_c_error_binary. cbn [negb Z.eqb errno_Success]. unfold mbind, M_bind, lift. rewrite copy_returned.
  by destruct (too_long data).
Qed.

Lemma call_means vm_fn checksum args gasLimit callID a :
  (r ← C.call_args (mkDB store callID) goapi querier vm_fn true (makeView checksum) (named 1 args) gasLimit (Some no_report)
         (Some uninitializedUnmanagedVector); returned r) a
  = contract_call vm_fn checksum args gasLimit callID a.
Proof.
  unfold contract_call, arguments, C.call_args, C.with_cache, C.catch_unwind, C.do_call, mbind, M_bind.
  unfold C.rbind, C.ok_or, C.ok. cbn [mret M_ret]. rewrite checksum_given.
  destruct checksum as [c|]; [|apply returned_error]. destruct (len c =? 32); [|apply returned_error]. rewrite read_given.
  destruct (all_given 1 args) as [e|l]; [apply returned_error|]. unfold C.cached.
  destruct (in_host (cache_get_instance c gasLimit) a) as [[[e|instance]|e|p] a1]; try apply returned_error.
  rewrite perform_means by apply _.
  destruct (conduct _ _ _ _ _ _ _ _ a1) as [[[[[e|data] report]|e|p]|e|p] a2]; try apply returned_error.
  apply returned_data.
Qed.

Lemma in_call_ext {T} (f g : Z -> M A T) a : (forall c a, f c a = g c a) -> in_call f a = in_call g a.
Proof. intros E. unfold in_call, deferred_end, mbind, M_bind. destruct (startCall a) as [[c|e|p] a']; [|done..]. by rewrite E. Qed.

Lemma entry_means f vm_fn checksum args gasLimit a :
  (forall db api q, f db api q = C.call_args db api q vm_fn true (makeView checksum) (named 1 args)) ->
  api.entry f store (Some goapi) (Some querier) gasLimit a = in_call (contract_call vm_fn checksum args gasLimit) a.
Proof.
  intros Hf. unfold api.entry. change (lift (checkAndPinAPI (Some goapi))) with (mret goapi : M A GoAPI).
  change (lift (checkAndPinQuerier (Some querier))) with (mret querier : M A (Querier (H := H) (I := I))).
  unfold mbind at 1, M_bind at 1. cbn [mret M_ret]. unfold mbind at 1, M_bind at 1. apply in_call_ext. intros c a'. rewrite Hf.
  apply (call_means vm_fn checksum args gasLimit c a').
Qed.

Lemma entry_2_means f vm_fn checksum x y gasLimit a :
  (forall db api q, f db api q = C.call_2_args db api q vm_fn true (makeView checksum) (makeView x) (makeView y)) ->
  api.entry f store (Some goapi) (Some querier) gasLimit a = in_call (contract_call vm_fn checksum [x; y] gasLimit) a.
Proof. apply (entry_means f vm_fn checksum [x; y]). Qed.

Lemma entry_3_means f vm_fn checksum x y z gasLimit a :
  (forall db api q, f db api q = C.call_3_args db api q vm_fn true (makeView checksum) (makeView x) (makeView y) (makeView z)) ->
  api.entry f store (Some goapi) (Some querier) gasLimit a = in_call (contract_call vm_fn checksum [x; y; z] gasLimit) a.
Proof. apply (entry_means f vm_fn checksum [x; y; z]). Qed.

(** C19: each of the nineteen entry points, from Go through Rust to the machine and
    back, runs exactly the contract it is for: the arguments arrive unchanged and in
    order, the requests of the contract have the effects they mean on the chain, its
    data is returned unchanged with the gas it reports, running out of gas and other
    failures arrive as the errors they are, panics on the way are caught, and the
    call is closed in the end. *)
Theorem entry_points_mean checksum x y z gasLimit a :
  api.Instantiate true checksum x y z store (Some goapi) (Some querier) gasLimit a = in_call (contract_call "call_instantiate_raw" checksum [x; y; z] gasLimit) a
  /\ api.Execute true checksum x y z store (Some goapi) (Some querier) gasLimit a = in_call (contract_call "call_execute_raw" checksum [x; y; z] gasLimit) a
  /\ api.MigrateWithInfo true checksum x y z store (Some goapi) (Some querier) gasLimit a = in_call (contract_call "call_migrate_with_info_raw" checksum [x; y; z] gasLimit) a
  /\ api.Migrate true checksum x y store (Some goapi) (Some querier) gasLimit a = in_call (contract_call "call_migrate_raw" checksum [x; y] gasLimit) a
  /\ api.Sudo true checksum x y store (Some goapi) (Some querier) gasLimit a = in_call (contract_call "call_sudo_raw" checksum [x; y] gasLimit) a
  /\ api.Reply true checksum x y store (Some goapi) (Some querier) gasLimit a = in_call (contract_call "call_reply_raw" checksum [x; y] gasLimit) a
  /\ api.Query true checksum x y store (Some goapi) (Some querier) gasLimit a = in_call (contract_call "call_query_raw" checksum [x; y] gasLimit) a
  /\ api.IBCChannelOpen true checksum x y store (Some goapi) (Some querier) gasLimit a = in_call (contract_call "call_ibc_channel_open_raw" checksum [x; y] gasLimit) a
  /\ api.IBCChannelConnect true checksum x y store (Some goapi) (Some querier) gasLimit a = in_call (contract_call "call_ibc_channel_connect_raw" checksum [x; y] gasLimit) a
  /\ api.IBCChannelClose true checksum x y store (Some goapi) (Some querier) gasLimit a = in_call (contract_call "call_ibc_channel_close_raw" checksum [x; y] gasLimit) a
  /\ api.IBCPacketReceive true checksum x y store (Some goapi) (Some querier) gasLimit a = in_call (contract_call "call_ibc_packet_receive_raw" checksum [x; y] gasLimit) a
  /\ api.IBC2PacketReceive true checksum x y store (Some goapi) (Some querier) gasLimit a = in_call (contract_call "call_ibc2_packet_receive_raw" checksum [x; y] gasLimit) a
  /\ api.IBC2PacketAck true checksum x y store (Some goapi) (Some querier) gasLimit a = in_call (contract_call "call_ibc2_packet_ack_raw" checksum [x; y] gasLimit) a
  /\ api.IBC2PacketTimeout true checksum x y store (Some goapi) (Some querier) gasLimit a = in_call (contract_call "call_ibc2_packet_timeout_raw" checksum [x; y] gasLimit) a
  /\ api.IBC2PacketSend true checksum x y store (Some goapi) (Some querier) gasLimit a = in_call (contract_call "call_ibc2_packet_send_raw" checksum [x; y] gasLimit) a
  /\ api.IBCPacketAck true checksum x y store (Some goapi) (Some querier) gasLimit a = in_call (contract_call "call_ibc_packet_ack_raw" checksum [x; y] gasLimit) a
  /\ api.IBCPacketTimeout true checksum x y store (Some goapi) (Some querier) gasLimit a = in_call (contract_call "call_ibc_packet_timeout_raw" checksum [x; y] gasLimit) a
  /\ api.IBCSourceCallback true checksum x y store (Some goapi) (Some querier) gasLimit a = in_call (contract_call "call_ibc_source_callback_raw" checksum [x; y] gasLimit) a
  /\ api.IBCDestinationCallback true checksum x y store (Some goapi) (Some querier) gasLimit a = in_call (contract_call "call_ibc_destination_callback_raw" checksum [x; y] gasLimit) a.
Proof. split_and!; first [by apply entry_2_means|by apply entry_3_means]. Qed.

End Meaning.

(** ** Gas *)

(** The reports a contract can end with. *)
Fixpoint reports (P : GasReport -> Prop) (t : Contract) : Prop :=
  match t with Finished _ report => P report | Asks _ k => forall x, reports P (k x) end.

(** An instance has a limit, and what it reports as used stays within. *)
Class Metered (Inst : Type) := { instance_limit : Inst -> Z }.
Class MachineLaws (H Inst : Type) `{CacheOps H Inst} `{Machine Inst} `{Metered Inst} : Prop := {
  limit_law c g h i h' : 0 <= g -> cache_get_instance c g h = (Ok (inr i), h') -> instance_limit i = g;
  report_law fn i args : reports (fun r => 0 <= UsedInternally r <= instance_limit i) (call_raw fn i args) }.

Section Gas.
Context {H K I Inst : Type} `{HostOps H K I} `{QueryJson} `{ResultJson} `{RustFormat} `{AllocatorLaws} `{MachineLaws H Inst}.
Abbreviation A := (Api H I).
Context (store : K).
Context (human : option bytes -> string * Z * option string) (canon : string -> option bytes * Z * option string)
  (valid : string -> Z * option string) (querier : Querier (H := H) (I := I)).
Abbreviation goapi := (mkGoAPI (Some human) (Some canon) (Some valid)).

Lemma conduct_reports P t : forall callID self (a : A) x report a', reports P t ->
  conduct store callID human canon valid querier t self a = (Ok (Ok (x, report)), a') -> P report.
Proof.
  induction t as [r report'|c k IH]; intros callID self a x report a' Hr; cbn [conduct].
  - cbn in Hr. destruct r as [y|e|p]; cbn; intros [= _ <- _]. done.
  - destruct (meaning _ _ _ _ _ _ c self a) as [[[[y|e|p] self']|e|p] a1]; try done. intros E. eapply IH; [apply Hr|exact E].
Qed.

(** A call gives data or an error, and reports within the limit. *)
Definition metered_call (gasLimit : Z) (r : api.Called) : Prop :=
  let '(data, report, err) := r in
  0 <= UsedInternally report <= gasLimit
  /\ match err with Some _ => data = None | None => exists b, data = Some b /\ len b <= MaxInt32 end.

Lemma failed_metered gasLimit e report (a : A) x a' : 0 <= UsedInternally report <= gasLimit ->
  failed_call e report a = (Ok x, a') -> metered_call gasLimit x.
Proof. intros Hr. unfold failed_call. destruct (too_long _); [done|]. by intros [= <- _]. Qed.

Lemma contract_metered vm_fn checksum args gasLimit callID a x a' : 0 <= gasLimit ->
  contract_call store human canon valid querier vm_fn checksum args gasLimit callID a = (Ok x, a') -> metered_call gasLimit x.
Proof.
  intros Hg. assert (0 <= UsedInternally no_report <= gasLimit) as Hz by done. unfold contract_call.
  destruct (arguments checksum args) as [e|[c l]]; [by apply failed_metered|]. unfold in_host, zoom.
  destruct (cache_get_instance c gasLimit (host a)) as [[[e|i]|e|p] h] eqn:Ei; try by apply failed_metered.
  apply limit_law in Ei; [|done]. pose proof (report_law vm_fn i l) as Hr. rewrite Ei in Hr.
  destruct (conduct _ _ _ _ _ _ _ _ _) as [[[[[e|data] report]|e|p]|e|p] a2] eqn:Ec; try by apply failed_metered.
  - apply (conduct_reports _ _ _ _ _ _ _ _ Hr) in Ec. by apply failed_metered.
  - apply (conduct_reports _ _ _ _ _ _ _ _ Hr) in Ec. destruct (too_long data) eqn:El; [done|]. intros [= <- _]. split; [done|].
    exists data. split; [done|]. unfold too_long in El. apply Z.ltb_ge in El. lia.
Qed.

Lemma in_call_Ok {T} (body : Z -> M A T) a x a' : in_call body a = (Ok x, a') -> exists c a1 a2, body c a1 = (Ok x, a2).
Proof.
  unfold in_call, deferred_end, mbind, M_bind. destruct (startCall a) as [[c|e|p] a1]; try done. destruct (body c a1) as [r a2] eqn:E.
  destruct (endCall c a2) as [[u|e|p] a3]; intros [= -> _]; by exists c, a1, a2.
Qed.

(** The price of deserialising [n] bytes. *)
Definition price (deserCost : UFraction) (n : Z) : Z := Numerator deserCost * n / Denominator deserCost.

Definition priced_within (deserCost : UFraction) (gasLimit : Z) : Prop :=
  0 <= Numerator deserCost /\ 0 < Denominator deserCost /\ 0 <= gasLimit /\ Numerator deserCost * MaxInt32 + gasLimit < 2 ^ 64.

Lemma deserialize_cost {T} `{Response T} gasLimit deserCost report b : priced_within deserCost gasLimit -> len b <= MaxInt32 ->
  0 <= UsedInternally report <= gasLimit ->
  exists report' r, DeserializeResponse (T := T) gasLimit deserCost report (Some b) = Ok (report', r)
    /\ 0 <= UsedInternally report' <= gasLimit
    /\ match r with inr _ => UsedInternally report' = UsedInternally report + price deserCost (len b) | inl _ => True end.
Proof.
  intros (Hn & Hd & Hg & Hs) Hl Hu. assert (0 <= len b) by (unfold len; lia). assert (0 <= MaxInt32) by done.
  assert (0 <= Numerator deserCost * len b <= Numerator deserCost * MaxInt32) as Hm by nia.
  assert (0 <= price deserCost (len b) <= Numerator deserCost * len b) as Hp.
  { unfold price. split; [apply Z.div_pos; lia|]. apply Z.div_le_upper_bound; nia. }
  unfold DeserializeResponse, UFraction_Floor, UFraction_Mul. cbn [default from_option id Numerator Denominator].
  rewrite (u64_small (Numerator deserCost * len b)) by (unfold is_u64; lia). fold (price deserCost (len b)).
  destruct (Z.eqb_spec (Denominator deserCost) 0); [lia|]. cbn [negb must mbind res_bind mret res_ret].
  rewrite (u64_small (price _ _ + UsedInternally report)), (u64_small (UsedInternally report + price _ _)) by (unfold is_u64; lia).
  destruct (Z.ltb_spec gasLimit (price deserCost (len b) + UsedInternally report)).
  - do 2 eexists. split_and!; [done|lia|lia|done].
  - do 2 eexists. split_and!; [done|cbn; lia|cbn; lia|]. cbn [UsedInternally]. destruct (json_Unmarshal b); [done|].
    by destruct (large_payload _ _) as [[]|].
Qed.

(** The gas that is returned stays within the limit, and there is either a result
    or an error. *)
Definition metered {T} (f : VM.VmEntry (H := H) (K := K) (I := I) T) : Prop := forall gasLimit deserCost a r gas err a',
  priced_within deserCost gasLimit -> f store goapi querier gasLimit deserCost a = (Ok (r, gas, err), a') ->
  0 <= gas <= gasLimit /\ (err = None <-> is_Some r).

Lemma metered_marshal {E T} `{Marshal E} (x : E) (k : option bytes -> VM.VmEntry T) : (forall b, metered (k b)) -> metered (VM.marshal x k).
Proof.
  intros Hk gasLimit deserCost a r gas err a' Hp. unfold VM.marshal. destruct (json_Marshal x) as [e|b]; [|by apply Hk].
  intros [= <- <- <- _]. destruct Hp as (_ & _ & Hg & _). split; [lia|]. split; [done|by intros []].
Qed.

Lemma metered_respond {T} `{Response T} (call : api.Entry (H := H) (K := K) (I := I)) vm_fn checksum args :
  (forall gasLimit a, call store (Some goapi) (Some querier) gasLimit a
     = in_call (contract_call store human canon valid querier vm_fn checksum args gasLimit) a) ->
  metered (VM.respond call).
Proof.
  intros Hc gasLimit deserCost a r gas err a' Hp. unfold VM.respond, mbind, M_bind. rewrite Hc.
  destruct (in_call _ a) as [[[[data report] e]|e|p] a1] eqn:Ec; try done.
  apply in_call_Ok in Ec as (c & a2 & a3 & Ec). apply contract_metered in Ec as [Hr He]; [|apply Hp].
  destruct e as [e|]; [by intros [= <- <- <- _]; split; [|split; [done|intros []]]|]. destruct He as (b & -> & Hb).
  destruct (deserialize_cost (T := T) gasLimit deserCost report b Hp Hb Hr) as (report' & d & Hd & Hu & _). unfold lift. rewrite Hd.
  destruct d as [e|x]; intros [= <- <- <- _]; (split; [done|]); split; try done; by intros [].
Qed.

Context {ContractResult QueryResult IBCChannelOpenResult IBCBasicResult IBCReceiveResult E F : Type}.
Context `{Response ContractResult} `{Response QueryResult} `{Response IBCChannelOpenResult} `{Response IBCBasicResult} `{Response IBCReceiveResult}.
Context `{Marshal E} `{Marshal F}.

(** C20: whatever a contract does, each method of the machine that runs one reports
    not more gas than the limit it was given, the deserialisation of the response
    included, and returns either a result or an error, as long as the limit and the
    price of the largest response together fit in 64 bits. *)
Theorem gas_within_limit checksum (env : E) (info : F) msg :
  metered (VM.Instantiate (ContractResult := ContractResult) true checksum env info msg)
  /\ metered (VM.Execute (ContractResult := ContractResult) true checksum env info msg)
  /\ metered (VM.MigrateWithInfo (ContractResult := ContractResult) true checksum env msg info)
  /\ metered (VM.Migrate (ContractResult := ContractResult) true checksum env msg)
  /\ metered (VM.Sudo (ContractResult := ContractResult) true checksum env msg)
  /\ metered (VM.Reply (ContractResult := ContractResult) true checksum env info)
  /\ metered (VM.Query (QueryResult := QueryResult) true checksum env msg)
  /\ metered (VM.IBCChannelOpen (IBCChannelOpenResult := IBCChannelOpenResult) true checksum env info)
  /\ metered (VM.IBCChannelConnect (IBCBasicResult := IBCBasicResult) true checksum env info)
  /\ metered (VM.IBCChannelClose (IBCBasicResult := IBCBasicResult) true checksum env info)
  /\ metered (VM.IBCPacketReceive (IBCReceiveResult := IBCReceiveResult) true checksum env info)
  /\ metered (VM.IBC2PacketReceive (IBCReceiveResult := IBCReceiveResult) true checksum env info)
  /\ metered (VM.IBC2PacketAck (IBCBasicResult := IBCBasicResult) true checksum env info)
  /\ metered (VM.IBC2PacketTimeout (IBCBasicResult := IBCBasicResult) true checksum env info)
  /\ metered (VM.IBC2PacketSend (IBCBasicResult := IBCBasicResult) true checksum env info)
  /\ metered (VM.IBCPacketAck (IBCBasicResult := IBCBasicResult) true checksum env info)
  /\ metered (VM.IBCPacketTimeout (IBCBasicResult := IBCBasicResult) true checksum env info)
  /\ metered (VM.IBCSourceCallback (IBCBasicResult := IBCBasicResult) true checksum env info)
  /\ metered (VM.IBCDestinationCallback (IBCBasicResult := IBCBasicResult) true checksum env info).
Proof.
  split_and!; repeat (apply metered_marshal; intros ?); eapply metered_respond; intros; first [by eapply entry_2_means|by eapply entry_3_means].
Qed.

End Gas.

(** At the largest limit the sum wraps around, and what was used is forgotten. *)
Lemma deserialization_wraps {T} `{Response T} b r : json_Unmarshal [b] = inr r -> SubMessages r = None ->
  DeserializeResponse (2 ^ 64 - 1) (mkFraction 140000 1) (mkReport (2 ^ 64 - 1) 0 0 (2 ^ 64 - 1)) (Some [b])
  = Ok (mkReport (2 ^ 64 - 1) (2 ^ 64 - 140000) 0 139999, inr r).
Proof. intros Hj Hs. unfold DeserializeResponse. cbn [default from_option id]. rewrite Hj, Hs. reflexivity. Qed.

(** What remains wraps around when the chain has used the gas for the response. *)
Lemma remaining_wraps {T} `{Response T} b r : json_Unmarshal [b] = inr r -> SubMessages r = None ->
  DeserializeResponse 200000 (mkFraction 140000 1) (mkReport 200000 0 200000 0) (Some [b])
  = Ok (mkReport 200000 (2 ^ 64 - 140000) 200000 140000, inr r).
Proof. intros Hj Hs. unfold DeserializeResponse. cbn [default from_option id]. rewrite Hj, Hs. reflexivity. Qed.

(** ** Stored code *)

(** What is stored can be loaded by what identifies it. *)
Class CacheLaws (H Inst : Type) `{CacheOps H Inst} : Prop := {
  store_load_law b checked h c h' : cache_store_code b checked true h = (Ok (inr c), h') ->
    len c = 32 /\ cache_load_wasm c h' = (Ok (inr b), h');
  circuit_key_law b persist h k h' : cache_store_circuit b persist h = (Ok (inr k), h') -> len k = 72 }.

Section Storing.
Context {H K I Inst : Type} `{HostOps H K I} `{QueryJson} `{ResultJson} `{RustFormat} `{AllocatorLaws} `{CacheLaws H Inst} `{Machine Inst}.
Abbreviation A := (Api H I).

(** A function of the cache that returns bytes, as Go sees it. *)
Definition seen (r : RustError + bytes) : M A (option bytes * option GoLibError) :=
  match r with
  | inr b => if too_long b then panic ffiBoundError else mret (Some b, None)
  | inl e => if too_long (string_to_bytes (RustError_to_string e)) then panic ffiBoundError else mret (None, Some (reported e))
  end.

Lemma bytes_result f (a : A) r a' : f (Some uninitializedUnmanagedVector) a = (Ok (binary r (Some uninitializedUnmanagedVector)), a') ->
  api.bytes_of f a = seen r a'.
Proof.
  intros Hf. unfold api.bytes_of, api.checked, mbind, M_bind. rewrite Hf. unfold binary, handle_c_error_binary. destruct r as [e|b].
  - pose proof (error_returned e) as He. destruct (set_error e _) as [errno msg]. destruct He as [-> He]. cbn [negb]. unfold lift. rewrite He.
    cbn [seen]. by destruct (too_long _).
  - cbn [Z.eqb errno_Success negb seen]. unfold lift. rewrite copy_returned. by destruct (too_long b).
Qed.

Lemma bytes_means (m : C.R bytes) (a : A) : api.bytes_of (C.in_binary (C.with_cache true m)) a
  = match m a with (Ok r, a') => seen r a' | (_, a') => seen (inl Panicked) a' end.
Proof.
  destruct (m a) as [[r|e|p] a'] eqn:E; apply bytes_result; unfold C.in_binary, C.exported, C.with_cache, C.catch_unwind, mbind, M_bind; by rewrite E.
Qed.

Lemma seen_Some r (a : A) b a' : seen r a = (Ok (b, None), a') -> exists x, r = inr x /\ b = Some x /\ too_long x = false /\ a' = a.
Proof. destruct r as [e|x]; cbn; destruct (too_long _) eqn:El; try done. intros [= <- <-]. by exists x. Qed.

(** Code that was stored, and its checksum. *)
Lemma store_code_Some code checked persist (a : A) c a' :
  api.bytes_of (C.store_code true (makeView (Some code)) checked persist) a = (Ok (c, None), a') ->
  exists x h, c = Some x /\ cache_store_code code checked persist (host a) = (Ok (inr x), h) /\ too_long x = false
    /\ a' = mkApi h (iteratorFrames a) (latestCallID a).
Proof.
  unfold C.store_code. rewrite bytes_means. unfold C.do_store_code, C.rbind, C.ok_or. rewrite view_read. cbn [C.ok mret M_ret].
  unfold C.cached, in_host, zoom. destruct (cache_store_code code checked persist (host a)) as [[[e|x]|e|p] h] eqn:E;
    intros (y & Hy & -> & Hl & ->)%seen_Some; try done. injection Hy as <-. by exists x, h.
Qed.

Lemma store_circuit_Some vk persist (a : A) c a' :
  api.bytes_of (C.store_circuit true (makeView (Some vk)) persist) a = (Ok (c, None), a') ->
  exists x h, c = Some x /\ cache_store_circuit vk persist (host a) = (Ok (inr x), h) /\ too_long x = false
    /\ a' = mkApi h (iteratorFrames a) (latestCallID a).
Proof.
  unfold C.store_circuit. rewrite bytes_means. unfold C.do_store_circuit, C.rbind, C.ok_or. rewrite view_read. cbn [C.ok mret M_ret].
  unfold C.cached, in_host, zoom. destruct (cache_store_circuit vk persist (host a)) as [[[e|x]|e|p] h] eqn:E;
    intros (y & Hy & -> & Hl & ->)%seen_Some; try done. injection Hy as <-. by exists x, h.
Qed.

Lemma get_code_means sum (a : A) : len sum = 32 -> VM.GetCode true (Some sum) a
  = match cache_load_wasm sum (host a) with
    | (Ok r, h) => seen (match r with inl e => inl (from_vm e) | inr b => inr b end) (mkApi h (iteratorFrames a) (latestCallID a))
    | (_, h) => seen (inl Panicked) (mkApi h (iteratorFrames a) (latestCallID a))
    end.
Proof.
  intros Hl. unfold VM.GetCode, api.GetCode, C.load_wasm. rewrite bytes_means. unfold C.rbind. rewrite checksum_given.
  rewrite Hl. cbn [Z.eqb Pos.eqb]. unfold C.cached, in_host, zoom. by destruct (cache_load_wasm sum (host a)) as [[[e|x]|e|p] h].
Qed.

Lemma compile_cost code : len code <= MaxInt32 -> compileCost (Some code) = 420000 * len code.
Proof.
  intros Hl. assert (0 <= len code) by (unfold len; lia). unfold compileCost. cbn [default from_option id].
  rewrite u64_small; [lia|]. unfold is_u64, MaxInt32 in *. lia.
Qed.

Lemma charged_store_Ok {T} cost gasLimit none (m : M A (T * option GoLibError)) a r c a' :
  VM.charged_store cost gasLimit none m a = (Ok (r, c, None), a') -> c = cost /\ cost <= gasLimit /\ m a = (Ok (r, None), a').
Proof.
  unfold VM.charged_store. destruct (Z.ltb_spec gasLimit cost); [done|]. unfold mbind, M_bind. destruct (m a) as [[[x e]|e|p] a1]; try done.
  cbn. by intros [= -> <- -> ->].
Qed.

Lemma small_id n x : len x = n -> n <= MaxInt32 -> too_long x = false.
Proof. intros <- Hn. unfold too_long. by apply Z.ltb_ge. Qed.

(** Both are stored one after the other. *)
Lemma store_both_Some code vk (a : A) ids a' :
  (r ← api.StoreCodeWithCircuit true (Some code) (Some vk) true false; mret (VM.both r)) a = (Ok (ids, None), a') ->
  exists sum key a1, ids = [sum; key] /\ api.StoreCode true (Some code) true a = (Ok (Some sum, None), a1)
    /\ api.StoreCircuit true (Some vk) true a1 = (Ok (Some key, None), a').
Proof.
  unfold api.StoreCodeWithCircuit, C.store_code_with_circuit, mbind, M_bind. rewrite bytes_means.
  unfold api.StoreCode, api.StoreCircuit, C.store_code, C.store_circuit. rewrite bytes_means.
  unfold C.do_store_code_with_circuit, C.do_store_code, C.rbind, C.ok_or. rewrite !view_read. cbn [C.ok mret M_ret negb].
  unfold C.cached, in_host, zoom. destruct (cache_store_code code true true (host a)) as [[[e|sum]|e|p] h] eqn:Ec;
    [cbn; by destruct (too_long _)| |by cbn..].
  cbn [host iteratorFrames latestCallID]. destruct (cache_store_circuit vk true h) as [[[e|key]|e|p] h'] eqn:Ek;
    [cbn; by destruct (too_long _)| |by cbn..].
  destruct (store_load_law _ _ _ _ _ Ec) as [Hs _]. pose proof (circuit_key_law _ _ _ _ _ Ek) as Hk.
  assert (length sum = 32%nat) as Hn by (unfold len in Hs; lia).
  unfold C.ok, mret, M_ret. cbn [seen]. rewrite (small_id 104 (sum ++ key)), (small_id 32 sum) by (try (rewrite len_app; lia); done).
  cbn [mret M_ret]. unfold mret, M_ret, VM.both, SplitCombinedStoreIDs. cbn [default from_option id]. rewrite len_app, Hs, Hk. cbn [Z.add Z.eqb negb].
  rewrite take_app_length', drop_app_length' by done. intros [= <- <-]. exists sum, key. eexists. split_and!; [done|done|].
  rewrite bytes_means. unfold C.do_store_circuit, C.rbind, C.ok_or. rewrite view_read. unfold C.ok, mret, M_ret, C.cached, in_host, zoom.
  cbn [host]. rewrite Ek. cbn [seen]. by rewrite (small_id 72 key).
Qed.

(** C21: code that was stored for a price within the limit is read back unchanged
    under the checksum that was returned; if the limit does not suffice nothing is
    stored and the price is still reported; and code stored together with a circuit
    is the same as code and circuit stored one after the other, with both
    identifiers. *)
Theorem stored_code_returns code vk gasLimit (a : A) : len code <= MaxInt32 -> len vk <= MaxInt32 ->
  (gasLimit < 420000 * len code ->
     VM.StoreCode true (Some code) gasLimit a = (Ok (None, 420000 * len code, Some OutOfGasError), a))
  /\ (forall c cost a', VM.StoreCode true (Some code) gasLimit a = (Ok (c, cost, None), a') ->
        cost = 420000 * len code /\ cost <= gasLimit /\ VM.GetCode true c a' = (Ok (Some code, None), a'))
  /\ (forall ids cost a', VM.StoreCodeWithCircuit true (Some code) (Some vk) gasLimit a = (Ok (ids, cost, None), a') ->
        cost = 420000 * (len code + len vk) /\ cost <= gasLimit
        /\ exists sum key a1, ids = [sum; key] /\ api.StoreCode true (Some code) true a = (Ok (Some sum, None), a1)
             /\ api.StoreCircuit true (Some vk) true a1 = (Ok (Some key, None), a')).
Proof.
  intros Hc Hv. assert (0 <= len code) by (unfold len; lia). assert (0 <= len vk) by (unfold len; lia). split_and!.
  - intros Hg. unfold VM.StoreCode, VM.charged_store. rewrite compile_cost by done. by destruct (Z.ltb_spec gasLimit (420000 * len code)); [|lia].
  - intros c cost a' (-> & Hg & Hs)%charged_store_Ok. rewrite compile_cost in * by done. split_and!; [done|done|].
    apply store_code_Some in Hs as (sum & h & -> & Hs & _ & ->). apply store_load_law in Hs as [Hl Hs].
    rewrite get_code_means by done. cbn [host]. rewrite Hs. cbn [seen]. by rewrite (small_id (len code) code).
  - intros ids cost a' (-> & Hg & Hs)%charged_store_Ok. rewrite !compile_cost in * by done.
    assert (u64 (420000 * len code + 420000 * len vk) = 420000 * (len code + len vk)) as Hu.
    { rewrite u64_small; [lia|]. unfold is_u64, MaxInt32 in *. lia. }
    split_and!; [done|done|by apply store_both_Some].
Qed.

End Storing.

(** ** The API of the chain

    Addresses as contracts see them (keeper/api.go); what they cost is counted in
    gas of the machine. *)

Definition DefaultGasCostHumanAddress : Z := 5.
Definition DefaultGasCostCanonicalAddress : Z := 4.
Definition DefaultGasCostValidateAddress : Z := DefaultGasCostHumanAddress + DefaultGasCostCanonicalAddress.
Definition DefaultDeserializationCostPerByte : Z := 1.
Definition DefaultGasMultiplier : Z := 140000.
Definition costHumanize : Z := DefaultGasCostHumanAddress * DefaultGasMultiplier.
Definition costCanonical : Z := DefaultGasCostCanonicalAddress * DefaultGasMultiplier.
Definition costValidate : Z := DefaultGasCostValidateAddress * DefaultGasMultiplier.
Definition costJSONDeserialization : UFraction := mkFraction (DefaultDeserializationCostPerByte * DefaultGasMultiplier) 1.

Class AddressFormat := { VerifyAddressFormat : bytes -> option string }.
(** What is read from a text has the format of an address, and what has this format
    is read from its text. *)
Class AddressFormatLaws `{Bech32} `{AddressFormat} : Prop := {
  parsed_format_law s a : AccAddressFromBech32 s = Ok a -> VerifyAddressFormat (string_to_bytes a) = None;
  format_text_law a : VerifyAddressFormat (string_to_bytes a) = None -> AccAddressFromBech32 (AccAddress_String a) = Ok a }.

Section Addresses.
Context `{Bech32} `{AddressFormat}.

Definition humanizeAddress (canon : option bytes) : string * Z * option string :=
  match VerifyAddressFormat (default [] canon) with
  | Some err => (""%string, costHumanize, Some err)
  | None => (AccAddress_String (bytes_to_string (default [] canon)), costHumanize, None)
  end.

Definition canonicalizeAddress (human : string) : option bytes * Z * option string :=
  match AccAddressFromBech32 human with
  | Ok bz => (Some (string_to_bytes bz), costCanonical, None)
  | Err err | Panic err => (None, costCanonical, Some err)
  end.

Definition validateAddress (human : string) : Z * option string :=
  match AccAddressFromBech32 human with
  | Ok canonicalized =>
      if negb (String.eqb (AccAddress_String canonicalized) human) then (costValidate, Some "address not normalized"%string)
      else (costValidate, None)
  | Err err | Panic err => (costCanonical, Some err)
  end.

Definition cosmwasmAPI : GoAPI := mkGoAPI (Some humanizeAddress) (Some canonicalizeAddress) (Some validateAddress).

Context `{!AddressFormatLaws}.

(** A text is a valid address exactly if its canonical form is written as this
    text again; the text of an address in canonical form is valid and has this
    canonical form; and validating costs what both conversions cost. *)
Theorem valid_addresses human b :
  ((validateAddress human).2 = None <->
     exists c, canonicalizeAddress human = (Some c, costCanonical, None) /\ humanizeAddress (Some c) = (human, costHumanize, None))
  /\ (VerifyAddressFormat b = None -> Forall is_byte b -> exists s, humanizeAddress (Some b) = (s, costHumanize, None)
        /\ canonicalizeAddress s = (Some b, costCanonical, None) /\ validateAddress s = (costHumanize + costCanonical, None)).
Proof.
  unfold validateAddress, canonicalizeAddress, humanizeAddress. cbn [default from_option id]. split.
  - destruct (AccAddressFromBech32 human) as [a|e|p] eqn:E; [|by split; [|intros (c & ? & _)]..].
    pose proof (parsed_format_law _ _ E) as Hf. destruct (String.eqb_spec (AccAddress_String a) human) as [Ea|Ea]; cbn [negb].
    + split; [|done]. intros _. exists (string_to_bytes a). by rewrite Hf, bytes_of_string, Ea.
    + split; [done|]. intros (c & [= <-] & Hh). rewrite Hf, bytes_of_string in Hh. congruence.
  - intros Hf Hb. rewrite Hf. eexists. split; [done|]. rewrite (format_text_law (bytes_to_string b)) by by rewrite string_to_bytes_to_string.
    by rewrite string_to_bytes_to_string, String.eqb_refl.
Qed.

End Addresses.

(** The price at which responses are read, and the limits it allows. *)
Lemma default_price_within gasLimit : 0 <= gasLimit < 2 ^ 64 - 140000 * 2 ^ 31 -> priced_within costJSONDeserialization gasLimit.
Proof.
  intros Hg. unfold priced_within, MaxInt32. change (Numerator costJSONDeserialization) with 140000.
  change (Denominator costJSONDeserialization) with 1. lia.
Qed.
