(* ===== verification/VmRef.v ===== *)
(** * A store and a machine for wasmvm

    The state behind the interfaces that VmHost, LibBackend and LibCalls leave open:
    an ordered list of entries with numbered iterators and a gas limit, a cache of
    code and circuits, and a machine that knows two contracts; and the properties of
    these files and of VmCalls on runs over it. *)

From Stdlib Require Import ZArith Lia.
From stdpp Require Import base gmap strings list.
From S2P Require Import Prelude GoLib Varint WasmQueryTypes WasmGas VmHost LibBackend LibCalls VmCalls.

Module VmRef.

Abbreviation Entries := (list (bytes * bytes)).
Record RefHost := mkHost { h_data : Entries; h_iters : gmap Z Entries; h_used : Z; h_limit : Z;
  h_codes : Entries; h_circuits : Entries }.

(** Gas is charged, or there is a panic. *)
Definition charge (n : Z) : M RefHost unit := fun h =>
  if h_limit h <? h_used h + n then (Panic "ErrorOutOfGas", h)
  else (Ok tt, mkHost (h_data h) (h_iters h) (h_used h + n) (h_limit h) (h_codes h) (h_circuits h)).

(** The lexicographic order of keys. *)
Fixpoint before (a b : bytes) : bool :=
  match a, b with
  | _, [] => false
  | [], _ => true
  | x :: a, y :: b => if x <? y then true else if y <? x then false else before a b
  end.

Fixpoint put (k v : bytes) (l : Entries) : Entries :=
  match l with
  | [] => [(k, v)]
  | (k', v') :: l => if before k k' then (k, v) :: (k', v') :: l else if before k' k then (k', v') :: put k v l else (k, v) :: l
  end.

Definition in_range (s e : option bytes) (x : bytes * bytes) : bool :=
  match s with Some s => negb (before x.1 s) | None => true end && match e with Some e => before x.1 e | None => true end.

Definition set_data (f : Entries -> Entries) : M RefHost unit :=
  modify (fun h => mkHost (f (h_data h)) (h_iters h) (h_used h) (h_limit h) (h_codes h) (h_circuits h)).
Definition set_iters (f : gmap Z Entries -> gmap Z Entries) : M RefHost unit :=
  modify (fun h => mkHost (h_data h) (f (h_iters h)) (h_used h) (h_limit h) (h_codes h) (h_circuits h)).

Definition open (s e : option bytes) (order : Entries -> Entries) : M RefHost Z :=
  charge 10;;
  h ← get;
  let i := fresh (dom (h_iters h)) in
  set_iters <[i := order (List.filter (in_range s e) (h_data h))]>;;
  mret i.

Definition left_in (i : Z) (h : RefHost) : Entries := default [] (h_iters h !! i).

#[export] Instance store : HostOps RefHost unit Z := {|
  gm_GasConsumed := h_used;
  querier_GasConsumed := h_used;
  kv_Get _ key := charge 3;; gets (fun h => snd <$> List.find (fun x => bool_decide (x.1 = default [] key)) (h_data h));
  kv_Set _ key v := charge 5;; set_data (put (default [] key) (default [] v));
  kv_Delete _ key := charge 4;; set_data (List.filter (fun x => negb (bool_decide (x.1 = default [] key))));
  kv_Iterator _ s e := open s e (fun l => l);
  kv_ReverseIterator _ s e := open s e reverse;
  it_Valid i h := negb (bool_decide (left_in i h = []));
  it_Key i h := match left_in i h with x :: _ => Ok (Some x.1) | [] => Panic "iterator is invalid" end;
  it_Value i h := match left_in i h with x :: _ => Ok (Some x.2) | [] => Panic "iterator is invalid" end;
  it_Error i h := match left_in i h with _ :: _ => None | [] => Some "invalid memIterator"%string end;
  it_Next i := h ← get;
    match left_in i h with _ :: l => charge 2;; set_iters (alter (fun _ => l) i) | [] => panic "iterator is invalid" end;
  it_Close i := set_iters (delete i) |}.

#[export] Instance opened : HandedOut RefHost Z := {| handed_out h := dom (h_iters h) |}.
#[export] Instance contents : Contents RefHost Z := {| remaining := left_in |}.

(** Memory of the machine with some room to spare. *)
#[export] Instance allocator : Allocator := {| capacity_for b := if len b =? 0 then 0 else len b + 2 |}.

#[export] Instance allocator_laws : AllocatorLaws.
Proof. split. intros b. cbn. destruct (Z.eqb_spec (len b) 0); lia. Qed.

Lemma charge_open n : Preserves handed_out (charge n).
Proof. intros h r h'. unfold charge. destruct (_ <? _); by intros [= _ <-]. Qed.

Lemma open_new s e order h r h' : open s e order h = (r, h') ->
  match r with Ok i => (i ∉ handed_out h) /\ handed_out h' = {[i]} ∪ handed_out h | _ => handed_out h' = handed_out h end.
Proof.
  unfold open, mbind, M_bind, charge, get, set_iters, modify. destruct (_ <? _); cbn; intros [= <- <-]; [done|].
  split; [apply is_fresh|]. apply dom_insert_L.
Qed.

#[export] Instance store_iterators : IteratorLaws RefHost unit Z.
Proof.
  split.
  1-3: intros; apply Preserves_bind; [apply charge_open|]; intros _ h r h'; by intros [= _ <-].
  - intros i. apply Preserves_bind; [preserves|]. intros h. destruct (left_in i h) as [|x l]; [preserves|].
    apply Preserves_bind; [apply charge_open|]. intros _ h1 r h' [= _ <-]. apply dom_alter_L.
  - intros k s e h r h' E. exact (open_new _ _ _ _ _ _ E).
  - intros k s e h r h' E. exact (open_new _ _ _ _ _ _ E).
  - intros i h r h' [= <- <-]. split; [done|]. apply dom_delete_L.
Qed.

#[export] Instance store_contents : ContentsLaws RefHost unit Z.
Proof.
  split; cbn.
  - done.
  - by intros i h k v l ->.
  - intros i h x l r h' E. unfold mbind, M_bind, get. rewrite E. unfold charge. destruct (_ <? _); intros [= <- <-]; [done|].
    unfold left_in in *. cbn. destruct (h_iters h !! i) as [m|] eqn:Em; [|done]. by rewrite lookup_alter_eq, Em.
Qed.

(** ** The cache and the machine *)

(** Identifiers are the first bytes of what is stored. *)
Definition identifier (n : nat) (b : bytes) : bytes := take n (b ++ replicate n 0).

Lemma identifier_len n b : len (identifier n b) = Z.of_nat n.
Proof. unfold identifier, len. rewrite length_take, length_app, length_replicate. lia. Qed.

Definition stored (k : bytes) (l : Entries) : option bytes := snd <$> List.find (fun x => bool_decide (x.1 = k)) l.
Definition erased (k : bytes) : Entries -> Entries := List.filter (fun x => negb (bool_decide (x.1 = k))).
Definition set_codes (f : Entries -> Entries) : M RefHost unit :=
  modify (fun h => mkHost (h_data h) (h_iters h) (h_used h) (h_limit h) (f (h_codes h)) (h_circuits h)).
Definition set_circuits (f : Entries -> Entries) : M RefHost unit :=
  modify (fun h => mkHost (h_data h) (h_iters h) (h_used h) (h_limit h) (h_codes h) (f (h_circuits h))).

(** Code starts with 0 if it is to be accepted. *)
Definition accepted (b : bytes) : bool := match b with 0 :: _ => true | _ => false end.
Definition no_code : VmError := OtherVmError "Cache error: Error opening Wasm file for reading".
Definition found {T} (f : bytes -> T) (c : bytes) : M RefHost (VmError + T) :=
  gets (fun h => match stored c (h_codes h) with Some b => inr (f b) | None => inl no_code end).

#[export] Instance cache_ops : CacheOps RefHost (bytes * Z) := {|
  cache_store_code b checked persist :=
    if checked && negb (accepted b) then mret (inl (OtherVmError "Error during static Wasm validation"))
    else (if persist then set_codes (cons (identifier 32 b, b)) else mret tt);; mret (inr (identifier 32 b));
  cache_store_circuit b persist :=
    (if persist then set_circuits (cons (identifier 72 b, b)) else mret tt);; mret (inr (identifier 72 b));
  cache_store_param b := mret (inr (identifier 32 b));
  cache_remove_wasm c := set_codes (erased c);; mret (inr tt);
  cache_remove_circuit c := set_circuits (erased c);; mret (inr tt);
  cache_load_wasm := found (fun b => b);
  cache_load_circuit c := gets (fun h => inr (inr <$> stored c (h_circuits h)));
  cache_pin := found (fun _ => tt);
  cache_unpin _ := mret (inr tt);
  cache_pin_circuit _ := mret (inr tt);
  cache_unpin_circuit _ := mret (inr tt);
  cache_sync_pinned_codes _ := mret (inr tt);
  cache_sync_pinned_circuits _ := mret (inr tt);
  cache_analyze := found (fun _ => mkVmAnalysis false [] ["execute"%string] None);
  cache_get_instance c g := found (fun b => (b, g)) c |}.

#[export] Instance cache_laws : CacheLaws RefHost (bytes * Z).
Proof.
  split; cbn.
  - intros b checked h c h'. unfold found, set_codes, modify. destruct (checked && _); [done|]. intros [= <- <-].
    split; [apply identifier_len|]. unfold gets, stored. cbn. by rewrite bool_decide_true.
  - intros b persist h k h'. destruct persist; intros [= <- _]; apply identifier_len.
Qed.

(** The contract reads what is stored under its last argument, or it panics if its
    code is longer than one byte. *)
Definition behaviour (fn : string) (i : bytes * Z) (args : list bytes) : Contract :=
  let '(code, limit) := i in
  if limit <? 100 then Finished (Ok (inl (GasDepletion "Ran out of gas"))) (mkReport limit 0 0 (Z.max 0 limit))
  else if 1 <? len code then Finished (Panic "unreachable") no_report
  else Asks (BGet (default [] (last args))) (fun r =>
    match r with
    | (inr (AValue (Some v)), g) => Finished (Ok (inr v)) (mkReport limit (limit - 100) 0 100)
    | _ => Finished (Ok (inl (OtherVmError "no value"))) (mkReport limit (limit - 100) 0 100)
    end).

#[export] Instance machine : Machine (bytes * Z) := {| call_raw := behaviour |}.
#[export] Instance limits : Metered (bytes * Z) := {| instance_limit i := Z.max 0 i.2 |}.

#[export] Instance machine_laws : MachineLaws RefHost (bytes * Z).
Proof.
  split; cbn.
  - intros c g h i h' Hg. unfold found, gets. destruct (stored c (h_codes h)); [|done]. intros [= <- _]. cbn. lia.
  - intros fn [code limit] args. unfold behaviour. destruct (Z.ltb_spec limit 100); [cbn; lia|]. destruct (1 <? len code); [cbn; lia|].
    cbn. intros [[e|[]] g]; cbn; try lia. destruct v; cbn; lia.
Qed.

End VmRef.

Module VmWitness.
Import VmRef.

(** Requests and answers as JSON: a marked custom query, and what it returned. *)
#[export] Instance json : QueryJson := {|
  json_Unmarshal_request b :=
    match bytes_to_string b with
    | String (Ascii.Ascii false false true false false true false false) s => inr (mkQueryRequest None (Some s) None None None None None None)
    | _ => inl "invalid character"%string
    end;
  json_Marshal_result r :=
    match r with Answered d => inr (string_to_bytes (default "null"%string d)) | _ => inl "error"%string end |}.

Definition api : GoAPI := mkGoAPI None None None.
Definition outs : Outs :=
  let none := newUnmanagedVector None in mkOuts (Some 0) (Some none) (Some none) (Some None) (Some none).
Definition whole : Request := Scan_ (u8ViewFromBytes None) (u8ViewFromBytes None) 1.

(** A contract that opens an iterator and answers. *)
Definition asked : Run unit := Call whole true true outs (fun _ _ => Done tt).
(** A contract that scans, queries the first one, and steps through what it scanned. *)
Definition asking : Run (option bytes) :=
  Call whole true true outs (fun _ o =>
  Call (Query_ 20 (u8ViewFromBytes (Some (string_to_bytes "$x")))) true true outs (fun _ _ =>
  Call (Next_ (default (mkRef 0 0) (default None (o_iter o)))) true true outs (fun _ o' =>
  Done (taken (o_val o'))))).

Definition nobody : Querier (H := RefHost) (I := Z) := fun _ _ => mret (inl (System Unknown)).
Definition answering : Querier (H := RefHost) (I := Z) := fun _ _ a =>
  let '(r, a') := in_call (fun callID => run (mkDB tt callID) api nobody asked) a in (Ok (inr (Some "{}"%string)), a').

Lemma nobody_quiet rq g : Quiet 0 (nobody rq g).
Proof. intros a r a' _ _ [= _ <-]. split_and!; [done..|lia|lia]. Qed.

Lemma answering_quiet rq g : Quiet 1 (answering rq g).
Proof.
  intros a r a' Hu Hl. unfold answering. destruct (in_call _ a) as [x a1] eqn:E. intros [= _ <-].
  revert E. apply (call_quiet 0); [lia| |done|lia]. apply (run_frames 0 1 0 tt api nobody asked ltac:(lia) nobody_quiet); by intros.
Qed.

Definition chain : RefHost := mkHost [([1], [11]); ([2], [22]); ([3], [])] ∅ 0 1000 [] [].
Definition package : Api RefHost Z := mkApi chain ∅ 0.

Lemma bytes_cross_witness : copyAndDestroyUnmanagedVector (newUnmanagedVector (Some [])) = Ok (Some [])
  /\ copyAndDestroyUnmanagedVector (mkVec false (Some [1]) 2 1) = Panic ffiBoundError.
Proof.
  pose proof (bytes_cross (Some []) (mkView false None 5) (mkVec false (Some [1]) 2 1) ltac:(by vm_compute)) as (Hv & _ & _ & _ & Hc & _).
  split; [exact Hv|]. apply Hc; [by vm_compute|reflexivity].
Defined.

Lemma package_unused : unused package.
Proof. split; [by vm_compute|]. intros id _. apply lookup_empty. Qed.

Lemma calls_close_iterators_witness :
  let after := snd (in_call (fun callID => run (mkDB tt callID) api answering asking) package) in
  dom (h_iters (host after)) = ∅ /\ iteratorFrames after = ∅ /\ latestCallID after = 2 /\ h_used (host after) = 22.
Proof.
  destruct (in_call (fun callID => run (mkDB tt callID) api answering asking) package) as [r a'] eqn:E.
  destruct (calls_close_iterators 1 1 1 tt api answering asking package r a') as (Hf & Ho & _);
    [lia|apply answering_quiet|by intros|by vm_compute|apply package_unused|by vm_compute|exact E|].
  cbn [snd]. split; [exact Ho|]. split; [exact Hf|].
  apply (f_equal snd) in E. cbn [snd] in E. rewrite <- E. split; reflexivity.
Defined.

(** The package in call 7, after a scan. *)
Definition scanning : Api RefHost Z :=
  fst (snd (cScan (Some (mkDB tt 7)) true (u8ViewFromBytes (Some [2])) (u8ViewFromBytes None) 1 (package, outs))).

Lemma scan_lists_entries_witness :
  yields (fun x => x) 0 [([2], [22]); ([3], [])] (drain (cNext (mkRef 7 1) true) entry_read 3 scanning).
Proof.
  apply (scan_lists_entries (mkRef 7 1) 0 3 scanning [([2], [22]); ([3], [])]);
    [done|by vm_compute|by vm_compute|cbn; lia|].
  repeat constructor; by vm_compute.
Defined.

#[export] Instance rust_format : RustFormat := {|
  debug_str s := match s with Some s => "Some(" ++ s ++ ")" | None => "None" end%string;
  encode_upper b := bytes_to_string b |}.

#[export] Instance result_json : ResultJson := {| from_slice b := inr (SystemOk (inr b)) |}.

(** Addresses of three bytes are written as they are. *)
Definition human (b : option bytes) : string * Z * option string :=
  if len (default [] b) =? 3 then (bytes_to_string (default [] b), 5, None) else (""%string, 5, Some "invalid length"%string).
Definition canon (s : string) : option bytes * Z * option string :=
  if (String.length s =? 3)%nat then (Some (string_to_bytes s), 4, None) else (None, 4, Some "invalid length"%string).
Definition valid (s : string) : Z * option string :=
  if (String.length s =? 3)%nat then (9, None) else (9, Some "invalid length"%string).

(** A scan from [3], a step, and a step beyond the end. *)
Definition steps_of (a : Api RefHost Z) :=
  let exec {R} (t : Run R) a := run (mkDB tt 7) (mkGoAPI (Some human) (Some canon) (Some valid)) answering t a in
  match exec (backend (BScan (Some [3]) None Ascending) ∅) a with
  | (Ok (_, self), a) =>
      match exec (backend (BNext 0) self) a with
      | (Ok (r1, _), a) => match exec (backend (BNext 0) self) a with (Ok (r2, _), _) => Some (r1, r2) | _ => None end
      | _ => None
      end
  | _ => None
  end.

Lemma requests_mean_operations_witness :
  steps_of package = Some (Ok (inr (ARecord (Some ([3], []))), with_externally_used 2), Ok (inr (ARecord None), with_externally_used 0))
  /\ fst (run (mkDB tt 7) (mkGoAPI (Some human) (Some canon) (Some valid)) answering (backend (BHumanize [97]) ∅) package)
     = Ok (Ok (inl (UserErr "invalid length"), with_cost 5), ∅).
Proof.
  split.
  - unfold steps_of. rewrite (requests_mean_operations tt 7 human canon valid answering (BScan (Some [3]) None Ascending) ∅ package).
    vm_compute. reflexivity.
  - rewrite (requests_mean_operations tt 7 human canon valid answering (BHumanize [97]) ∅ package). vm_compute. reflexivity.
Defined.

(** ** Calls of the machine *)

Definition addresses : GoAPI := mkGoAPI (Some human) (Some canon) (Some valid).
(** A cache with a contract that works and one that does not. *)
Definition works : option bytes := Some (identifier 32 [0]).
Definition breaks : option bytes := Some (identifier 32 [0; 1]).
Definition with_code : Api RefHost Z :=
  mkApi (mkHost (h_data chain) ∅ 0 1000 [(identifier 32 [0], [0]); (identifier 32 [0; 1], [0; 1])] []) ∅ 0.

(** The second entry is read; a panic, missing gas and a missing argument are
    errors. *)
Lemma entry_points_mean_witness :
  fst (VmCalls.api.Execute true works (Some [7]) (Some [8]) (Some [2]) tt (Some addresses) (Some answering) 1000 with_code)
    = Ok (Some [22], mkReport 1000 900 0 100, None)
  /\ fst (VmCalls.api.Query true breaks (Some [7]) (Some [2]) tt (Some addresses) (Some answering) 1000 with_code)
    = Ok (None, no_report, Some (reported Panicked))
  /\ fst (VmCalls.api.Query true works (Some [7]) (Some [2]) tt (Some addresses) (Some answering) 50 with_code)
    = Ok (None, mkReport 50 0 0 50, Some OutOfGasError)
  /\ fst (VmCalls.api.Query true works (Some [7]) None tt (Some addresses) (Some answering) 1000 with_code)
    = Ok (None, no_report, Some (reported (UnsetArg "arg2"))).
Proof.
  pose proof (entry_points_mean tt human canon valid answering works (Some [7]) (Some [8]) (Some [2]) 1000 with_code) as (_ & Hx & _).
  pose proof (entry_points_mean tt human canon valid answering breaks (Some [7]) (Some [2]) None 1000 with_code) as (_ & _ & _ & _ & _ & _ & Hb & _).
  pose proof (entry_points_mean tt human canon valid answering works (Some [7]) (Some [2]) None 50 with_code) as (_ & _ & _ & _ & _ & _ & Hg & _).
  pose proof (entry_points_mean tt human canon valid answering works (Some [7]) None None 1000 with_code) as (_ & _ & _ & _ & _ & _ & Hn & _).
  unfold addresses. rewrite Hx, Hb, Hg, Hn. split_and!; vm_compute; reflexivity.
Defined.

(** Values are their own JSON, and a response has no submessages. *)
#[export] Instance own_json : Marshal bytes := {| json_Marshal := inr |}.
#[export] Instance own_response : Response bytes := {| json_Unmarshal := inr; SubMessages _ := None |}.

Definition executed (limit : Z) :=
  VM.Execute (ContractResult := bytes) true works [7] [8] (Some [2]) tt addresses answering limit (mkFraction 140 1) with_code.

Lemma gas_within_limit_witness : (exists a', executed 240 = (Ok (Some [22], 240, None), a') /\ 0 <= 240 <= 240)
  /\ exists e a', executed 239 = (Ok (None, 100, Some e), a') /\ 0 <= 100 <= 239.
Proof.
  pose proof (gas_within_limit (ContractResult := bytes) (QueryResult := bytes) (IBCChannelOpenResult := bytes) (IBCBasicResult := bytes)
    (IBCReceiveResult := bytes) tt human canon valid answering works [7] [8] (Some [2])) as (_ & Hm & _).
  assert (forall g, 0 <= g <= 1000 -> priced_within (mkFraction 140 1) g) as Hp by (intros g Hg; unfold priced_within, MaxInt32; cbn; lia).
  split.
  - destruct (executed 240) as [r a'] eqn:E. pose proof (f_equal fst E) as Er. vm_compute in Er. subst r. exists a'. split; [done|].
    exact (proj1 (Hm 240 _ _ _ _ _ _ (Hp 240 ltac:(lia)) E)).
  - destruct (executed 239) as [r a'] eqn:E. pose proof (f_equal fst E) as Er. vm_compute in Er. subst r. eexists _, a'. split; [done|].
    exact (proj1 (Hm 239 _ _ _ _ _ _ (Hp 239 ltac:(lia)) E)).
Defined.

Lemma stored_code_returns_witness :
  (let '(r, a') := VM.StoreCode true (Some [0; 5]) 840000 package in
     r = Ok (Some (identifier 32 [0; 5]), 840000, None) /\ VM.GetCode true (Some (identifier 32 [0; 5])) a' = (Ok (Some [0; 5], None), a'))
  /\ VM.StoreCode true (Some [0; 5]) 839999 package = (Ok (None, 840000, Some OutOfGasError), package)
  /\ (exists a', VM.StoreCodeWithCircuit true (Some [0; 5]) (Some [6]) 2000000 package
        = (Ok ([identifier 32 [0; 5]; identifier 72 [6]], 1260000, None), a') /\ 1260000 = 420000 * (len [0; 5] + len [6])).
Proof.
  assert (len [0; 5] <= MaxInt32 /\ len [6] <= MaxInt32) as [Hc Hv] by by vm_compute.
  split_and!.
  - destruct (VM.StoreCode true (Some [0; 5]) 840000 package) as [r a'] eqn:E. pose proof (f_equal fst E) as Er. vm_compute in Er. subst r.
    split; [by vm_compute|]. destruct (stored_code_returns [0; 5] [6] 840000 package Hc Hv) as (_ & Hs & _).
    exact (proj2 (proj2 (Hs _ _ _ E))).
  - destruct (stored_code_returns [0; 5] [6] 839999 package Hc Hv) as (Hs & _). by apply Hs.
  - destruct (VM.StoreCodeWithCircuit true (Some [0; 5]) (Some [6]) 2000000 package) as [r a'] eqn:E.
    pose proof (f_equal fst E) as Er. vm_compute in Er. subst r. exists a'. split; [by vm_compute|].
    destruct (stored_code_returns [0; 5] [6] 2000000 package Hc Hv) as (_ & _ & Hs). exact (proj1 (Hs _ _ _ E)).
Defined.

End VmWitness.
