(* ===== verification/SaFilter.v ===== *)
(** * x/smart-account: JSON patterns of the message filter

    The message filter accepts a message when its JSON form contains a stored
    pattern.  A decoded JSON value is what [encoding/json] stores in an
    [interface{}]; an object is a Go map, kept as a list of entries with
    distinct keys whose order stands for the iteration order of the map. *)

From Stdlib Require Import ZArith Lia.
From stdpp Require Import base gmap strings list sorting.
From S2P Require Import Prelude Sdk SdkRef Store.

(** ** Decoded JSON *)

Inductive json :=
| JNull
| JBool (b : bool)
| JNumber (text : string)
| JString (s : string)
| JArray (l : list json)
| JObject (m : list (string * json)).

(** [m[key]] on a Go map. *)
Fixpoint obj_get {V} (m : list (string * V)) (key : string) : option V :=
  match m with
  | [] => None
  | (k, v) :: m => if String.eqb k key then Some v else obj_get m key
  end.

(** [math.LegacyNewDecFromStr], absent when the text is not a decimal. *)
Class DecParse := LegacyNewDecFromStr : string -> option Z.

(** ** The superset check *)

Fixpoint checkForFloats (v : json) : bool :=
  match v with
  | JObject m => existsb (fun kv => checkForFloats kv.2) m
  | JArray l => existsb checkForFloats l
  | JNumber _ => true
  | _ => false
  end.

Section Superset.
Context `{DecParse}.

(** The loop over the sorted keys of the first map; [sub] holds the check of
    the value under each of its keys. *)
Fixpoint check_keys (sub : list (string * (json -> res unit))) (bv : list (string * json))
    (keys : list string) : res unit :=
  match keys with
  | [] => Ok tt
  | key :: keys =>
      match obj_get bv key with
      | None => Err "key missing from second map"
      | Some valB =>
          match obj_get sub key with
          | Some check => check valB
          | None => Ok tt
          end;;
          check_keys sub bv keys
      end
  end.

Fixpoint check_elems (sub : list (json -> res unit)) (bv : list json) : res unit :=
  match sub, bv with
  | [], _ => Ok tt
  | check :: sub, valB :: bv => check valB;; check_elems sub bv
  | _ :: _, [] => Panic "index out of range"
  end.

Definition check_strings (av bv : string) : res unit :=
  match LegacyNewDecFromStr av, LegacyNewDecFromStr bv with
  | Some decA, Some decB => ensure (decA =? decB) "numbers do not match"
  | _, _ => Ok tt
  end;;
  ensure (String.eqb av bv) "strings do not match".

Fixpoint isSuperset (a b : json) : res unit :=
  match a with
  | JObject av =>
      match b with
      | JObject bv =>
          let sub := map (fun kv => (kv.1, isSuperset kv.2)) av in
          check_keys sub bv (merge_sort str_le (map fst av))
      | _ => Err "expected map"
      end
  | JArray av =>
      match b with
      | JArray bv =>
          refuse (length bv <? length av)%nat "first slice has more elements than second slice";;
          check_elems (map isSuperset av) bv
      | _ => Err "expected slice"
      end
  | JString av =>
      match b with
      | JString bv => check_strings av bv
      | _ => Err "expected string"
      end
  | JBool av =>
      match b with
      | JBool bv => ensure (Bool.eqb av bv) "booleans do not match or wrong type"
      | _ => Err "booleans do not match or wrong type"
      end
  | JNull =>
      match b with
      | JNull => Ok tt
      | _ => Err "expected null"
      end
  | JNumber _ => Err "numbers encoded as floats are not allowed"
  end.

End Superset.

(** ** Specification *)

(** [covers a b]: every field the pattern [a] mentions is in [b] and covered
    there, arrays element by element from the front, texts literally. *)
Inductive covers : json -> json -> Prop :=
| covers_null : covers JNull JNull
| covers_bool b : covers (JBool b) (JBool b)
| covers_string s : covers (JString s) (JString s)
| covers_array av bv rest : Forall2 covers av bv -> covers (JArray av) (JArray (bv ++ rest))
| covers_object av bv :
    Forall (fun kv => exists v, obj_get bv kv.1 = Some v /\ covers kv.2 v) av ->
    covers (JObject av) (JObject bv).

(** The keys of a map are distinct. *)
Inductive json_wf : json -> Prop :=
| wf_null : json_wf JNull
| wf_bool b : json_wf (JBool b)
| wf_number t : json_wf (JNumber t)
| wf_string s : json_wf (JString s)
| wf_array l : Forall json_wf l -> json_wf (JArray l)
| wf_object m : NoDup (map fst m) -> Forall (fun kv => json_wf kv.2) m -> json_wf (JObject m).

(** Equality of decoded values up to the iteration order of their maps. *)
Inductive json_eq : json -> json -> Prop :=
| json_eq_null : json_eq JNull JNull
| json_eq_bool b : json_eq (JBool b) (JBool b)
| json_eq_number t : json_eq (JNumber t) (JNumber t)
| json_eq_string s : json_eq (JString s) (JString s)
| json_eq_array l l' : Forall2 json_eq l l' -> json_eq (JArray l) (JArray l')
| json_eq_object m m1 m' : m ≡ₚ m1 ->
    Forall2 (fun x y => x.1 = y.1 /\ json_eq x.2 y.2) m1 m' -> json_eq (JObject m) (JObject m').

(** ** Induction and lookups *)

Section JsonInd.
Variable (P : json -> Prop).
Hypothesis (Hnull : P JNull) (Hbool : forall b, P (JBool b)) (Hnumber : forall t, P (JNumber t))
  (Hstring : forall s, P (JString s)) (Harray : forall l, Forall P l -> P (JArray l))
  (Hobject : forall m, Forall (fun kv => P kv.2) m -> P (JObject m)).

Fixpoint json_nested_ind (a : json) : P a :=
  match a with
  | JNull => Hnull
  | JBool b => Hbool b
  | JNumber t => Hnumber t
  | JString s => Hstring s
  | JArray l => Harray l
      ((fix go l : Forall P l := match l with
        | [] => Forall_nil_2 P
        | x :: l => Forall_cons_2 P x l (json_nested_ind x) (go l) end) l)
  | JObject m => Hobject m
      ((fix go m : Forall (fun kv => P kv.2) m := match m with
        | [] => Forall_nil_2 _
        | kv :: m => Forall_cons_2 _ kv m (json_nested_ind kv.2) (go m) end) m)
  end.
End JsonInd.

Lemma obj_get_in {V} (m : list (string * V)) k v : obj_get m k = Some v -> (k, v) ∈ m.
Proof.
  induction m as [|[k' v'] m IH]; cbn; [done|].
  destruct (String.eqb_spec k' k) as [->|]; [intros [= ->]; by left|intros ?%IH; by right].
Qed.

Lemma obj_get_nodup {V} (m : list (string * V)) k v :
  NoDup (map fst m) -> (k, v) ∈ m -> obj_get m k = Some v.
Proof.
  induction m as [|[k' v'] m IH]; cbn; [set_solver|]. intros [Hk Hnd]%NoDup_cons Hin.
  apply elem_of_cons in Hin as [[= <- <-]|Hin]; [by rewrite String.eqb_refl|].
  destruct (String.eqb_spec k' k) as [->|]; [|auto].
  exfalso. apply Hk. apply list_elem_of_fmap. by exists (k, v).
Qed.

Lemma obj_get_map {V T} (f : V -> T) (m : list (string * V)) k :
  obj_get (map (fun kv => (kv.1, f kv.2)) m) k = f <$> obj_get m k.
Proof. induction m as [|[k' v'] m IH]; cbn; [done|]. by destruct (String.eqb k' k). Qed.

Lemma obj_get_perm {V} (m m' : list (string * V)) k :
  NoDup (map fst m) -> m ≡ₚ m' -> obj_get m k = obj_get m' k.
Proof.
  intros Hnd Hp. assert (NoDup (map fst m')) as Hnd'.
  { rewrite <- (Permutation_map fst Hp). done. }
  destruct (obj_get m k) as [v|] eqn:E.
  - apply obj_get_in in E. symmetry. apply obj_get_nodup; [done|]. by rewrite <- Hp.
  - destruct (obj_get m' k) as [v|] eqn:E'; [|done].
    apply obj_get_in in E'. rewrite <- Hp in E'. apply obj_get_nodup in E'; [congruence|done].
Qed.

Lemma forall2_impl_l {A C} (R Q : A -> C -> Prop) l k :
  Forall (fun x => forall y, R x y -> Q x y) l -> Forall2 R l k -> Forall2 Q l k.
Proof. intros HF HR. induction HR; inversion HF; subst; constructor; auto. Qed.

(** Sorting keys forgets their order. *)
Lemma sort_keys_perm l l' : l ≡ₚ l' -> merge_sort str_le l = merge_sort str_le l'.
Proof.
  intros Hp. apply (StronglySorted_unique_strong str_le).
  - intros ? ? _ _. apply str_le_antisym.
  - apply StronglySorted_merge_sort; apply _.
  - apply StronglySorted_merge_sort; apply _.
  - by rewrite !merge_sort_Permutation.
Qed.

(** ** The check decides [covers] *)

Section SupersetProofs.
Context `{DecParse}.

Lemma check_keys_ok sub bv keys : check_keys sub bv keys = Ok tt <->
  Forall (fun key => exists v, obj_get bv key = Some v /\
    match obj_get sub key with Some check => check v = Ok tt | None => True end) keys.
Proof.
  induction keys as [|key keys IH]; cbn; [done|]. rewrite Forall_cons, <- IH. clear IH.
  destruct (obj_get bv key) as [v|]; [|naive_solver].
  destruct (obj_get sub key) as [check|]; [|cbn; naive_solver].
  rewrite res_bind_Ok. split.
  - intros ([]&?&?). eauto.
  - intros [(?&[= <-]&?) ?]. by exists tt.
Qed.

Lemma check_elems_ok sub bv : check_elems sub bv = Ok tt <->
  exists front rest, bv = front ++ rest /\ Forall2 (fun check v => check v = Ok tt) sub front.
Proof.
  revert bv. induction sub as [|check sub IH]; intros bv; cbn.
  { split; [|done]. intros _. by exists [], bv. }
  destruct bv as [|v bv].
  { split; [done|]. intros (front&rest&E&HF). inversion HF; subst; done. }
  rewrite res_bind_Ok. split.
  - intros ([]&?&(front&rest&->&?)%IH). exists (v :: front), rest. by repeat constructor.
  - intros (front&rest&E&HF). inversion HF as [|? v' ? front' ? HF']; subst.
    injection E as -> ->. exists tt. split; [done|]. apply IH. eauto.
Qed.

(** Texts match only when they are the same, whatever number they spell. *)
Lemma check_strings_ok s t : check_strings s t = Ok tt <-> s = t.
Proof.
  unfold check_strings. rewrite res_bind_Ok. split.
  - intros (_&_&E%ensure_Ok). by apply String.eqb_eq.
  - intros ->. rewrite String.eqb_refl. exists tt. split; [|done].
    destruct (LegacyNewDecFromStr t); [|done]. by rewrite Z.eqb_refl.
Qed.

Lemma superset_array av b :
  isSuperset (JArray av) b = Ok tt <->
  exists front rest, b = JArray (front ++ rest) /\ Forall2 (fun x y => isSuperset x y = Ok tt) av front.
Proof.
  cbn. split.
  - destruct b as [| | | |bv|]; try done. intros ([]&_&(front&rest&->&HF)%check_elems_ok)%res_bind_Ok.
    exists front, rest. split; [done|]. by apply Forall2_fmap_l in HF.
  - intros (front&rest&->&HF). apply res_bind_Ok. exists tt. rewrite check_elems_ok. split.
    + apply refuse_Ok, Nat.ltb_ge. rewrite length_app. apply Forall2_length in HF. lia.
    + exists front, rest. split; [done|]. by apply Forall2_fmap_l.
Qed.

Lemma superset_object av b : NoDup (map fst av) ->
  isSuperset (JObject av) b = Ok tt <->
  exists bv, b = JObject bv /\
    Forall (fun kv => exists v, obj_get bv kv.1 = Some v /\ isSuperset kv.2 v = Ok tt) av.
Proof.
  intros Hnd. assert (Hk : forall bv, check_keys (map (fun kv => (kv.1, isSuperset kv.2)) av) bv
      (merge_sort str_le (map fst av)) = Ok tt <->
    Forall (fun kv => exists v, obj_get bv kv.1 = Some v /\ isSuperset kv.2 v = Ok tt) av).
  { intros bv. rewrite check_keys_ok, merge_sort_Permutation, Forall_fmap.
    rewrite !Forall_forall. apply forall_proper. intros [k v]. cbn.
    split; intros HF Hin; specialize (HF Hin);
      rewrite obj_get_map, (obj_get_nodup av k v Hnd Hin) in *; done. }
  cbn -[check_keys]. split.
  - destruct b as [| | | | |bv]; try done. intros ?%Hk. eauto.
  - intros (bv&->&?). by apply Hk.
Qed.

Lemma covers_array_inv av b : covers (JArray av) b <->
  exists front rest, b = JArray (front ++ rest) /\ Forall2 covers av front.
Proof.
  split; [inversion 1; subst; eauto|intros (front&rest&->&?); by constructor].
Qed.

Lemma covers_object_inv av b : covers (JObject av) b <->
  exists bv, b = JObject bv /\ Forall (fun kv => exists v, obj_get bv kv.1 = Some v /\ covers kv.2 v) av.
Proof.
  split; [inversion 1; subst; eauto|intros (bv&->&?); by constructor].
Qed.

Lemma isSuperset_covers a b : json_wf a -> isSuperset a b = Ok tt <-> covers a b.
Proof.
  revert b. induction a as [|x|x|x|av IH|av IH] using json_nested_ind; intros b Hwf.
  - cbn. split; [by destruct b; try done; constructor|by inversion 1].
  - cbn. split.
    + destruct b; try done. intros ->%ensure_Ok%Bool.eqb_prop. constructor.
    + inversion 1; subst. by destruct x.
  - cbn. split; [done|by inversion 1].
  - cbn. split.
    + destruct b; try done. intros ->%check_strings_ok. constructor.
    + inversion 1; subst. by apply check_strings_ok.
  - inversion Hwf as [| | | |? Hl|]; subst. rewrite superset_array, covers_array_inv.
    assert (Forall (fun x => forall y, isSuperset x y = Ok tt <-> covers x y) av) as Hx.
    { rewrite Forall_forall in *. auto. }
    split; intros (front&rest&->&HF); exists front, rest; (split; [done|]);
      (eapply forall2_impl_l; [|exact HF]); rewrite Forall_forall in *; naive_solver.
  - inversion Hwf as [| | | | |? Hnd Hl]; subst. rewrite superset_object, covers_object_inv by done.
    split; intros (bv&->&HF); exists bv; (split; [done|]); rewrite Forall_forall in *;
      intros kv Hin; destruct (HF kv Hin) as (v&?&?); exists v; (split; [done|]); by apply IH; auto.
Qed.

Lemma check_keys_no_panic sub bv keys p :
  Forall (fun kc => forall v, kc.2 v <> Panic p) sub -> check_keys sub bv keys <> Panic p.
Proof.
  intros Hsub. induction keys as [|key keys IH]; cbn; [done|].
  destruct (obj_get bv key) as [v|]; [|done].
  destruct (obj_get sub key) as [check|] eqn:E; [|done].
  apply obj_get_in in E. rewrite Forall_forall in Hsub. specialize (Hsub _ E v). cbn in *.
  destruct (check v) as [[]| |]; cbn; congruence.
Qed.

Lemma check_elems_no_panic sub bv p : (length sub <= length bv)%nat ->
  Forall (fun check => forall v, check v <> Panic p) sub -> check_elems sub bv <> Panic p.
Proof.
  revert bv. induction sub as [|check sub IH]; intros [|v bv] Hl HF; cbn in *; try done; [lia|].
  inversion HF as [|? ? Hc HF']; subst. specialize (Hc v).
  destruct (check v) as [[]| |]; cbn; [|congruence..]. apply IH; [lia|done].
Qed.

Lemma isSuperset_no_panic a b p : isSuperset a b <> Panic p.
Proof.
  revert b. induction a as [|x|x|x|av IH|av IH] using json_nested_ind; intros b;
    [destruct b; cbn; try done..| |].
  - by destruct (Bool.eqb x b).
  - unfold check_strings. destruct (LegacyNewDecFromStr x), (LegacyNewDecFromStr s); cbn;
      repeat (destruct (_ =? _)); cbn; by destruct (String.eqb x s).
  - destruct b as [| | | |bv|]; try done. cbn [isSuperset].
    destruct (Nat.ltb_spec (length bv) (length av)); [done|].
    apply check_elems_no_panic; [by rewrite length_map|]. by apply Forall_fmap.
  - destruct b as [| | | | |bv]; try done. apply check_keys_no_panic. by apply Forall_fmap.
Qed.

(** The message filter's comparison accepts a message exactly when every
    field of the pattern occurs in the message with a covered value, arrays
    compared from the front; it terminates with an answer or an error, and
    never indexes out of range. *)
Theorem isSuperset_spec a b : json_wf a ->
  (isSuperset a b = Ok tt <-> covers a b) /\ (forall p, isSuperset a b <> Panic p).
Proof. intros. split; [by apply isSuperset_covers|intros; apply isSuperset_no_panic]. Qed.

(** ** Order of the maps *)

Lemma obj_get_eq m m' k : NoDup (map fst m) -> json_eq (JObject m) (JObject m') ->
  option_Forall2 json_eq (obj_get m k) (obj_get m' k).
Proof.
  intros Hnd. inversion 1 as [| | | | |? m1 ? Hp HF]; subst.
  rewrite (obj_get_perm m m1 k Hnd Hp). clear - HF.
  induction HF as [|[k1 v1] [k2 v2] l l' [Hk Hv] _ IH]; cbn in *; [constructor|]. subst.
  destruct (String.eqb k2 k); [by constructor|done].
Qed.

Lemma json_eq_keys m m' : json_eq (JObject m) (JObject m') -> map fst m ≡ₚ map fst m'.
Proof.
  inversion 1 as [| | | | |? m1 ? Hp HF]; subst. rewrite Hp. clear - HF.
  induction HF as [|x y l l' [Hk _] _ IH]; cbn; [done|]. by rewrite Hk, IH.
Qed.

Lemma check_keys_eq sub sub' bv bv' keys :
  (forall k, option_Forall2 (fun c c' => forall v v', json_eq v v' -> json_wf v -> c v = c' v')
     (obj_get sub k) (obj_get sub' k)) ->
  (forall k, option_Forall2 json_eq (obj_get bv k) (obj_get bv' k)) ->
  Forall (fun kv => json_wf kv.2) bv ->
  check_keys sub bv keys = check_keys sub' bv' keys.
Proof.
  intros Hsub Hbv Hwf. induction keys as [|key keys IH]; cbn; [done|].
  specialize (Hbv key). destruct (obj_get bv key) as [v|] eqn:E; inversion Hbv as [? v' Hv|]; subst; [|done].
  apply obj_get_in in E. rewrite Forall_forall in Hwf. specialize (Hwf _ E). rewrite IH.
  specialize (Hsub key). inversion Hsub as [c c' Hc|]; subst; [|done]. by rewrite (Hc v v').
Qed.

Lemma check_elems_eq sub sub' bv bv' :
  Forall2 (fun c c' => forall v v', json_eq v v' -> json_wf v -> c v = c' v') sub sub' ->
  Forall2 json_eq bv bv' -> Forall json_wf bv -> check_elems sub bv = check_elems sub' bv'.
Proof.
  intros HF. revert bv bv'. induction HF as [|c c' sub sub' Hc HF IH]; intros bv bv' Hb Hwf; [done|].
  inversion Hb as [|v v' ? ? Hv Hb']; subst; [done|]. inversion Hwf; subst. cbn.
  rewrite (Hc v v') by done. by rewrite (IH l l').
Qed.

Lemma isSuperset_json_eq a a' b b' : json_wf a -> json_wf b -> json_eq a a' -> json_eq b b' ->
  isSuperset a b = isSuperset a' b'.
Proof.
  revert a' b b'. induction a as [|x|x|x|av IH|av IH] using json_nested_ind; intros a' b b' Hwa Hwb Ha Hb.
  1-4: inversion Ha; subst; inversion Hb; done.
  - inversion Ha as [| | | |? av' HF|]; subst. inversion Hb as [| | | |bv bv' HG|]; subst; try done.
    cbn [isSuperset]. rewrite (Forall2_length _ _ _ HF), (Forall2_length _ _ _ HG).
    inversion Hwa as [| | | |? Hav|]; inversion Hwb; subst.
    destruct (length bv' <? length av')%nat; [done|]. cbn.
    apply check_elems_eq; [|done|done]. apply Forall2_fmap. clear - IH HF Hav.
    induction HF; inversion IH; inversion Hav; subst; constructor; auto.
  - assert (Hk := fun k m' => obj_get_eq av m' k).
    inversion Hwa as [| | | | |? Hnd Hav]; subst.
    destruct a' as [| | | | |av']; try by inversion Ha.
    destruct b as [| | | | |bv]; try by inversion Hb. destruct b' as [| | | | |bv']; try by inversion Hb.
    inversion Hwb as [| | | | |? Hnd' Hbv]; subst.
    cbn. rewrite (sort_keys_perm _ _ (json_eq_keys _ _ Ha)). apply check_keys_eq; [|by intros; apply obj_get_eq|done].
    intros k. rewrite !obj_get_map. specialize (Hk k av' Hnd Ha).
    destruct (obj_get av k) as [v|] eqn:E; inversion Hk as [? v' Hv|]; subst; constructor.
    apply obj_get_in in E. rewrite Forall_forall in *. intros w w' ? ?. by apply (IH _ E); [apply (Hav _ E)|..].
Qed.

(** The outcome of the comparison, error included, does not depend on the
    order in which Go iterates over the maps of the pattern and the message, so
    that all nodes agree on it. *)
Theorem isSuperset_deterministic a a' b b' : json_wf a -> json_wf b -> json_eq a a' -> json_eq b b' ->
  isSuperset a b = isSuperset a' b'.
Proof. apply isSuperset_json_eq. Qed.

(** ** Patterns with numbers *)

Lemma existsb_false {A} (f : A -> bool) l : existsb f l = false <-> Forall (fun x => f x = false) l.
Proof.
  induction l as [|x l IH]; cbn; [done|]. rewrite orb_false_iff, IH, Forall_cons. done.
Qed.

Lemma covers_refl a : json_wf a -> checkForFloats a = false -> covers a a.
Proof.
  induction a as [|x|x|x|av IH|av IH] using json_nested_ind; cbn; intros Hwf Hf; try done; try constructor.
  - rewrite <- (app_nil_r av) at 2. constructor. apply existsb_false in Hf.
    inversion Hwf as [| | | |? Hl|]; subst. clear Hwf.
    induction av; inversion IH; inversion Hf; inversion Hl; subst; constructor; auto.
  - apply existsb_false in Hf. inversion Hwf as [| | | | |? Hnd Hl]; subst.
    rewrite Forall_forall in *. intros [k v] Hin. exists v. split; [by apply obj_get_nodup|].
    apply (IH _ Hin); [by apply (Hl _ Hin)|by apply (Hf _ Hin)].
Qed.

Lemma covers_float_free a b : covers a b -> checkForFloats a = false.
Proof.
  revert b. induction a as [|x|x|x|av IH|av IH] using json_nested_ind; intros b; try done.
  - by inversion 1.
  - intros (front&rest&_&HF)%covers_array_inv. apply existsb_false.
    induction HF; inversion IH; subst; constructor; eauto.
  - intros (bv&_&HF)%covers_object_inv. apply existsb_false. rewrite Forall_forall in *.
    intros kv Hin. destruct (HF _ Hin) as (v&_&?). by eapply (IH _ Hin).
Qed.

(** The check made when a filter is added refuses exactly the patterns that
    no message could ever match: a pattern without JSON numbers matches itself,
    one with a number anywhere matches nothing. *)
Theorem float_check_exact a : json_wf a ->
  checkForFloats a = false <-> exists b, isSuperset a b = Ok tt.
Proof.
  intros Hwf. split.
  - intros Hf. exists a. by apply isSuperset_covers, covers_refl.
  - intros (b&Hb%isSuperset_covers); [|done]. by eapply covers_float_free.
Qed.

End SupersetProofs.

(** ** Witnesses *)

Module FilterWitness.
Local Open Scope string_scope.

(** Only decimal digits are read as a number. *)
#[local] Instance digits : DecParse := fun s =>
  match s with "100" | "100.0" => Some 100 | _ => None end.

Definition amount (d a : string) : json := JArray [JObject [("denom", JString d); ("amount", JString a)]].
Definition pattern : json := JObject [("to", JString "bob"); ("amount", amount "uterp" "100")].
Definition message : json :=
  JObject [("from", JString "alice"); ("amount", amount "uterp" "100"); ("to", JString "bob")].

Lemma pattern_wf : json_wf pattern.
Proof. repeat constructor; set_solver. Qed.

Lemma message_wf : json_wf message.
Proof. repeat constructor; set_solver. Qed.

Lemma isSuperset_spec_witness : isSuperset pattern message = Ok tt /\ covers pattern message.
Proof. split; [reflexivity|]. apply (isSuperset_spec pattern message pattern_wf). reflexivity. Defined.

(** The pattern with its fields in the other order. *)
Definition pattern' : json := JObject [("amount", amount "uterp" "100"); ("to", JString "bob")].

Lemma json_eq_pattern : json_eq pattern pattern'.
Proof.
  apply (json_eq_object _ [("amount", amount "uterp" "100"); ("to", JString "bob")]).
  - apply Permutation_swap.
  - repeat (constructor; cbn); try done.
    apply (json_eq_object _ [("denom", JString "uterp"); ("amount", JString "100")]); [done|].
    repeat (constructor; cbn); done.
Qed.

Lemma json_eq_message : json_eq message message.
Proof.
  unfold message. eapply json_eq_object; [reflexivity|]. repeat (constructor; cbn); try done.
  apply (json_eq_object _ [("denom", JString "uterp"); ("amount", JString "100")]); [done|].
  repeat (constructor; cbn); done.
Qed.

Lemma isSuperset_deterministic_witness : isSuperset pattern message = isSuperset pattern' message.
Proof.
  exact (isSuperset_deterministic _ _ _ _ pattern_wf message_wf json_eq_pattern json_eq_message).
Defined.

(** Numbers of equal value in different spelling do not match. *)
Lemma float_check_exact_witness :
  (exists b, isSuperset pattern b = Ok tt) /\
  isSuperset (amount "uterp" "100") (amount "uterp" "100.0") = Err "strings do not match".
Proof.
  split; [|reflexivity]. apply (float_check_exact pattern pattern_wf). reflexivity.
Defined.

End FilterWitness.
