(* ===== verification/SaAuth.v ===== *)
(** * x/smart-account: authenticators

    The authenticators an account can be given: a signature check, the message
    filter, a contract, a zero-knowledge proof, and the combinators [AllOf] and
    [AnyOf] over other authenticators, with the manager that knows their types. *)

From Stdlib Require Import ZArith Lia Ascii.
From stdpp Require Import base gmap strings list sorting pretty.
From S2P Require Import Prelude Sdk SdkRef Store GoLib WasmDispatch SaFilter.

(** ** Data *)

Record LocalAny := mkAny { TypeURL : string; Value : string }.
Record SignModeData := mkSignMode { Direct : string; Textual : string }.
Record SimplifiedSignatureData := mkSigData { Signers : list string; Signatures : list string }.
Record ExplicitTxData := mkTxData {
  ChainID : string; AccountNumber : Z; AccountSequence : Z; TimeoutHeight : Z;
  Msgs : list LocalAny; Memo : string }.

Record AuthenticationRequest := mkRequest {
  AuthenticatorId : string; Account : string; FeePayer : string; FeeGranter : string;
  Fee : list Coin; Msg : LocalAny; MsgIndex : Z; Signature : string;
  SignModeTxData : SignModeData; TxData : ExplicitTxData; SignatureData : SimplifiedSignatureData;
  Simulate : bool; AuthenticatorParams : string }.

Definition set_id (id : string) (r : AuthenticationRequest) : AuthenticationRequest :=
  mkRequest id (Account r) (FeePayer r) (FeeGranter r) (Fee r) (Msg r) (MsgIndex r) (Signature r)
    (SignModeTxData r) (TxData r) (SignatureData r) (Simulate r) (AuthenticatorParams r).

Definition set_signature (s : string) (r : AuthenticationRequest) : AuthenticationRequest :=
  mkRequest (AuthenticatorId r) (Account r) (FeePayer r) (FeeGranter r) (Fee r) (Msg r) (MsgIndex r) s
    (SignModeTxData r) (TxData r) (SignatureData r) (Simulate r) (AuthenticatorParams r).

Definition set_auth_params (p : string) (r : AuthenticationRequest) : AuthenticationRequest :=
  mkRequest (AuthenticatorId r) (Account r) (FeePayer r) (FeeGranter r) (Fee r) (Msg r) (MsgIndex r)
    (Signature r) (SignModeTxData r) (TxData r) (SignatureData r) (Simulate r) p.

(** [TrackRequest] and [ConfirmExecutionRequest] have the same fields. *)
Record TrackRequest := mkTrack {
  TrAuthenticatorId : string; TrAccount : string; TrFeePayer : string; TrFeeGranter : string;
  TrFee : list Coin; TrMsg : LocalAny; TrMsgIndex : Z; TrAuthenticatorParams : string }.

(** The message given to a contract's [sudo]. *)
Inductive SudoMsg :=
| SudoOnAuthenticatorAdded (account params id : string)
| SudoOnAuthenticatorRemoved (account params id : string)
| SudoAuthenticate (r : AuthenticationRequest)
| SudoTrack (r : TrackRequest)
| SudoConfirmExecution (r : TrackRequest).

Record SubAuthenticatorInitData := mkInit { InitType : string; Config : string }.
Record CosmwasmAuthenticatorInitData := mkCwInit { Contract : string; CwParams : string }.
Record ZkProofAuthenticatorConfig := mkZkConfig {
  ZkID : Z; PILayout : string; ZkStaticGas : Z; RequirePin : bool; MaxProofBytes : Z }.
Record ZkProofAuthPayload := mkZkPayload { Proof_ : string; Instances : string; CircuitKeyHint : string }.

Inductive SignatureAssignment := Single | Partitioned.

#[export] Instance signature_assignment_eq_dec : EqDecision SignatureAssignment.
Proof. solve_decision. Defined.

(** The implementations of the [Authenticator] interface. *)
Inductive Authenticator :=
| SignatureVerification (PubKey : option string)
| MessageFilter (pattern : string)
| AllOf (signatureAssignment : SignatureAssignment) (SubAuthenticators : list Authenticator)
| AnyOf (signatureAssignment : SignatureAssignment) (SubAuthenticators : list Authenticator)
| CosmwasmAuthenticator (contractAddr authenticatorParams : string)
| ZkProofAuthenticatorV1 (config : ZkProofAuthenticatorConfig).

(** What the authenticators read of the transaction context. *)
Record TxCtx := mkTxCtx { IsCheckTx : bool; IsReCheckTx : bool; BlockHeight : Z; CtxChainID : string }.

(** ** Interfaces *)

(** [encoding/json] at the types the authenticators decode and encode. *)
Class SaJson := {
  UnmarshalSignatures : string -> res (list string);
  UnmarshalInitDatas : string -> res (list SubAuthenticatorInitData);
  UnmarshalRaw : string -> res unit;
  UnmarshalAny : string -> res json;
  UnmarshalObject : string -> res unit;
  UnmarshalCosmwasmInit : string -> res CosmwasmAuthenticatorInitData;
  UnmarshalZkConfig : string -> res ZkProofAuthenticatorConfig;
  UnmarshalZkPayload : string -> res ZkProofAuthPayload;
  MarshalSudo : SudoMsg -> res string
}.

(** Decoding never panics, and a byte slice decoded from inside a document is
    shorter than the document, which holds it in base64. *)
Class SaJsonLaws `{SaJson} : Prop := {
  init_datas_shorter data l : UnmarshalInitDatas data = Ok l ->
    Forall (fun d => (String.length (Config d) < String.length data)%nat) l;
  init_datas_no_panic data p : UnmarshalInitDatas data <> Panic p;
  raw_no_panic data p : UnmarshalRaw data <> Panic p;
  object_no_panic data p : UnmarshalObject data <> Panic p;
  cw_init_no_panic data p : UnmarshalCosmwasmInit data <> Panic p;
  zk_config_no_panic data p : UnmarshalZkConfig data <> Panic p;
  any_no_panic data p : UnmarshalAny data <> Panic p;
  signatures_no_panic data p : UnmarshalSignatures data <> Panic p
}.

(** The proto registry, signatures, the account parameters, contracts, and the
    verifiers of proofs set on an instance and globally. *)
Class SaHost (S G : Type) := {
  Resolve : string -> res string;
  UnmarshalProto : string -> string -> res string;
  MarshalInterfaceJSON : string -> res string;
  VerifySignature : string -> string -> string -> bool;
  SigVerifyCostSecp256k1 : S -> Z;
  Sudo : string -> string -> M (World S G) string;
  verifier : option (Z -> string -> string -> M (World S G) unit);
  GlobalPathAVerifier : option (Z -> string -> string -> M (World S G) unit)
}.

(** ** Names *)

Definition compositeId (baseId : string) (subId : nat) : string :=
  (baseId ++ "." ++ itoa (Z.of_nat subId))%string.

Definition Type_ (a : Authenticator) : string :=
  match a with
  | SignatureVerification _ => "SignatureVerification"
  | MessageFilter _ => "MessageFilter"
  | AllOf Single _ => "AllOf"
  | AllOf Partitioned _ => "PartitionedAllOf"
  | AnyOf Single _ => "AnyOf"
  | AnyOf Partitioned _ => "PartitionedAnyOf"
  | CosmwasmAuthenticator _ _ => "CosmwasmAuthenticatorV1"
  | ZkProofAuthenticatorV1 _ => "ZkProofAuthenticatorV1"
  end.

Definition DefaultZkProofStaticGas : Z := 100000.

Fixpoint StaticGas (a : Authenticator) : Z :=
  match a with
  | SignatureVerification _ | MessageFilter _ | CosmwasmAuthenticator _ _ => 0
  | AllOf _ subs | AnyOf _ subs => fold_left (fun total g => u64 (total + g)) (map StaticGas subs) 0
  | ZkProofAuthenticatorV1 c => if ZkStaticGas c =? 0 then DefaultZkProofStaticGas else ZkStaticGas c
  end.

(** ** The manager *)

Record AuthenticatorManager := mkManager {
  registeredAuthenticators : gmap string Authenticator;
  orderedKeys : list string
}.

Definition NewAuthenticatorManager : AuthenticatorManager := mkManager ∅ [].
Definition ResetAuthenticators (_ : AuthenticatorManager) : AuthenticatorManager := mkManager ∅ [].

Definition InitializeAuthenticators (initial : list Authenticator) (am : AuthenticatorManager)
    : AuthenticatorManager :=
  if (0 <? size (registeredAuthenticators am))%nat then am
  else mkManager
    (fold_left (fun m a => <[Type_ a := a]> m) initial (registeredAuthenticators am))
    (merge_sort str_le (orderedKeys am ++ map Type_ initial)).

Definition RegisterAuthenticator (a : Authenticator) (am : AuthenticatorManager) : AuthenticatorManager :=
  mkManager (<[Type_ a := a]> (registeredAuthenticators am))
    (match registeredAuthenticators am !! Type_ a with
     | Some _ => orderedKeys am
     | None => merge_sort str_le (orderedKeys am ++ [Type_ a])
     end).

(** Removes the first occurrence. *)
Fixpoint remove_first (k : string) (l : list string) : list string :=
  match l with
  | [] => []
  | x :: l => if String.eqb x k then l else x :: remove_first k l
  end.

Definition UnregisterAuthenticator (a : Authenticator) (am : AuthenticatorManager) : AuthenticatorManager :=
  match registeredAuthenticators am !! Type_ a with
  | Some _ => mkManager (delete (Type_ a) (registeredAuthenticators am))
                (remove_first (Type_ a) (orderedKeys am))
  | None => am
  end.

(** A key without an entry yields the nil interface. *)
Definition GetRegisteredAuthenticators (am : AuthenticatorManager) : list (option Authenticator) :=
  map (fun key => registeredAuthenticators am !! key) (orderedKeys am).

Definition IsAuthenticatorTypeRegistered (authenticatorType : string) (am : AuthenticatorManager) : bool :=
  bool_decide (is_Some (registeredAuthenticators am !! authenticatorType)).

Definition GetAuthenticatorByType (am : AuthenticatorManager) (authenticatorType : string)
    : option Authenticator := registeredAuthenticators am !! authenticatorType.

(** ** Operations of the authenticators *)

(** A Go loop over a slice with its index. *)
Fixpoint forMi {S A} (i : nat) (l : list A) (f : nat -> A -> M S unit) : M S unit :=
  match l with
  | [] => mret tt
  | x :: l => f i x;; forMi (Datatypes.S i) l f
  end.

Section Operations.
Context {S G : Type} `{GasMeterOps G} `{SaJson} `{SaHost S G} `{Bech32} `{DecParse}.
Variable (ctx : TxCtx).

Abbreviation W := (World S G).

(** A cached context: store writes and events reach the parent on success. *)
Definition cacheCtx {A} (m : M W A) : M W A := fun w =>
  match m (set_evs [] w) with
  | (Ok a, w') => (Ok a, set_evs (evs w ++ evs w') w')
  | (r, w') => (r, set_meter (meter w') w)
  end.

(** A cached context that is never written back. *)
Definition neverWrite {A} (m : M W A) : M W A := fun w =>
  let '(r, w') := m (set_evs [] w) in (r, set_meter (meter w') w).

(** *** Message filter *)

Definition containsFloats (data : string) : res bool :=
  v ← UnmarshalAny data; Ok (checkForFloats v).

Definition IsJsonSuperset (a b : string) : res unit :=
  av ← UnmarshalAny a; bv ← UnmarshalAny b; isSuperset av bv.

Definition MessageFilter_Authenticate (pattern : string) (request : AuthenticationRequest) : res unit :=
  protoResponseType ← Resolve (TypeURL (Msg request));
  msg ← UnmarshalProto protoResponseType (Value (Msg request));
  jsonBz ← MarshalInterfaceJSON msg;
  IsJsonSuperset pattern jsonBz.

Definition MessageFilter_OnAuthenticatorAdded (config : string) : res unit :=
  UnmarshalRaw config;;
  hasFloats ← containsFloats config;
  refuse hasFloats "invalid json representation of message".

(** *** Signatures *)

Definition PubKeySize : nat := 33.

Definition SignatureVerification_Authenticate (PubKey : option string) (request : AuthenticationRequest)
    : M W unit :=
  cost ← gets (fun w => SigVerifyCostSecp256k1 (store w));
  charge cost;;
  if Simulate request || IsReCheckTx ctx then mret tt
  else match PubKey with
       | None => throw "ErrInvalidPubKey"
       | Some pk => ensureM (VerifySignature pk (Direct (SignModeTxData request)) (Signature request))
                      "ErrUnauthorized"
       end.

Definition SignatureVerification_OnAuthenticatorAdded (config : string) : res unit :=
  ensure (String.length config =? PubKeySize)%nat "invalid secp256k1 public key size".

(** *** Contracts *)

Definition parseInitData (data : string) : res (string * string) :=
  initData ← UnmarshalCosmwasmInit data;
  refuse (String.length (Contract initData) =? 0)%nat "ErrInvalidRequest";;
  contractAddr ← AccAddressFromBech32 (Contract initData);
  if (String.length (CwParams initData) =? 0)%nat then Ok (contractAddr, ""%string)
  else UnmarshalObject (CwParams initData);; Ok (contractAddr, CwParams initData).

(** Marshals the message and calls the contract's [sudo]. *)
Definition sudo_call (contractAddr : string) (msg : SudoMsg) : M W unit :=
  bz ← lift (MarshalSudo msg); Sudo contractAddr bz;; mret tt.

Definition track_request (params : string) (r : AuthenticationRequest) : TrackRequest :=
  mkTrack (AuthenticatorId r) (Account r) (FeePayer r) (FeeGranter r) (Fee r) (Msg r) (MsgIndex r) params.

(** *** Proofs *)

Definition ParseZkProofAuthenticatorConfig (config : string) : res ZkProofAuthenticatorConfig :=
  refuse (String.length config =? 0)%nat "ErrInvalidRequest";;
  cfg ← UnmarshalZkConfig config;
  refuse (ZkID cfg =? 0) "ErrInvalidRequest";;
  Ok (mkZkConfig (ZkID cfg) (PILayout cfg) (ZkStaticGas cfg) (RequirePin cfg)
        (if MaxProofBytes cfg =? 0 then 65536 else MaxProofBytes cfg)).

Definition ParseZkProofAuthPayload (raw : string) : res ZkProofAuthPayload :=
  refuse (String.length raw =? 0)%nat "ErrInvalidRequest";;
  p ← UnmarshalZkPayload raw;
  refuse (String.length (Proof_ p) =? 0)%nat "ErrInvalidRequest";;
  refuse (String.length (Instances p) =? 0)%nat "ErrInvalidRequest";;
  Ok p.

(** The verifier of the instance, or else the global one; without any the
    authenticator fails closed. *)
Definition run_verifier (config : ZkProofAuthenticatorConfig) (payload : ZkProofAuthPayload) : M W unit :=
  match (match verifier with Some v => Some v | None => GlobalPathAVerifier end) with
  | None => throw "ErrUnauthorized"
  | Some v => fun w =>
      match v (ZkID config) (Proof_ payload) (Instances payload) w with
      | (Err _, w') => (Err "ErrUnauthorized", w')
      | r => r
      end
  end.

Definition ZkProof_Authenticate (config : ZkProofAuthenticatorConfig) (request : AuthenticationRequest)
    : M W unit :=
  let gas := StaticGas (ZkProofAuthenticatorV1 config) in
  (if 0 <? gas then charge gas else mret tt);;
  if Simulate request || IsReCheckTx ctx then mret tt
  else
    payload ← lift (ParseZkProofAuthPayload (Signature request));
    refuseM (MaxProofBytes config <? Z.of_nat (String.length (Proof_ payload))) "ErrInvalidRequest";;
    run_verifier config payload.

(** *** Combinators *)

Definition splitSignatures (signature : string) (total : nat) : res (list string) :=
  match UnmarshalSignatures signature with
  | Ok signatures => ensure (length signatures =? total)%nat "ErrInvalidRequest";; Ok signatures
  | Err _ => Err "ErrInvalidRequest"
  | Panic p => Panic p
  end.

(** The signatures of the sub-authenticators, only split when partitioned. *)
Definition assigned (sa : SignatureAssignment) (request : AuthenticationRequest) (total : nat)
    : res (list string) :=
  match sa with
  | Partitioned => splitSignatures (Signature request) total
  | Single => Ok []
  end.

(** The request seen by sub-authenticator [i]. *)
Definition sub_request (sa : SignatureAssignment) (signatures : list string)
    (request : AuthenticationRequest) (i : nat) : res AuthenticationRequest :=
  let request' := set_id (compositeId (AuthenticatorId request) i) request in
  match sa with
  | Single => Ok request'
  | Partitioned =>
      match signatures !! i with
      | Some s => Ok (set_signature s request')
      | None => Panic "index out of range"
      end
  end.

Definition all_from (sub : nat -> res AuthenticationRequest) (i : nat)
    (auths : list (AuthenticationRequest -> M W unit)) : M W unit :=
  forMi i auths (fun i auth => rq ← lift (sub i); auth rq).

(** Tries the sub-authenticators until one succeeds; [run] is the context each
    of them runs in. *)
Fixpoint any_from (run : M W unit -> M W unit) (sub : nat -> res AuthenticationRequest) (i : nat)
    (auths : list (AuthenticationRequest -> M W unit)) : M W unit :=
  match auths with
  | [] => throw "ErrUnauthorized"
  | auth :: auths => fun w =>
      match sub i with
      | Ok rq =>
          match run (auth rq) w with
          | (Err _, w') => any_from run sub (Datatypes.S i) auths w'
          | r => r
          end
      | Err e => (Err e, w)
      | Panic p => (Panic p, w)
      end
  end.

Definition AllOf_Authenticate (sa : SignatureAssignment) (auths : list (AuthenticationRequest -> M W unit))
    (request : AuthenticationRequest) : M W unit :=
  refuseM (length auths =? 0)%nat "ErrInvalidRequest";;
  signatures ← lift (assigned sa request (length auths));
  all_from (sub_request sa signatures request) 0 auths.

Definition AllOf_ConfirmExecution (sa : SignatureAssignment) (auths : list (AuthenticationRequest -> M W unit))
    (request : AuthenticationRequest) : M W unit :=
  signatures ← lift (assigned sa request (length auths));
  all_from (sub_request sa signatures request) 0 auths.

Definition AnyOf_Authenticate (sa : SignatureAssignment) (auths : list (AuthenticationRequest -> M W unit))
    (request : AuthenticationRequest) : M W unit :=
  refuseM (length auths =? 0)%nat "ErrInvalidRequest";;
  signatures ← lift (assigned sa request (length auths));
  any_from (fun m => m) (sub_request sa signatures request) 0 auths.

Definition AnyOf_ConfirmExecution (sa : SignatureAssignment) (auths : list (AuthenticationRequest -> M W unit))
    (request : AuthenticationRequest) : M W unit :=
  signatures ← lift (assigned sa request (length auths));
  any_from cacheCtx (sub_request sa signatures request) 0 auths.

Definition subTrack (auths : list (AuthenticationRequest -> M W unit)) (request : AuthenticationRequest)
    : M W unit :=
  forMi 0 auths (fun i auth => auth (set_id (compositeId (AuthenticatorId request) i) request)).

(** *** The interface *)

Fixpoint Authenticate (a : Authenticator) (request : AuthenticationRequest) : M W unit :=
  match a with
  | SignatureVerification pk => SignatureVerification_Authenticate pk request
  | MessageFilter pattern => lift (MessageFilter_Authenticate pattern request)
  | AllOf sa subs => AllOf_Authenticate sa (map Authenticate subs) request
  | AnyOf sa subs => AnyOf_Authenticate sa (map Authenticate subs) request
  | CosmwasmAuthenticator contractAddr params =>
      sudo_call contractAddr (SudoAuthenticate (set_auth_params params request))
  | ZkProofAuthenticatorV1 config => ZkProof_Authenticate config request
  end.

Fixpoint Track (a : Authenticator) (request : AuthenticationRequest) : M W unit :=
  match a with
  | AllOf _ subs | AnyOf _ subs => subTrack (map Track subs) request
  | CosmwasmAuthenticator contractAddr params =>
      sudo_call contractAddr (SudoTrack (track_request params request))
  | _ => mret tt
  end.

Fixpoint ConfirmExecution (a : Authenticator) (request : AuthenticationRequest) : M W unit :=
  match a with
  | AllOf sa subs => AllOf_ConfirmExecution sa (map ConfirmExecution subs) request
  | AnyOf sa subs => AnyOf_ConfirmExecution sa (map ConfirmExecution subs) request
  | CosmwasmAuthenticator contractAddr params =>
      sudo_call contractAddr (SudoConfirmExecution (track_request params request))
  | _ => mret tt
  end.

(** *** Lifecycle

    A composite reads its parts out of its configuration and hands each part's
    configuration to the authenticator registered under its type.  [fuel]
    bounds the nesting of composites; running out of it stands for a stack
    overflow. *)

Definition init_part (Init : Authenticator -> string -> res Authenticator) (am : AuthenticatorManager)
    (d : SubAuthenticatorInitData) : res Authenticator :=
  match GetAuthenticatorByType am (InitType d) with
  | None => Panic "nil pointer dereference"
  | Some authenticatorCode => Init authenticatorCode (Config d)
  end.

Definition init_composite (Init : Authenticator -> string -> res Authenticator) (am : AuthenticatorManager)
    (subs : list Authenticator) (config : string) : res (list Authenticator) :=
  initDatas ← UnmarshalInitDatas config;
  refuse (length initDatas <=? 1)%nat "ErrInvalidRequest";;
  instances ← mapM (init_part Init am) initDatas;
  let subs := subs ++ instances in
  ensure (length subs =? length initDatas)%nat "ErrInvalidRequest";;
  Ok subs.

Fixpoint Initialize (fuel : nat) (am : AuthenticatorManager) (a : Authenticator) (config : string)
    : res Authenticator :=
  match fuel with
  | O => Panic "stack overflow"
  | Datatypes.S fuel =>
      match a with
      | SignatureVerification _ => Ok (SignatureVerification (Some config))
      | MessageFilter _ => UnmarshalRaw config;; Ok (MessageFilter config)
      | AllOf sa subs => subs ← init_composite (Initialize fuel am) am subs config; Ok (AllOf sa subs)
      | AnyOf sa subs => subs ← init_composite (Initialize fuel am) am subs config; Ok (AnyOf sa subs)
      | CosmwasmAuthenticator _ _ =>
          ap ← parseInitData config; Ok (CosmwasmAuthenticator ap.1 ap.2)
      | ZkProofAuthenticatorV1 _ => cfg ← ParseZkProofAuthenticatorConfig config; Ok (ZkProofAuthenticatorV1 cfg)
      end
  end.

(** The counter compared with the number of parts after the loop has been
    incremented once for each of them. *)
Definition onSubAuthenticatorsAdded (Added : Authenticator -> string -> string -> M W unit)
    (data authenticatorId : string) (am : AuthenticatorManager) : M W unit :=
  initDatas ← lift (UnmarshalInitDatas data);
  refuseM (length initDatas <=? 1)%nat "ErrInvalidRequest";;
  forMi 0 initDatas (fun id initData =>
    match GetAuthenticatorByType am (InitType initData) with
    | None => throw "ErrInvalidRequest"
    | Some authenticatorCode => Added authenticatorCode (Config initData) (compositeId authenticatorId id)
    end).

Fixpoint OnAuthenticatorAdded (fuel : nat) (am : AuthenticatorManager) (account : string)
    (a : Authenticator) (config authenticatorId : string) : M W unit :=
  match fuel with
  | O => panic "stack overflow"
  | Datatypes.S fuel =>
      match a with
      | SignatureVerification _ => lift (SignatureVerification_OnAuthenticatorAdded config)
      | MessageFilter _ => lift (MessageFilter_OnAuthenticatorAdded config)
      | AllOf _ _ | AnyOf _ _ =>
          onSubAuthenticatorsAdded (OnAuthenticatorAdded fuel am account) config authenticatorId am
      | CosmwasmAuthenticator _ _ =>
          ap ← lift (parseInitData config);
          sudo_call ap.1 (SudoOnAuthenticatorAdded account ap.2 authenticatorId)
      | ZkProofAuthenticatorV1 _ => lift (ParseZkProofAuthenticatorConfig config);; mret tt
      end
  end.

Definition onSubAuthenticatorsRemoved (Removed : Authenticator -> string -> string -> M W unit)
    (data authenticatorId : string) (am : AuthenticatorManager) : M W unit :=
  initDatas ← lift (UnmarshalInitDatas data);
  forMi 0 initDatas (fun id initData =>
    match GetAuthenticatorByType am (InitType initData) with
    | None => throw "ErrInvalidRequest"
    | Some authenticatorCode => Removed authenticatorCode (Config initData) (compositeId authenticatorId id)
    end).

Fixpoint OnAuthenticatorRemoved (fuel : nat) (am : AuthenticatorManager) (account : string)
    (a : Authenticator) (config authenticatorId : string) : M W unit :=
  match fuel with
  | O => panic "stack overflow"
  | Datatypes.S fuel =>
      match a with
      | AllOf _ _ | AnyOf _ _ =>
          onSubAuthenticatorsRemoved (OnAuthenticatorRemoved fuel am account) config authenticatorId am
      | CosmwasmAuthenticator _ _ =>
          ap ← lift (parseInitData config);
          sudo_call ap.1 (SudoOnAuthenticatorRemoved account ap.2 authenticatorId)
      | _ => mret tt
      end
  end.

(** The nesting of a configuration is less than its length. *)
Definition enough (config : string) : nat := Datatypes.S (String.length config).

End Operations.

(** ** Nested induction *)

Section AuthInd.
Variable (P : Authenticator -> Prop).
Hypothesis (Hsig : forall pk, P (SignatureVerification pk)) (Hfilter : forall p, P (MessageFilter p))
  (Hall : forall sa l, Forall P l -> P (AllOf sa l)) (Hany : forall sa l, Forall P l -> P (AnyOf sa l))
  (Hcw : forall c p, P (CosmwasmAuthenticator c p)) (Hzk : forall c, P (ZkProofAuthenticatorV1 c)).

Fixpoint authenticator_nested_ind (a : Authenticator) : P a :=
  let go := (fix go l : Forall P l := match l with
        | [] => Forall_nil_2 P
        | x :: l => Forall_cons_2 P x l (authenticator_nested_ind x) (go l) end) in
  match a with
  | SignatureVerification pk => Hsig pk
  | MessageFilter p => Hfilter p
  | AllOf sa l => Hall sa l (go l)
  | AnyOf sa l => Hany sa l (go l)
  | CosmwasmAuthenticator c p => Hcw c p
  | ZkProofAuthenticatorV1 c => Hzk c
  end.
End AuthInd.

Lemma forMi_Ok {S A} i (l : list A) f (s : S) u s' :
  forMi i l f s = (Ok u, s') <->
  match l with
  | [] => s' = s
  | x :: l => exists s1, f i x s = (Ok tt, s1) /\ forMi (Datatypes.S i) l f s1 = (Ok u, s')
  end.
Proof.
  destruct u, l as [|x l]; cbn [forMi]; [rewrite ret_Ok; naive_solver|].
  rewrite bind_Ok. split; [intros ([]&?&?&?); eauto|intros (?&?&?); by exists tt; eauto].
Qed.

(** ** Termination of the lifecycle operations *)

Section Lifecycle.
Context {S G : Type} `{GasMeterOps G} `{SaJsonLaws} `{SaHost S G} `{Bech32Laws} `{DecParse}.

Abbreviation W := (World S G).

Lemma mapM_res_ext {A C} (f g : A -> res C) l : Forall (fun x => f x = g x) l -> mapM f l = mapM g l.
Proof. induction 1 as [|x l Hx _ IH]; cbn; [done|]. by rewrite Hx, IH. Qed.

Lemma mapM_res_panic {A C} (f : A -> res C) l p :
  mapM f l = Panic p -> exists x, x ∈ l /\ f x = Panic p.
Proof.
  induction l as [|x l IH]; cbn; [done|].
  destruct (f x) as [y|e|q] eqn:E; cbn; [|done|].
  - destruct (mapM f l) as [k|e|q]; cbn; [done..|]. intros [= ->].
    destruct IH as (z&?&?); [done|]. exists z. split; [by right|done].
  - intros [= ->]. exists x. split; [by left|done].
Qed.

Lemma mapM_res_lookup {A C} (f : A -> res C) l k i x y :
  mapM f l = Ok k -> l !! i = Some x -> k !! i = Some y -> f x = Ok y.
Proof.
  revert k i. induction l as [|z l IH]; intros k i; [done|]. cbn. intros (c&Hc&E)%res_bind_Ok.
  apply res_bind_Ok in E as (k'&Hk&[= <-]). destruct i as [|i]; cbn; [congruence|]. by apply IH.
Qed.

Lemma forMi_ext {T A} i (l : list A) (f g : nat -> A -> M T unit) :
  Forall (fun x => forall i s, f i x s = g i x s) l -> forall s, forMi i l f s = forMi i l g s.
Proof.
  intros HF. revert i. induction HF as [|x l Hx _ IH]; intros i s; cbn; [done|].
  unfold mbind, M_bind. rewrite Hx. destruct (g i x s) as [[]]; auto.
Qed.

Lemma init_composite_ext (I J : Authenticator -> string -> res Authenticator) am subs config :
  (forall a c, (String.length c < String.length config)%nat -> I a c = J a c) ->
  init_composite I am subs config = init_composite J am subs config.
Proof.
  intros HIJ. unfold init_composite. destruct (UnmarshalInitDatas config) as [l| |] eqn:E; cbn; [|done..].
  apply init_datas_shorter in E. rewrite (mapM_res_ext (init_part I am) (init_part J am)); [done|].
  eapply Forall_impl; [exact E|]. intros d Hd. unfold init_part.
  destruct (GetAuthenticatorByType am (InitType d)); auto.
Qed.

Lemma initialize_fuel n m am a config :
  (String.length config < n)%nat -> (String.length config < m)%nat ->
  Initialize n am a config = Initialize m am a config.
Proof.
  revert m a config. induction n as [|n IH]; intros m a config Hn Hm; [lia|].
  destruct m as [|m]; [lia|]. cbn.
  assert (Hc : forall subs, init_composite (Initialize n am) am subs config =
    init_composite (Initialize m am) am subs config).
  { intros subs. apply init_composite_ext. intros. apply IH; lia. }
  destruct a; rewrite ?Hc; done.
Qed.

Lemma on_subs_ext (f g : Authenticator -> string -> string -> M W unit) am l id w :
  Forall (fun d => forall a i s, f a (Config d) i s = g a (Config d) i s) l ->
  forMi 0 l (fun i d => match GetAuthenticatorByType am (InitType d) with
    | None => throw "ErrInvalidRequest" | Some code => f code (Config d) (compositeId id i) end) w =
  forMi 0 l (fun i d => match GetAuthenticatorByType am (InitType d) with
    | None => throw "ErrInvalidRequest" | Some code => g code (Config d) (compositeId id i) end) w.
Proof.
  intros HF. apply forMi_ext. eapply Forall_impl; [exact HF|]. intros d Hd i s.
  destruct (GetAuthenticatorByType am (InitType d)); auto.
Qed.

Lemma on_added_fuel n m am account a config id (w : W) :
  (String.length config < n)%nat -> (String.length config < m)%nat ->
  OnAuthenticatorAdded n am account a config id w = OnAuthenticatorAdded m am account a config id w.
Proof.
  revert m a config id w. induction n as [|n IH]; intros m a config id w Hn Hm; [lia|].
  destruct m as [|m]; [lia|]. cbn.
  destruct a; try done; unfold onSubAuthenticatorsAdded, mbind, M_bind, lift;
    destruct (UnmarshalInitDatas config) as [l| |] eqn:E; try done;
    destruct (refuseM _ _ w) as [[u| |] w1]; try done;
    apply on_subs_ext; (eapply Forall_impl; [by apply init_datas_shorter, E|]);
    intros d Hd ? ? ?; cbn in Hd; apply IH; lia.
Qed.

Lemma on_removed_fuel n m am account a config id (w : W) :
  (String.length config < n)%nat -> (String.length config < m)%nat ->
  OnAuthenticatorRemoved n am account a config id w = OnAuthenticatorRemoved m am account a config id w.
Proof.
  revert m a config id w. induction n as [|n IH]; intros m a config id w Hn Hm; [lia|].
  destruct m as [|m]; [lia|]. cbn.
  destruct a; try done; unfold onSubAuthenticatorsRemoved, mbind, M_bind, lift;
    destruct (UnmarshalInitDatas config) as [l| |] eqn:E; try done;
    apply on_subs_ext; (eapply Forall_impl; [by apply init_datas_shorter, E|]);
    intros d Hd ? ? ?; cbn in Hd; apply IH; lia.
Qed.

Lemma parse_init_no_panic data p : parseInitData data <> Panic p.
Proof.
  unfold parseInitData, mbind, res_bind, refuse. pose proof (cw_init_no_panic data p) as Hd.
  destruct (UnmarshalCosmwasmInit data) as [i| |]; [|congruence..].
  destruct (String.length (Contract i) =? 0)%nat; [done|]. pose proof (bech32_no_panic (Contract i) p) as Hb.
  destruct (AccAddressFromBech32 _); [|congruence..].
  destruct (String.length (CwParams i) =? 0)%nat; [done|].
  pose proof (object_no_panic (CwParams i) p). destruct (UnmarshalObject _); congruence.
Qed.

Lemma zk_parse_no_panic config p : ParseZkProofAuthenticatorConfig config <> Panic p.
Proof.
  unfold ParseZkProofAuthenticatorConfig, mbind, res_bind, refuse.
  destruct (String.length config =? 0)%nat; [done|].
  pose proof (zk_config_no_panic config p). destruct (UnmarshalZkConfig config); [|congruence..].
  by destruct (ZkID a =? 0).
Qed.

Lemma init_composite_panic I am subs config p : init_composite I am subs config = Panic p ->
  p = "nil pointer dereference"%string \/
  exists a c, (String.length c < String.length config)%nat /\ I a c = Panic p.
Proof.
  unfold init_composite. pose proof (init_datas_no_panic config p) as Hd.
  destruct (UnmarshalInitDatas config) as [l| |] eqn:E; cbn; [|congruence..].
  destruct (_ <=? 1)%nat; cbn; [done|].
  destruct (mapM (init_part I am) l) as [k| |q] eqn:Em; cbn; [by destruct (_ =? _)%nat|done|].
  intros [= ->]. apply mapM_res_panic in Em as (d&Hin&Hp). unfold init_part in Hp.
  apply init_datas_shorter in E. rewrite Forall_forall in E. specialize (E d Hin).
  destruct (GetAuthenticatorByType am (InitType d)); [right; eauto|left; congruence].
Qed.

Lemma initialize_panic n am a config p : (String.length config < n)%nat ->
  Initialize n am a config = Panic p -> p = "nil pointer dereference"%string.
Proof.
  revert a config. induction n as [|n IH]; intros a config Hn; [lia|]. cbn.
  assert (Hc : forall subs, init_composite (Initialize n am) am subs config = Panic p ->
    p = "nil pointer dereference"%string).
  { intros subs [?|(b&c&Hlt&Hp)]%init_composite_panic; [done|]. apply (IH b c); [lia|done]. }
  destruct a as [pk|pat|sa subs|sa subs|? ?|c]; [done|..].
  - pose proof (raw_no_panic config p). destruct (UnmarshalRaw config); cbn; congruence.
  - specialize (Hc subs). destruct (init_composite _ _ _ _); cbn; [done..|]. intros [= ->]. auto.
  - specialize (Hc subs). destruct (init_composite _ _ _ _); cbn; [done..|]. intros [= ->]. auto.
  - pose proof (parse_init_no_panic config p). destruct (parseInitData config); cbn; congruence.
  - pose proof (zk_parse_no_panic config p). destruct (ParseZkProofAuthenticatorConfig config); cbn; congruence.
Qed.

(** Initialising an authenticator, and the callbacks when one is added or
    removed, terminate however deeply composites are nested in a configuration:
    recursion as deep as the configuration is long is enough, more makes no
    difference, and initialising never exhausts the stack. *)
Theorem lifecycle_terminates n am account a config id (w : W) : (enough config <= n)%nat ->
  Initialize n am a config = Initialize (enough config) am a config /\
  Initialize n am a config <> Panic "stack overflow" /\
  OnAuthenticatorAdded n am account a config id w = OnAuthenticatorAdded (enough config) am account a config id w /\
  OnAuthenticatorRemoved n am account a config id w = OnAuthenticatorRemoved (enough config) am account a config id w.
Proof.
  unfold enough. intros Hn. split_and!.
  - apply initialize_fuel; lia.
  - intros E. apply initialize_panic in E; [done|lia].
  - apply on_added_fuel; lia.
  - apply on_removed_fuel; lia.
Qed.

(** ** What was accepted can be used *)

(** Well-formed authenticators: every composite has at least two parts, keys
    have the right size, patterns can match, contracts and circuits are named. *)
Inductive wf_auth : Authenticator -> Prop :=
| wf_sig k : String.length k = PubKeySize -> wf_auth (SignatureVerification (Some k))
| wf_filter p v : UnmarshalAny p = Ok v -> checkForFloats v = false -> wf_auth (MessageFilter p)
| wf_all sa l : (2 <= length l)%nat -> Forall wf_auth l -> wf_auth (AllOf sa l)
| wf_any sa l : (2 <= length l)%nat -> Forall wf_auth l -> wf_auth (AnyOf sa l)
| wf_cw c p : c <> ""%string -> wf_auth (CosmwasmAuthenticator c p)
| wf_zk c : ZkID c <> 0 -> wf_auth (ZkProofAuthenticatorV1 c).

(** The registered composites are templates without parts. *)
Definition is_template (a : Authenticator) : Prop :=
  match a with AllOf _ l | AnyOf _ l => l = [] | _ => True end.

Definition templates_ok (am : AuthenticatorManager) : Prop :=
  forall t a, GetAuthenticatorByType am t = Some a -> Type_ a = t /\ is_template a.

Lemma forMi_each {T A} i (l : list A) f (s : T) u s' : forMi i l f s = (Ok u, s') ->
  Forall (fun x => exists j s1 s2, f j x s1 = (Ok tt, s2)) l.
Proof.
  revert i s. induction l as [|x l IH]; intros i s E; [constructor|].
  apply forMi_Ok in E as (s1&?&E). constructor; eauto.
Qed.

Lemma init_composite_ok (I : Authenticator -> string -> res Authenticator) am config l :
  UnmarshalInitDatas config = Ok l -> (2 <= length l)%nat ->
  Forall (fun d => exists code inst, GetAuthenticatorByType am (InitType d) = Some code /\
    I code (Config d) = Ok inst /\ wf_auth inst) l ->
  exists subs, init_composite I am [] config = Ok subs /\ (2 <= length subs)%nat /\ Forall wf_auth subs.
Proof.
  intros E Hl HF. assert (exists k, mapM (init_part I am) l = Ok k /\ Forall wf_auth k /\ length k = length l)
    as (k&Hk&Hwf&Hlen).
  { clear E Hl. induction HF as [|d l (code&inst&Hc&Hi&Hw) _ (k&Hk&Hwf&Hlen)]; [by exists []|].
    exists (inst :: k). cbn. split_and!; [|by constructor|by rewrite Hlen].
    assert (init_part I am d = Ok inst) as -> by (unfold init_part; by rewrite Hc). cbn. by rewrite Hk. }
  exists k. split_and!; [|lia|done]. unfold init_composite.
  apply res_bind_Ok. exists l. split; [done|]. apply res_bind_Ok. exists tt.
  split; [apply refuse_Ok, Nat.leb_gt; lia|]. apply res_bind_Ok. exists k. split; [done|].
  apply res_bind_Ok. exists tt. split; [|done]. apply ensure_Ok. by rewrite app_nil_l, Hlen, Nat.eqb_refl.
Qed.

Lemma on_subs_added_inv (Added : Authenticator -> string -> string -> M W unit) data id am w u w' :
  onSubAuthenticatorsAdded Added data id am w = (Ok u, w') ->
  exists l, UnmarshalInitDatas data = Ok l /\ (2 <= length l)%nat /\
    Forall (fun d => exists code i s1 s2, GetAuthenticatorByType am (InitType d) = Some code /\
      Added code (Config d) i s1 = (Ok tt, s2)) l.
Proof.
  unfold onSubAuthenticatorsAdded. intros (l&w1&[El <-]%lift_Ok&E)%bind_Ok.
  apply bind_Ok in E as ([]&w1&[Hl%Nat.leb_gt <-]%refuseM_Ok&E). exists l. split_and!; [done|lia|].
  apply forMi_each in E. eapply Forall_impl; [exact E|]. intros d (j&s1&s2&Hd). cbn in Hd.
  destruct (GetAuthenticatorByType am (InitType d)) as [code|]; [|done]. eauto 10.
Qed.

Lemma filter_added_wf config u : MessageFilter_OnAuthenticatorAdded config = Ok u ->
  UnmarshalRaw config = Ok tt /\ wf_auth (MessageFilter config).
Proof.
  unfold MessageFilter_OnAuthenticatorAdded, containsFloats.
  intros ([]&?&(b&(v&Hv&[= <-])%res_bind_Ok&Hb%refuse_Ok)%res_bind_Ok)%res_bind_Ok.
  split; [done|by eapply wf_filter].
Qed.

Lemma parse_init_addr data c p : parseInitData data = Ok (c, p) -> c <> ""%string.
Proof.
  unfold parseInitData. intros (i&_&(?&_&(a&Ha%bech32_nonempty&E)%res_bind_Ok)%res_bind_Ok)%res_bind_Ok.
  destruct (_ =? 0)%nat; [by injection E as <- _|]. apply res_bind_Ok in E as (?&_&[= <- _]). done.
Qed.

Lemma zk_parse_id config c : ParseZkProofAuthenticatorConfig config = Ok c -> ZkID c <> 0.
Proof.
  unfold ParseZkProofAuthenticatorConfig.
  intros (?&_&(cfg&_&(?&Hz%refuse_Ok%Z.eqb_neq&[= <-])%res_bind_Ok)%res_bind_Ok)%res_bind_Ok. done.
Qed.

Lemma added_initializes n am account a config id (w : W) u w' : templates_ok am -> is_template a ->
  OnAuthenticatorAdded n am account a config id w = (Ok u, w') ->
  exists inst, Initialize n am a config = Ok inst /\ wf_auth inst /\ Type_ inst = Type_ a.
Proof.
  intros Hmgr. revert a config id w u w'. induction n as [|n IH]; intros a config id w u w' Ha; [done|].
  assert (Hsub : onSubAuthenticatorsAdded (OnAuthenticatorAdded n am account) config id am w = (Ok u, w') ->
    exists subs, init_composite (Initialize n am) am [] config = Ok subs /\
      (2 <= length subs)%nat /\ Forall wf_auth subs).
  { intros (l&El&Hl&HF)%on_subs_added_inv. apply (init_composite_ok _ _ _ l El Hl).
    eapply Forall_impl; [exact HF|]. intros d (code&i&s1&s2&Hc&Hadd).
    destruct (Hmgr _ _ Hc) as [_ Ht]. destruct (IH _ _ _ _ _ _ Ht Hadd) as (inst&?&?&?). eauto 10. }
  cbn. destruct a as [pk|pat|sa subs|sa subs|? ?|c]; cbn in Ha; subst; intros E.
  - apply lift_Ok in E as [E _]. apply ensure_Ok, Nat.eqb_eq in E. eexists. split_and!; [done| |done]. by constructor.
  - apply lift_Ok in E as [[-> ?]%filter_added_wf _]. eexists. split_and!; [done|done|done].
  - destruct (Hsub E) as (k&->&?&?). eexists. split_and!; [done| |by destruct sa]. by constructor.
  - destruct (Hsub E) as (k&->&?&?). eexists. split_and!; [done| |by destruct sa]. by constructor.
  - apply bind_Ok in E as ([c q]&w1&[E _]%lift_Ok&_). rewrite E. eexists. split_and!; [done| |done].
    constructor. by eapply parse_init_addr.
  - apply bind_Ok in E as (cfg&w1&[E _]%lift_Ok&_). rewrite E. eexists. split_and!; [done| |done].
    constructor. by eapply zk_parse_id.
Qed.

(** An authenticator whose addition was accepted can be initialised from
    the stored configuration, so that no account is locked out by a part that
    does not exist, and what is initialised is well formed: composites have at
    least two parts at every level, public keys have the size of a key, patterns
    have no numbers, contracts are named and circuits are not zero. *)
Theorem accepted_authenticator_initializes am account a config id (w : W) u w' :
  templates_ok am -> is_template a ->
  OnAuthenticatorAdded (enough config) am account a config id w = (Ok u, w') ->
  exists inst, Initialize (enough config) am a config = Ok inst /\ wf_auth inst /\ Type_ inst = Type_ a.
Proof. apply added_initializes. Qed.

End Lifecycle.

(** ** Authenticators as formulas

    An authenticator made of signatures and filters is a monotone formula over
    its leaves. *)

Class SaHostLaws (S G : Type) `{SaHost S G} : Prop := {
  resolve_no_panic t p : Resolve t <> Panic p;
  proto_no_panic t v p : UnmarshalProto t v <> Panic p;
  marshal_no_panic m p : MarshalInterfaceJSON m <> Panic p;
  sig_cost_nonneg s : 0 <= SigVerifyCostSecp256k1 s
}.

Section Formula.
Context {S G : Type} `{GasMeterLaws G} `{SaJsonLaws} `{SaHostLaws S G} `{Bech32} `{DecParse}.
Variable (ctx : TxCtx).

Abbreviation W := (World S G).

Fixpoint all_accept (sub : nat -> res AuthenticationRequest) (i : nat)
    (fs : list (AuthenticationRequest -> bool)) : bool :=
  match fs with
  | [] => true
  | f :: fs => match sub i with Ok rq => f rq | _ => false end && all_accept sub (Datatypes.S i) fs
  end.

Fixpoint any_accept (sub : nat -> res AuthenticationRequest) (i : nat)
    (fs : list (AuthenticationRequest -> bool)) : bool :=
  match fs with
  | [] => false
  | f :: fs => match sub i with Ok rq => f rq | _ => false end || any_accept sub (Datatypes.S i) fs
  end.

(** The answer of an authenticator to a request, read off its code. *)
Fixpoint verdict (a : Authenticator) (rq : AuthenticationRequest) : bool :=
  match a with
  | SignatureVerification pk =>
      Simulate rq || IsReCheckTx ctx ||
      match pk with
      | Some k => VerifySignature (S := S) (G := G) k (Direct (SignModeTxData rq)) (Signature rq)
      | None => false
      end
  | MessageFilter p => is_ok (MessageFilter_Authenticate (S := S) (G := G) p rq)
  | AllOf sa subs =>
      negb (length subs =? 0)%nat &&
      match assigned sa rq (length subs) with
      | Ok sigs => all_accept (sub_request sa sigs rq) 0 (map verdict subs)
      | _ => false
      end
  | AnyOf sa subs =>
      match assigned sa rq (length subs) with
      | Ok sigs => any_accept (sub_request sa sigs rq) 0 (map verdict subs)
      | _ => false
      end
  | _ => false
  end.

Fixpoint stateless (a : Authenticator) : bool :=
  match a with
  | SignatureVerification _ | MessageFilter _ => true
  | AllOf _ subs | AnyOf _ subs => forallb stateless subs
  | _ => false
  end.

(** The number of signature checks. *)
Fixpoint sig_leaves (a : Authenticator) : Z :=
  match a with
  | SignatureVerification _ => 1
  | AllOf _ subs | AnyOf _ subs => foldr Z.add 0 (map sig_leaves subs)
  | _ => 0
  end.

Definition decided (b : bool) (r : res unit) : Prop := if b then r = Ok tt else exists e, r = Err e.

(** [settles n b m w]: run from [w], [m] answers [b], changes only the meter,
    and uses gas for at most [n] signature checks. *)
Definition settles (n : Z) (b : bool) (m : M W unit) (w : W) : Prop :=
  GasConsumed (meter w) + n * SigVerifyCostSecp256k1 (store w) <= GasLimit (meter w) ->
  exists g r, m w = (r, set_meter g w) /\ decided b r /\ GasLimit g = GasLimit (meter w) /\
    GasConsumed (meter w) <= GasConsumed g <=
      GasConsumed (meter w) + n * SigVerifyCostSecp256k1 (store w).

Lemma set_meter_id (w : W) : set_meter (meter w) w = w.
Proof. by destruct w. Qed.

Lemma settles_pure n b r (w : W) : 0 <= n -> decided b r -> settles n b (lift r) w.
Proof.
  intros Hn Hd _. pose proof (sig_cost_nonneg (store w)). exists (meter w), r.
  rewrite set_meter_id. split_and!; try done; nia.
Qed.

Lemma filter_no_panic p rq q : MessageFilter_Authenticate p rq <> Panic q.
Proof.
  unfold MessageFilter_Authenticate, IsJsonSuperset, mbind, res_bind.
  pose proof (resolve_no_panic (TypeURL (Msg rq)) q).
  destruct (Resolve _) as [t| |]; [|congruence..].
  pose proof (proto_no_panic t (Value (Msg rq)) q). destruct (UnmarshalProto _ _) as [m| |]; [|congruence..].
  pose proof (marshal_no_panic m q). destruct (MarshalInterfaceJSON m) as [bz| |]; [|congruence..].
  pose proof (any_no_panic p q). destruct (UnmarshalAny p); [|congruence..].
  pose proof (any_no_panic bz q). destruct (UnmarshalAny bz); [|congruence..].
  apply isSuperset_no_panic.
Qed.

Lemma settles_signature pk rq (w : W) :
  settles 1 (verdict (SignatureVerification pk) rq) (SignatureVerification_Authenticate ctx pk rq) w.
Proof.
  intros Hroom. rewrite Z.mul_1_l in *. unfold SignatureVerification_Authenticate.
  destruct (charge_ok (SigVerifyCostSecp256k1 (store w)) w) as (g&E&Hg&Hl); [done|].
  pose proof (sig_cost_nonneg (store w)). unfold mbind, M_bind, gets. rewrite E. cbn [verdict].
  destruct (Simulate rq || IsReCheckTx ctx); [exists g, (Ok tt); split_and!; done || lia|].
  destruct pk as [k|]; [|exists g, (Err "ErrInvalidPubKey"); split_and!; try done; first [by eexists|lia]].
  exists g. unfold ensureM, lift, ensure. destruct (VerifySignature _ _ _); eexists; (split; [done|]);
    split_and!; try done; try lia. by eexists.
Qed.

(** The requests of the parts from [i] on exist. *)
Definition requests_from (sub : nat -> res AuthenticationRequest) (i n : nat) : Prop :=
  forall j, (i <= j < i + n)%nat -> exists rq, sub j = Ok rq.

Lemma all_settles sub i l (w : W) : requests_from sub i (length l) ->
  Forall (fun a => 0 <= sig_leaves a /\
    forall rq w, settles (sig_leaves a) (verdict a rq) (Authenticate ctx a rq) w) l ->
  settles (foldr Z.add 0 (map sig_leaves l)) (all_accept sub i (map verdict l))
    (all_from sub i (map (Authenticate ctx) l)) w.
Proof.
  intros Hsub HF. revert i w Hsub. induction HF as [|a l [Hn Ha] HF IH]; intros i w Hsub.
  { by apply settles_pure. }
  intros Hroom. cbn [map foldr length] in *. set (cost := SigVerifyCostSecp256k1 (store w)) in *.
  assert (0 <= foldr Z.add 0 (map sig_leaves l)) as Hrest.
  { clear - HF. induction HF as [|? ? [? ?] ? ?]; cbn; lia. }
  assert (0 <= cost) by apply sig_cost_nonneg.
  destruct (Hsub i) as [rq Hrq]; [lia|].
  destruct (Ha rq w) as (g&r&E&Hd&Hl&Hg); [fold cost; nia|]. fold cost in Hg.
  unfold all_from. cbn [forMi all_accept]. unfold mbind, M_bind. rewrite Hrq. unfold lift. rewrite E.
  destruct (verdict a rq); cbn in Hd; cbn [andb].
  - subst r. destruct (IH (Datatypes.S i) (set_meter g w)) as (g'&r&E'&Hd&Hl'&Hg').
    + intros j Hj. apply Hsub. lia.
    + cbn. rewrite Hl. fold cost. nia.
    + cbn in *. fold cost in Hg'. exists g', r. split_and!; try done; first [congruence|nia].
  - destruct Hd as [e ->]. exists g, (Err e). split_and!; try done; first [by eexists|nia].
Qed.

Lemma any_settles sub i l (w : W) : requests_from sub i (length l) ->
  Forall (fun a => 0 <= sig_leaves a /\
    forall rq w, settles (sig_leaves a) (verdict a rq) (Authenticate ctx a rq) w) l ->
  settles (foldr Z.add 0 (map sig_leaves l)) (any_accept sub i (map verdict l))
    (any_from (fun m => m) sub i (map (Authenticate ctx) l)) w.
Proof.
  intros Hsub HF. revert i w Hsub. induction HF as [|a l [Hn Ha] HF IH]; intros i w Hsub.
  { apply (settles_pure 0 false (Err "ErrUnauthorized")); [done|by eexists]. }
  intros Hroom. cbn [map foldr length] in *. set (cost := SigVerifyCostSecp256k1 (store w)) in *.
  assert (0 <= foldr Z.add 0 (map sig_leaves l)) as Hrest.
  { clear - HF. induction HF as [|? ? [? ?] ? ?]; cbn; lia. }
  assert (0 <= cost) by apply sig_cost_nonneg.
  destruct (Hsub i) as [rq Hrq]; [lia|].
  destruct (Ha rq w) as (g&r&E&Hd&Hl&Hg); [fold cost; nia|]. fold cost in Hg.
  cbn [any_from any_accept]. rewrite Hrq, E.
  destruct (verdict a rq); cbn in Hd; cbn [orb].
  - subst r. exists g, (Ok tt). split_and!; try done; nia.
  - destruct Hd as [e ->]. destruct (IH (Datatypes.S i) (set_meter g w)) as (g'&r&E'&Hd&Hl'&Hg').
    + intros j Hj. apply Hsub. lia.
    + cbn. rewrite Hl. fold cost. nia.
    + cbn in *. fold cost in Hg'. exists g', r. split_and!; try done; first [congruence|nia].
Qed.

Lemma assigned_requests sa rq n sigs : assigned sa rq n = Ok sigs ->
  requests_from (sub_request sa sigs rq) 0 n.
Proof.
  intros E j Hj. unfold sub_request. destruct sa; [eauto|]. cbn in E. unfold splitSignatures in E.
  destruct (UnmarshalSignatures _) as [l| |]; [|done..].
  apply res_bind_Ok in E as (u&Hl%ensure_Ok%Nat.eqb_eq&[= <-]).
  destruct (lookup_lt_is_Some_2 l j) as [s ->]; [lia|]. eauto.
Qed.

Lemma assigned_no_panic sa rq n p : assigned sa rq n <> Panic p.
Proof.
  destruct sa; cbn; [done|]. unfold splitSignatures. pose proof (signatures_no_panic (Signature rq) p).
  destruct (UnmarshalSignatures _); [|congruence..]. unfold ensure. by destruct (_ =? _)%nat.
Qed.

Lemma sig_leaves_nonneg a : 0 <= sig_leaves a.
Proof.
  induction a as [| |sa l IH|sa l IH| |] using authenticator_nested_ind; cbn; try lia;
    induction IH; cbn; lia.
Qed.

Lemma parts_settle l :
  Forall (fun a => forall rq w, stateless a = true ->
    settles (sig_leaves a) (verdict a rq) (Authenticate ctx a rq) w) l ->
  forallb stateless l = true ->
  Forall (fun a => 0 <= sig_leaves a /\
    forall rq w, settles (sig_leaves a) (verdict a rq) (Authenticate ctx a rq) w) l.
Proof.
  rewrite forallb_forall, !Forall_forall. intros IH Hs a Ha. split; [apply sig_leaves_nonneg|].
  intros. apply IH; [done|]. by apply Hs, list_elem_of_In.
Qed.

Lemma authenticate_settles a rq w : stateless a = true ->
  settles (sig_leaves a) (verdict a rq) (Authenticate ctx a rq) w.
Proof.
  revert rq w. induction a as [pk|p|sa l IH|sa l IH| |] using authenticator_nested_ind;
    intros rq w Hs; try done.
  - apply settles_signature.
  - apply settles_pure; [done|]. cbn [verdict].
    destruct (MessageFilter_Authenticate p rq) as [[]|e|q] eqn:E; cbn; [done|by eexists|].
    by apply filter_no_panic in E.
  - pose proof (parts_settle l IH Hs) as HF.
    cbn [verdict Authenticate sig_leaves]. unfold AllOf_Authenticate. rewrite length_map.
    destruct (length l =? 0)%nat eqn:El.
    + apply (settles_pure _ false (Err "ErrInvalidRequest")); [by apply (sig_leaves_nonneg (AllOf sa l))|by eexists].
    + cbn [negb andb]. pose proof (assigned_no_panic sa rq (length l)) as Hnp.
      destruct (assigned sa rq (length l)) as [sigs|e|q] eqn:E; [|..|by destruct (Hnp q)].
      * intros Hroom. unfold mbind, M_bind, refuseM, lift, refuse. rewrite ?El.
        by apply (all_settles _ 0 l w); [apply assigned_requests|..].
      * intros Hroom. apply (settles_pure _ false (Err e)); [by apply (sig_leaves_nonneg (AllOf sa l))|by eexists|done].
  - pose proof (parts_settle l IH Hs) as HF.
    cbn [verdict Authenticate sig_leaves]. unfold AnyOf_Authenticate. rewrite length_map.
    pose proof (assigned_no_panic sa rq (length l)) as Hnp.
    destruct (length l =? 0)%nat eqn:El.
    + apply Nat.eqb_eq, nil_length_inv in El as ->. cbn.
      assert (match assigned sa rq 0 with Ok _ => false | _ => false end = false) as -> by (by destruct (assigned sa rq 0)).
      apply (settles_pure 0 false (Err "ErrInvalidRequest")); [done|by eexists].
    + destruct (assigned sa rq (length l)) as [sigs|e|q] eqn:E; [|..|by destruct (Hnp q)].
      * intros Hroom. unfold mbind, M_bind, refuseM, lift, refuse. rewrite ?El.
        by apply (any_settles _ 0 l w); [apply assigned_requests|..].
      * intros Hroom. apply (settles_pure _ false (Err e)); [by apply (sig_leaves_nonneg (AnyOf sa l))|by eexists|done].
Qed.

(** The message of a request as a JSON document, and whether a pattern covers
    it. *)
Definition message_json (rq : AuthenticationRequest) : res json :=
  t ← Resolve (S := S) (G := G) (TypeURL (Msg rq));
  m ← UnmarshalProto (S := S) (G := G) t (Value (Msg rq));
  bz ← MarshalInterfaceJSON (S := S) (G := G) m;
  UnmarshalAny bz.

Definition pattern_covers (pattern : string) (rq : AuthenticationRequest) : bool :=
  match UnmarshalAny pattern, message_json rq with
  | Ok a, Ok b => is_ok (isSuperset a b)
  | _, _ => false
  end.

(** The piece of a signature each of [n] parts gets: all of it, or its own when
    the signature is a list of [n] signatures. *)
Definition pieces (sa : SignatureAssignment) (sig : string) (n : nat) : option (list string) :=
  match sa with
  | Single => Some (replicate n sig)
  | Partitioned =>
      match UnmarshalSignatures sig with
      | Ok sigs => if (length sigs =? n)%nat then Some sigs else None
      | _ => None
      end
  end.

(** The formula, given the signature: a key is true when the signature verifies
    under it, a pattern when it covers the message, and a composite when all, or
    one, of its parts are true on their pieces. *)
Fixpoint accepts (a : Authenticator) (rq : AuthenticationRequest) (sig : string) : bool :=
  match a with
  | SignatureVerification pk =>
      Simulate rq || IsReCheckTx ctx ||
      match pk with
      | Some k => VerifySignature (S := S) (G := G) k (Direct (SignModeTxData rq)) sig
      | None => false
      end
  | MessageFilter pattern => pattern_covers pattern rq
  | AllOf sa subs =>
      match pieces sa sig (length subs) with
      | Some sigs => negb (length subs =? 0)%nat &&
          forallb id (zip_with (fun f s => f rq s) (map accepts subs) sigs)
      | None => false
      end
  | AnyOf sa subs =>
      match pieces sa sig (length subs) with
      | Some sigs => existsb id (zip_with (fun f s => f rq s) (map accepts subs) sigs)
      | None => false
      end
  | _ => false
  end.

(** Two requests for the same message of the same transaction. *)
Definition same_tx (rq rq' : AuthenticationRequest) : Prop :=
  Simulate rq' = Simulate rq /\ SignModeTxData rq' = SignModeTxData rq /\ Msg rq' = Msg rq.

Lemma zip_accepts rq rq' l sigs : Forall (fun a => forall sig, accepts a rq' sig = accepts a rq sig) l ->
  zip_with (fun f s => f rq' s) (map accepts l) sigs = zip_with (fun f s => f rq s) (map accepts l) sigs.
Proof.
  intros HF. revert sigs. induction HF as [|x l Hx HF IH]; intros [|s sigs]; cbn; [done..|].
  by rewrite Hx, IH.
Qed.

Lemma accepts_same_tx a rq rq' sig : same_tx rq rq' -> accepts a rq' sig = accepts a rq sig.
Proof.
  intros (Es&Em&Eg). revert sig.
  induction a as [pk|p|sa l IH|sa l IH| |] using authenticator_nested_ind; intros sig; cbn [accepts]; try done.
  - by rewrite Es, Em.
  - unfold pattern_covers, message_json. by rewrite Eg.
  - destruct (pieces sa sig (length l)); [|done]. by rewrite (zip_accepts _ _ _ _ IH).
  - destruct (pieces sa sig (length l)); [|done]. by rewrite (zip_accepts _ _ _ _ IH).
Qed.

(** The request of part [j] carries piece [j]. *)
Definition hands_out (sub : nat -> res AuthenticationRequest) (rq : AuthenticationRequest) (i : nat)
    (sigs : list string) : Prop :=
  forall j s, sigs !! j = Some s ->
    exists rq', sub (i + j)%nat = Ok rq' /\ same_tx rq rq' /\ Signature rq' = s.

Lemma hands_out_cons sub rq i s sigs : hands_out sub rq i (s :: sigs) ->
  (exists rq', sub i = Ok rq' /\ same_tx rq rq' /\ Signature rq' = s) /\ hands_out sub rq (Datatypes.S i) sigs.
Proof.
  intros Hh. split.
  - destruct (Hh 0%nat s eq_refl) as (rq'&E&?). rewrite Nat.add_0_r in E. eauto.
  - intros j s' Hj. destruct (Hh (Datatypes.S j) s' Hj) as (rq'&E&?). rewrite Nat.add_succ_r in E. eauto.
Qed.

Lemma parts_accept sub rq i sigs l : length sigs = length l -> hands_out sub rq i sigs ->
  Forall (fun a => forall rq, verdict a rq = accepts a rq (Signature rq)) l ->
  all_accept sub i (map verdict l) = forallb id (zip_with (fun f s => f rq s) (map accepts l) sigs) /\
  any_accept sub i (map verdict l) = existsb id (zip_with (fun f s => f rq s) (map accepts l) sigs).
Proof.
  intros Hl Hh HF. revert i sigs Hl Hh. induction HF as [|a l Ha HF IH]; intros i [|s sigs] Hl Hh; try done.
  apply hands_out_cons in Hh as [(rq'&E&Hs&<-) Hh]. injection Hl as Hl.
  destruct (IH _ _ Hl Hh) as [IHa IHb]. cbn. rewrite E, Ha, (accepts_same_tx a rq rq' _ Hs).
  by rewrite IHa, IHb.
Qed.

Lemma pieces_assigned sa rq n :
  match pieces sa (Signature rq) n with
  | Some sigs => exists given, assigned sa rq n = Ok given /\ length sigs = n /\
      hands_out (sub_request sa given rq) rq 0 sigs
  | None => is_ok (assigned sa rq n) = false
  end.
Proof.
  destruct sa; cbn.
  - exists []. split_and!; [done|apply length_replicate|]. intros j s Hj.
    apply lookup_replicate in Hj as [-> _]. eexists; split; [done|]. by destruct rq.
  - unfold splitSignatures. destruct (UnmarshalSignatures _) as [sigs|e|p]; [|done..].
    destruct (length sigs =? n)%nat eqn:E; [|done]. exists sigs. split_and!; [done|by apply Nat.eqb_eq|].
    intros j s Hj. cbn. rewrite Hj. eexists; split; [done|]. by destruct rq.
Qed.

Lemma verdict_accepts a rq : verdict a rq = accepts a rq (Signature rq).
Proof.
  revert rq. induction a as [pk|p|sa l IH|sa l IH| |] using authenticator_nested_ind; intros rq; try done.
  - cbn. unfold pattern_covers, message_json, MessageFilter_Authenticate, IsJsonSuperset, mbind, res_bind.
    by destruct (Resolve _) as [t| |], (UnmarshalAny p) as [x| |]; try done;
      destruct (UnmarshalProto _ _) as [m| |]; try done; destruct (MarshalInterfaceJSON m) as [bz| |]; try done;
      destruct (UnmarshalAny bz).
  - cbn [verdict accepts]. pose proof (pieces_assigned sa rq (length l)) as Hp.
    destruct (pieces sa (Signature rq) (length l)) as [sigs|].
    + destruct Hp as (given&->&Hl&Hh). f_equal. by apply (parts_accept _ rq 0 sigs l Hl Hh IH).
    + destruct (assigned sa rq (length l)); [done|by rewrite andb_false_r..].
  - cbn [verdict accepts]. pose proof (pieces_assigned sa rq (length l)) as Hp.
    destruct (pieces sa (Signature rq) (length l)) as [sigs|].
    + destruct Hp as (given&->&Hl&Hh). by apply (parts_accept _ rq 0 sigs l Hl Hh IH).
    + by destruct (assigned sa rq (length l)).
Qed.

(** C3: An authenticator built from signatures, filters and nested [AllOf] and
    [AnyOf] decides exactly the formula it spells: given gas for its signature
    checks it succeeds when the formula is true and fails when it is false, it
    changes nothing but the gas meter, and it uses no more gas than one check
    per key. *)
Theorem authenticate_decides_formula a rq w : stateless a = true ->
  GasConsumed (meter w) + sig_leaves a * SigVerifyCostSecp256k1 (store w) <= GasLimit (meter w) ->
  exists g r, Authenticate ctx a rq w = (r, set_meter g w) /\
    (accepts a rq (Signature rq) = true -> r = Ok tt) /\ (accepts a rq (Signature rq) = false -> exists e, r = Err e) /\
    GasConsumed g <= GasConsumed (meter w) + sig_leaves a * SigVerifyCostSecp256k1 (store w).
Proof.
  intros Hs Hroom. destruct (authenticate_settles a rq w Hs Hroom) as (g&r&E&Hd&_&Hg).
  rewrite verdict_accepts in Hd.
  exists g, r. split_and!; [done|..|lia]; intros Ha; by rewrite Ha in Hd.
Qed.

End Formula.

(** ** Effects of confirming an execution *)

Section Confirm.
Context {S G : Type} `{GasMeterOps G} `{SaJson} `{SaHost S G} `{Bech32} `{DecParse}.

Abbreviation W := (World S G).

Lemma cache_ctx_fail {A} (m : M W A) w r w' : cacheCtx m w = (r, w') -> is_ok r = false ->
  store w' = store w /\ evs w' = evs w.
Proof. unfold cacheCtx. destruct (m _) as [[a|e|p] w1]; intros [= <- <-]; done. Qed.

Lemma any_from_confirm sub i (auths : list (AuthenticationRequest -> M W unit)) w r w' : any_from cacheCtx sub i auths w = (r, w') ->
  match r with
  | Ok _ => exists j auth rq v v', auths !! j = Some auth /\ sub (i + j)%nat = Ok rq /\
      store v = store w /\ evs v = [] /\ auth rq v = (Ok tt, v') /\
      store w' = store v' /\ evs w' = evs w ++ evs v'
  | _ => store w' = store w /\ evs w' = evs w
  end.
Proof.
  revert i w. induction auths as [|auth auths IH]; intros i w; cbn [any_from].
  { intros [= <- <-]. done. }
  destruct (sub i) as [rq|e|p] eqn:Hs; [|by intros [= <- <-]..].
  destruct (cacheCtx (auth rq) w) as [[[]|e|p] w1] eqn:E.
  - intros [= <- <-]. unfold cacheCtx in E. destruct (auth rq _) as [[[]| |] v'] eqn:Ea; simplify_eq.
    exists 0%nat, auth, rq, (set_evs [] w), v'. rewrite Nat.add_0_r. done.
  - apply cache_ctx_fail in E as [Hst Hev]; [|done]. intros Hr%IH. rewrite Hst, Hev in Hr.
    destruct r; [|done..]. destruct Hr as (j&auth'&rq'&v&v'&?&Hj&Hrest).
    exists (Datatypes.S j), auth', rq', v, v'. split; [done|]. by rewrite Nat.add_succ_r.
  - intros [= <- <-]. by apply cache_ctx_fail in E.
Qed.

(** When an [AnyOf] confirms an execution, the writes and events of exactly
    one part, the one that confirmed, reach the transaction, made on the state
    the transaction left; parts that refused leave nothing but gas, and when
    all refuse the state is untouched. *)
Theorem anyof_confirm_isolated sa subs rq (w : W) r w' :
  ConfirmExecution (AnyOf sa subs) rq w = (r, w') ->
  match r with
  | Ok _ => exists a rq' v v', a ∈ subs /\ Account rq' = Account rq /\ store v = store w /\ evs v = [] /\
      ConfirmExecution a rq' v = (Ok tt, v') /\ store w' = store v' /\ evs w' = evs w ++ evs v'
  | _ => store w' = store w /\ evs w' = evs w
  end.
Proof.
  cbn [ConfirmExecution]. unfold AnyOf_ConfirmExecution, mbind, M_bind, lift.
  destruct (assigned _ _ _) as [sigs|e|p]; [|by intros [= <- <-]..].
  intros Hr%any_from_confirm. destruct r; [|done..]. destruct Hr as (j&auth&rq'&v&v'&Hj&Hs&Hrest).
  apply list_lookup_fmap_Some in Hj as (a0&->&Hj). exists a0, rq', v, v'.
  split; [by eapply list_elem_of_lookup_2|]. split; [|done].
  unfold sub_request in Hs. destruct sa; [by injection Hs as <-|].
  destruct (sigs !! _); [|done]. by injection Hs as <-.
Qed.

End Confirm.

(** ** Ids of nested authenticators *)

Lemma dot_not_decimal : not_decimal ".".
Proof. split; [done|]. intros x. unfold pretty_N_char. by repeat case_match. Qed.

Lemma compositeId_inj b b' i j : compositeId b i = compositeId b' j -> b = b' /\ i = j.
Proof.
  unfold compositeId. intros E. apply last_sep_inj in E as [-> E%itoa_inj]; [split; [done|lia]|..];
    apply itoa_no_char, dot_not_decimal.
Qed.

Lemma composite_has_dot b i : contains_char "." (compositeId b i) = true.
Proof. unfold compositeId. rewrite contains_char_app. cbn. by rewrite orb_true_r. Qed.

(** The id of the part reached by a path of indices. *)
Definition path_id (base : string) (path : list nat) : string := fold_left compositeId path base.

(** Different parts of an authenticator never share an id, so that a contract
    used twice in a composite keeps separate state. *)
Lemma path_id_inj base p q : contains_char "." base = false ->
  path_id base p = path_id base q -> p = q.
Proof.
  intros Hb. unfold path_id. revert q. induction p as [|i p IH] using rev_ind; intros q;
    destruct q as [|j q _] using rev_ind; rewrite ?fold_left_app; cbn.
  - done.
  - intros E. exfalso. by rewrite E, composite_has_dot in Hb.
  - intros E. exfalso. by rewrite <- E, composite_has_dot in Hb.
  - intros [E <-]%compositeId_inj. by rewrite (IH q E).
Qed.

(** ** The manager's index *)

(** The ordered keys list every registered type once, in order. *)
Record manager_ok (am : AuthenticatorManager) : Prop := {
  keys_sorted : StronglySorted str_le (orderedKeys am);
  keys_nodup : NoDup (orderedKeys am);
  keys_exact k : k ∈ orderedKeys am <-> is_Some (registeredAuthenticators am !! k);
  keys_types k a : registeredAuthenticators am !! k = Some a -> Type_ a = k
}.

(** Everything the application does to a manager. *)
Inductive manager_step : AuthenticatorManager -> AuthenticatorManager -> Prop :=
| step_init am l : NoDup (map Type_ l) -> manager_step am (InitializeAuthenticators l am)
| step_register am a : manager_step am (RegisterAuthenticator a am)
| step_unregister am a : manager_step am (UnregisterAuthenticator a am)
| step_reset am : manager_step am (ResetAuthenticators am).

Lemma manager_ok_empty : manager_ok NewAuthenticatorManager.
Proof.
  unfold NewAuthenticatorManager. split; cbn; [constructor|constructor| |by intros k a ?%lookup_empty_Some].
  intros k. split; [by intros ?%elem_of_nil|by intros [? ?%lookup_empty_Some]].
Qed.

Lemma register_ok a am : manager_ok am -> manager_ok (RegisterAuthenticator a am).
Proof.
  intros [Hs Hnd Hex Hty]. unfold RegisterAuthenticator.
  assert (Hty' : forall k b, <[Type_ a := a]> (registeredAuthenticators am) !! k = Some b -> Type_ b = k).
  { intros k b. rewrite lookup_insert_Some. naive_solver. }
  destruct (registeredAuthenticators am !! Type_ a) eqn:E; split; cbn; try done.
  - intros k. rewrite Hex, lookup_insert_is_Some. destruct (decide (Type_ a = k)) as [<-|]; [rewrite E|]; naive_solver.
  - apply StronglySorted_merge_sort; apply _.
  - rewrite merge_sort_Permutation. apply NoDup_app. split_and!; [done| |apply NoDup_singleton].
    intros k Hk ->%list_elem_of_singleton. apply Hex in Hk as [? ?]. congruence.
  - intros k. rewrite merge_sort_Permutation, elem_of_app, list_elem_of_singleton, Hex, lookup_insert_is_Some.
    destruct (decide (Type_ a = k)) as [<-|]; naive_solver.
Qed.

Lemma remove_first_elem k l x : NoDup l -> x ∈ remove_first k l <-> x ∈ l /\ x <> k.
Proof.
  induction l as [|y l IH]; cbn; [set_solver|]. intros [Hy Hnd]%NoDup_cons.
  destruct (String.eqb_spec y k) as [->|]; [set_solver|]. rewrite !elem_of_cons, IH by done. naive_solver.
Qed.

Lemma remove_first_sublist k l : sublist (remove_first k l) l.
Proof. induction l as [|y l IH]; cbn; [constructor|]. destruct (String.eqb y k); by constructor. Qed.

Lemma StronglySorted_sublist {A} (R : A -> A -> Prop) l k : sublist l k -> StronglySorted R k -> StronglySorted R l.
Proof.
  induction 1 as [|x l k Hl IH|x l k Hl IH]; intros Hs; [done|..]; inversion Hs as [|? ? Hk Hx]; subst; [|auto].
  constructor; [auto|]. rewrite Forall_forall in *. intros y Hy. apply Hx. by eapply elem_of_submseteq; [|apply sublist_submseteq].
Qed.

Lemma unregister_ok a am : manager_ok am -> manager_ok (UnregisterAuthenticator a am).
Proof.
  intros [Hs Hnd Hex Hty]. unfold UnregisterAuthenticator.
  destruct (registeredAuthenticators am !! Type_ a) eqn:E; [|by split].
  split; cbn.
  - eapply StronglySorted_sublist; [apply remove_first_sublist|done].
  - eapply sublist_NoDup; [done|apply remove_first_sublist].
  - intros k. rewrite remove_first_elem, Hex by done. rewrite lookup_delete_is_Some. naive_solver.
  - intros k b. rewrite lookup_delete_Some. naive_solver.
Qed.

Lemma register_all_lookup l m k :
  is_Some (fold_left (fun m a => <[Type_ a := a]> m) l m !! k) <->
  k ∈ map Type_ l \/ is_Some ((m : gmap string Authenticator) !! k).
Proof.
  revert m. induction l as [|a l IH]; intros m; cbn; [set_solver|].
  rewrite IH, lookup_insert_is_Some, elem_of_cons. destruct (decide (Type_ a = k)); naive_solver.
Qed.

Lemma register_all_types l m : (forall k a, m !! k = Some a -> Type_ a = k) ->
  forall k a, fold_left (fun m a => <[Type_ a := a]> m) l (m : gmap string Authenticator) !! k = Some a -> Type_ a = k.
Proof.
  revert m. induction l as [|b l IH]; intros m Hm; cbn; [done|]. apply IH.
  intros k a. rewrite lookup_insert_Some. naive_solver.
Qed.

Lemma initialize_ok l am : NoDup (map Type_ l) -> manager_ok am -> manager_ok (InitializeAuthenticators l am).
Proof.
  intros Hl [Hs Hnd Hex Hty]. unfold InitializeAuthenticators.
  destruct (Nat.ltb_spec 0 (size (registeredAuthenticators am))) as [|Hz]; [by split|].
  assert (registeredAuthenticators am = ∅) as E0 by (apply map_size_empty_inv; lia).
  assert (orderedKeys am = []) as E1.
  { destruct (orderedKeys am) as [|k ks]; [done|]. destruct (proj1 (Hex k)) as [? Hk]; [by left|].
    by rewrite E0 in Hk. }
  rewrite E0, E1. split; cbn.
  - apply StronglySorted_merge_sort; apply _.
  - by rewrite merge_sort_Permutation.
  - intros k. rewrite merge_sort_Permutation, register_all_lookup. split; [auto|]. by intros [?|[? ?]].
  - by apply register_all_types.
Qed.

(** Whatever sequence of registrations the application performs, the
    manager lists exactly the registered authenticators, each once and in the
    order of their types, and every one under its own type. *)
Theorem manager_lists_registered am : rtc manager_step NewAuthenticatorManager am ->
  manager_ok am /\
  Forall2 (fun k o => exists a, o = Some a /\ Type_ a = k) (orderedKeys am) (GetRegisteredAuthenticators am).
Proof.
  intros Hr. assert (Hok : manager_ok am).
  { revert am Hr. apply (rtc_ind_r manager_ok); [apply manager_ok_empty|].
    intros am1 am2 _ Hst IH. destruct Hst; [by apply initialize_ok|by apply register_ok|by apply unregister_ok|apply manager_ok_empty]. }
  split; [done|]. apply Forall2_fmap_r, Forall_Forall2_diag, Forall_forall. intros k Hk.
  apply (keys_exact _ Hok) in Hk as [a Ha]. exists a. split; [done|]. by eapply keys_types.
Qed.

(** ** Witnesses *)

(** A reference host: a store of one number; a configuration of two keys is a
    two-byte tag and the keys; a key accepts the signature that is its first
    byte; the contract named "bad" writes and then fails, others add one. *)
Module AuthRef.
Import Ref RefLaws.
Local Open Scope string_scope.

Lemma substring_length n m s : (String.length (String.substring n m s) <= m)%nat.
Proof. revert n m. induction s as [|c s IH]; intros [|n] [|m]; cbn; try lia; auto. apply le_n_S, (IH 0%nat). Qed.

#[export] Instance json_ops : SaJson := {|
  UnmarshalSignatures s :=
    if (String.length s =? 2)%nat then Ok [String.substring 0 1 s; String.substring 1 1 s] else Err "json";
  UnmarshalInitDatas s :=
    if (String.length s =? 68)%nat
    then Ok [mkInit "SignatureVerification" (String.substring 2 33 s);
             mkInit "SignatureVerification" (String.substring 35 33 s)]
    else Err "json";
  UnmarshalRaw _ := Ok tt;
  UnmarshalAny s := Ok (JString s);
  UnmarshalObject _ := Ok tt;
  UnmarshalCosmwasmInit s := Ok (mkCwInit s "");
  UnmarshalZkConfig _ := Ok (mkZkConfig 1 "" 0 false 0);
  UnmarshalZkPayload s := Ok (mkZkPayload s s "");
  MarshalSudo _ := Ok "" |}.

#[export] Instance json_laws : SaJsonLaws.
Proof.
  split; cbn; try done.
  - intros data l. destruct (Nat.eqb_spec (String.length data) 68) as [E|]; [|done]. intros [= <-].
    pose proof (substring_length 2 33 data). pose proof (substring_length 35 33 data).
    repeat constructor; cbn [Config]; lia.
  - intros data p. by destruct (_ =? 68)%nat.
  - intros data p. by destruct (_ =? 2)%nat.
Qed.

#[export] Instance host : SaHost Z meter := {|
  Resolve t := Ok t;
  UnmarshalProto _ v := Ok v;
  MarshalInterfaceJSON m := Ok m;
  VerifySignature pk _ sig := String.eqb (String.substring 0 1 pk) sig;
  SigVerifyCostSecp256k1 _ := 1000%Z;
  Sudo c _ := if String.eqb c "bad" then modify (fun w => set_store (store w + 5)%Z w);; throw "refused"
              else modify (fun w => set_store (store w + 1)%Z w);; mret "";
  verifier := None;
  GlobalPathAVerifier := None |}.

#[export] Instance host_laws : SaHostLaws Z meter.
Proof. split; done. Qed.

#[export] Instance dec_parse : DecParse := fun _ => None.

End AuthRef.

Module AuthWitness.
Import Ref RefLaws AuthRef.
Local Open Scope string_scope.

Abbreviation W := (World Z meter).

Definition ctx0 : TxCtx := mkTxCtx false false 10 "terp-1".
Definition key1 : string := "a23456789012345678901234567890123".
Definition key2 : string := "b23456789012345678901234567890123".
Definition config2 : string := "2:" ++ key1 ++ key2.

Definition am0 : AuthenticatorManager :=
  InitializeAuthenticators [SignatureVerification None; MessageFilter ""; AllOf Single []; AnyOf Single [];
    AnyOf Partitioned []; AllOf Partitioned []] NewAuthenticatorManager.

Definition request (sig : string) : AuthenticationRequest :=
  mkRequest "7" "alice" "alice" "" [] (mkAny "/msg" "hello") 0 sig (mkSignMode "doc" "")
    (mkTxData "terp-1" 1 2 0 [] "") (mkSigData ["alice"] [sig]) false "".

Definition w0 : W := mkWorld 0%Z (mkMeter 0 100000) [].

Lemma lifecycle_terminates_witness :
  Initialize 1000 am0 (AllOf Partitioned []) config2 <> Panic "stack overflow" /\
  Initialize 1000 am0 (AllOf Partitioned []) config2 =
    Ok (AllOf Partitioned [SignatureVerification (Some key1); SignatureVerification (Some key2)]).
Proof.
  split; [|vm_compute; reflexivity].
  assert (enough config2 <= 1000)%nat as Hn by (apply Nat.leb_le; vm_compute; reflexivity).
  apply (lifecycle_terminates 1000 am0 "alice" (AllOf Partitioned []) config2 "7" w0 Hn).
Defined.

Lemma am0_templates : templates_ok am0.
Proof.
  intros t a. unfold GetAuthenticatorByType.
  assert (registeredAuthenticators am0 =
    list_to_map (map (fun a => (Type_ a, a)) [SignatureVerification None; MessageFilter ""; AllOf Single [];
      AnyOf Single []; AnyOf Partitioned []; AllOf Partitioned []])) as -> by (vm_compute; reflexivity).
  intros E%elem_of_list_to_map_2. cbn in E. set_solver.
Qed.

Lemma accepted_authenticator_initializes_witness : exists inst,
  Initialize (enough config2) am0 (AllOf Partitioned []) config2 = Ok inst /\ wf_auth inst.
Proof.
  destruct (accepted_authenticator_initializes am0 "alice" (AllOf Partitioned []) config2 "7" w0 tt w0)
    as (inst&E&Hwf&_).
  - exact am0_templates.
  - reflexivity.
  - vm_compute. reflexivity.
  - exists inst. split; [exact E|exact Hwf].
Defined.

(** Either both keys in order, or the filter. *)
Definition policy : Authenticator :=
  AnyOf Single [MessageFilter "other";
    AllOf Partitioned [SignatureVerification (Some key1); SignatureVerification (Some key2)]].

Lemma authenticate_decides_formula_witness :
  (Authenticate ctx0 policy (request "ab") w0).1 = Ok tt /\
  (exists e, (Authenticate ctx0 policy (request "ba") w0).1 = Err e).
Proof.
  split.
  - destruct (authenticate_decides_formula ctx0 policy (request "ab") w0) as (g&r&->&Ht&_&_).
    + reflexivity.
    + vm_compute. discriminate.
    + apply Ht. vm_compute. reflexivity.
  - destruct (authenticate_decides_formula ctx0 policy (request "ba") w0) as (g&r&->&_&Hf&_).
    + reflexivity.
    + vm_compute. discriminate.
    + apply Hf. vm_compute. reflexivity.
Defined.

Lemma anyof_confirm_isolated_witness :
  store (ConfirmExecution (AnyOf Single [CosmwasmAuthenticator "bad" ""; CosmwasmAuthenticator "good" ""])
    (request "") w0).2 = 1 /\
  exists a, a ∈ [CosmwasmAuthenticator "bad" ""; CosmwasmAuthenticator "good" ""].
Proof.
  split; [reflexivity|].
  pose proof (anyof_confirm_isolated Single
    [CosmwasmAuthenticator "bad" ""; CosmwasmAuthenticator "good" ""] (request "") w0
    (Ok tt) (mkWorld 1 (mkMeter 0 100000) []) eq_refl) as (a&_&_&_&Ha&_).
  exists a. exact Ha.
Defined.

Lemma manager_lists_registered_witness : manager_ok am0 /\
  orderedKeys am0 = ["AllOf"; "AnyOf"; "MessageFilter"; "PartitionedAllOf"; "PartitionedAnyOf"; "SignatureVerification"].
Proof.
  split; [|vm_compute; reflexivity]. apply (manager_lists_registered am0).
  apply rtc_once. constructor. apply (bool_decide_unpack _). vm_compute. exact I.
Defined.

End AuthWitness.
