(* ===== verification/SaKeeper.v ===== *)
(** * x/smart-account: the keeper

    Parameters, the authenticators of every account with their ids, the three
    messages of the module, and genesis. *)

From Stdlib Require Import ZArith Lia Ascii.
From stdpp Require Import base gmap strings list sorting pretty.
From S2P Require Import Prelude Sdk SdkRef Store GoLib WasmDispatch SaFilter SaAuth.

(** ** State *)

Record Params := mkParams {
  MaximumUnauthenticatedGas : Z;
  IsSmartAccountActive : bool;
  CircuitBreakerControllers : list string
}.

Record AccountAuthenticator := mkAccountAuthenticator { AuthId : Z; AuthType : string; AuthConfig : string }.

(** The module's store: parameters under 0x00, the next id, and one entry per
    authenticator under its key. *)
Record SaStore := mkSaStore {
  sa_params : option Params;
  sa_next : option Z;
  sa_auths : gmap string AccountAuthenticator
}.

Record AuthenticatorData := mkAuthenticatorData { Address : string; Authenticators : list AccountAuthenticator }.

Record GenesisState := mkGenesis {
  GParams : Params; NextAuthenticatorId : Z; GAuthenticatorData : list AuthenticatorData }.

(** The module's store inside the multistore. *)
Class HasSa (S : Type) := { sa : S -> SaStore; set_sa : SaStore -> S -> S }.

Class HasSaLaws (S : Type) `{HasSa S} : Prop := {
  sa_set x s : sa (set_sa x s) = x;
  set_sa_set x y s : set_sa x (set_sa y s) = set_sa x s;
  set_sa_get s : set_sa (sa s) s = s
}.

(** ** Keys *)

(** [BuildKey]: the elements printed with [fmt.Sprint], which shows the
    one-byte prefix 0x02 as "[2]", each followed by the separator. *)
Definition BuildKey (elements : list string) : string := (join_with "|" elements ++ "|")%string.

Definition KeyAccountAuthenticatorsPrefix : string := "[2]".

Section Keys.
Context `{Bech32}.

Definition KeyAccount (account : string) : string :=
  BuildKey [KeyAccountAuthenticatorsPrefix; AccAddress_String account].

Definition KeyAccountId (account : string) (id : Z) : string :=
  BuildKey [KeyAccountAuthenticatorsPrefix; AccAddress_String account; itoa id].

Definition KeyAccountAuthenticatorsPrefixId : string := BuildKey [KeyAccountAuthenticatorsPrefix].

End Keys.

(** ** Parameters *)

Definition NewParams : Params := mkParams 120000 true [].
Definition DefaultParams : Params := NewParams.

Definition validateCircuitBreakerControllers `{Bech32} (controllers : list string) : res unit :=
  if forallb (fun addr => is_ok (AccAddressFromBech32 addr)) controllers then Ok tt else Err "invalid address".

(** The other two checks test the type of the field, which is fixed. *)
Definition Params_Validate `{Bech32} (p : Params) : res unit :=
  validateCircuitBreakerControllers (CircuitBreakerControllers p).

Definition DefaultGenesis : GenesisState := mkGenesis DefaultParams 0 [].
Definition GenesisState_Validate `{Bech32} (gs : GenesisState) : res unit := Params_Validate (GParams gs).

Definition FirstAuthenticatorId : Z := 1.

(** ** Keeper *)

Section Keeper.
Context {S G : Type} `{GasMeterOps G} `{SaJson} `{SaHost S G} `{Bech32} `{DecParse} `{HasSa S}.
(** The circuit breaker governor and the shared manager. *)
Variable (CircuitBreakerGovernor : string) (am : AuthenticatorManager).

Abbreviation W := (World S G).

Definition upd (f : SaStore -> SaStore) : M W unit :=
  modify (fun w => set_store (set_sa (f (sa (store w))) (store w)) w).

Definition set_auths (f : gmap string AccountAuthenticator -> gmap string AccountAuthenticator) : M W unit :=
  upd (fun s => mkSaStore (sa_params s) (sa_next s) (f (sa_auths s))).

Definition GetParams (s : SaStore) : Params := default DefaultParams (sa_params s).

Definition SetParams (params : Params) : M W unit :=
  match Params_Validate params with
  | Ok _ => upd (fun s => mkSaStore (Some params) (sa_next s) (sa_auths s))
  | Err e => panic e
  | Panic p => panic p
  end.

Definition GetIsSmartAccountActive (s : SaStore) : bool := IsSmartAccountActive (GetParams s).

Definition GetAuthenticatorDataForAccount (s : SaStore) (account : string) : list AccountAuthenticator :=
  map snd (iter_prefix (KeyAccount account) (sa_auths s)).

Definition GetSelectedAuthenticatorData (s : SaStore) (account : string) (selectedAuthenticator : Z)
    : res AccountAuthenticator :=
  match sa_auths s !! KeyAccountId account (u64 selectedAuthenticator) with
  | None => Err "ErrInvalidRequest"
  | Some a => Ok a
  end.

Definition GetInitializedAuthenticatorForAccount (s : SaStore) (account : string) (selectedAuthenticator : Z)
    : res (Z * Authenticator) :=
  authenticatorFromStore ← GetSelectedAuthenticatorData s account selectedAuthenticator;
  match GetAuthenticatorByType am (AuthType authenticatorFromStore) with
  | None => Err "ErrLogic"
  | Some uninitialized =>
      let config := AuthConfig authenticatorFromStore in
      initialized ← Initialize (enough config) am uninitialized config;
      Ok (AuthId authenticatorFromStore, initialized)
  end.

Definition SetNextAuthenticatorId (authenticatorId : Z) : M W unit :=
  upd (fun s => mkSaStore (sa_params s) (Some authenticatorId) (sa_auths s)).

Definition InitializeOrGetNextAuthenticatorId : M W Z :=
  s ← gets (fun w => sa (store w));
  match sa_next s with
  | None => SetNextAuthenticatorId FirstAuthenticatorId;; mret FirstAuthenticatorId
  | Some id => mret id
  end.

Definition AddAuthenticator (account authenticatorType config : string) : M W Z :=
  match GetAuthenticatorByType am authenticatorType with
  | None => throw "authenticator type is not registered"
  | Some impl =>
      id ← InitializeOrGetNextAuthenticatorId;
      OnAuthenticatorAdded (enough config) am account impl config (itoa id);;
      SetNextAuthenticatorId (u64 (id + 1));;
      set_auths (<[KeyAccountId account id := mkAccountAuthenticator id authenticatorType config]>);;
      mret id
  end.

Definition RemoveAuthenticator (account : string) (authenticatorId : Z) : M W unit :=
  let key := KeyAccountId account authenticatorId in
  s ← gets (fun w => sa (store w));
  match sa_auths s !! key with
  | None => throw "authenticator does not exist"
  | Some existing =>
      match GetAuthenticatorByType am (AuthType existing) with
      | None => throw "authenticator type is not registered"
      | Some impl =>
          OnAuthenticatorRemoved (enough (AuthConfig existing)) am account impl (AuthConfig existing)
            (itoa authenticatorId);;
          set_auths (delete key)
      end
  end.

Definition SetActiveState (active : bool) : M W unit :=
  s ← gets (fun w => sa (store w));
  let params := GetParams s in
  SetParams (mkParams (MaximumUnauthenticatedGas params) active (CircuitBreakerControllers params)).

(** ** Messages *)

Definition emit (attrs : list (string * string)) : M W unit :=
  modify (fun w => set_evs (evs w ++ [mkSdkEvent "message" (map (fun kv => mkSdkAttr kv.1 kv.2 false) attrs)]) w).

Definition msgServer_AddAuthenticator (Sender AuthenticatorType Data : string) : M W unit :=
  s ← gets (fun w => sa (store w));
  ensureM (GetIsSmartAccountActive s) "ErrUnauthorized";;
  sender ← lift (AccAddressFromBech32 Sender);
  id ← AddAuthenticator sender AuthenticatorType Data;
  emit [("module", "smartaccount"); ("sender", Sender); ("authenticator_type", AuthenticatorType);
        ("authenticator_id", itoa id)]%string.

Definition msgServer_RemoveAuthenticator (Sender : string) (Id : Z) : M W unit :=
  s ← gets (fun w => sa (store w));
  ensureM (GetIsSmartAccountActive s) "ErrUnauthorized";;
  sender ← lift (AccAddressFromBech32 Sender);
  RemoveAuthenticator sender Id.

(** [msg.GetSigners()[0]], which panics on an invalid sender. *)
Definition getSender (sender : string) : res string :=
  match AccAddressFromBech32 sender with
  | Ok a => Ok a
  | Err e => Panic e
  | Panic p => Panic p
  end.

Definition msgServer_SetActiveState (Sender : string) (Active : bool) : M W unit :=
  signer ← lift (getSender Sender);
  s ← gets (fun w => sa (store w));
  (if Active then ensureM (String.eqb signer CircuitBreakerGovernor) "ErrUnauthorized"
   else ensureM (existsb (String.eqb (AccAddress_String signer)) (CircuitBreakerControllers (GetParams s)))
          "ErrUnauthorized");;
  SetActiveState Active;;
  emit [("module", "smartaccount"); ("sender", Sender);
        ("is_smart_account_active", if Active then "true" else "false")]%string.

(** ** Genesis *)

(** One entry of the export: a new group, or one more in the last group. *)
Definition group_entry (acc : list AuthenticatorData) (accountAddr : string) (a : AccountAuthenticator)
    : list AuthenticatorData :=
  match last acc with
  | Some g =>
      if String.eqb (Address g) accountAddr
      then removelast acc ++ [mkAuthenticatorData (Address g) (Authenticators g ++ [a])]
      else acc ++ [mkAuthenticatorData accountAddr [a]]
  | None => acc ++ [mkAuthenticatorData accountAddr [a]]
  end.

(** [strings.Split(string(key), "|")[1]]. *)
Definition key_account (key : string) : res string :=
  match split_on "|" key !! 1%nat with Some a => Ok a | None => Panic "index out of range" end.

Fixpoint group_entries (acc : list AuthenticatorData) (l : list (string * AccountAuthenticator))
    : res (list AuthenticatorData) :=
  match l with
  | [] => Ok acc
  | (key, a) :: l =>
      accountAddr ← key_account (KeyAccountAuthenticatorsPrefixId ++ key);
      group_entries (group_entry acc accountAddr a) l
  end.

Definition GetAllAuthenticatorData (s : SaStore) : res (list AuthenticatorData) :=
  group_entries [] (iter_prefix KeyAccountAuthenticatorsPrefixId (sa_auths s)).

(** The callback runs in a cached context that is dropped. *)
Definition AddAuthenticatorWithId (account authenticatorType config : string) (id : Z) : M W unit :=
  match GetAuthenticatorByType am authenticatorType with
  | None => throw "authenticator type is not registered"
  | Some impl =>
      neverWrite (OnAuthenticatorAdded (enough config) am account impl config (itoa id));;
      set_auths (<[KeyAccountId account id := mkAccountAuthenticator id authenticatorType config]>)
  end.

(** An error during genesis is a panic. *)
Definition or_panic {A} (m : M W A) : M W A := fun w =>
  match m w with (Err e, w') => (Panic e, w') | r => r end.

Definition InitGenesis (genState : GenesisState) : M W unit :=
  SetParams (GParams genState);;
  SetNextAuthenticatorId (if NextAuthenticatorId genState =? 0 then FirstAuthenticatorId
                          else NextAuthenticatorId genState);;
  forM (GAuthenticatorData genState) (fun data =>
    accAddr ← or_panic (lift (AccAddressFromBech32 (Address data)));
    forM (Authenticators data) (fun a =>
      or_panic (AddAuthenticatorWithId accAddr (AuthType a) (AuthConfig a) (AuthId a)))).

Definition ExportGenesis : M W GenesisState :=
  params ← gets (fun w => GetParams (sa (store w)));
  next ← InitializeOrGetNextAuthenticatorId;
  s ← gets (fun w => sa (store w));
  all ← or_panic (lift (GetAllAuthenticatorData s));
  mret (mkGenesis params next all).

End Keeper.

(** ** Keys identify account and id *)

Ltac str_norm := repeat (rewrite <- string_app_assoc || rewrite string_app_cons || rewrite string_app_nil).

(** The text of an address has no separator in it. *)
Class Bech32Text `{Bech32} : Prop := bech32_no_bar a : contains_char "|" (AccAddress_String a) = false.

Section KeyProofs.
Context `{Bech32Laws} `{!Bech32Text}.

Lemma bar_not_decimal : not_decimal "|".
Proof. split; [done|]. intros x. unfold pretty_N_char. by repeat case_match. Qed.

Lemma address_text_inj a b : a <> ""%string -> b <> ""%string ->
  AccAddress_String a = AccAddress_String b -> a = b.
Proof.
  intros Ha Hb E. pose proof (bech32_roundtrip a Ha) as Ea. rewrite E, bech32_roundtrip in Ea by done.
  by injection Ea.
Qed.

Lemma key_account_id_eq a id :
  KeyAccountId a id = (KeyAccountAuthenticatorsPrefixId ++ (AccAddress_String a ++ String "|" (itoa id ++ "|")))%string.
Proof. unfold KeyAccountId, KeyAccountAuthenticatorsPrefixId, BuildKey. cbn [join_with]. by str_norm. Qed.

Lemma key_account_eq a :
  KeyAccount a = (KeyAccountAuthenticatorsPrefixId ++ (AccAddress_String a ++ "|"))%string.
Proof. unfold KeyAccount, KeyAccountAuthenticatorsPrefixId, BuildKey. cbn [join_with]. by str_norm. Qed.

Lemma KeyAccountId_inj a b i j : a <> ""%string -> b <> ""%string ->
  KeyAccountId a i = KeyAccountId b j -> a = b /\ i = j.
Proof.
  intros Ha Hb. rewrite !key_account_id_eq. intros E%string_app_inv_l.
  change (String "|" (itoa ?x ++ "|"))%string with (String "|" (itoa x) ++ "|")%string in E.
  rewrite !string_app_assoc in E. apply string_app_inv_r in E.
  apply last_sep_inj in E as [E%address_text_inj E'%itoa_inj]; [done..| |];
    apply itoa_no_char, bar_not_decimal.
Qed.

(** The account is read back from the start of the key. *)
Lemma key_account_of a rest :
  key_account (KeyAccountAuthenticatorsPrefixId ++ (AccAddress_String a ++ String "|" rest)) =
    Ok (AccAddress_String a).
Proof.
  unfold key_account. change (KeyAccountAuthenticatorsPrefixId ++ ?x)%string with ("[2]" ++ String "|" x)%string.
  rewrite split_on_app by done. by rewrite split_on_app by apply bech32_no_bar.
Qed.

End KeyProofs.

(** ** Numbering of authenticators *)

Section KeeperProofs.
Context {S G : Type} `{GasMeterOps G} `{SaJson} `{SaHost S G} `{Bech32Laws} `{!Bech32Text} `{DecParse}
  `{HasSaLaws S}.
Variable (CircuitBreakerGovernor : string) (am : AuthenticatorManager).

Abbreviation W := (World S G).

Definition next_id (s : SaStore) : Z := default FirstAuthenticatorId (sa_next s).

(** Every entry is stored under its account and id, ids are unique over all
    accounts and below the next one. *)
Record sa_ok (s : SaStore) : Prop := {
  ok_entry k e : sa_auths s !! k = Some e ->
    exists account, account <> ""%string /\ k = KeyAccountId account (AuthId e) /\ 1 <= AuthId e < next_id s;
  ok_unique k k' e e' : sa_auths s !! k = Some e -> sa_auths s !! k' = Some e' ->
    AuthId e = AuthId e' -> k = k';
  ok_next : 1 <= next_id s < 2 ^ 64
}.

(** A condition on the contracts the module calls: they do not call back into it.  It
    is not enforced by the code, and the lemmas that use it say so; [numbering_invariant]
    below does without. *)
Definition contracts_quiet : Prop := forall c bz (w : W), sa (store (Sudo c bz w).2) = sa (store w).

(** [m] leaves the module's store alone. *)
Definition keeps {A} (m : M W A) : Prop := forall w, sa (store (m w).2) = sa (store w).

Lemma keeps_lift {A} (r : res A) : keeps (lift r).
Proof. done. Qed.

Lemma keeps_bind {A C} (m : M W A) (f : A -> M W C) : keeps m -> (forall a, keeps (f a)) -> keeps (m ≫= f).
Proof.
  intros Hm Hf w. specialize (Hm w). unfold mbind, M_bind. destruct (m w) as [[a|e|p] w1]; cbn in *; [|done..].
  by rewrite Hf.
Qed.

Lemma keeps_forMi {A} i (l : list A) f : (forall i x, keeps (f i x)) -> keeps (forMi i l f).
Proof.
  intros Hf. revert i. induction l as [|x l IH]; intros i; cbn; [done|]. apply keeps_bind; [done|]. intros _. apply IH.
Qed.

Lemma keeps_sudo c msg : contracts_quiet -> keeps (sudo_call c msg).
Proof.
  intros Hq. apply keeps_bind; [done|]. intros bz. apply keeps_bind; [intros w; apply Hq|done].
Qed.

Lemma on_added_keeps n account a config id : contracts_quiet ->
  keeps (OnAuthenticatorAdded n am account a config id).
Proof.
  intros Hq. revert a config id. induction n as [|n IH]; intros a config id; [done|]. cbn.
  assert (Hs : keeps (onSubAuthenticatorsAdded (OnAuthenticatorAdded n am account) config id am)).
  { apply keeps_bind; [done|]. intros l. apply keeps_bind; [done|]. intros _. apply keeps_forMi.
    intros i d. destruct (GetAuthenticatorByType am (InitType d)); [apply IH|done]. }
  destruct a; try done; (apply keeps_bind; [done|]; intros; first [by apply keeps_sudo|done]).
Qed.

Lemma on_removed_keeps n account a config id : contracts_quiet ->
  keeps (OnAuthenticatorRemoved n am account a config id).
Proof.
  intros Hq. revert a config id. induction n as [|n IH]; intros a config id; [done|]. cbn.
  assert (Hs : keeps (onSubAuthenticatorsRemoved (OnAuthenticatorRemoved n am account) config id am)).
  { apply keeps_bind; [done|]. intros l. apply keeps_forMi.
    intros i d. destruct (GetAuthenticatorByType am (InitType d)); [apply IH|done]. }
  destruct a; try done; (apply keeps_bind; [done|]; intros; by apply keeps_sudo).
Qed.

Lemma upd_sa f (w : W) : sa (store (upd f w).2) = f (sa (store w)).
Proof. cbn. apply sa_set. Qed.

(** The store with the next id made explicit. *)
Definition with_next (s : SaStore) : SaStore := mkSaStore (sa_params s) (Some (next_id s)) (sa_auths s).

Lemma init_next_spec (w : W) : exists w1, InitializeOrGetNextAuthenticatorId w = (Ok (next_id (sa (store w))), w1) /\
  sa (store w1) = with_next (sa (store w)).
Proof.
  unfold InitializeOrGetNextAuthenticatorId, mbind, M_bind, gets, with_next, next_id.
  destruct (sa (store w)) as [ps [id|] auths] eqn:E; cbn.
  - exists w. by rewrite E.
  - eexists. split; [done|]. cbn. by rewrite sa_set, E.
Qed.

Lemma add_ok_inv account ty config (w : W) id w' : contracts_quiet ->
  AddAuthenticator am account ty config w = (Ok id, w') ->
  id = next_id (sa (store w)) /\ (exists a, GetAuthenticatorByType am ty = Some a) /\
  sa (store w') = mkSaStore (sa_params (sa (store w))) (Some (u64 (id + 1)))
    (<[KeyAccountId account id := mkAccountAuthenticator id ty config]> (sa_auths (sa (store w)))).
Proof.
  intros Hq. unfold AddAuthenticator. destruct (GetAuthenticatorByType am ty) as [impl|]; [|done].
  destruct (init_next_spec w) as (w1&E1&Hs1). intros (i&w1'&E&Hr)%bind_Ok. rewrite E1 in E. injection E as <- <-.
  apply bind_Ok in Hr as ([]&w2&E2&Hr).
  pose proof (on_added_keeps (enough config) account impl config (itoa (next_id (sa (store w)))) Hq w1) as Hk.
  rewrite E2 in Hk. cbn in Hk.
  apply bind_Ok in Hr as ([]&w3&E3&Hr). apply bind_Ok in Hr as ([]&w4&E4&[<- <-]%ret_Ok).
  unfold SetNextAuthenticatorId, set_auths, upd in *. apply modify_Ok in E3, E4. subst w3 w4.
  split; [done|]. split; [eauto|]. cbn. rewrite !sa_set. cbn. by rewrite Hk, Hs1.
Qed.

Lemma add_err account ty config (w : W) r w' : contracts_quiet ->
  AddAuthenticator am account ty config w = (r, w') -> is_ok r = false ->
  sa (store w') = sa (store w) \/ sa (store w') = with_next (sa (store w)).
Proof.
  intros Hq. unfold AddAuthenticator. destruct (GetAuthenticatorByType am ty) as [impl|]; [|intros [= <- <-]; auto].
  destruct (init_next_spec w) as (w1&E1&Hs1). unfold mbind at 1, M_bind at 1. rewrite E1.
  pose proof (on_added_keeps (enough config) account impl config (itoa (next_id (sa (store w)))) Hq w1) as Hk.
  unfold mbind at 1, M_bind at 1. destruct (OnAuthenticatorAdded _ _ _ _ _ _ w1) as [[[]|e|p] w2]; cbn in Hk.
  - unfold SetNextAuthenticatorId, set_auths, upd, mbind, M_bind, modify, mret, M_ret. by intros [= <- <-].
  - intros [= <- <-] _. right. congruence.
  - intros [= <- <-] _. right. congruence.
Qed.

Lemma sa_ok_with_next s : sa_ok s -> sa_ok (with_next s).
Proof. intros [He Hu Hn]. split; done. Qed.

Lemma sa_ok_insert s account ty config : sa_ok s -> account <> ""%string -> next_id s + 1 < 2 ^ 64 ->
  sa_ok (mkSaStore (sa_params s) (Some (u64 (next_id s + 1)))
    (<[KeyAccountId account (next_id s) := mkAccountAuthenticator (next_id s) ty config]> (sa_auths s))).
Proof.
  intros [He Hu Hn] Ha Hmax. rewrite u64_small by (unfold is_u64; lia).
  assert (Hlt : forall k e, sa_auths s !! k = Some e -> AuthId e <> next_id s).
  { intros k e (?&_&_&?)%He. lia. }
  split; cbn.
  - intros k e. rewrite lookup_insert_Some. intros [[<- <-]|[_ Hk]].
    + exists account. cbn. split_and!; [done|done|lia|lia].
    + destruct (He _ _ Hk) as (b&?&?&?). exists b. split_and!; [done|done|lia|lia].
  - intros k k' e e'. rewrite !lookup_insert_Some.
    intros [[<- <-]|[_ Hk]] [[<- <-]|[_ Hk']] E; cbn in *; [done|..|by eapply Hu].
    + by destruct (Hlt _ _ Hk').
    + by destruct (Hlt _ _ Hk).
  - lia.
Qed.

(** The key of the next id is free. *)
Lemma next_key_free s account : sa_ok s -> account <> ""%string ->
  sa_auths s !! KeyAccountId account (next_id s) = None.
Proof.
  intros [He _ _] Ha. destruct (sa_auths s !! _) as [e|] eqn:E; [|done]. exfalso.
  destruct (He _ _ E) as (b&Hb&Hk&?). apply KeyAccountId_inj in Hk as [_ ?]; [lia|done..].
Qed.

(** Where contracts do not call back, a new authenticator gets an id no authenticator of any account has or
    had, is stored under it with its type and configuration, and replaces
    nothing; other entries stay as they are.  A failed attempt changes no
    entry.  The numbering stays consistent in either case. *)
Theorem add_authenticator_fresh account ty config (w : W) r w' :
  contracts_quiet -> account <> ""%string -> sa_ok (sa (store w)) -> next_id (sa (store w)) + 1 < 2 ^ 64 ->
  AddAuthenticator am account ty config w = (r, w') ->
  let s := sa (store w) in let s' := sa (store w') in
  sa_ok s' /\
  match r with
  | Ok id => id = next_id s /\ next_id s' = id + 1 /\ sa_auths s !! KeyAccountId account id = None /\
      sa_auths s' = <[KeyAccountId account id := mkAccountAuthenticator id ty config]> (sa_auths s)
  | _ => sa_auths s' = sa_auths s
  end.
Proof.
  intros Hq Ha Hok Hmax E s s'. destruct (is_ok r) eqn:Hr.
  - destruct r as [id| |]; try done. apply add_ok_inv in E as (->&_&Es); [|done].
    unfold s'. rewrite Es. split; [by apply sa_ok_insert|]. split_and!; [done| |by apply next_key_free|done].
    cbn. apply u64_small. pose proof (ok_next _ Hok). unfold is_u64, s. lia.
  - assert (sa_ok s' /\ sa_auths s' = sa_auths s) as [? ?].
    { unfold s', s. destruct (add_err _ _ _ _ _ _ Hq E Hr) as [->| ->]; [done|]. split; [by apply sa_ok_with_next|done]. }
    split; [done|]. by destruct r.
Qed.

(** ** Messages *)

Inductive SaMsg :=
| MsgAddAuthenticator (Sender AuthenticatorType Data : string)
| MsgRemoveAuthenticator (Sender : string) (Id : Z)
| MsgSetActiveState (Sender : string) (Active : bool).

Definition msg_sender (m : SaMsg) : string :=
  match m with MsgAddAuthenticator s _ _ | MsgRemoveAuthenticator s _ | MsgSetActiveState s _ => s end.

Definition handle (m : SaMsg) : M W unit :=
  match m with
  | MsgAddAuthenticator s t d => msgServer_AddAuthenticator am s t d
  | MsgRemoveAuthenticator s id => msgServer_RemoveAuthenticator am s id
  | MsgSetActiveState s a => msgServer_SetActiveState CircuitBreakerGovernor s a
  end.

Lemma emit_sa attrs (w : W) : sa (store (emit attrs w).2) = sa (store w).
Proof. done. Qed.

Lemma add_msg_inv s t d (w w' : W) : contracts_quiet -> msgServer_AddAuthenticator am s t d w = (Ok tt, w') ->
  GetIsSmartAccountActive (sa (store w)) = true /\ exists acc id w1,
    AccAddressFromBech32 s = Ok acc /\ AddAuthenticator am acc t d w = (Ok id, w1) /\ sa (store w') = sa (store w1).
Proof.
  intros Hq. unfold msgServer_AddAuthenticator. intros (s0&w1&[-> <-]%gets_Ok&E)%bind_Ok.
  apply bind_Ok in E as ([]&w1&[Hact <-]%ensureM_Ok&E). apply bind_Ok in E as (acc&w1&[Hacc <-]%lift_Ok&E).
  apply bind_Ok in E as (id&w1&Hadd&E). split; [done|]. exists acc, id, w1.
  apply modify_Ok in E as ->. done.
Qed.

Lemma remove_msg_inv s i (w w' : W) : contracts_quiet -> msgServer_RemoveAuthenticator am s i w = (Ok tt, w') ->
  GetIsSmartAccountActive (sa (store w)) = true /\ exists acc e,
    AccAddressFromBech32 s = Ok acc /\ sa_auths (sa (store w)) !! KeyAccountId acc i = Some e /\
    sa (store w') = mkSaStore (sa_params (sa (store w))) (sa_next (sa (store w)))
      (delete (KeyAccountId acc i) (sa_auths (sa (store w)))).
Proof.
  intros Hq. unfold msgServer_RemoveAuthenticator. intros (s0&w1&[-> <-]%gets_Ok&E)%bind_Ok.
  apply bind_Ok in E as ([]&w1&[Hact <-]%ensureM_Ok&E). apply bind_Ok in E as (acc&w1&[Hacc <-]%lift_Ok&E).
  unfold RemoveAuthenticator in E. apply bind_Ok in E as (s0&w1&[-> <-]%gets_Ok&E). split; [done|].
  destruct (sa_auths (sa (store w)) !! KeyAccountId acc i) as [e|] eqn:He; [|done].
  destruct (GetAuthenticatorByType am (AuthType e)) as [impl|]; [|done]. exists acc, e. split_and!; [done|done|].
  apply bind_Ok in E as ([]&w1&E1&E).
  pose proof (on_removed_keeps (enough (AuthConfig e)) acc impl (AuthConfig e) (itoa i) Hq w) as Hk.
  rewrite E1 in Hk. cbn in Hk. apply modify_Ok in E as ->. cbn. rewrite sa_set. by rewrite Hk.
Qed.

Lemma set_active_inv s a (w w' : W) :
  msgServer_SetActiveState CircuitBreakerGovernor s a w = (Ok tt, w') ->
  let ps := GetParams (sa (store w)) in
  exists acc, AccAddressFromBech32 s = Ok acc /\
    (if a then acc = CircuitBreakerGovernor else AccAddress_String acc ∈ CircuitBreakerControllers ps) /\
    sa (store w') = mkSaStore (Some (mkParams (MaximumUnauthenticatedGas ps) a (CircuitBreakerControllers ps)))
      (sa_next (sa (store w))) (sa_auths (sa (store w))).
Proof.
  unfold msgServer_SetActiveState. intros (acc&w1&[Hs <-]%lift_Ok&E)%bind_Ok.
  apply bind_Ok in E as (s0&w1&[-> <-]%gets_Ok&E). apply bind_Ok in E as ([]&w1&Hauth&E).
  exists acc. split; [unfold getSender in Hs; destruct (AccAddressFromBech32 s); congruence|].
  assert (w = w1 /\ if a then acc = CircuitBreakerGovernor
    else AccAddress_String acc ∈ CircuitBreakerControllers (GetParams (sa (store w)))) as [<- Hau].
  { destruct a; apply ensureM_Ok in Hauth as [Hb <-]; (split; [done|]).
    - by apply String.eqb_eq.
    - apply existsb_exists in Hb as (c&Hin&->%String.eqb_eq). by apply list_elem_of_In. }
  split; [done|]. apply bind_Ok in E as ([]&w1&E1&E). apply modify_Ok in E as ->. cbn.
  unfold SetActiveState in E1. apply bind_Ok in E1 as (s0&w2&[-> <-]%gets_Ok&E1). unfold SetParams in E1.
  destruct (Params_Validate _); [|done..]. apply modify_Ok in E1 as ->. cbn. by rewrite sa_set.
Qed.

(** Where contracts do not call back, a message changes authenticators of its sender
    only.  Adding and
    removing need the module to be active and leave the parameters alone;
    switching the module on is reserved to the governor and switching it off to
    the listed controllers, and changes only the switch. *)
Theorem messages_confined m (w w' : W) : contracts_quiet -> handle m w = (Ok tt, w') ->
  let s := sa (store w) in let s' := sa (store w') in
  exists acc, AccAddressFromBech32 (msg_sender m) = Ok acc /\
    (forall b id, b <> ""%string -> b <> acc -> sa_auths s' !! KeyAccountId b id = sa_auths s !! KeyAccountId b id) /\
    match m with
    | MsgSetActiveState _ active =>
        (if active then acc = CircuitBreakerGovernor
         else AccAddress_String acc ∈ CircuitBreakerControllers (GetParams s)) /\
        GetParams s' = mkParams (MaximumUnauthenticatedGas (GetParams s)) active (CircuitBreakerControllers (GetParams s))
    | _ => GetIsSmartAccountActive s = true /\ GetParams s' = GetParams s
    end.
Proof.
  intros Hq. destruct m as [t ty d|t i|t a]; cbn [handle msg_sender]; intros E.
  - apply add_msg_inv in E as (Hact&acc&id&w1&Hacc&(_&_&Hs)%add_ok_inv&Hs'); [|done..].
    exists acc. split; [done|]. rewrite Hs', Hs. split; [|done]. intros b j Hb Hne. cbn.
    apply lookup_insert_ne. intros Hk. apply KeyAccountId_inj in Hk as [-> _]; try done.
    by eapply bech32_nonempty.
  - apply remove_msg_inv in E as (Hact&acc&e&Hacc&_&Hs); [|done]. exists acc. split; [done|]. rewrite Hs.
    split; [|done]. intros b j Hb Hne. cbn. apply lookup_delete_ne. intros Hk.
    apply KeyAccountId_inj in Hk as [-> _]; try done. by eapply bech32_nonempty.
  - apply set_active_inv in E as (acc&Hacc&Hau&Hs). exists acc. split; [done|]. by rewrite Hs.
Qed.

(** ** Reachable states *)

(** What messages do to the store of the module, [n] authenticators having been added.
    A message that adds one reads the next id, calls contracts, which may change the
    store in turn, and then writes. *)
Inductive sa_change : nat -> SaStore -> SaStore -> Prop :=
| change_none s : sa_change 0 s s
| change_trans n m s1 s2 s3 : sa_change n s1 s2 -> sa_change m s2 s3 -> sa_change (n + m) s1 s3
| change_next s : sa_change 0 s (with_next s)
| change_add n s s1 account ty config : account <> ""%string -> sa_change n (with_next s) s1 ->
    sa_change (Datatypes.S n) s (mkSaStore (sa_params s1) (Some (u64 (next_id s + 1)))
      (<[KeyAccountId account (next_id s) := mkAccountAuthenticator (next_id s) ty config]> (sa_auths s1)))
| change_remove s key : sa_change 0 s (mkSaStore (sa_params s) (sa_next s) (delete key (sa_auths s)))
| change_params s ps : sa_change 0 s (mkSaStore ps (sa_next s) (sa_auths s)).

(** Documented of contracts: they reach the store of this module only by its
    messages.  [reentrant] says whether they may add authenticators. *)
Class ContractsReach (reentrant : bool) : Prop := sudo_changes c bz (w : W) :
  exists n, sa_change n (sa (store w)) (sa (store (Sudo c bz w).2)) /\ (reentrant = false -> n = 0%nat).

Section Changes.
Context (reentrant : bool) `{!ContractsReach reentrant}.

(** [m] adds at most [j] authenticators, not counting those contracts add. *)
Definition changes {A} (j : nat) (m : M W A) : Prop := forall w,
  exists n, sa_change n (sa (store w)) (sa (store (m w).2)) /\ (reentrant = false -> (n <= j)%nat).

Lemma keeps_changes {A} j (m : M W A) : keeps m -> changes j m.
Proof. intros Hm w. exists 0%nat. rewrite Hm. split; [constructor|lia]. Qed.

Lemma changes_bind {A C} i j (m : M W A) (f : A -> M W C) : changes i m -> (forall a, changes j (f a)) -> changes (i + j) (m ≫= f).
Proof.
  intros Hm Hf w. destruct (Hm w) as (n&Hn&Hi). unfold mbind, M_bind.
  destruct (m w) as [[a|e|p] w1]; [|exists n; split; [done|intros ?%Hi; lia]..].
  destruct (Hf a w1) as (n'&Hn'&Hj). exists (n + n')%nat. split; [by eapply change_trans|].
  intros Hr. specialize (Hi Hr). specialize (Hj Hr). lia.
Qed.

(** Reading before a part that changes the store. *)
Lemma changes_after {A C} j (m : M W A) (f : A -> M W C) : keeps m -> (forall a, changes j (f a)) -> changes j (m ≫= f).
Proof. intros Hm. apply (changes_bind 0). by apply keeps_changes. Qed.

Lemma changes_forMi {A} i (l : list A) f : (forall i x, changes 0 (f i x)) -> changes 0 (forMi i l f).
Proof.
  intros Hf. revert i. induction l as [|x l IH]; intros i; cbn [forMi]; [by apply keeps_changes|].
  apply (changes_bind 0 0); [apply Hf|]. intros _. apply IH.
Qed.

Lemma changes_sudo c msg : changes 0 (sudo_call c msg).
Proof.
  apply changes_after; [done|]. intros bz. apply (changes_bind 0 0); [|intros _; by apply keeps_changes].
  intros w. destruct (sudo_changes c bz w) as (n&Hn&Hz). exists n. split; [done|]. intros ->%Hz. done.
Qed.

Lemma on_added_changes n account a config id : changes 0 (OnAuthenticatorAdded n am account a config id).
Proof.
  revert a config id. induction n as [|n IH]; intros a config id; [by apply keeps_changes|]. cbn.
  assert (Hs : changes 0 (onSubAuthenticatorsAdded (OnAuthenticatorAdded n am account) config id am)).
  { do 2 (apply changes_after; [done|]; intros ?).
    apply changes_forMi. intros i d. destruct (GetAuthenticatorByType am (InitType d)); [apply IH|by apply keeps_changes]. }
  destruct a; try done; try (by apply keeps_changes);
    (apply changes_after; [done|]; intros; first [apply changes_sudo|by apply keeps_changes]).
Qed.

Lemma on_removed_changes n account a config id : changes 0 (OnAuthenticatorRemoved n am account a config id).
Proof.
  revert a config id. induction n as [|n IH]; intros a config id; [by apply keeps_changes|]. cbn.
  assert (Hs : changes 0 (onSubAuthenticatorsRemoved (OnAuthenticatorRemoved n am account) config id am)).
  { apply changes_after; [done|]. intros l.
    apply changes_forMi. intros i d. destruct (GetAuthenticatorByType am (InitType d)); [apply IH|by apply keeps_changes]. }
  destruct a; try done; try (by apply keeps_changes); (apply changes_after; [done|]; intros; apply changes_sudo).
Qed.

Lemma add_changes account ty config : account <> ""%string -> changes 1 (AddAuthenticator am account ty config).
Proof.
  intros Ha w. unfold AddAuthenticator. destruct (GetAuthenticatorByType am ty) as [impl|]; [|by apply keeps_changes].
  destruct (init_next_spec w) as (w1&E1&Hs1). unfold mbind at 1, M_bind at 1. rewrite E1.
  destruct (on_added_changes (enough config) account impl config (itoa (next_id (sa (store w)))) w1) as (n&Hn&Hj).
  rewrite Hs1 in Hn. unfold mbind at 1, M_bind at 1.
  destruct (OnAuthenticatorAdded _ _ _ _ _ _ w1) as [[[]|e|p] w2]; cbn [snd] in Hn.
  - exists (Datatypes.S n). split; [|intros ?%Hj; lia].
    unfold SetNextAuthenticatorId, set_auths, upd, mbind, M_bind, modify, mret, M_ret. cbn.
    rewrite !sa_set. cbn. by apply change_add.
  - exists (0 + n)%nat. split; [eapply change_trans; [apply change_next|done]|intros ?%Hj; lia].
  - exists (0 + n)%nat. split; [eapply change_trans; [apply change_next|done]|intros ?%Hj; lia].
Qed.

Lemma remove_changes account id : changes 0 (RemoveAuthenticator am account id).
Proof.
  unfold RemoveAuthenticator. apply changes_after; [done|]. intros s.
  destruct (sa_auths s !! _) as [e|]; [|by apply keeps_changes].
  destruct (GetAuthenticatorByType am (AuthType e)) as [impl|]; [|by apply keeps_changes].
  apply (changes_bind 0 0); [apply on_removed_changes|]. intros _ w. exists 0%nat. cbn. rewrite sa_set.
  split; [apply change_remove|done].
Qed.

(** A message changes the store as described, whatever its result. *)
Lemma handle_changes m : changes 1 (handle m).
Proof.
  destruct m as [t ty d|t i|t a]; cbn [handle].
  - unfold msgServer_AddAuthenticator. do 2 (apply changes_after; [done|]; intros ?).
    intros w. unfold mbind at 1, M_bind at 1, lift.
    destruct (AccAddressFromBech32 t) as [acc|e|p] eqn:Ea; [|exists 0%nat; split; [constructor|lia]..].
    apply (changes_bind 1 0); [apply add_changes; by eapply bech32_nonempty|]. intros id. by apply keeps_changes.
  - unfold msgServer_RemoveAuthenticator. apply (changes_bind 1 0); [by apply keeps_changes|]. intros ?.
    do 2 (apply changes_after; [done|]; intros ?). apply remove_changes.
  - unfold msgServer_SetActiveState. do 2 (apply changes_after; [done|]; intros ?).
    apply changes_after; [by destruct a|]. intros _. apply (changes_bind 1 0); [|intros _; by apply keeps_changes].
    unfold SetActiveState. apply changes_after; [done|]. intros s. unfold SetParams.
    destruct (Params_Validate _); [|by apply keeps_changes..]. intros w. exists 0%nat. cbn. rewrite sa_set.
    split; [apply change_params|lia].
Qed.

End Changes.

(** Every entry is stored under its account and its own id. *)
Definition keyed (s : SaStore) : Prop :=
  is_u64 (next_id s) /\ forall k e, sa_auths s !! k = Some e ->
    exists account, account <> ""%string /\ k = KeyAccountId account (AuthId e) /\ is_u64 (AuthId e).

Lemma change_keyed n s s' : sa_change n s s' -> keyed s -> keyed s'.
Proof.
  induction 1 as [| |s|n s s1 account ty config Ha _ IH| |]; [by auto|by auto|..]; intros [Hn Hk].
  - by split.
  - destruct (IH (conj Hn Hk)) as [_ Hk1]. split; [apply u64_range|]. intros k e. cbn. rewrite lookup_insert_Some.
    intros [[<- <-]|[_ He]]; [by exists account|by apply Hk1].
  - split; [done|]. cbn. intros k e [_ He]%lookup_delete_Some. by apply Hk.
  - by split.
Qed.

(** A single addition, not nested in another, gives out the next id. *)
Lemma change_ok n s s' : sa_change n s s' -> (n <= 1)%nat -> sa_ok s -> next_id s + Z.of_nat n < 2 ^ 64 ->
  sa_ok s' /\ next_id s' = next_id s + Z.of_nat n.
Proof.
  induction 1 as [s|n m s1 s2 s3 _ IH1 _ IH2|s|n s s1 account ty config Ha _ IH|s key|s ps]; intros Hle Hok Hmax.
  - split; [done|lia].
  - destruct IH1 as [Hok2 Hn2]; [lia|done|lia|]. destruct IH2 as [Hok3 Hn3]; [lia|done|lia|]. split; [done|lia].
  - split; [by apply sa_ok_with_next|]. change (next_id (with_next s)) with (next_id s). lia.
  - assert (n = 0)%nat as -> by lia. destruct IH as [Hok1 Hn1]; [lia|by apply sa_ok_with_next| |];
      change (next_id (with_next s)) with (next_id s) in *; [lia|].
    assert (next_id s = next_id s1) as -> by lia. split; [apply sa_ok_insert; [done|done|lia]|]. unfold next_id at 1. cbn.
    pose proof (ok_next _ Hok1). rewrite u64_small by (unfold is_u64; lia). lia.
  - destruct Hok as [He Hu Hn]. split; [|unfold next_id; cbn; lia]. split; [..|done]; cbn.
    + intros k e' [_ Hk]%lookup_delete_Some. by apply He.
    + intros k k' e1 e2 [_ Hk]%lookup_delete_Some [_ Hk']%lookup_delete_Some. by eapply Hu.
  - destruct Hok. split; [by split|unfold next_id; cbn; lia].
Qed.

(** One message, whatever its result. *)
Definition sa_step (w w' : W) : Prop := exists m r, handle m w = (r, w').

(** C11: in every state reached by any sequence of messages, failing ones included,
    each authenticator is stored under its own account and id, whatever contracts
    the authenticators call and however these call back.  If, moreover, the contracts
    do not add authenticators in turn, then no two authenticators share an id, all ids
    are below the next one, and the next id never falls and grows by at most one with
    a message, so that a removed id is never given out again until all 2^64 are used. *)
Theorem numbering_invariant reentrant `{!ContractsReach reentrant} n (w w' : W) : nsteps sa_step n w w' ->
  (keyed (sa (store w)) -> keyed (sa (store w'))) /\
  (reentrant = false -> sa_ok (sa (store w)) -> next_id (sa (store w)) + Z.of_nat n < 2 ^ 64 ->
     sa_ok (sa (store w')) /\
     next_id (sa (store w)) <= next_id (sa (store w')) <= next_id (sa (store w)) + Z.of_nat n).
Proof.
  induction 1 as [w|n w w1 w2 (m&r&E) _ [IHk IHo]]; [split; [done|intros; split; [done|lia]]|].
  destruct (handle_changes reentrant m w) as (j&Hj&Hle). rewrite E in Hj. cbn [snd] in Hj.
  split; [intros Hk; by eapply IHk, change_keyed|]. intros Hr Hok Hmax.
  destruct (change_ok j _ _ Hj (Hle Hr) Hok) as [Hok1 Hn1]; [specialize (Hle Hr); lia|].
  destruct (IHo Hr Hok1) as [? ?]; [specialize (Hle Hr); lia|]. split; [done|]. specialize (Hle Hr). lia.
Qed.

(** ** Genesis *)

(** The exported entries with the address of their group. *)
Definition flatten (g : list AuthenticatorData) : list (string * AccountAuthenticator) :=
  concat (map (fun d => map (pair (Address d)) (Authenticators d)) g).

Lemma flatten_app g h : flatten (g ++ h) = flatten g ++ flatten h.
Proof. unfold flatten. by rewrite map_app, concat_app. Qed.

Lemma flatten_one a l : flatten [mkAuthenticatorData a l] = map (pair a) l.
Proof. unfold flatten. cbn. apply app_nil_r. Qed.

Lemma group_entry_flatten acc addr a : flatten (group_entry acc addr a) = flatten acc ++ [(addr, a)].
Proof.
  unfold group_entry. destruct acc as [|g acc _] using rev_ind; [done|].
  rewrite last_snoc, removelast_last.
  destruct (String.eqb_spec (Address g) addr) as [<-|]; rewrite !flatten_app, ?flatten_one; [|done].
  destruct g as [ad l]. by rewrite flatten_one, map_app, <- app_assoc.
Qed.

(** The address in the key of an exported entry. *)
Definition entry_addr (key : string) : string :=
  match key_account (KeyAccountAuthenticatorsPrefixId ++ key) with Ok a => a | _ => ""%string end.

Lemma group_entries_flatten l acc :
  Forall (fun ka => is_ok (key_account (KeyAccountAuthenticatorsPrefixId ++ ka.1)) = true) l ->
  exists g, group_entries acc l = Ok g /\ flatten g = flatten acc ++ map (fun ka => (entry_addr ka.1, ka.2)) l.
Proof.
  revert acc. induction l as [|[k a] l IH]; intros acc HF.
  { exists acc. cbn. by rewrite app_nil_r. }
  inversion HF as [|? ? Hk HF']; subst. cbn [group_entries fst snd map] in *.
  unfold entry_addr at 1. destruct (key_account _) as [addr| |]; [|done..]. cbn [mbind res_bind].
  destruct (IH (group_entry acc addr a) HF') as (g&E&Hf). exists g. split; [exact E|].
  by rewrite Hf, group_entry_flatten, <- app_assoc.
Qed.

(** The entry can be imported for the account. *)
Definition importable (account : string) (a : AccountAuthenticator) : Prop :=
  exists impl, GetAuthenticatorByType am (AuthType a) = Some impl /\ forall w : W,
    is_ok (OnAuthenticatorAdded (enough (AuthConfig a)) am account impl (AuthConfig a) (itoa (AuthId a)) w).1 = true.

Definition entry_key (addr : string) (a : AccountAuthenticator) : string :=
  match AccAddressFromBech32 addr with Ok acc => KeyAccountId acc (AuthId a) | _ => ""%string end.

Definition insert_all (l : list (string * AccountAuthenticator)) (m : gmap string AccountAuthenticator) :
    gmap string AccountAuthenticator := fold_left (fun m kv => <[kv.1 := kv.2]> m) l m.

Lemma add_with_id account a (w : W) : importable account a -> exists w',
  AddAuthenticatorWithId am account (AuthType a) (AuthConfig a) (AuthId a) w = (Ok tt, w') /\
  sa (store w') = mkSaStore (sa_params (sa (store w))) (sa_next (sa (store w)))
    (<[KeyAccountId account (AuthId a) := a]> (sa_auths (sa (store w)))).
Proof.
  intros (impl&Hi&Hok). unfold AddAuthenticatorWithId. rewrite Hi. specialize (Hok (set_evs [] w)).
  unfold mbind, M_bind, neverWrite. destruct (OnAuthenticatorAdded _ _ _ _ _ _ _) as [[[]| |] w1]; try done.
  eexists. split; [done|]. cbn. rewrite sa_set. by destruct a.
Qed.

Lemma import_group account l (w : W) : Forall (importable account) l -> exists w',
  forM l (fun a => or_panic (AddAuthenticatorWithId am account (AuthType a) (AuthConfig a) (AuthId a))) w = (Ok tt, w') /\
  sa (store w') = mkSaStore (sa_params (sa (store w))) (sa_next (sa (store w)))
    (insert_all (map (fun a => (KeyAccountId account (AuthId a), a)) l) (sa_auths (sa (store w)))).
Proof.
  intros HF. revert w. induction HF as [|a l Ha _ IH]; intros w.
  { exists w. split; [done|]. cbn. by destruct (sa (store w)). }
  destruct (add_with_id account a w Ha) as (w1&E1&Hw1). destruct (IH w1) as (w2&E2&Hw2).
  exists w2. cbn [forM]. unfold mbind, M_bind, or_panic at 1. rewrite E1. split; [exact E2|].
  rewrite Hw2, Hw1. done.
Qed.

Lemma import_groups g (w : W) :
  Forall (fun d => exists acc, AccAddressFromBech32 (Address d) = Ok acc /\ Forall (importable acc) (Authenticators d)) g ->
  exists w', forM g (fun data =>
    accAddr ← or_panic (lift (AccAddressFromBech32 (Address data)));
    forM (Authenticators data) (fun a =>
      or_panic (AddAuthenticatorWithId am accAddr (AuthType a) (AuthConfig a) (AuthId a)))) w = (Ok tt, w') /\
  sa (store w') = mkSaStore (sa_params (sa (store w))) (sa_next (sa (store w)))
    (insert_all (map (fun aa => (entry_key aa.1 aa.2, aa.2)) (flatten g)) (sa_auths (sa (store w)))).
Proof.
  intros HF. revert w. induction HF as [|[addr l] g (acc&Hacc&Hl) _ IH]; intros w.
  { exists w. split; [done|]. cbn. by destruct (sa (store w)). }
  cbn in Hacc, Hl. destruct (import_group acc l w Hl) as (w1&E1&Hw1). destruct (IH w1) as (w2&E2&Hw2).
  exists w2. cbn [forM Address Authenticators]. unfold mbind at 1, M_bind at 1.
  unfold mbind at 1, M_bind at 1, or_panic at 1, lift at 1. rewrite Hacc, E1. split; [exact E2|].
  rewrite Hw2, Hw1. cbn [sa_params sa_next sa_auths]. change (flatten (?d :: g)) with (flatten ([d] ++ g)).
  rewrite flatten_app, flatten_one, map_app. unfold insert_all. rewrite fold_left_app. f_equal. f_equal. f_equal.
  rewrite map_map. apply map_ext. intros a. cbn. unfold entry_key. by rewrite Hacc.
Qed.

Lemma insert_all_lookup l m k e : NoDup (map fst l) ->
  insert_all l m !! k = Some e <-> (k, e) ∈ l \/ ((k ∉ map fst l) /\ m !! k = Some e).
Proof.
  revert m. induction l as [|[k' e'] l IH]; intros m Hnd; cbn; [set_solver|].
  apply NoDup_cons in Hnd as [Hk Hnd]. unfold insert_all in IH. rewrite IH by done.
  rewrite lookup_insert_Some, !elem_of_cons.
  assert ((k', e) ∉ l) as Hn. { intros Hin. apply Hk. apply list_elem_of_fmap. by exists (k', e). }
  destruct (decide (k = k')) as [->|]; naive_solver.
Qed.

Lemma group_entries_nonempty l acc g : group_entries acc l = Ok g ->
  Forall (fun d => Authenticators d <> []) acc -> Forall (fun d => Authenticators d <> []) g.
Proof.
  revert acc. induction l as [|[k a] l IH]; intros acc; cbn; [by intros [= <-]|].
  destruct (key_account _) as [addr| |]; [|done..]. cbn. intros Hg Hacc. eapply IH; [exact Hg|].
  unfold group_entry. destruct acc as [|d acc _] using rev_ind; [by repeat constructor|].
  rewrite last_snoc, removelast_last. apply Forall_app in Hacc as [Ha Hd].
  destruct (String.eqb (Address d) addr); repeat (apply Forall_app; split); repeat constructor; try done.
  - cbn. by destruct (Authenticators d).
  - by inversion Hd.
Qed.

Lemma elem_of_flatten g addr a : (addr, a) ∈ flatten g <->
  exists d, d ∈ g /\ Address d = addr /\ a ∈ Authenticators d.
Proof.
  unfold flatten. rewrite list_elem_of_In, in_concat. setoid_rewrite <- list_elem_of_In.
  setoid_rewrite list_elem_of_fmap. split.
  - intros (l&(d&->&Hd)&Hin). apply list_elem_of_fmap in Hin as (x&[= -> ->]&Hx). eauto.
  - intros (d&Hd&<-&Ha). eexists. split; [by exists d|]. apply list_elem_of_fmap. eauto.
Qed.

(** What an exported entry looks like. *)
Lemma exported_entry s k e : sa_ok s -> (k, e) ∈ iter_prefix KeyAccountAuthenticatorsPrefixId (sa_auths s) ->
  exists acc, acc <> ""%string /\ entry_addr k = AccAddress_String acc /\
    (KeyAccountAuthenticatorsPrefixId ++ k)%string = KeyAccountId acc (AuthId e) /\
    is_ok (key_account (KeyAccountAuthenticatorsPrefixId ++ k)) = true.
Proof.
  intros Hok Hin. apply elem_of_iter_prefix in Hin. destruct (ok_entry _ Hok _ _ Hin) as (acc&Ha&Hk&_).
  assert (key_account (KeyAccountAuthenticatorsPrefixId ++ k) = Ok (AccAddress_String acc)) as E.
  { rewrite Hk, key_account_id_eq. apply key_account_of. }
  exists acc. split_and!; [done| |done|by rewrite E]. unfold entry_addr. by rewrite E.
Qed.

Lemma export_entries s : sa_ok s -> exists g, GetAllAuthenticatorData s = Ok g /\
  Forall (fun d => Authenticators d <> []) g /\
  flatten g = map (fun ka => (entry_addr ka.1, ka.2)) (iter_prefix KeyAccountAuthenticatorsPrefixId (sa_auths s)).
Proof.
  intros Hok. destruct (group_entries_flatten (iter_prefix KeyAccountAuthenticatorsPrefixId (sa_auths s)) [])
    as (g&Eg&Hf).
  { apply Forall_forall. intros [k e] Hin. by destruct (exported_entry s k e Hok Hin) as (?&?&?&?&?). }
  exists g. split_and!; [exact Eg| |done]. by eapply group_entries_nonempty.
Qed.

Lemma insert_exported s : sa_ok s ->
  insert_all (map (fun aa => (entry_key aa.1 aa.2, aa.2))
    (map (fun ka => (entry_addr ka.1, ka.2)) (iter_prefix KeyAccountAuthenticatorsPrefixId (sa_auths s)))) ∅ = sa_auths s.
Proof.
  intros Hok. set (l := iter_prefix _ _).
  assert (E : map (fun aa => (entry_key aa.1 aa.2, aa.2)) (map (fun ka => (entry_addr ka.1, ka.2)) l) =
    map (fun ka => ((KeyAccountAuthenticatorsPrefixId ++ ka.1)%string, ka.2)) l).
  { rewrite map_map. apply map_ext_in. intros [k e] Hin%list_elem_of_In. cbn.
    destruct (exported_entry s k e Hok Hin) as (acc&Ha&->&->&_). unfold entry_key.
    by rewrite bech32_roundtrip. }
  rewrite E. apply map_eq. intros k. apply option_eq. intros e. rewrite insert_all_lookup.
  - split.
    + intros [([k' e']&[= -> ->]&Hin)%list_elem_of_fmap|[_ ?]]; [|done]. by apply elem_of_iter_prefix in Hin.
    + intros Hk. left. destruct (ok_entry _ Hok _ _ Hk) as (acc&_&Hacc&_).
      rewrite key_account_id_eq in Hacc. apply list_elem_of_fmap. eexists (_, e). cbn.
      split; [by rewrite Hacc|]. apply elem_of_iter_prefix. by rewrite <- Hacc.
  - rewrite map_map. cbn. rewrite <- (map_map fst (fun k => (KeyAccountAuthenticatorsPrefixId ++ k)%string)).
    apply NoDup_fmap_2; [|apply iter_prefix_keys_nodup]. intros x y. apply string_app_inv_l.
Qed.

(** Exporting the module's state and importing it into an empty store gives
    back every authenticator under the same account and id, the next id and the
    parameters, provided the authenticators still accept their configuration. *)
Theorem sa_genesis_roundtrip (w w2 : W) : let s := sa (store w) in
  sa_ok s -> Params_Validate (GetParams s) = Ok tt -> sa_auths (sa (store w2)) = ∅ ->
  (forall acc e, acc <> ""%string -> sa_auths s !! KeyAccountId acc (AuthId e) = Some e -> importable acc e) ->
  exists g w1 w2', ExportGenesis w = (Ok g, w1) /\ InitGenesis am g w2 = (Ok tt, w2') /\
    sa_auths (sa (store w2')) = sa_auths s /\ next_id (sa (store w2')) = next_id s /\
    GetParams (sa (store w2')) = GetParams s.
Proof.
  intros s Hok Hps Hempty Himp. destruct (export_entries s Hok) as (g&Eg&Hne&Hf).
  destruct (init_next_spec w) as (w1&E1&Hs1). exists (mkGenesis (GetParams s) (next_id s) g), w1.
  set (w3 := set_store (set_sa (mkSaStore (Some (GetParams s)) (Some (next_id s)) ∅) (store w2)) w2).
  destruct (import_groups g w3) as (w2'&E2&Hs2).
  { apply Forall_forall. intros d Hd. rewrite Forall_forall in Hne. specialize (Hne d Hd).
    assert (Hdec : forall a, a ∈ Authenticators d -> exists acc, acc <> ""%string /\
      Address d = AccAddress_String acc /\ importable acc a).
    { intros a Ha. assert ((Address d, a) ∈ flatten g) as Hin by (apply elem_of_flatten; eauto).
      rewrite Hf in Hin. apply list_elem_of_fmap in Hin as ([k e]&[= E ->]&Hin).
      destruct (exported_entry s k e Hok Hin) as (acc&?&?&Hk&_). exists acc. split_and!; [done|congruence|].
      apply Himp; [done|]. rewrite <- Hk. by apply elem_of_iter_prefix in Hin. }
    destruct (Authenticators d) as [|a0 l] eqn:El; [done|].
    destruct (Hdec a0) as (acc&Ha&Had&_); [by left|]. exists acc.
    split; [by rewrite Had, bech32_roundtrip|]. apply Forall_forall. intros a Hin.
    destruct (Hdec a Hin) as (acc'&?&Had'&?). assert (acc' = acc) as ->; [|done].
    apply address_text_inj; congruence. }
  exists w2'. split_and!.
  - unfold ExportGenesis, mbind, M_bind, gets. rewrite E1, Hs1.
    change (GetAllAuthenticatorData (with_next (sa (store w)))) with (GetAllAuthenticatorData s).
    unfold or_panic, lift. by rewrite Eg.
  - unfold InitGenesis. cbn [GParams NextAuthenticatorId GAuthenticatorData].
    unfold SetParams. rewrite Hps. pose proof (ok_next _ Hok).
    destruct (Z.eqb_spec (next_id s) 0); [lia|]. unfold SetNextAuthenticatorId, upd.
    unfold mbind at 1 2, M_bind at 1 2, modify at 1 2. cbn [store set_store meter evs].
    rewrite sa_set, set_sa_set. cbn [sa_params sa_auths]. rewrite Hempty. exact E2.
  - rewrite Hs2. cbn [sa_auths]. unfold w3. cbn. rewrite sa_set, Hf. by apply insert_exported.
  - rewrite Hs2. unfold w3. cbn. by rewrite sa_set.
  - rewrite Hs2. unfold w3, GetParams at 1. cbn. by rewrite sa_set.
Qed.

End KeeperProofs.

(** ** Witnesses *)

(** Addresses written in hexadecimal. *)
Module HexAddr.
Local Open Scope string_scope.

#[export] Instance hex_bech32 : Bech32 := {|
  AccAddressFromBech32 s :=
    match hex_decode s with
    | Ok a => if bool_decide (a = "") then Err "empty address" else Ok a
    | Err e => Err e
    | Panic p => Err p
    end;
  AccAddress_String := hex_encode |}.

#[export] Instance hex_bech32_laws : Bech32Laws.
Proof.
  split; cbn.
  - intros a Ha. by rewrite hex_decode_encode, bool_decide_false.
  - intros s a. destruct (hex_decode s); try done. case_bool_decide; [done|]. by intros [= <-].
  - reflexivity.
  - intros s p. destruct (hex_decode s); try done. by case_bool_decide.
Qed.

Lemma hex_digit_no_bar n : (n < 16)%N -> Ascii.eqb (hex_digit n) "|" = false.
Proof.
  intros Hn%from_hex_digit. destruct (Ascii.eqb_spec (hex_digit n) "|") as [E|]; [|done].
  by rewrite E in Hn.
Qed.

#[export] Instance hex_text : Bech32Text.
Proof.
  intros a. cbn [AccAddress_String hex_bech32]. induction a as [|c a IH]; [done|].
  cbn [hex_encode contains_char]. pose proof (N_ascii_bounded c).
  rewrite !hex_digit_no_bar, IH; [done|..].
  - by apply N.mod_upper_bound.
  - apply N.Div0.div_lt_upper_bound. lia.
Qed.

End HexAddr.

Module KeeperWitness.
Import Ref RefLaws AuthRef HexAddr.
Local Open Scope string_scope.

#[local] Instance has_sa : HasSa SaStore := {| sa s := s; set_sa x _ := x |}.
#[local] Instance has_sa_laws : HasSaLaws SaStore.
Proof. split; done. Qed.

(** Contracts that do nothing. *)
Definition quiet_host : SaHost SaStore meter := {|
  Resolve t := Ok t; UnmarshalProto _ v := Ok v; MarshalInterfaceJSON m := Ok m;
  VerifySignature pk _ sig := String.eqb pk sig; SigVerifyCostSecp256k1 _ := 1000%Z;
  Sudo _ _ := mret ""; verifier := None; GlobalPathAVerifier := None |}.
#[local] Existing Instance quiet_host.

Abbreviation W := (World SaStore meter).

Definition key1 : string := "a23456789012345678901234567890123".
Definition am1 : AuthenticatorManager :=
  RegisterAuthenticator (CosmwasmAuthenticator "" "")
    (InitializeAuthenticators [SignatureVerification None; AllOf Single []] NewAuthenticatorManager).
Definition alice : string := "alice".
Definition entry1 : AccountAuthenticator := mkAccountAuthenticator 1 "SignatureVerification" key1.
Definition params1 : Params := mkParams 1000 true [AccAddress_String "carol"].
Definition empty_w : W := mkWorld (mkSaStore None None ∅) (mkMeter 0 100000) [].
Definition w1 : W :=
  mkWorld (mkSaStore (Some params1) (Some 2) {[KeyAccountId alice 1 := entry1]}) (mkMeter 0 100000) [].

Lemma quiet : contracts_quiet.
Proof. done. Qed.

Lemma w1_ok : sa_ok (sa (store w1)).
Proof.
  split; cbn.
  - intros k e [<- <-]%lookup_singleton_Some. exists alice. split_and!; try done; lia.
  - intros k k' e e' [<- _]%lookup_singleton_Some [<- _]%lookup_singleton_Some. done.
  - unfold next_id. cbn. lia.
Qed.

Lemma add_authenticator_fresh_witness : exists r w',
  AddAuthenticator am1 "bob" "SignatureVerification" key1 w1 = (r, w') /\ r = Ok 2 /\ sa_ok (sa (store w')).
Proof.
  destruct (AddAuthenticator am1 "bob" "SignatureVerification" key1 w1) as [r w'] eqn:E.
  exists r, w'. split; [reflexivity|]. split.
  - apply (f_equal fst) in E. vm_compute in E. symmetry. exact E.
  - exact (proj1 (add_authenticator_fresh am1 "bob" "SignatureVerification" key1 w1 r w' quiet ltac:(discriminate) w1_ok
      ltac:(vm_compute; reflexivity) E)).
Defined.

Lemma messages_confined_witness : exists w',
  handle alice am1 (MsgSetActiveState (AccAddress_String "carol") false) w1 = (Ok tt, w') /\
  IsSmartAccountActive (GetParams (sa (store w'))) = false.
Proof.
  destruct (handle alice am1 (MsgSetActiveState (AccAddress_String "carol") false) w1) as [r w'] eqn:E.
  assert (r = Ok tt) as -> by (apply (f_equal fst) in E; vm_compute in E; symmetry; exact E).
  exists w'. split; [reflexivity|].
  destruct (messages_confined alice am1 (MsgSetActiveState (AccAddress_String "carol") false) w1 w' quiet E)
    as (acc&_&_&_&->). reflexivity.
Defined.

Lemma sa_genesis_roundtrip_witness : exists g v1 v2, ExportGenesis w1 = (Ok g, v1) /\
  InitGenesis am1 g empty_w = (Ok tt, v2) /\ sa_auths (sa (store v2)) = {[KeyAccountId alice 1 := entry1]}.
Proof.
  destruct (sa_genesis_roundtrip am1 w1 empty_w) as (g&v1&v2&?&?&?&_).
  - exact w1_ok.
  - reflexivity.
  - reflexivity.
  - intros acc e _ Hl. cbn [sa store w1 sa_auths has_sa] in Hl. apply lookup_singleton_Some in Hl as [_ <-]. exists (SignatureVerification None).
    split; [vm_compute; reflexivity|]. intros w. vm_compute. reflexivity.
  - exists g, v1, v2. split_and!; assumption.
Defined.

(** A contract that adds an authenticator to itself when it is asked to accept
    one for somebody else. *)
Definition reentrant_host : SaHost SaStore meter := {|
  Resolve t := Ok t; UnmarshalProto _ v := Ok v; MarshalInterfaceJSON m := Ok m;
  VerifySignature pk _ sig := String.eqb pk sig; SigVerifyCostSecp256k1 _ := 1000%Z;
  Sudo c _ := if bool_decide (c = "") then throw "no such contract" else
    AddAuthenticator am1 c "SignatureVerification" key1;; mret "";
  verifier := None; GlobalPathAVerifier := None |}.

#[local] Instance quiet_reach : ContractsReach false.
Proof. intros c bz w. exists 0%nat. split; [constructor|done]. Qed.

Lemma reentrant_reach : ContractsReach (H1 := reentrant_host) true.
Proof.
  intros c bz w. cbn [Sudo reentrant_host]. case_bool_decide as Hc; [exists 0%nat; split; [constructor|done]|].
  destruct (add_changes am1 false c "SignatureVerification" key1 Hc w) as (n&Hn&_).
  exists n. split; [|done]. unfold mbind, M_bind. by destruct (AddAuthenticator _ _ _ _ w) as [[| |] ?].
Qed.

Lemma w1_keyed : keyed (sa (store w1)).
Proof.
  split; [unfold next_id, is_u64; cbn; lia|]. cbn. intros k e [<- <-]%lookup_singleton_Some. exists alice.
  split_and!; [done..|]. unfold is_u64. cbn. lia.
Qed.

(** An authenticator is added, where the contract calls back and where it does not. *)
Definition evil_add : SaMsg := MsgAddAuthenticator (AccAddress_String alice) "CosmwasmAuthenticatorV1" (AccAddress_String "evil").

Lemma numbering_invariant_witness :
  (exists w', nsteps (sa_step (H1 := reentrant_host) alice am1) 1 w1 w' /\ keyed (sa (store w')) /\
     AuthId <$> sa_auths (store w') !! KeyAccountId "evil" 2 = Some 2) /\
  (exists w', nsteps (sa_step alice am1) 1 w1 w' /\ sa_ok (sa (store w')) /\ next_id (sa (store w')) = 3).
Proof.
  split.
  - exists (handle (H1 := reentrant_host) alice am1 evil_add w1).2.
    assert (nsteps (sa_step (H1 := reentrant_host) alice am1) 1 w1
      (handle (H1 := reentrant_host) alice am1 evil_add w1).2) as Hn.
    { apply nsteps_once. eexists evil_add, _. apply surjective_pairing. }
    split; [exact Hn|]. split; [|vm_compute; reflexivity].
    exact (proj1 (numbering_invariant (H1 := reentrant_host) alice am1 true (ContractsReach0 := reentrant_reach) 1 w1 _ Hn) w1_keyed).
  - exists (handle alice am1 evil_add w1).2.
    assert (nsteps (sa_step alice am1) 1 w1 (handle alice am1 evil_add w1).2) as Hn.
    { apply nsteps_once. eexists evil_add, _. apply surjective_pairing. }
    split; [exact Hn|].
    destruct (proj2 (numbering_invariant alice am1 false 1 w1 _ Hn) eq_refl w1_ok ltac:(vm_compute; reflexivity)) as [Hok _].
    split; [exact Hok|vm_compute; reflexivity].
Defined.

(** With contracts that add authenticators in turn, two accounts get the same id: the id is read before the contract runs and written after. *)
Lemma reentrant_add_shares_id : exists w',
  AddAuthenticator (H1 := reentrant_host) am1 alice "CosmwasmAuthenticatorV1" (AccAddress_String "evil") empty_w
    = (Ok 1, w') /\
  AuthId <$> sa_auths (store w') !! KeyAccountId alice 1 = Some 1 /\
  AuthId <$> sa_auths (store w') !! KeyAccountId "evil" 1 = Some 1.
Proof. eexists. split_and!; vm_compute; reflexivity. Qed.

(** A genesis file that passes validation can set the next id below an id in
    use, and the next authenticator then replaces that one. *)
Definition low_genesis : GenesisState :=
  mkGenesis params1 1 [mkAuthenticatorData (AccAddress_String alice) [entry1]].

Lemma low_genesis_overwrites :
  GenesisState_Validate low_genesis = Ok tt /\
  let v1 := (InitGenesis am1 low_genesis empty_w).2 in
  let v2 := (AddAuthenticator am1 alice "SignatureVerification" "b23456789012345678901234567890123" v1).2 in
  AuthConfig <$> sa_auths (store v1) !! KeyAccountId alice 1 = Some key1 /\
  AuthConfig <$> sa_auths (store v2) !! KeyAccountId alice 1 = Some "b23456789012345678901234567890123".
Proof. split; [reflexivity|]. cbv zeta. split; vm_compute; reflexivity. Qed.

End KeeperWitness.
