(* ===== verification/SaAnte.v ===== *)
(** * x/smart-account: transactions

    The authentication request built for every message, the ante handler that
    authenticates all messages and charges the fee, the post handler that
    confirms them, and the circuit breaker that chooses between the two flows. *)

From Stdlib Require Import ZArith Lia Ascii.
From stdpp Require Import base gmap strings list sorting pretty.
From S2P Require Import Prelude Sdk SdkRef Store GoLib WasmDispatch SaFilter SaAuth SaKeeper.

(** ** Transactions *)

(** [signing.SignatureData]; the other cases are nil and an unknown type. *)
Inductive SignatureDataV2 :=
| SingleSignatureData (Signature : string)
| MultiSignatureData (Signatures : list SignatureDataV2)
| NilSignatureData
| OtherSignatureData.

Record SignatureV2 := mkSignatureV2 { Data : SignatureDataV2; Sequence : Z }.

Record FeeTx := mkFeeTx { TxFeePayer : string; TxFeeGranter : string; GetFee : list Coin }.

(** [authsigning.Tx]. *)
Record SigTx := mkSigTx { GetSignaturesV2 : res (list SignatureV2); GetSigners : res (list string) }.

(** A transaction with the interfaces it implements. *)
Record Tx (Msg : Type) := mkTx {
  GetMsgs : list Msg;
  as_fee_tx : option FeeTx;
  as_extension_tx : option (list LocalAny);
  as_sig_tx : option SigTx;
  as_timeout_tx : option Z;
  as_memo_tx : option string
}.
Arguments mkTx {Msg}.
Arguments GetMsgs {Msg}.
Arguments as_fee_tx {Msg}.
Arguments as_extension_tx {Msg}.
Arguments as_sig_tx {Msg}.
Arguments as_timeout_tx {Msg}.
Arguments as_memo_tx {Msg}.

Record SignerData := mkSignerData { SdChainID : string; SdAccountNumber : Z; SdSequence : Z }.

(** The codec, the account keeper, the sign mode handler and the SDK's fee
    decorator. *)
Class SaTxHost (S G Msg : Type) := {
  MsgV1Signers : Msg -> res (list string);
  NewAnyWithValue : Msg -> res LocalAny;
  UnpackTxOptions : LocalAny -> option (list Z);
  GetAccount : S -> string -> option (Z * Z);
  GetSignBytes : SignerData -> Tx Msg -> res string;
  DeductFee : Tx Msg -> bool -> M (World S G) unit;
  MultiSignature_Marshal : list string -> res string
}.

(** A failed type assertion returns the given error. *)
Definition as_iface {A} (o : option A) (e : string) : res A :=
  match o with Some a => Ok a | None => Err e end.

(** [l[i]] on a Go slice. *)
Definition index {A} (l : list A) (i : nat) : res A :=
  match l !! i with Some a => Ok a | None => Panic "index out of range" end.

(** An error replaced by another one when it is wrapped. *)
Definition wrap_err {A} (r : res A) (e : string) : res A :=
  match r with Err _ => Err e | r => r end.

(** ** Replay protection *)

Definition SequenceMatch (txData : ExplicitTxData) (signature : SignatureV2) : res unit :=
  ensure (Sequence signature =? AccountSequence txData) "ErrInvalidSequence".

Definition NoReplayProtection (txData : ExplicitTxData) (signature : SignatureV2) : res unit := Ok tt.

(** ** Authentication requests *)

Section Request.
Context {S G Msg : Type} `{SaTxHost S G Msg}.
Variable (ctx : TxCtx).

Definition GetSignerAndSignatures (tx : Tx Msg) : res (list string * list SignatureV2) :=
  sigTx ← as_iface (as_sig_tx tx) "ErrTxDecode";
  signatures ← GetSignaturesV2 sigTx;
  signers ← GetSigners sigTx;
  ensure (length signatures =? length signers)%nat "ErrTxDecode";;
  Ok (signers, signatures).

(** Without an account the account number is only asked for outside genesis,
    on the nil account. *)
Definition getSignerData (s : S) (account : string) : res SignerData :=
  let baseAccount := GetAccount s account in
  accNum ← (if BlockHeight ctx =? 0 then Ok 0
            else match baseAccount with Some a => Ok a.1 | None => Panic "nil pointer dereference" end);
  let sequence := match baseAccount with Some a => a.2 | None => 0 end in
  Ok (mkSignerData (CtxChainID ctx) accNum sequence).

Definition extractExplicitTxData (tx : Tx Msg) (signerData : SignerData) : res ExplicitTxData :=
  timeoutHeight ← as_iface (as_timeout_tx tx) "ErrInvalidType";
  memo ← as_iface (as_memo_tx tx) "ErrInvalidType";
  msgs ← mapM NewAnyWithValue (GetMsgs tx);
  Ok (mkTxData (SdChainID signerData) (SdAccountNumber signerData) (SdSequence signerData)
        timeoutHeight msgs memo).

(** The loop from signature [i] on, with the signatures seen and the one of the
    account so far. *)
Fixpoint extract_from (txSigners : list string) (txData : ExplicitTxData) (account : string)
    (replayProtection : ExplicitTxData -> SignatureV2 -> res unit) (i : nat) (sigs : list SignatureV2)
    (signatures : list string) (msgSignature : string) : res (list string * string) :=
  match sigs with
  | [] => Ok (signatures, msgSignature)
  | signature :: sigs =>
      match Data signature with
      | SingleSignatureData single =>
          signer ← index txSigners i;
          if String.eqb signer account then
            replayProtection txData signature;;
            extract_from txSigners txData account replayProtection (Datatypes.S i) sigs (signatures ++ [single]) single
          else
            extract_from txSigners txData account replayProtection (Datatypes.S i) sigs (signatures ++ [single])
              msgSignature
      | _ => Err "ErrInvalidType"
      end
  end.

Definition extractSignatures (txSigners : list string) (txSignatures : list SignatureV2)
    (txData : ExplicitTxData) (account : string)
    (replayProtection : ExplicitTxData -> SignatureV2 -> res unit) : res (list string * string) :=
  extract_from txSigners txData account replayProtection 0 txSignatures [] "".

Definition GenerateAuthenticationRequest (s : S) (account feePayer feeGranter : string) (fee : list Coin)
    (msg : Msg) (tx : Tx Msg) (msgIndex : nat) (simulate : bool)
    (replayProtection : ExplicitTxData -> SignatureV2 -> res unit) : res AuthenticationRequest :=
  signers ← MsgV1Signers msg;
  signer ← index signers 0;
  ensure (String.eqb signer account) "ErrInvalidRequest";;
  txs ← GetSignerAndSignatures tx;
  signerData ← getSignerData s account;
  txData ← extractExplicitTxData tx signerData;
  sigs ← extractSignatures txs.1 txs.2 txData account replayProtection;
  any ← index (Msgs txData) msgIndex;
  let authRequest direct := mkRequest "" account feePayer feeGranter fee any (Z.of_nat msgIndex) sigs.2
    (mkSignMode direct "") txData (mkSigData txs.1 sigs.1) simulate "" in
  if simulate && IsCheckTx ctx then Ok (authRequest "signBytes"%string)
  else signBytes ← GetSignBytes signerData tx; Ok (authRequest signBytes).

(** ** The extension that selects authenticators *)

Fixpoint GetAuthenticatorExtension (exts : list LocalAny) : option (list Z) :=
  match exts with
  | [] => None
  | ext :: exts => match UnpackTxOptions ext with Some o => Some o | None => GetAuthenticatorExtension exts end
  end.

Definition GetSelectedAuthenticators (tx : Tx Msg) (msgCount : nat) : res (list Z) :=
  exts ← as_iface (as_extension_tx tx) "ErrTxDecode";
  selected ← as_iface (GetAuthenticatorExtension exts) "ErrInvalidRequest";
  ensure (length selected =? msgCount)%nat "ErrInvalidRequest";;
  Ok selected.

Definition IsSelectedAuthenticatorTxExtensionMissing (tx : Tx Msg) : bool * list Z :=
  match as_extension_tx tx with
  | None => (true, [])
  | Some exts =>
      match GetAuthenticatorExtension exts with
      | None => (true, [])
      | Some selected => if (length selected <? 1)%nat then (true, []) else (false, selected)
      end
  end.

Definition IsCircuitBreakActive (s : SaStore) (tx : Tx Msg) : bool * list Z :=
  if negb (GetIsSmartAccountActive s) then (true, []) else IsSelectedAuthenticatorTxExtensionMissing tx.

Definition CircuitBreaker_AnteHandle {St A} (saOf : St -> SaStore) (tx : Tx Msg)
    (authenticatorAnteHandlerFlow originalAnteHandlerFlow : M St A) : M St A :=
  s ← gets saOf;
  if (IsCircuitBreakActive s tx).1 then originalAnteHandlerFlow else authenticatorAnteHandlerFlow.

Definition ValidateAuthenticatorFeePayer (tx : Tx Msg) : res unit :=
  feeTx ← as_iface (as_fee_tx tx) "ErrTxDecode";
  match GetMsgs tx with
  | [] => Err "ErrTxDecode"
  | msg :: _ =>
      signers ← wrap_err (MsgV1Signers msg) "ErrUnauthorized";
      match signers with
      | [] => Err "ErrTxDecode"
      | signer :: _ => ensure (String.eqb (TxFeePayer feeTx) signer) "ErrUnauthorized"
      end
  end.

End Request.

(** ** base64.StdEncoding *)

Definition base64_char (n : N) : ascii :=
  ascii_of_N (if n <? 26 then 65 + n else if n <? 52 then 71 + n else if n <? 62 then n - 4
              else if n =? 62 then 43 else 47)%N.

Fixpoint base64_encode (s : string) : string :=
  match s with
  | EmptyString => ""
  | String a EmptyString =>
      let x := N_of_ascii a in
      String (base64_char (x / 4)) (String (base64_char (x mod 4 * 16)) "==")
  | String a (String b EmptyString) =>
      let x := N_of_ascii a in let y := N_of_ascii b in
      String (base64_char (x / 4)) (String (base64_char (x mod 4 * 16 + y / 16))
        (String (base64_char (y mod 16 * 4)) "="))
  | String a (String b (String c s)) =>
      let x := N_of_ascii a in let y := N_of_ascii b in let z := N_of_ascii c in
      String (base64_char (x / 4)) (String (base64_char (x mod 4 * 16 + y / 16))
        (String (base64_char (y mod 16 * 4 + z / 64)) (String (base64_char (z mod 64)) (base64_encode s))))
  end%N%string.

(** ** Handlers *)

(** The state of the ante handler: the context's world, on a cached store, and
    the store underneath, which [Write] brings up to date. *)
Record AnteW (S G : Type) := mkAnteW { live : World S G; flushed : S }.
Arguments mkAnteW {S G}.
Arguments live {S G}.
Arguments flushed {S G}.

Definition set_live {S G} (w : World S G) (a : AnteW S G) : AnteW S G := mkAnteW w (flushed a).

Section Handlers.
Context {S G Msg : Type} `{GasMeterOps G} `{SaJson} `{SaHost S G} `{Bech32} `{DecParse} `{HasSa S}
  `{SaTxHost S G Msg}.
Variable (am : AuthenticatorManager) (ctx : TxCtx).

Abbreviation W := (World S G).
Abbreviation A := (AnteW S G).

Definition on_live {B} (m : M W B) : M A B := zoom live set_live m.

(** [cacheMultiStore.Write()]. *)
Definition flush : M A unit := modify (fun a => mkAnteW (live a) (store (live a))).

(** Once the fee payer is authenticated: its gas is put on the original meter,
    the fee is deducted, still on the fee payer's meter, and written through,
    and the original meter is used from here on. *)
Definition charge_fee (original : G) (tx : Tx Msg) (simulate : bool) : M A unit :=
  payerGas ← gets (fun a => GasConsumed (meter (live a)));
  match ConsumeGas payerGas original with
  | (Ok _, original') =>
      on_live (DeductFee tx simulate);;
      flush;;
      modify (fun a => set_live (set_meter original' (live a)) a)
  | (Err e, _) => throw e
  | (Panic p, _) => panic p
  end.

(** One message: its authenticator, with the request it accepted. *)
Definition authenticate_msg (tx : Tx Msg) (simulate : bool) (feePayer : string) (feeTx : FeeTx)
    (msgIndex : nat) (msg : Msg) (selected : Z) : M A (string * Authenticator * AuthenticationRequest) :=
  signers ← lift (wrap_err (MsgV1Signers msg) "ErrUnauthorized");
  ensureM (length signers =? 1)%nat "ErrUnauthorized";;
  account ← lift (index signers 0);
  s ← gets (fun a => store (live a));
  ia ← lift (GetInitializedAuthenticatorForAccount am (sa s) account (i64 selected));
  request ← lift (GenerateAuthenticationRequest ctx s account feePayer (TxFeeGranter feeTx) (GetFee feeTx)
                    msg tx msgIndex simulate SequenceMatch);
  let request := set_id (itoa ia.1) request in
  on_live (charge (StaticGas ia.2));;
  on_live (neverWrite (Authenticate ctx ia.2 request));;
  mret (account, ia.2, request).

Fixpoint authenticate_msgs (original : G) (tx : Tx Msg) (simulate : bool) (feePayer : string) (feeTx : FeeTx)
    (msgIndex : nat) (msgs : list Msg) (selected : list Z) (feesPaid : bool)
    : M A (list (Authenticator * AuthenticationRequest)) :=
  match msgs with
  | [] => mret []
  | msg :: msgs =>
      sel ← lift (index selected msgIndex);
      authd ← authenticate_msg tx simulate feePayer feeTx msgIndex msg sel;
      let pay := negb feesPaid && String.eqb authd.1.1 feePayer in
      (if pay then charge_fee original tx simulate else mret tt);;
      tracks ← authenticate_msgs original tx simulate feePayer feeTx (Datatypes.S msgIndex) msgs selected
                 (feesPaid || pay);
      mret ((authd.1.2, authd.2) :: tracks)
  end.

Definition ante_body (original : G) (tx : Tx Msg) (simulate : bool) (next : M A unit) : M A unit :=
  match GetMsgs tx with
  | [] => throw "ErrInvalidRequest"
  | msg :: _ =>
      feeTx ← lift (as_iface (as_fee_tx tx) "ErrTxDecode");
      signers ← lift (wrap_err (MsgV1Signers msg) "ErrUnauthorized");
      feePayer ← lift (index signers 0);
      selected ← lift (GetSelectedAuthenticators tx (length (GetMsgs tx)));
      tracks ← authenticate_msgs original tx simulate feePayer feeTx 0 (GetMsgs tx) selected false;
      forM tracks (fun t => on_live (Track t.1 t.2));;
      next
  end.

(** The deferred function turns running out of gas, anywhere below, into an
    error. *)
Definition recover_out_of_gas (m : M A unit) : M A unit := fun a =>
  match m a with
  | (Panic p, a') => if decide (p = "ErrorOutOfGas"%string) then (Err "ErrOutOfGas", a') else (Panic p, a')
  | r => r
  end.

Definition AnteHandle (tx : Tx Msg) (simulate : bool) (next : M A unit) : M A unit :=
  lift (ValidateAuthenticatorFeePayer tx);;
  original ← gets (fun a => meter (live a));
  params ← gets (fun a => GetParams (sa (store (live a))));
  modify (fun a => set_live (set_meter (NewGasMeter (MaximumUnauthenticatedGas params)) (live a)) a);;
  recover_out_of_gas (ante_body original tx simulate next).

(** ** After execution *)

Definition confirm_msg (tx : Tx Msg) (simulate : bool) (feeTx : FeeTx) (msgIndex : nat) (msg : Msg)
    (selected : list Z) : M W unit :=
  signers ← lift (MsgV1Signers msg);
  account ← lift (index signers 0);
  sel ← lift (index selected msgIndex);
  s ← gets store;
  ia ← lift (GetInitializedAuthenticatorForAccount am (sa s) account (i64 sel));
  request ← lift (GenerateAuthenticationRequest ctx s account (TxFeePayer feeTx) (TxFeeGranter feeTx)
                    (GetFee feeTx) msg tx msgIndex simulate NoReplayProtection);
  ConfirmExecution ia.2 (set_id (itoa ia.1) request).

(** [next] is the decorator's own field when the circuit breaker is active and
    the argument otherwise; [success] is true after any confirmed message. *)
Definition PostHandle (tx : Tx Msg) (simulate success : bool) (own_next next : bool -> M W unit) : M W unit :=
  s ← gets (fun w => sa (store w));
  let '(active, selected) := IsCircuitBreakActive s tx in
  if active then own_next success
  else
    feeTx ← lift (as_iface (as_fee_tx tx) "ErrTxDecode");
    forMi 0 (GetMsgs tx) (fun msgIndex msg => confirm_msg tx simulate feeTx msgIndex msg selected);;
    next (if (length (GetMsgs tx) =? 0)%nat then success else true).

(** ** Events of the signatures *)

Fixpoint signatureDataToBz (data : SignatureDataV2) : res (list string) :=
  match data with
  | SingleSignatureData s => Ok [s]
  | MultiSignatureData l =>
      nested ← mapM (fun r => r) (map signatureDataToBz l);
      let sigs := concat nested in
      aggregatedSig ← MultiSignature_Marshal sigs;
      Ok (sigs ++ [aggregatedSig])
  | NilSignatureData => Err "got empty SignatureData"
  | OtherSignatureData => Err "ErrInvalidType"
  end.

Definition tx_event (attrs : list (string * string)) : SdkEvent :=
  mkSdkEvent "tx" (map (fun kv => mkSdkAttr kv.1 kv.2 false) attrs).

(** The events of signature [i]; the signer is printed as its bytes. *)
Definition signature_events (signers : list string) (i : nat) (sig : SignatureV2) : res (list SdkEvent) :=
  signer ← index signers i;
  let accSeq := (signer ++ "/" ++ itoa (Sequence sig))%string in
  sigBzs ← signatureDataToBz (Data sig);
  Ok (tx_event [("acc_seq", accSeq); ("authenticator_acc_seq", accSeq)]%string ::
      map (fun sigBz => tx_event [("signature", base64_encode sigBz);
                                  ("authenticator_signature", base64_encode sigBz)]%string) sigBzs).

Fixpoint signatures_events (signers : list string) (i : nat) (sigs : list SignatureV2) : res (list SdkEvent) :=
  match sigs with
  | [] => Ok []
  | sig :: sigs =>
      here ← signature_events signers i sig;
      rest ← signatures_events signers (Datatypes.S i) sigs;
      Ok (here ++ rest)
  end.

Definition EmitPubKey_AnteHandle (tx : Tx Msg) (next : M W unit) : M W unit :=
  sigTx ← lift (as_iface (as_sig_tx tx) "ErrTxDecode");
  signers ← lift (GetSigners sigTx);
  sigs ← lift (GetSignaturesV2 sigTx);
  events ← lift (signatures_events signers 0 sigs);
  modify (fun w => set_evs (evs w ++ events) w);;
  next.

End Handlers.

(** ** Requests and replay protection *)

Section RequestProofs.
Context {S G Msg : Type} `{SaTxHost S G Msg}.
Variable (ctx : TxCtx).

Lemma index_Ok {A} (l : list A) i a : index l i = Ok a <-> l !! i = Some a.
Proof. unfold index. destruct (l !! i); naive_solver. Qed.

(** Every signature of the account from position [i] on passed the check. *)
Lemma extract_from_checked txSigners txData account rp i sigs acc ms r :
  extract_from txSigners txData account rp i sigs acc ms = Ok r ->
  forall j sig, sigs !! j = Some sig -> txSigners !! (i + j)%nat = Some account -> rp txData sig = Ok tt.
Proof.
  revert i acc ms. induction sigs as [|x sigs IH]; intros i acc ms; cbn [extract_from]; [done|].
  destruct (Data x) as [single| | |]; [|done..].
  intros (signer&Hs%index_Ok&E)%res_bind_Ok [|j] sig Hj Hacc.
  - cbn in Hj. injection Hj as <-. rewrite Nat.add_0_r, Hs in Hacc. injection Hacc as ->.
    rewrite String.eqb_refl in E. by apply res_bind_Ok in E as ([]&?&_).
  - cbn in Hj. rewrite Nat.add_succ_r in Hacc. destruct (String.eqb signer account).
    + apply res_bind_Ok in E as (?&_&E). by eapply (IH (Datatypes.S i)).
    + by eapply (IH (Datatypes.S i)).
Qed.

(** The signature that is found is one the account has given, if there is any. *)
Lemma extract_from_signature txSigners txData account rp i sigs acc ms all single :
  extract_from txSigners txData account rp i sigs acc ms = Ok (all, single) ->
  single = ms \/ exists j sig, sigs !! j = Some sig /\ txSigners !! (i + j)%nat = Some account /\ Data sig = SingleSignatureData single.
Proof.
  revert i acc ms. induction sigs as [|x sigs IH]; intros i acc ms; cbn [extract_from]; [intros [= _ ->]; by left|].
  destruct (Data x) as [y| | |] eqn:Ed; [|done..]. intros (signer&Hs%index_Ok&E)%res_bind_Ok.
  assert (Hnext : forall acc ms, extract_from txSigners txData account rp (Datatypes.S i) sigs acc ms = Ok (all, single) ->
    single = ms \/ exists j sig, (x :: sigs) !! j = Some sig /\ txSigners !! (i + j)%nat = Some account /\ Data sig = SingleSignatureData single).
  { intros acc' ms' [?|(j&sig&?&?&?)]%IH; [by left|right]. exists (Datatypes.S j), sig. by rewrite Nat.add_succ_r. }
  destruct (String.eqb_spec signer account) as [->|]; [|by eapply Hnext].
  apply res_bind_Ok in E as ([]&_&E). apply Hnext in E as [->|?]; [|by right].
  right. exists 0%nat, x. by rewrite Nat.add_0_r.
Qed.

Lemma request_inv s account fp fg fee msg (tx : Tx Msg) i sim rp rq :
  GenerateAuthenticationRequest ctx s account fp fg fee msg tx i sim rp = Ok rq ->
  exists signers sigs sd all, MsgV1Signers msg = Ok (account :: signers) /\
    GetSignerAndSignatures tx = Ok sigs /\ getSignerData ctx s account = Ok sd /\
    extractExplicitTxData tx sd = Ok (TxData rq) /\
    extractSignatures sigs.1 sigs.2 (TxData rq) account rp = Ok (all, Signature rq) /\
    Account rq = account /\ FeePayer rq = fp /\ Simulate rq = sim /\ Msgs (TxData rq) !! i = Some (SaAuth.Msg rq) /\
    MsgIndex rq = Z.of_nat i /\ (sim && IsCheckTx ctx = false -> GetSignBytes sd tx = Ok (Direct (SignModeTxData rq))).
Proof.
  unfold GenerateAuthenticationRequest.
  intros (signers&Hs&E)%res_bind_Ok. apply res_bind_Ok in E as (signer&Hi%index_Ok&E).
  apply res_bind_Ok in E as ([]&->%ensure_Ok%String.eqb_eq&E).
  apply res_bind_Ok in E as (txs&Ht&E). apply res_bind_Ok in E as (sd&Hsd&E).
  apply res_bind_Ok in E as (txData&Hx&E). apply res_bind_Ok in E as ([all ms]&Hsig&E).
  apply res_bind_Ok in E as (any&Hany%index_Ok&E). destruct signers as [|? signers]; [done|]. injection Hi as ->.
  assert (exists direct, rq = mkRequest "" account fp fg fee any (Z.of_nat i) ms (mkSignMode direct "") txData
    (mkSigData txs.1 all) sim "" /\ (sim && IsCheckTx ctx = false -> GetSignBytes sd tx = Ok direct)) as (direct&->&Hd).
  { destruct (sim && IsCheckTx ctx); [injection E as <-; by eexists|].
    apply res_bind_Ok in E as (bytes&?&[= <-]). by eexists. }
  exists signers, txs, sd, all. done.
Qed.

(** The sequence number of an account in the store. *)
Definition sequence_of (s : S) (account : string) : Z := match GetAccount s account with Some a => a.2 | None => 0 end.

(** The request is for message [i] of the transaction and for the account: it holds
    the data of the transaction, with this message, the number the account has in
    the store, and what is to be signed; its signature is one of the account, if
    the account has signed; and every signature of the account on the transaction is
    for this number, so that a transaction whose number was used is refused. *)
Definition request_for (s : S) (tx : Tx Msg) (i : nat) (sim : bool) (account : string) (rq : AuthenticationRequest) : Prop :=
  exists sd signers sigs, GetSignerAndSignatures tx = Ok (signers, sigs) /\ length signers = length sigs /\
    getSignerData ctx s account = Ok sd /\ extractExplicitTxData tx sd = Ok (TxData rq) /\
    Account rq = account /\ MsgIndex rq = Z.of_nat i /\ Msgs (TxData rq) !! i = Some (SaAuth.Msg rq) /\
    (sim && IsCheckTx ctx = false -> GetSignBytes sd tx = Ok (Direct (SignModeTxData rq))) /\
    (Signature rq = ""%string \/ exists j sig, signers !! j = Some account /\ sigs !! j = Some sig /\ Data sig = SingleSignatureData (Signature rq)) /\
    AccountSequence (TxData rq) = sequence_of s account /\
    forall j, signers !! j = Some account -> exists sig, sigs !! j = Some sig /\ Sequence sig = sequence_of s account.

Lemma request_for_account s account fp fg fee msg (tx : Tx Msg) i sim rq :
  GenerateAuthenticationRequest ctx s account fp fg fee msg tx i sim SequenceMatch = Ok rq -> request_for s tx i sim account rq.
Proof.
  intros (rest&[signers sigs]&sd&all&Hm&Ht&Hsd&Hx&Hex&Hacc&_&_&Hmsg&Hi&Hd)%request_inv.
  assert (length signers = length sigs) as Hlen.
  { unfold GetSignerAndSignatures in Ht. repeat (apply res_bind_Ok in Ht as (?&?&Ht)). injection Ht as <- <-.
    match goal with Hl : ensure _ _ = Ok _ |- _ => apply ensure_Ok, Nat.eqb_eq in Hl; lia end. }
  assert (AccountSequence (TxData rq) = sequence_of s account) as Hseq.
  { unfold extractExplicitTxData in Hx. repeat (apply res_bind_Ok in Hx as (?&?&Hx)). injection Hx as <-. cbn.
    unfold getSignerData in Hsd. by apply res_bind_Ok in Hsd as (?&_&[= <-]). }
  unfold extractSignatures in Hex. exists sd, signers, sigs. split_and!; try done.
  - apply extract_from_signature in Hex as [?|(j&sig&?&?&?)]; [by left|right]. by exists j, sig.
  - intros j Hj. destruct (lookup_lt_is_Some_2 sigs j) as [sig Hsig].
    { rewrite <- Hlen. by eapply lookup_lt_Some. }
    exists sig. split; [done|]. apply (extract_from_checked _ _ _ _ _ _ _ _ _ Hex j sig) in Hj; [|done].
    unfold SequenceMatch in Hj. apply ensure_Ok, Z.eqb_eq in Hj. congruence.
Qed.


End RequestProofs.

(** ** What the ante handler guarantees *)

Section AnteProofs.
Context {S G Msg : Type} `{GasMeterOps G} `{SaJson} `{SaHost S G} `{Bech32} `{DecParse} `{HasSa S}
  `{SaTxHost S G Msg}.
Variable (am : AuthenticatorManager) (ctx : TxCtx).

Abbreviation W := (World S G).
Abbreviation A := (AnteW S G).

(** Message [i], signed by [acc] alone, was authenticated on the store [s]: by
    the authenticator of [acc] its transaction selected, with a request for this
    message. *)
Definition authenticated (tx : Tx Msg) (sim : bool) (s : S) (selected : list Z) (i : nat) (msg : Msg) (acc : string)
    (t : Authenticator * AuthenticationRequest) : Prop :=
  exists sel id v v', MsgV1Signers msg = Ok [acc] /\ selected !! i = Some sel /\
    GetInitializedAuthenticatorForAccount am (sa s) acc (i64 sel) = Ok (id, t.1) /\
    request_for ctx s tx i sim acc t.2 /\ AuthenticatorId t.2 = itoa id /\
    store v = s /\ Authenticate ctx t.1 t.2 v = (Ok tt, v').

Lemma charge_live n (a : A) : store (live (on_live (charge n) a).2) = store (live a) /\
  flushed (on_live (charge n) a).2 = flushed a.
Proof.
  unfold on_live, zoom, charge, zoom. by destruct (ConsumeGas n (meter (live a))).
Qed.

Lemma never_write_live {B} (m : M W B) (a : A) :
  store (live (on_live (neverWrite m) a).2) = store (live a) /\ flushed (on_live (neverWrite m) a).2 = flushed a.
Proof. unfold on_live, zoom, neverWrite. by destruct (m _). Qed.

(** [still m]: [m] changes neither store. *)
Definition still {B} (m : M A B) : Prop := forall a,
  store (live (m a).2) = store (live a) /\ flushed (m a).2 = flushed a.

Lemma still_bind {B C} (m : M A B) (f : B -> M A C) : still m -> (forall b, still (f b)) -> still (m ≫= f).
Proof.
  intros Hm Hf a. specialize (Hm a). unfold mbind, M_bind. destruct (m a) as [[b|e|p] a1]; cbn in *; [|done..].
  destruct (Hf b a1) as [-> ->]. done.
Qed.

Lemma authenticate_msg_still tx sim fp feeTx i msg sel : still (authenticate_msg am ctx tx sim fp feeTx i msg sel).
Proof.
  unfold authenticate_msg. repeat (apply still_bind; [done|]; intros). cbv zeta.
  apply still_bind; [intros a; apply charge_live|]. intros.
  apply still_bind; [intros a; apply never_write_live|]. done.
Qed.

Lemma authenticate_msg_ok tx sim fp feeTx selected i msg sel a acc ath rq a' :
  selected !! i = Some sel ->
  authenticate_msg am ctx tx sim fp feeTx i msg sel a = (Ok (acc, ath, rq), a') ->
  authenticated tx sim (store (live a)) selected i msg acc (ath, rq).
Proof.
  intros Hsel E. unfold authenticate_msg in E. apply bind_Ok in E as (signers&a1&[Hs <-]%lift_Ok&E).
  apply bind_Ok in E as ([]&a1&[Hl%Nat.eqb_eq <-]%ensureM_Ok&E).
  apply bind_Ok in E as (account&a1&[Hi%index_Ok <-]%lift_Ok&E).
  apply bind_Ok in E as (s&a1&[-> <-]%gets_Ok&E). apply bind_Ok in E as ([id ia]&a1&[Hia <-]%lift_Ok&E).
  apply bind_Ok in E as (request&a1&[Hrq <-]%lift_Ok&E). cbv zeta in E.
  apply bind_Ok in E as ([]&a1&Hc&E). apply bind_Ok in E as ([]&a2&Ha&E). apply ret_Ok in E as [[= <- <- <-] _].
  destruct signers as [|x [|]]; try done. injection Hi as ->.
  cbn [fst snd] in *. pose proof (charge_live (StaticGas ia) a) as [Hst _]. rewrite Hc in Hst.
  unfold on_live, zoom in Ha.
  destruct (neverWrite _ _) as [r w] eqn:En. injection Ha as -> _. unfold neverWrite in En.
  destruct (Authenticate _ _ _ _) as [r v'] eqn:Ea. injection En as -> _.
  exists sel, id. eexists. exists v'. split_and!; try exact Ea; try done.
  - unfold wrap_err in Hs. by destruct (MsgV1Signers msg); simplify_eq.
  - by apply request_for_account in Hrq.
Qed.

(** After the fee was paid, authenticating changes neither store. *)
Lemma msgs_paid original tx sim fp feeTx i msgs selected :
  still (authenticate_msgs am ctx original tx sim fp feeTx i msgs selected true).
Proof.
  revert i. induction msgs as [|msg msgs IH]; intros i; cbn [authenticate_msgs]; [done|].
  apply still_bind; [done|]. intros sel. apply still_bind; [apply authenticate_msg_still|]. intros [[acc ath] rq].
  cbn. apply still_bind; [done|]. intros _. apply still_bind; [apply IH|]. done.
Qed.

Lemma msgs_paid_ok original tx sim fp feeTx i msgs selected a tracks a' :
  authenticate_msgs am ctx original tx sim fp feeTx i msgs selected true a = (Ok tracks, a') ->
  length tracks = length msgs /\ forall j msg, msgs !! j = Some msg -> exists t acc,
    tracks !! j = Some t /\ authenticated tx sim (store (live a)) selected (i + j) msg acc t.
Proof.
  revert i a tracks a'. induction msgs as [|msg msgs IH]; intros i a tracks a'; cbn [authenticate_msgs].
  { intros [<- _]%ret_Ok. done. }
  intros (sel&a1&[Hsel%index_Ok <-]%lift_Ok&E)%bind_Ok. apply bind_Ok in E as ([[acc ath] rq]&a1&Ha&E).
  pose proof (authenticate_msg_still tx sim fp feeTx i msg sel a) as [Hst _]. rewrite Ha in Hst. cbn in Hst.
  apply (authenticate_msg_ok _ _ _ _ selected) in Ha; [|done]. cbn in E.
  apply bind_Ok in E as ([]&a2&[_ <-]%ret_Ok&E).
  apply bind_Ok in E as (rest&a2&E&[<- _]%ret_Ok). apply IH in E as [Hlen HF]. split; [cbn; lia|].
  intros [|j] m Hm; cbn in Hm.
  - injection Hm as <-. rewrite Nat.add_0_r. eexists _, _. split; [done|]. exact Ha.
  - destruct (HF j m Hm) as (t&acc'&?&Ht). exists t, acc'. rewrite Nat.add_succ_r. split; [done|]. by rewrite Hst in Ht.
Qed.

Lemma charge_fee_cases original tx sim a r a' : charge_fee original tx sim a = (r, a') ->
  match r with
  | Ok _ => exists v', DeductFee tx sim (live a) = (Ok tt, v') /\ store (live a') = store v' /\ flushed a' = store v'
  | _ => flushed a' = flushed a
  end.
Proof.
  unfold charge_fee, mbind, M_bind, gets. destruct (ConsumeGas _ original) as [[u|e|p] g]; [|by intros [= <- <-]..].
  unfold on_live, zoom. destruct (DeductFee tx sim (live a)) as [[[]|e|p] v'] eqn:E; cbn; intros [= <- <-]; [|done..].
  by exists v'.
Qed.

(** The first message pays: its only signer is the fee payer. *)
Lemma first_msg_cases original tx sim fp feeTx msg msgs selected a r a' signers :
  MsgV1Signers msg = Ok signers -> index signers 0 = Ok fp ->
  authenticate_msgs am ctx original tx sim fp feeTx 0 (msg :: msgs) selected false a = (r, a') ->
  (flushed a' = flushed a /\ is_ok r = false) \/
  exists t v v', authenticated tx sim (store (live a)) selected 0 msg fp t /\ store v = store (live a) /\
    DeductFee tx sim v = (Ok tt, v') /\ store (live a') = store v' /\ flushed a' = store v' /\
    forall tracks, r = Ok tracks -> tracks !! 0%nat = Some t /\ length tracks = length (msg :: msgs) /\
      forall j m, msgs !! j = Some m -> exists t' acc, tracks !! Datatypes.S j = Some t' /\
        authenticated tx sim (store v') selected (Datatypes.S j) m acc t'.
Proof.
  intros Hs Hfp. cbn [authenticate_msgs]. unfold mbind at 1, M_bind at 1, lift.
  destruct (index selected 0) as [sel|e|p] eqn:Hsel; [|intros [= <- <-]; by left..]. apply index_Ok in Hsel.
  unfold mbind at 1, M_bind at 1. pose proof (authenticate_msg_still tx sim fp feeTx 0 msg sel a) as [Hst Hfl].
  destruct (authenticate_msg _ _ _ _ _ _ _ _ _ a) as [[[[acc ath] rq]|e|p] a1] eqn:Ha; cbn in Hst, Hfl;
    [|intros [= <- <-]; by left..].
  pose proof (authenticate_msg_ok _ _ _ _ selected _ _ _ _ _ _ _ _ Hsel Ha) as Hauth.
  assert (acc = fp) as ->.
  { destruct Hauth as (?&?&?&?&Hm&_). rewrite Hs in Hm. injection Hm as ->. by injection Hfp as ->. }
  cbn [fst snd negb andb orb]. rewrite String.eqb_refl. cbn [orb]. unfold mbind at 1, M_bind at 1.
  destruct (charge_fee original tx sim a1) as [[[]|e|p] a2] eqn:Hc; apply charge_fee_cases in Hc;
    [|intros [= <- <-]; left; split; [congruence|done]..].
  destruct Hc as (v'&Hd&Hs2&Hf2). unfold mbind at 1, M_bind at 1.
  pose proof (msgs_paid original tx sim fp feeTx 1 msgs selected a2) as [Hst3 Hfl3].
  destruct (authenticate_msgs _ _ _ _ _ _ _ _ _ _ _ a2) as [[tracks|e|p] a3] eqn:Hr; cbn in Hst3, Hfl3;
    intros [= <- <-]; right; exists (ath, rq), (live a1), v'; split_and!; try done; try congruence.
  intros ts [= <-]. apply msgs_paid_ok in Hr as [Hlen HF]. rewrite Hs2 in HF. split_and!; [done|cbn; lia|].
  intros j m Hm. destruct (HF j m Hm) as (t'&acc&?&?). exists t', acc. done.
Qed.

Lemma tracks_flushed (tracks : list (Authenticator * AuthenticationRequest)) (a : A) :
  flushed (forM tracks (fun t => on_live (Track t.1 t.2)) a).2 = flushed a.
Proof.
  revert a. induction tracks as [|t tracks IH]; intros a; [done|]. cbn [forM]. unfold mbind, M_bind.
  unfold on_live at 1, zoom at 1. destruct (Track t.1 t.2 (live a)) as [[[]|e|p] w]; [|done..]. by rewrite IH.
Qed.

(** How a run of the ante handler that got past its first checks unfolds. *)
Lemma ante_run tx sim next a r a' : AnteHandle am ctx tx sim next a = (r, a') ->
  a' = a \/ exists original g r0, (store (live g) = store (live a) /\ flushed g = flushed a) /\
    ante_body am ctx original tx sim next g = (r0, a') /\ (forall u, r = Ok u -> r0 = Ok u).
Proof.
  unfold AnteHandle, mbind, M_bind, lift, gets, modify.
  destruct (ValidateAuthenticatorFeePayer tx) as [[]|e|p]; [|by intros [= <- <-]; left..].
  unfold recover_out_of_gas. set (g := set_live _ a). destruct (ante_body _ _ _ _ _ _ g) as [r0 a1] eqn:E.
  intros Hr. right. exists (meter (live a)), g, r0. split; [done|].
  destruct r0 as [[]|e|p]; try (injection Hr as <- <-; done).
  destruct (decide _); injection Hr as <- <-; done.
Qed.

(** Nothing of a transaction reaches the underlying store before its fee
    payer is authenticated.  Whatever happens later, what the handler wrote is
    either nothing or exactly one deduction of the fee, made on the untouched
    store after the first message was authenticated for the fee payer by an
    authenticator of that account. *)
Theorem fee_only_after_authentication tx sim next a r a' :
  (forall b, flushed (next b).2 = flushed b) -> AnteHandle am ctx tx sim next a = (r, a') ->
  flushed a' = flushed a \/
  exists msg msgs payer selected t v v', GetMsgs tx = msg :: msgs /\
    authenticated tx sim (store (live a)) selected 0 msg payer t /\ store v = store (live a) /\
    DeductFee tx sim v = (Ok tt, v') /\ flushed a' = store v'.
Proof.
  intros Hnext [->|(original&g&r0&[Hst Hfl]&E&_)]%ante_run; [by left|]. rewrite <- Hfl, <- Hst. clear Hfl Hst a.
  unfold ante_body in E. destruct (GetMsgs tx) as [|msg msgs] eqn:Hm; [injection E as <- <-; by left|].
  unfold mbind at 1, M_bind at 1, lift at 1 in E. destruct (as_iface _ _) as [feeTx|e|p]; [|injection E as <- <-; by left..].
  unfold mbind at 1, M_bind at 1, lift at 1 in E.
  destruct (MsgV1Signers msg) as [signers|e|p] eqn:Hs; cbn [wrap_err] in E; [|injection E as <- <-; by left..].
  unfold mbind at 1, M_bind at 1, lift at 1 in E. destruct (index signers 0) as [fp|e|p] eqn:Hfp; [|injection E as <- <-; by left..].
  unfold mbind at 1, M_bind at 1, lift at 1 in E. destruct (GetSelectedAuthenticators tx _) as [selected|e|p]; [|injection E as <- <-; by left..].
  unfold mbind at 1, M_bind at 1 in E.
  destruct (authenticate_msgs _ _ _ _ _ _ _ _ _ _ _ g) as [r1 a1] eqn:Ha.
  assert (flushed a' = flushed a1) as ->.
  { destruct r1 as [tracks|e|p]; [|by injection E as <- <-..]. unfold mbind at 1, M_bind at 1 in E.
    pose proof (tracks_flushed tracks a1) as Ht.
    destruct (forM tracks _ a1) as [[[]|e|p] a2]; cbn in Ht; [|by injection E as <- <-..].
    pose proof (Hnext a2) as Hn. rewrite E in Hn. cbn in Hn. congruence. }
  eapply first_msg_cases in Ha as [[? _]|(t&v&v'&?&?&?&_&?&_)]; [by left| |exact Hs|exact Hfp].
  right. exists msg, msgs, fp, selected, t, v, v'. done.
Qed.


(** ** What the post handler guarantees *)

Lemma confirm_msg_ok tx sim feeTx selected j m (v v' : W) :
  confirm_msg am ctx tx sim feeTx j m selected v = (Ok tt, v') ->
  exists acc rest sel e id ath rq, MsgV1Signers m = Ok (acc :: rest) /\ selected !! j = Some sel /\
    sa_auths (sa (store v)) !! KeyAccountId acc (u64 (i64 sel)) = Some e /\
    GetInitializedAuthenticatorForAccount am (sa (store v)) acc (i64 sel) = Ok (id, ath) /\
    Account rq = acc /\ ConfirmExecution ath rq v = (Ok tt, v').
Proof.
  intros Hc. unfold confirm_msg in Hc. apply bind_Ok in Hc as (signers&v1&[Hs <-]%lift_Ok&Hc).
  apply bind_Ok in Hc as (acc&v1&[Hi%index_Ok <-]%lift_Ok&Hc). apply bind_Ok in Hc as (sel&v1&[Hsel%index_Ok <-]%lift_Ok&Hc).
  apply bind_Ok in Hc as (s&v1&[-> <-]%gets_Ok&Hc). apply bind_Ok in Hc as ([id ath]&v1&[Hia <-]%lift_Ok&Hc).
  apply bind_Ok in Hc as (rq&v1&[Hrq <-]%lift_Ok&Hc). destruct signers as [|x rest]; [done|]. injection Hi as ->.
  pose proof Hia as Hia'. unfold GetInitializedAuthenticatorForAccount in Hia'.
  apply res_bind_Ok in Hia' as (e&He&_). unfold GetSelectedAuthenticatorData in He.
  destruct (sa_auths _ !! _) as [e'|] eqn:Hl; [|done].
  exists acc, rest, sel, e', id, ath, (set_id (itoa id) rq). split_and!; try done.
  by apply request_inv in Hrq as (?&?&?&?&?&?&?&?&?&?&?).
Qed.

Lemma forMi_lookup {T B} i (l : list B) f (s : T) u s' : forMi i l f s = (Ok u, s') ->
  forall j x, l !! j = Some x -> exists s1 s2, f (i + j)%nat x s1 = (Ok tt, s2) /\ (j = 0%nat -> s1 = s).
Proof.
  revert i s. induction l as [|y l IH]; intros i s Hl j x Hj; [done|].
  apply forMi_Ok in Hl as (s1&Hy&Hl). destruct j as [|j]; cbn in Hj.
  - injection Hj as ->. exists s, s1. by rewrite Nat.add_0_r.
  - destruct (IH _ _ Hl j x Hj) as (s2&s3&Hc&_). exists s2, s3. by rewrite Nat.add_succ_r.
Qed.

(** A transaction of the authenticator flow that passes the post handler
    had every message confirmed, in order, by its selected authenticator, which
    was therefore still stored for the signer: a transaction cannot remove the
    authenticator it is using. *)
Theorem post_confirms_every_message tx sim success own_next next (w : W) u w' selected :
  IsCircuitBreakActive (sa (store w)) tx = (false, selected) ->
  PostHandle am ctx tx sim success own_next next w = (Ok u, w') ->
  forall j m, GetMsgs tx !! j = Some m -> exists acc rest sel e id ath rq v v',
    MsgV1Signers m = Ok (acc :: rest) /\ selected !! j = Some sel /\
    sa_auths (sa (store v)) !! KeyAccountId acc (u64 (i64 sel)) = Some e /\
    GetInitializedAuthenticatorForAccount am (sa (store v)) acc (i64 sel) = Ok (id, ath) /\
    Account rq = acc /\ ConfirmExecution ath rq v = (Ok tt, v') /\ (j = 0%nat -> v = w).
Proof.
  intros Hcb. unfold PostHandle. intros (s&w1&[-> <-]%gets_Ok&E)%bind_Ok. rewrite Hcb in E.
  apply bind_Ok in E as (feeTx&w1&[_ <-]%lift_Ok&E). apply bind_Ok in E as ([]&w1&E&_).
  intros j m Hj. destruct (forMi_lookup _ _ _ _ _ _ E j m Hj) as (v1&v2&Hc&Hfirst).
  destruct (confirm_msg_ok _ _ _ _ _ _ _ _ Hc) as (acc&rest&sel&e&id&ath&rq&?&?&?&?&?&?).
  exists acc, rest, sel, e, id, ath, rq, v1, v2. done.
Qed.

(** Switching the module off during a transaction skips its confirmations. *)
Lemma post_skips_when_inactive tx sim success own_next next (w : W) :
  GetIsSmartAccountActive (sa (store w)) = false ->
  PostHandle am ctx tx sim success own_next next w = own_next success w.
Proof. intros E. unfold PostHandle, mbind, M_bind, gets, IsCircuitBreakActive. by rewrite E. Qed.

End AnteProofs.

(** ** Witnesses *)

Module AnteWitness.
Import Ref RefLaws AuthRef HexAddr.
Local Open Scope string_scope.

(** The module's store and one balance; a fee is ten; a message is its signer;
    a key verifies the signature that equals it. *)
Abbreviation St := (SaStore * Z)%type.

#[local] Instance has_sa : HasSa St := {| sa := fst; set_sa x s := (x, snd s) |}.

#[local] Instance host : SaHost St meter := {|
  Resolve t := Ok t; UnmarshalProto _ v := Ok v; MarshalInterfaceJSON m := Ok m;
  VerifySignature pk _ sig := String.eqb pk sig; SigVerifyCostSecp256k1 _ := 1000%Z;
  Sudo _ _ := mret ""; SaAuth.verifier := None; GlobalPathAVerifier := None |}.

#[local] Instance tx_host : SaTxHost St meter string := {|
  MsgV1Signers m := Ok [m];
  NewAnyWithValue m := Ok (mkAny "/msg" m);
  UnpackTxOptions _ := Some [1];
  GetAccount _ _ := Some (7, 3);
  GetSignBytes _ _ := Ok "doc";
  DeductFee _ _ := modify (fun w => set_store (fst (store w), (snd (store w) - 10)%Z) w);
  MultiSignature_Marshal l := Ok (String.concat "" l) |}.

Definition key1 : string := "a23456789012345678901234567890123".
Definition am1 : AuthenticatorManager :=
  InitializeAuthenticators [SignatureVerification None; AllOf Single []] NewAuthenticatorManager.
Definition ctx1 : TxCtx := mkTxCtx false false 10 "terp-1".
Definition s1 : St :=
  (mkSaStore None (Some 2) {[KeyAccountId "alice" 1 := mkAccountAuthenticator 1 "SignatureVerification" key1]}, 100).
Definition w1 : World St meter := mkWorld s1 (mkMeter 0 500000) [].
Definition a1 : AnteW St meter := mkAnteW w1 s1.

Definition tx1 (seq : Z) (sig : string) : Tx string :=
  mkTx ["alice"] (Some (mkFeeTx "alice" "" [])) (Some [mkAny "/ext" ""])
    (Some (mkSigTx (Ok [mkSignatureV2 (SingleSignatureData sig) seq]) (Ok ["alice"]))) (Some 0) (Some "").

Definition stop : M (AnteW St meter) unit := mret tt.

(** A used sequence number is refused. *)
Lemma used_sequence_refused :
  GenerateAuthenticationRequest ctx1 s1 "alice" "alice" "" [] "alice" (tx1 2 key1) 0 false SequenceMatch
    = Err "ErrInvalidSequence" /\
  is_ok (GenerateAuthenticationRequest ctx1 s1 "alice" "alice" "" [] "alice" (tx1 3 key1) 0 false SequenceMatch) = true.
Proof. by split. Qed.

(** With a wrong signature nothing is written; with the right one the fee is. *)
Lemma fee_only_after_authentication_witness :
  snd (flushed (AnteHandle am1 ctx1 (tx1 3 "wrong") false stop a1).2) = 100 /\
  snd (flushed (AnteHandle am1 ctx1 (tx1 3 key1) false stop a1).2) = 90 /\
  exists msg msgs, GetMsgs (tx1 3 key1) = msg :: msgs.
Proof.
  split; [vm_compute; reflexivity|]. split; [vm_compute; reflexivity|].
  destruct (AnteHandle am1 ctx1 (tx1 3 key1) false stop a1) as [r a'] eqn:E.
  destruct (fee_only_after_authentication am1 ctx1 (tx1 3 key1) false stop a1 r a' (fun b => eq_refl) E)
    as [Hf|(msg&msgs&_&_&_&_&_&Hm&_)].
  - exfalso. apply (f_equal snd) in E. cbn [snd] in E. subst a'. vm_compute in Hf. discriminate.
  - exists msg, msgs. exact Hm.
Defined.


Lemma post_confirms_every_message_witness : exists u w' acc,
  PostHandle am1 ctx1 (tx1 3 key1) false true (fun _ => mret tt) (fun _ => mret tt) w1 = (Ok u, w') /\
  MsgV1Signers "alice" = Ok [acc].
Proof.
  destruct (PostHandle am1 ctx1 (tx1 3 key1) false true (fun _ => mret tt) (fun _ => mret tt) w1) as [r w'] eqn:E.
  assert (r = Ok tt) as -> by (apply (f_equal fst) in E; vm_compute in E; symmetry; exact E).
  assert (IsCircuitBreakActive (sa (store w1)) (tx1 3 key1) = (false, [1])) as Hcb by (vm_compute; reflexivity).
  destruct (post_confirms_every_message am1 ctx1 (tx1 3 key1) false true (fun _ => mret tt) (fun _ => mret tt) w1 tt w' [1]
    Hcb E 0%nat "alice" eq_refl) as (acc&rest&_&_&_&_&_&_&_&Hs&_).
  exists tt, w', acc. split; [reflexivity|]. cbn in Hs |- *. injection Hs as <- <-. reflexivity.
Defined.

(** The event names the signer by its bytes, not by its address text. *)
Lemma acc_seq_event_raw :
  signature_events ["alice"] 0 (mkSignatureV2 (SingleSignatureData "hello") 42) =
    Ok [tx_event [("acc_seq", "alice/42"); ("authenticator_acc_seq", "alice/42")];
        tx_event [("signature", "aGVsbG8="); ("authenticator_signature", "aGVsbG8=")]] /\
  AccAddress_String "alice" <> "alice".
Proof. split; [vm_compute; reflexivity|discriminate]. Qed.

End AnteWitness.
