(* ===== verification/CwHooks.v ===== *)
(** * x/cw-hooks

    Contracts registered to hear about staking and governance, the messages
    that register them, the hooks that call them with a bounded amount of gas,
    and genesis. *)

From Stdlib Require Import ZArith Lia Ascii.
From stdpp Require Import base gmap strings list sorting pretty.
From S2P Require Import Prelude Sdk SdkRef Store GoLib WasmDispatch SaAuth.

(** ** State *)

Record Params := mkParams { ContractGasLimit : Z }.

Definition NewParams (contractGasLimit : Z) : Params := mkParams contractGasLimit.
Definition DefaultParams : Params := NewParams 250000.
Definition Params_Validate (_ : Params) : res unit := Ok tt.

Definition ParamsKey : string := String "000" "".
Definition KeyPrefixStaking : string := String "001" "".
Definition KeyPrefixGov : string := String "002" "".

(** The module's store: the parameters, and an empty value for every contract
    under its prefix and address. *)
Record HkStore := mkHk { hk_params : option Params; hk_contracts : gmap string unit }.

Record GenesisState := mkGenesis {
  GParams : Params; StakingContractAddresses : list string; GovContractAddresses : list string }.

Class HasHk (S : Type) := { hk : S -> HkStore; set_hk : HkStore -> S -> S }.

Class HasHkLaws (S : Type) `{HasHk S} : Prop := { hk_set x s : hk (set_hk x s) = x }.

(** ** What the hooks report *)

(** The parts of a staking validator and delegation that are read. *)
Record ValidatorI := mkValidatorI {
  GetMoniker : string; GetOperator : string; GetCommission : string; GetTokens : string; GetStatus : string }.
Record DelegationI := mkDelegationI { GetValidatorAddr : string; GetDelegatorAddr : string; GetShares : string }.

Record Validator := mkValidator {
  Moniker : string; ValidatorAddress : string; Commission : string; ValidatorTokens : string;
  BondedTokens : string; BondStatus : string }.
Record ValidatorSlashed := mkSlashed { SlMoniker : string; SlValidatorAddress : string; SlashedAmount : string }.
Record Delegation := mkDelegation { DelValidatorAddress : string; DelDelegatorAddress : string; Shares : string }.

Definition NewValidator (val : ValidatorI) : Validator :=
  mkValidator (GetMoniker val) (GetOperator val) (GetCommission val) (GetTokens val) (GetTokens val) (GetStatus val).
Definition NewValidatorSlashed (val : ValidatorI) (fraction : string) : ValidatorSlashed :=
  mkSlashed (GetMoniker val) (GetOperator val) fraction.
Definition NewDelegation (del : DelegationI) : Delegation :=
  mkDelegation (GetValidatorAddr del) (GetDelegatorAddr del) (GetShares del).

(** A governance proposal and vote as stored by x/gov; the submit time is a
    Unix time, of which [Second()] is the second within the minute. *)
Record GovProposal := mkGovProposal {
  PropId : Z; PropProposer : string; PropStatus : Z; PropSubmitTime : Z;
  PropMetadata : string; PropTitle : string; PropSummary : string }.
Record GovVote := mkGovVote { VoteProposalId : Z; VoteVoter : string; VoteOptions : list (Z * string) }.

Record Proposal := mkProposal {
  ProposalID : Z; Proposer : string; Status : Z; SubmitTime : string; PMetadata : string; Title : string;
  Summary : string }.
Record Vote := mkVote { VProposalID : Z; VoterAddress : string; VoteOption : list (Z * string) }.

Definition Second (unix : Z) : Z := unix mod 60.

Definition NewProposal (prop : GovProposal) : Proposal :=
  mkProposal (PropId prop) (PropProposer prop) (PropStatus prop) (itoa (Second (PropSubmitTime prop)))
    (PropMetadata prop) (PropTitle prop) (PropSummary prop).
Definition NewVote (vote : GovVote) : Vote := mkVote (VoteProposalId vote) (VoteVoter vote) (VoteOptions vote).

Inductive HookMsg :=
| SudoMsgAfterValidatorCreated (v : Validator)
| SudoMsgAfterValidatorRemoved (v : Validator)
| SudoMsgBeforeDelegationCreated (d : Delegation)
| SudoMsgBeforeDelegationSharesModified (d : Delegation)
| SudoMsgAfterDelegationModified (d : Delegation)
| SudoMsgBeforeValidatorSlashed (v : ValidatorSlashed)
| SudoMsgBeforeValidatorModified (v : Validator)
| SudoMsgAfterValidatorBonded (v : Validator)
| SudoMsgAfterValidatorBeginUnbonding (v : Validator)
| SudoMsgBeforeDelegationRemoved (d : Delegation)
| SudoMsgAfterProposalSubmission (p : Proposal)
| SudoMsgAfterProposalDeposit (p : Proposal)
| SudoMsgAfterProposalVote (v : Vote)
| SudoAfterProposalVotingPeriodEnded (id : string).

(** The staking, governance and wasm keepers and the JSON encoder.  A keeper
    returns a value, which may be nil, and an error. *)
Class HkHost (S G : Type) := {
  HkSudo : string -> string -> M (World S G) string;
  ContractInfo : S -> string -> option (string * string);
  StakingValidator : S -> string -> option ValidatorI * res unit;
  StakingDelegation : S -> string -> string -> option DelegationI * res unit;
  GovProposals_Get : S -> Z -> res GovProposal;
  GovVotes_Get : S -> Z -> string -> res GovVote;
  MarshalHook : HookMsg -> res string
}.

Section Hooks.
Context {S G : Type} `{GasMeterOps G} `{HkHost S G} `{Bech32} `{HasHk S}.
Variable (authority : string) (BlockHeight : Z).

Abbreviation W := (World S G).

Definition upd (f : HkStore -> HkStore) : M W unit :=
  modify (fun w => set_store (set_hk (f (hk (store w))) (store w)) w).

Definition set_contracts (f : gmap string unit -> gmap string unit) : M W unit :=
  upd (fun s => mkHk (hk_params s) (f (hk_contracts s))).

(** ** Parameters *)

Definition SetParams (p : Params) : M W unit :=
  lift (Params_Validate p);; upd (fun s => mkHk (Some p) (hk_contracts s)).

(** Without stored parameters the zero value is returned. *)
Definition GetParams (s : HkStore) : Params := default (mkParams 0) (hk_params s).

(** ** Contracts *)

Definition SetContract (keyPrefix contractAddr : string) : M W unit :=
  set_contracts (<[(keyPrefix ++ contractAddr)%string := tt]>).

Definition IsContractRegistered (s : HkStore) (keyPrefix contractAddr : string) : bool :=
  bool_decide (is_Some (hk_contracts s !! (keyPrefix ++ contractAddr)%string)).

Definition GetAllContracts (s : HkStore) (keyPrefix : string) : list string :=
  map fst (iter_prefix keyPrefix (hk_contracts s)).

Definition GetAllContractsBech32 (s : HkStore) (keyPrefix : string) : list string :=
  map AccAddress_String (GetAllContracts s keyPrefix).

Definition DeleteContract (keyPrefix contractAddr : string) : M W unit :=
  set_contracts (delete (keyPrefix ++ contractAddr)%string).

(** Runs [sudo] on a cached context with its own meter: running out of that gas
    is an error, other panics go on.  The writes are kept on success only, and
    the gas, at most the limit, is charged to the caller in either case. *)
Definition sudoContract (addr msgBz : string) (limit : Z) : M W unit := fun w =>
  let '(r, sub) := HkSudo addr msgBz (set_evs [] (set_meter (NewGasMeter limit) w)) in
  let spent := Z.min (GasConsumed (meter sub)) limit in
  match r with
  | Ok _ => charge spent (mkWorld (store sub) (meter w) (evs w ++ evs sub))
  | Err _ => charge spent w
  | Panic p => if decide (p = "ErrorOutOfGas"%string) then charge spent w else (Panic p, w)
  end.

Definition ExecuteMessageOnContracts (keyPrefix msgBz : string) : M W unit :=
  s ← gets (fun w => hk (store w));
  forM (GetAllContracts s keyPrefix) (fun c => sudoContract c msgBz (ContractGasLimit (GetParams s))).

(** ** Staking hooks *)

Definition skipUntilHeight : Z := 2.

(** The common shape: nothing up to the second block; a nil value is skipped
    with the given result; a message that cannot be encoded is skipped. *)
Definition staking_hook {V} (found : option V * res unit) (nil_result : res unit) (msg : V -> HookMsg) : M W unit :=
  if BlockHeight <=? skipUntilHeight then mret tt
  else match found.1 with
       | None => lift nil_result
       | Some v =>
           lift found.2;;
           match MarshalHook (msg v) with
           | Ok msgBz => ExecuteMessageOnContracts KeyPrefixStaking msgBz
           | _ => mret tt
           end
       end.

(** For a missing validator only this hook returns the keeper's error. *)
Definition AfterValidatorCreated (valAddr : string) : M W unit :=
  s ← gets store; let val := StakingValidator s valAddr in
  staking_hook val val.2 (fun v => SudoMsgAfterValidatorCreated (NewValidator v)).
Definition AfterValidatorRemoved (valAddr : string) : M W unit :=
  s ← gets store;
  staking_hook (StakingValidator s valAddr) (Ok tt) (fun v => SudoMsgAfterValidatorRemoved (NewValidator v)).
Definition BeforeDelegationCreated (delAddr valAddr : string) : M W unit :=
  s ← gets store;
  staking_hook (StakingDelegation s delAddr valAddr) (Ok tt) (fun d => SudoMsgBeforeDelegationCreated (NewDelegation d)).
Definition BeforeDelegationSharesModified (delAddr valAddr : string) : M W unit :=
  s ← gets store;
  staking_hook (StakingDelegation s delAddr valAddr) (Ok tt)
    (fun d => SudoMsgBeforeDelegationSharesModified (NewDelegation d)).
Definition AfterDelegationModified (delAddr valAddr : string) : M W unit :=
  s ← gets store;
  staking_hook (StakingDelegation s delAddr valAddr) (Ok tt) (fun d => SudoMsgAfterDelegationModified (NewDelegation d)).
Definition BeforeValidatorSlashed (valAddr fraction : string) : M W unit :=
  s ← gets store;
  staking_hook (StakingValidator s valAddr) (Ok tt)
    (fun v => SudoMsgBeforeValidatorSlashed (NewValidatorSlashed v fraction)).
Definition BeforeValidatorModified (valAddr : string) : M W unit :=
  s ← gets store;
  staking_hook (StakingValidator s valAddr) (Ok tt) (fun v => SudoMsgBeforeValidatorModified (NewValidator v)).
Definition AfterValidatorBonded (valAddr : string) : M W unit :=
  s ← gets store;
  staking_hook (StakingValidator s valAddr) (Ok tt) (fun v => SudoMsgAfterValidatorBonded (NewValidator v)).
Definition AfterValidatorBeginUnbonding (valAddr : string) : M W unit :=
  s ← gets store;
  staking_hook (StakingValidator s valAddr) (Ok tt) (fun v => SudoMsgAfterValidatorBeginUnbonding (NewValidator v)).
Definition BeforeDelegationRemoved (delAddr valAddr : string) : M W unit :=
  s ← gets store;
  staking_hook (StakingDelegation s delAddr valAddr) (Ok tt) (fun d => SudoMsgBeforeDelegationRemoved (NewDelegation d)).
Definition AfterUnbondingInitiated : M W unit := mret tt.
Definition AfterValidatorConsKeyUpdated : M W unit := mret tt.

(** ** Governance hooks *)

Definition AfterProposalSubmission (proposalID : Z) : M W unit :=
  s ← gets store;
  prop ← lift (GovProposals_Get s proposalID);
  msgBz ← lift (MarshalHook (SudoMsgAfterProposalSubmission (NewProposal prop)));
  ExecuteMessageOnContracts KeyPrefixGov msgBz.
Definition AfterProposalDeposit (proposalID : Z) : M W unit :=
  s ← gets store;
  prop ← lift (GovProposals_Get s proposalID);
  msgBz ← lift (MarshalHook (SudoMsgAfterProposalDeposit (NewProposal prop)));
  ExecuteMessageOnContracts KeyPrefixGov msgBz.
Definition AfterProposalVote (proposalID : Z) (voterAddr : string) : M W unit :=
  s ← gets store;
  vote ← lift (GovVotes_Get s proposalID voterAddr);
  msgBz ← lift (MarshalHook (SudoMsgAfterProposalVote (NewVote vote)));
  ExecuteMessageOnContracts KeyPrefixGov msgBz.
Definition AfterProposalFailedMinDeposit : M W unit := mret tt.
Definition AfterProposalVotingPeriodEnded (proposalID : Z) : M W unit :=
  msgBz ← lift (MarshalHook (SudoAfterProposalVotingPeriodEnded (itoa (i64 proposalID))));
  ExecuteMessageOnContracts KeyPrefixGov msgBz.

(** ** Messages *)

Definition UpdateParams (Authority : string) (params : Params) : M W unit :=
  ensureM (String.eqb authority Authority) "ErrInvalidSigner";;
  lift (AccAddressFromBech32 Authority);;
  SetParams params.

Definition isContractSenderAuthorized (s : S) (sender contract : string) : res unit :=
  match ContractInfo s contract with
  | None => Err "ErrInvalidAddress"
  | Some (Creator, Admin) =>
      refuse (negb (String.eqb Creator "") && negb (String.eqb Creator sender)) "ErrUnauthorized";;
      refuse (negb (String.eqb Admin "") && negb (String.eqb Admin sender)) "ErrUnauthorized"
  end.

Definition handleContractRegister (sender contractAddr keyPrefix : string) : M W unit :=
  contract ← lift (AccAddressFromBech32 contractAddr);
  s ← gets store;
  refuseM (IsContractRegistered (hk s) keyPrefix contract) "ErrInvalidRequest";;
  lift (isContractSenderAuthorized s sender contract);;
  SetContract keyPrefix contract.

Definition handleContractRemoval (sender contractAddr keyPrefix : string) : M W unit :=
  contract ← lift (AccAddressFromBech32 contractAddr);
  s ← gets store;
  ensureM (IsContractRegistered (hk s) keyPrefix contract) "ErrInvalidRequest";;
  lift (isContractSenderAuthorized s sender contract);;
  DeleteContract keyPrefix contract.

(** The checks shared by the four registration messages. *)
Definition check_addresses (RegisterAddress ContractAddress : string) : M W unit :=
  lift (AccAddressFromBech32 RegisterAddress);; lift (AccAddressFromBech32 ContractAddress);; mret tt.

Definition RegisterStaking (RegisterAddress ContractAddress : string) : M W unit :=
  check_addresses RegisterAddress ContractAddress;;
  handleContractRegister RegisterAddress ContractAddress KeyPrefixStaking.
Definition RegisterGovernance (RegisterAddress ContractAddress : string) : M W unit :=
  check_addresses RegisterAddress ContractAddress;;
  handleContractRegister RegisterAddress ContractAddress KeyPrefixGov.
Definition UnregisterGovernance (RegisterAddress ContractAddress : string) : M W unit :=
  check_addresses RegisterAddress ContractAddress;;
  handleContractRemoval RegisterAddress ContractAddress KeyPrefixGov.
Definition UnregisterStaking (RegisterAddress ContractAddress : string) : M W unit :=
  check_addresses RegisterAddress ContractAddress;;
  handleContractRemoval RegisterAddress ContractAddress KeyPrefixStaking.

(** ** Genesis *)

Definition ValidateGenesis (data : GenesisState) : res unit :=
  ensure (forallb (fun v => is_ok (AccAddressFromBech32 v)) (StakingContractAddresses data)) "decoding bech32 failed";;
  ensure (forallb (fun v => is_ok (AccAddressFromBech32 v)) (GovContractAddresses data)) "decoding bech32 failed";;
  Params_Validate (GParams data).

Definition or_panic {A} (r : res A) : M W A :=
  match r with Err e => panic e | r => lift r end.

Definition InitGenesis (data : GenesisState) : M W unit :=
  or_panic (ValidateGenesis data);;
  SetParams (GParams data);;
  forM (StakingContractAddresses data) (fun v =>
    accAddr ← or_panic (AccAddressFromBech32 v); SetContract KeyPrefixStaking accAddr);;
  forM (GovContractAddresses data) (fun v =>
    accAddr ← or_panic (AccAddressFromBech32 v); SetContract KeyPrefixGov accAddr).

Definition ExportGenesis (s : HkStore) : GenesisState :=
  mkGenesis (GetParams s) (GetAllContractsBech32 s KeyPrefixStaking) (GetAllContractsBech32 s KeyPrefixGov).

End Hooks.

(** ** Hooks cannot abort the transaction *)

Section HookProofs.
Context {S G : Type} `{GasMeterLaws G} `{HkHost S G} `{Bech32Laws} `{HasHkLaws S}.

Abbreviation W := (World S G).

(** The run of a message over contracts: one that accepts it commits, any other
    is skipped without a trace but the gas. *)
Inductive HookRun (msgBz : string) (limit : Z) : list string -> W -> W -> Prop :=
| HookRun_nil w : HookRun msgBz limit [] w w
| HookRun_accepted c l w d sub g w' :
    HkSudo c msgBz (set_evs [] (set_meter (NewGasMeter limit) w)) = (Ok d, sub) ->
    HookRun msgBz limit l (mkWorld (store sub) g (evs w ++ evs sub)) w' -> HookRun msgBz limit (c :: l) w w'
| HookRun_skipped c l w r sub g w' :
    HkSudo c msgBz (set_evs [] (set_meter (NewGasMeter limit) w)) = (r, sub) -> is_ok r = false ->
    HookRun msgBz limit l (set_meter g w) w' -> HookRun msgBz limit (c :: l) w w'.

(** On a fresh meter a contract call panics only when it runs out of gas, and
    the meter does not go below zero. *)
Definition well_behaved (msgBz : string) (limit : Z) : Prop := forall c (v : W), meter v = NewGasMeter limit ->
  (forall p, (HkSudo c msgBz v).1 = Panic p -> p = "ErrorOutOfGas"%string) /\
  0 <= GasConsumed (meter (HkSudo c msgBz v).2).

Lemma sudo_contract_run msgBz limit c (w : W) : well_behaved msgBz limit -> 0 <= limit ->
  GasConsumed (meter w) + limit <= GasLimit (meter w) ->
  exists g w1, sudoContract c msgBz limit w = (Ok tt, w1) /\ meter w1 = g /\
    GasLimit g = GasLimit (meter w) /\ GasConsumed (meter w) <= GasConsumed g <= GasConsumed (meter w) + limit /\
    forall l w', HookRun msgBz limit l w1 w' -> HookRun msgBz limit (c :: l) w w'.
Proof.
  intros Hwb Hl Hroom. unfold sudoContract. set (v := set_evs [] (set_meter (NewGasMeter limit) w)).
  destruct (Hwb c v eq_refl) as [Hp Hg]. destruct (HkSudo c msgBz v) as [r sub] eqn:E. cbn [fst snd] in Hp, Hg.
  set (spent := Z.min (GasConsumed (meter sub)) limit).
  assert (Hch : forall x : W, meter x = meter w -> exists g, charge spent x = (Ok tt, set_meter g x) /\
    GasConsumed g = GasConsumed (meter w) + spent /\ GasLimit g = GasLimit (meter w)).
  { intros x Hx. rewrite <- Hx. apply charge_ok. rewrite Hx. lia. }
  assert (0 <= spent <= limit) by lia.
  destruct r as [d|e|p].
  - destruct (Hch (mkWorld (store sub) (meter w) (evs w ++ evs sub)) eq_refl) as (g&->&?&?).
    eexists g, _. split_and!; try done; try lia. intros l w' Hr. by eapply HookRun_accepted.
  - destruct (Hch w eq_refl) as (g&->&?&?). eexists g, _. split_and!; try done; try lia.
    intros l w' Hr. by eapply HookRun_skipped.
  - rewrite (Hp p eq_refl), decide_True by done. destruct (Hch w eq_refl) as (g&->&?&?).
    eexists g, _. split_and!; try done; try lia. intros l w' Hr. by eapply HookRun_skipped.
Qed.

Lemma sudo_contracts_run msgBz limit cs (w : W) : well_behaved msgBz limit -> 0 <= limit ->
  GasConsumed (meter w) + Z.of_nat (length cs) * limit <= GasLimit (meter w) ->
  exists w', forM cs (fun c => sudoContract c msgBz limit) w = (Ok tt, w') /\ HookRun msgBz limit cs w w' /\
    GasConsumed (meter w) <= GasConsumed (meter w') <= GasConsumed (meter w) + Z.of_nat (length cs) * limit.
Proof.
  intros Hwb Hl. revert w. induction cs as [|c cs IH]; intros w Hroom; cbn [length] in *.
  { exists w. split_and!; [done|constructor|lia|lia]. }
  destruct (sudo_contract_run msgBz limit c w Hwb Hl) as (g&w1&E&Hm&Hlim&Hg&Hrun); [nia|].
  destruct (IH w1) as (w'&E'&Hr&Hg'); [rewrite Hm; nia|]. rewrite Hm in Hg'.
  exists w'. cbn [forM]. unfold mbind, M_bind. rewrite E. split_and!; [exact E'|by apply Hrun|nia|nia].
Qed.

(** Calling the registered contracts never makes a staking or governance
    operation fail: given room for one gas limit per contract the hook returns
    normally, every contract that accepts the message commits, one that fails
    or runs out of its gas leaves nothing, and the caller is charged at most
    the limit for each. *)
Theorem hooks_cannot_abort keyPrefix msgBz (w : W) :
  let cs := GetAllContracts (hk (store w)) keyPrefix in
  let limit := ContractGasLimit (GetParams (hk (store w))) in
  well_behaved msgBz limit -> 0 <= limit ->
  GasConsumed (meter w) + Z.of_nat (length cs) * limit <= GasLimit (meter w) ->
  exists w', ExecuteMessageOnContracts keyPrefix msgBz w = (Ok tt, w') /\ HookRun msgBz limit cs w w' /\
    GasConsumed (meter w) <= GasConsumed (meter w') <= GasConsumed (meter w) + Z.of_nat (length cs) * limit.
Proof.
  intros cs limit Hwb Hl Hroom. unfold ExecuteMessageOnContracts, mbind, M_bind, gets.
  by apply sudo_contracts_run.
Qed.

(** ** Registration *)

Inductive HkMsg :=
| MsgRegister (keyPrefix RegisterAddress ContractAddress : string)
| MsgUnregister (keyPrefix RegisterAddress ContractAddress : string).

(** The four messages, by the prefix they work on. *)
Definition handle (m : HkMsg) : M W unit :=
  match m with
  | MsgRegister p r c => if String.eqb p KeyPrefixStaking then RegisterStaking r c else RegisterGovernance r c
  | MsgUnregister p r c => if String.eqb p KeyPrefixStaking then UnregisterStaking r c else UnregisterGovernance r c
  end.

Definition is_prefix (p : string) : Prop := p = KeyPrefixStaking \/ p = KeyPrefixGov.

Lemma hk_key_inj p q a b : is_prefix p -> is_prefix q -> (p ++ a)%string = (q ++ b)%string -> p = q /\ a = b.
Proof. intros [->| ->] [->| ->]; cbn; intros [=]; subst; done. Qed.

(** The sender is the creator and the admin, as far as the contract has them. *)
Definition sender_is_owner (s : S) (sender contract : string) : Prop := exists creator admin,
  ContractInfo s contract = Some (creator, admin) /\
  (creator = ""%string \/ creator = sender) /\ (admin = ""%string \/ admin = sender).

Lemma owner_checked s sender contract u : isContractSenderAuthorized s sender contract = Ok u ->
  sender_is_owner s sender contract.
Proof.
  unfold isContractSenderAuthorized. destruct (ContractInfo s contract) as [[cr ad]|] eqn:E; [|done].
  intros ([]&Hcr%refuse_Ok%andb_false_iff&Had%refuse_Ok%andb_false_iff)%res_bind_Ok.
  exists cr, ad. rewrite !negb_false_iff, !String.eqb_eq in *. done.
Qed.

Lemma hk_register_ok sender c p (w : W) w' : handleContractRegister sender c p w = (Ok tt, w') ->
  exists contract, AccAddressFromBech32 c = Ok contract /\ sender_is_owner (store w) sender contract /\
    IsContractRegistered (hk (store w)) p contract = false /\
    hk (store w') = mkHk (hk_params (hk (store w))) (<[(p ++ contract)%string := tt]> (hk_contracts (hk (store w)))).
Proof.
  unfold handleContractRegister. intros (contract&w1&[Hc <-]%lift_Ok&E)%bind_Ok.
  apply bind_Ok in E as (s&w1&[-> <-]%gets_Ok&E). apply bind_Ok in E as ([]&w1&[Hr <-]%refuseM_Ok&E).
  apply bind_Ok in E as ([]&w1&[Ho%owner_checked <-]%lift_Ok&E). apply modify_Ok in E as ->.
  exists contract. split_and!; try done. cbn. by rewrite hk_set.
Qed.

Lemma hk_unregister_ok sender c p (w : W) w' : handleContractRemoval sender c p w = (Ok tt, w') ->
  exists contract, AccAddressFromBech32 c = Ok contract /\ sender_is_owner (store w) sender contract /\
    IsContractRegistered (hk (store w)) p contract = true /\
    hk (store w') = mkHk (hk_params (hk (store w))) (delete (p ++ contract)%string (hk_contracts (hk (store w)))).
Proof.
  unfold handleContractRemoval. intros (contract&w1&[Hc <-]%lift_Ok&E)%bind_Ok.
  apply bind_Ok in E as (s&w1&[-> <-]%gets_Ok&E). apply bind_Ok in E as ([]&w1&[Hr <-]%ensureM_Ok&E).
  apply bind_Ok in E as ([]&w1&[Ho%owner_checked <-]%lift_Ok&E). apply modify_Ok in E as ->.
  exists contract. split_and!; try done. cbn. by rewrite hk_set.
Qed.

Lemma check_addresses_ok r c (w w' : W) : check_addresses r c w = (Ok tt, w') -> w = w'.
Proof.
  unfold check_addresses. intros (?&?&[_ <-]%lift_Ok&E)%bind_Ok. apply bind_Ok in E as (?&?&[_ <-]%lift_Ok&E).
  by apply ret_Ok in E as [_ <-].
Qed.

Lemma handle_inv m (w w' : W) : handle m w = (Ok tt, w') ->
  match m with
  | MsgRegister p r c => handleContractRegister r c (if String.eqb p KeyPrefixStaking then p else KeyPrefixGov) w = (Ok tt, w')
  | MsgUnregister p r c => handleContractRemoval r c (if String.eqb p KeyPrefixStaking then p else KeyPrefixGov) w = (Ok tt, w')
  end.
Proof.
  destruct m as [p r c|p r c]; cbn; destruct (String.eqb_spec p KeyPrefixStaking) as [->|];
    intros ([]&w1&<-%check_addresses_ok&E)%bind_Ok; done.
Qed.

(** A registration message succeeds only for a sender who is the creator of
    the contract and its admin if it has one; it registers, or removes, exactly
    that contract for exactly that kind of hook, which was not, or was,
    registered before; nothing else changes. *)
Theorem registration_exact m p contract_text sender (w w' : W) : is_prefix p ->
  m = MsgRegister p sender contract_text \/ m = MsgUnregister p sender contract_text ->
  handle m w = (Ok tt, w') ->
  let added := match m with MsgRegister _ _ _ => true | _ => false end in
  exists contract, AccAddressFromBech32 contract_text = Ok contract /\
    sender_is_owner (store w) sender contract /\
    IsContractRegistered (hk (store w)) p contract = negb added /\
    IsContractRegistered (hk (store w')) p contract = added /\
    GetParams (hk (store w')) = GetParams (hk (store w)) /\
    forall q c, is_prefix q -> (q, c) <> (p, contract) ->
      IsContractRegistered (hk (store w')) q c = IsContractRegistered (hk (store w)) q c.
Proof.
  intros Hp Hm E%handle_inv.
  assert (Hpp : (if String.eqb p KeyPrefixStaking then p else KeyPrefixGov) = p) by (by destruct Hp as [->| ->]).
  destruct Hm as [->| ->]; rewrite Hpp in E; cbv zeta.
  - apply hk_register_ok in E as (contract&Hc&Ho&Hr&Hs). exists contract. rewrite Hs. unfold IsContractRegistered in *. cbn.
    split_and!; try done; [by rewrite lookup_insert_eq|]. intros q c Hq Hne. rewrite lookup_insert_ne; [done|].
    intros Hk. apply hk_key_inj in Hk as [-> ->]; done.
  - apply hk_unregister_ok in E as (contract&Hc&Ho&Hr&Hs). exists contract. rewrite Hs. unfold IsContractRegistered in *. cbn.
    split_and!; try done; [by rewrite lookup_delete_eq|]. intros q c Hq Hne. rewrite lookup_delete_ne; [done|].
    intros Hk. apply hk_key_inj in Hk as [-> ->]; done.
Qed.

(** A contract whose creator is not its admin can be registered, and
    unregistered, by nobody, not even by its admin as the specification
    promises. *)
Theorem separate_admin_locked_out s sender contract creator admin :
  ContractInfo s contract = Some (creator, admin) -> creator <> ""%string -> admin <> ""%string -> creator <> admin ->
  isContractSenderAuthorized s sender contract = Err "ErrUnauthorized".
Proof.
  intros E Hc Ha Hne. unfold isContractSenderAuthorized. rewrite E.
  destruct (String.eqb_spec creator ""); [done|]. destruct (String.eqb_spec creator sender) as [->|]; [|done].
  destruct (String.eqb_spec admin ""); [done|]. by destruct (String.eqb_spec admin sender); [congruence|].
Qed.

(** ** Genesis *)

Lemma import_contracts p l (w : W) : Forall (fun c => c <> ""%string) l -> exists w',
  forM (map AccAddress_String l) (fun v => accAddr ← or_panic (AccAddressFromBech32 v); SetContract p accAddr) w = (Ok tt, w') /\
  hk_params (hk (store w')) = hk_params (hk (store w)) /\
  forall k, is_Some (hk_contracts (hk (store w')) !! k) <->
    k ∈ map (String.append p) l \/ is_Some (hk_contracts (hk (store w)) !! k).
Proof.
  intros HF. revert w. induction HF as [|c l Hc _ IH]; intros w.
  { exists w. split_and!; [done|done|]. intros k. split; [auto|]. by intros [?%elem_of_nil|]. }
  cbn [map forM]. rewrite (bech32_roundtrip c Hc). unfold mbind at 1, M_bind at 1. cbn [or_panic].
  unfold mbind at 1, M_bind at 1, lift. unfold SetContract at 1, set_contracts at 1, upd at 1, modify at 1.
  match goal with |- context [forM _ _ ?v] => destruct (IH v) as (w'&E&Hps&Hk) end.
  exists w'. split; [exact E|]. rewrite Hps. cbn. rewrite hk_set. split; [done|].
  intros k. rewrite Hk. cbn. rewrite hk_set. cbn. rewrite elem_of_cons, lookup_insert_is_Some'. naive_solver.
Qed.

(** Every key of the store is a prefix and a non-empty address. *)
Definition hk_ok (s : HkStore) : Prop := forall k u, hk_contracts s !! k = Some u ->
  exists p c, is_prefix p /\ c <> ""%string /\ k = (p ++ c)%string.

Lemma all_contracts_elem s p c : c ∈ GetAllContracts s p <-> hk_contracts s !! (p ++ c)%string = Some tt.
Proof.
  unfold GetAllContracts. rewrite list_elem_of_fmap. split.
  - intros ([k []]&->&Hin). by apply elem_of_iter_prefix in Hin.
  - intros Hc. exists (c, tt). split; [done|]. by apply elem_of_iter_prefix.
Qed.

Lemma all_contracts_nonempty s p : hk_ok s -> is_prefix p -> Forall (fun c => c <> ""%string) (GetAllContracts s p).
Proof.
  intros Hok Hp. apply Forall_forall. intros c Hc%all_contracts_elem.
  apply Hok in Hc as (q&c'&Hq&Hne&Hk). by apply hk_key_inj in Hk as [_ ->].
Qed.

Lemma exported_valid s p : hk_ok s -> is_prefix p ->
  forallb (fun v => is_ok (AccAddressFromBech32 v)) (GetAllContractsBech32 s p) = true.
Proof.
  intros Hok Hp. apply forallb_forall. intros v Hv%list_elem_of_In. unfold GetAllContractsBech32 in Hv.
  apply list_elem_of_fmap in Hv as (c&->&Hc). pose proof (all_contracts_nonempty s p Hok Hp) as HF.
  rewrite Forall_forall in HF. by rewrite bech32_roundtrip by auto.
Qed.

(** Exporting the module's state and importing it into a store without
    contracts succeeds and gives back the same registered contracts for both
    kinds of hook and the same parameters. *)
Theorem hooks_genesis_roundtrip (s : HkStore) (w : W) : hk_ok s -> hk_contracts (hk (store w)) = ∅ ->
  exists w', InitGenesis (ExportGenesis s) w = (Ok tt, w') /\ GetParams (hk (store w')) = GetParams s /\
    forall p c, is_prefix p -> IsContractRegistered (hk (store w')) p c = IsContractRegistered s p c.
Proof.
  intros Hok Hempty.
  set (w1 := set_store (set_hk (mkHk (Some (GetParams s)) (hk_contracts (hk (store w)))) (store w)) w).
  destruct (import_contracts KeyPrefixStaking (GetAllContracts s KeyPrefixStaking) w1) as (w2&E2&Hp2&Hk2).
  { apply all_contracts_nonempty; [done|by left]. }
  destruct (import_contracts KeyPrefixGov (GetAllContracts s KeyPrefixGov) w2) as (w3&E3&Hp3&Hk3).
  { apply all_contracts_nonempty; [done|by right]. }
  exists w3. split_and!.
  - unfold InitGenesis, ExportGenesis, ValidateGenesis. cbn [GParams StakingContractAddresses GovContractAddresses].
    rewrite !exported_valid by first [done | by left | by right].
    apply bind_Ok. exists tt, w. split; [done|]. apply bind_Ok. exists tt, w1. split; [done|].
    apply bind_Ok. exists tt, w2. split; [exact E2|exact E3].
  - unfold GetParams at 1. rewrite Hp3, Hp2. unfold w1. cbn. by rewrite hk_set.
  - intros p c Hp. unfold IsContractRegistered. apply bool_decide_ext. rewrite Hk3, Hk2.
    assert (hk_contracts (hk (store w1)) = ∅) as -> by (unfold w1; cbn; by rewrite hk_set).
    rewrite !list_elem_of_fmap. setoid_rewrite all_contracts_elem. split.
    + intros [(c'&Hk&Hc)|[(c'&Hk&Hc)|[? ?]]]; [..|done]; rewrite Hk; eauto.
    + intros [[] Hc]. destruct Hp as [->| ->]; [right; left|left]; exists c; done.
Qed.

End HookProofs.

(** ** Witnesses *)

Module HooksWitness.
Import Ref RefLaws.
Local Open Scope string_scope.

(** The module's store and a counter; contract "good" counts, "bad" counts and
    fails, "greedy" uses all its gas. *)
Abbreviation St := (HkStore * Z)%type.

#[local] Instance has_hk : HasHk St := {| hk := fst; set_hk x s := (x, snd s) |}.
#[local] Instance has_hk_laws : HasHkLaws St.
Proof. split. done. Qed.

Definition count : M (World St meter) unit :=
  modify (fun w => set_store (fst (store w), (snd (store w) + 1)%Z) w).

#[local] Instance host : HkHost St meter := {|
  HkSudo c _ := if String.eqb c "bad" then count;; throw "refused"
                else if String.eqb c "greedy" then count;; charge 1000;; mret ""
                else charge 7;; count;; mret "";
  ContractInfo _ c := if String.eqb c "split" then Some ("addralice", "addrbob") else Some ("addralice", "");
  StakingValidator _ _ := (None, Ok tt);
  StakingDelegation _ _ _ := (None, Ok tt);
  GovProposals_Get _ _ := Err "not found";
  GovVotes_Get _ _ _ := Err "not found";
  MarshalHook _ := Ok "" |}.

Definition hk0 : HkStore := mkHk (Some (mkParams 100))
  {[KeyPrefixStaking ++ "bad" := tt; KeyPrefixStaking ++ "good" := tt; KeyPrefixStaking ++ "greedy" := tt]}.
Definition w0 : World St meter := mkWorld (hk0, 0%Z) (mkMeter 0 1000) [].

Lemma host_well_behaved : well_behaved "" 100.
Proof.
  intros c [st g es] E. cbn in E. subst g. cbn [HkSudo host].
  destruct (String.eqb c "bad"); [split; [by intros p [=]|done]|].
  destruct (String.eqb c "greedy"); split; cbn; try done; by intros p [= <-].
Qed.

(** Only "good" counts, and the three calls cost 0, 7 and the limit of 100. *)
Lemma hooks_cannot_abort_witness : exists w',
  ExecuteMessageOnContracts KeyPrefixStaking "" w0 = (Ok tt, w') /\
  GasConsumed (WasmDispatch.meter w') <= 300 /\ snd (store w') = 1 /\ GasConsumed (WasmDispatch.meter w') = 107.
Proof.
  destruct (hooks_cannot_abort KeyPrefixStaking "" w0) as (w'&E&_&_&Hg);
    [exact host_well_behaved|vm_compute; discriminate|vm_compute; discriminate|].
  exists w'. split; [exact E|]. split; [vm_compute in Hg |- *; exact Hg|].
  apply (f_equal snd) in E. cbn [snd] in E. subst w'. vm_compute. split; reflexivity.
Defined.

Lemma registration_exact_witness : exists w',
  handle (MsgUnregister KeyPrefixStaking "addralice" "addrgood") w0 = (Ok tt, w') /\
  IsContractRegistered (hk (store w')) KeyPrefixStaking "good" = false.
Proof.
  destruct (handle (MsgUnregister KeyPrefixStaking "addralice" "addrgood") w0) as [r w'] eqn:E.
  assert (r = Ok tt) as -> by (apply (f_equal fst) in E; vm_compute in E; symmetry; exact E).
  exists w'. split; [reflexivity|].
  destruct (registration_exact (MsgUnregister KeyPrefixStaking "addralice" "addrgood") KeyPrefixStaking "addrgood" "addralice"
    w0 w' (or_introl eq_refl) (or_intror eq_refl) E) as (contract&Hc&_&_&Hr&_).
  cbn in Hc. injection Hc as <-. exact Hr.
Defined.

Lemma separate_admin_locked_out_witness :
  isContractSenderAuthorized (hk0, 0%Z) "addrbob" "split" = Err "ErrUnauthorized".
Proof. apply (separate_admin_locked_out _ _ _ "addralice" "addrbob"); try reflexivity; discriminate. Defined.

Lemma hk0_ok : hk_ok hk0.
Proof.
  intros k u Hk. unfold hk0 in Hk. cbn [hk_contracts] in Hk.
  rewrite !lookup_insert_Some, lookup_singleton_Some in Hk.
  destruct Hk as [[<- _]|[_ [[<- _]|[_ [<- _]]]]]; exists KeyPrefixStaking; eexists; (split; [by left|]); (split; [|reflexivity]); discriminate.
Qed.

Lemma hooks_genesis_roundtrip_witness : exists w',
  InitGenesis (ExportGenesis hk0) (mkWorld (mkHk None ∅, 0%Z) (mkMeter 0 1000) []) = (Ok tt, w') /\
  IsContractRegistered (hk (store w')) KeyPrefixStaking "good" = true.
Proof.
  destruct (hooks_genesis_roundtrip hk0 (mkWorld (mkHk None ∅, 0%Z) (mkMeter 0 1000) []) hk0_ok) as (w'&E&_&Hr);
    [reflexivity|].
  exists w'. split; [exact E|]. rewrite Hr by (by left). vm_compute. reflexivity.
Defined.

End HooksWitness.
