(* ===== verification/Drip.v ===== *)
(** * x/drip

    Addresses listed by governance may hand tokens to the fee collector, which
    distributes them to all stakers with the next block. *)

From Stdlib Require Import ZArith Lia.
From stdpp Require Import base gmap strings list sorting.
From S2P Require Import Prelude Sdk SdkRef Bank.

(** ** State and messages *)

Record Params := mkParams { EnableDrip : bool; AllowedAddresses : list string }.

Definition NewParams (enableDrip : bool) (allowedAddresses : list string) : Params :=
  mkParams enableDrip allowedAddresses.
Definition DefaultParams : Params := mkParams true [].

(** The module's parameters, absent before they are set, and the bank. *)
Record DripW (B : Type) := mkDrip { params : option Params; bank : B }.
Arguments mkDrip {B}.
Arguments params {B}.
Arguments bank {B}.

Record MsgDistributeTokens := mkDistribute { SenderAddress : string; MsgAmount : list Coin }.
Record MsgUpdateParams := mkUpdate { Authority : string; NewP : Params }.

Section Drip.
Context {B : Type} `{SdkCoins} `{Bech32} `{BankOps B}.
Variable (feeCollectorName authority : string).

Abbreviation W := (DripW B).

(** ** Parameters *)

(** The loop over the addresses with the set of those seen. *)
Fixpoint assert_addresses (idx : gset string) (addrs : list string) : res unit :=
  match addrs with
  | [] => Ok tt
  | a :: addrs =>
      refuse (String.eqb a "") "ErrBlank";;
      AccAddressFromBech32 a;;
      refuse (bool_decide (a ∈ idx)) "ErrDuplicate";;
      assert_addresses ({[a]} ∪ idx) addrs
  end.

Definition assertValidAddresses (addrs : list string) : res unit := assert_addresses ∅ addrs.

(** The other checks test the types of the fields, which are fixed. *)
Definition Params_Validate (p : Params) : res unit := assertValidAddresses (AllowedAddresses p).

(** Without stored parameters the zero value is returned. *)
Definition GetParams (w : W) : Params := default (mkParams false []) (params w).

Definition SetParams (p : Params) : M W unit :=
  lift (Params_Validate p);; modify (fun w => mkDrip (Some p) (bank w)).

(** ** Messages *)

Definition MsgDistributeTokens_ValidateBasic (msg : MsgDistributeTokens) : res unit :=
  refuse (String.eqb (SenderAddress msg) "") "sender address cannot be empty";;
  AccAddressFromBech32 (SenderAddress msg);;
  refuse (length (MsgAmount msg) =? 0)%nat "invalid coins";;
  ensure (is_ok (Coins_Validate (MsgAmount msg))) "invalid coins".

Definition MsgUpdateParams_ValidateBasic (msg : MsgUpdateParams) : res unit :=
  AccAddressFromBech32 (Authority msg);; Params_Validate (NewP msg).

Definition SendCoinsFromAccountToFeeCollector (senderAddr : string) (amt : list Coin) : M W unit :=
  zoom bank (fun b w => mkDrip (params w) b) (SendCoinsFromAccountToModule senderAddr feeCollectorName amt).

Definition DistributeTokens (msg : MsgDistributeTokens) : M W unit :=
  lift (MsgDistributeTokens_ValidateBasic msg);;
  ps ← gets GetParams;
  ensureM (EnableDrip ps) "ErrDripDisabled";;
  ensureM (existsb (String.eqb (SenderAddress msg)) (AllowedAddresses ps)) "ErrDripNotAllowed";;
  sender ← lift (AccAddressFromBech32 (SenderAddress msg));
  SendCoinsFromAccountToFeeCollector sender (MsgAmount msg).

Definition UpdateParams (req : MsgUpdateParams) : M W unit :=
  ensureM (String.eqb authority (Authority req)) "ErrInvalidSigner";;
  SetParams (NewP req).

(** ** Genesis *)

Definition InitGenesis (data : Params) : M W unit := fun w =>
  match SetParams data w with (Err e, w') => (Panic e, w') | r => r end.

Definition ExportGenesis (w : W) : Params := GetParams w.

End Drip.

(** ** Properties *)

Section DripProofs.
Context {B : Type} `{SdkCoinsLaws} `{Bech32Laws} `{BankLaws B}.
Variable (feeCollectorName authority : string).

Abbreviation W := (DripW B).

(** Valid parameters: the allowed addresses are distinct and well formed. *)
Definition params_ok (p : Params) : Prop :=
  NoDup (AllowedAddresses p) /\ Forall (fun a => is_ok (AccAddressFromBech32 a) = true) (AllowedAddresses p).

Lemma assert_addresses_ok idx addrs : assert_addresses idx addrs = Ok tt <->
  NoDup addrs /\ Forall (fun a => a ∉ idx) addrs /\ Forall (fun a => is_ok (AccAddressFromBech32 a) = true) addrs.
Proof.
  revert idx. induction addrs as [|a addrs IH]; intros idx; cbn [assert_addresses].
  { split; [|done]. intros _. split_and!; constructor. }
  rewrite NoDup_cons, !Forall_cons. split.
  - intros ([]&Hb%refuse_Ok&(acc&Ha&([]&Hd%refuse_Ok%bool_decide_eq_false&(Hnd&Hi&Hok)%IH)%res_bind_Ok)%res_bind_Ok)%res_bind_Ok.
    rewrite Forall_forall in Hi. split_and!; [|done|done| |by rewrite Ha|done].
    + intros Hin. apply Hi in Hin. set_solver.
    + apply Forall_forall. intros x Hx. apply Hi in Hx. set_solver.
  - intros ([Hn Hnd]&[Hi Hir]&[Ha Har]). apply res_bind_Ok. exists tt. split.
    { apply refuse_Ok, String.eqb_neq. intros ->. by rewrite bech32_empty in Ha. }
    destruct (AccAddressFromBech32 a) as [acc| |]; [|done..]. apply res_bind_Ok. exists acc. split; [done|].
    apply res_bind_Ok. exists tt. split; [by apply refuse_Ok, bool_decide_eq_false|].
    apply IH. split_and!; [done| |done]. rewrite Forall_forall in *. intros x Hx. specialize (Hir x Hx). set_solver.
Qed.

Lemma validate_params_ok p : Params_Validate p = Ok tt <-> params_ok p.
Proof.
  unfold Params_Validate, assertValidAddresses. rewrite assert_addresses_ok. unfold params_ok.
  split; [naive_solver|]. intros [? ?]. split_and!; [done| |done]. apply Forall_forall. set_solver.
Qed.

(** Tokens are distributed only while governance has the module enabled and
    only from an address it has listed; exactly the amount of the message, a
    non-empty valid set of coins, moves from that address to the fee collector,
    no supply is created, and the parameters stay. *)
Theorem distribute_effect msg (w w' : W) : DistributeTokens feeCollectorName msg w = (Ok tt, w') ->
  exists sender, AccAddressFromBech32 (SenderAddress msg) = Ok sender /\
    EnableDrip (GetParams w) = true /\ SenderAddress msg ∈ AllowedAddresses (GetParams w) /\
    MsgAmount msg <> [] /\ coins_ok (MsgAmount msg) /\ params w' = params w /\
    transferred (bank w) (bank w') sender (module_address feeCollectorName) (MsgAmount msg).
Proof.
  unfold DistributeTokens. intros ([]&w1&[Hv <-]%lift_Ok&E)%bind_Ok.
  apply bind_Ok in E as (ps&w1&[-> <-]%gets_Ok&E). apply bind_Ok in E as ([]&w1&[He <-]%ensureM_Ok&E).
  apply bind_Ok in E as ([]&w1&[Ha <-]%ensureM_Ok&E). apply bind_Ok in E as (sender&w1&[Hs <-]%lift_Ok&E).
  exists sender. unfold SendCoinsFromAccountToFeeCollector, zoom in E.
  destruct (SendCoinsFromAccountToModule _ _ _ _) as [r b'] eqn:Eb. injection E as -> <-.
  apply SendToModule_ok in Eb. apply existsb_exists in Ha as (x&Hin&<-%String.eqb_eq).
  unfold MsgDistributeTokens_ValidateBasic in Hv. repeat (apply res_bind_Ok in Hv as (?&?&Hv)).
  apply ensure_Ok in Hv. destruct (Coins_Validate (MsgAmount msg)) as [[]| |] eqn:Hc; try done.
  apply Coins_Validate_spec in Hc as [Hc _]. split_and!; try done; [by apply list_elem_of_In|].
  intros En. match goal with Hl : refuse _ "invalid coins" = Ok _ |- _ => apply refuse_Ok in Hl end. by rewrite En in *.
Qed.

(** ** Reachable parameters *)

Inductive DripMsg := Distribute (m : MsgDistributeTokens) | Update (m : MsgUpdateParams).

Definition handle (m : DripMsg) : M W unit :=
  match m with Distribute m => DistributeTokens feeCollectorName m | Update m => UpdateParams authority m end.

Lemma update_cases req (w : W) r w' : UpdateParams authority req w = (r, w') ->
  w' = w \/ (Authority req = authority /\ params_ok (NewP req) /\ w' = mkDrip (Some (NewP req)) (bank w)).
Proof.
  unfold UpdateParams, SetParams, mbind, M_bind, ensureM, lift, ensure, modify.
  destruct (String.eqb_spec authority (Authority req)) as [<-|]; [|intros [= <- <-]; by left].
  destruct (Params_Validate (NewP req)) as [[]| |] eqn:E; intros [= <- <-]; [|by left..].
  apply validate_params_ok in E. by right.
Qed.

Lemma distribute_params msg (w : W) : params (DistributeTokens feeCollectorName msg w).2 = params w.
Proof.
  unfold DistributeTokens, SendCoinsFromAccountToFeeCollector, zoom, mbind, M_bind, lift, gets, ensureM, lift, ensure.
  repeat (case_match; simplify_eq/=; try done).
Qed.

(** After a valid genesis the stored parameters are valid after any sequence
    of messages, successful or not, and differ from the previous ones only
    after a message of the authority. *)
Theorem drip_params_invariant ms (w : W) : (forall p, params w = Some p -> params_ok p) ->
  let w' := fold_left (fun w m => (handle m w).2) ms w in
  (forall p, params w' = Some p -> params_ok p) /\
  (Forall (fun m => match m with Update u => Authority u <> authority | _ => True end) ms -> params w' = params w).
Proof.
  revert w. induction ms as [|m ms IH]; intros w Hw; cbn; [done|].
  assert ((forall p, params (handle m w).2 = Some p -> params_ok p) /\
    (match m with Update u => Authority u <> authority | _ => True end -> params (handle m w).2 = params w)) as [Hok Hsame].
  { destruct m as [d|u]; cbn [handle].
    - rewrite distribute_params. done.
    - destruct (UpdateParams authority u w) as [r w1] eqn:E. cbn.
      apply update_cases in E as [->|(Ha&Hp&->)]; [done|]. split; [by intros p [= <-]|]. done. }
  destruct (IH _ Hok) as [IH1 IH2]. split; [done|]. intros [Hm Hms]%Forall_cons.
  by rewrite IH2, Hsame.
Qed.

End DripProofs.

(** ** Witnesses *)

Module DripWitness.
Import Ref RefLaws RefBank RefBankLaws.
Local Open Scope string_scope.

Definition ps : Params := mkParams true ["addralice"].
Definition w0 : DripW ref_bank :=
  mkDrip (Some ps) (mkBank {[("alice", "uterp") := 50]} {["uterp" := 50]} ∅).
Definition msg : MsgDistributeTokens := mkDistribute "addralice" [mkCoin "uterp" 20].

Lemma distribute_effect_witness : exists w',
  DistributeTokens "fee_collector" msg w0 = (Ok tt, w') /\ balance (bank w') "alice" "uterp" = 30.
Proof.
  destruct (DistributeTokens "fee_collector" msg w0) as [r w'] eqn:E.
  assert (r = Ok tt) as -> by (apply (f_equal fst) in E; vm_compute in E; symmetry; exact E).
  exists w'. split; [reflexivity|].
  destruct (distribute_effect "fee_collector" msg w0 w' E) as (sender&Hs&_&_&_&_&_&Hb&_&_).
  cbn in Hs. injection Hs as <-. rewrite Hb. vm_compute. reflexivity.
Defined.

Lemma drip_params_invariant_witness :
  let w' := fold_left (fun w m => (handle "fee_collector" "gov" m w).2)
    [Distribute msg; Update (mkUpdate "mallory" (mkParams false []))] w0 in
  params w' = Some ps /\ balance (bank w') "alice" "uterp" = 30.
Proof.
  cbv zeta. split; [|vm_compute; reflexivity].
  apply (drip_params_invariant "fee_collector" "gov"
    [Distribute msg; Update (mkUpdate "mallory" (mkParams false []))] w0).
  - intros p [= <-]. split; [apply NoDup_singleton|]. constructor; [reflexivity|constructor].
  - repeat constructor. discriminate.
Defined.

End DripWitness.
