(* ===== verification/Cid.v ===== *)
(** * cmd/ipfs: content identifiers

    The fork of go-cid (cmd/ipfs/cid.go) and the identifier of a single-block
    file (cmd/ipfs/add.go).  A version 0 identifier is a SHA2-256 multihash; a
    version 1 identifier is the byte 1, the number of a codec and a multihash.
    The packages go-varint, go-multihash and go-multibase are parameters.  Binary
    data are lists of bytes, text is a string. *)

From Stdlib Require Import ZArith Lia Ascii.
From stdpp Require Import base strings list.
From S2P Require Import Prelude Store GoLib Varint.

(** ** The packages of multiformats *)

(** [mh.DecodedMultihash]. *)
Record DecodedMultihash := mkDecoded { Code : Z; Length : Z; Digest : list Z }.

Class VarintOps := {
  UvarintSize : Z -> Z;
  (** the buffer afterwards and the number of bytes written *)
  PutUvarint : list Z -> Z -> res (list Z * Z);
  FromUvarint : list Z -> Z * Z * option string;
  (** reads from anything that gives bytes *)
  ReadUvarint : forall S, M S Z -> M S Z }.

Class MultihashOps := {
  mh_Decode : list Z -> res DecodedMultihash;
  mh_Cast : list Z -> res (list Z);
  MHFromBytes : list Z -> res (Z * list Z);
  mh_Sum : list Z -> Z -> Z -> res (list Z);
  B58String : list Z -> string;
  FromB58String : string -> res (list Z) }.

Class MultibaseOps := {
  mb_Encode : Z -> list Z -> res string;
  mb_Decode : string -> res (Z * list Z);
  NewEncoder : Z -> res unit }.

(** [json.Unmarshal] into a pointer to a struct with the one field "/": nil for
    null, else the field. *)
Class CidJson := { json_target : list Z -> res (option string) }.

Definition SHA2_256 : Z := 18.
Definition IDENTITY : Z := 0.
Definition Base32 : Z := 98.
Definition Base58BTC : Z := 122.
Definition MaxVarintLen64 : Z := 10.

(** ** Numbers and errors *)

Fixpoint uvarint_from (i x s : Z) (buf : list Z) : Z * Z * option string :=
  match buf with
  | [] => (0, 0, Some "ErrUnderflow"%string)
  | b :: rest =>
      if b <? 128 then
        if (9 <? i) || ((i =? 9) && (1 <? b)) then (0, 0, Some "ErrOverflow"%string)
        else if (b =? 0) && (0 <? i) then (0, 0, Some "ErrNotMinimal"%string)
        else (Z.lor x (shl64 b s), i + 1, None)
      else uvarint_from (i + 1) (Z.lor x (shl64 (Z.land b 127) s)) (s + 7) rest
  end.

Definition uvarint (buf : list Z) : Z * Z * option string := uvarint_from 0 0 0 buf.

Definition ErrInvalidCid (err : string) : string := ("invalid cid: " ++ err)%string.
Definition ErrCidTooShort : string := ErrInvalidCid "cid too short".
Definition ErrInvalidEncoding : string := "invalid base encoding".

(** A call whose error is wrapped. *)
Definition invalid {A} (r : res A) : res A := match r with Err e => Err (ErrInvalidCid e) | r => r end.
(** A call that returns its error beside other values. *)
Definition checked (r : Z * Z * option string) : res (Z * Z) :=
  match r with (x, n, None) => Ok (x, n) | (_, _, Some e) => Err e end.

Definition DagProtobuf : Z := 112.
Definition Raw : Z := 85.

(** [bz[n:]]. *)
Definition from_index (bz : list Z) (n : Z) : res (list Z) :=
  if (0 <=? n) && (n <=? len bz) then Ok (drop (Z.to_nat n) bz) else Panic "slice bounds out of range".

Record Cid := mkCid { str : list Z }.
Definition Undef : Cid := mkCid [].

#[export] Instance Cid_eq_dec : EqDecision Cid.
Proof. solve_decision. Defined.

Record Prefix := mkPrefix { PfVersion : Z; PfCodec : Z; MhType : Z; MhLength : Z }.

(** What [Parse] accepts. *)
Inductive Any := AString (v : string) | ABytes (v : list Z) | AMultihash (v : list Z) | ACid (c : Cid) | AOther (text : string).

(** ** Readers

    What is left to read, and the error at its end. *)
Record Reader := mkReader { pending : list Z; ending : string; byte_reader : bool }.
Definition EOF : string := "EOF".

(** [io.ReadFull(r, buf)] for a buffer of [n] bytes: the bytes read, the error. *)
Definition ReadFull (n : Z) (r : Reader) : list Z * option string * Reader :=
  let got := take (Z.to_nat n) (pending r) in
  let r' := mkReader (drop (Z.to_nat n) (pending r)) (ending r) (byte_reader r) in
  if n <=? len (pending r) then (got, None, r')
  else (got, Some (if (0 <? len got) && bool_decide (ending r = EOF) then "unexpected EOF"%string else ending r), r').

Record bufByteReader := mkBuf { source : Reader; dst : list Z }.

Definition ReadByte : M bufByteReader Z := fun br =>
  if byte_reader (source br) then
    match pending (source br) with
    | [] => (Err (ending (source br)), br)
    | b :: rest => (Ok b, mkBuf (mkReader rest (ending (source br)) true) (dst br ++ [b]))
    end
  else
    match ReadFull 1 (source br) with
    | ([b], None, r) => (Ok b, mkBuf r (dst br ++ [b]))
    | (_, Some e, r) => (Err e, mkBuf r (dst br))
    | (_, None, r) => (Panic "unreachable", mkBuf r (dst br))
    end.

(** [strings.Split(v, sep)[1]] when [v] contains [sep]. *)
Definition second_part (sep v : string) : option string :=
  match String.index 0 sep v with
  | None => None
  | Some i =>
      let rest := String.substring (i + String.length sep) (String.length v - (i + String.length sep)) v in
      Some (match String.index 0 sep rest with None => rest | Some j => String.substring 0 j rest end)
  end.

Section Cids.
Context `{VarintOps} `{MultihashOps} `{MultibaseOps} `{CidJson}.

(** ** Making identifiers *)

Definition tryNewCidV0 (mhash : list Z) : res Cid :=
  dec ← invalid (mh_Decode mhash);
  refuse (negb (Code dec =? SHA2_256) || negb (Length dec =? 32)) (ErrInvalidCid "invalid hash for cidv0");;
  mret (mkCid mhash).

Definition NewCidV0 (mhash : list Z) : res Cid := match tryNewCidV0 mhash with Err e => Panic e | r => r end.

Definition NewCidV1 (codecType : Z) (mhash : list Z) : res Cid :=
  put ← PutUvarint (replicate (Z.to_nat MaxVarintLen64) 0) codecType;
  mret (mkCid (1 :: take (Z.to_nat put.2) put.1 ++ mhash)).

(** ** Reading identifiers *)

Definition CidFromBytes (data : list Z) : res (Z * Cid) :=
  if (2 <? len data) && bool_decide (take 2 data = [SHA2_256; 32]) then
    refuse (len data <? 34) (ErrInvalidCid "not enough bytes for cid v0");;
    h ← invalid (mh_Cast (take 34 data));
    mret (34, mkCid h)
  else
    version ← invalid (checked (FromUvarint data));
    refuse (negb (version.1 =? 1)) (ErrInvalidCid "expected 1 as the cid version number");;
    rest ← from_index data version.2;
    codec ← invalid (checked (FromUvarint rest));
    rest ← from_index data (version.2 + codec.2);
    hash ← invalid (MHFromBytes rest);
    let l := version.2 + codec.2 + hash.1 in
    must ((0 <=? l) && (l <=? len data)) "slice bounds out of range";;
    mret (l, mkCid (take (Z.to_nat l) data)).

Definition Cast (data : list Z) : res Cid :=
  r ← invalid (CidFromBytes data);
  refuse (negb (r.1 =? len data)) (ErrInvalidCid "trailing bytes in data buffer passed to cid Cast");;
  mret r.2.

Definition looks_v0 (v : string) : bool := (String.length v =? 46)%nat && String.prefix "Qm" v.

Definition Decode (v : string) : res Cid :=
  refuse (String.length v <? 2)%nat ErrCidTooShort;;
  if looks_v0 v then hash ← invalid (FromB58String v); tryNewCidV0 hash
  else data ← invalid (mb_Decode v); Cast data.2.

Definition ExtractEncoding (v : string) : res Z :=
  refuse (String.length v <? 2)%nat ErrCidTooShort;;
  if looks_v0 v then mret Base58BTC
  else
    let encoding := match v with String c _ => Z.of_N (N_of_ascii c) | EmptyString => 0 end in
    invalid (NewEncoder encoding);;
    mret encoding.

Definition Parse (v : Any) : res Cid :=
  match v with
  | AString v => Decode (default v (second_part "/ipfs/" v))
  | ABytes v => Cast v
  | AMultihash v => tryNewCidV0 v
  | ACid c => mret c
  | AOther _ => Err (ErrInvalidCid "can't parse as Cid")
  end.

Definition MustParse (v : Any) : res Cid := match Parse v with Err e => Panic e | r => r end.

Definition UnmarshalBinary (data : list Z) : M Cid unit :=
  casted ← lift (Cast data); modify (fun _ => mkCid (str casted)).

Definition UnmarshalText (text : string) : M Cid unit :=
  decoded ← lift (Decode text); modify (fun _ => mkCid (str decoded)).

(** ** Taking identifiers apart *)

Definition Defined_ (c : Cid) : bool := negb (bool_decide (str c = [])).
Definition Bytes (c : Cid) : list Z := str c.
Definition ByteLen (c : Cid) : Z := len (str c).
Definition Equals (c o : Cid) : bool := bool_decide (c = o).
Definition KeyString (c : Cid) : list Z := str c.
Definition MarshalBinary (c : Cid) : res (list Z) := Ok (Bytes c).

Definition Version (c : Cid) : Z :=
  if (len (str c) =? 34) && bool_decide (take 2 (str c) = [18; 32]) then 0 else 1.

Definition Type_ (c : Cid) : res Z :=
  if Version c =? 0 then Ok DagProtobuf
  else
    let '(_, n, _) := uvarint (str c) in
    rest ← from_index (str c) n;
    let '(codec, _, _) := uvarint rest in
    mret codec.

Definition Hash (c : Cid) : res (list Z) :=
  let bytes := Bytes c in
  if Version c =? 0 then Ok bytes
  else
    let '(_, n1, _) := FromUvarint bytes in
    rest ← from_index bytes n1;
    let '(_, n2, _) := FromUvarint rest in
    from_index bytes (n1 + n2).

Definition Cid_String (c : Cid) : res string :=
  if Version c =? 0 then hash ← Hash c; mret (B58String hash)
  else match mb_Encode Base32 (Bytes c) with Err e => Panic ("should not error with hardcoded mbase: " ++ e)%string | r => r end.

Definition StringOfBase (base : Z) (c : Cid) : res string :=
  if Version c =? 0 then
    ensure (base =? Base58BTC) ErrInvalidEncoding;;
    hash ← Hash c; mret (B58String hash)
  else mb_Encode base (Bytes c).

(** [base] is the encoder of [mbase]. *)
Definition Encode (base : list Z -> string) (c : Cid) : res string :=
  if Version c =? 0 then hash ← Hash c; mret (B58String hash) else mret (base (Bytes c)).

(** The writer takes some of the bytes, with or without an error. *)
Definition WriteBytes (write : list Z -> Z * option string) (c : Cid) : Z * option string :=
  let '(n, err) := write (str c) in
  match err with
  | Some e => (n, Some e)
  | None => if negb (n =? len (str c)) then (n, Some "failed to write entire cid string"%string) else (n, None)
  end.

Definition MarshalText (c : Cid) : res (list Z) := s ← Cid_String c; mret (string_to_bytes s).

Definition MarshalJSON (c : Cid) : res (list Z) :=
  if negb (Defined_ c) then Ok (string_to_bytes "null")
  else
    s ← Cid_String c;
    mret ([123; 34; 47; 34; 58; 34] ++ string_to_bytes s ++ [34; 125]).

Definition UnmarshalJSON (b : list Z) : M Cid unit :=
  refuseM (len b <? 2) (ErrInvalidCid "invalid cid json blob");;
  obj ← lift (invalid (json_target b));
  match obj with
  | None => modify (fun _ => Undef)
  | Some target =>
      refuseM (bool_decide (target = ""%string)) (ErrInvalidCid "cid was incorrectly formatted");;
      out ← lift (invalid (Decode target));
      modify (fun _ => out)
  end.

(** ** Prefixes *)

Definition Prefix_of (c : Cid) : res Prefix :=
  if Version c =? 0 then Ok (mkPrefix 0 DagProtobuf SHA2_256 32)
  else
    let '(version, n, _) := uvarint (str c) in
    let offset := n in
    rest ← from_index (str c) offset;
    let '(codec, n, _) := uvarint rest in
    let offset := offset + n in
    rest ← from_index (str c) offset;
    let '(mhtype, n, _) := uvarint rest in
    let offset := offset + n in
    rest ← from_index (str c) offset;
    let '(mhlen, _, _) := uvarint rest in
    mret (mkPrefix version codec mhtype (i64 mhlen)).

Definition Sum (p : Prefix) (data : list Z) : res Cid :=
  let length := if MhType p =? IDENTITY then -1 else MhLength p in
  refuse ((PfVersion p =? 0) && (negb (MhType p =? SHA2_256) || (negb (MhLength p =? 32) && negb (MhLength p =? -1))))
    (ErrInvalidCid "invalid v0 prefix");;
  hash ← invalid (mh_Sum data (MhType p) length);
  if PfVersion p =? 0 then NewCidV0 hash
  else if PfVersion p =? 1 then NewCidV1 (PfCodec p) hash
  else Err (ErrInvalidCid "invalid cid version").

(** [n += varint.PutUvarint(buf[n:], x)]. *)
Definition put_next (st : list Z * Z) (x : Z) : res (list Z * Z) :=
  let '(buf, n) := st in
  rest ← from_index buf n;
  put ← PutUvarint rest x;
  mret (take (Z.to_nat n) buf ++ put.1, n + put.2).

Definition Prefix_Bytes (p : Prefix) : res (list Z) :=
  let size := UvarintSize (PfVersion p) + UvarintSize (PfCodec p) + UvarintSize (MhType p) + UvarintSize (u64 (MhLength p)) in
  st ← put_next (replicate (Z.to_nat size) 0, 0) (PfVersion p);
  st ← put_next st (PfCodec p);
  st ← put_next st (MhType p);
  st ← put_next st (u64 (MhLength p));
  must (st.2 =? size) "size mismatch";;
  mret st.1.

(** [bytes.NewReader] over the bytes, read byte by byte. *)
Definition next_byte : M (list Z) Z := fun l => match l with [] => (Err EOF, []) | b :: l => (Ok b, l) end.

Definition read_number : M (list Z) Z := fun l =>
  match ReadUvarint (list Z) next_byte l with (Err e, l) => (Err (ErrInvalidCid e), l) | r => r end.

Definition PrefixFromBytes (buf : list Z) : res Prefix :=
  fst ((vers ← read_number;
        codec ← read_number;
        mhtype ← read_number;
        mhlen ← read_number;
        mret (mkPrefix vers codec mhtype (i64 mhlen))) buf).

(** ** Streams *)

Definition maxDigestAlloc : Z := 32 * 2 ^ 20.

(** A failure after the bytes in the buffer: their number and the error. *)
Definition failed {A} (err : string) : M bufByteReader (Z * res A) := fun br => (Ok (len (dst br), Err (ErrInvalidCid err)), br).

(** [varint.ReadUvarint(br)], which either fails the whole or continues. *)
Definition with_number {A} (k : Z -> M bufByteReader (Z * res A)) : M bufByteReader (Z * res A) := fun br =>
  match ReadUvarint bufByteReader ReadByte br with
  | (Ok x, br) => k x br
  | (Err e, br) => failed e br
  | (Panic p, br) => (Panic p, br)
  end.

(** [io.ReadFull(r, br.dst[from:to])] into the buffer, whose bytes from [from] on
    are replaced. *)
Definition fill {A} (from to : Z) (k : M bufByteReader (Z * res A)) : M bufByteReader (Z * res A) := fun br =>
  match ReadFull (to - from) (source br) with
  | (got, None, r) => k (mkBuf r (take (Z.to_nat from) (dst br) ++ got))
  | (got, Some e, r) => (Ok (len (dst br) + len got, Err (ErrInvalidCid e)), mkBuf r (dst br))
  end.

(** The multihash after the codec: its function, its length and its digest. *)
Definition read_hash : M bufByteReader (Z * res Cid) := fun br =>
  let mhStart := len (dst br) in
  with_number (fun _ => with_number (fun mhl br =>
    if maxDigestAlloc <? mhl then failed "refusing to allocate" br
    else
      fill (len (dst br)) (len (dst br) + mhl) (fun br =>
        match MHFromBytes (drop (Z.to_nat mhStart) (dst br)) with
        | Ok _ => (Ok (len (dst br), Ok (mkCid (dst br))), br)
        | Err e => failed e br
        | Panic p => (Panic p, br)
        end) br)) br.

Definition read_v0 : M bufByteReader (Z * res Cid) :=
  fill 1 34 (fun br =>
    match mh_Cast (dst br) with
    | Ok h => (Ok (len (dst br), Ok (mkCid h)), br)
    | Err e => failed e br
    | Panic p => (Panic p, br)
    end).

Definition read_cid : M bufByteReader (Z * res Cid) := fun br =>
  match ReadUvarint bufByteReader ReadByte br with
  | (Err e, br) => if bool_decide (e = EOF) then (Ok (0, Err e), br) else failed e br
  | (Panic p, br) => (Panic p, br)
  | (Ok vers, br) =>
      (if vers =? SHA2_256 then read_v0
       else if negb (vers =? 1) then failed "expected 1 as the cid version number"
       else with_number (fun _ => read_hash)) br
  end.

(** The number of bytes read, the identifier or an error, and the reader. *)
Definition CidFromReader (r : Reader) : res (Z * res Cid) * Reader :=
  let '(out, br) := read_cid (mkBuf r []) in (out, source br).

(** ** Files *)

Definition DefaultChunkSize : Z := 262144.

(** At most ten rounds for 64 bits. *)
Fixpoint append_uvarint (fuel : nat) (buf : list Z) (x : Z) : list Z :=
  match fuel with
  | O => buf
  | S fuel => if 128 <=? x then append_uvarint fuel (buf ++ [Z.lor (x mod 256) 128]) (Z.shiftr x 7) else buf ++ [x mod 256]
  end.
Definition appendUvarint : list Z -> Z -> list Z := append_uvarint 10.

Definition appendVarintField (buf : list Z) (fieldNum v : Z) : list Z :=
  appendUvarint (appendUvarint buf (Z.lor (Z.shiftl fieldNum 3) 0)) v.

Definition appendBytesField (buf : list Z) (fieldNum : Z) (data : list Z) : list Z :=
  appendUvarint (appendUvarint buf (Z.lor (Z.shiftl fieldNum 3) 2)) (len data) ++ data.

Definition encodeUnixFSFileBlock (data : list Z) : list Z :=
  let unixfs := appendVarintField (appendBytesField (appendVarintField [] 1 2) 2 data) 3 (len data) in
  appendBytesField [] 1 unixfs.

Definition AddBytes (data : list Z) : res Cid :=
  refuse (DefaultChunkSize <? len data) "ipfs.AddBytes: exceeds single-block limit";;
  hash ← mh_Sum (encodeUnixFSFileBlock data) SHA2_256 (-1);
  NewCidV0 hash.

Definition AddBytesString (data : list Z) : res string := c ← AddBytes data; Cid_String c.

End Cids.

(** ** What the packages promise *)

(** go-varint supports numbers of 63 bits. *)
Definition is_u63 (x : Z) : Prop := 0 <= x < 2 ^ 63.

(** A multihash: the number of a hash function, the length of the digest and the
    digest. *)
Definition multihash (code : Z) (digest : list Z) : list Z := varint code ++ varint (len digest) ++ digest.
Definition hash_ok (code : Z) (digest : list Z) : Prop :=
  is_u63 code /\ len digest < 2 ^ 31 /\ Forall is_byte digest.

(** [next] gives the bytes of a list one after the other. *)
Fixpoint reads {S} (next : M S Z) (l : list Z) (s s' : S) : Prop :=
  match l with [] => s' = s | b :: l => exists s1, next s = (Ok b, s1) /\ reads next l s1 s' end.

Definition gives_bytes {S} (next : M S Z) (s : S) : Prop :=
  forall bs s1, reads next bs s s1 -> Forall is_byte bs /\ forall p s2, next s1 <> (Panic p, s2).

Class VarintLaws `{VarintOps} : Prop := {
  UvarintSize_law x : is_u64 x -> UvarintSize x = len (varint x);
  PutUvarint_law buf x : is_u64 x -> len (varint x) <= len buf ->
    PutUvarint buf x = Ok (varint x ++ drop (length (varint x)) buf, len (varint x));
  FromUvarint_law buf x n : Forall is_byte buf ->
    FromUvarint buf = (x, n, None) <-> is_u63 x /\ n = len (varint x) /\ exists rest, buf = varint x ++ rest;
  (** minimal encodings of 63 bits are read ... *)
  ReadUvarint_Ok S (next : M S Z) s x s' : gives_bytes next s ->
    ReadUvarint S next s = (Ok x, s') <-> is_u63 x /\ reads next (varint x) s s';
  (** ... others are refused, or the source fails; the end of the input is
      unexpected after the first byte *)
  ReadUvarint_Err S (next : M S Z) s e s' : gives_bytes next s -> ReadUvarint S next s = (Err e, s') ->
    exists bs s1, reads next bs s s1 /\
      (s' = s1 /\ e <> EOF \/ exists e', next s1 = (Err e', s') /\ (bs = [] /\ e = e' \/ bs <> [] /\ e <> EOF));
  ReadUvarint_Panic S (next : M S Z) s p s' : gives_bytes next s -> ReadUvarint S next s <> (Panic p, s') }.

(** Text of letters and digits. *)
Definition alphanumeric (c : ascii) : bool :=
  let n := N_of_ascii c in ((48 <=? n) && (n <=? 57) || (65 <=? n) && (n <=? 90) || (97 <=? n) && (n <=? 122))%N.
Definition plain (s : string) : Prop := Forall (fun c => alphanumeric c = true) (String.list_ascii_of_string s).

Class MultihashLaws `{MultihashOps} : Prop := {
  Decode_law l d : Forall is_byte l ->
    mh_Decode l = Ok d <-> hash_ok (Code d) (Digest d) /\ Length d = len (Digest d) /\ l = multihash (Code d) (Digest d);
  Cast_law l h : Forall is_byte l ->
    mh_Cast l = Ok h <-> h = l /\ exists code digest, hash_ok code digest /\ l = multihash code digest;
  MHFromBytes_law l n h : Forall is_byte l ->
    MHFromBytes l = Ok (n, h) <-> n = len h /\ exists code digest rest, hash_ok code digest /\ h = multihash code digest /\ l = h ++ rest;
  mh_returns l : returns (mh_Decode l) /\ returns (mh_Cast l) /\ returns (MHFromBytes l);
  (** the default length of SHA2-256 is 32 bytes *)
  Sum_sha256 data : exists digest, len digest = 32 /\ Forall is_byte digest
    /\ mh_Sum data SHA2_256 32 = Ok (multihash SHA2_256 digest) /\ mh_Sum data SHA2_256 (-1) = Ok (multihash SHA2_256 digest);
  FromB58_law code digest : hash_ok code digest ->
    FromB58String (B58String (multihash code digest)) = Ok (multihash code digest);
  B58_plain h : plain (B58String h);
  (** identifiers of version 0 are recognised by their form *)
  B58_sha256 digest : len digest = 32 -> Forall is_byte digest ->
    String.length (B58String (multihash SHA2_256 digest)) = 46%nat
    /\ String.prefix "Qm" (B58String (multihash SHA2_256 digest)) = true }.

(** The code of a base is the character its texts begin with: an ASCII character for all
    bases but base256emoji, whose texts begin with the four bytes of U+1F680.  No base
    has the letter Q, which is reserved for identifiers of version 0. *)
Definition Base256Emoji : Z := 128640.
Definition base_prefix (base : Z) : string :=
  if base =? Base256Emoji then bytes_to_string [240; 159; 154; 128] else String (ascii_of_N (Z.to_N base)) "".

Class MultibaseLaws `{MultibaseOps} : Prop := {
  mb_Decode_Encode base data s : Forall is_byte data -> mb_Encode base data = Ok s -> mb_Decode s = Ok (base, data);
  mb_letter base data s : mb_Encode base data = Ok s -> exists t, s = (base_prefix base ++ t)%string /\ (data <> [] -> t <> ""%string);
  mb_no_Q data s : mb_Encode 81 data <> Ok s;
  mb_base32 data : exists s, mb_Encode Base32 data = Ok s /\ plain s;
  mb_encoder base data s : mb_Encode base data = Ok s -> NewEncoder base = Ok tt;
  mb_bases base : NewEncoder base = Ok tt -> 0 <= base < 128 \/ base = Base256Emoji;
  mb_returns base : returns (NewEncoder base) }.

(** The object a plain text is put into, and null. *)
Definition json_object (s : string) : list Z := [123; 34; 47; 34; 58; 34] ++ string_to_bytes s ++ [34; 125].

Class CidJsonLaws `{CidJson} : Prop := {
  json_object_law s : plain s -> json_target (json_object s) = Ok (Some s);
  json_null_law : json_target (string_to_bytes "null") = Ok None }.

(** ** Numbers *)

(** After ten bytes nothing is accepted. *)
Lemma uvarint_too_long buf i x s : 10 <= i -> exists v n e, uvarint_from i x s buf = (v, n, Some e).
Proof.
  revert i x s. induction buf as [|b buf IH]; intros i x s Hi; cbn; [by eauto|].
  destruct (b <? 128); [|apply IH; lia].
  destruct (Z.ltb_spec 9 i); [cbn; by eauto|lia].
Qed.

(** A group added to the bits read so far. *)
Lemma lor_group acc b s : 0 <= s -> 0 <= acc < 2 ^ s -> 0 <= b -> acc + b * 2 ^ s < 2 ^ 64 ->
  Z.lor acc (shl64 b s) = acc + b * 2 ^ s.
Proof.
  intros. unfold shl64.
  rewrite u64_small by (rewrite Z.shiftl_mul_pow2 by lia; unfold is_u64; split; [apply Z.mul_nonneg_nonneg|]; lia).
  by apply lor_disjoint.
Qed.

Lemma next_weight i : 0 <= i -> 2 ^ (7 * (i + 1)) = 128 * 2 ^ (7 * i).
Proof. intros. replace (7 * (i + 1)) with (7 * i + 7) by lia. rewrite Z.pow_add_r by lia. lia. Qed.

Lemma group_split v : 0 <= v mod 128 < 128 /\ v = 128 * (v / 128) + v mod 128.
Proof. split; [apply Z.mod_pos_bound; lia|apply Z.div_mod; lia]. Qed.

(** Reading on from index [i] with [k] bytes to go. *)
Lemma uvarint_reads k i acc v rest : i = 10 - Z.of_nat (S k) -> 0 <= i -> 0 <= acc < 2 ^ (7 * i) ->
  0 <= v -> acc + v * 2 ^ (7 * i) < 2 ^ 64 -> (i = 0 \/ v <> 0) ->
  uvarint_from i acc (7 * i) (groups (S k) v ++ rest) = (acc + v * 2 ^ (7 * i), i + len (groups (S k) v), None).
Proof.
  revert i acc v. induction k as [|k IH]; intros i acc v Hk Hi Ha Hv Hb Hz.
  - assert (i = 9) as -> by lia. change (2 ^ (7 * 9)) with (2 ^ 63) in *.
    assert (v = 0 \/ v = 1) as [->| ->] by lia; [lia|]. cbn [groups]. change (128 <=? 1) with false.
    cbn -[shl64 Z.pow Z.mul]. f_equal. f_equal. change (7 * 9) with 63. by rewrite lor_group by lia.
  - rewrite groups_S. destruct (Z.leb_spec 128 v) as [Hle|Hlt]; cbn [app uvarint_from].
    + destruct (group_split v) as [Hm Hdm]. destruct (Z.ltb_spec (128 + v mod 128) 128); [lia|].
      rewrite low_group, <- Z.add_mod_idemp_l, Z_mod_same_full, Z.add_0_l, Z.mod_mod by lia.
      assert (0 < v / 128) by (apply Z.div_str_pos; lia). pose proof (next_weight i Hi) as Hp.
      rewrite lor_group by nia. replace (7 * i + 7) with (7 * (i + 1)) by lia.
      rewrite IH; [|lia|lia|rewrite Hp; nia|lia|rewrite Hp; nia|lia].
      rewrite Hp. f_equal. f_equal; [nia|]. unfold len. cbn [length]. lia.
    + destruct (Z.ltb_spec v 128); [|lia].
      destruct (Z.ltb_spec 9 i); [lia|]. destruct (Z.eqb_spec i 9); [lia|]. cbn [orb andb].
      destruct ((v =? 0) && (0 <? i)) eqn:E; [apply andb_true_iff in E as [?%Z.eqb_eq ?%Z.ltb_lt]; lia|].
      by rewrite lor_group by lia.
Qed.

Lemma uvarint_varint v rest : is_u64 v -> uvarint (varint v ++ rest) = (v, len (varint v), None).
Proof.
  unfold is_u64. intros Hv. unfold uvarint, varint.
  pose proof (uvarint_reads 9 0 0 v rest) as E. rewrite !Z.mul_0_r, Z.pow_0_r, Z.mul_1_r in E.
  rewrite E by lia. done.
Qed.

(** What is accepted is the encoding of what is returned. *)
Lemma uvarint_only k i acc buf x n : Forall is_byte buf -> i = 10 - Z.of_nat (S k) -> 0 <= i -> 0 <= acc < 2 ^ (7 * i) ->
  uvarint_from i acc (7 * i) buf = (x, n, None) ->
  exists v rest, buf = groups (S k) v ++ rest /\ x = acc + v * 2 ^ (7 * i) /\ n = i + len (groups (S k) v)
    /\ 0 <= v /\ x < 2 ^ 64 /\ (i = 0 \/ v <> 0).
Proof.
  revert i acc buf. induction k as [|k IH]; intros i acc [|b buf] Hbuf Hk Hi Ha E; cbn [uvarint_from] in E; try done;
    apply Forall_cons in Hbuf as [Hb Hbuf]; unfold is_byte in Hb; pose proof (next_weight i Hi) as Hp;
    destruct (Z.ltb_spec b 128).
  2: { destruct (uvarint_too_long buf (i + 1) (Z.lor acc (shl64 (Z.land b 127) (7 * i))) (7 * i + 7)) as (?&?&?&E'); [lia|].
       congruence. }
  1, 2: destruct ((9 <? i) || _) eqn:E1; [done|]; destruct ((b =? 0) && _) eqn:E2; [done|].
  - assert (i = 9) as -> by lia. change (9 =? 9) with true in E1. cbn in E1. apply Z.ltb_ge in E1.
    apply andb_false_iff in E2 as [E2%Z.eqb_neq|]; [|done]. assert (b = 1) as -> by lia.
    change (2 ^ (7 * 9)) with (2 ^ 63) in *. rewrite lor_group in E by (change (2 ^ (7 * 9)) with (2 ^ 63); lia).
    injection E as <- <-. exists 1, buf. change (2 ^ (7 * 9)) with (2 ^ 63). split_and!; try done; lia.
  - assert (128 * 2 ^ (7 * i) <= 2 ^ 63) as Hle by (rewrite <- Hp; change (2 ^ 63) with (2 ^ (7 * 9)); apply Z.pow_le_mono_r; lia).
    rewrite lor_group in E by nia. injection E as <- <-. exists b, buf. rewrite groups_S.
    destruct (Z.leb_spec 128 b); [lia|].
    apply andb_false_iff in E2 as [?%Z.eqb_neq|?%Z.ltb_ge]; split_and!; try done; try nia; lia.
  - assert (128 * 2 ^ (7 * i) <= 2 ^ 63) as Hle by (rewrite <- Hp; change (2 ^ 63) with (2 ^ (7 * 9)); apply Z.pow_le_mono_r; lia).
    destruct (group_split b) as [Hm Hdm]. rewrite low_group in E. rewrite lor_group in E by nia.
    replace (7 * i + 7) with (7 * (i + 1)) in E by lia.
    apply IH in E as (v & rest & -> & -> & -> & Hv & Hlt & Hnz); [|done|lia|lia|rewrite Hp; nia].
    assert (b / 128 = 1) by (symmetry; apply Z.div_unique with (b - 128); lia).
    exists (b mod 128 + 128 * v), rest. rewrite (groups_S (S k)). rewrite Hp in Hlt |- *.
    destruct (Z.leb_spec 128 (b mod 128 + 128 * v)); [|lia].
    rewrite (Z.mul_comm 128 v), Z.div_add, (Z.div_small (b mod 128)), Z.mod_add, Z.mod_mod by lia.
    rewrite Z.add_0_l. split_and!; [cbn; f_equal; lia|lia|unfold len; cbn [length]; lia|lia|lia|lia].
Qed.

Lemma uvarint_inv buf x n : Forall is_byte buf -> uvarint buf = (x, n, None) ->
  is_u64 x /\ exists rest, buf = varint x ++ rest /\ n = len (varint x).
Proof.
  intros Hb E. apply (uvarint_only 9 0 0) in E as (v & rest & -> & -> & -> & ? & ? & ?); [|done..|lia|lia].
  change (2 ^ (7 * 0)) with 1 in *. rewrite Z.mul_1_r in *. split; [unfold is_u64; lia|by exists rest].
Qed.

Lemma varint_len x : is_u64 x -> len (varint x) <= 10.
Proof.
  intros Hx. unfold varint. rewrite groups_length by by apply u64_groups. assert (Z.log2 x < 64).
  2: { pose proof (Z.log2_nonneg x). pose proof (Z.div_lt_upper_bound (Z.log2 x) 7 10). lia. }
  destruct (Z.eq_dec x 0) as [->|]; [done|]. apply Z.log2_lt_pow2; unfold is_u64 in Hx; lia.
Qed.

Lemma varint_bytes v : is_u64 v -> Forall is_byte (varint v).
Proof.
  assert (forall n v, 0 <= v -> Forall is_byte (groups n v)) as Hg.
  { intros n. induction n as [|n IH]; intros w Hw; cbn; [constructor|].
    destruct (group_split w). destruct (Z.leb_spec 128 w); repeat constructor; unfold is_byte; try lia.
    apply IH. apply Z.div_pos; lia. }
  unfold is_u64, varint. intros. apply Hg. lia.
Qed.

Lemma u63_u64 x : is_u63 x -> is_u64 x.
Proof. unfold is_u63, is_u64. lia. Qed.

(** Encodings are prefix-free. *)
Lemma varint_inj x y a b : is_u64 x -> is_u64 y -> varint x ++ a = varint y ++ b -> x = y /\ a = b.
Proof.
  intros Hx Hy E. pose proof (uvarint_varint x a Hx) as E1. rewrite E, uvarint_varint in E1 by done.
  injection E1 as -> _. split; [done|]. by apply app_inv_head in E.
Qed.

Lemma varint_small v : 0 <= v < 128 -> varint v = [v].
Proof. intros Hv. unfold varint. rewrite groups_S. by destruct (Z.leb_spec 128 v); [lia|]. Qed.

Lemma length_u63 {A} (l : list A) : len l < 2 ^ 31 -> is_u63 (len l).
Proof. unfold is_u63, len. lia. Qed.

Lemma multihash_inj c1 d1 c2 d2 a b : hash_ok c1 d1 -> hash_ok c2 d2 ->
  multihash c1 d1 ++ a = multihash c2 d2 ++ b -> c1 = c2 /\ d1 = d2 /\ a = b.
Proof.
  intros (Hc1&Hd1&_) (Hc2&Hd2&_) E. unfold multihash in E. rewrite <- !app_assoc in E.
  apply varint_inj in E as [-> E]; [|by apply u63_u64..].
  apply varint_inj in E as [El E]; [|by apply u63_u64, length_u63..].
  apply app_inj_1 in E as [-> ->]; [done|]. unfold len in El. lia.
Qed.

Lemma multihash_bytes c d : hash_ok c d -> Forall is_byte (multihash c d).
Proof.
  intros (Hc&Hl&Hd). unfold multihash. apply Forall_app. split; [by apply varint_bytes, u63_u64|].
  apply Forall_app. split; [by apply varint_bytes, u63_u64, length_u63|done].
Qed.

Lemma sha256_ok d : len d = 32 -> Forall is_byte d -> hash_ok SHA2_256 d.
Proof. intros Hl Hd. split_and!; [unfold is_u63, SHA2_256; lia|lia|done]. Qed.

Lemma sha256_form d : len d = 32 -> multihash SHA2_256 d = [18; 32] ++ d.
Proof. intros Hl. unfold multihash. by rewrite Hl, !varint_small. Qed.

(** ** Binary identifiers *)

#[global] Arguments multihash : simpl never.

Inductive wf : Cid -> Prop :=
| wf_v0 digest : len digest = 32 -> Forall is_byte digest -> wf (mkCid (multihash SHA2_256 digest))
| wf_v1 codec code digest : is_u63 codec -> hash_ok code digest -> wf (mkCid (1 :: varint codec ++ multihash code digest)).

(** The digest at the end of an identifier. *)
Inductive digest_of : Cid -> list Z -> Prop :=
| digest_v0 digest : len digest = 32 -> Forall is_byte digest -> digest_of (mkCid (multihash SHA2_256 digest)) digest
| digest_v1 codec code digest : is_u63 codec -> hash_ok code digest ->
    digest_of (mkCid (1 :: varint codec ++ multihash code digest)) digest.

Lemma wf_digest c : wf c -> exists digest, digest_of c digest.
Proof. intros [d|codec code d]; exists d; by constructor. Qed.

Lemma digest_wf c digest : digest_of c digest -> wf c.
Proof. intros [d|codec code d]; by constructor. Qed.

(** It is the only one. *)
Lemma digest_unique c d1 d2 : digest_of c d1 -> digest_of c d2 -> d1 = d2.
Proof.
  intros [d Hl Hd|codec code d Hc Hh]; match goal with |- digest_of ?c _ -> _ => remember c as c' eqn:E end;
    intros H2; revert E; destruct H2 as [d' Hl' Hd'|codec' code' d' Hc' Hh']; intros E; apply (f_equal str) in E; cbn [str] in E.
  - rewrite !sha256_form in E by done. by apply app_inv_head in E.
  - by rewrite sha256_form in E.
  - by rewrite sha256_form in E.
  - injection E as E. apply varint_inj in E as [-> E]; [|by apply u63_u64..].
    rewrite <- (app_nil_r (multihash code d)), <- (app_nil_r (multihash code' d')) in E.
    by apply multihash_inj in E as (_&->&_).
Qed.

Ltac ret_inv := match goal with H : mret _ = Ok _ |- _ => injection H as <- <- end.

Lemma invalid_Ok {A} (r : res A) a : invalid r = Ok a <-> r = Ok a.
Proof. by destruct r. Qed.

Lemma checked_Ok r x n : checked r = Ok (x, n) <-> r = (x, n, None).
Proof. destruct r as [[x' n'] [e|]]; cbn; split; intros E; by simplify_eq. Qed.

Lemma from_index_app a b : from_index (a ++ b) (len a) = Ok b.
Proof.
  unfold from_index. rewrite len_app. unfold len.
  destruct (Z.leb_spec 0 (Z.of_nat (length a))), (Z.leb_spec (Z.of_nat (length a)) (Z.of_nat (length a) + Z.of_nat (length b)));
    try lia. cbn. by rewrite Nat2Z.id, drop_app_length.
Qed.

Lemma take_len_app {A} (a b : list A) : take (Z.to_nat (len a)) (a ++ b) = a.
Proof. unfold len. by rewrite Nat2Z.id, take_app_length. Qed.

Lemma drop_len_app {A} (a b : list A) : drop (Z.to_nat (len a)) (a ++ b) = b.
Proof. unfold len. by rewrite Nat2Z.id, drop_app_length. Qed.

Lemma len_cons {A} (x : A) l : len (x :: l) = 1 + len l.
Proof. unfold len. cbn [length]. lia. Qed.

Lemma len_nonneg {A} (l : list A) : 0 <= len l.
Proof. unfold len. lia. Qed.

Lemma prefix_in_bounds {A} (a b : list A) : (0 <=? len a) && (len a <=? len (a ++ b)) = true.
Proof. rewrite len_app. unfold len. apply andb_true_iff. rewrite !Z.leb_le. lia. Qed.

Lemma wf_bytes c : wf c -> Forall is_byte (str c).
Proof.
  intros [d Hl Hd|codec code d Hc Hh]; cbn; [by apply multihash_bytes, sha256_ok|].
  constructor; [unfold is_byte; lia|]. apply Forall_app. split; [by apply varint_bytes, u63_u64|by apply multihash_bytes].
Qed.

(** The two versions are told apart by their first bytes. *)
Lemma wf_version c : wf c -> Version c = if bool_decide (take 2 (str c) = [18; 32]) then 0 else 1.
Proof.
  unfold Version. intros [d Hl Hd|codec code d Hc Hh]; cbn [str].
  - rewrite sha256_form by done. rewrite len_app, Hl. done.
  - rewrite andb_comm. by rewrite bool_decide_false by (cbn; intros ?; simplify_eq).
Qed.

Section Binary.
Context `{VarintLaws} `{MultihashLaws}.

Lemma version_one data n : Forall is_byte data -> FromUvarint data = (1, n, None) <-> n = 1 /\ exists rest, data = 1 :: rest.
Proof.
  intros Hb. rewrite FromUvarint_law by done. rewrite varint_small by lia. cbn. unfold is_u63. naive_solver lia.
Qed.

(** A buffer that begins like version 0. *)
Definition begins_v0 (data : list Z) : bool := (2 <? len data) && bool_decide (take 2 data = [SHA2_256; 32]).

Lemma not_v1 data rest : begins_v0 data = true -> data <> 1 :: rest.
Proof. unfold begins_v0. intros [_ E%bool_decide_eq_true]%andb_true_iff ->. by destruct rest. Qed.

Lemma v0_begins d rest : len d = 32 -> begins_v0 (multihash SHA2_256 d ++ rest) = true.
Proof.
  intros Hl. unfold begins_v0. rewrite sha256_form by done. rewrite !len_app, Hl.
  pose proof (len_nonneg rest). destruct (Z.ltb_spec 2 (len [18; 32] + 32 + len rest)); [done|].
  change (len [18; 32]) with 2 in *. lia.
Qed.

Lemma cast_v0 data : Forall is_byte data -> begins_v0 data = true -> 34 <= len data ->
  exists d rest, len d = 32 /\ Forall is_byte d /\ data = multihash SHA2_256 d ++ rest /\ take 34 data = multihash SHA2_256 d.
Proof.
  unfold begins_v0. intros Hb [_ E%bool_decide_eq_true]%andb_true_iff Hl.
  exists (take 32 (drop 2 data)), (drop 34 data).
  assert (len (take 32 (drop 2 data)) = 32) as Hl' by (unfold len in *; rewrite length_take, length_drop; lia).
  rewrite sha256_form by done. change [18; 32] with [SHA2_256; 32]. rewrite <- E. split_and!; [done| | |].
  - by apply Forall_take, Forall_drop.
  - change (drop 34 data) with (drop (2 + 32) data).
    rewrite <- drop_drop, <- app_assoc, take_drop, take_drop. done.
  - change 34%nat with (2 + 32)%nat. by rewrite <- take_take_drop.
Qed.

Lemma v0_length d rest : len d = 32 -> 34 <= len (multihash SHA2_256 d ++ rest) /\ len (multihash SHA2_256 d) = 34.
Proof. intros Hl. pose proof (len_nonneg rest). rewrite sha256_form, !len_app, Hl by done. change (len [18; 32]) with 2. lia. Qed.

Lemma v1_not_v0 rest : begins_v0 (1 :: rest) = false.
Proof. destruct (begins_v0 _) eqn:E; [|done]. by apply not_v1 with (rest := rest) in E. Qed.

Lemma v1_index codec a : from_index (1 :: varint codec ++ a) (1 + len (varint codec)) = Ok a.
Proof. rewrite <- (len_cons 1). apply (from_index_app (1 :: varint codec) a). Qed.

Lemma v1_end codec h rest : let c := 1 :: varint codec ++ h in
  1 + len (varint codec) + len h = len c /\ 1 :: varint codec ++ h ++ rest = c ++ rest.
Proof. split; [rewrite len_cons, len_app; lia|]. cbn. by rewrite app_assoc. Qed.

Lemma from_bytes_ok c rest : wf c -> Forall is_byte rest -> CidFromBytes (str c ++ rest) = Ok (len (str c), c).
Proof.
  intros Hc Hr. assert (Forall is_byte (str c ++ rest)) as Hb by (apply Forall_app; split; [by apply wf_bytes|done]).
  unfold CidFromBytes. fold (begins_v0 (str c ++ rest)). destruct Hc as [d Hl Hd|codec code d Hc Hh]; cbn [str] in *.
  - rewrite v0_begins by done. destruct (v0_length d rest Hl) as [Hge Hlen]. destruct (Z.ltb_spec (len (multihash SHA2_256 d ++ rest)) 34); [lia|].
    change 34%nat with (Z.to_nat 34). rewrite <- Hlen, take_len_app. cbn.
    assert (mh_Cast (multihash SHA2_256 d) = Ok (multihash SHA2_256 d)) as ->; [|done].
    apply Cast_law; [by apply multihash_bytes, sha256_ok|]. split; [done|]. exists SHA2_256, d. split; [by apply sha256_ok|done].
  - cbn [app] in *. rewrite v1_not_v0, <- app_assoc in *. apply Forall_cons in Hb as [Hb1 Hb].
    assert (FromUvarint (1 :: varint codec ++ multihash code d ++ rest) = (1, 1, None)) as ->
      by (apply version_one; [by constructor|by eauto]).
    cbn [checked invalid mbind res_bind fst snd]. change (negb (1 =? 1)) with false. cbn [refuse mbind res_bind].
    change (from_index (1 :: ?l) 1) with (from_index ([1] ++ l) (len [1])). rewrite from_index_app. cbn [mbind res_bind].
    assert (FromUvarint (varint codec ++ multihash code d ++ rest) = (codec, len (varint codec), None)) as ->
      by (apply FromUvarint_law; [done|by eauto]).
    cbn [checked invalid mbind res_bind fst snd]. rewrite v1_index. cbn [mbind res_bind].
    apply Forall_app in Hb as [_ Hb].
    assert (MHFromBytes (multihash code d ++ rest) = Ok (len (multihash code d), multihash code d)) as ->
      by (apply MHFromBytes_law; [done|]; split; [done|by exists code, d, rest]).
    cbn [invalid mbind res_bind fst snd].
    destruct (v1_end codec (multihash code d) rest) as [-> ->]. by rewrite prefix_in_bounds, take_len_app.
Qed.

(** The two branches, inverted. *)
Lemma from_bytes_inv data n c : Forall is_byte data -> CidFromBytes data = Ok (n, c) ->
  wf c /\ n = len (str c) /\ exists rest, data = str c ++ rest.
Proof.
  intros Hb. unfold CidFromBytes. fold (begins_v0 data). destruct (begins_v0 data) eqn:Ev; intros E; go_inv.
  - rewrite invalid_Ok in *. match goal with H : (_ <? _) = false |- _ => apply Z.ltb_ge in H; rename H into Hl end.
    destruct (cast_v0 data Hb Ev Hl) as (d & rest & Hd & Hdb & Ed & Et). rewrite Et in *.
    match goal with H : mh_Cast _ = _ |- _ => apply Cast_law in H as [-> _]; [|by apply multihash_bytes, sha256_ok] end.
    ret_inv. split; [by constructor|]. cbn. split; [by rewrite (proj2 (v0_length d [] Hd))|by exists rest].
  - rewrite !invalid_Ok in *. repeat match goal with p : (_ * _)%type |- _ => destruct p end. cbn [fst snd] in *.
    rewrite !checked_Ok in *.
    match goal with H : negb (_ =? 1) = false |- _ => apply negb_false_iff, Z.eqb_eq in H; subst end.
    match goal with H : FromUvarint data = _ |- _ => apply version_one in H as [-> [rest ->]]; [|done] end.
    pose proof Hb as [_ Hr]%Forall_cons.
    match goal with H : from_index (1 :: rest) 1 = Ok _ |- _ =>
      change (from_index (1 :: rest) 1) with (from_index ([1] ++ rest) (len [1])) in H; rewrite from_index_app in H;
      injection H as <- end.
    match goal with H : FromUvarint rest = _ |- _ => apply FromUvarint_law in H as (Hc & -> & tail & ->); [|done] end.
    rewrite v1_index in *. simplify_eq. apply Forall_app in Hr as [_ Hr].
    match goal with H : MHFromBytes _ = _ |- _ => apply MHFromBytes_law in H as (-> & code & d & rest & Hh & -> & ->); [|done] end.
    ret_inv. destruct (v1_end z0 (multihash code d) rest) as [-> ->]. rewrite take_len_app. cbn [str].
    split; [by constructor|]. split; [done|by exists rest].
Qed.

Lemma invalid_returns {A} (r : res A) : returns r -> returns (invalid r).
Proof. by destruct r. Qed.

Lemma bind_returns {A C} (m : res A) (k : A -> res C) : returns m -> (forall a, m = Ok a -> returns (k a)) -> returns (m ≫= k).
Proof. destruct m; cbn; auto. Qed.

Lemma checked_returns r : returns (invalid (checked r)).
Proof. by destruct r as [[? ?] [?|]]. Qed.

Lemma from_bytes_returns data : Forall is_byte data -> returns (CidFromBytes data).
Proof.
  intros Hb. unfold CidFromBytes. destruct (_ && _).
  - apply bind_returns; [by destruct (_ <? _)|]. intros _ _. apply bind_returns; [apply invalid_returns, mh_returns|done].
  - apply bind_returns; [apply checked_returns|]. intros [v n] E%invalid_Ok%checked_Ok.
    apply bind_returns; [by destruct (negb _)|]. intros u Hv. apply refuse_Ok, negb_false_iff, Z.eqb_eq in Hv.
    cbn [fst snd] in *. subst v. apply version_one in E as [-> [rest ->]]; [|done]. apply Forall_cons in Hb as [_ Hb].
    change (from_index (1 :: rest) 1) with (from_index ([1] ++ rest) (len [1])). rewrite from_index_app. cbn [mbind res_bind].
    apply bind_returns; [apply checked_returns|]. intros [codec n] E%invalid_Ok%checked_Ok.
    apply FromUvarint_law in E as (Hc & -> & tail & ->); [|done]. apply Forall_app in Hb as [_ Hb].
    cbn [fst snd]. rewrite v1_index. cbn [mbind res_bind].
    apply bind_returns; [apply invalid_returns, mh_returns|]. intros [k h] E. rewrite invalid_Ok in E. cbn [fst snd].
    apply MHFromBytes_law in E as (-> & code & d & rest & Hh & -> & ->); [|done].
    destruct (v1_end codec (multihash code d) rest) as [-> ->]. by rewrite prefix_in_bounds.
Qed.

Lemma cast_ok c : wf c -> Cast (str c) = Ok c.
Proof.
  intros Hc. unfold Cast. pose proof (from_bytes_ok c [] Hc (Forall_nil_2 _)) as E. rewrite app_nil_r in E. rewrite E. cbn.
  by rewrite Z.eqb_refl.
Qed.

Lemma cast_inv data c : Forall is_byte data -> Cast data = Ok c -> wf c /\ data = str c.
Proof.
  intros Hb. unfold Cast. intros E. go_inv. rewrite invalid_Ok in *. destruct x as [n c']. cbn [fst snd] in *.
  match goal with H : CidFromBytes _ = _ |- _ => apply from_bytes_inv in H as (Hw & -> & rest & ->); [|done] end.
  match goal with H : mret _ = Ok _ |- _ => injection H as <- end.
  match goal with H : negb _ = false |- _ => apply negb_false_iff, Z.eqb_eq in H; rewrite len_app in H end.
  destruct rest as [|b rest]; [by rewrite app_nil_r|]. rewrite len_cons in *. pose proof (len_nonneg rest). lia.
Qed.

(** C31: A buffer is accepted as an identifier if and only if it is, to the last
    byte, a SHA2-256 multihash or the byte 1 with the shortest encoding of a codec
    of at most 63 bits and a multihash; the identifier is then the buffer itself.
    On other buffers reading fails with an error, never a panic. *)
Theorem cast_exact data c : Forall is_byte data ->
  (Cast data = Ok c <-> wf c /\ data = str c) /\ returns (Cast data).
Proof.
  intros Hb. split; [split|].
  - by apply cast_inv.
  - intros [Hw ->]. by apply cast_ok.
  - unfold Cast. apply bind_returns; [by apply invalid_returns, from_bytes_returns|]. intros [n c'] _. by destruct (negb _).
Qed.

End Binary.

(** ** Parts and text of identifiers *)

Section Text.
Context `{VarintLaws} `{MultihashLaws} `{MultibaseLaws} `{CidJsonLaws}.

Lemma new_v0 d : len d = 32 -> Forall is_byte d -> tryNewCidV0 (multihash SHA2_256 d) = Ok (mkCid (multihash SHA2_256 d)).
Proof.
  intros Hl Hd. unfold tryNewCidV0.
  assert (mh_Decode (multihash SHA2_256 d) = Ok (mkDecoded SHA2_256 32 d)) as ->; [|done].
  apply Decode_law; [by apply multihash_bytes, sha256_ok|]. cbn. split_and!; [by apply sha256_ok|done..].
Qed.

Lemma new_v1 codec h : is_u64 codec -> NewCidV1 codec h = Ok (mkCid (1 :: varint codec ++ h)).
Proof.
  intros Hc. unfold NewCidV1. rewrite PutUvarint_law; [|done|].
  2: by apply varint_len.
  cbn [mbind res_bind fst snd]. by rewrite take_len_app.
Qed.

Lemma from_index_app2 a b c : from_index (a ++ b ++ c) (len a + len b) = Ok c.
Proof. rewrite app_assoc, <- len_app. apply from_index_app. Qed.

Lemma from_index_app3 a b c d : from_index (a ++ b ++ c ++ d) (len a + len b + len c) = Ok d.
Proof. rewrite (app_assoc a), <- len_app. apply from_index_app2. Qed.

Lemma parts_v1 codec code d : is_u63 codec -> hash_ok code d ->
  let c := mkCid (1 :: varint codec ++ multihash code d) in
  Version c = 1 /\ Type_ c = Ok codec /\ Hash c = Ok (multihash code d) /\ Prefix_of c = Ok (mkPrefix 1 codec code (len d)).
Proof.
  intros Hc Hh c. assert (Version c = 1) as Hv.
  { rewrite wf_version by by constructor. cbn. by destruct (varint codec ++ _). }
  pose proof (u63_u64 _ Hc) as Hc'. pose proof (wf_bytes c (wf_v1 codec code d Hc Hh)) as Hb.
  assert (str c = varint 1 ++ varint codec ++ multihash code d) as Hs by done.
  assert (is_u64 1) as Hone by (unfold is_u64; lia).
  unfold Type_, Hash, Prefix_of, Bytes. rewrite Hv, Hs in *. change (1 =? 0) with false.
  rewrite uvarint_varint, !from_index_app by done. cbn [mbind res_bind]. rewrite uvarint_varint, from_index_app2 by done.
  split; [done|]. split; [done|]. split.
  - assert (FromUvarint (varint 1 ++ varint codec ++ multihash code d) = (1, len (varint 1), None)) as ->
      by (apply FromUvarint_law; [done|]; split; [unfold is_u63; lia|by eauto]).
    apply Forall_app in Hb as [_ Hb]. rewrite from_index_app. cbn [mbind res_bind].
    assert (FromUvarint (varint codec ++ multihash code d) = (codec, len (varint codec), None)) as ->
      by (apply FromUvarint_law; [done|by eauto]).
    apply from_index_app2.
  - destruct Hh as (Hh & Hl & Hd). unfold multihash. pose proof (u63_u64 _ Hh). pose proof (length_u63 d Hl) as Hl'.
    cbn [mbind res_bind]. rewrite uvarint_varint, from_index_app3 by done. cbn [mbind res_bind].
    rewrite uvarint_varint by by apply u63_u64. rewrite i64_small by done. done.
Qed.

Lemma parts_v0 d : len d = 32 -> Forall is_byte d -> let c := mkCid (multihash SHA2_256 d) in
  Version c = 0 /\ Type_ c = Ok DagProtobuf /\ Hash c = Ok (multihash SHA2_256 d)
  /\ Prefix_of c = Ok (mkPrefix 0 DagProtobuf SHA2_256 32).
Proof.
  intros Hl Hd c. assert (Version c = 0) as Hv by (rewrite wf_version by (by apply wf_v0); cbn; by rewrite sha256_form).
  unfold Type_, Hash, Prefix_of. by rewrite Hv.
Qed.

(** An identifier made of a codec and a multihash, or of a SHA2-256 multihash,
    is well formed, reads back from its bytes, and gives back its version, codec,
    hash and the kind and length of the hash. *)
Theorem identifiers_take_apart codec code d : is_u63 codec -> hash_ok code d ->
  exists c, NewCidV1 codec (multihash code d) = Ok c /\ Cast (Bytes c) = Ok c
    /\ Version c = 1 /\ Type_ c = Ok codec /\ Hash c = Ok (multihash code d) /\ Prefix_of c = Ok (mkPrefix 1 codec code (len d))
    /\ (code = SHA2_256 -> len d = 32 -> exists c0, NewCidV0 (multihash code d) = Ok c0 /\ Cast (Bytes c0) = Ok c0
         /\ Version c0 = 0 /\ Type_ c0 = Ok DagProtobuf /\ Hash c0 = Ok (multihash code d)
         /\ Prefix_of c0 = Ok (mkPrefix 0 DagProtobuf SHA2_256 32)).
Proof.
  intros Hc Hh. exists (mkCid (1 :: varint codec ++ multihash code d)). rewrite new_v1 by by apply u63_u64.
  rewrite cast_ok by by constructor. destruct (parts_v1 codec code d Hc Hh) as (?&?&?&?). split_and!; try done.
  intros -> Hl. destruct Hh as (_&_&Hd). exists (mkCid (multihash SHA2_256 d)). unfold NewCidV0.
  rewrite new_v0, cast_ok by (try constructor; done). destruct (parts_v0 d Hl Hd) as (?&?&?&?). by split_and!.
Qed.

(** A codec of 64 bits makes an identifier that [Cast] refuses. *)
Lemma large_codec_unreadable codec code d : 2 ^ 63 <= codec < 2 ^ 64 -> hash_ok code d ->
  exists c, NewCidV1 codec (multihash code d) = Ok c /\ forall c', Cast (Bytes c) <> Ok c'.
Proof.
  intros Hc Hh. exists (mkCid (1 :: varint codec ++ multihash code d)). assert (is_u64 codec) as Hu by (unfold is_u64; lia).
  rewrite new_v1 by done. split; [done|]. intros c' E. unfold Bytes in E. cbn [str] in E.
  apply cast_inv in E as [Hw E].
  - destruct Hw as [d' Hl _|codec' code' d' Hc' _]; cbn [str] in E.
    + by rewrite sha256_form in E.
    + injection E as E. apply varint_inj in E as [-> _]; [|done|by apply u63_u64]. unfold is_u63 in Hc'. lia.
  - constructor; [unfold is_byte; lia|]. apply Forall_app. split; [by apply varint_bytes|by apply multihash_bytes].
Qed.

Lemma wf_nonempty c : wf c -> str c <> [].
Proof. intros [d Hl _|codec code d _ _]; cbn; [by rewrite sha256_form|done]. Qed.

(** Text in a base is not taken for version 0; its first byte is the code of the base,
    or no code. *)
Lemma based_text base data s : data <> [] -> mb_Encode base data = Ok s ->
  (String.length s <? 2)%nat = false /\ looks_v0 s = false
  /\ match s with String c _ => Z.of_N (N_of_ascii c) | EmptyString => 0 end = (if base =? Base256Emoji then 240 else base).
Proof.
  intros Hd E. pose proof (mb_bases _ (mb_encoder _ _ _ E)) as Hr. pose proof E as (t & -> & Ht)%mb_letter. specialize (Ht Hd).
  unfold base_prefix. destruct (Z.eqb_spec base Base256Emoji) as [->|Hne].
  { split_and!; [done| |done]. apply andb_false_intro2. reflexivity. }
  assert (Z.of_N (N_of_ascii (ascii_of_N (Z.to_N base))) = base) as Hb by (rewrite N_ascii_embedding by lia; lia).
  destruct t as [|c t]; [done|]. change (String ?a "" ++ ?x)%string with (String a x). split_and!; [done| |done].
  unfold looks_v0. destruct (_ =? _)%nat; [|done]. cbn [andb String.prefix].
  destruct (ascii_dec "Q" (ascii_of_N (Z.to_N base))) as [EQ|]; [|done].
  rewrite <- EQ in Hb. cbn in Hb. subst base. by apply mb_no_Q in E.
Qed.

Lemma no_base_240 : exists e, NewEncoder 240 = Err e.
Proof.
  pose proof (mb_returns 240) as Hr. pose proof (mb_bases 240) as Hb.
  destruct (NewEncoder 240) as [[]|e|p]; [|by exists e|done]. specialize (Hb eq_refl). unfold Base256Emoji in Hb. lia.
Qed.

(** The base that the text of an identifier names. *)
Definition names_base (s : string) (base : Z) : Prop :=
  if base =? Base256Emoji then exists e, ExtractEncoding s = Err e else ExtractEncoding s = Ok base.

Lemma decode_based base c s : wf c -> mb_Encode base (str c) = Ok s -> Decode s = Ok c /\ names_base s base.
Proof.
  intros Hc E. destruct (based_text base (str c) s) as (Hl & Hv & Hb); [by apply wf_nonempty|done|].
  unfold Decode, names_base, ExtractEncoding. rewrite Hl, Hv, Hb. cbn [refuse mbind res_bind].
  rewrite (mb_Decode_Encode base (str c) s) by (try done; by apply wf_bytes). cbn. split; [by rewrite cast_ok|].
  destruct (base =? Base256Emoji); [|by rewrite (mb_encoder base (str c) s)].
  destruct no_base_240 as [e ->]. by eexists.
Qed.

Lemma decode_v0 d : len d = 32 -> Forall is_byte d -> let s := B58String (multihash SHA2_256 d) in
  Decode s = Ok (mkCid (multihash SHA2_256 d)) /\ ExtractEncoding s = Ok Base58BTC.
Proof.
  intros Hl Hd s. destruct (B58_sha256 d Hl Hd) as [Hn Hp]. fold s in Hn, Hp.
  unfold Decode, ExtractEncoding, looks_v0. rewrite Hn, Hp. cbn [Nat.ltb Nat.leb refuse mbind res_bind Nat.eqb andb].
  unfold s. rewrite FromB58_law by by apply sha256_ok. cbn. by rewrite new_v0.
Qed.

Lemma text_of c : wf c -> exists s, Cid_String c = Ok s /\ plain s /\ Decode s = Ok c.
Proof.
  intros [d Hl Hd|codec code d Hc Hh]; unfold Cid_String.
  - destruct (parts_v0 d Hl Hd) as (-> & _ & -> & _). eexists. split; [done|]. split; [apply B58_plain|by apply decode_v0].
  - pose proof (wf_v1 codec code d Hc Hh) as Hw. destruct (parts_v1 codec code d Hc Hh) as (-> & _).
    destruct (mb_base32 (str (mkCid (1 :: varint codec ++ multihash code d)))) as (s & E & Hp).
    change (Bytes ?c) with (str c). rewrite E. exists s. split; [done|]. split; [done|by apply (decode_based Base32)].
Qed.

Lemma plain_no_slash s : plain s -> String.index 0 "/ipfs/" s = None.
Proof.
  unfold plain. induction s as [|c s IH]; cbn [String.list_ascii_of_string]; intros Hp; [done|].
  apply Forall_cons in Hp as [Hc Hp]. specialize (IH Hp). cbn [String.index].
  destruct (String.prefix "/ipfs/" (String c s)) eqn:E; [|by rewrite IH].
  cbn [String.prefix] in E. destruct (ascii_dec "/" c) as [<-|]; [by vm_compute in Hc|done].
Qed.

Lemma path_part s : plain s -> second_part "/ipfs/" ("/ipfs/" ++ s) = Some s /\ second_part "/ipfs/" s = None.
Proof.
  intros Hp. unfold second_part. rewrite (plain_no_slash s) by done. split; [|done].
  assert (String.index 0 "/ipfs/" ("/ipfs/" ++ s) = Some 0%nat) as -> by (by destruct s).
  change (String.length ("/ipfs/" ++ s)) with (6 + String.length s)%nat. change (0 + String.length "/ipfs/")%nat with 6%nat.
  replace (6 + String.length s - 6)%nat with (String.length s) by lia. cbn [String.append].
  change (String.substring 6 (String.length s) ?x) with (String.substring 0 (String.length s) s).
  by rewrite substring_all, plain_no_slash.
Qed.

Lemma unmarshal_object s c c0 : plain s -> s <> ""%string -> Decode s = Ok c -> UnmarshalJSON (json_object s) c0 = (Ok tt, c).
Proof.
  intros Hp Hs Ed. unfold UnmarshalJSON. assert ((len (json_object s) <? 2) = false) as ->.
  { unfold json_object. rewrite len_app. pose proof (len_nonneg (string_to_bytes s ++ [34; 125])).
    apply Z.ltb_ge. change (len [123; 34; 47; 34; 58; 34]) with 6. lia. }
  rewrite json_object_law by done. destruct s; [done|]. unfold mbind, M_bind, refuseM, lift. cbn [refuse invalid].
  rewrite bool_decide_false by done. cbn [refuse invalid]. by rewrite Ed.
Qed.

(** C32: The text of an identifier, in its default base or any other the package
    supports, decodes to the identifier; the default text also parses behind a path,
    and survives JSON.  The base is recovered from the text for every base but
    base256emoji, for which extracting it fails although the text decodes. *)
Theorem text_roundtrip c c0 : wf c ->
  (exists s, Cid_String c = Ok s /\ Decode s = Ok c /\ Parse (AString s) = Ok c /\ Parse (AString ("/ipfs/" ++ s)) = Ok c
     /\ MarshalText c = Ok (string_to_bytes s) /\ UnmarshalText s c0 = (Ok tt, c)
     /\ exists b, MarshalJSON c = Ok b /\ UnmarshalJSON b c0 = (Ok tt, c))
  /\ (forall base s, StringOfBase base c = Ok s -> Decode s = Ok c /\
       (base <> Base256Emoji -> ExtractEncoding s = Ok base) /\ (base = Base256Emoji -> exists e, ExtractEncoding s = Err e))
  /\ (exists b, MarshalJSON Undef = Ok b /\ UnmarshalJSON b c0 = (Ok tt, Undef)).
Proof.
  intros Hc. split_and!.
  - destruct (text_of c Hc) as (s & Es & Hp & Ed). destruct (path_part s Hp) as [Ep1 Ep2]. exists s.
    unfold Parse, MarshalText, MarshalJSON, UnmarshalText, Defined_. rewrite Ep1, Ep2, Es. cbn [default].
    rewrite bool_decide_false by by apply wf_nonempty.
    assert (s <> ""%string) by (intros ->; by cbn in Ed).
    split_and!; try done; [unfold mbind, M_bind, lift; rewrite Ed; by destruct c|].
    exists (json_object s). split; [done|by apply unmarshal_object].
  - intros base s. unfold StringOfBase. destruct Hc as [d Hl Hd|codec code d Hc Hh].
    + destruct (parts_v0 d Hl Hd) as (-> & _ & -> & _). cbn. destruct (Z.eqb_spec base Base58BTC) as [->|]; [|done].
      intros [= <-]. destruct (decode_v0 d Hl Hd) as [? ?]. by split_and!.
    + destruct (parts_v1 codec code d Hc Hh) as (-> & _). cbn. intros E.
      destruct (decode_based base _ s (wf_v1 codec code d Hc Hh) E) as [? Hb]. unfold names_base in Hb.
      by destruct (Z.eqb_spec base Base256Emoji).
  - exists (string_to_bytes "null"). split; [done|]. unfold UnmarshalJSON. by rewrite json_null_law.
Qed.

End Text.

(** ** Streams *)

Section Streams.
Context `{VarintLaws} `{MultihashLaws}.

(** The reader [r] with [l] left to read and [d] in the buffer. *)
Definition at_ (r : Reader) (l d : list Z) : bufByteReader := mkBuf (mkReader l (ending r) (byte_reader r)) d.

Lemma read_byte r l d :
  ReadByte (at_ r l d) = match l with [] => (Err (ending r), at_ r [] d) | b :: l => (Ok b, at_ r l (d ++ [b])) end.
Proof.
  unfold ReadByte, at_. cbn [source byte_reader pending ending dst]. destruct (byte_reader r) eqn:Eb; [by destruct l; rewrite ?Eb|].
  destruct l as [|b l]; unfold ReadFull; cbn [pending ending byte_reader]; [done|].
  rewrite len_cons. pose proof (len_nonneg l). destruct (Z.leb_spec 1 (1 + len l)); [|lia]. done.
Qed.

Lemma reads_buf bs r l d br : reads ReadByte bs (at_ r l d) br <-> exists l', l = bs ++ l' /\ br = at_ r l' (d ++ bs).
Proof.
  revert l d. induction bs as [|b bs IH]; intros l d; cbn [reads].
  - rewrite app_nil_r. split; [intros ->; by exists l|]. by intros (l' & -> & ->).
  - rewrite read_byte. split.
    + destruct l as [|b' l]; intros (s1 & E & Hr); [done|]. injection E as <- <-. apply IH in Hr as (l' & -> & ->).
      exists l'. by rewrite <- app_assoc.
    + intros (l' & -> & ->). cbn [app]. eexists. split; [done|]. apply IH. exists l'. by rewrite <- app_assoc.
Qed.

Lemma buf_bytes r l d : Forall is_byte l -> gives_bytes ReadByte (at_ r l d).
Proof.
  intros Hb bs br (l' & -> & ->)%reads_buf. apply Forall_app in Hb as [Hb _]. split; [done|]. intros p br.
  rewrite read_byte. by destruct l'.
Qed.

(** A number is read and kept, or what was read of it is. *)
Lemma number_cases r l d : Forall is_byte l ->
  (exists x l', is_u63 x /\ l = varint x ++ l' /\ ReadUvarint _ ReadByte (at_ r l d) = (Ok x, at_ r l' (d ++ varint x)))
  \/ exists e bs l', l = bs ++ l' /\ (e = EOF -> bs = []) /\ ReadUvarint _ ReadByte (at_ r l d) = (Err e, at_ r l' (d ++ bs)).
Proof.
  intros Hb. pose proof (buf_bytes r l d Hb) as Hg. destruct (ReadUvarint _ ReadByte (at_ r l d)) as [[x|e|p] br] eqn:E.
  - left. apply ReadUvarint_Ok in E as [Hx (l' & -> & ->)%reads_buf]; [|done]. by exists x, l'.
  - right. apply ReadUvarint_Err in E as (bs & s1 & (l' & -> & ->)%reads_buf & Hc); [|done]. exists e, bs, l'.
    destruct Hc as [[-> Hne]|(e' & En & Hc)]; [by split_and!|]. rewrite read_byte in En. destruct l' as [|b l']; [|done].
    injection En as <- <-. split_and!; [done|destruct Hc as [[-> _]|[_ ?]]; done|done].
  - by apply ReadUvarint_Panic in E.
Qed.

Lemma number_ok r x l d : is_u63 x -> Forall is_byte (varint x ++ l) ->
  ReadUvarint _ ReadByte (at_ r (varint x ++ l) d) = (Ok x, at_ r l (d ++ varint x)).
Proof. intros Hx Hb. apply ReadUvarint_Ok; [by apply buf_bytes|]. split; [done|]. apply reads_buf. by exists l. Qed.

(** The outcome of reading from a stream of [l]: the bytes taken are counted, also
    on an error, and are the identifier if there is one. *)
Definition accurate (r : Reader) (l : list Z) (x : res (Z * res Cid) * bufByteReader) : Prop :=
  exists o got rest d, x = (Ok (len got, o), at_ r rest d) /\ l = got ++ rest
    /\ match o with Ok c => (exists digest, digest_of c digest /\ len digest <= maxDigestAlloc) /\ str c = got
               | Err _ => True | Panic _ => False end.

Lemma accurate_failed r e l d : accurate r (d ++ l) (failed e (at_ r l d)).
Proof. by exists (Err (ErrInvalidCid e)), d, l, d. Qed.

Lemma accurate_number r k l d : Forall is_byte l ->
  (forall x l', l = varint x ++ l' -> is_u63 x -> accurate r (d ++ l) (k x (at_ r l' (d ++ varint x)))) ->
  accurate r (d ++ l) (with_number k (at_ r l d)).
Proof.
  intros Hb Hk. unfold with_number.
  destruct (number_cases r l d Hb) as [(x & l' & Hx & El & ->)|(e & bs & l' & -> & _ & ->)]; [by apply Hk|].
  rewrite app_assoc. apply accurate_failed.
Qed.

Lemma read_full n l e b : 0 <= n -> ReadFull n (mkReader l e b) =
  (take (Z.to_nat n) l, if n <=? len l then None else
     Some (if (0 <? len (take (Z.to_nat n) l)) && bool_decide (e = EOF) then "unexpected EOF"%string else e),
   mkReader (drop (Z.to_nat n) l) e b).
Proof. intros Hn. unfold ReadFull. cbn. by destruct (n <=? len l). Qed.

Lemma fill_ok {A} r (k : M bufByteReader (Z * res A)) to got l d : len got = to - len d ->
  fill (len d) to k (at_ r (got ++ l) d) = k (at_ r l (d ++ got)).
Proof.
  intros Hg. unfold fill, at_. cbn [source dst]. pose proof (len_nonneg got). rewrite <- Hg, read_full by done.
  rewrite take_len_app, drop_len_app, len_app. pose proof (len_nonneg l). destruct (Z.leb_spec (len got) (len got + len l)); [|lia].
  pose proof (take_len_app d []) as Ed. rewrite app_nil_r in Ed. by rewrite Ed.
Qed.

Lemma accurate_fill r k to l d : len d <= to ->
  (forall got l', l = got ++ l' -> len got = to - len d -> accurate r (d ++ l) (k (at_ r l' (d ++ got)))) ->
  accurate r (d ++ l) (fill (len d) to k (at_ r l d)).
Proof.
  intros Hle Hk. destruct (Z.le_gt_cases (to - len d) (len l)) as [Hl|Hl].
  - assert (len (take (Z.to_nat (to - len d)) l) = to - len d) as Ht by (unfold len in *; rewrite length_take; lia).
    rewrite <- (take_drop (Z.to_nat (to - len d)) l) at 2. rewrite fill_ok by done. apply Hk; [by rewrite take_drop|done].
  - unfold fill, at_. cbn [source dst]. rewrite read_full by lia. destruct (Z.leb_spec (to - len d) (len l)); [lia|].
    assert (take (Z.to_nat (to - len d)) l = l) as -> by (apply take_ge; unfold len in *; lia).
    assert (drop (Z.to_nat (to - len d)) l = []) as -> by (apply drop_ge; unfold len in *; lia).
    eexists _, (d ++ l), [], d. rewrite len_app, app_nil_r. split_and!; [done..|]. exact I.
Qed.

(** A multihash of 34 bytes that begins with 18. *)
Lemma v0_of_cast code digest got : hash_ok code digest -> len got = 33 -> 18 :: got = multihash code digest ->
  exists digest, digest_of (mkCid (18 :: got)) digest /\ len digest <= maxDigestAlloc.
Proof.
  intros (Hc & Hl & Hd) Hg E. rewrite E. exists digest. pose proof E as E'. unfold multihash in E'.
  change (18 :: got) with ([18] ++ got) in E'. rewrite <- varint_small in E' by lia.
  apply varint_inj in E' as [<- E']; [|unfold is_u64; lia|by apply u63_u64].
  assert (len digest = 32) as H32; [|split; [by apply digest_v0|unfold maxDigestAlloc; lia]].
  apply (f_equal len) in E'. rewrite len_app, Hg in E'.
  destruct (Z.lt_ge_cases (len digest) 128).
  - rewrite varint_small in E' by (pose proof (len_nonneg digest); lia). change (len [_]) with 1 in E'. lia.
  - pose proof (len_nonneg (varint (len digest))). lia.
Qed.

Lemma accurate_v0 r l : Forall is_byte (18 :: l) -> accurate r (18 :: l) (read_v0 (at_ r l [18])).
Proof.
  intros Hb. apply (accurate_fill r _ 34 l [18]); [done|]. intros got l' -> Hg. change (len [18]) with 1 in Hg.
  cbn [dst at_ app]. destruct (mh_Cast (18 :: got)) as [h|e|p] eqn:E.
  - apply Cast_law in E as [-> (code & digest & Hh & E)]; [|by apply Forall_cons in Hb as [? [? _]%Forall_app]; constructor].
    exists (Ok (mkCid (18 :: got))), (18 :: got), l', (18 :: got). split; [done|]. split; [done|].
    split; [eapply v0_of_cast; [done|lia|done]|done].
  - apply (accurate_failed r e l' (18 :: got)).
  - pose proof (mh_returns (18 :: got)) as (_ & Hr & _). by rewrite E in Hr.
Qed.

Lemma accurate_hash r codec l : is_u63 codec -> Forall is_byte l ->
  accurate r (1 :: varint codec ++ l) (read_hash (at_ r l (1 :: varint codec))).
Proof.
  intros Hc Hb. unfold read_hash. apply (accurate_number r _ l (1 :: varint codec) Hb). intros code l1 -> Hcode.
  apply Forall_app in Hb as [_ Hb]. rewrite app_assoc. apply accurate_number; [done|]. intros mhl l2 -> Hm.
  apply Forall_app in Hb as [_ Hb]. destruct (Z.ltb_spec maxDigestAlloc mhl); [rewrite app_assoc; apply accurate_failed|].
  rewrite app_assoc. cbn [dst at_]. unfold is_u63 in Hm. apply accurate_fill; [lia|].
  intros got l3 -> Hg. apply Forall_app in Hb as [Hb _]. cbn [dst at_].
  destruct (MHFromBytes _) as [x|e|p] eqn:E.
  - set (d := (((1 :: varint codec) ++ varint code) ++ varint mhl) ++ got).
    exists (Ok (mkCid d)), d, l3, d. split; [done|]. split; [by rewrite app_assoc|]. split; [|done].
    assert (mhl = len got) as -> by lia. exists got. split; [|done]. unfold d. rewrite <- !app_assoc.
    apply digest_v1; [done|]. split_and!; [done| |done]. unfold maxDigestAlloc in *. lia.
  - rewrite app_assoc. apply accurate_failed.
  - match type of E with MHFromBytes ?x = _ => pose proof (mh_returns x) as (_ & _ & Hr) end. by rewrite E in Hr.
Qed.

Lemma accurate_cid r l : Forall is_byte l -> accurate r l (read_cid (at_ r l [])).
Proof.
  intros Hb. unfold read_cid. destruct (number_cases r l [] Hb) as [(x & l' & Hx & -> & ->)|(e & bs & l' & -> & He & ->)].
  - destruct (Z.eqb_spec x SHA2_256) as [->|]; [by apply accurate_v0|].
    destruct (Z.eqb_spec x 1) as [->|]; [|apply accurate_failed]. cbn [negb]. apply Forall_app in Hb as [_ Hb].
    rewrite varint_small in * by lia. apply (accurate_number r _ l' [1] Hb). intros codec l1 -> Hc.
    apply Forall_app in Hb as [_ Hb]. by apply accurate_hash.
  - destruct (bool_decide_reflect (e = EOF)) as [Ee|]; [|apply accurate_failed].
    rewrite (He Ee). exists (Err e), [], l', []. by split_and!.
Qed.

Lemma with_number_ok {A} r (k : Z -> M bufByteReader (Z * res A)) x l d : is_u63 x -> Forall is_byte (varint x ++ l) ->
  with_number k (at_ r (varint x ++ l) d) = k x (at_ r l (d ++ varint x)).
Proof. intros Hx Hb. unfold with_number. by rewrite number_ok. Qed.

Lemma read_v0_ok r d rest : len d = 32 -> Forall is_byte d ->
  read_v0 (at_ r (32 :: d ++ rest) [18]) = (Ok (34, Ok (mkCid (multihash SHA2_256 d))), at_ r rest (multihash SHA2_256 d)).
Proof.
  intros Hl Hd. unfold read_v0. change 1 with (len [18]) at 1. change (32 :: d ++ rest) with ((32 :: d) ++ rest).
  rewrite fill_ok by (rewrite len_cons, Hl; done). change ([18] ++ 32 :: d) with ([18; 32] ++ d).
  rewrite <- sha256_form by done. cbn [dst at_]. rewrite (proj2 (v0_length d [] Hl)).
  assert (mh_Cast (multihash SHA2_256 d) = Ok (multihash SHA2_256 d)) as ->; [|done].
  apply Cast_law; [by apply multihash_bytes, sha256_ok|]. split; [done|]. exists SHA2_256, d. split; [by apply sha256_ok|done].
Qed.

Lemma read_hash_ok r codec code d rest : is_u63 codec -> hash_ok code d -> len d <= maxDigestAlloc -> Forall is_byte rest ->
  let s := 1 :: varint codec ++ multihash code d in
  read_hash (at_ r (multihash code d ++ rest) (1 :: varint codec)) = (Ok (len s, Ok (mkCid s)), at_ r rest s).
Proof.
  intros Hc Hh Hm Hr s. pose proof (multihash_bytes code d Hh) as Hb. pose proof Hh as (Hcode & Hl & Hd).
  assert (Forall is_byte (multihash code d ++ rest)) as Hb' by (by apply Forall_app).
  unfold read_hash. unfold multihash in Hb' |- *. rewrite <- !app_assoc in *. rewrite with_number_ok by done.
  apply Forall_app in Hb' as [_ Hb']. rewrite with_number_ok by (try apply length_u63; done).
  destruct (Z.ltb_spec maxDigestAlloc (len d)); [lia|]. cbn [dst at_]. rewrite fill_ok by lia. cbn [dst at_].
  replace ((((1 :: varint codec) ++ varint code) ++ varint (len d)) ++ d) with ((1 :: varint codec) ++ multihash code d)
    by (unfold multihash; by rewrite <- !app_assoc).
  rewrite drop_len_app.
  assert (MHFromBytes (multihash code d) = Ok (len (multihash code d), multihash code d)) as ->; [|done].
  apply MHFromBytes_law; [done|]. split; [done|]. exists code, d, []. by rewrite app_nil_r.
Qed.

Lemma read_cid_ok r c digest rest : digest_of c digest -> len digest <= maxDigestAlloc -> Forall is_byte rest ->
  read_cid (at_ r (str c ++ rest) []) = (Ok (len (str c), Ok c), at_ r rest (str c)).
Proof.
  intros Hw Hm Hr. pose proof (wf_bytes c (digest_wf _ _ Hw)) as Hb. unfold read_cid. destruct Hw as [d Hl Hd|codec code d Hc Hh]; cbn [str] in *.
  - rewrite sha256_form at 1 by done. change (([18; 32] ++ d) ++ rest) with ([18] ++ 32 :: d ++ rest).
    rewrite <- (varint_small 18) at 1 by lia. rewrite number_ok; [|unfold is_u63; lia|].
    2: { rewrite varint_small by lia. repeat constructor; try (unfold is_byte; lia). by apply Forall_app. }
    change (18 =? SHA2_256) with true. rewrite varint_small by lia. cbn [app].
    by rewrite read_v0_ok, (proj2 (v0_length d [] Hl)).
  - change ((1 :: varint codec ++ multihash code d) ++ rest) with ([1] ++ (varint codec ++ multihash code d) ++ rest).
    apply Forall_cons in Hb as [_ Hb].
    assert (Forall is_byte (varint codec ++ multihash code d ++ rest)) as Hb' by (rewrite app_assoc; by apply Forall_app).
    rewrite <- (varint_small 1) at 1 by lia. rewrite <- app_assoc.
    rewrite number_ok; [|unfold is_u63; lia|rewrite (varint_small 1) by lia; constructor; [unfold is_byte; lia|done]].
    change (1 =? SHA2_256) with false. change (negb (1 =? 1)) with false. cbn [app]. rewrite (varint_small 1) by lia.
    rewrite with_number_ok by done. cbn [app]. by apply read_hash_ok.
Qed.

(** C30: Reading an identifier from a stream always returns, takes exactly as many
    bytes as it says, also when it fails, and finds what reading the same bytes
    from memory finds, except for identifiers with a digest over 32 MiB: these, and
    only these, are accepted from memory and not from a stream. *)
Theorem stream_agrees r out r' : Forall is_byte (pending r) -> CidFromReader r = (out, r') ->
  exists n o, out = Ok (n, o) /\ (exists got, pending r = got ++ pending r' /\ n = len got)
    /\ match o with
       | Ok c => CidFromBytes (pending r) = Ok (n, c) /\ exists digest, digest_of c digest /\ len digest <= maxDigestAlloc
       | Err _ => forall n' c, CidFromBytes (pending r) = Ok (n', c) ->
           exists digest, digest_of c digest /\ maxDigestAlloc < len digest
       | Panic _ => False
       end.
Proof.
  intros Hb. unfold CidFromReader. assert (mkBuf r [] = at_ r (pending r) []) as -> by (by destruct r).
  destruct (accurate_cid r (pending r) Hb) as (o & got & rest & d & E & El & Ho). pose proof E as E'. rewrite E.
  intros [= <- <-]. exists (len got), o. split; [done|]. split; [by exists got|]. destruct o as [c|e|p]; [| |done].
  - destruct Ho as [(digest & Hd & Hm) <-]. rewrite El in Hb |- *. apply Forall_app in Hb as [_ Hr].
    split; [|by exists digest]. apply from_bytes_ok; [by eapply digest_wf|done].
  - intros n c Ec. apply from_bytes_inv in Ec as (Hw & -> & rest' & Er); [|done].
    destruct (wf_digest c Hw) as [digest Hd]. exists digest. split; [done|].
    destruct (Z.le_gt_cases (len digest) maxDigestAlloc); [|lia]. exfalso.
    rewrite Er in Hb, E'. apply Forall_app in Hb as [_ Hr]. by rewrite (read_cid_ok _ _ _ _ Hd) in E'.
Qed.

End Streams.

(** ** Prefixes and files *)

Section Files.
Context `{VarintLaws} `{MultihashLaws} `{MultibaseLaws} `{CidJsonLaws}.

Lemma top_bit x : Z.lor (x mod 256) 128 = 128 + x mod 128.
Proof.
  rewrite <- high_group. change 256 with (2 ^ 8). change 127 with (Z.ones 7). change 128 with (2 ^ 7).
  apply Z.bits_inj'. intros n Hn. rewrite !Z.lor_spec, Z.land_spec, Z.testbit_ones_nonneg, Z.pow2_bits_eqb by lia.
  destruct (Z.eqb_spec 7 n) as [<-|]; [by rewrite !orb_true_r|]. rewrite !orb_false_r.
  destruct (Z.ltb_spec n 7); [rewrite Z.mod_pow2_bits_low by lia; by rewrite andb_true_r|].
  rewrite andb_false_r. apply Z.mod_pow2_bits_high. lia.
Qed.

Lemma append_S n buf x : append_uvarint (S n) buf x =
  if 128 <=? x then append_uvarint n (buf ++ [Z.lor (x mod 256) 128]) (Z.shiftr x 7) else buf ++ [x mod 256].
Proof. done. Qed.

Lemma append_groups n buf x : 0 <= x < 128 ^ Z.of_nat (S n) -> append_uvarint (S n) buf x = buf ++ groups (S n) x.
Proof.
  revert buf x. induction n as [|n IH]; intros buf x Hx; rewrite groups_S, append_S; destruct (Z.leb_spec 128 x).
  1: change (128 ^ Z.of_nat 1) with 128 in Hx; lia.
  1, 3: by rewrite Z.mod_small by lia.
  rewrite top_bit, Z.shiftr_div_pow2 by lia. rewrite IH by by apply group_div. by rewrite <- app_assoc.
Qed.

Lemma append_varint buf x : is_u64 x -> appendUvarint buf x = buf ++ varint x.
Proof. intros Hx. by apply (append_groups 9), u64_groups. Qed.

(** The block in the wire format: a node whose data is a file with its content and
    its size. *)
Definition file_node (data : list Z) : list Z := [8; 2; 18] ++ varint (len data) ++ data ++ 24 :: varint (len data).
Definition file_block (data : list Z) : list Z := 10 :: varint (len (file_node data)) ++ file_node data.

Lemma node_len data : len data < 2 ^ 60 -> len (file_node data) < 2 ^ 63.
Proof.
  intros Hl. unfold file_node. rewrite !len_app, !len_cons. change (len []) with 0.
  assert (is_u64 (len data)) as Hu by (apply len_u64; lia). apply varint_len in Hu. lia.
Qed.

Lemma block_form data : len data < 2 ^ 60 -> encodeUnixFSFileBlock data = file_block data.
Proof.
  intros Hl. pose proof (node_len data Hl) as Hn. assert (is_u64 (len data)) by (apply len_u64; lia).
  unfold encodeUnixFSFileBlock. assert (appendVarintField (appendBytesField (appendVarintField [] 1 2) 2 data) 3 (len data) = file_node data) as ->.
  { unfold appendVarintField, appendBytesField. change (Z.lor (Z.shiftl 1 3) 0) with 8.
    change (Z.lor (Z.shiftl 2 3) 2) with 18. change (Z.lor (Z.shiftl 3 3) 0) with 24.
    rewrite !append_varint by (try done; unfold is_u64; lia). unfold file_node. rewrite (varint_small 8), (varint_small 2), (varint_small 18), (varint_small 24) by lia.
    by rewrite <- !app_assoc. }
  unfold appendBytesField. change (Z.lor (Z.shiftl 1 3) 2) with 10.
  rewrite !append_varint by (try (apply len_u64; done); unfold is_u64; lia). by rewrite varint_small by lia.
Qed.

Lemma block_inj data data' : len data < 2 ^ 60 -> len data' < 2 ^ 60 -> file_block data = file_block data' -> data = data'.
Proof.
  intros Hl Hl' E. unfold file_block in E. injection E as E.
  apply varint_inj in E as [_ E]; [|by apply len_u64, node_len..]. unfold file_node in E. injection E as E.
  apply varint_inj in E as [Hlen E]; [|apply len_u64; lia..]. apply app_inj_1 in E as [-> _]; [done|]. unfold len in Hlen. lia.
Qed.

Lemma put_next_ok pre x rest : is_u64 x -> len (varint x) <= len rest ->
  put_next (pre ++ rest, len pre) x = Ok (pre ++ varint x ++ drop (length (varint x)) rest, len pre + len (varint x)).
Proof.
  intros Hx Hl. unfold put_next. rewrite from_index_app. cbn [mbind res_bind].
  rewrite PutUvarint_law by done. cbn [fst snd]. by rewrite take_len_app.
Qed.

Lemma drop_zeros n (l : list Z) : drop (length l) (replicate (Z.to_nat (len l + n)) 0) = replicate (Z.to_nat n) 0.
Proof. rewrite drop_replicate. f_equal. unfold len. lia. Qed.

Lemma zeros_len n : 0 <= n -> len (replicate (Z.to_nat n) 0) = n.
Proof. intros. unfold len. rewrite length_replicate. lia. Qed.

(** One number written into a buffer of zeros. *)
Lemma put_zeros pre x n : is_u64 x -> 0 <= n ->
  put_next (pre ++ replicate (Z.to_nat (len (varint x) + n)) 0, len pre) x
  = Ok ((pre ++ varint x) ++ replicate (Z.to_nat n) 0, len (pre ++ varint x)).
Proof.
  intros Hx Hn. pose proof (len_nonneg (varint x)). rewrite put_next_ok; [|done|rewrite zeros_len by lia; lia].
  by rewrite drop_zeros, app_assoc, len_app.
Qed.

Definition prefix_ok (p : Prefix) : Prop := is_u63 (PfVersion p) /\ is_u63 (PfCodec p) /\ is_u63 (MhType p) /\ is_u63 (MhLength p).

Lemma prefix_bytes p : prefix_ok p ->
  Prefix_Bytes p = Ok (varint (PfVersion p) ++ varint (PfCodec p) ++ varint (MhType p) ++ varint (MhLength p)).
Proof.
  intros (Hv%u63_u64 & Hc%u63_u64 & Ht%u63_u64 & Hl%u63_u64). unfold Prefix_Bytes. rewrite u64_small by done.
  rewrite !UvarintSize_law by done.
  set (a := varint (PfVersion p)). set (b := varint (PfCodec p)). set (c := varint (MhType p)). set (d := varint (MhLength p)).
  pose proof (len_nonneg a). pose proof (len_nonneg b). pose proof (len_nonneg c). pose proof (len_nonneg d).
  replace (len a + len b + len c + len d) with (len a + (len b + (len c + (len d + 0)))) at 1 by lia.
  change (replicate (Z.to_nat (len a + ?n)) 0, 0) with ([] ++ replicate (Z.to_nat (len a + n)) 0, len (@nil Z)).
  unfold a, b, c, d. do 4 (rewrite put_zeros by (try done; unfold a, b, c, d in *; lia); cbn [mbind res_bind]).
  cbn [fst snd replicate Z.to_nat app]. rewrite app_nil_r, !len_app, Z.eqb_refl. cbn. by rewrite <- !app_assoc.
Qed.

Lemma reads_list l bs l' : reads next_byte bs l l' <-> l = bs ++ l'.
Proof.
  revert l. induction bs as [|b bs IH]; intros l; cbn [reads app]; [done|]. split.
  - destruct l; intros (s1 & E & Hr); [done|]. injection E as <- <-. by apply IH in Hr as ->.
  - intros ->. eexists. split; [done|]. by apply IH.
Qed.

Lemma read_number_ok x l : is_u63 x -> Forall is_byte l -> read_number (varint x ++ l) = (Ok x, l).
Proof.
  intros Hx Hb. unfold read_number. assert (ReadUvarint _ next_byte (varint x ++ l) = (Ok x, l)) as ->; [|done].
  apply ReadUvarint_Ok; [|split; [done|by apply reads_list]].
  intros bs l' Hr%reads_list. split; [|by destruct l'].
  assert (Forall is_byte (varint x ++ l)) as Ha by (apply Forall_app; split; [by apply varint_bytes, u63_u64|done]).
  rewrite Hr in Ha. by apply Forall_app in Ha as [? _].
Qed.

Lemma prefix_read p : prefix_ok p ->
  PrefixFromBytes (varint (PfVersion p) ++ varint (PfCodec p) ++ varint (MhType p) ++ varint (MhLength p)) = Ok p.
Proof.
  intros (Hv & Hc & Ht & Hl). unfold PrefixFromBytes.
  assert (forall x, is_u63 x -> Forall is_byte (varint x)) as Hb by (intros; by apply varint_bytes, u63_u64).
  unfold mbind, M_bind. rewrite read_number_ok by (rewrite ?Forall_app; auto). rewrite read_number_ok by (rewrite ?Forall_app; auto).
  rewrite read_number_ok by auto. rewrite <- (app_nil_r (varint (MhLength p))). rewrite read_number_ok by auto.
  cbn. unfold is_u63 in *. rewrite i64_small by lia. by destruct p.
Qed.

Lemma prefix_of_ok c p : wf c -> Prefix_of c = Ok p -> prefix_ok p.
Proof.
  intros [d Hl Hd|codec code d Hc Hh].
  - destruct (parts_v0 d Hl Hd) as (_ & _ & _ & ->). intros [= <-]. unfold prefix_ok, is_u63, DagProtobuf, SHA2_256. cbn. lia.
  - destruct (parts_v1 codec code d Hc Hh) as (_ & _ & _ & ->). intros [= <-]. destruct Hh as (Hcode & Hl & _).
    split_and!; cbn; [unfold is_u63; lia|done|done|by apply length_u63].
Qed.

Lemma sum_prefix c p data : wf c -> Prefix_of c = Ok p ->
  mh_Sum data (MhType p) (if MhType p =? IDENTITY then -1 else MhLength p) = Hash c -> Sum p data = Ok c.
Proof.
  unfold Sum. intros [d Hl Hd|codec code d Hc Hh].
  - destruct (parts_v0 d Hl Hd) as (_ & _ & -> & ->). intros [= <-]. cbn. intros ->. cbn. unfold NewCidV0. by rewrite new_v0.
  - destruct (parts_v1 codec code d Hc Hh) as (_ & _ & -> & ->). intros [= <-]. cbn. intros ->. cbn.
    by rewrite new_v1 by by apply u63_u64.
Qed.

(** The prefix of an identifier can be written and read back, begins the bytes
    of an identifier of version 1, and makes the same identifier again of any
    content with the same hash. *)
Theorem prefix_reproduces c p : wf c -> Prefix_of c = Ok p ->
  exists bz, Prefix_Bytes p = Ok bz /\ PrefixFromBytes bz = Ok p
    /\ (Version c = 1 -> exists rest, Bytes c = bz ++ rest)
    /\ forall data, mh_Sum data (MhType p) (if MhType p =? IDENTITY then -1 else MhLength p) = Hash c -> Sum p data = Ok c.
Proof.
  intros Hw Hp. pose proof (prefix_of_ok c p Hw Hp) as Ho. eexists. split; [by apply prefix_bytes|]. split; [by apply prefix_read|].
  split; [|intros data; by apply sum_prefix]. intros Hv. revert Hp Hv. destruct Hw as [d Hl Hd|codec code d Hc Hh].
  - destruct (parts_v0 d Hl Hd) as (-> & _). done.
  - destruct (parts_v1 codec code d Hc Hh) as (_ & _ & _ & ->). intros [= <-] _. exists d. cbn. unfold multihash.
    rewrite (varint_small 1) by lia. by rewrite <- !app_assoc.
Qed.

(** Adding a file of at most one block gives an identifier of version 0, with a
    text of 46 characters that begins with Qm and decodes to it, equal to what the
    prefix makes of the block; larger files are refused, and different files have
    different blocks. *)
Theorem file_identified data data' : Forall is_byte data ->
  if DefaultChunkSize <? len data then exists e, AddBytes data = Err e
  else exists c s, AddBytes data = Ok c /\ wf c /\ Version c = 0 /\ AddBytesString data = Ok s
    /\ String.length s = 46%nat /\ String.prefix "Qm" s = true /\ Decode s = Ok c
    /\ (exists p, Prefix_of c = Ok p /\ Sum p (encodeUnixFSFileBlock data) = Ok c)
    /\ (len data' <= DefaultChunkSize -> encodeUnixFSFileBlock data = encodeUnixFSFileBlock data' -> data = data').
Proof.
  intros Hb. unfold AddBytesString, AddBytes. destruct (Z.ltb_spec DefaultChunkSize (len data)) as [|Hl]; [by eexists|].
  destruct (Sum_sha256 (encodeUnixFSFileBlock data)) as (d & Hd & Hdb & E32 & ->). cbn [mbind res_bind refuse].
  unfold NewCidV0. rewrite new_v0 by done. destruct (parts_v0 d Hd Hdb) as (Hv & _ & Hh & Hp).
  exists (mkCid (multihash SHA2_256 d)), (B58String (multihash SHA2_256 d)).
  destruct (B58_sha256 d Hd Hdb) as [Hlen Hpre]. pose proof (wf_v0 d Hd Hdb) as Hw. cbn [mbind res_bind].
  unfold Cid_String. rewrite Hv, Hh. split_and!; try done; [by apply decode_v0| |].
  - eexists. split; [done|]. apply sum_prefix; [done|done|]. by rewrite Hh.
  - intros Hl' E. unfold DefaultChunkSize in *. rewrite !block_form in E by lia. by apply block_inj in E; [|lia..].
Qed.

End Files.
