(* ===== verification/CidRef.v ===== *)
(** * cmd/ipfs: reference implementations of the multiformats packages

    Executable varints, multihashes, base 58 of SHA2-256 multihashes, and simple
    stand-ins for multibase and JSON that satisfy the laws of [Cid], with the
    witnesses of its theorems. *)

From Stdlib Require Import ZArith Lia Ascii.
From stdpp Require Import base strings list.
From S2P Require Import Prelude Store GoLib Varint Cid.

Module CidRef.

(** ** Varints of 63 bits *)

Definition from_uvarint (buf : list Z) : Z * Z * option string :=
  match uvarint buf with
  | (x, n, None) => if x <? 2 ^ 63 then (x, n, None) else (0, 0, Some "ErrOverflow"%string)
  | r => r
  end.

Definition number_of (l : list Z) : res Z :=
  match from_uvarint l with (x, _, None) => Ok x | (_, _, Some e) => Err e end.

(** Bytes up to one without the top bit, ten at most. *)
Fixpoint collect {S} (fuel : nat) (next : M S Z) (acc : list Z) : M S Z := fun s =>
  match fuel with
  | O => (Err "ErrOverflow", s)
  | Datatypes.S fuel =>
      match next s with
      | (Ok b, s') => if b <? 128 then (number_of (acc ++ [b]), s') else collect fuel next (acc ++ [b]) s'
      | (Err e, s') => (Err (if bool_decide (acc = []) then e else if bool_decide (e = EOF) then "unexpected EOF" else e), s')
      | (Panic p, s') => (Panic p, s')
      end
  end.

#[export] Instance varint_ops : VarintOps := {|
  UvarintSize x := len (varint x);
  PutUvarint buf x :=
    if len (varint x) <=? len buf then Ok (varint x ++ drop (length (varint x)) buf, len (varint x))
    else Panic "index out of range";
  FromUvarint := from_uvarint;
  ReadUvarint S next := collect 10 next [] |}.

Lemma from_uvarint_law buf x n : Forall is_byte buf ->
  from_uvarint buf = (x, n, None) <-> is_u63 x /\ n = len (varint x) /\ exists rest, buf = varint x ++ rest.
Proof.
  intros Hb. unfold from_uvarint. split.
  - destruct (uvarint buf) as [[y m] [e|]] eqn:E; [done|]. destruct (Z.ltb_spec y (2 ^ 63)); [|done]. intros [= <- <-].
    apply uvarint_inv in E as (Hy & rest & -> & ->); [|done]. unfold is_u63, is_u64 in *. split_and!; [lia..|]. by exists rest.
  - intros (Hx & -> & rest & ->). rewrite uvarint_varint by by apply u63_u64. unfold is_u63 in Hx.
    by destruct (Z.ltb_spec x (2 ^ 63)); [|lia].
Qed.

(** Only the last byte of a number is below 128. *)
Lemma groups_shape n v : 0 <= v < 128 ^ Z.of_nat (S n) ->
  exists init b, groups (S n) v = init ++ [b] /\ Forall (fun b => 128 <= b) init /\ b < 128.
Proof.
  revert v. induction n as [|n IH]; intros v Hv; rewrite groups_S; destruct (Z.leb_spec 128 v).
  1: change (128 ^ Z.of_nat 1) with 128 in Hv; lia.
  1, 3: by exists [], v.
  destruct (IH (v / 128)) as (init & b & -> & Hi & Hb); [by apply group_div|].
  exists (128 + v mod 128 :: init), b. split_and!; [done| |done]. constructor; [|done].
  pose proof (Z.mod_pos_bound v 128). lia.
Qed.

Lemma shape_unique init b init' b' rest : Forall (fun b => 128 <= b) init -> b < 128 -> Forall (fun b => 128 <= b) init' -> b' < 128 ->
  init ++ [b] = (init' ++ [b']) ++ rest -> rest = [].
Proof.
  intros Hi Hb. revert init'. induction Hi as [|x init Hx Hi IH]; intros init' Hi' Hb' E; destruct Hi' as [|y init' Hy Hi']; cbn in E.
  - by injection E as _ <-.
  - injection E as -> E. lia.
  - injection E as -> E. lia.
  - injection E as _ E. by apply IH in E.
Qed.

Lemma collect_shape {S} fuel (next : M S Z) acc init b s s' : Forall (fun b => 128 <= b) init -> b < 128 -> (length init < fuel)%nat ->
  reads next (init ++ [b]) s s' -> collect fuel next acc s = (number_of (acc ++ init ++ [b]), s').
Proof.
  intros Hi Hb. revert fuel acc s. induction Hi as [|x init Hx Hi IH]; intros [|fuel] acc s Hl Hr; cbn in Hl, Hr |- *; try lia.
  - destruct Hr as (s1 & -> & ->). by destruct (Z.ltb_spec b 128); [|lia].
  - destruct Hr as (s1 & -> & Hr). destruct (Z.ltb_spec x 128); [lia|]. rewrite (IH fuel) by (try done; lia).
    by rewrite <- app_assoc.
Qed.

(** All outcomes. *)
Lemma collect_cases {S} fuel (next : M S Z) acc s r s' : collect fuel next acc s = (r, s') ->
  exists bs s1, reads next bs s s1 /\
    ((s' = s1 /\ exists init b, bs = init ++ [b] /\ Forall (fun b => 128 <= b) init /\ b < 128 /\ r = number_of (acc ++ bs))
     \/ (s' = s1 /\ r = Err "ErrOverflow"%string)
     \/ (exists e, next s1 = (Err e, s') /\
           r = Err (if bool_decide (acc ++ bs = []) then e else if bool_decide (e = EOF) then "unexpected EOF"%string else e))
     \/ exists p, next s1 = (Panic p, s')).
Proof.
  revert acc s. induction fuel as [|fuel IH]; intros acc s; cbn.
  { intros [= <- <-]. exists [], s. split; [done|]. by right; left. }
  destruct (next s) as [[b|e|p] s1] eqn:E.
  - destruct (Z.ltb_spec b 128).
    + intros [= <- <-]. exists [b], s1. split; [by exists s1|]. left. split; [done|]. by exists [], b.
    + intros Hc. apply IH in Hc as (bs & s2 & Hr & Hc). exists (b :: bs), s2. split; [by exists s1|].
      rewrite <- app_assoc in Hc. cbn in Hc. destruct Hc as [(-> & init & b' & -> & Hi & Hb & ->)|Hc]; [left|right; done].
      split; [done|]. exists (b :: init), b'. split_and!; [done|by constructor|done..].
  - intros [= <- <-]. exists [], s. split; [done|]. right. right. left. exists e. by rewrite app_nil_r.
  - intros [= <- <-]. exists [], s. split; [done|]. right. right. right. by exists p.
Qed.

Lemma number_of_Ok l x : Forall is_byte l -> number_of l = Ok x <-> is_u63 x /\ exists rest, l = varint x ++ rest.
Proof.
  intros Hb. unfold number_of. destruct (from_uvarint l) as [[y n] [e|]] eqn:E.
  - split; [done|]. intros (Hx & rest & Hl). assert (from_uvarint l = (x, len (varint x), None)) as E'; [|congruence].
    apply from_uvarint_law; [done|by eauto].
  - apply from_uvarint_law in E as (Hy & -> & rest & ->); [|done]. split; [intros [= <-]; by eauto|].
    intros (Hx & rest' & E). by apply varint_inj in E as [-> _]; [|apply u63_u64..].
Qed.

Lemma uvarint_errors buf i x sh v n e : uvarint_from i x sh buf = (v, n, Some e) -> e <> EOF.
Proof.
  revert i x sh. induction buf as [|b buf IH]; intros i x sh; cbn [uvarint_from]; [by intros [= _ _ <-]|].
  destruct (b <? 128); [|apply IH]. repeat (case_match; [by intros [= _ _ <-]|]). done.
Qed.

Lemma number_of_Err l e : number_of l = Err e -> e <> EOF.
Proof.
  unfold number_of, from_uvarint. destruct (uvarint l) as [[y n] [e'|]] eqn:E; [|by destruct (y <? 2 ^ 63); intros [= <-]].
  intros [= <-]. by eapply uvarint_errors.
Qed.

Lemma number_of_returns l p : number_of l <> Panic p.
Proof. unfold number_of. by destruct (from_uvarint l) as [[? ?] [?|]]. Qed.

Lemma collect_number {S} (next : M S Z) s x s' : gives_bytes next s ->
  collect 10 next [] s = (Ok x, s') <-> is_u63 x /\ reads next (varint x) s s'.
Proof.
  intros Hg. assert (is_u63 x -> exists init b, varint x = init ++ [b] /\ Forall (fun b => 128 <= b) init /\ b < 128) as Hs
    by (intros Hx; by apply (groups_shape 9), u64_groups, u63_u64).
  split.
  - intros (bs & s1 & Hr & [(-> & init & b & -> & Hi & Hb & Hn)|[(_ & Hn)|[(e & _ & Hn)|(p & Hn)]]])%collect_cases; try done.
    2: by apply Hg in Hr as [_ Hp]; apply Hp in Hn.
    pose proof Hr as [Hbytes _]%Hg. symmetry in Hn. apply number_of_Ok in Hn as (Hx & rest & E); [|done]. split; [done|].
    destruct (Hs Hx) as (init' & b' & Hv & Hi' & Hb'). cbn [app] in E. pose proof E as E'. rewrite Hv in E'.
    apply shape_unique in E'; [|done..]. subst rest. rewrite app_nil_r in E. by rewrite <- E.
  - intros [Hx Hr]. destruct (Hs Hx) as (init & b & Hv & Hi & Hb). pose proof (varint_len x (u63_u64 x Hx)) as Hl.
    rewrite Hv in Hr, Hl. rewrite len_app in Hl. change (len [b]) with 1 in Hl.
    rewrite (collect_shape 10 next [] init b s s') by (try done; unfold len in Hl; lia). f_equal. cbn [app]. rewrite <- Hv.
    apply number_of_Ok; [by apply varint_bytes, u63_u64|]. split; [done|]. exists []. by rewrite app_nil_r.
Qed.

#[export] Instance varint_laws : VarintLaws.
Proof.
  split; cbn [UvarintSize PutUvarint FromUvarint ReadUvarint varint_ops].
  - done.
  - intros buf x _ Hl. by destruct (Z.leb_spec (len (varint x)) (len buf)); [|lia].
  - apply from_uvarint_law.
  - intros S next s x s' Hg. by apply collect_number.
  - intros S next s e s' Hg (bs & s1 & Hr & Hc)%collect_cases. exists bs, s1. split; [done|].
    destruct Hc as [(-> & init & b & -> & Hi & Hb & Hn)|[(-> & [= ->])|[(e' & Hn & [= ->])|(p & Hn)]]].
    + left. split; [done|]. symmetry in Hn. by apply number_of_Err in Hn.
    + by left.
    + right. exists e'. split; [done|]. destruct bs; [by left|]. right. cbn. split; [done|]. by destruct (bool_decide_reflect (e' = EOF)).
    + by apply Hg in Hr as [_ Hp]; apply Hp in Hn.
  - intros S next s p s' Hg (bs & s1 & Hr & Hc)%collect_cases.
    destruct Hc as [(-> & init & b & -> & Hi & Hb & Hn)|[(_ & Hn)|[(e' & _ & Hn)|(p' & Hn)]]]; try done.
    + symmetry in Hn. by apply number_of_returns in Hn.
    + by apply Hg in Hr as [_ Hp]; apply Hp in Hn.
Qed.

(** ** Multihashes *)

(** The function, the digest and the number of bytes. *)
Definition mh_parse (l : list Z) : res (Z * list Z * Z) :=
  match from_uvarint l with
  | (code, n, None) =>
      match from_uvarint (drop (Z.to_nat n) l) with
      | (size, m, None) =>
          let rest := drop (Z.to_nat (n + m)) l in
          if (size <? 2 ^ 31) && (size <=? len rest) then Ok (code, take (Z.to_nat size) rest, n + m + size) else Err "ErrInconsistentLen"
      | _ => Err "ErrTooShort"
      end
  | _ => Err "ErrTooShort"
  end.

Lemma mh_parse_law l code d n : Forall is_byte l ->
  mh_parse l = Ok (code, d, n) <-> hash_ok code d /\ n = len (multihash code d) /\ exists rest, l = multihash code d ++ rest.
Proof.
  intros Hl. unfold mh_parse. split.
  - destruct (from_uvarint l) as [[c n1] [e|]] eqn:E; [done|]. apply from_uvarint_law in E as (Hc & -> & r1 & ->); [|done].
    rewrite drop_len_app. apply Forall_app in Hl as [_ Hl].
    destruct (from_uvarint r1) as [[size n2] [e|]] eqn:E; [done|]. apply from_uvarint_law in E as (Hs & -> & r2 & ->); [|done].
    apply Forall_app in Hl as [_ Hl]. rewrite app_assoc, <- len_app, drop_len_app.
    destruct (_ && _) eqn:E; [|done]. apply andb_true_iff in E as [E1%Z.ltb_lt E2%Z.leb_le]. intros [= <- <- <-].
    assert (len (take (Z.to_nat size) r2) = size) as Ht by (unfold is_u63, len in *; rewrite length_take; lia).
    split_and!; [|unfold multihash; rewrite Ht, !len_app; lia|].
    + split_and!; [done|lia|by apply Forall_take].
    + exists (drop (Z.to_nat size) r2). unfold multihash. by rewrite Ht, <- !app_assoc, take_drop.
  - intros (Hh & -> & rest & ->). pose proof Hh as (Hc & Hd & Hb). unfold multihash in *. rewrite <- !app_assoc in *.
    assert (from_uvarint (varint code ++ varint (len d) ++ d ++ rest) = (code, len (varint code), None)) as ->
      by (apply from_uvarint_law; [done|by eauto]).
    rewrite drop_len_app. apply Forall_app in Hl as [_ Hl].
    assert (from_uvarint (varint (len d) ++ d ++ rest) = (len d, len (varint (len d)), None)) as ->
      by (apply from_uvarint_law; [done|]; split; [by apply length_u63|by eauto]).
    rewrite app_assoc, <- len_app, drop_len_app, take_len_app. rewrite !len_app. pose proof (len_nonneg rest).
    destruct (Z.ltb_spec (len d) (2 ^ 31)); [|lia]. destruct (Z.leb_spec (len d) (len d + len rest)); [|lia].
    cbn. by rewrite Z.add_assoc.
Qed.

(** Base 58, most significant digit first. *)
Definition alphabet : string := "123456789ABCDEFGHJKLMNPQRSTUVWXYZabcdefghijkmnopqrstuvwxyz".
Definition digit_char (d : Z) : ascii := default "?"%char (String.get (Z.to_nat d) alphabet).
Fixpoint char_digit (s : string) (c : ascii) : Z :=
  match s with EmptyString => 0 | String a s => if Ascii.eqb a c then 0 else 1 + char_digit s c end.

Fixpoint base58 (n : nat) (v : Z) : string :=
  match n with O => "" | S n => String (digit_char (v / 58 ^ Z.of_nat n mod 58)) (base58 n v) end.
Fixpoint unbase58 (s : string) : Z :=
  match s with EmptyString => 0 | String c s => char_digit alphabet c * 58 ^ Z.of_nat (String.length s) + unbase58 s end.

Lemma digits_ok d : 0 <= d < 58 -> char_digit alphabet (digit_char d) = d /\ alphanumeric (digit_char d) = true.
Proof.
  assert (forallb (fun n => let d := Z.of_nat n in (char_digit alphabet (digit_char d) =? d) && alphanumeric (digit_char d)) (seq 0 58) = true)
    as Hf by by vm_compute.
  intros Hd. rewrite forallb_forall in Hf. specialize (Hf (Z.to_nat d)). rewrite Z2Nat.id in Hf by lia.
  assert (In (Z.to_nat d) (seq 0 58)) as Hin by (apply in_seq; lia). apply Hf, andb_true_iff in Hin as [E%Z.eqb_eq ?]. by split.
Qed.

Lemma base58_length n v : String.length (base58 n v) = n.
Proof. induction n as [|n IH]; cbn; [done|by rewrite IH]. Qed.

Lemma unbase58_base58 n v : unbase58 (base58 n v) = v mod 58 ^ Z.of_nat n.
Proof.
  induction n as [|n IH]; cbn [base58 unbase58]; [by rewrite Z.mod_1_r|].
  rewrite base58_length, IH, (proj1 (digits_ok _ (Z.mod_pos_bound _ 58 eq_refl))), Nat2Z.inj_succ, Z.pow_succ_r by lia.
  rewrite (Z.mul_comm 58), Z.rem_mul_r by lia. lia.
Qed.

Lemma base58_plain n v : plain (base58 n v).
Proof.
  unfold plain. induction n as [|n IH]; cbn; constructor; [|done]. apply digits_ok, Z.mod_pos_bound. lia.
Qed.

(** Text of bytes in hexadecimal. *)
Definition hex (l : list Z) : string := hex_encode (bytes_to_string l).
Definition unhex (s : string) : res (list Z) := r ← hex_decode s; Ok (string_to_bytes r).

Lemma unhex_hex l : Forall is_byte l -> unhex (hex l) = Ok l.
Proof. intros Hl. unfold unhex, hex. rewrite hex_decode_encode. cbn. by rewrite string_to_bytes_to_string. Qed.

Lemma hex_digit_alnum n : (n < 16)%N -> alphanumeric (hex_digit n) = true.
Proof.
  intros Hn. assert (forallb (fun k => alphanumeric (hex_digit (N.of_nat k))) (seq 0 16) = true) as Hf by by vm_compute.
  rewrite forallb_forall in Hf. specialize (Hf (N.to_nat n)). rewrite N2Nat.id in Hf. apply Hf, in_seq. lia.
Qed.

Lemma hex_plain l : plain (hex l).
Proof.
  unfold plain, hex. induction (bytes_to_string l) as [|c s IH]; cbn [hex_encode String.list_ascii_of_string]; [constructor|].
  pose proof (N_ascii_bounded c). pose proof (N.mod_upper_bound (N_of_ascii c) 16 ltac:(done)).
  repeat constructor; [| |done]; apply hex_digit_alnum; [apply N.Div0.div_lt_upper_bound; lia|lia].
Qed.

Lemma le_decode_app a b : le_decode (a ++ b) = le_decode a + 256 ^ len a * le_decode b.
Proof.
  induction a as [|x a IH]; cbn [app le_decode]; [change (len []) with 0; lia|].
  rewrite IH, len_cons, Z.pow_add_r by (try apply len_nonneg; lia). lia.
Qed.

Lemma le_decode_bound l : Forall is_byte l -> 0 <= le_decode l < 256 ^ len l.
Proof.
  induction 1 as [|x l Hx Hl IH]; cbn [le_decode]; [done|]. unfold is_byte in Hx.
  rewrite len_cons, Z.pow_add_r by (try apply len_nonneg; lia). lia.
Qed.

Lemma le_encode_decode l : Forall is_byte l -> le_encode (length l) (le_decode l) = l.
Proof.
  induction 1 as [|x l Hx Hl IH]; cbn [le_decode le_encode length]; [done|]. unfold is_byte in Hx.
  rewrite (Z.mul_comm 256), Z.mod_add, Z.div_add, Z.mod_small, Z.div_small by lia. by rewrite Z.add_0_l, IH.
Qed.

Lemma be_encode_decode l : Forall is_byte l -> be_encode (length l) (be_decode l) = l.
Proof.
  intros Hl. unfold be_encode, be_decode. rewrite <- (length_rev l), le_encode_decode by by apply Forall_rev.
  apply rev_involutive.
Qed.

(** The number of a SHA2-256 multihash lies between two numbers whose 45th and
    46th digits agree. *)
Lemma sha256_number d : len d = 32 -> Forall is_byte d -> be_decode ([18; 32] ++ d) / 58 ^ 44 = 23 * 58 + 44.
Proof.
  intros Hl Hd. unfold be_decode. rewrite rev_app_distr, le_decode_app.
  assert (len (rev d) = 32) as Hr by (unfold len in *; by rewrite length_rev).
  pose proof (le_decode_bound (rev d) (Forall_rev Hd)) as Hb. rewrite Hr in *.
  change (le_decode (rev [18; 32])) with 4640. revert Hb. generalize (le_decode (rev d)). intros x Hx.
  symmetry. apply Z.div_unique with (x + 256 ^ 32 * 4640 - 58 ^ 44 * (23 * 58 + 44)); [left|lia].
  assert (0 <= 256 ^ 32 * 4640 - 58 ^ 44 * (23 * 58 + 44)) by by vm_compute.
  assert (256 ^ 32 * 4641 - 58 ^ 44 * (23 * 58 + 44) <= 58 ^ 44) by by vm_compute. lia.
Qed.

Definition is_v0 (h : list Z) : bool := (len h =? 34) && bool_decide (take 2 h = [18; 32]).

(** The default and full length of SHA2-256; the digest is the end of the content. *)
Definition sha256 (data : list Z) : list Z := be_encode 32 (be_decode data).

#[export] Instance multihash_ops : MultihashOps := {|
  mh_Decode l := p ← mh_parse l; let '(code, d, n) := p in ensure (n =? len l) "ErrInconsistentLen";; mret (mkDecoded code (len d) d);
  mh_Cast l := p ← mh_parse l; let '(code, d, n) := p in ensure (n =? len l) "ErrInconsistentLen";; mret l;
  MHFromBytes l := p ← mh_parse l; let '(code, d, n) := p in mret (n, multihash code d);
  mh_Sum data code length :=
    if (code =? SHA2_256) && ((length =? -1) || (length =? 32)) then Ok (multihash SHA2_256 (sha256 data)) else Err "ErrSumNotSupported";
  B58String h := if is_v0 h then base58 46 (be_decode h) else String "Z" (hex h);
  FromB58String s :=
    if looks_v0 s then Ok (be_encode 34 (unbase58 s))
    else match s with String "Z" t => unhex t | _ => Err "ErrInvalid" end |}.

Lemma parse_full l code d n : Forall is_byte l ->
  mh_parse l = Ok (code, d, n) /\ n = len l <-> hash_ok code d /\ n = len l /\ l = multihash code d.
Proof.
  intros Hl. rewrite mh_parse_law by done. split.
  - intros ((Hh & Hn & rest & ->) & ->). rewrite len_app in *. pose proof (len_nonneg rest).
    destruct rest; [rewrite app_nil_r; by split_and!|]. rewrite len_cons in *. pose proof (len_nonneg rest). lia.
  - intros (Hh & -> & ->). split_and!; [done..| |done]. exists []. by rewrite app_nil_r.
Qed.

Lemma parse_returns l : returns (mh_parse l).
Proof. unfold mh_parse. repeat case_match; done. Qed.

Lemma v0_text h : Forall is_byte h -> is_v0 h = true ->
  looks_v0 (base58 46 (be_decode h)) = true /\ be_encode 34 (unbase58 (base58 46 (be_decode h))) = h.
Proof.
  intros Hb [Hl%Z.eqb_eq Ht%bool_decide_eq_true]%andb_true_iff. rewrite <- (take_drop 2 h), Ht in Hl, Hb |- *.
  rewrite len_app in Hl. change (len [18; 32]) with 2 in Hl. apply Forall_app in Hb as [_ Hb].
  pose proof (sha256_number (drop 2 h)) as Hn. specialize (Hn ltac:(lia) Hb). set (N := be_decode _) in *. split.
  - unfold looks_v0. rewrite base58_length. cbn [base58 Z.of_nat Nat.eqb andb].
    change (Z.of_nat 45) with (44 + 1). rewrite (Z.pow_add_r 58 44 1), <- Z.div_div by lia. change (58 ^ 1) with 58.
    change (Z.of_nat 44) with 44. rewrite Hn. by destruct (base58 44 N).
  - rewrite unbase58_base58. assert (N mod 58 ^ Z.of_nat 46 = N) as ->.
    + apply Z.mod_small. pose proof (Z.div_mod N (58 ^ 44)) as Hdm. pose proof (Z.mod_pos_bound N (58 ^ 44)) as Hm.
      rewrite Hn in Hdm. change (58 ^ Z.of_nat 46) with (58 ^ 44 * 3364). lia.
    + unfold N. replace 34%nat with (length ([18; 32] ++ drop 2 h)) by (rewrite length_app; unfold len in Hl; cbn; lia).
      apply be_encode_decode. apply Forall_app. split; [|done]. repeat constructor; unfold is_byte; lia.
Qed.

(** A buffer that is a multihash to the last byte. *)
Lemma whole {A} l (g : Z -> list Z -> A) y : Forall is_byte l ->
  (p ← mh_parse l; let '(code, d, n) := p in ensure (n =? len l) "ErrInconsistentLen";; mret (g code d)) = Ok y
  <-> exists code d, hash_ok code d /\ l = multihash code d /\ y = g code d.
Proof.
  intros Hl. split.
  - destruct (mh_parse l) as [[[code d] n]|e|p] eqn:E; [|done..]. cbn. destruct (Z.eqb_spec n (len l)) as [En|]; [|done].
    intros [= <-]. destruct (proj1 (parse_full l code d n Hl) (conj E En)) as (Hh & _ & ->). by exists code, d.
  - intros (code & d & Hh & El & ->). destruct (proj2 (parse_full l code d (len l) Hl)) as [-> _]; [done|].
    cbn. by rewrite Z.eqb_refl.
Qed.

Lemma sha256_bytes data : len (sha256 data) = 32 /\ Forall is_byte (sha256 data).
Proof. unfold sha256. split; [unfold len; by rewrite be_encode_length|apply Forall_rev, le_encode_bytes]. Qed.

#[export] Instance multihash_laws : MultihashLaws.
Proof.
  split; cbn [mh_Decode mh_Cast MHFromBytes mh_Sum B58String FromB58String multihash_ops].
  - intros l [code ln d] Hl. rewrite (whole l (fun c d => mkDecoded c (len d) d)) by done. cbn. naive_solver.
  - intros l h Hl. rewrite (whole l (fun _ _ => l)) by done. naive_solver.
  - intros l n h Hl. split.
    + destruct (mh_parse l) as [[[code d] n']|e|p] eqn:E; [|done..]. intros [= <- <-].
      apply mh_parse_law in E as (Hh & -> & rest & ->); [|done]. split; [done|]. by exists code, d, rest.
    + intros (-> & code & d & rest & Hh & -> & ->).
      by rewrite (proj2 (mh_parse_law _ code d (len (multihash code d)) Hl)) by (split_and!; [done..|by exists rest]).
  - intros l. pose proof (parse_returns l). destruct (mh_parse l) as [[[code d] n]|e|p]; [|done..]. cbn. by destruct (n =? len l).
  - intros data. exists (sha256 data). pose proof (sha256_bytes data) as [? ?]. by split_and!.
  - intros code d Hh. pose proof (multihash_bytes code d Hh) as Hb. destruct (is_v0 _) eqn:Ev.
    + destruct (v0_text _ Hb Ev) as [-> ->]. done.
    + assert (looks_v0 (String "Z" (hex (multihash code d))) = false) as ->; [|by apply unhex_hex].
      unfold looks_v0. by destruct (_ =? _)%nat.
  - intros h. destruct (is_v0 h); [apply base58_plain|]. constructor; [done|apply hex_plain].
  - intros d Hl Hd. assert (is_v0 (multihash SHA2_256 d) = true) as Ev by (unfold is_v0; by rewrite sha256_form, len_app, Hl).
    rewrite Ev. pose proof (multihash_bytes _ _ (sha256_ok d Hl Hd)) as Hb. destruct (v0_text _ Hb Ev) as [Hv _].
    rewrite base58_length. split; [done|]. unfold looks_v0 in Hv. by apply andb_true_iff in Hv as [_ ?].
Qed.

(** ** Multibase and JSON

    Every base writes hexadecimal behind its character. *)

Definition known_base (base : Z) : bool := bool_decide (base ∈ [Base32; Base58BTC; 102; Base256Emoji]).

#[export] Instance multibase_ops : MultibaseOps := {|
  mb_Encode base data := if known_base base then Ok (base_prefix base ++ hex data)%string else Err "unsupported";
  mb_Decode s :=
    if String.prefix (base_prefix Base256Emoji) s
    then data ← unhex (String.substring 4 (String.length s - 4) s); Ok (Base256Emoji, data)
    else match s with
    | String c t =>
        let base := Z.of_N (N_of_ascii c) in
        if known_base base then data ← unhex t; Ok (base, data) else Err "unsupported"
    | EmptyString => Err "too short"
    end;
  NewEncoder base := ensure (known_base base) "unsupported" |}.

Lemma known_range base : known_base base = true -> (0 <= base < 128 \/ base = Base256Emoji) /\ base <> 81.
Proof.
  unfold known_base, Base32, Base58BTC, Base256Emoji. rewrite bool_decide_eq_true, !elem_of_cons, elem_of_nil. lia.
Qed.

Lemma emoji_prefix t : String.prefix (base_prefix Base256Emoji) (base_prefix Base256Emoji ++ t) = true /\
  String.substring 4 (String.length (base_prefix Base256Emoji ++ t) - 4) (base_prefix Base256Emoji ++ t) = t.
Proof.
  split; [by destruct t|]. change (String.length (base_prefix Base256Emoji ++ t)) with (4 + String.length t)%nat.
  replace (4 + String.length t - 4)%nat with (String.length t) by lia. apply substring_all.
Qed.

Lemma ascii_prefix base t : 0 <= base < 128 ->
  String.prefix (base_prefix Base256Emoji) (base_prefix base ++ t) = false /\
  exists c, (base_prefix base ++ t)%string = String c t /\ Z.of_N (N_of_ascii c) = base.
Proof.
  intros Hb. unfold base_prefix at 2 3. destruct (Z.eqb_spec base Base256Emoji) as [->|_]; [unfold Base256Emoji in Hb; lia|].
  assert (Z.of_N (N_of_ascii (ascii_of_N (Z.to_N base))) = base) as Hc by (rewrite N_ascii_embedding by lia; lia).
  split; [|by eexists]. change (base_prefix Base256Emoji) with (String (ascii_of_N 240) (bytes_to_string [159; 154; 128])).
  change (String ?a "" ++ ?x)%string with (String a x). cbn [String.prefix]. destruct (ascii_dec _ _) as [E|]; [|done].
  rewrite <- E, N_ascii_embedding in Hc by done. lia.
Qed.

#[export] Instance multibase_laws : MultibaseLaws.
Proof.
  split; cbn [mb_Encode mb_Decode NewEncoder multibase_ops].
  - intros base data s Hd. destruct (known_base base) eqn:Ek; [|done]. intros [= <-].
    destruct (known_range base Ek) as [[Hb| ->] _].
    + destruct (ascii_prefix base (hex data) Hb) as (-> & c & -> & ->). rewrite Ek, unhex_hex by done. done.
    + destruct (emoji_prefix (hex data)) as [-> ->]. by rewrite unhex_hex.
  - intros base data s. destruct (known_base base); [|done]. intros [= <-]. eexists. split; [done|]. by destruct data.
  - intros data s. by destruct (known_base 81) eqn:Ek; [apply known_range in Ek as [_ ?]|].
  - intros data. eexists. split; [done|]. constructor; [done|apply hex_plain].
  - intros base data s. by destruct (known_base base).
  - intros base. destruct (known_base base) eqn:Ek; [|done]. intros _. by apply known_range.
  - intros base. by destruct (known_base base).
Qed.

(** The field of an object with no other field, without escapes. *)
#[export] Instance cid_json : CidJson := {|
  json_target b :=
    if bool_decide (b = string_to_bytes "null") then Ok None
    else if bool_decide (take 6 b = [123; 34; 47; 34; 58; 34]) && bool_decide (drop (length b - 2) b = [34; 125]) then
      Ok (Some (bytes_to_string (take (length b - 8) (drop 6 b))))
    else Err "invalid character" |}.


#[export] Instance cid_json_laws : CidJsonLaws.
Proof.
  split; cbn [json_target cid_json]; [|done]. intros s _. unfold json_object.
  set (b := string_to_bytes s). set (open := [123; 34; 47; 34; 58; 34]). set (close := [34; 125]).
  assert (length (open ++ b ++ close) = (6 + length b + 2)%nat) as Hl by (rewrite !length_app; cbn; lia). rewrite Hl.
  rewrite bool_decide_false by done. rewrite bool_decide_true by done.
  replace (6 + length b + 2 - 2)%nat with (length (open ++ b)) by (rewrite length_app; cbn; lia).
  replace (6 + length b + 2 - 8)%nat with (length b) by lia. change (drop 6 (open ++ b ++ close)) with (b ++ close).
  rewrite (app_assoc open), drop_app_length, take_app_length, bool_decide_true by done. cbn [andb].
  unfold b. by rewrite bytes_of_string.
Qed.

End CidRef.

Module CidWitness.
Import CidRef.

Definition digest : list Z := sha256 [104; 101; 108; 108; 111].
Definition raw : Cid := mkCid (1 :: varint Raw ++ multihash SHA2_256 digest).

Lemma digest_ok : hash_ok SHA2_256 digest.
Proof. apply sha256_ok; apply sha256_bytes. Qed.

Lemma raw_ok : wf raw.
Proof. apply wf_v1; [by vm_compute|apply digest_ok]. Qed.

Lemma cast_exact_witness : Cast (str raw) = Ok raw /\ returns (Cast [18; 32; 7]).
Proof.
  split.
  - apply (proj2 (proj1 (cast_exact (str raw) raw (wf_bytes raw raw_ok)))). split; [apply raw_ok|done].
  - refine (proj2 (cast_exact [18; 32; 7] raw _)). repeat constructor; unfold is_byte; lia.
Defined.

Lemma identifiers_take_apart_witness : exists c, NewCidV1 Raw (multihash SHA2_256 digest) = Ok c /\ Type_ c = Ok Raw.
Proof.
  destruct (identifiers_take_apart Raw SHA2_256 digest) as (c & E & _ & _ & Et & _); [by vm_compute|apply digest_ok|].
  by exists c.
Defined.

Lemma text_roundtrip_witness : exists s s' s'' e,
  Cid_String raw = Ok s /\ Decode s = Ok raw /\ Parse (AString ("/ipfs/" ++ s)) = Ok raw /\
  StringOfBase 102 raw = Ok s' /\ Decode s' = Ok raw /\ ExtractEncoding s' = Ok 102 /\
  StringOfBase Base256Emoji raw = Ok s'' /\ Decode s'' = Ok raw /\ ExtractEncoding s'' = Err e.
Proof.
  destruct (text_roundtrip raw Undef raw_ok) as ((s & Es & Ed & _ & Ep & _) & Hb & _).
  destruct (Hb 102 (base_prefix 102 ++ hex (str raw))%string eq_refl) as (Hd & He & _).
  destruct (Hb Base256Emoji (base_prefix Base256Emoji ++ hex (str raw))%string eq_refl) as (Hd' & _ & [e He']); [done|].
  exists s. eexists _, _, e. split_and!; [done..|reflexivity|exact Hd|by apply He|reflexivity|exact Hd'|exact He'].
Defined.

Definition stream : Reader := mkReader (str raw ++ [1; 2; 3]) EOF false.

Lemma stream_agrees_witness : exists n o, (CidFromReader stream).1 = Ok (n, o) /\ o = Ok raw.
Proof.
  destruct (stream_agrees stream (CidFromReader stream).1 (CidFromReader stream).2) as (n & o & E & _ & Ho).
  - apply Forall_app. split; [apply wf_bytes, raw_ok|]. repeat constructor; unfold is_byte; lia.
  - by destruct (CidFromReader stream).
  - exists n, o. split; [done|]. assert ((CidFromReader stream).1 = Ok (36, Ok raw)) as E' by by vm_compute. congruence.
Defined.

Lemma prefix_reproduces_witness : exists bz, Prefix_Bytes (mkPrefix 1 Raw SHA2_256 32) = Ok bz
  /\ Sum (mkPrefix 1 Raw SHA2_256 32) [104; 101; 108; 108; 111] = Ok raw.
Proof.
  destruct (prefix_reproduces raw (mkPrefix 1 Raw SHA2_256 32)) as (bz & E & _ & _ & Hs); [apply raw_ok|by vm_compute|].
  exists bz. split; [done|]. apply Hs. by vm_compute.
Defined.

Lemma file_identified_witness : exists c s, AddBytes [104; 105] = Ok c /\ AddBytesString [104; 105] = Ok s /\ Decode s = Ok c.
Proof.
  assert (Forall is_byte [104; 105]) as Hb by (repeat constructor; unfold is_byte; lia).
  destruct (file_identified [104; 105] [] Hb) as (c & s & Ea & _ & _ & Es & _ & _ & Ed & _). by exists c, s.
Defined.

End CidWitness.
